(* ===== verification/_CoqProject ===== *)
-Q . S2P
Prelude.v
Mem.v
KString.v
KStdlib.v
KStdio.v
Int64.v
FreeList.v
Kernel.v
Heap.v
Pmm.v
PageSpec.v
PageAlloc.v
PageFree.v
PmmInv.v
PmmAlloc.v
PmmFree.v
PmmSystem.v
PmmSections.v
PmmFaults.v
PmmConc.v
Os.v
OsTest.v
OsConc.v
X86.v
Cte.v
Trap.v
Trm.v
Pages.v
Vme.v
VmeSpec.v
VmeWalk.v
VmeMap.v
VmeSpace.v
VmeSystem.v
Disk.v
Boot.v
Clock.v
Keyboard.v
Gpu.v
Render.v
Ioe.v
Apic.v
SpinLock.v
MpStart.v
NatInput.v
NatVme.v
NatSpace.v
NatCte.v
NatMpe.v
NatDev.v
Host.v
NatPlatform.v
NatIoe.v
Halt.v
Assert.v
Start.v
Nemu.v
