(* ===== verification/Prelude.v ===== *)
(** * Verification of the NJU OS-lab L1 kernel

    The repository is a small kernel (src/kernel) on an abstract machine
    (src/abstract-machine: am, the machine layer, and klib, a C library). The kernel's own
    work is a physical memory manager, kernel/src/pmm.c. This library models the C code of the
    kernel, of klib and of the machine layer for x86-64 on QEMU as executable functions, and
    proves what the code does.

    ** How the code is modelled

    - A C integer is a [Z]; conversions to a width are written where the code converts
      ([wrap], [signed] in this file). Signed overflow, undefined in C, wraps.
    - Memory is one flat array of bytes (Mem.v); a structure is a layout in it, a pointer an
      address. Reading or writing through a null pointer is a fault.
    - A function of the program is a computation of the monad [M]: it takes a state and gives
      a result with a new state, or a fault: a failed assertion, a panic, a null dereference,
      an index outside an array, a division by zero. [wp m s Q] says that [m] runs from [s]
      without a fault to a result in [Q]: every theorem stated with it includes termination.
    - A loop is a recursion on a number of rounds, [fuel]; running out of it is the fault
      [OutOfFuel], so a [wp] shows that the fuel was enough.
    - What is not code under src/ is a class: I/O ports ([Trm.Ports]), memory-mapped registers
      ([Apic.Mmio]), the time stamp counter ([Clock.Tsc]), compiler builtins
      ([Int64.Builtins]), the page allocator given to [vme_init] ([Pages.PageSource]). Classes
      on top state the documented behaviour of a device a theorem needs ([Disk.AtaDisk],
      [Clock.CmosClock], [Keyboard.KeyboardController], [Apic.IoApicDevice]), each with a
      concrete instance.

    ** Files and sources

    - Prelude.v, Mem.v: integers, lists, the monad; memory, its frames and its setoid.
    - KString.v, KStdlib.v, KStdio.v, Int64.v: klib/src/string.c, stdlib.c, stdio.c, int64.c.
    - Kernel.v: the globals of pmm.c, common.h and the sequential locks. Heap.v: the heap
      list, [allockpage], [kallocHugeMemory] and the huge branch of [kfree]. Pmm.v: [kalloc],
      [kfree], [pmm_init]. FreeList.v is their abstract view, regions and layouts.
      PageSpec.v, PageAlloc.v and PageFree.v refine the code that works on a page to the
      abstract page; PmmInv.v, PmmAlloc.v and PmmFree.v the whole allocator to an abstract
      allocator ([abs_alloc], [abs_free]); PmmSystem.v is the step relation of its clients.
      PmmSections.v cuts [kalloc] and [kfree] into their critical sections, PmmFaults.v shows
      what happens outside of the contract, PmmConc.v interleaves the sections of several
      processors.
    - Os.v: kernel/src/os.c, framework/main.c and the message of [pmm_init]: the allocator and
      a console on one memory, [os->run] of a processor up to its endless loop, and [main] on
      a machine with one processor. OsTest.v: the tests of os.c under #ifdef TEST. OsConc.v:
      [os->run] on all processors at once, interleaved at each character and each critical
      section of the allocator.
    - SpinLock.v: the locks again, with any number of processors and any interleaving.
    - X86.v: descriptors of x86.h and x86-qemu.h. Cte.v: qemu/cte.c, interrupts and contexts
      as values. Trap.v: the same on stacks in memory, with the entry code of qemu/trap64.S.
      Trm.v: ports, the console and the heap of qemu/trm.c. MpStart.v: qemu/mpe.c, the start of
      the other processors. Start.v: [_start_c] and the initialisation of a processor, composed
      of the parts in X86.v, Trm.v and Apic.v. Halt.v: [halt], the stop of the others, a panic
      and what follows [main]. Assert.v: what a failed assertion prints before it halts, and
      klib/src/cpp.c.
    - Pages.v, Vme.v: qemu/vme.c. VmeSpec.v reads the page tables as the processor does, and
      as a tree of tables; VmeWalk.v, VmeMap.v and VmeSpace.v prove the operations against it;
      VmeSystem.v runs of operations on any number of address spaces.
    - Disk.v, Clock.v, Keyboard.v, Gpu.v, Apic.v, Ioe.v: qemu/ioe.c, by device, and the table
      of device registers. Render.v: the pictures that a tree of canvases denotes, and [render]
      against them. Boot.v: qemu/boot/main.c, on top of the disk.
    - The port to Linux, am/src/native. NatVme.v: vme.c and the two functions of platform.c that
      map and unmap a page; NatSpace.v runs of its operations against abstract address spaces;
      NatCte.v: cte.c, from a signal to the restoring of a context, on top of both. NatMpe.v:
      mpe.c as a step relation. NatInput.v: ioe/input.c. NatDev.v: trm.c, ioe/disk.c,
      ioe/audio.c, ioe/timer.c. NatIoe.v: the drivers behind their registers, ioe.c, with
      ioe/gpu.c and the callback of ioe/audio.c. NatPlatform.v: platform.c, the start of a
      program, with [cte_init], signals and [halt], over the calls of Linux in Host.v.
    - Nemu.v: am/src/x86/nemu, a port that is only begun.

    The parts interact as in the program: the allocator calls [memset] of klib and the locks;
    the locks are the atomic exchange of the machine layer; [printf] ends in [putch] on the
    serial port; the kernel prints what the allocator gives it; the boot loader and the disk
    driver use the same drive; [halt] stops processors with the code that starts them; virtual
    memory takes its pages from the allocator it is given, through [PageSource].

    ** What is proved

    - The allocator, for calls within a contract: a huge request leaves room for the header of
      its block ([huge_pre]), a freed block does not make the code take a page header for a free
      block ([free_safe]) and loses no other free block ([free_keeps]). In every state it and
      its clients can reach, the blocks [kalloc] returned are disjoint, inside the heap and
      apart from all metadata ([allocator_safe]); [kalloc] and [kfree] do on every branch what
      the abstract operations say, keep the content of all other blocks, change no byte outside
      of the heap, terminate and release their locks, but for one assertion: the first small
      request of a processor fails it when there is no memory for a page ([kalloc_contract],
      [kfree_contract], [reachable_progress], [kalloc_null]). With several processors in
      the allocator at once, at the granularity of critical sections, and with frees only of
      huge blocks and of a processor's own pages ([free_local]), the blocks stay disjoint
      from one another and from pages in transit ([conc_safe]), each section has exactly the
      effect of its abstract event ([conc_linear]), and none waits for good
      ([conc_progress]); the sections in order are the code ([kalloc_small_sections],
      [kfree_sections]).
    - What happens outside of the contract, for every state (PmmFaults.v): blocks handed out
      twice after a free to a full page ([full_page_double_alloc]), a huge block that overlaps
      the free list ([huge_block_overlap]), a [kfree] that changes the list of another
      processor without its lock ([foreign_free_unlocked]); and in concrete runs, nodes lost
      and alignment lost.
    - The kernel: what it prints on one processor is determined by the abstract allocator; with
      three pages of heap it is a closed text ([kernel_output]). Its tests run to their end
      with all assertions true ([tests_pass]). With the processors interleaved, what each one
      prints is its greeting and its lines in order, the blocks all of them get are disjoint
      ([interleaved_kernel]), and none waits for good ([interleaved_progress]).
    - Locks and start-up under concurrency: mutual exclusion, no deadlock, and the order in
      which processors start, by invariants of step relations.
    - klib: strings, formatted output against a semantics of format strings, its round trip
      through [atoi], the 64-bit division against Euclidean division.
    - The machine layer: descriptors and gates as the processor reads them, the firmware tables;
      the interrupt path, where the code on the stack does what the handler on values says
      ([interrupt_refines]), a handler that returns its context is not noticed by the code
      interrupted ([interrupt_transparent]) and a new context starts at its entry
      ([new_thread_runs]); the error codes the table of vectors does not list
      ([unlisted_error_code]); the start of a processor, with the registers it loads, and its
      end as effects on the devices ([boot_spec], [halt_spec]); [map], [protect] and [unprotect] as operations on
      translations ([map_refines]), with the pages they use and give back; any run of them as a
      run of an abstract machine of maps, with well-formed tables throughout ([spaces_refine],
      [spaces_wellformed]).
    - The native port: its constructor builds the machine on any host or stops at a failed
      assertion, although it unmaps the data of the program while it runs
      ([init_platform_spec]); the host shows exactly the pages of the current address space
      ([native_spaces]); a page mapped twice makes the list of a space cyclic, and the next
      switch to it does not end ([remap_hangs]); signals are transparent to the code they
      interrupt ([native_trap_transparent]) and switch contexts with their address spaces
      ([native_context_switch]); key events form a queue ([key_queue_fifo]); the start of the
      processes in every interleaving ([native_mpe_start]).
    - Devices and boot: block transfers and their round trip through the device register, an
      ELF image loaded byte by byte, a date that is torn only in the fields read before the
      seconds ([timer_rtc_spec]; the order in which the compiler reads the registers is
      a parameter, which C leaves open), drawing with clipping, a scene
      drawn as the picture it denotes ([gpu_render_spec]), the keys that can be reported,
      interrupt routing. On the native port the same registers: lazy initialisation, the disk,
      the window, the keyboard, and sound that is played as it was written
      ([nat_ioe_registers], [sound_roundtrip]), with the initialisations that go wrong
      ([audio_reinit_hangs]).

    ** Bounds

    - The allocator is proved for heaps of at most 2^31 bytes with fuel for one round per 16
      bytes of the heap and 32 more ([PmmAlloc.Area]): no list is longer.
    - Formatting needs no more than 65 rounds per number and one per character, so fuel
      beyond 64 and the length of the texts.
    - A walk of the page tables has the depth of the table of levels, 4; a table 512 entries.
    - Waiting loops (disk, clock, delivery of interrupts) take fuel from the latency that the
      class of the device states.
    - A walk over a scene needs the number of its canvases; a canvas at most 65535 rounds in
      each direction ([Gpu.blit_fuel]), since its sizes have 16 bits.
    - The loops over the pages of a native address space need more fuel than the run has
      operations: a list has at most one node per [map].

    ** What is not modelled

    - Interleaving inside a critical section: a section of PmmConc.v is one step, which its
      lock justifies; the search of [kfree] in the lists of other processors, without their
      locks, is inside one. A [kfree] of a block in a page of another processor is not a step
      of PmmConc.v: [foreign_free_unlocked] shows that the code changes that page unlocked.
    - The assembly of the start (start32.S, start64.S, the boot sector's start.S), trap32.S and
      the system call stub of the native port; the switch of stacks; the translation cache,
      [PTE_PS] pages and the 32-bit branches under #if.
    - The variant of pmm.c under #ifdef TEST with the host program that drives it (kernel/test):
      it does not compile, since the array [cpupagelist] is declared only without TEST.
    - In int64.c, the declarations for 128-bit integers and floating point, which no function
      of the file uses, and the replacements of built-ins for another compiler.
    - The native port on several processors beyond their start; the timer that copies the
      drawing surface to the window and the loop of the window's events. The host's functions
      the native files use (mmap, munmap, hsearch_r, fread, fwrite, pipes, signals) are modelled
      by their documentation, in Host.v and the files named there. The callback of the sound
      library and the thread of key events are steps between the accesses of the program.
    - The empty functions of the nemu port, and libco, which holds three empty functions.
    - The size of the drive: it has a word at every place. The stack frames of C functions. *)

From stdpp Require Import prelude.

#[global] Open Scope Z_scope.

(** Linear arithmetic with division and remainder by constants. *)
Ltac zdm := Z.to_euclidean_division_equations; lia.

(** ** Machine integers

    An integer of the C program is a [Z]; conversions to a width are written where the code
    converts ([wrap] to an unsigned width, [signed] to a two's complement one). *)

Definition wrap (w : Z) (x : Z) : Z := x mod 2 ^ w.

Definition signed (w : Z) (x : Z) : Z :=
  let y := wrap w x in if y <? 2 ^ (w - 1) then y else y - 2 ^ w.

Abbreviation u8 := (wrap 8).
Abbreviation u32 := (wrap 32).
Abbreviation u64 := (wrap 64).
Abbreviation i32 := (signed 32).
Abbreviation i64 := (signed 64).

Lemma wrap_small w x : 0 <= x < 2 ^ w -> wrap w x = x.
Proof. apply Z.mod_small. Qed.

Lemma wrap_range w x : 0 <= w -> 0 <= wrap w x < 2 ^ w.
Proof. intros. apply Z.mod_pos_bound, Z.pow_pos_nonneg; lia. Qed.

Lemma wrap_wrap w x : wrap w (wrap w x) = wrap w x.
Proof. unfold wrap. apply Zmod_mod. Qed.

Lemma signed_small w x : 0 < w -> - 2 ^ (w - 1) <= x < 2 ^ (w - 1) -> signed w x = x.
Proof.
  intros Hw Hx. unfold signed, wrap. cbv zeta.
  assert (2 ^ w = 2 * 2 ^ (w - 1)) as E.
  { rewrite <- Z.pow_succ_r by lia. f_equal; lia. }
  rewrite E in *.
  destruct (decide (0 <= x)).
  - rewrite Z.mod_small by lia. destruct (Z.ltb_spec x (2 ^ (w - 1))); lia.
  - assert (x mod (2 * 2 ^ (w - 1)) = x + 2 * 2 ^ (w - 1)) as ->.
    { symmetry. apply Z.mod_unique_pos with (-1); lia. }
    destruct (Z.ltb_spec (x + 2 * 2 ^ (w - 1)) (2 ^ (w - 1))); lia.
Qed.

Lemma signed_wrap w x : signed w (wrap w x) = signed w x.
Proof. unfold signed. by rewrite wrap_wrap. Qed.

Lemma wrap_signed w x : 0 < w -> wrap w (signed w x) = wrap w x.
Proof.
  intros Hw. unfold signed, wrap. cbv zeta.
  destruct (_ <? _); [by rewrite Zmod_mod|].
  replace (x mod 2 ^ w - 2 ^ w) with (x mod 2 ^ w + (-1) * 2 ^ w) by lia.
  by rewrite Z_mod_plus_full, Zmod_mod.
Qed.

Lemma signed_range w x : 0 < w -> - 2 ^ (w - 1) <= signed w x < 2 ^ (w - 1).
Proof.
  intros Hw. unfold signed. cbv zeta.
  pose proof (wrap_range w x ltac:(lia)).
  assert (2 ^ w = 2 * 2 ^ (w - 1)) by (rewrite <- Z.pow_succ_r by lia; f_equal; lia).
  destruct (Z.ltb_spec (wrap w x) (2 ^ (w - 1))); lia.
Qed.

(** Bits beyond the width, and a number put together from two bit fields. *)
Lemma high_bits x k i : 0 <= x < 2 ^ k -> 0 <= k <= i -> Z.testbit x i = false.
Proof.
  intros Hx Hk. destruct (decide (x = 0)) as [->|]; [apply Z.bits_0|].
  apply Z.bits_above_log2; [lia|]. apply Z.log2_lt_pow2; [lia|].
  apply Z.lt_le_trans with (2 ^ k); [lia|]. apply Z.pow_le_mono_r; lia.
Qed.

Lemma lor_add a x k : 0 <= k -> 0 <= x < 2 ^ k -> Z.lor (Z.shiftl a k) x = a * 2 ^ k + x.
Proof.
  intros Hk Hx. rewrite <- Z.shiftl_mul_pow2 by done.
  assert (Z.land (Z.shiftl a k) x = 0) as H0.
  { apply Z.bits_inj'. intros i Hi. rewrite Z.land_spec, Z.bits_0.
    destruct (decide (i < k)); [by rewrite Z.shiftl_spec_low|].
    rewrite (high_bits x k i), andb_false_r by lia. done. }
  rewrite Z.add_nocarry_lxor by done. symmetry. by apply Z.lxor_lor.
Qed.

(** Rounding down to a multiple of [2 ^ k] by masking. *)
Lemma land_mask x k w : 0 <= k <= w -> 0 <= x < 2 ^ w -> Z.land x (2 ^ w - 2 ^ k) = x - x mod 2 ^ k.
Proof.
  intros Hk Hx. assert (2 ^ w - 2 ^ k = Z.shiftl (Z.ones (w - k)) k) as ->.
  { rewrite Z.shiftl_mul_pow2, Z.ones_equiv by lia. rewrite Z.mul_pred_l, <- Z.pow_add_r by lia.
    replace (w - k + k) with w by lia. lia. }
  pose proof (Z.div_mod x (2 ^ k) ltac:(apply Z.pow_nonzero; lia)) as Hd.
  replace (x - x mod 2 ^ k) with (Z.shiftl (Z.shiftr x k) k) by (rewrite Z.shiftl_mul_pow2, Z.shiftr_div_pow2 by lia; lia).
  apply Z.bits_inj'. intros i Hi. rewrite Z.land_spec. destruct (decide (i < k)).
  - rewrite !Z.shiftl_spec_low by lia. by rewrite andb_false_r.
  - rewrite !Z.shiftl_spec, Z.shiftr_spec by lia. replace (i - k + k) with i by lia.
    destruct (decide (i < w)); [rewrite Z.ones_spec_low by lia; by rewrite andb_true_r|].
    by rewrite (high_bits x w i) by lia.
Qed.

(** ** Pairwise relations on lists *)

Section Pairwise.
Context {A : Type} (R : A -> A -> Prop).

Fixpoint pairwise (l : list A) : Prop :=
  match l with
  | [] => True
  | x :: l => Forall (R x) l /\ pairwise l
  end.

Lemma pairwise_app l1 l2 :
  pairwise (l1 ++ l2) <->
  pairwise l1 /\ pairwise l2 /\ Forall (fun x => Forall (R x) l2) l1.
Proof.
  induction l1 as [|x l1 IH]; simpl.
  - split; [intros; split_and!; auto|tauto].
  - rewrite IH, Forall_app, Forall_cons. tauto.
Qed.

Lemma pairwise_perm `{!Symmetric R} l1 l2 : l1 ≡ₚ l2 -> pairwise l1 -> pairwise l2.
Proof.
  intros Hp; induction Hp as [|x l1 l2 Hp IH|x y l|l1 l2 l3 Hp1 IH1 Hp2 IH2]; simpl; auto.
  - intros [H1 H2]. split; [by apply (Forall_Permutation _ _ (fun _ => iff_refl _) _ _ Hp)|auto].
  - rewrite !Forall_cons. intros [[Hxy Hx] [Hy Hl]]. split_and!; auto.
Qed.

#[export] Instance pairwise_proper `{!Symmetric R} : Proper ((≡ₚ) ==> iff) pairwise.
Proof. intros l1 l2 H. split; apply pairwise_perm; [done..|by symmetry]. Qed.

Lemma pairwise_lookup l x y i j :
  pairwise l -> l !! i = Some x -> l !! j = Some y -> (i < j)%nat -> R x y.
Proof.
  revert i j. induction l as [|z l IH]; intros i j Hl Hi Hj Hij; [done|].
  destruct Hl as [Hz Hl], i as [|i], j as [|j]; simplify_eq/=; try lia.
  - rewrite Forall_lookup in Hz. eauto.
  - apply (IH i j); auto; lia.
Qed.
End Pairwise.

Lemma pairwise_impl {A} (R R' : A -> A -> Prop) (l : list A) :
  (forall x y, x ∈ l -> y ∈ l -> R x y -> R' x y) -> pairwise R l -> pairwise R' l.
Proof.
  induction l as [|x l IH]; simpl; [done|]. intros HR [Hx Hl]. split.
  - rewrite Forall_forall in *. intros y Hy. apply HR; [by apply elem_of_cons; left|by apply elem_of_cons; right|auto].
  - apply IH; [|done]. intros. apply HR; [by apply elem_of_cons; right..|done].
Qed.

(** ** A state monad with faults

    A computation of the C program runs on a state [S] and either finishes with a value or
    stops with a fault: an assertion of [klib.h] that fails, a [panic], an access through a
    null pointer, an index outside an array, a division by zero, or a loop still running when its fuel is used
    up. *)

Inductive fault : Type :=
| AssertFail
| Panic
| NullDeref
| OutOfBounds
| DivByZero
| OutOfFuel.

#[export] Instance fault_eq_dec : EqDecision fault.
Proof. solve_decision. Defined.

Inductive outcome (S A : Type) : Type :=
| Done (a : A) (s : S)
| Fault (f : fault).
Arguments Done {S A} a s.
Arguments Fault {S A} f.

Definition M (S A : Type) : Type := S -> outcome S A.

#[export] Instance M_ret S : MRet (M S) := fun _ a s => Done a s.
#[export] Instance M_bind S : MBind (M S) := fun _ _ f m s =>
  match m s with
  | Done a s' => f a s'
  | Fault e => Fault e
  end.

Section Operations.
Context {S : Type}.

Definition get : M S S := fun s => Done s s.
Definition gets {A} (f : S -> A) : M S A := fun s => Done (f s) s.
Definition modify (f : S -> S) : M S unit := fun s => Done tt (f s).
Definition raise {A} (e : fault) : M S A := fun _ => Fault e.

(** [assert(c)] of klib.h, lines 47-53: a false condition prints a message and halts. *)
Definition c_assert (c : bool) : M S unit := if c then mret tt else raise AssertFail.

(** Total correctness: [m] runs from [s] without a fault to a result that satisfies [Q]. *)
Definition wp {A} (m : M S A) (s : S) (Q : A -> S -> Prop) : Prop :=
  match m s with Done a s' => Q a s' | Fault _ => False end.

Lemma wp_ret {A} (a : A) s (Q : A -> S -> Prop) : Q a s -> wp (mret a) s Q.
Proof. done. Qed.

Lemma wp_bind {A B} (m : M S A) (f : A -> M S B) s Q :
  wp m s (fun a s' => wp (f a) s' Q) -> wp (m ≫= f) s Q.
Proof. unfold wp, mbind, M_bind. destruct (m s); done. Qed.

Lemma wp_bind_inv {A B} (m : M S A) (f : A -> M S B) s Q :
  wp (m ≫= f) s Q -> wp m s (fun a s' => wp (f a) s' Q).
Proof. unfold wp, mbind, M_bind. destruct (m s); done. Qed.

Lemma wp_gets {A} (f : S -> A) s Q : Q (f s) s -> wp (gets f) s Q.
Proof. done. Qed.

Lemma wp_get s Q : Q s s -> wp get s Q.
Proof. done. Qed.

Lemma wp_modify (f : S -> S) s Q : Q tt (f s) -> wp (modify f) s Q.
Proof. done. Qed.

Lemma wp_assert c s Q : c = true -> Q tt s -> wp (c_assert c) s Q.
Proof. by intros ->. Qed.

Lemma wp_mono {A} (m : M S A) s (Q Q' : A -> S -> Prop) :
  wp m s Q -> (forall a s', Q a s' -> Q' a s') -> wp m s Q'.
Proof. unfold wp. destruct (m s); auto. Qed.

Lemma wp_done {A} (m : M S A) s Q :
  wp m s Q <-> exists a s', m s = Done a s' /\ Q a s'.
Proof.
  unfold wp. split.
  - destruct (m s) as [a s'|]; [eauto|done].
  - by intros (a & s' & -> & H).
Qed.

Lemma wp_eq {A} (m : M S A) s a s' Q : m s = Done a s' -> Q a s' -> wp m s Q.
Proof. intros H HQ. apply wp_done. eauto. Qed.

(** A computation whose first part runs and whose rest faults. *)
Lemma fault_bind {A B} (m : M S A) (f : A -> M S B) s P e :
  wp m s P -> (forall a s', P a s' -> f a s' = Fault e) -> (m ≫= f) s = Fault e.
Proof.
  intros (a & s' & E & HP)%wp_done Hf. unfold mbind, M_bind. rewrite E. by apply Hf.
Qed.
End Operations.

#[global] Opaque wp.

(** One symbolic step of a computation. *)
Ltac wp_step :=
  lazymatch goal with
  | |- wp (mbind _ _) _ _ => apply wp_bind
  | |- wp (mret _) _ _ => apply wp_ret
  | |- wp (gets _) _ _ => apply wp_gets
  | |- wp get _ _ => apply wp_get
  | |- wp (modify _) _ _ => apply wp_modify
  | |- wp (c_assert _) _ _ => apply wp_assert
  end.

Ltac wp_steps := repeat (wp_step; simpl).

Lemma pairwise_fmap {A B} (R : B -> B -> Prop) (f : A -> B) (l : list A) :
  pairwise R (f <$> l) <-> pairwise (fun x y => R (f x) (f y)) l.
Proof.
  induction l as [|x l IH]; [done|]. rewrite fmap_cons. simpl. rewrite IH, Forall_fmap. done.
Qed.

Lemma pairwise_NoDup {A} (R : A -> A -> Prop) (l : list A) :
  NoDup l -> (forall x y, x ∈ l -> y ∈ l -> x <> y -> R x y) -> pairwise R l.
Proof.
  induction 1 as [|x l Hx Hl IH]; intros HR; simpl; [done|]. split.
  - apply Forall_forall. intros y Hy. apply HR; [by left|by right|]. by intros ->.
  - apply IH. intros y z Hy Hz. apply HR; by right.
Qed.

(** Members of a list whose images are pairwise related, at images that are not: the same. *)
Lemma pairwise_unique {A B} (R : B -> B -> Prop) `{!Symmetric R} (f : A -> B) l x y :
  pairwise R (f <$> l) -> x ∈ l -> y ∈ l -> ~ R (f x) (f y) -> x = y.
Proof.
  intros Hp (i & Hi)%list_elem_of_lookup (j & Hj)%list_elem_of_lookup HR.
  destruct (Nat.lt_trichotomy i j) as [Hij|[->|Hij]]; [|congruence|]; destruct HR.
  - eapply pairwise_lookup; [exact Hp|by rewrite list_lookup_fmap, Hi|by rewrite list_lookup_fmap, Hj|done].
  - symmetry. eapply pairwise_lookup;
      [exact Hp|by rewrite list_lookup_fmap, Hj|by rewrite list_lookup_fmap, Hi|done].
Qed.

(** One component of a list of lists replaced. *)
Lemma concat_insert {A} (ll : list (list A)) i old :
  ll !! i = Some old ->
  exists rest, concat ll ≡ₚ old ++ rest /\ forall new, concat (<[i := new]> ll) ≡ₚ new ++ rest.
Proof.
  intros Hi. exists (concat (take i ll) ++ concat (drop (S i) ll)).
  assert (forall new, concat (<[i := new]> ll) ≡ₚ new ++ concat (take i ll) ++ concat (drop (S i) ll)) as H.
  { intros new. rewrite insert_take_drop by (by eapply lookup_lt_Some).
    rewrite concat_app. simpl. solve_Permutation. }
  split; [|exact H]. rewrite <- (H old). by rewrite list_insert_id.
Qed.
