(* ===== verification/Mem.v ===== *)
(** * Byte-addressed memory

    The kernel and klib run on bare metal: every pointer of the C code is an address of one
    flat memory of bytes, and the structures of kernel/include/common.h are laid out in it.
    This file holds that memory, little-endian loads and stores of 1, 4 and 8 bytes, the
    relation "[m'] differs from [m] only inside [P]" with its setoid instances, and the
    interface [HasMem] through which code that only needs memory (klib) runs on any state
    that contains one. *)

From stdpp Require Import prelude.
From S2P Require Import Prelude.

Definition mem : Type := Z -> Z.

Definition load8 (m : mem) (a : Z) : Z := u8 (m a).

Definition store8 (m : mem) (a v : Z) : mem := fun x => if x =? a then u8 v else m x.

Fixpoint load_le (n : nat) (m : mem) (a : Z) : Z :=
  match n with
  | O => 0
  | S k => load8 m a + 256 * load_le k m (a + 1)
  end.

Fixpoint store_le (n : nat) (m : mem) (a v : Z) : mem :=
  match n with
  | O => m
  | S k => store_le k (store8 m a v) (a + 1) (v / 256)
  end.

Definition load32 (m : mem) (a : Z) : Z := load_le 4 m a.
Definition loadi32 (m : mem) (a : Z) : Z := i32 (load_le 4 m a).
Definition load64 (m : mem) (a : Z) : Z := load_le 8 m a.
Definition store32 (m : mem) (a v : Z) : mem := store_le 4 m a v.
Definition store64 (m : mem) (a v : Z) : mem := store_le 8 m a v.

(** ** Regions and frames *)

(** The bytes [a, a + n). *)
Definition inr (a n : Z) (x : Z) : Prop := a <= x < a + n.

(** [m'] holds the same bytes as [m] everywhere outside [P]. *)
Definition only_in (P : Z -> Prop) (m m' : mem) : Prop :=
  forall x, ~ P x -> load8 m' x = load8 m x.

(** [m'] holds the same bytes as [m] everywhere in [P]. *)
Definition same_on (P : Z -> Prop) (m m' : mem) : Prop :=
  forall x, P x -> load8 m' x = load8 m x.

Lemma load8_range m a : 0 <= load8 m a < 256.
Proof. apply (wrap_range 8). lia. Qed.

Lemma load8_store8 m a v x :
  load8 (store8 m a v) x = if x =? a then u8 v else load8 m x.
Proof. unfold load8, store8. destruct (x =? a); [apply wrap_wrap|done]. Qed.

Lemma load_le_range n m a : 0 <= load_le n m a < 256 ^ Z.of_nat n.
Proof.
  revert a. induction n as [|n IH]; intros a; [simpl; lia|].
  cbn [load_le]. rewrite Nat2Z.inj_succ, Z.pow_succ_r by lia.
  specialize (IH (a + 1)). pose proof (load8_range m a). lia.
Qed.

Lemma load_le_ext n m m' a :
  (forall x, a <= x < a + Z.of_nat n -> load8 m' x = load8 m x) ->
  load_le n m' a = load_le n m a.
Proof.
  revert a. induction n as [|n IH]; intros a H; [done|].
  cbn [load_le]. rewrite H by lia. rewrite IH; [done|]. intros. apply H. lia.
Qed.

Lemma store_le_outside n m a v x :
  ~ (a <= x < a + Z.of_nat n) -> load8 (store_le n m a v) x = load8 m x.
Proof.
  revert m a v. induction n as [|n IH]; intros m a v H; [done|].
  cbn [store_le]. rewrite IH by lia. rewrite load8_store8.
  destruct (Z.eqb_spec x a); [lia|done].
Qed.

Lemma load_store_le n m a v :
  load_le n (store_le n m a v) a = v mod 256 ^ Z.of_nat n.
Proof.
  revert m a v. induction n as [|n IH]; intros m a v.
  - simpl. by rewrite Z.mod_1_r.
  - cbn [load_le store_le]. rewrite store_le_outside by lia.
    rewrite load8_store8, Z.eqb_refl, IH.
    rewrite Nat2Z.inj_succ, Z.pow_succ_r by lia.
    unfold wrap. change (2 ^ 8) with 256.
    rewrite Z.rem_mul_r by lia. lia.
Qed.

Lemma load8_store_le n m a v x :
  load8 (store_le n m a v) x = if (a <=? x) && (x <? a + Z.of_nat n) then (v / 256 ^ (x - a)) mod 256 else load8 m x.
Proof.
  revert m a v. induction n as [|n IH]; intros m a v.
  - simpl store_le. destruct (Z.leb_spec a x), (Z.ltb_spec x (a + Z.of_nat 0)); cbn [andb]; done || lia.
  - cbn [store_le]. rewrite IH, load8_store8.
    destruct (Z.eqb_spec x a) as [->|Hne].
    + destruct (Z.leb_spec (a + 1) a); [lia|]. cbn [andb]. rewrite Z.leb_refl. destruct (Z.ltb_spec a (a + Z.of_nat (S n))); [|lia].
      by rewrite Z.sub_diag, Z.div_1_r.
    + destruct (Z.leb_spec (a + 1) x), (Z.leb_spec a x), (Z.ltb_spec x (a + 1 + Z.of_nat n)), (Z.ltb_spec x (a + Z.of_nat (S n)));
        cbn [andb]; try done; try lia.
      rewrite Z.div_div by lia. f_equal. f_equal. replace (x - a) with (1 + (x - (a + 1))) by lia.
      by rewrite Z.pow_add_r by lia.
Qed.

Lemma load32_byte m p k : 0 <= k < 4 -> (load32 m p / 256 ^ k) mod 256 = load8 m (p + k).
Proof.
  intros Hk. unfold load32. change (load_le 4 m p) with
    (load8 m p + 256 * (load8 m (p + 1) + 256 * (load8 m (p + 1 + 1) + 256 * (load8 m (p + 1 + 1 + 1) + 256 * 0)))).
  replace (p + 1 + 1 + 1) with (p + 3) by lia. replace (p + 1 + 1) with (p + 2) by lia.
  pose proof (load8_range m p). pose proof (load8_range m (p + 1)). pose proof (load8_range m (p + 2)). pose proof (load8_range m (p + 3)).
  assert (k = 0 \/ k = 1 \/ k = 2 \/ k = 3) as [->|[->|[->| ->]]] by lia; rewrite ?Z.add_0_r;
    [change (256 ^ 0) with 1|change (256 ^ 1) with 256|change (256 ^ 2) with 65536|change (256 ^ 3) with 16777216]; zdm.
Qed.

(** *** [only_in] and [same_on] *)

Lemma only_in_refl P m : only_in P m m.
Proof. done. Qed.

Lemma only_in_trans P m1 m2 m3 : only_in P m1 m2 -> only_in P m2 m3 -> only_in P m1 m3.
Proof. intros H1 H2 x Hx. rewrite H2, H1; done. Qed.

Lemma only_in_weaken (P P' : Z -> Prop) m m' :
  only_in P m m' -> (forall x, P x -> P' x) -> only_in P' m m'.
Proof. intros H HP x Hx. apply H. auto. Qed.

Lemma only_in_same_on (P P' : Z -> Prop) m m' :
  only_in P m m' -> (forall x, P' x -> ~ P x) -> same_on P' m m'.
Proof. intros H HP x Hx. apply H. auto. Qed.

Lemma same_on_weaken (P P' : Z -> Prop) m m' :
  same_on P m m' -> (forall x, P' x -> P x) -> same_on P' m m'.
Proof. intros H HP x Hx. apply H. auto. Qed.

Lemma only_in_store (P : Z -> Prop) n m m' a v :
  only_in P m m' -> (forall x, a <= x < a + Z.of_nat n -> P x) ->
  only_in P m (store_le n m' a v).
Proof.
  intros H HP x Hx. rewrite store_le_outside; [by apply H|]. intros ?. apply Hx; auto.
Qed.

Lemma only_in_load P n m m' a :
  only_in P m m' -> (forall x, a <= x < a + Z.of_nat n -> ~ P x) ->
  load_le n m' a = load_le n m a.
Proof. intros H HP. apply load_le_ext. intros x Hx. by apply H, HP. Qed.

Lemma same_on_load P n m m' a :
  same_on P m m' -> (forall x, a <= x < a + Z.of_nat n -> P x) ->
  load_le n m' a = load_le n m a.
Proof. intros H HP. apply load_le_ext. intros x Hx. by apply H, HP. Qed.

#[export] Instance only_in_preorder P : PreOrder (only_in P).
Proof. split; [intros m; apply only_in_refl|intros ???; apply only_in_trans]. Qed.

#[export] Instance same_on_equiv P : Equivalence (same_on P).
Proof.
  split; [done| |].
  - intros m m' H x Hx. by rewrite H.
  - intros m1 m2 m3 H1 H2 x Hx. rewrite H2, H1; done.
Qed.

(** Two memories are equal when they hold the same bytes: the setoid the loads respect. *)
#[export] Instance mem_equiv : Equiv mem := same_on (fun _ => True).

#[export] Instance mem_equivalence : Equivalence (≡@{mem}).
Proof. apply same_on_equiv. Qed.

#[export] Instance load8_proper : Proper ((≡@{mem}) ==> (=) ==> (=)) load8.
Proof. intros m m' H a ? <-. symmetry. by apply H. Qed.

#[export] Instance load_le_proper n : Proper ((≡@{mem}) ==> (=) ==> (=)) (load_le n).
Proof. intros m m' H a ? <-. symmetry. apply load_le_ext. intros. by apply H. Qed.

#[export] Instance store8_proper : Proper ((≡@{mem}) ==> (=) ==> (=) ==> (≡)) store8.
Proof.
  intros m m' H a ? <- v ? <- x _. rewrite !load8_store8. destruct (x =? a); [done|].
  by apply H.
Qed.

#[export] Instance store_le_proper n : Proper ((≡@{mem}) ==> (=) ==> (=) ==> (≡)) (store_le n).
Proof.
  intros m m' H a ? <- v ? <-. revert m m' H a v.
  induction n as [|n IH]; intros m m' H a v; [done|].
  cbn [store_le]. apply IH. by rewrite H.
Qed.

(** *** Typed accesses *)

Section Typed.
Implicit Types (m : mem).

Lemma load32_store32 m a v : load32 (store32 m a v) a = u32 v.
Proof. apply load_store_le. Qed.

Lemma loadi32_store32 m a v : loadi32 (store32 m a v) a = i32 v.
Proof. unfold loadi32, store32. rewrite load_store_le. apply (signed_wrap 32). Qed.

Lemma load64_store64 m a v : load64 (store64 m a v) a = u64 v.
Proof. apply load_store_le. Qed.

Lemma load32_store32_ne m a b v : a + 4 <= b \/ b + 4 <= a -> load32 (store32 m a v) b = load32 m b.
Proof. intros. apply load_le_ext. intros. apply store_le_outside. lia. Qed.

Lemma load32_store64_ne m a b v : a + 8 <= b \/ b + 4 <= a -> load32 (store64 m a v) b = load32 m b.
Proof. intros. apply load_le_ext. intros. apply store_le_outside. lia. Qed.

Lemma loadi32_store32_ne m a b v : a + 4 <= b \/ b + 4 <= a -> loadi32 (store32 m a v) b = loadi32 m b.
Proof. intros. unfold loadi32. f_equal. by apply load32_store32_ne. Qed.

Lemma loadi32_store64_ne m a b v : a + 8 <= b \/ b + 4 <= a -> loadi32 (store64 m a v) b = loadi32 m b.
Proof. intros. unfold loadi32. f_equal. by apply load32_store64_ne. Qed.

Lemma load64_store32_ne m a b v : a + 4 <= b \/ b + 8 <= a -> load64 (store32 m a v) b = load64 m b.
Proof. intros. apply load_le_ext. intros. apply store_le_outside. lia. Qed.

Lemma load64_store64_ne m a b v : a + 8 <= b \/ b + 8 <= a -> load64 (store64 m a v) b = load64 m b.
Proof. intros. apply load_le_ext. intros. apply store_le_outside. lia. Qed.
End Typed.

Create Rewrite HintDb mem.
#[export] Hint Rewrite load32_store32 loadi32_store32 load64_store64 : mem.
#[export] Hint Rewrite load32_store32_ne load32_store64_ne loadi32_store32_ne
  loadi32_store64_ne load64_store32_ne load64_store64_ne using lia : mem.

(** Reads of a memory built by typed stores. *)
Ltac mem_simpl := autorewrite with mem.
Tactic Notation "mem_simpl" "in" hyp(H) := autorewrite with mem in H.

#[global] Arguments load_le : simpl never.
#[global] Arguments store_le : simpl never.
#[global] Arguments load8 : simpl never.
#[global] Arguments store8 : simpl never.

(** ** States that contain a memory *)

Class HasMem (S : Type) : Type := {
  st_mem : S -> mem;
  st_upd : (mem -> mem) -> S -> S;
  st_mem_upd : forall f s, st_mem (st_upd f s) = f (st_mem s);
}.

#[export] Instance mem_has_mem : HasMem mem :=
  {| st_mem := fun m => m; st_upd := fun f m => f m; st_mem_upd := fun _ _ => eq_refl |}.

Section Access.
Context {S : Type} `{HasMem S}.

(** The field at offset [off], [n] bytes wide, of the object [p] points to. *)
Definition read_le (n : nat) (p off : Z) : M S Z :=
  if p =? 0 then raise NullDeref else gets (fun s => load_le n (st_mem s) (p + off)).

Definition write_le (n : nat) (p off v : Z) : M S unit :=
  if p =? 0 then raise NullDeref else modify (st_upd (fun m => store_le n m (p + off) v)).

Lemma wp_read n p off s (Q : Z -> S -> Prop) :
  p <> 0 -> Q (load_le n (st_mem s) (p + off)) s -> wp (read_le n p off) s Q.
Proof.
  intros Hp HQ. unfold read_le. destruct (Z.eqb_spec p 0); [done|]. by apply wp_gets.
Qed.

Lemma wp_write n p off v s (Q : unit -> S -> Prop) :
  p <> 0 -> Q tt (st_upd (fun m => store_le n m (p + off) v) s) ->
  wp (write_le n p off v) s Q.
Proof.
  intros Hp HQ. unfold write_le. destruct (Z.eqb_spec p 0); [done|]. by apply wp_modify.
Qed.
End Access.
