(* ===== verification/KString.v ===== *)
(** * klib/src/string.c

    The functions of string.c over any state with a memory ([HasMem]), and their
    specifications on C strings ([cstr]: a list of bytes that are not 0, followed by a 0).
    [char] is signed, as on x86. *)

From stdpp Require Import prelude.
From S2P Require Import Prelude Mem.

(** ** memset *)

Fixpoint memset_loop (k : nat) (cnt : Z) (m : mem) (s c : Z) : mem :=
  match k with
  | O => m
  | S k => memset_loop k (cnt + 1) (store8 m (s + cnt) c) s c
  end.

#[global] Arguments memset_loop : simpl never.

Section Ops.
Context {St : Type} `{HasMem St}.

Definition memset (s c n : Z) : M St Z :=
  if (s =? 0) && (0 <? n) then raise NullDeref
  else (_ ← modify (st_upd (fun m => memset_loop (Z.to_nat n) 0 m s c)); mret s).
End Ops.

Lemma load8_memset_loop k cnt m s c x :
  load8 (memset_loop k cnt m s c) x =
  if (s + cnt <=? x) && (x <? s + cnt + Z.of_nat k) then u8 c else load8 m x.
Proof.
  revert cnt m. induction k as [|k IH]; intros cnt m.
  - change (memset_loop 0 cnt m s c) with m. destruct (Z.leb_spec (s + cnt) x), (Z.ltb_spec x (s + cnt + Z.of_nat 0)); simpl; try done; lia.
  - change (memset_loop (S k) cnt m s c) with (memset_loop k (cnt + 1) (store8 m (s + cnt) c) s c).
    rewrite IH, load8_store8.
    destruct (Z.eqb_spec x (s + cnt)), (Z.leb_spec (s + (cnt + 1)) x), (Z.leb_spec (s + cnt) x),
      (Z.ltb_spec x (s + (cnt + 1) + Z.of_nat k)), (Z.ltb_spec x (s + cnt + Z.of_nat (S k)));
      simpl; try done; lia.
Qed.

Lemma only_in_memset P m m' s c n :
  0 <= n -> only_in P m m' -> (forall x, inr s n x -> P x) ->
  only_in P m (memset_loop (Z.to_nat n) 0 m' s c).
Proof.
  intros Hn H HP x Hx. rewrite load8_memset_loop.
  destruct (Z.leb_spec (s + 0) x), (Z.ltb_spec x (s + 0 + Z.of_nat (Z.to_nat n))); simpl;
    try (by apply H).
  destruct Hx. apply HP. unfold inr. lia.
Qed.

Lemma wp_memset {St} `{HasMem St} s c n st (Q : Z -> St -> Prop) :
  s <> 0 -> Q s (st_upd (fun m => memset_loop (Z.to_nat n) 0 m s c) st) ->
  wp (memset s c n) st Q.
Proof.
  intros Hs HQ. unfold memset. destruct (Z.eqb_spec s 0); [done|]. simpl.
  apply wp_bind, wp_modify, wp_ret, HQ.
Qed.

(** ** Bytes *)

Section Bytes.
Context {St : Type} `{HasMem St}.

(** [*p] and [*p = v] for a [char *] p. *)
Definition get8 (p : Z) : M St Z :=
  if p =? 0 then raise NullDeref else gets (fun s => load8 (st_mem s) p).

Definition put8 (p v : Z) : M St unit :=
  if p =? 0 then raise NullDeref else modify (st_upd (fun m => store8 m p v)).

Lemma wp_get8 p s (Q : Z -> St -> Prop) : p <> 0 -> Q (load8 (st_mem s) p) s -> wp (get8 p) s Q.
Proof. intros Hp HQ. unfold get8. destruct (Z.eqb_spec p 0); [done|]. by apply wp_gets. Qed.

Lemma wp_put8 p v s (Q : unit -> St -> Prop) :
  p <> 0 -> Q tt (st_upd (fun m => store8 m p v) s) -> wp (put8 p v) s Q.
Proof. intros Hp HQ. unfold put8. destruct (Z.eqb_spec p 0); [done|]. by apply wp_modify. Qed.
End Bytes.

(** ** The functions of string.c *)

Section Code.
Context {St : Type} `{HasMem St} (fuel : nat).

Fixpoint strlen_loop (k : nat) (s i : Z) : M St Z :=
  match k with
  | O => raise OutOfFuel
  | S k => c ← get8 s; if c =? 0 then mret i else strlen_loop k (s + 1) (u64 (i + 1))
  end.

Definition strlen (s : Z) : M St Z := if s =? 0 then mret 0 else strlen_loop fuel s 0.

(** Lines 23-26 and 62-63: the bytes of [_src] are copied to [_dst]; the result is the last
    value of [_dst]. *)
Fixpoint copy_loop (k : nat) (_dst _src : Z) : M St Z :=
  match k with
  | O => raise OutOfFuel
  | S k =>
      c ← get8 _src;
      if c =? 0 then mret _dst
      else _ ← put8 _dst c; copy_loop k (_dst + 1) (_src + 1)
  end.

Definition strcpy (dst src : Z) : M St Z :=
  _ ← c_assert (negb (dst =? 0) && negb (src =? 0));
  _dst ← copy_loop fuel dst src;
  _ ← put8 _dst 0;
  l1 ← strlen dst;
  l2 ← strlen src;
  _ ← c_assert (l1 =? l2);
  mret dst.

(** Lines 38-42. *)
Fixpoint ncopy_loop (k : nat) (_dst _src cnt n : Z) : M St (Z * Z) :=
  match k with
  | O => raise OutOfFuel
  | S k =>
      c ← get8 _src;
      if negb (c =? 0) && (u64 (cnt + 1) <=? n)
      then _ ← put8 _dst c; ncopy_loop k (_dst + 1) (_src + 1) (u64 (cnt + 1)) n
      else mret (_dst, cnt)
  end.

Definition strncpy (dst src n : Z) : M St Z :=
  _ ← c_assert (negb (dst =? 0) && negb (src =? 0));
  '(_dst, cnt) ← ncopy_loop fuel dst src 0 n;
  _ ← put8 _dst 0;
  l ← strlen dst;
  _ ← c_assert (l =? cnt);
  _ ← c_assert (cnt <=? n);
  mret dst.

(** Lines 55-58. *)
Fixpoint end_loop (k : nat) (_dst : Z) : M St Z :=
  match k with
  | O => raise OutOfFuel
  | S k => c ← get8 _dst; if c =? 0 then mret _dst else end_loop k (_dst + 1)
  end.

Definition strcat (dst src : Z) : M St Z :=
  _ ← c_assert (negb (dst =? 0));
  l ← strlen dst;
  let left := i32 l in
  _dst ← end_loop fuel dst;
  c ← get8 _dst;
  _ ← c_assert (c =? 0);
  if src =? 0 then mret dst
  else
    _dst ← copy_loop fuel _dst src;
    _ ← put8 _dst 0;
    l1 ← strlen dst;
    l2 ← strlen src;
    _ ← c_assert (l1 =? u64 (l2 + left));
    mret dst.

(** Lines 85-87: the lengths of what is left of two strings. *)
Definition cmp_lengths (s1 s2 : Z) : M St Z :=
  l2 ← strlen s2;
  l1 ← strlen s1;
  if l1 <? l2 then mret (-1)
  else
    l2 ← strlen s2;
    l1 ← strlen s1;
    if l2 <? l1 then mret 1 else mret 0.

Fixpoint strcmp_loop (k : nat) (s1 s2 : Z) : M St Z :=
  match k with
  | O => raise OutOfFuel
  | S k =>
      a ← get8 s1;
      b ← (if a =? 0 then mret 0 else get8 s2);
      if negb (a =? 0) && negb (b =? 0) then
        if signed 8 a <? signed 8 b then mret (-1)
        else if signed 8 b <? signed 8 a then mret 1
        else _ ← c_assert (a =? b); strcmp_loop k (s1 + 1) (s2 + 1)
      else cmp_lengths s1 s2
  end.

Definition strcmp (s1 s2 : Z) : M St Z :=
  _ ← c_assert (negb (s1 =? 0) && negb (s2 =? 0));
  strcmp_loop fuel s1 s2.

(** [cnt] is an [int], compared with the [size_t] [n]. *)
Fixpoint strncmp_loop (k : nat) (s1 s2 cnt n : Z) : M St Z :=
  match k with
  | O => raise OutOfFuel
  | S k =>
      a ← get8 s1;
      b ← (if a =? 0 then mret 0 else get8 s2);
      if negb (a =? 0) && negb (b =? 0) && (u64 cnt <? n) then
        if signed 8 a <? signed 8 b then mret (-1)
        else if signed 8 b <? signed 8 a then mret 1
        else _ ← c_assert (a =? b); strncmp_loop k (s1 + 1) (s2 + 1) (i32 (cnt + 1)) n
      else if n <=? u64 cnt then mret 0
      else cmp_lengths s1 s2
  end.

Definition strncmp (s1 s2 n : Z) : M St Z :=
  _ ← c_assert (negb (s1 =? 0) && negb (s2 =? 0));
  strncmp_loop fuel s1 s2 0 n.
End Code.

Section Blocks.
Context {St : Type} `{HasMem St}.

(** Lines 131-132 and 146-147: [k] bytes upwards. *)
Fixpoint copy_up (k : nat) (d s : Z) : M St Z :=
  match k with
  | O => mret d
  | S k => c ← get8 s; _ ← put8 d c; copy_up k (d + 1) (s + 1)
  end.

(** Lines 136-137: [k] bytes downwards. *)
Fixpoint copy_down (k : nat) (d s : Z) : M St unit :=
  match k with
  | O => mret tt
  | S k => c ← get8 (s - 1); _ ← put8 (d - 1) c; copy_down k (d - 1) (s - 1)
  end.

Definition memmove (dst src n : Z) : M St Z :=
  _ ← (if dst <=? src then _ ← copy_up (Z.to_nat n) dst src; mret tt
       else copy_down (Z.to_nat n) (dst + n) (src + n));
  mret dst.

Definition memcpy (out in_ n : Z) : M St Z := copy_up (Z.to_nat n) out in_.

(** The difference of two bytes passes through a [size_t] and is returned as an [int]. *)
Fixpoint memcmp_loop (k : nat) (su1 su2 : Z) : M St Z :=
  match k with
  | O => mret 0
  | S k =>
      a ← get8 su1;
      b ← get8 su2;
      let res := u64 (a - b) in
      if negb (res =? 0) then mret (i32 res) else memcmp_loop k (su1 + 1) (su2 + 1)
  end.

Definition memcmp (s1 s2 n : Z) : M St Z := memcmp_loop (Z.to_nat n) s1 s2.
End Blocks.

(** ** C strings *)

(** The bytes of [l], none of them 0, then a 0. *)
Fixpoint cstr (m : mem) (p : Z) (l : list Z) : Prop :=
  match l with
  | [] => load8 m p = 0
  | c :: l => load8 m p = c /\ c <> 0 /\ cstr m (p + 1) l
  end.

Abbreviation len l := (Z.of_nat (length l)) (only parsing).

Lemma cstr_frame m m' p l : same_on (inr p (len l + 1)) m m' -> cstr m p l -> cstr m' p l.
Proof.
  revert p. induction l as [|c l IH]; intros p H; simpl.
  - rewrite H; [done|]. unfold inr; simpl; lia.
  - intros (<- & Hc & Hl). split; [apply H; unfold inr; simpl; lia|]. split; [done|].
    apply IH; [|done]. eapply same_on_weaken; [exact H|]. unfold inr; simpl; lia.
Qed.

Lemma cstr_app m p l1 l2 :
  cstr m p (l1 ++ l2) <-> (forall i c, l1 !! i = Some c -> load8 m (p + Z.of_nat i) = c /\ c <> 0) /\
    cstr m (p + len l1) l2.
Proof.
  revert p. induction l1 as [|c l1 IH]; intros p; simpl.
  - rewrite Z.add_0_r. split; [intros H; split; [intros i c Hi; by rewrite lookup_nil in Hi|done]|tauto].
  - rewrite IH. replace (p + Z.of_nat (S (length l1))) with (p + 1 + len l1) by lia. split.
    + intros (Hc & Hn & Hl & Ht). split; [|done]. intros [|i] d Hi; simpl in Hi.
      * injection Hi as <-. by rewrite Z.add_0_r.
      * destruct (Hl i d Hi) as [H1 H2]. split; [|done]. rewrite <- H1. f_equal. lia.
    + intros [Hl Ht]. destruct (Hl 0%nat c eq_refl) as [H1 H2]. rewrite Z.add_0_r in H1.
      split; [done|]. split; [done|]. split; [|done]. intros i d Hi.
      destruct (Hl (S i) d Hi) as [H3 H4]. split; [|done]. rewrite <- H3. f_equal. lia.
Qed.

Lemma cstr_bytes m p l : cstr m p l -> Forall (fun c => 0 < c < 256) l.
Proof.
  revert p. induction l as [|c l IH]; intros p; [by constructor|]. simpl. intros (Hc & Hn & Hl).
  constructor; [|eauto]. pose proof (load8_range m p). lia.
Qed.

(** ** Specifications, over memory alone *)

Section Spec.
Context (fuel : nat).
Implicit Types (m : mem).

Lemma strlen_loop_spec k m p i l :
  cstr m p l -> 0 < p -> (length l < k)%nat -> 0 <= i -> i + len l < 2 ^ 64 ->
  wp (strlen_loop k p i) m (fun r m' => r = i + len l /\ m' = m).
Proof.
  revert k p i. induction l as [|c l IH]; intros k p i Hl Hp Hk Hi Hb; (destruct k as [|k]; simpl in Hk; [lia|]); simpl in *.
  - apply wp_bind, wp_get8; [lia|]. simpl. rewrite Hl. apply wp_ret. split; [lia|done].
  - destruct Hl as (Hc & Hn & Hl). apply wp_bind, wp_get8; [lia|]. simpl. rewrite Hc.
    destruct (Z.eqb_spec c 0); [done|]. rewrite wrap_small by lia.
    eapply wp_mono; [apply IH; [done|lia..]|]. intros r m' [-> ->]. split; [lia|done].
Qed.

Lemma strlen_spec m p l :
  cstr m p l -> 0 < p -> (length l < fuel)%nat -> len l < 2 ^ 64 ->
  wp (strlen fuel p) m (fun r m' => r = len l /\ m' = m).
Proof.
  intros Hl Hp Hf Hb. unfold strlen. destruct (Z.eqb_spec p 0); [lia|].
  eapply wp_mono; [by apply strlen_loop_spec|]. intros r m' [-> ->]. by split.
Qed.

(** The source does not overlap the bytes written. *)
Lemma copy_loop_spec k m d p l :
  cstr m p l -> 0 < p -> 0 < d -> (length l < k)%nat ->
  d + len l <= p \/ p + len l + 1 <= d ->
  wp (copy_loop k d p) m (fun r m' =>
    r = d + len l /\ only_in (inr d (len l)) m m' /\
    forall i c, l !! i = Some c -> load8 m' (d + Z.of_nat i) = c).
Proof.
  revert k m d p. induction l as [|c l IH]; intros k m d p Hl Hp Hd Hk Hov;
    (destruct k as [|k]; simpl in Hk; [lia|]); cbn [copy_loop].
  - simpl in Hl. apply wp_bind, wp_get8; [lia|]. simpl. rewrite Hl. apply wp_ret. split; [simpl; lia|].
    split; [done|]. intros i c Hi. by rewrite lookup_nil in Hi.
  - pose proof (cstr_bytes _ _ _ Hl) as Hb. apply Forall_cons in Hb as [Hb _].
    destruct Hl as (Hc & Hn & Hl). apply wp_bind, wp_get8; [lia|]. simpl. rewrite Hc.
    destruct (Z.eqb_spec c 0); [done|]. apply wp_bind, wp_put8; [lia|]. simpl in Hov |- *.
    assert (only_in (inr d 1) m (store8 m d c)) as Ho.
    { intros x Hx. rewrite load8_store8. destruct (Z.eqb_spec x d); [|done]. unfold inr in Hx; lia. }
    eapply wp_mono; [apply (IH k (store8 m d c) (d + 1) (p + 1)); [|lia|lia|lia|lia]|].
    + eapply cstr_frame; [|exact Hl]. eapply only_in_same_on; [exact Ho|]. unfold inr; lia.
    + intros r m' (-> & Ho' & Hm'). split; [lia|]. split.
      * intros x Hx. rewrite Ho', Ho; [done|unfold inr in *; lia..].
      * intros [|i] b Hi; simpl in Hi.
        { injection Hi as <-. rewrite Z.add_0_r, Ho' by (unfold inr; lia). rewrite load8_store8, Z.eqb_refl.
          apply wrap_small. lia. }
        rewrite <- (Hm' i b Hi). f_equal. lia.
Qed.

(** The string a copy makes. *)
Lemma cstr_built m d l :
  (forall i c, l !! i = Some c -> load8 m (d + Z.of_nat i) = c) -> Forall (fun c => c <> 0) l ->
  load8 m (d + len l) = 0 -> cstr m d l.
Proof.
  intros Hl Hn H0. rewrite <- (app_nil_r l). apply cstr_app. split; [|done]. intros i c Hi.
  rewrite Forall_lookup in Hn. eauto.
Qed.

Lemma cstr_nonzero m p l : cstr m p l -> Forall (fun c => c <> 0) l.
Proof. intros H%cstr_bytes. eapply Forall_impl; [exact H|]. simpl. lia. Qed.

Lemma store0 (m : mem) d : load8 (store8 m d 0) d = 0 /\ only_in (inr d 1) m (store8 m d 0).
Proof.
  split; [by rewrite load8_store8, Z.eqb_refl|]. intros x Hx. rewrite load8_store8.
  destruct (Z.eqb_spec x d); [|done]. unfold inr in Hx; lia.
Qed.

(** The prefix written by a copying loop, with the NUL put behind it. *)
Lemma built_string m m1 d l :
  only_in (inr d (len l)) m m1 -> (forall i c, l !! i = Some c -> load8 m1 (d + Z.of_nat i) = c) ->
  Forall (fun c => c <> 0) l ->
  cstr (store8 m1 (d + len l) 0) d l /\ only_in (inr d (len l + 1)) m (store8 m1 (d + len l) 0).
Proof.
  intros Ho Hm Hn. destruct (store0 m1 (d + len l)) as [H0 Ho0]. split.
  - apply cstr_built; [|done|done]. intros i c Hi. rewrite Ho0; [by apply Hm|].
    apply lookup_lt_Some in Hi. unfold inr. lia.
  - intros x Hx. rewrite Ho0, Ho; [done|unfold inr in *; lia..].
Qed.

(** [strcpy] of a string to memory it does not overlap leaves a copy of it, with its
    NUL, changes no other byte, and returns the destination; its assertion holds. *)
Theorem strcpy_spec m dst src l :
  cstr m src l -> 0 < src -> 0 < dst -> (length l < fuel)%nat -> len l < 2 ^ 64 ->
  dst + len l + 1 <= src \/ src + len l + 1 <= dst ->
  wp (strcpy fuel dst src) m (fun r m' =>
    r = dst /\ cstr m' dst l /\ cstr m' src l /\ only_in (inr dst (len l + 1)) m m').
Proof.
  intros Hl Hs Hd Hf Hb Hov. unfold strcpy. apply wp_bind, wp_assert.
  { destruct (Z.eqb_spec dst 0), (Z.eqb_spec src 0); simpl; try done; lia. }
  apply wp_bind. eapply wp_mono; [apply copy_loop_spec; [done|lia|lia|lia|lia]|].
  intros r m1 (-> & Ho & Hm). apply wp_bind, wp_put8; [lia|]. simpl.
  destruct (built_string _ _ _ _ Ho Hm (cstr_nonzero _ _ _ Hl)) as [Hc Ho2].
  set (m2 := store8 m1 (dst + len l) 0) in *. clearbody m2.
  assert (cstr m2 src l) as Hc'.
  { eapply cstr_frame; [|exact Hl]. eapply only_in_same_on; [exact Ho2|]. unfold inr; lia. }
  apply wp_bind. eapply wp_mono; [by apply strlen_spec|]. intros l1 m3 [-> ->].
  apply wp_bind. eapply wp_mono; [by apply strlen_spec|]. intros l2 m3 [-> ->].
  apply wp_bind, wp_assert; [apply Z.eqb_refl|]. by apply wp_ret.
Qed.

Lemma ncopy_loop_spec k m d p l cnt n :
  cstr m p l -> 0 < p -> 0 < d -> (length l < k)%nat -> 0 <= cnt <= n -> n < 2 ^ 64 - 1 ->
  let w := Z.min (len l) (n - cnt) in
  d + w <= p \/ p + len l + 1 <= d ->
  wp (ncopy_loop k d p cnt n) m (fun r m' =>
    r = (d + w, cnt + w) /\ only_in (inr d w) m m' /\
    forall i c, take (Z.to_nat w) l !! i = Some c -> load8 m' (d + Z.of_nat i) = c).
Proof.
  revert k m d p cnt. induction l as [|c l IH]; intros k m d p cnt Hl Hp Hd Hk Hcnt Hn; cbn zeta; intros Hov;
    (destruct k as [|k]; simpl in Hk; [lia|]); cbn [ncopy_loop].
  - simpl in Hl. apply wp_bind, wp_get8; [lia|]. simpl. rewrite Hl. simpl. apply wp_ret.
    rewrite Z.min_l by lia. rewrite !Z.add_0_r. split; [done|]. split; [done|].
    intros i c Hi. by rewrite take_nil, lookup_nil in Hi.
  - pose proof (cstr_bytes _ _ _ Hl) as Hb. apply Forall_cons in Hb as [Hb _].
    destruct Hl as (Hc & Hne & Hl). apply wp_bind, wp_get8; [lia|]. simpl. rewrite Hc.
    destruct (Z.eqb_spec c 0); [done|]. simpl. rewrite wrap_small by lia.
    destruct (Z.leb_spec (cnt + 1) n).
    + apply wp_bind, wp_put8; [lia|]. simpl in Hov |- *.
      assert (only_in (inr d 1) m (store8 m d c)) as Ho.
      { intros x Hx. rewrite load8_store8. destruct (Z.eqb_spec x d); [|done]. unfold inr in Hx; lia. }
      eapply wp_mono; [apply (IH k (store8 m d c) (d + 1) (p + 1) (cnt + 1)); [|lia|lia|lia|lia|lia|lia]|].
      * eapply cstr_frame; [|exact Hl]. eapply only_in_same_on; [exact Ho|]. unfold inr; lia.
      * intros r m' (-> & Ho' & Hm'). set (w := Z.min (len l) (n - (cnt + 1))) in *.
        assert (Z.min (Z.of_nat (S (length l))) (n - cnt) = w + 1) as -> by lia.
        split; [f_equal; lia|]. split.
        { intros x Hx. rewrite Ho', Ho; [done|unfold inr in *; lia..]. }
        replace (Z.to_nat (w + 1)) with (S (Z.to_nat w)) by lia.
        intros [|i] b Hi; simpl in Hi.
        { injection Hi as <-. rewrite Z.add_0_r, Ho' by (unfold inr; lia). rewrite load8_store8, Z.eqb_refl.
          apply wrap_small. lia. }
        rewrite <- (Hm' i b Hi). f_equal. lia.
    + assert (n = cnt) as -> by lia. apply wp_ret. rewrite Z.min_r by lia.
      rewrite !Z.sub_diag, !Z.add_0_r. split; [done|]. split; [done|]. intros i b Hi. simpl in Hi. by rewrite lookup_nil in Hi.
Qed.

(** [strncpy] copies at most [n] bytes and always writes a NUL behind them, at offset
    [n] when the source is longer: it writes [n + 1] bytes, and it does not pad. *)
Theorem strncpy_spec m dst src n l :
  cstr m src l -> 0 < src -> 0 < dst -> (length l < fuel)%nat -> 0 <= n < 2 ^ 64 - 1 -> len l < 2 ^ 64 ->
  dst + Z.min (len l) n + 1 <= src \/ src + len l + 1 <= dst ->
  wp (strncpy fuel dst src n) m (fun r m' =>
    r = dst /\ cstr m' dst (take (Z.to_nat n) l) /\
    only_in (inr dst (Z.min (len l) n + 1)) m m' /\ load8 m' (dst + Z.min (len l) n) = 0).
Proof.
  intros Hl Hs Hd Hf Hn Hb Hov. unfold strncpy. apply wp_bind, wp_assert.
  { destruct (Z.eqb_spec dst 0), (Z.eqb_spec src 0); simpl; try done; lia. }
  apply wp_bind. eapply wp_mono; [apply ncopy_loop_spec; [exact Hl|lia|lia|lia|lia|lia|lia]|].
  rewrite Z.sub_0_r. set (w := Z.min (len l) n) in *. intros r m1 (-> & Ho & Hm).
  assert (take (Z.to_nat w) l = take (Z.to_nat n) l) as Et.
  { unfold w. destruct (Z.min_spec (len l) n) as [[? ->]|[? ->]]; [|done]. rewrite !take_ge by lia. done. }
  rewrite Et in Hm. assert (len (take (Z.to_nat n) l) = w) as El by (rewrite length_take; lia).
  assert (Forall (fun c => c <> 0) (take (Z.to_nat n) l)) as Hnz by (apply Forall_take; by eapply cstr_nonzero).
  rewrite <- El in Ho. destruct (built_string _ _ _ _ Ho Hm Hnz) as [Hc Ho2]. rewrite El in Hc, Ho2.
  apply wp_bind, wp_put8; [lia|]. simpl.
  assert (load8 (store8 m1 (dst + w) 0) (dst + w) = 0) as H0 by apply store0.
  set (m2 := store8 m1 (dst + w) 0) in *. clearbody m2.
  apply wp_bind. eapply wp_mono; [apply (strlen_spec m2); [exact Hc|lia|rewrite length_take; lia|lia]|].
  intros l1 m3 [-> ->]. apply wp_bind, wp_assert; [apply Z.eqb_eq; lia|].
  apply wp_bind, wp_assert; [apply Z.leb_le; lia|]. by apply wp_ret.
Qed.

Lemma end_loop_spec k m p l :
  cstr m p l -> 0 < p -> (length l < k)%nat ->
  wp (end_loop k p) m (fun r m' => r = p + len l /\ m' = m).
Proof.
  revert k p. induction l as [|c l IH]; intros k p Hl Hp Hk; (destruct k as [|k]; simpl in Hk; [lia|]); simpl in *.
  - apply wp_bind, wp_get8; [lia|]. simpl. rewrite Hl. apply wp_ret. split; [lia|done].
  - destruct Hl as (Hc & Hn & Hl). apply wp_bind, wp_get8; [lia|]. simpl. rewrite Hc.
    destruct (Z.eqb_spec c 0); [done|]. eapply wp_mono; [apply IH; [done|lia..]|].
    intros r m' [-> ->]. split; [lia|done].
Qed.

(** [strcat] leaves the concatenation at the destination, and writes only behind the
    first string. *)
Theorem strcat_spec m dst src l1 l2 :
  cstr m dst l1 -> cstr m src l2 -> 0 < src -> 0 < dst ->
  (length l1 + length l2 < fuel)%nat -> len l1 + len l2 < 2 ^ 31 ->
  dst + len l1 + len l2 + 1 <= src \/ src + len l2 + 1 <= dst ->
  wp (strcat fuel dst src) m (fun r m' =>
    r = dst /\ cstr m' dst (l1 ++ l2) /\ only_in (inr (dst + len l1) (len l2 + 1)) m m').
Proof.
  intros H1 H2 Hs Hd Hf Hb Hov. unfold strcat. apply wp_bind, wp_assert.
  { destruct (Z.eqb_spec dst 0); simpl; try done; lia. }
  apply wp_bind. eapply wp_mono; [apply strlen_spec; [done|lia..]|]. intros ? ? [-> ->].
  apply wp_bind. eapply wp_mono; [apply end_loop_spec; [exact H1|lia..]|]. intros ? ? [-> ->].
  pose proof (cstr_app m dst l1 []) as Ha. rewrite app_nil_r in Ha. apply Ha in H1 as [Hm1 H0]. simpl in H0.
  apply wp_bind, wp_get8; [lia|]. simpl. rewrite H0. apply wp_bind, wp_assert; [done|].
  destruct (Z.eqb_spec src 0); [lia|]. apply wp_bind.
  eapply wp_mono; [apply (copy_loop_spec _ m (dst + len l1) src l2); [done|lia..]|].
  intros r m1 (-> & Ho & Hm). apply wp_bind, wp_put8; [lia|]. simpl.
  destruct (built_string _ _ _ _ Ho Hm (cstr_nonzero _ _ _ H2)) as [Hc Ho2].
  set (m2 := store8 m1 (dst + len l1 + len l2) 0) in *. clearbody m2.
  assert (cstr m2 dst (l1 ++ l2)) as Hcat.
  { apply cstr_app. split; [|exact Hc]. intros i c Hi. destruct (Hm1 i c Hi) as [<- ?]. split; [|done].
    apply Ho2. apply lookup_lt_Some in Hi. unfold inr. lia. }
  assert (cstr m2 src l2) as Hc'.
  { eapply cstr_frame; [|exact H2]. eapply only_in_same_on; [exact Ho2|]. unfold inr; lia. }
  apply wp_bind. eapply wp_mono; [apply strlen_spec; [exact Hcat|lia|rewrite length_app; lia|rewrite length_app; lia]|].
  intros ? ? [-> ->]. apply wp_bind. eapply wp_mono; [apply strlen_spec; [exact Hc'|lia..]|].
  intros ? ? [-> ->]. apply wp_bind, wp_assert.
  { rewrite signed_small, wrap_small, length_app by lia. apply Z.eqb_eq. lia. }
  by apply wp_ret.
Qed.

(** *** Comparison *)

(** Lexicographic order on signed characters, a proper prefix first. *)
Fixpoint cmp_str (l1 l2 : list Z) : Z :=
  match l1, l2 with
  | [], [] => 0
  | [], _ :: _ => -1
  | _ :: _, [] => 1
  | a :: l1, b :: l2 =>
      if signed 8 a <? signed 8 b then -1
      else if signed 8 b <? signed 8 a then 1
      else cmp_str l1 l2
  end.

Lemma signed8_inj a b : 0 <= a < 256 -> 0 <= b < 256 -> signed 8 a = signed 8 b -> a = b.
Proof.
  intros Ha Hb E. apply (f_equal (wrap 8)) in E. rewrite !wrap_signed in E by lia.
  by rewrite !wrap_small in E by done.
Qed.

Lemma cmp_str_eq l1 l2 :
  Forall (fun c => 0 <= c < 256) l1 -> Forall (fun c => 0 <= c < 256) l2 -> cmp_str l1 l2 = 0 <-> l1 = l2.
Proof.
  intros H1. revert l2. induction H1 as [|a l1 Ha H1 IH]; intros l2 H2; destruct H2 as [|b l2 Hb H2]; simpl; try done.
  destruct (Z.ltb_spec (signed 8 a) (signed 8 b)); [split; [lia|intros [= -> ->]; lia]|].
  destruct (Z.ltb_spec (signed 8 b) (signed 8 a)); [split; [lia|intros [= -> ->]; lia]|].
  rewrite IH by done. assert (a = b) as -> by (apply signed8_inj; [done..|lia]).
  split; [by intros ->|by intros [= ->]].
Qed.

Lemma cmp_str_opp l1 l2 : cmp_str l2 l1 = - cmp_str l1 l2.
Proof.
  revert l2. induction l1 as [|a l1 IH]; intros [|b l2]; simpl; try done.
  destruct (Z.ltb_spec (signed 8 a) (signed 8 b)), (Z.ltb_spec (signed 8 b) (signed 8 a)); try lia. apply IH.
Qed.

Lemma cmp_lengths_spec m s1 s2 l1 l2 :
  cstr m s1 l1 -> cstr m s2 l2 -> 0 < s1 -> 0 < s2 -> (length l1 < fuel)%nat -> (length l2 < fuel)%nat ->
  len l1 < 2 ^ 64 -> len l2 < 2 ^ 64 -> l1 = [] \/ l2 = [] ->
  wp (cmp_lengths fuel s1 s2) m (fun r m' => r = cmp_str l1 l2 /\ m' = m).
Proof.
  intros H1 H2 Hp1 Hp2 Hf1 Hf2 Hb1 Hb2 Hnil. unfold cmp_lengths.
  apply wp_bind. eapply wp_mono; [by apply strlen_spec|]. intros ? ? [-> ->].
  apply wp_bind. eapply wp_mono; [by apply strlen_spec|]. intros ? ? [-> ->].
  destruct (Z.ltb_spec (len l1) (len l2)).
  - apply wp_ret. split; [|done]. destruct Hnil as [->| ->]; [by destruct l2; simpl in *; [lia|]|simpl in *; lia].
  - apply wp_bind. eapply wp_mono; [by apply strlen_spec|]. intros ? ? [-> ->].
    apply wp_bind. eapply wp_mono; [by apply strlen_spec|]. intros ? ? [-> ->].
    destruct (Z.ltb_spec (len l2) (len l1)); apply wp_ret; (split; [|done]);
      destruct Hnil as [->| ->]; simpl in *; try lia; [by destruct l1; simpl in *; [lia|]|..].
    + destruct l2; [done|simpl in *; lia].
    + destruct l1; [done|simpl in *; lia].
Qed.

Lemma strcmp_loop_spec k m s1 s2 l1 l2 :
  cstr m s1 l1 -> cstr m s2 l2 -> 0 < s1 -> 0 < s2 -> (length l1 < fuel)%nat -> (length l2 < fuel)%nat ->
  len l1 < 2 ^ 64 -> len l2 < 2 ^ 64 -> (length l1 < k)%nat ->
  wp (strcmp_loop fuel k s1 s2) m (fun r m' => r = cmp_str l1 l2 /\ m' = m).
Proof.
  revert k s1 s2 l2. induction l1 as [|a l1 IH]; intros k s1 s2 l2 H1 H2 Hp1 Hp2 Hf1 Hf2 Hb1 Hb2 Hk;
    (destruct k as [|k]; simpl in Hk; [lia|]); cbn [strcmp_loop].
  - simpl in H1. apply wp_bind, wp_get8; [lia|]. simpl. rewrite H1. simpl. apply wp_bind, wp_ret.
    eapply wp_mono; [apply (cmp_lengths_spec m s1 s2 [] l2); try done; by left|done].
  - pose proof (cstr_bytes _ _ _ H1) as Hby1. apply Forall_cons in Hby1 as [Hby1 _].
    pose proof H1 as (Ha & Hna & H1'). apply wp_bind, wp_get8; [lia|]. simpl. rewrite Ha.
    destruct (Z.eqb_spec a 0); [done|]. apply wp_bind, wp_get8; [lia|]. simpl.
    destruct l2 as [|b l2].
    + simpl in H2. rewrite H2. simpl. eapply wp_mono; [apply (cmp_lengths_spec m s1 s2 (a :: l1) []); try done; by right|].
      done.
    + pose proof (cstr_bytes _ _ _ H2) as Hby2. apply Forall_cons in Hby2 as [Hby2 _].
      destruct H2 as (Hb & Hnb & H2'). rewrite Hb. destruct (Z.eqb_spec b 0); [done|]. simpl.
      destruct (Z.ltb_spec (signed 8 a) (signed 8 b)); [by apply wp_ret|].
      destruct (Z.ltb_spec (signed 8 b) (signed 8 a)); [by apply wp_ret|].
      apply wp_bind, wp_assert. { apply Z.eqb_eq, signed8_inj; lia. }
      simpl in *. apply IH; try done; lia.
Qed.

(** [strcmp] is the lexicographic order on signed characters; it returns 0 for equal
    strings only, and exchanging the arguments negates the result. *)
Theorem strcmp_spec m s1 s2 l1 l2 :
  cstr m s1 l1 -> cstr m s2 l2 -> 0 < s1 -> 0 < s2 -> (length l1 < fuel)%nat -> (length l2 < fuel)%nat ->
  len l1 < 2 ^ 64 -> len l2 < 2 ^ 64 ->
  wp (strcmp fuel s1 s2) m (fun r m' => m' = m /\ r = cmp_str l1 l2 /\ (r = 0 <-> l1 = l2) /\
    r = - cmp_str l2 l1).
Proof.
  intros H1 H2 Hp1 Hp2 Hf1 Hf2 Hb1 Hb2. unfold strcmp. apply wp_bind, wp_assert.
  { destruct (Z.eqb_spec s1 0), (Z.eqb_spec s2 0); simpl; try done; lia. }
  eapply wp_mono; [by apply strcmp_loop_spec|]. intros r m' [-> ->]. split; [done|]. split; [done|].
  split; [|rewrite cmp_str_opp; lia].
  apply cmp_str_eq; (eapply Forall_impl; [by eapply cstr_bytes|simpl; lia]).
Qed.

Lemma strncmp_loop_spec k m s1 s2 l1 l2 cnt n :
  cstr m s1 l1 -> cstr m s2 l2 -> 0 < s1 -> 0 < s2 -> (length l1 < fuel)%nat -> (length l2 < fuel)%nat ->
  len l1 < 2 ^ 64 -> len l2 < 2 ^ 64 -> (length l1 < k)%nat -> 0 <= cnt <= n -> n < 2 ^ 31 ->
  wp (strncmp_loop fuel k s1 s2 cnt n) m (fun r m' =>
    r = cmp_str (take (Z.to_nat (n - cnt)) l1) (take (Z.to_nat (n - cnt)) l2) /\ m' = m).
Proof.
  revert k s1 s2 l2 cnt. induction l1 as [|a l1 IH]; intros k s1 s2 l2 cnt H1 H2 Hp1 Hp2 Hf1 Hf2 Hb1 Hb2 Hk Hc Hn;
    (destruct k as [|k]; simpl in Hk; [lia|]); cbn [strncmp_loop].
  - simpl in H1. apply wp_bind, wp_get8; [lia|]. simpl. rewrite H1. simpl. apply wp_bind, wp_ret.
    rewrite wrap_small by lia. destruct (Z.leb_spec n cnt); simpl.
    { apply wp_ret. replace (n - cnt) with 0 by lia. done. }
    destruct (Z.to_nat (n - cnt)) as [|j] eqn:Ej; [lia|].
    eapply wp_mono; [apply (cmp_lengths_spec m s1 s2 [] l2); try done; by left|].
    intros r m' [-> ->]. split; [|done]. by destruct l2.
  - pose proof (cstr_bytes _ _ _ H1) as Hby1. apply Forall_cons in Hby1 as [Hby1 _].
    pose proof H1 as (Ha & Hna & H1'). apply wp_bind, wp_get8; [lia|]. simpl. rewrite Ha.
    destruct (Z.eqb_spec a 0); [done|]. apply wp_bind, wp_get8; [lia|]. simpl. rewrite wrap_small by lia.
    destruct (Z.leb_spec n cnt) as [Hge|Hlt].
    { destruct (Z.ltb_spec cnt n); [lia|]. rewrite andb_false_r. apply wp_ret.
      replace (n - cnt) with 0 by lia. done. }
    destruct (Z.ltb_spec cnt n); [|lia].
    destruct (Z.to_nat (n - cnt)) as [|j] eqn:Ej; [lia|].
    destruct l2 as [|b l2].
    + simpl in H2. rewrite H2. simpl. eapply wp_mono; [apply (cmp_lengths_spec m s1 s2 (a :: l1) []); try done; by right|].
      done.
    + pose proof (cstr_bytes _ _ _ H2) as Hby2. apply Forall_cons in Hby2 as [Hby2 _].
      destruct H2 as (Hb & Hnb & H2'). rewrite Hb. destruct (Z.eqb_spec b 0); [done|]. simpl.
      destruct (Z.ltb_spec (signed 8 a) (signed 8 b)); [by apply wp_ret|].
      destruct (Z.ltb_spec (signed 8 b) (signed 8 a)); [by apply wp_ret|].
      apply wp_bind, wp_assert. { apply Z.eqb_eq, signed8_inj; lia. }
      rewrite signed_small by lia. replace j with (Z.to_nat (n - (cnt + 1))) by lia.
      simpl in *. apply IH; try done; lia.
Qed.

(** [strncmp] compares the first [n] bytes of two strings as [strcmp] compares strings,
    for an [n] that an [int] can count to. *)
Theorem strncmp_spec m s1 s2 l1 l2 n :
  cstr m s1 l1 -> cstr m s2 l2 -> 0 < s1 -> 0 < s2 -> (length l1 < fuel)%nat -> (length l2 < fuel)%nat ->
  len l1 < 2 ^ 64 -> len l2 < 2 ^ 64 -> 0 <= n < 2 ^ 31 ->
  wp (strncmp fuel s1 s2 n) m (fun r m' =>
    m' = m /\ r = cmp_str (take (Z.to_nat n) l1) (take (Z.to_nat n) l2)).
Proof.
  intros H1 H2 Hp1 Hp2 Hf1 Hf2 Hb1 Hb2 Hn. unfold strncmp. apply wp_bind, wp_assert.
  { destruct (Z.eqb_spec s1 0), (Z.eqb_spec s2 0); simpl; try done; lia. }
  eapply wp_mono; [apply (strncmp_loop_spec fuel m s1 s2 l1 l2 0 n); try done; lia|].
  intros r m' [-> ->]. by rewrite Z.sub_0_r.
Qed.
End Spec.

(** *** Blocks of bytes *)

Section BlockSpec.
Implicit Types (m : mem).

(** The [n] bytes at [d] of [m'] are the [n] bytes [m] had at [s], and nothing else changed. *)
Definition block_copied (m m' : mem) (d s n : Z) : Prop :=
  only_in (inr d n) m m' /\ forall i, 0 <= i < n -> load8 m' (d + i) = load8 m (s + i).

(** Upwards, when no byte is written before it is read. *)
Lemma copy_up_spec k m d s :
  0 < d -> 0 < s -> d <= s \/ s + Z.of_nat k <= d ->
  wp (copy_up k d s) m (fun r m' => r = d + Z.of_nat k /\ block_copied m m' d s (Z.of_nat k)).
Proof.
  revert m d s. induction k as [|k IH]; intros m d s Hd Hs Hov; cbn [copy_up].
  - apply wp_ret. split; [simpl; lia|]. split; [done|lia].
  - apply wp_bind, wp_get8; [lia|]. apply wp_bind, wp_put8; [lia|]. simpl.
    eapply wp_mono; [apply IH; lia|]. intros r m' (-> & Ho & Hb). split; [lia|]. split.
    + intros x Hx. rewrite Ho by (unfold inr in *; lia). rewrite load8_store8.
      destruct (Z.eqb_spec x d); [unfold inr in Hx; lia|done].
    + intros i Hi. destruct (decide (i = 0)) as [->|].
      * rewrite Ho by (unfold inr; lia). rewrite !Z.add_0_r, load8_store8, Z.eqb_refl.
        apply wrap_small, load8_range.
      * replace (d + i) with (d + 1 + (i - 1)) by lia. rewrite Hb by lia. rewrite load8_store8.
        replace (s + 1 + (i - 1)) with (s + i) by lia. destruct (Z.eqb_spec (s + i) d); [lia|done].
Qed.

(** Downwards, the end pointers given. *)
Lemma copy_down_spec k m d s :
  Z.of_nat k < d -> Z.of_nat k < s -> s < d ->
  wp (copy_down k d s) m (fun _ m' => block_copied m m' (d - Z.of_nat k) (s - Z.of_nat k) (Z.of_nat k)).
Proof.
  revert m d s. induction k as [|k IH]; intros m d s Hd Hs Hov; cbn [copy_down].
  - apply wp_ret. split; [done|lia].
  - apply wp_bind, wp_get8; [lia|]. apply wp_bind, wp_put8; [lia|]. simpl.
    eapply wp_mono; [apply IH; lia|]. intros r m' (Ho & Hb).
    replace (d - Z.of_nat (S k)) with (d - 1 - Z.of_nat k) by lia.
    replace (s - Z.of_nat (S k)) with (s - 1 - Z.of_nat k) by lia. split.
    + intros x Hx. rewrite Ho by (unfold inr in *; lia). rewrite load8_store8.
      destruct (Z.eqb_spec x (d - 1)); [unfold inr in Hx; lia|done].
    + intros i Hi. destruct (decide (i = Z.of_nat k)) as [->|].
      * rewrite Ho by (unfold inr; lia). replace (d - 1 - Z.of_nat k + Z.of_nat k) with (d - 1) by lia.
        rewrite load8_store8, Z.eqb_refl. replace (s - 1 - Z.of_nat k + Z.of_nat k) with (s - 1) by lia.
        apply wrap_small, load8_range.
      * rewrite Hb by lia. rewrite load8_store8.
        destruct (Z.eqb_spec (s - 1 - Z.of_nat k + i) (d - 1)); [lia|done].
Qed.

(** C36: [memmove] copies [n] bytes whatever the overlap of the two blocks, and changes no
    byte outside the destination. *)
Theorem memmove_spec m dst src n :
  0 < dst -> 0 < src -> 0 <= n ->
  wp (memmove dst src n) m (fun r m' => r = dst /\ block_copied m m' dst src n).
Proof.
  intros Hd Hs Hn. unfold memmove. apply wp_bind. destruct (Z.leb_spec dst src).
  - apply wp_bind. eapply wp_mono; [apply copy_up_spec; lia|]. intros r m' [-> Hb].
    apply wp_ret, wp_ret. rewrite Z2Nat.id in Hb by lia. done.
  - eapply wp_mono; [apply copy_down_spec; lia|]. intros r m' Hb. apply wp_ret.
    rewrite Z2Nat.id in Hb by lia. by rewrite !Z.add_simpl_r in Hb.
Qed.

(** [memcpy] copies [n] bytes between blocks of which the destination does not lie
    inside the source; it returns the end of the destination, not [out]. *)
Theorem memcpy_spec m out in_ n :
  0 < out -> 0 < in_ -> 0 <= n -> out <= in_ \/ in_ + n <= out ->
  wp (memcpy out in_ n) m (fun r m' => r = out + n /\ block_copied m m' out in_ n).
Proof.
  intros Hd Hs Hn Hov. unfold memcpy. eapply wp_mono; [apply copy_up_spec; lia|].
  intros r m' Hb. by rewrite Z2Nat.id in Hb by lia.
Qed.

(** The first of [k] positions at which two blocks differ. *)
Fixpoint first_diff (m : mem) (k : nat) (s1 s2 : Z) : option (Z * Z) :=
  match k with
  | O => None
  | S k =>
      if load8 m s1 =? load8 m s2 then first_diff m k (s1 + 1) (s2 + 1)
      else Some (load8 m s1, load8 m s2)
  end.

Lemma first_diff_none m k s1 s2 :
  first_diff m k s1 s2 = None <-> forall i, 0 <= i < Z.of_nat k -> load8 m (s1 + i) = load8 m (s2 + i).
Proof.
  revert s1 s2. induction k as [|k IH]; intros s1 s2; simpl; [split; [lia|done]|].
  destruct (Z.eqb_spec (load8 m s1) (load8 m s2)) as [E|E].
  - rewrite IH. split; intros H i Hi.
    + destruct (decide (i = 0)) as [->|]; [by rewrite !Z.add_0_r|].
      specialize (H (i - 1) ltac:(lia)).
      replace (s1 + i) with (s1 + 1 + (i - 1)) by lia. by replace (s2 + i) with (s2 + 1 + (i - 1)) by lia.
    + rewrite <- !Z.add_assoc. apply H. lia.
  - split; [done|]. intros H. destruct E. specialize (H 0 ltac:(lia)). by rewrite !Z.add_0_r in H.
Qed.

Lemma memcmp_loop_spec k m s1 s2 :
  0 < s1 -> 0 < s2 ->
  wp (memcmp_loop k s1 s2) m (fun r m' =>
    m' = m /\ r = from_option (fun p => p.1 - p.2) 0 (first_diff m k s1 s2)).
Proof.
  revert s1 s2. induction k as [|k IH]; intros s1 s2 H1 H2; cbn [memcmp_loop]; [by apply wp_ret|].
  apply wp_bind, wp_get8; [lia|]. apply wp_bind, wp_get8; [lia|]. simpl.
  pose proof (load8_range m s1). pose proof (load8_range m s2).
  destruct (Z.eqb_spec (load8 m s1) (load8 m s2)) as [->|E].
  - rewrite Z.sub_diag. simpl. apply IH; lia.
  - destruct (Z.eqb_spec (u64 (load8 m s1 - load8 m s2)) 0) as [E0|_].
    + exfalso. unfold wrap in E0. apply Z.mod_divide in E0; [|lia]. destruct E0 as [q Hq]. lia.
    + apply wp_ret. split; [done|]. simpl. unfold signed.
      assert (wrap 32 (u64 (load8 m s1 - load8 m s2)) = wrap 32 (load8 m s1 - load8 m s2)) as ->.
      { apply Z.mod_mod_divide. exists (2 ^ 32). reflexivity. }
      apply (signed_small 32); lia.
Qed.

(** [memcmp] returns the difference of the first bytes that differ, and 0 for equal
    blocks only: the detour through [size_t] loses nothing. *)
Theorem memcmp_spec m s1 s2 n :
  0 < s1 -> 0 < s2 -> 0 <= n ->
  wp (memcmp s1 s2 n) m (fun r m' =>
    m' = m /\ r = from_option (fun p => p.1 - p.2) 0 (first_diff m (Z.to_nat n) s1 s2) /\
    (r = 0 <-> forall i, 0 <= i < n -> load8 m (s1 + i) = load8 m (s2 + i))).
Proof.
  intros H1 H2 Hn. eapply wp_mono; [by apply memcmp_loop_spec|]. intros r m' [-> ->].
  split; [done|]. split; [done|].
  pose proof (first_diff_none m (Z.to_nat n) s1 s2) as Hd. rewrite Z2Nat.id in Hd by lia. rewrite <- Hd.
  assert (forall k a b, match first_diff m k a b with Some (x, y) => x <> y | None => True end) as Hne.
  { induction k as [|k IH]; intros a b; simpl; [done|]. destruct (Z.eqb_spec (load8 m a) (load8 m b)); [apply IH|done]. }
  specialize (Hne (Z.to_nat n) s1 s2). destruct (first_diff m (Z.to_nat n) s1 s2) as [[x y]|]; simpl; [|done].
  split; [lia|done].
Qed.
End BlockSpec.

(** ** The properties on concrete strings *)

Section Examples.

(** "abcd" at 100, "abz" at 200, room at 300. *)
Definition demo_mem : mem := fun a =>
  if a =? 100 then 97 else if a =? 101 then 98 else if a =? 102 then 99 else if a =? 103 then 100
  else if a =? 200 then 97 else if a =? 201 then 98 else if a =? 202 then 122 else 0.

Lemma demo_abcd : cstr demo_mem 100 [97; 98; 99; 100].
Proof. by vm_compute. Qed.

Lemma demo_abz : cstr demo_mem 200 [97; 98; 122].
Proof. by vm_compute. Qed.

Lemma strcpy_spec_witness :
  wp (strcpy 10 300 100) demo_mem (fun r m' => r = 300 /\ cstr m' 300 [97; 98; 99; 100] /\
    cstr m' 100 [97; 98; 99; 100] /\ only_in (inr 300 (len [97; 98; 99; 100] + 1)) demo_mem m').
Proof.
  apply (strcpy_spec 10 demo_mem 300 100 [97; 98; 99; 100] demo_abcd); simpl; lia.
Defined.

Lemma strncpy_spec_witness :
  wp (strncpy 10 300 100 2) demo_mem (fun r m' => r = 300 /\ cstr m' 300 [97; 98] /\
    only_in (inr 300 3) demo_mem m' /\ load8 m' 302 = 0).
Proof.
  apply (strncpy_spec 10 demo_mem 300 100 2 [97; 98; 99; 100] demo_abcd); simpl; lia.
Defined.

Lemma strcat_spec_witness :
  wp (strcat 10 100 200) demo_mem (fun r m' => r = 100 /\ cstr m' 100 [97; 98; 99; 100; 97; 98; 122] /\
    only_in (inr 104 4) demo_mem m').
Proof.
  apply (strcat_spec 10 demo_mem 100 200 [97; 98; 99; 100] [97; 98; 122] demo_abcd demo_abz); simpl; lia.
Defined.

Lemma strcmp_spec_witness :
  wp (strcmp 10 100 200) demo_mem (fun r m' => m' = demo_mem /\ r = -1 /\
    (r = 0 <-> [97; 98; 99; 100] = [97; 98; 122]) /\ r = - 1).
Proof.
  apply (strcmp_spec 10 demo_mem 100 200 [97; 98; 99; 100] [97; 98; 122] demo_abcd demo_abz); simpl; lia.
Defined.

Lemma strncmp_spec_witness :
  wp (strncmp 10 100 200 2) demo_mem (fun r m' => m' = demo_mem /\ r = 0).
Proof.
  apply (strncmp_spec 10 demo_mem 100 200 [97; 98; 99; 100] [97; 98; 122] 2 demo_abcd demo_abz); simpl; lia.
Defined.

Lemma memmove_spec_witness :
  wp (memmove 101 100 4) demo_mem (fun r m' => r = 101 /\ block_copied demo_mem m' 101 100 4).
Proof. apply (memmove_spec demo_mem 101 100 4); lia. Defined.

Lemma memcpy_spec_witness :
  wp (memcpy 300 100 4) demo_mem (fun r m' => r = 304 /\ block_copied demo_mem m' 300 100 4).
Proof. apply (memcpy_spec demo_mem 300 100 4); lia. Defined.

Lemma memcmp_spec_witness :
  wp (memcmp 100 200 4) demo_mem (fun r m' => m' = demo_mem /\ r = -23 /\
    (r = 0 <-> forall i, 0 <= i < 4 -> load8 demo_mem (100 + i) = load8 demo_mem (200 + i))).
Proof. apply (memcmp_spec demo_mem 100 200 4); lia. Defined.
End Examples.
