(* ===== verification/KStdlib.v ===== *)
(** * klib/src/stdlib.c

    [rand] and [srand] run on the generator's state [next]; [atoi] on any state with a
    memory; [malloc] and [free] are the stubs klib has on bare metal. *)

From stdpp Require Import prelude.
From S2P Require Import Prelude Mem KString.

(** ** The code *)

(** The state is the [unsigned long next]. *)
Definition rand : M Z Z :=
  _ ← modify (fun next => u64 (next * 1103515245 + 12345));
  next ← get;
  mret (i32 (u32 (next / 65536) mod 32768)).

Definition srand (seed : Z) : M Z unit := modify (fun _ => u32 seed).

Definition abs (x : Z) : Z := if x <? 0 then i32 (- x) else x.

Section Code.
Context {St : Type} `{HasMem St} (fuel : nat).

(** Line 24. *)
Fixpoint skip_spaces (k : nat) (nptr : Z) : M St Z :=
  match k with
  | O => raise OutOfFuel
  | S k => c ← get8 nptr; if c =? 32 then skip_spaces k (nptr + 1) else mret nptr
  end.

(** Lines 25-28. *)
Fixpoint atoi_loop (k : nat) (nptr x : Z) : M St Z :=
  match k with
  | O => raise OutOfFuel
  | S k =>
      c ← get8 nptr;
      if (48 <=? signed 8 c) && (signed 8 c <=? 57)
      then atoi_loop k (nptr + 1) (i32 (i32 (i32 (x * 10) + signed 8 c) - 48))
      else mret x
  end.

Definition atoi (nptr : Z) : M St Z :=
  nptr ← skip_spaces fuel nptr;
  atoi_loop fuel nptr 0.

(** [panic("Not implemented")] *)
Definition malloc (size : Z) : M St Z := raise Panic.

Definition free (ptr : Z) : M St unit := mret tt.
End Code.

(** ** Random numbers *)

(** The results of [n] calls. *)
Fixpoint rands (n : nat) : M Z (list Z) :=
  match n with
  | O => mret []
  | S n => r ← rand; rs ← rands n; mret (r :: rs)
  end.

Lemma rand_run s :
  rand s = Done (Z.land (Z.shiftr (s * 1103515245 + 12345) 16) (Z.ones 15)) (u64 (s * 1103515245 + 12345)).
Proof.
  unfold rand, modify, get, mret, M_ret, mbind, M_bind. f_equal. set (x := s * 1103515245 + 12345).
  pose proof (Z.mod_pos_bound (u32 (u64 x / 65536)) 32768 ltac:(lia)). rewrite signed_small by lia.
  rewrite Z.land_ones, Z.shiftr_div_pow2 by lia. change (2 ^ 15) with 32768. change (2 ^ 16) with 65536.
  unfold wrap. rewrite Z.mod_mod_divide by (exists (2 ^ 17); reflexivity).
  change (2 ^ 64) with (65536 * 2 ^ 48). rewrite Z.rem_mul_r by lia.
  rewrite (Z.mul_comm 65536), Z.div_add, (Z.div_small (x mod 65536)), Z.add_0_l by (lia || apply Z.mod_pos_bound; lia).
  apply Z.mod_mod_divide. exists (2 ^ 33). reflexivity.
Qed.

Lemma rand_low s s' :
  s mod 2 ^ 31 = s' mod 2 ^ 31 ->
  let x := s * 1103515245 + 12345 in let x' := s' * 1103515245 + 12345 in
  Z.land (Z.shiftr x 16) (Z.ones 15) = Z.land (Z.shiftr x' 16) (Z.ones 15) /\ u64 x mod 2 ^ 31 = u64 x' mod 2 ^ 31.
Proof.
  intros E. cbv zeta.
  assert ((s * 1103515245 + 12345) mod 2 ^ 31 = (s' * 1103515245 + 12345) mod 2 ^ 31) as Ex.
  { rewrite (Zplus_mod (s * _)), (Zplus_mod (s' * _)), (Zmult_mod s), (Zmult_mod s'), E. done. }
  set (x := s * _ + _) in *. set (x' := s' * _ + _) in *. split.
  - rewrite !Z.land_ones, !Z.shiftr_div_pow2 by lia.
    assert (forall y, (y / 2 ^ 16) mod 2 ^ 15 = (y mod 2 ^ 31) / 2 ^ 16) as H.
    { intros y. change (2 ^ 31) with (2 ^ 16 * 2 ^ 15). rewrite Z.rem_mul_r by lia.
      rewrite (Z.mul_comm (2 ^ 16)), Z.div_add, (Z.div_small (y mod 2 ^ 16)) by (lia || apply Z.mod_pos_bound; lia). lia. }
    by rewrite !H, Ex.
  - unfold wrap. rewrite !Z.mod_mod_divide by (exists (2 ^ 33); reflexivity). done.
Qed.

(** Every random number lies in [0, 32768), and only the low 31 bits of the generator's
    state matter: two states that agree on them yield the same numbers for ever. *)
Theorem rand_31_bits n s s' :
  s mod 2 ^ 31 = s' mod 2 ^ 31 ->
  exists rs t t', rands n s = Done rs t /\ rands n s' = Done rs t' /\
    length rs = n /\ Forall (fun r => 0 <= r < 32768) rs.
Proof.
  revert s s'. induction n as [|n IH]; intros s s' E; cbn [rands]; [by exists [], s, s'|].
  destruct (rand_low s s' E) as [Er Es]. destruct (IH _ _ Es) as (rs & t & t' & H1 & H2 & Hl & Hr).
  set (r := Z.land (Z.shiftr (s * 1103515245 + 12345) 16) (Z.ones 15)) in *.
  exists (r :: rs), t, t'. unfold mbind, M_bind at 1 3. rewrite !rand_run, <- Er. unfold M_bind. rewrite H1, H2.
  split; [done|]. split; [done|]. split; [simpl; by rewrite Hl|]. constructor; [|done].
  unfold r. rewrite Z.land_ones by lia. apply Z.mod_pos_bound. lia.
Qed.

(** ** atoi *)

Definition is_digit (c : Z) : Prop := 48 <= c <= 57.

(** The value of a list of decimal digits, most significant first. *)
Definition dec_value (ds : list Z) : Z := foldl (fun x c => x * 10 + (c - 48)) 0 ds.

Lemma foldl_digits x ds :
  Forall is_digit ds -> 0 <= x -> x <= foldl (fun x c => x * 10 + (c - 48)) x ds.
Proof.
  revert x. induction ds as [|c ds IH]; intros x Hd Hx; simpl; [lia|].
  apply Forall_cons in Hd as [Hc Hd]. unfold is_digit in Hc. specialize (IH (x * 10 + (c - 48)) Hd). lia.
Qed.

Section Atoi.
Context (fuel : nat).
Implicit Types (m : mem).

(** The bytes of [l] at [p], then a byte that is not a digit. *)
Definition digits_at (m : mem) (p : Z) (l : list Z) : Prop :=
  (forall i c, l !! i = Some c -> load8 m (p + Z.of_nat i) = c) /\ ~ is_digit (load8 m (p + Z.of_nat (length l))).

Lemma digits_at_cons m p c l : digits_at m p (c :: l) <-> load8 m p = c /\ digits_at m (p + 1) l.
Proof.
  unfold digits_at. simpl. replace (p + Z.of_nat (S (length l))) with (p + 1 + Z.of_nat (length l)) by lia. split.
  - intros [H He]. split; [specialize (H 0%nat c eq_refl); by rewrite Z.add_0_r in H|]. split; [|done].
    intros i d Hi. specialize (H (S i) d Hi). rewrite <- H. f_equal. lia.
  - intros (<- & H & He). split; [|done]. intros [|i] d Hi; simpl in Hi.
    + injection Hi as <-. by rewrite Z.add_0_r.
    + rewrite <- (H i d Hi). f_equal. lia.
Qed.

Lemma digit_test c : 0 <= c < 256 -> (48 <=? signed 8 c) && (signed 8 c <=? 57) = true <-> is_digit c.
Proof.
  intros Hc. unfold is_digit, signed, wrap. rewrite Z.mod_small by done. cbv zeta.
  destruct (Z.ltb_spec c (2 ^ (8 - 1))); rewrite andb_true_iff, !Z.leb_le; simpl in *; lia.
Qed.

Lemma atoi_loop_spec k m p x ds :
  digits_at m p ds -> Forall is_digit ds -> 0 < p -> (length ds < k)%nat -> 0 <= x ->
  foldl (fun x c => x * 10 + (c - 48)) x ds < 2 ^ 31 ->
  wp (atoi_loop k p x) m (fun r m' => m' = m /\ r = foldl (fun x c => x * 10 + (c - 48)) x ds).
Proof.
  revert k p x. induction ds as [|c ds IH]; intros k p x Hat Hd Hp Hk Hx Hb;
    (destruct k as [|k]; simpl in Hk; [lia|]); cbn [atoi_loop]; apply wp_bind, wp_get8; try lia; simpl st_mem.
  - destruct Hat as [_ He]. simpl in He. rewrite Z.add_0_r in He.
    destruct (_ && _) eqn:Et; [by apply digit_test in Et; [|apply load8_range]|]. by apply wp_ret.
  - apply digits_at_cons in Hat as [Hc Hat]. apply Forall_cons in Hd as [Hcd Hd]. rewrite Hc.
    pose proof (load8_range m p) as Hr. rewrite Hc in Hr.
    pose proof (proj2 (digit_test c Hr) Hcd) as ->. unfold is_digit in Hcd. cbn [foldl] in Hb |- *.
    pose proof (foldl_digits (x * 10 + (c - 48)) ds Hd ltac:(lia)) as Hle.
    rewrite (signed_small 8 c) by (simpl; lia).
    assert (i32 (i32 (i32 (x * 10) + c) - 48) = x * 10 + (c - 48)) as ->.
    { rewrite (signed_small 32 (x * 10)) by lia.
      destruct (decide (x * 10 + c < 2 ^ 31)); [rewrite (signed_small 32 (x * 10 + c)), signed_small; lia|].
      unfold signed at 2. rewrite wrap_small by lia.
      destruct (Z.ltb_spec (x * 10 + c) (2 ^ (32 - 1))); [simpl in *; lia|].
      rewrite <- (signed_wrap 32). replace (wrap 32 (x * 10 + c - 2 ^ 32 - 48)) with (wrap 32 (x * 10 + (c - 48))).
      - rewrite signed_wrap. apply signed_small; lia.
      - unfold wrap. rewrite <- (Z_mod_plus_full _ (-1) (2 ^ 32)). f_equal. lia. }
    apply IH; [done|done|lia|lia|lia|done].
Qed.

Lemma skip_spaces_spec k m p n :
  (forall i, 0 <= i < Z.of_nat n -> load8 m (p + i) = 32) -> load8 m (p + Z.of_nat n) <> 32 -> 0 < p -> (n < k)%nat ->
  wp (skip_spaces k p) m (fun r m' => r = p + Z.of_nat n /\ m' = m).
Proof.
  revert k p. induction n as [|n IH]; intros k p Hs Hn Hp Hk; (destruct k as [|k]; [lia|]); cbn [skip_spaces];
    apply wp_bind, wp_get8; try lia; simpl st_mem.
  - simpl in Hn. rewrite Z.add_0_r in Hn. destruct (Z.eqb_spec (load8 m p) 32); [done|]. apply wp_ret. split; [lia|done].
  - pose proof (Hs 0 ltac:(lia)) as H0. rewrite Z.add_0_r in H0. rewrite H0. simpl.
    eapply wp_mono; [apply IH; [|replace (p + 1 + Z.of_nat n) with (p + Z.of_nat (S n)) by lia; done|lia|lia]|].
    + intros i Hi. rewrite <- Z.add_assoc. apply Hs. lia.
    + intros r m' [-> ->]. split; [lia|done].
Qed.

(** [atoi] skips blanks and reads decimal digits up to the first byte that is none; a
    sign is such a byte, so the result is never negative. *)
Theorem atoi_spec m p n ds :
  (forall i, 0 <= i < Z.of_nat n -> load8 m (p + i) = 32) -> load8 m (p + Z.of_nat n) <> 32 ->
  digits_at m (p + Z.of_nat n) ds -> Forall is_digit ds -> dec_value ds < 2 ^ 31 ->
  0 < p -> (n < fuel)%nat -> (length ds < fuel)%nat ->
  wp (atoi fuel p) m (fun r m' => m' = m /\ r = dec_value ds /\ 0 <= r).
Proof.
  intros Hs Hn Hat Hd Hb Hp Hf1 Hf2. unfold atoi. apply wp_bind.
  eapply wp_mono; [by apply skip_spaces_spec|]. intros r m' [-> ->].
  eapply wp_mono; [apply (atoi_loop_spec fuel m _ 0 ds); try done; lia|]. intros r m' [-> ->].
  split; [done|]. split; [done|]. by apply foldl_digits.
Qed.
End Atoi.

(** ** abs, and the properties on concrete values *)

(** [abs] is the absolute value of every [int] but the least, which it returns. *)
Theorem abs_spec x :
  - 2 ^ 31 <= x < 2 ^ 31 -> abs x = if x =? - 2 ^ 31 then - 2 ^ 31 else Z.abs x.
Proof.
  intros Hx. unfold abs. destruct (Z.ltb_spec x 0), (Z.eqb_spec x (- 2 ^ 31)) as [->|]; try lia; [done|].
  rewrite signed_small; lia.
Qed.

Lemma abs_spec_witness : abs (-5) = 5.
Proof. apply (abs_spec (-5)); lia. Defined.

Lemma rand_31_bits_witness :
  exists rs t t', rands 3 1 = Done rs t /\ rands 3 (1 + 2 ^ 31) = Done rs t' /\
    length rs = 3%nat /\ Forall (fun r => 0 <= r < 32768) rs.
Proof. apply (rand_31_bits 3 1 (1 + 2 ^ 31)). reflexivity. Defined.

(** "  42" at 100. *)
Definition demo_number : mem := fun a =>
  if a =? 100 then 32 else if a =? 101 then 32 else if a =? 102 then 52 else if a =? 103 then 50 else 0.

Lemma atoi_spec_witness :
  wp (atoi 10 100) demo_number (fun r m' => m' = demo_number /\ r = 42 /\ 0 <= r).
Proof.
  apply (atoi_spec 10 demo_number 100 2 [52; 50]); try (simpl; lia).
  - intros i Hi. assert (i = 0 \/ i = 1) as [->| ->] by lia; reflexivity.
  - by vm_compute.
  - split; [|unfold is_digit; simpl; vm_compute; intros [? ?]; done].
    intros [|[|i]] c Hi; simpl in Hi; [by injection Hi as <-..|done].
  - repeat constructor; unfold is_digit; lia.
  - by vm_compute.
Defined.
