(* ===== verification/KStdio.v ===== *)
(** * klib/src/stdio.c

    [printf] on a state with a memory and a console; [vsprintf] and [vsnprintf] on any state
    with a memory. A [va_list] is the list of the arguments not yet taken, each the value of
    a machine word. [cnt] is 0 whenever a directive starts, since every loop on it ends at 0. *)

From stdpp Require Import prelude.
From S2P Require Import Prelude Mem KString KStdlib.

(** ** The code *)

(** A memory and the bytes [putch] has sent to the console. *)
Record kio : Type := mk_kio { io_mem : mem; io_out : list Z }.

#[export] Instance kio_has_mem : HasMem kio :=
  {| st_mem := io_mem; st_upd := fun f s => mk_kio (f (io_mem s)) (io_out s); st_mem_upd := fun _ _ => eq_refl |}.

Definition putch (c : Z) : M kio unit := modify (fun s => mk_kio (io_mem s) (io_out s ++ [u8 c])).

(** Lines 12-15. *)
Fixpoint m_pow_loop (k : nat) (ret m : Z) : Z :=
  match k with O => ret | S k => m_pow_loop k (u64 (ret * m)) m end.

Definition m_pow_n (m n : Z) : Z := m_pow_loop (Z.to_nat n) 1 m.

Section Shared.
Context {St : Type} `{HasMem St} (fuel : nat).

Definition va_arg (args : list Z) : M St (Z * list Z) :=
  match args with [] => raise OutOfBounds | a :: args => mret (a, args) end.

(** Lines 71-75, 103-107, 136-140: the number of digits of [val_seg], counted in [cnt]. *)
Fixpoint count_loop (k : nat) (cnt val_seg base : Z) : M St Z :=
  match k with
  | O => raise OutOfFuel
  | S k => if val_seg =? 0 then mret cnt else count_loop k (i32 (cnt + 1)) (val_seg / base) base
  end.

(** Lines 69-78: the digits of an argument, 1 for the argument 0. *)
Definition count (val base : Z) : M St Z := if val =? 0 then mret 1 else count_loop fuel 0 val base.

Definition udiv (a b : Z) : M St (Z * Z) := if b =? 0 then raise DivByZero else mret (a / b, a mod b).
End Shared.

Section Printf.
Context (fuel : nat).

(** Lines 82-93, [k] being [cnt]. *)
Fixpoint put_hex (k : nat) (ArgHexVal : Z) : M kio unit :=
  match k with
  | O => mret tt
  | S k =>
      '(val_seg, ArgHexVal) ← udiv ArgHexVal (m_pow_n 16 (Z.of_nat k));
      _ ← (if val_seg <=? 9 then putch (signed 8 val_seg + 48) else putch (signed 8 val_seg - 10 + 65));
      put_hex k ArgHexVal
  end.

(** Lines 114-120 and 146-152. *)
Fixpoint put_int (k : nat) (base ArgIntVal : Z) : M kio unit :=
  match k with
  | O => mret tt
  | S k =>
      '(val_seg, rest) ← udiv (u64 ArgIntVal) (m_pow_n base (Z.of_nat k));
      _ ← putch (signed 8 val_seg + 48);
      put_int k base (i32 rest)
  end.

(** Lines 158-161. *)
Fixpoint put_str (k : nat) (ArgStrVal : Z) : M kio unit :=
  match k with
  | O => raise OutOfFuel
  | S k => c ← get8 ArgStrVal; if c =? 0 then mret tt else _ ← putch c; put_str k (ArgStrVal + 1)
  end.

(** Lines 51-166, the character after the '%' being [c]. *)
Definition printf_directive (c pStr ret_num : Z) (args : list Z) : M kio (Z * Z * list Z) :=
  if c =? 37 then
    _ ← putch c;
    mret (pStr + 1, i32 (ret_num + 1), args)
  else if c =? 99 then
    '(a, args) ← va_arg args;
    _ ← putch (signed 8 (i32 a));
    mret (pStr + 1, i32 (ret_num + 1), args)
  else if c =? 120 then
    '(a, args) ← va_arg args;
    cnt ← count fuel (u64 a) 16;
    _ ← put_hex (Z.to_nat cnt) (u64 a);
    mret (pStr + 1, i32 (ret_num + cnt), args)
  else if c =? 98 then
    '(a, args) ← va_arg args;
    cnt ← count fuel (u64 (i32 a)) 2;
    _ ← put_int (Z.to_nat cnt) 2 (i32 a);
    mret (pStr + 1, i32 (ret_num + cnt), args)
  else if c =? 100 then
    '(a, args) ← va_arg args;
    let ArgIntVal := i32 a in
    '(ArgIntVal, ret_num) ←
      (if ArgIntVal <? 0 then _ ← putch 45; mret (i32 (- ArgIntVal), i32 (ret_num + 1))
       else mret (ArgIntVal, ret_num));
    cnt ← count fuel (u64 ArgIntVal) 10;
    _ ← put_int (Z.to_nat cnt) 10 ArgIntVal;
    mret (pStr + 1, i32 (ret_num + cnt), args)
  else if c =? 115 then
    '(a, args) ← va_arg args;
    l ← strlen fuel a;
    _ ← put_str fuel a;
    mret (pStr + 1, i32 (u64 (ret_num + l)), args)
  else mret (pStr, ret_num, args).

(** After a directive control falls through to the [default] case of the outer switch, which
    prints the character [pStr] has reached. *)
Fixpoint printf_loop (k : nat) (pStr ret_num : Z) (args : list Z) : M kio Z :=
  match k with
  | O => raise OutOfFuel
  | S k =>
      c ← get8 pStr;
      if c =? 0 then mret ret_num
      else if c =? 9 then _ ← putch c; printf_loop k (pStr + 1) (i32 (ret_num + 4)) args
      else if c =? 13 then _ ← putch c; printf_loop k (pStr + 1) (i32 (ret_num + 1)) args
      else if c =? 10 then _ ← putch c; printf_loop k (pStr + 1) (i32 (ret_num + 1)) args
      else if c =? 37 then
        let pStr := pStr + 1 in
        c ← get8 pStr;
        '(pStr, ret_num, args) ← printf_directive c pStr ret_num args;
        c ← get8 pStr;
        _ ← putch c;
        printf_loop k (pStr + 1) (i32 (ret_num + 1)) args
      else _ ← putch c; printf_loop k (pStr + 1) (i32 (ret_num + 1)) args
  end.

Definition printf (fmt : Z) (args : list Z) : M kio Z :=
  if fmt =? 0 then mret (-1) else printf_loop fuel fmt 0 args.
End Printf.

Section Sprintf.
Context {St : Type} `{HasMem St} (fuel : nat).

(** Lines 226-232, [k] being [cnt]. *)
Fixpoint out_int (k : nat) (ArgIntVal str_out : Z) : M St Z :=
  match k with
  | O => mret str_out
  | S k =>
      '(val_seg, rest) ← udiv (u64 ArgIntVal) (m_pow_n 10 (Z.of_nat k));
      _ ← put8 str_out (signed 8 val_seg + 48);
      out_int k (i32 rest) (str_out + 1)
  end.

(** Lines 242-245. *)
Fixpoint out_str (k : nat) (ArgStrVal str_out : Z) : M St Z :=
  match k with
  | O => raise OutOfFuel
  | S k =>
      c ← get8 ArgStrVal;
      if c =? 0 then mret str_out
      else _ ← put8 str_out c; out_str k (ArgStrVal + 1) (str_out + 1)
  end.

(** Lines 198-249. *)
Definition vsprintf_directive (c str_out ret_num : Z) (ap : list Z) : M St (Z * Z * list Z) :=
  if c =? 37 then
    _ ← put8 str_out c;
    mret (str_out + 1, i32 (ret_num + 1), ap)
  else if c =? 100 then
    '(a, ap) ← va_arg ap;
    let ArgIntVal := i32 a in
    '(ArgIntVal, str_out, ret_num) ←
      (if ArgIntVal <? 0 then
         _ ← put8 str_out 45; mret (i32 (- ArgIntVal), str_out + 1, i32 (ret_num + 1))
       else mret (ArgIntVal, str_out, ret_num));
    cnt ← count fuel (u64 ArgIntVal) 10;
    str_out ← out_int (Z.to_nat cnt) ArgIntVal str_out;
    mret (str_out, i32 (ret_num + cnt), ap)
  else if c =? 99 then
    '(a, ap) ← va_arg ap;
    _ ← put8 str_out (signed 8 (i32 a));
    mret (str_out + 1, i32 (ret_num + 1), ap)
  else if c =? 115 then
    '(a, ap) ← va_arg ap;
    l ← strlen fuel a;
    str_out ← out_str fuel a str_out;
    mret (str_out, i32 (u64 (ret_num + l)), ap)
  else mret (str_out, ret_num, ap).

(** Lines 192-256. *)
Fixpoint vsprintf_loop (k : nat) (pStr str_out ret_num : Z) (ap : list Z) : M St (Z * Z) :=
  match k with
  | O => raise OutOfFuel
  | S k =>
      c ← get8 pStr;
      if c =? 0 then mret (str_out, ret_num)
      else if c =? 37 then
        let pStr := pStr + 1 in
        c ← get8 pStr;
        '(str_out, ret_num, ap) ← vsprintf_directive c str_out ret_num ap;
        vsprintf_loop k (pStr + 1) str_out ret_num ap
      else
        _ ← put8 str_out c;
        vsprintf_loop k (pStr + 1) (str_out + 1) (i32 (ret_num + 1)) ap
  end.

(** [assert(ret_num = strlen(out))] assigns. *)
Definition vsprintf (out fmt : Z) (ap : list Z) : M St Z :=
  if fmt =? 0 then mret (-1)
  else
    '(str_out, _) ← vsprintf_loop fuel fmt out 0 ap;
    _ ← put8 str_out 0;
    l ← strlen fuel out;
    let ret_num := i32 l in
    _ ← c_assert (negb (ret_num =? 0));
    mret ret_num.

Definition sprintf (out fmt : Z) (args : list Z) : M St Z := vsprintf out fmt args.
End Sprintf.

(** An early return, or where the next character goes and how many there are. *)
Inductive progress : Type := Returned (ret : Z) | Going (str_out ret_num : Z).

Section Snprintf.
Context {St : Type} `{HasMem St} (fuel : nat) (n : Z).

(** [if (ret_num + 1 > n) return ret_num; *str_out++ = c; ret_num++;] *)
Definition emit (c str_out ret_num : Z) : M St progress :=
  if n <? u64 (i32 (ret_num + 1)) then mret (Returned ret_num)
  else _ ← put8 str_out c; mret (Going (str_out + 1) (i32 (ret_num + 1))).

(** Lines 326-335. *)
Fixpoint emit_int (k : nat) (ArgIntVal str_out ret_num : Z) : M St progress :=
  match k with
  | O => mret (Going str_out ret_num)
  | S k =>
      '(val_seg, rest) ← udiv (u64 ArgIntVal) (m_pow_n 10 (Z.of_nat k));
      r ← emit (signed 8 val_seg + 48) str_out ret_num;
      match r with
      | Returned ret => mret (Returned ret)
      | Going str_out ret_num => emit_int k (i32 rest) str_out ret_num
      end
  end.

(** Lines 346-352. *)
Fixpoint emit_str (k : nat) (ArgStrVal str_out ret_num : Z) : M St progress :=
  match k with
  | O => raise OutOfFuel
  | S k =>
      c ← get8 ArgStrVal;
      if c =? 0 then mret (Going str_out ret_num)
      else
        r ← emit c str_out ret_num;
        match r with
        | Returned ret => mret (Returned ret)
        | Going str_out ret_num => emit_str k (ArgStrVal + 1) str_out ret_num
        end
  end.

(** Lines 295-356. *)
Definition vsnprintf_directive (c str_out ret_num : Z) (ap : list Z) : M St (progress * list Z) :=
  if c =? 37 then r ← emit c str_out ret_num; mret (r, ap)
  else if c =? 100 then
    '(a, ap) ← va_arg ap;
    let ArgIntVal := i32 a in
    '(ArgIntVal, r) ←
      (if ArgIntVal <? 0 then r ← emit 45 str_out ret_num; mret (i32 (- ArgIntVal), r)
       else mret (ArgIntVal, Going str_out ret_num));
    match r with
    | Returned ret => mret (Returned ret, ap)
    | Going str_out ret_num =>
        cnt ← count fuel (u64 ArgIntVal) 10;
        r ← emit_int (Z.to_nat cnt) ArgIntVal str_out ret_num;
        mret (r, ap)
    end
  else if c =? 99 then
    '(a, ap) ← va_arg ap;
    r ← emit (signed 8 (i32 a)) str_out ret_num;
    mret (r, ap)
  else if c =? 115 then
    '(a, ap) ← va_arg ap;
    r ← emit_str fuel a str_out ret_num;
    mret (r, ap)
  else mret (Going str_out ret_num, ap).

(** Lines 289-365. *)
Fixpoint vsnprintf_loop (k : nat) (pStr str_out ret_num : Z) (ap : list Z) : M St progress :=
  match k with
  | O => raise OutOfFuel
  | S k =>
      c ← get8 pStr;
      if c =? 0 then mret (Going str_out ret_num)
      else if c =? 37 then
        let pStr := pStr + 1 in
        c ← get8 pStr;
        '(r, ap) ← vsnprintf_directive c str_out ret_num ap;
        match r with
        | Returned ret => mret (Returned ret)
        | Going str_out ret_num => vsnprintf_loop k (pStr + 1) str_out ret_num ap
        end
      else
        r ← emit c str_out ret_num;
        match r with
        | Returned ret => mret (Returned ret)
        | Going str_out ret_num => vsnprintf_loop k (pStr + 1) str_out ret_num ap
        end
  end.

Definition vsnprintf (out fmt : Z) (ap : list Z) : M St Z :=
  if fmt =? 0 then mret (-1)
  else
    r ← vsnprintf_loop fuel fmt out 0 ap;
    match r with
    | Returned ret => mret ret
    | Going str_out _ =>
        _ ← put8 str_out 0;
        l ← strlen fuel out;
        let ret_num := i32 l in
        _ ← c_assert (negb (ret_num =? 0));
        _ ← c_assert (u64 ret_num <=? n);
        mret ret_num
    end.

Definition snprintf (out fmt : Z) (args : list Z) : M St Z := vsnprintf out fmt args.
End Snprintf.

(** ** Digits *)

Fixpoint ndigits (k : nat) (base n : Z) : nat :=
  match k with
  | O => O
  | S k => if n =? 0 then O else S (ndigits k base (n / base))
  end.

(** The number of digits printed for a [n < 2 ^ 64]. *)
Definition width (base n : Z) : nat := if n =? 0 then 1%nat else ndigits 64 base n.

(** The [k] lowest digits of [n], most significant first. *)
Fixpoint digits (k : nat) (base n : Z) : list Z :=
  match k with
  | O => []
  | S k => n / base ^ Z.of_nat k :: digits k base (n mod base ^ Z.of_nat k)
  end.

Definition dec_char (d : Z) : Z := 48 + d.
Definition hex_char (d : Z) : Z := if d <=? 9 then 48 + d else 55 + d.

(** What [%d] and [%x] print. *)
Definition dec_chars (n : Z) : list Z :=
  (if n <? 0 then [45] else []) ++ (dec_char <$> digits (width 10 (Z.abs n)) 10 (Z.abs n)).

Definition hex_chars (n : Z) : list Z := hex_char <$> digits (width 16 n) 16 n.

Definition horner (base : Z) (ds : list Z) : Z := foldl (fun x d => x * base + d) 0 ds.

Lemma foldl_horner base x ds : foldl (fun x d => x * base + d) x ds = x * base ^ Z.of_nat (length ds) + horner base ds.
Proof.
  unfold horner. revert x. induction ds as [|d ds IH] using rev_ind; intros x; [simpl; lia|].
  rewrite !foldl_snoc, IH, length_app. simpl. replace (Z.of_nat (length ds + 1)) with (Z.of_nat (length ds) + 1) by lia.
  rewrite Z.pow_add_r by lia. lia.
Qed.

Section Digits.
Context (base : Z) (Hbase : 2 <= base).

Lemma base_pow_pos k : 0 < base ^ Z.of_nat k.
Proof. apply Z.pow_pos_nonneg; lia. Qed.

Lemma base_pow_S k : base ^ Z.of_nat (S k) = base * base ^ Z.of_nat k.
Proof. rewrite Nat2Z.inj_succ. by apply Z.pow_succ_r; lia. Qed.

Lemma digits_length k n : length (digits k base n) = k.
Proof. revert n. induction k as [|k IH]; intros n; simpl; [done|by rewrite IH]. Qed.

Lemma digits_range k n : 0 <= n < base ^ Z.of_nat k -> Forall (fun d => 0 <= d < base) (digits k base n).
Proof.
  revert n. induction k as [|k IH]; intros n Hn; cbn [digits]; constructor.
  - pose proof (base_pow_pos k). rewrite base_pow_S in Hn.
    split; [apply Z.div_pos; lia|apply Z.div_lt_upper_bound; lia].
  - apply IH, Z.mod_pos_bound, base_pow_pos.
Qed.

Lemma digits_horner k n : 0 <= n < base ^ Z.of_nat k -> horner base (digits k base n) = n.
Proof.
  revert n. induction k as [|k IH]; intros n Hn; [simpl in *; unfold horner; simpl; lia|].
  cbn [digits]. unfold horner. cbn [foldl]. rewrite foldl_horner, digits_length, IH.
  - pose proof (Z.div_mod n (base ^ Z.of_nat k)). pose proof (base_pow_pos k). lia.
  - apply Z.mod_pos_bound, base_pow_pos.
Qed.

Lemma ndigits_bounds k n :
  0 <= n < 2 ^ Z.of_nat k ->
  n < base ^ Z.of_nat (ndigits k base n) /\ (0 < n -> (0 < ndigits k base n)%nat /\
    base ^ Z.of_nat (ndigits k base n - 1) <= n) /\ (ndigits k base n <= k)%nat.
Proof.
  revert n. induction k as [|k IH]; intros n Hn; cbn [ndigits]; [simpl in *; lia|].
  destruct (Z.eqb_spec n 0) as [->|]; [simpl; lia|].
  assert (0 <= n / base < 2 ^ Z.of_nat k) as Hd.
  { rewrite Nat2Z.inj_succ, Z.pow_succ_r in Hn by lia.
    split; [apply Z.div_pos; lia|apply Z.div_lt_upper_bound; nia]. }
  pose proof (Z.div_mod n base ltac:(lia)) as Dn. pose proof (Z.mod_pos_bound n base ltac:(lia)).
  destruct (decide (n / base = 0)) as [E0|].
  { rewrite E0 in *. replace (ndigits k base 0) with O by (by destruct k).
    rewrite base_pow_S. simpl. split; [lia|]. split; [|lia]. intros _. split; lia. }
  destruct (IH _ Hd) as (Hlt & Hge & Hle). destruct Hge as [Hj Hb]; [lia|].
  set (j := ndigits k base (n / base)) in *. clearbody j.
  rewrite base_pow_S. split; [nia|]. split; [|lia]. intros _. split; [lia|].
  destruct j as [|j]; [lia|]. replace (S j - 1)%nat with j in Hb by lia.
  replace (S (S j) - 1)%nat with (S j) by lia. rewrite base_pow_S. nia.
Qed.

Lemma width_bounds n :
  0 <= n < 2 ^ 64 ->
  (0 < width base n <= 64)%nat /\ n < base ^ Z.of_nat (width base n) /\
  base ^ Z.of_nat (width base n - 1) <= Z.max 1 n.
Proof.
  intros Hn. unfold width. destruct (Z.eqb_spec n 0) as [->|]; [simpl; lia|].
  destruct (ndigits_bounds 64 n Hn) as (H1 & H2 & H3). destruct H2 as [H2 H4]; [lia|].
  split; [lia|]. split; [done|]. lia.
Qed.

(** A digit printed after the first is below every power that stands before it. *)
Lemma pow_below n k : 0 <= n < 2 ^ 64 -> (k < width base n)%nat -> 0 < base ^ Z.of_nat k < 2 ^ 64.
Proof.
  intros Hn Hk. destruct (width_bounds n Hn) as (Hw & _ & Hle). split; [apply base_pow_pos|].
  apply Z.le_lt_trans with (base ^ Z.of_nat (width base n - 1)); [apply Z.pow_le_mono_r; lia|].
  eapply Z.le_lt_trans; [exact Hle|]. lia.
Qed.

Lemma m_pow_loop_spec k ret : m_pow_loop k (u64 ret) base = u64 (ret * base ^ Z.of_nat k).
Proof.
  revert ret. induction k as [|k IH]; intros ret; cbn [m_pow_loop]; [by rewrite Z.mul_1_r|].
  assert (u64 (u64 ret * base) = u64 (ret * base)) as -> by (unfold wrap; apply Zmult_mod_idemp_l).
  rewrite IH, base_pow_S. f_equal. lia.
Qed.

Lemma m_pow_n_spec k : base ^ Z.of_nat k < 2 ^ 64 -> m_pow_n base (Z.of_nat k) = base ^ Z.of_nat k.
Proof.
  intros Hk. unfold m_pow_n. rewrite Nat2Z.id. change 1 with (u64 1) at 1. rewrite m_pow_loop_spec, Z.mul_1_l.
  apply wrap_small. pose proof (base_pow_pos k). lia.
Qed.
End Digits.

Section Count.
Context {St : Type} `{HasMem St} (fuel : nat) (Hfuel : (64 < fuel)%nat).

Lemma count_loop_spec k j cnt n base (s : St) :
  2 <= base -> 0 <= n < 2 ^ Z.of_nat j -> (j < k)%nat -> 0 <= cnt -> cnt + Z.of_nat j < 2 ^ 31 ->
  wp (count_loop k cnt n base) s (fun r s' => s' = s /\ r = cnt + Z.of_nat (ndigits j base n)).
Proof.
  intros Hb. revert k cnt n. induction j as [|j IH]; intros k cnt n Hn Hk Hc Hs; (destruct k as [|k]; [lia|]);
    cbn [count_loop ndigits].
  - assert (n = 0) as -> by (simpl in Hn; lia). apply wp_ret. split; [done|simpl; lia].
  - destruct (Z.eqb_spec n 0) as [->|]; [apply wp_ret; split; [done|simpl; lia]|].
    rewrite signed_small by lia. eapply wp_mono; [apply IH; [|lia|lia|lia]|].
    + rewrite Nat2Z.inj_succ, Z.pow_succ_r in Hn by lia.
      split; [apply Z.div_pos; lia|apply Z.div_lt_upper_bound; nia].
    + intros r s' [-> ->]. split; [done|lia].
Qed.

Lemma count_spec n base (s : St) :
  2 <= base -> 0 <= n < 2 ^ 64 ->
  wp (count fuel n base) s (fun r s' => s' = s /\ r = Z.of_nat (width base n)).
Proof.
  intros Hb Hn. unfold count, width. destruct (Z.eqb_spec n 0); [by apply wp_ret|].
  eapply wp_mono; [apply (count_loop_spec fuel 64); [done|exact Hn|lia|lia|lia]|]. intros r s' [-> ->]. split; [done|lia].
Qed.

Lemma udiv_spec a b (s : St) : b <> 0 -> wp (udiv a b) s (fun r s' => s' = s /\ r = (a / b, a mod b)).
Proof. intros Hb. unfold udiv. destruct (Z.eqb_spec b 0); [done|]. by apply wp_ret. Qed.
End Count.

(** ** Characters written to memory *)

(** [m'] is [m] with the bytes of [l] written at [p]. *)
Definition wrote (m m' : mem) (p : Z) (l : list Z) : Prop :=
  only_in (inr p (len l)) m m' /\ forall i c, l !! i = Some c -> load8 m' (p + Z.of_nat i) = c.

Definition is_byte (c : Z) : Prop := 0 <= c < 256.

Lemma wrote_nil m p : wrote m m p [].
Proof. split; [done|]. intros i c Hi. by rewrite lookup_nil in Hi. Qed.

Lemma wrote_one m p c v : is_byte c -> u8 v = c -> wrote m (store8 m p v) p [c].
Proof.
  intros Hc Hv. split.
  - intros x Hx. rewrite load8_store8. destruct (Z.eqb_spec x p); [unfold inr in Hx; simpl in Hx; lia|done].
  - intros [|i] d Hi; [|done]. injection Hi as <-. by rewrite Z.add_0_r, load8_store8, Z.eqb_refl.
Qed.

Lemma wrote_app m m1 m2 p l1 l2 :
  wrote m m1 p l1 -> wrote m1 m2 (p + len l1) l2 -> wrote m m2 p (l1 ++ l2).
Proof.
  intros [Ho1 Hl1] [Ho2 Hl2]. split.
  - intros x Hx. rewrite length_app in Hx. rewrite Ho2, Ho1; [done|unfold inr in *; lia..].
  - intros i c Hi. apply lookup_app_Some in Hi as [Hi|[Hge Hi]].
    + rewrite Ho2; [by apply Hl1|]. apply lookup_lt_Some in Hi. unfold inr. lia.
    + rewrite <- (Hl2 _ c Hi). f_equal. lia.
Qed.

Lemma wrote_cons m m1 m2 p c l :
  wrote m m1 p [c] -> wrote m1 m2 (p + 1) l -> wrote m m2 p (c :: l).
Proof. intros H1 H2. by apply (wrote_app m m1 m2 p [c] l). Qed.

Lemma dec_digit d : 0 <= d < 10 -> u8 (signed 8 d + 48) = dec_char d /\ is_byte (dec_char d).
Proof.
  intros Hd. unfold dec_char, is_byte. rewrite signed_small by (simpl; lia). rewrite wrap_small by lia. lia.
Qed.

(** One step of the loops that print the digits of an [int] that is not negative. *)
Lemma digit_step {St} `{HasMem St} base k n (s : St) (Q : Z * Z -> St -> Prop) :
  2 <= base -> 0 <= n < 2 ^ 31 -> base ^ Z.of_nat k < 2 ^ 64 ->
  Q (n / base ^ Z.of_nat k, n mod base ^ Z.of_nat k) s ->
  wp (udiv (u64 n) (m_pow_n base (Z.of_nat k))) s Q.
Proof.
  intros Hb Hn Hk HQ. rewrite m_pow_n_spec by done. rewrite wrap_small by lia.
  pose proof (base_pow_pos base Hb k). eapply wp_mono; [apply udiv_spec; lia|]. by intros r s' [-> ->].
Qed.

Section SprintfSpec.
Implicit Types (m : mem).

Lemma out_int_spec k m n p :
  0 <= n < 10 ^ Z.of_nat k -> n < 2 ^ 31 -> 0 < p -> (forall j, (j < k)%nat -> 10 ^ Z.of_nat j < 2 ^ 64) ->
  wp (out_int k n p) m (fun r m' => r = p + Z.of_nat k /\ wrote m m' p (dec_char <$> digits k 10 n)).
Proof.
  revert m n p. induction k as [|k IH]; intros m n p Hn Hn31 Hp Hpow; cbn [out_int digits].
  { apply wp_ret. split; [lia|]. apply wrote_nil. }
  apply wp_bind, digit_step; [lia..|apply Hpow; lia|].
  pose proof (base_pow_pos 10 ltac:(lia) k) as Hbp. rewrite base_pow_S in Hn by lia.
  assert (0 <= n / 10 ^ Z.of_nat k < 10) as Hd.
  { split; [apply Z.div_pos; lia|apply Z.div_lt_upper_bound; lia]. }
  pose proof (Z.mod_pos_bound n _ Hbp) as Hm. pose proof (Z.mod_le n (10 ^ Z.of_nat k) ltac:(lia) Hbp).
  apply wp_bind, wp_put8; [lia|]. rewrite signed_small by lia.
  eapply wp_mono; [apply IH; [lia|lia|lia|intros; apply Hpow; lia]|].
  intros r m' [-> Hw]. split; [lia|]. rewrite fmap_cons. eapply wrote_cons; [|exact Hw].
  destruct (dec_digit _ Hd) as [E Hby]. by apply wrote_one.
Qed.

(** The source does not overlap what is written. *)
Lemma out_str_spec k m p d l :
  cstr m p l -> 0 < p -> 0 < d -> (length l < k)%nat ->
  d + len l <= p \/ p + len l + 1 <= d ->
  wp (out_str k p d) m (fun r m' => r = d + len l /\ wrote m m' d l).
Proof.
  revert k m p d. induction l as [|c l IH]; intros k m p d Hl Hp Hd Hk Hov;
    (destruct k as [|k]; simpl in Hk; [lia|]); cbn [out_str]; apply wp_bind, wp_get8; try lia; simpl st_mem.
  - simpl in Hl. rewrite Hl. apply wp_ret. split; [simpl; lia|apply wrote_nil].
  - pose proof (cstr_bytes _ _ _ Hl) as Hb. apply Forall_cons in Hb as [Hb _].
    destruct Hl as (Hc & Hn & Hl). rewrite Hc. destruct (Z.eqb_spec c 0); [done|].
    apply wp_bind, wp_put8; [lia|]. simpl in Hov |- *.
    assert (wrote m (store8 m d c) d [c]) as Hw by (apply wrote_one; [unfold is_byte; lia|by apply wrap_small; lia]).
    eapply wp_mono; [apply IH; [|lia|lia|lia|lia]|].
    + eapply cstr_frame; [|exact Hl]. eapply only_in_same_on; [apply Hw|]. unfold inr; simpl; lia.
    + intros r m' [-> Hw']. split; [lia|]. by eapply wrote_cons.
Qed.
End SprintfSpec.

(** ** What a format prints

    [directive m lo hi c args args' o]: the directive [c] takes its arguments from [args],
    leaves [args'] and prints [o]; the strings among them are outside [lo, hi), the
    destination. [renders m lo hi l args o]: the format [l] (its bytes) prints [o]. *)
Inductive directive (m : mem) (lo hi : Z) : Z -> list Z -> list Z -> list Z -> Prop :=
| d_percent args : directive m lo hi 37 args args [37]
| d_int a args : - 2 ^ 31 < i32 a -> directive m lo hi 100 (a :: args) args (dec_chars (i32 a))
| d_chr a args : directive m lo hi 99 (a :: args) args [u8 a]
| d_str p s args :
    cstr m p s -> 0 < p -> p + len s + 1 <= lo \/ hi <= p -> directive m lo hi 115 (p :: args) args s
| d_other c args : c ∉ [37; 99; 100; 115] -> directive m lo hi c args args [].

Inductive renders (m : mem) (lo hi : Z) : list Z -> list Z -> list Z -> Prop :=
| renders_end args : renders m lo hi [] args []
| renders_char c l args o : c <> 37 -> renders m lo hi l args o -> renders m lo hi (c :: l) args (c :: o)
| renders_directive c l args args' o1 o2 :
    directive m lo hi c args args' o1 -> renders m lo hi l args' o2 ->
    renders m lo hi (37 :: c :: l) args (o1 ++ o2).

(** The magnitude of an [int] that is not the least. *)
Lemma dec_chars_cases n :
  - 2 ^ 31 < n < 2 ^ 31 ->
  exists k, (0 < k <= 64)%nat /\ k = width 10 (Z.abs n) /\
    dec_chars n = (if n <? 0 then [45] else []) ++ (dec_char <$> digits k 10 (Z.abs n)) /\
    Z.abs n < 10 ^ Z.of_nat k /\ (forall j, (j < k)%nat -> 10 ^ Z.of_nat j < 2 ^ 64).
Proof.
  intros Hn. exists (width 10 (Z.abs n)). destruct (width_bounds 10 ltac:(lia) (Z.abs n) ltac:(lia)) as (Hw & Hlt & _).
  split; [done|]. split; [done|]. split; [done|]. split; [done|]. intros j Hj.
  apply (pow_below 10 ltac:(lia) (Z.abs n)); [lia|done].
Qed.

(** The bytes a format prints are bytes. *)
Lemma wrote_byte m p c v : u8 v = c -> wrote m (store8 m p v) p [c].
Proof. intros <-. apply wrote_one; [|done]. apply (wrap_range 8). lia. Qed.

Lemma u8_signed v : u8 (signed 8 (i32 v)) = u8 v.
Proof.
  rewrite wrap_signed by lia. unfold wrap. assert (forall x, x mod 2 ^ 8 = (x mod 2 ^ 32) mod 2 ^ 8) as E.
  { intros x. symmetry. apply Z.mod_mod_divide. exists (2 ^ 24). reflexivity. }
  rewrite (E (i32 v)), (E v). f_equal. apply (wrap_signed 32). lia.
Qed.

(** The result of formatting [o] at [str_out]. *)
Definition printed (m : mem) (str_out ret_num : Z) (o : list Z) (r : Z * Z) (m' : mem) : Prop :=
  r = (str_out + len o, ret_num + len o) /\ wrote m m' str_out o.

(** What the loop on the format needs of the memory it runs in. *)
Record in_place (m0 m : mem) (lo hi : Z) (pStr : Z) (l : list Z) : Prop := {
  ip_same : only_in (inr lo (hi - lo)) m0 m;
  ip_fmt : cstr m0 pStr l;
  ip_pos : 0 < pStr;
  ip_apart : pStr + len l + 1 <= lo \/ hi <= pStr;
}.

Lemma in_place_cstr m0 m lo hi pStr l p s :
  in_place m0 m lo hi pStr l -> cstr m0 p s -> p + len s + 1 <= lo \/ hi <= p -> cstr m p s.
Proof.
  intros Hp Hs Ha. eapply cstr_frame; [|exact Hs]. eapply only_in_same_on; [apply Hp|]. unfold inr. lia.
Qed.

Lemma in_place_next m0 m m' lo hi pStr l1 l2 str_out o :
  in_place m0 m lo hi pStr (l1 ++ l2) -> wrote m m' str_out o -> lo <= str_out -> str_out + len o <= hi ->
  in_place m0 m' lo hi (pStr + len l1) l2.
Proof.
  intros [Hs Hf Hp Ha] [Ho _] Hlo Hhi. rewrite length_app in Ha. split; [|apply cstr_app in Hf as [_ Hf]; done|lia..].
  intros x Hx. rewrite Ho, Hs; [done|done|]. unfold inr in *. lia.
Qed.

Lemma i32_add a b : 0 <= a -> 0 <= b -> a + b < 2 ^ 31 -> i32 (a + b) = a + b.
Proof. intros. apply signed_small; simpl; lia. Qed.

(** A directive that is not the last thing the format prints. *)
Lemma printed_app m m1 m' str_out ret_num o1 o2 r :
  wrote m m1 str_out o1 -> printed m1 (str_out + len o1) (ret_num + len o1) o2 r m' ->
  printed m str_out ret_num (o1 ++ o2) r m'.
Proof.
  intros Hw [-> Hw']. split; [rewrite length_app; f_equal; lia|]. by eapply wrote_app.
Qed.

Section VsprintfSpec.
Context (fuel : nat) (Hfuel : (64 < fuel)%nat).
Implicit Types (m : mem).

Lemma vsprintf_int m a args str_out ret_num :
  - 2 ^ 31 < i32 a -> 0 < str_out -> 0 <= ret_num -> ret_num + len (dec_chars (i32 a)) < 2 ^ 31 ->
  wp (vsprintf_directive fuel 100 str_out ret_num (a :: args)) m (fun r m' =>
    exists r', r = (r', args) /\ printed m str_out ret_num (dec_chars (i32 a)) r' m').
Proof.
  intros Ha Hs Hr Hlen. pose proof (signed_range 32 a ltac:(lia)) as Hra.
  destruct (dec_chars_cases (i32 a)) as (k & Hk & Ek & Ed & Hlt & Hpow); [simpl in *; lia|].
  unfold vsprintf_directive. simpl. apply wp_bind, wp_ret.
  rewrite Ed in *. set (n := i32 a) in *. clearbody n.
  rewrite length_app, length_fmap, digits_length in Hlen.
  destruct (Z.ltb_spec n 0).
  - rewrite (Z.abs_neq n) in * by lia. simpl in Hlen.
    apply wp_bind, wp_bind, wp_put8; [lia|]. apply wp_ret. rewrite !signed_small by (simpl in *; lia).
    rewrite (wrap_small 64) by (simpl in *; lia).
    apply wp_bind. eapply wp_mono; [apply count_spec; [done|lia|simpl in *; lia]|]. intros c m1 [-> ->].
    rewrite <- Ek, Nat2Z.id. apply wp_bind.
    eapply wp_mono; [apply out_int_spec; [lia|simpl in *; lia|lia|done]|]. intros r m' [-> Hw]. apply wp_ret.
    eexists. split; [done|]. rewrite signed_small by lia. split.
    + rewrite length_app, length_fmap, digits_length. simpl. f_equal; lia.
    + eapply wrote_cons; [|exact Hw]. by apply wrote_byte.
  - rewrite (Z.abs_eq n) in * by lia. simpl in Hlen.
    apply wp_bind, wp_ret. rewrite (wrap_small 64) by (simpl in *; lia).
    apply wp_bind. eapply wp_mono; [apply count_spec; [done|lia|simpl in *; lia]|]. intros c m1 [-> ->].
    rewrite <- Ek, Nat2Z.id. apply wp_bind.
    eapply wp_mono; [apply out_int_spec; [lia|simpl in *; lia|lia|done]|]. intros r m' [-> Hw]. apply wp_ret.
    eexists. split; [done|]. rewrite signed_small by lia. split.
    + rewrite length_app, length_fmap, digits_length. simpl. f_equal; lia.
    + exact Hw.
Qed.

Lemma vsprintf_directive_spec m0 m lo hi pStr l c args args' o str_out ret_num :
  directive m0 lo hi c args args' o -> in_place m0 m lo hi pStr l ->
  0 < lo -> lo <= str_out -> str_out + len o <= hi -> 0 <= ret_num -> ret_num + len o < 2 ^ 31 -> (length o < fuel)%nat ->
  wp (vsprintf_directive fuel c str_out ret_num args) m (fun r m' =>
    exists r', r = (r', args') /\ printed m str_out ret_num o r' m').
Proof.
  intros [b|a b Ha|a b|p s b Hcs Hp Hap|d b Hd] Hin Hlo Hst Hhi Hr Hlen Hf.
  - apply wp_bind, wp_put8; [lia|]. apply wp_ret. eexists. split; [done|]. simpl in *. rewrite i32_add by lia.
    split; [done|by apply wrote_byte].
  - apply vsprintf_int; [done|lia..].
  - apply wp_bind, wp_ret, wp_bind, wp_put8; [lia|]. apply wp_ret. eexists. split; [done|]. simpl in *.
    rewrite i32_add by lia. split; [done|]. apply wrote_byte, u8_signed.
  - pose proof (in_place_cstr _ _ _ _ _ _ _ _ Hin Hcs Hap) as Hcs'. apply wp_bind, wp_ret, wp_bind.
    eapply wp_mono; [apply strlen_spec; [exact Hcs'|lia..]|]. intros ? ? [-> ->]. apply wp_bind.
    eapply wp_mono; [apply out_str_spec; [exact Hcs'|lia..]|]. intros ? m1 [-> Hw]. apply wp_ret.
    eexists. split; [done|]. rewrite (wrap_small 64), i32_add by lia. by split.
  - unfold vsprintf_directive. rewrite !not_elem_of_cons in Hd. destruct Hd as (? & ? & ? & ? & _).
    destruct (Z.eqb_spec d 37), (Z.eqb_spec d 100), (Z.eqb_spec d 99), (Z.eqb_spec d 115); try done.
    apply wp_ret. eexists. split; [done|]. split; [simpl; f_equal; lia|apply wrote_nil].
Qed.

Lemma vsprintf_loop_spec m0 lo hi l args o :
  renders m0 lo hi l args o ->
  forall k m pStr str_out ret_num,
  in_place m0 m lo hi pStr l -> 0 < lo -> lo <= str_out -> str_out + len o <= hi ->
  0 <= ret_num -> ret_num + len o < 2 ^ 31 -> (length l < k)%nat -> (length o < fuel)%nat ->
  wp (vsprintf_loop fuel k pStr str_out ret_num args) m (fun r m' => printed m str_out ret_num o r m').
Proof.
  induction 1 as [args|c l args o Hc Hren IH|c l args args' o1 o2 Hdir Hren IH];
    intros k m pStr str_out ret_num Hin Hlo Hst Hhi Hr Hlen Hk Hf;
    (destruct k as [|k]; simpl in Hk; [lia|]); cbn [vsprintf_loop];
    pose proof (in_place_cstr _ _ _ _ _ _ _ _ Hin (ip_fmt _ _ _ _ _ _ Hin) (ip_apart _ _ _ _ _ _ Hin)) as Hcur;
    pose proof (ip_pos _ _ _ _ _ _ Hin); apply wp_bind, wp_get8; try lia; simpl st_mem.
  - simpl in Hcur. rewrite Hcur. apply wp_ret. split; [simpl; f_equal; lia|apply wrote_nil].
  - pose proof (cstr_bytes _ _ _ Hcur) as Hby. apply Forall_cons in Hby as [Hby _].
    destruct Hcur as (-> & Hn & _). destruct (Z.eqb_spec c 0), (Z.eqb_spec c 37); try done.
    apply wp_bind, wp_put8; [lia|]. simpl in Hhi, Hlen, Hf |- *. rewrite i32_add by lia.
    assert (wrote m (store8 m str_out c) str_out [c]) as Hw by (apply wrote_byte, wrap_small; simpl; lia).
    eapply wp_mono; [apply IH; [|lia..]|].
    + eapply (in_place_next _ _ _ _ _ _ [c]); [exact Hin|exact Hw|lia|simpl; lia].
    + intros r m' Hpr. by apply (printed_app m (store8 m str_out c) m' str_out ret_num [c] o).
  - destruct Hcur as (-> & _ & Hc2 & _). simpl. apply wp_bind, wp_get8; [lia|]. simpl. rewrite Hc2.
    rewrite length_app in Hhi, Hlen, Hf. apply wp_bind.
    eapply wp_mono; [eapply vsprintf_directive_spec; [exact Hdir|exact Hin|lia..]|].
    intros ? m1 (r1 & -> & -> & Hw). simpl. eapply wp_mono; [apply IH; [|lia..]|].
    + rewrite <- Z.add_assoc. eapply (in_place_next _ _ _ _ _ _ [37; c]); [exact Hin|exact Hw|lia..].
    + intros r m' Hpr. by eapply printed_app.
Qed.

(** The loop, run from the first character on. *)
Lemma vsprintf_whole m out fmt l args o :
  renders m out (out + len o + 1) l args o -> cstr m fmt l -> 0 < fmt -> 0 < out ->
  fmt + len l + 1 <= out \/ out + len o + 1 <= fmt ->
  len o < 2 ^ 31 -> (length l < fuel)%nat -> (length o < fuel)%nat ->
  wp (vsprintf_loop fuel fuel fmt out 0 args) m (fun r m' => printed m out 0 o r m').
Proof.
  intros Hren Hfmt Hp Ho Hap Hlen Hfl Hfo. eapply vsprintf_loop_spec; [exact Hren| |lia..].
  split; [done|done|done|lia].
Qed.

Lemma vsprintf_text m out fmt l args o :
  renders m out (out + len o + 1) l args o -> cstr m fmt l -> 0 < fmt -> 0 < out ->
  fmt + len l + 1 <= out \/ out + len o + 1 <= fmt ->
  len o < 2 ^ 31 -> (length l < fuel)%nat -> (length o < fuel)%nat ->
  Forall (fun c => c <> 0) o -> o <> [] ->
  wp (vsprintf fuel out fmt args) m (fun r m' =>
    r = len o /\ cstr m' out o /\ only_in (inr out (len o + 1)) m m').
Proof.
  intros Hren Hfmt Hp Ho Hap Hlen Hfl Hfo Hnz Hne. unfold vsprintf. destruct (Z.eqb_spec fmt 0); [lia|].
  apply wp_bind. eapply wp_mono; [by eapply vsprintf_whole|]. intros ? m1 (-> & Hw & Hb).
  apply wp_bind, wp_put8; [lia|]. simpl. destruct (built_string _ _ _ _ Hw Hb Hnz) as [Hc Ho2].
  set (m2 := store8 m1 (out + len o) 0) in *. clearbody m2.
  apply wp_bind. eapply wp_mono; [by apply strlen_spec; [exact Hc|lia..]|]. intros ? ? [-> ->].
  assert (0 < len o) by (destruct o; [done|simpl; lia]). rewrite signed_small by (simpl; lia).
  apply wp_bind, wp_assert; [|by apply wp_ret]. destruct (Z.eqb_spec (len o) 0); [lia|done].
Qed.

(** [sprintf] writes exactly the text the format denotes, followed by a
    NUL, and returns its length, for every sequence of %d, %c, %s, %% and plain characters;
    without a format it returns -1 and writes nothing. *)
Theorem sprintf_spec m out fmt l args o :
  renders m out (out + len o + 1) l args o -> cstr m fmt l -> 0 <= fmt -> 0 < out ->
  fmt + len l + 1 <= out \/ out + len o + 1 <= fmt ->
  len o < 2 ^ 31 -> (length l < fuel)%nat -> (length o < fuel)%nat ->
  Forall (fun c => c <> 0) o -> o <> [] ->
  wp (sprintf fuel out fmt args) m (fun r m' =>
    if fmt =? 0 then r = -1 /\ m' = m
    else r = len o /\ cstr m' out o /\ only_in (inr out (len o + 1)) m m').
Proof.
  intros Hren Hfmt Hp Ho Hap Hlen Hfl Hfo Hnz Hne. destruct (Z.eqb_spec fmt 0) as [->|].
  - by apply wp_ret.
  - eapply vsprintf_text; try done. lia.
Qed.

(** A format that prints nothing stops the machine: the assertion of line 258 is an
    assignment of the length, which is 0. *)
Theorem vsprintf_empty_asserts m out fmt l args :
  renders m out (out + 1) l args [] -> cstr m fmt l -> 0 < fmt -> 0 < out ->
  fmt + len l + 1 <= out \/ out + 1 <= fmt -> (length l < fuel)%nat ->
  sprintf fuel out fmt args m = Fault AssertFail.
Proof.
  intros Hren Hfmt Hp Ho Hap Hfl. unfold sprintf, vsprintf. destruct (Z.eqb_spec fmt 0); [lia|].
  eapply fault_bind; [eapply (vsprintf_whole m out fmt l args []); simpl; rewrite ?Z.add_0_r; try done; lia|].
  intros ? m1 (-> & Hw & Hb). unfold mbind, M_bind, put8. destruct (Z.eqb_spec (out + len (@nil Z)) 0); [simpl in *; lia|].
  unfold modify. simpl. rewrite Z.add_0_r.
  assert (cstr (store8 m1 out 0) out []) as Hc by (simpl; by rewrite load8_store8, Z.eqb_refl).
  pose proof (strlen_spec fuel _ _ _ Hc Ho ltac:(simpl; lia) ltac:(simpl; lia)) as Hl.
  apply wp_done in Hl as (? & ? & -> & -> & ->). done.
Qed.
End VsprintfSpec.

Section SnprintfSpec.
Context (n : Z) (Hn : 0 <= n < 2 ^ 64).
Implicit Types (m : mem).

(** The result of formatting [o] when at most [n] characters fit. *)
Definition bounded (m : mem) (str_out ret_num : Z) (o : list Z) (r : progress) (m' : mem) : Prop :=
  if ret_num + len o <=? n then r = Going (str_out + len o) (ret_num + len o) /\ wrote m m' str_out o
  else r = Returned n /\ wrote m m' str_out (take (Z.to_nat (n - ret_num)) o).

Lemma bounded_nil m str_out ret_num : ret_num <= n -> bounded m str_out ret_num [] (Going str_out ret_num) m.
Proof.
  intros Hr. unfold bounded. simpl. rewrite !Z.add_0_r. destruct (Z.leb_spec ret_num n); [|lia].
  split; [done|apply wrote_nil].
Qed.

Lemma emit_spec m c str_out ret_num :
  0 < str_out -> 0 <= ret_num <= n -> ret_num + 1 < 2 ^ 31 ->
  wp (emit n c str_out ret_num) m (bounded m str_out ret_num [u8 c]).
Proof.
  intros Hs Hr Hlt. unfold emit, bounded. rewrite i32_add, wrap_small by lia.
  change (len [u8 c]) with 1.
  destruct (Z.ltb_spec n (ret_num + 1)), (Z.leb_spec (ret_num + 1) n); try lia.
  - apply wp_ret. replace (n - ret_num) with 0 by lia. split; [f_equal; lia|apply wrote_nil].
  - apply wp_bind, wp_put8; [lia|]. apply wp_ret. split; [done|by apply wrote_byte].
Qed.

(** Continue unless the first part has returned. *)
Lemma bounded_then m m1 str_out ret_num o1 o2 r1 (Q : progress -> mem -> Prop) (f : Z -> Z -> M mem progress) :
  bounded m str_out ret_num o1 r1 m1 -> ret_num <= n ->
  (forall r m', bounded m str_out ret_num (o1 ++ o2) r m' -> Q r m') ->
  (wrote m m1 str_out o1 -> ret_num + len o1 <= n ->
    wp (f (str_out + len o1) (ret_num + len o1)) m1 (bounded m1 (str_out + len o1) (ret_num + len o1) o2)) ->
  wp (match r1 with Returned ret => mret (Returned ret) | Going a b => f a b end) m1 Q.
Proof.
  intros Hb Hr HQ Hf. unfold bounded in Hb. destruct (Z.leb_spec (ret_num + len o1) n).
  - destruct Hb as [-> Hw]. eapply wp_mono; [by apply Hf|]. intros r m' Hb'. apply HQ.
    unfold bounded in *. rewrite length_app, Nat2Z.inj_add, !Z.add_assoc.
    destruct (Z.leb_spec (ret_num + len o1 + len o2) n).
    + destruct Hb' as [-> Hw']. split; [done|]. by eapply wrote_app.
    + destruct Hb' as [-> Hw']. split; [done|]. rewrite take_app. rewrite (take_ge o1) by lia.
      replace (Z.to_nat (n - ret_num) - length o1)%nat with (Z.to_nat (n - (ret_num + len o1))) by lia.
      by eapply wrote_app.
  - destruct Hb as [-> Hw]. apply wp_ret, HQ. unfold bounded. rewrite length_app.
    destruct (Z.leb_spec (ret_num + Z.of_nat (length o1 + length o2)) n); [lia|].
    split; [done|]. by rewrite take_app_le by lia.
Qed.

Lemma emit_int_spec k m v p ret_num :
  0 <= v < 10 ^ Z.of_nat k -> v < 2 ^ 31 -> 0 < p -> (forall j, (j < k)%nat -> 10 ^ Z.of_nat j < 2 ^ 64) ->
  0 <= ret_num <= n -> ret_num + Z.of_nat k < 2 ^ 31 ->
  wp (emit_int n k v p ret_num) m (bounded m p ret_num (dec_char <$> digits k 10 v)).
Proof.
  revert m v p ret_num. induction k as [|k IH]; intros m v p ret_num Hv Hv31 Hp Hpow Hr Hlt; cbn [emit_int digits].
  { apply wp_ret, bounded_nil. lia. }
  apply wp_bind, digit_step; [lia..|apply Hpow; lia|].
  pose proof (base_pow_pos 10 ltac:(lia) k) as Hbp. rewrite base_pow_S in Hv by lia.
  assert (0 <= v / 10 ^ Z.of_nat k < 10) as Hd.
  { split; [apply Z.div_pos; lia|apply Z.div_lt_upper_bound; lia]. }
  pose proof (Z.mod_pos_bound v _ Hbp) as Hm. pose proof (Z.mod_le v (10 ^ Z.of_nat k) ltac:(lia) Hbp).
  apply wp_bind. eapply wp_mono; [apply emit_spec; lia|]. intros r1 m1 Hb1.
  destruct (dec_digit _ Hd) as [E _]. rewrite E in Hb1. rewrite fmap_cons.
  eapply (bounded_then m m1 p ret_num [_] _ r1); [exact Hb1|lia|intros r' m' Hq; exact Hq|].
  intros _ Hle. simpl in Hle |- *. rewrite signed_small by lia. apply IH; [lia..|intros; apply Hpow; lia|lia|lia].
Qed.

Lemma emit_str_spec k m p d l ret_num :
  cstr m p l -> 0 < p -> 0 < d -> (length l < k)%nat -> d + len l <= p \/ p + len l + 1 <= d ->
  0 <= ret_num <= n -> ret_num + len l < 2 ^ 31 ->
  wp (emit_str n k p d ret_num) m (bounded m d ret_num l).
Proof.
  revert k m p d ret_num. induction l as [|c l IH]; intros k m p d ret_num Hl Hp Hd Hk Hov Hr Hlt;
    (destruct k as [|k]; simpl in Hk; [lia|]); cbn [emit_str]; apply wp_bind, wp_get8; try lia; simpl st_mem.
  - simpl in Hl. rewrite Hl. apply wp_ret, bounded_nil. lia.
  - pose proof (cstr_bytes _ _ _ Hl) as Hb. apply Forall_cons in Hb as [Hb _].
    destruct Hl as (Hc & Hnz & Hl). rewrite Hc. destruct (Z.eqb_spec c 0); [done|]. simpl in Hov, Hlt.
    apply wp_bind. eapply wp_mono; [apply emit_spec; lia|]. intros r1 m1 Hb1. rewrite wrap_small in Hb1 by (simpl; lia).
    eapply (bounded_then m m1 d ret_num [c] l r1); [exact Hb1|lia|intros r' m' Hq; exact Hq|].
    intros Hw Hle. simpl in Hle |- *. apply IH; [|lia..].
    eapply cstr_frame; [|exact Hl]. eapply only_in_same_on; [apply Hw|]. unfold inr; simpl; lia.
Qed.

Context (fuel : nat) (Hfuel : (64 < fuel)%nat).

Lemma vsnprintf_int m a args str_out ret_num :
  - 2 ^ 31 < i32 a -> 0 < str_out -> 0 <= ret_num <= n -> ret_num + len (dec_chars (i32 a)) < 2 ^ 31 ->
  wp (vsnprintf_directive fuel n 100 str_out ret_num (a :: args)) m (fun r m' =>
    r.2 = args /\ bounded m str_out ret_num (dec_chars (i32 a)) r.1 m').
Proof.
  intros Ha Hs Hr Hlen. pose proof (signed_range 32 a ltac:(lia)) as Hra.
  destruct (dec_chars_cases (i32 a)) as (k & Hk & Ek & Ed & Hlt & Hpow); [simpl in *; lia|].
  unfold vsnprintf_directive. simpl. apply wp_bind, wp_ret. rewrite Ed in *. set (v := i32 a) in *. clearbody v.
  rewrite length_app, length_fmap, digits_length in Hlen. simpl in Hra.
  assert (forall m1 s' r', 0 < s' -> 0 <= r' <= n -> r' + Z.of_nat k < 2 ^ 31 ->
    wp (cnt ← count fuel (u64 (Z.abs v)) 10; r ← emit_int n (Z.to_nat cnt) (Z.abs v) s' r'; mret (r, args)) m1
      (fun r m' => r.2 = args /\ bounded m1 s' r' (dec_char <$> digits k 10 (Z.abs v)) r.1 m')) as Hdig.
  { intros m1 s' r' Hs' Hr' Hl'. rewrite (wrap_small 64) by lia.
    apply wp_bind. eapply wp_mono; [apply count_spec; [done|lia|lia]|]. intros c m2 [-> ->].
    rewrite <- Ek, Nat2Z.id. apply wp_bind.
    eapply wp_mono; [apply emit_int_spec; [lia|lia|lia|done|lia|lia]|]. intros r m' Hb. by apply wp_ret. }
  destruct (Z.ltb_spec v 0).
  - rewrite (Z.abs_neq v) in * by lia. simpl in Hlen.
    apply wp_bind, wp_bind. eapply wp_mono; [apply emit_spec; lia|]. intros r1 m1 Hb1. apply wp_ret.
    rewrite (signed_small 32) by (simpl; lia).
    destruct r1 as [ret|s' r'] eqn:Er1; unfold bounded in Hb1; change (len [u8 45]) with 1 in Hb1.
    + apply wp_ret. split; [done|]. destruct (Z.leb_spec (ret_num + 1) n) as [|Hge]; destruct Hb1 as [E Hw]; [done|].
      unfold bounded. rewrite length_app, length_fmap, digits_length. simpl.
      destruct (Z.leb_spec (ret_num + Z.of_nat (S k)) n); [lia|].
      split; [done|]. by replace (n - ret_num) with 0 in * by lia.
    + destruct (Z.leb_spec (ret_num + 1) n) as [Hle|]; destruct Hb1 as [E Hw]; [injection E as -> ->|done].
      eapply wp_mono; [apply Hdig; lia|]. intros [r ?] m' [-> Hb]. split; [done|]. simpl in *.
      unfold bounded in *. simpl length. rewrite length_fmap, digits_length in *.
      replace (ret_num + Z.of_nat (S k)) with (ret_num + 1 + Z.of_nat k) by lia.
      destruct (Z.leb_spec (ret_num + 1 + Z.of_nat k) n); destruct Hb as [-> Hw'].
      * split; [f_equal; lia|]. by eapply wrote_cons.
      * split; [done|]. replace (Z.to_nat (n - ret_num)) with (S (Z.to_nat (n - (ret_num + 1)))) by lia.
        by eapply wrote_cons.
  - rewrite (Z.abs_eq v) in * by lia. apply wp_bind, wp_ret. eapply wp_mono; [apply Hdig; simpl in *; lia|]. done.
Qed.

Lemma vsnprintf_directive_spec m0 m lo hi pStr l c args args' o str_out ret_num :
  directive m0 lo hi c args args' o -> in_place m0 m lo hi pStr l ->
  0 < lo -> lo <= str_out -> str_out + len o <= hi -> 0 <= ret_num <= n -> ret_num + len o < 2 ^ 31 ->
  (length o < fuel)%nat ->
  wp (vsnprintf_directive fuel n c str_out ret_num args) m (fun r m' =>
    r.2 = args' /\ bounded m str_out ret_num o r.1 m').
Proof.
  intros [b|a b Ha|a b|p s b Hcs Hp Hap|d b Hd] Hin Hlo Hst Hhi Hr Hlen Hf.
  - apply wp_bind. eapply wp_mono; [apply emit_spec; simpl in *; lia|]. intros r m' Hb. by apply wp_ret.
  - apply vsnprintf_int; [done|lia..].
  - apply wp_bind, wp_ret, wp_bind. eapply wp_mono; [apply emit_spec; simpl in *; lia|]. intros r m' Hb. apply wp_ret.
    rewrite u8_signed in Hb. done.
  - pose proof (in_place_cstr _ _ _ _ _ _ _ _ Hin Hcs Hap) as Hcs'. apply wp_bind, wp_ret, wp_bind.
    eapply wp_mono; [apply emit_str_spec; [exact Hcs'|lia..]|]. intros r m' Hb. by apply wp_ret.
  - unfold vsnprintf_directive. rewrite !not_elem_of_cons in Hd. destruct Hd as (? & ? & ? & ? & _).
    destruct (Z.eqb_spec d 37), (Z.eqb_spec d 100), (Z.eqb_spec d 99), (Z.eqb_spec d 115); try done.
    apply wp_ret. split; [done|]. apply bounded_nil. lia.
Qed.

Lemma vsnprintf_loop_spec m0 lo hi l args o :
  renders m0 lo hi l args o ->
  forall k m pStr str_out ret_num,
  in_place m0 m lo hi pStr l -> 0 < lo -> lo <= str_out -> str_out + len o <= hi ->
  0 <= ret_num <= n -> ret_num + len o < 2 ^ 31 -> (length l < k)%nat -> (length o < fuel)%nat ->
  wp (vsnprintf_loop fuel n k pStr str_out ret_num args) m (bounded m str_out ret_num o).
Proof.
  induction 1 as [args|c l args o Hc Hren IH|c l args args' o1 o2 Hdir Hren IH];
    intros k m pStr str_out ret_num Hin Hlo Hst Hhi Hr Hlen Hk Hf;
    (destruct k as [|k]; simpl in Hk; [lia|]); cbn [vsnprintf_loop];
    pose proof (in_place_cstr _ _ _ _ _ _ _ _ Hin (ip_fmt _ _ _ _ _ _ Hin) (ip_apart _ _ _ _ _ _ Hin)) as Hcur;
    pose proof (ip_pos _ _ _ _ _ _ Hin); apply wp_bind, wp_get8; try lia; simpl st_mem.
  - simpl in Hcur. rewrite Hcur. apply wp_ret, bounded_nil. lia.
  - pose proof (cstr_bytes _ _ _ Hcur) as Hby. apply Forall_cons in Hby as [Hby _].
    destruct Hcur as (-> & Hnz & _). destruct (Z.eqb_spec c 0), (Z.eqb_spec c 37); try done.
    simpl in Hhi, Hlen, Hf.
    apply wp_bind. eapply wp_mono; [apply emit_spec; lia|]. intros r1 m1 Hb1. rewrite wrap_small in Hb1 by (simpl; lia).
    eapply (bounded_then m m1 str_out ret_num [c] o r1); [exact Hb1|lia|intros r' m' Hq; exact Hq|].
    intros Hw Hle. simpl in Hle. apply IH; [|simpl; lia..].
    eapply (in_place_next _ _ _ _ _ _ [c]); [exact Hin|exact Hw|lia|simpl; lia].
  - destruct Hcur as (-> & _ & Hc2 & _). simpl. apply wp_bind, wp_get8; [lia|]. simpl. rewrite Hc2.
    rewrite length_app in Hhi, Hlen, Hf. apply wp_bind.
    eapply wp_mono; [eapply vsnprintf_directive_spec; [exact Hdir|exact Hin|lia..]|].
    intros [r1 ap] m1 [Eap Hb1]. simpl in Eap, Hb1. subst ap.
    eapply (bounded_then m m1 str_out ret_num o1 o2 r1); [exact Hb1|lia|intros r' m' Hq; exact Hq|].
    intros Hw Hle. rewrite <- Z.add_assoc. apply IH; [|lia..].
    eapply (in_place_next _ _ _ _ _ _ [37; c]); [exact Hin|exact Hw|lia..].
Qed.

(** C35: [vsnprintf] of a text without NUL characters, of at most [n] characters, writes it and
    a NUL, [n + 1] bytes when it has [n]; of a longer one it writes the first [n] characters
    without a NUL and returns [n]. A format that prints nothing stops the machine: the
    assertion of line 367 is an assignment of the length, which is 0. *)
Theorem vsnprintf_spec m out fmt l args o :
  renders m out (out + len o + 1) l args o -> cstr m fmt l -> 0 < fmt -> 0 < out ->
  fmt + len l + 1 <= out \/ out + len o + 1 <= fmt ->
  len o < 2 ^ 31 -> (length l < fuel)%nat -> (length o < fuel)%nat -> Forall (fun c => c <> 0) o ->
  if decide (o = []) then snprintf fuel n out fmt args m = Fault AssertFail
  else wp (snprintf fuel n out fmt args) m (fun r m' =>
    r = Z.min (len o) n /\
    if len o <=? n then cstr m' out o /\ only_in (inr out (len o + 1)) m m'
    else wrote m m' out (take (Z.to_nat n) o)).
Proof.
  intros Hren Hfmt Hp Ho Hap Hlen Hfl Hfo Hnz. unfold snprintf, vsnprintf. destruct (Z.eqb_spec fmt 0); [lia|].
  assert (wp (vsnprintf_loop fuel n fuel fmt out 0 args) m (bounded m out 0 o)) as Hloop.
  { eapply (vsnprintf_loop_spec m out (out + len o + 1)); [exact Hren| |lia..]. split; [done|done|done|lia]. }
  destruct (decide (o = [])) as [->|Hne].
  - eapply fault_bind; [exact Hloop|]. intros r m1 Hb. unfold bounded in Hb. destruct (Z.leb_spec (0 + len (@nil Z)) n); [|simpl in *; lia].
    destruct Hb as [-> _]. unfold mbind, M_bind, put8. destruct (Z.eqb_spec (out + len (@nil Z)) 0); [simpl in *; lia|].
    unfold modify. simpl. rewrite Z.add_0_r.
    assert (cstr (store8 m1 out 0) out []) as Hc by (simpl; by rewrite load8_store8, Z.eqb_refl).
    pose proof (strlen_spec fuel _ _ _ Hc Ho ltac:(simpl; lia) ltac:(simpl; lia)) as Hl.
    apply wp_done in Hl as (? & ? & -> & -> & ->). done.
  - apply wp_bind. eapply wp_mono; [exact Hloop|].
    intros r m1 Hb. unfold bounded in Hb. rewrite !Z.add_0_l in Hb. destruct (Z.leb_spec (len o) n).
    + destruct Hb as (-> & Hw & Hb). apply wp_bind, wp_put8; [lia|]. simpl.
      destruct (built_string _ _ _ _ Hw Hb Hnz) as [Hc Ho2].
      set (m2 := store8 m1 (out + len o) 0) in *. clearbody m2.
      apply wp_bind. eapply wp_mono; [by apply strlen_spec; [exact Hc|lia..]|]. intros ? ? [-> ->].
      assert (0 < len o) by (destruct o; [done|simpl; lia]). rewrite signed_small by (simpl; lia).
      apply wp_bind, wp_assert; [destruct (Z.eqb_spec (len o) 0); [lia|done]|].
      apply wp_bind, wp_assert; [apply Z.leb_le; rewrite wrap_small; lia|]. apply wp_ret. split; [lia|done].
    + destruct Hb as [-> Hw]. apply wp_ret. split; [lia|]. by rewrite Z.sub_0_r in Hw.
Qed.
End SnprintfSpec.

(** ** Numbers survive printing and reading *)

Lemma dec_char_digit ds : Forall (fun d => 0 <= d < 10) ds -> Forall is_digit (dec_char <$> ds).
Proof. intros H. apply Forall_fmap. eapply Forall_impl; [exact H|]. unfold is_digit, dec_char. simpl. lia. Qed.

Lemma dec_value_horner ds : dec_value (dec_char <$> ds) = horner 10 ds.
Proof.
  unfold dec_value, horner. generalize 0. induction ds as [|d ds IH]; intros x; [done|].
  rewrite fmap_cons. cbn [foldl]. rewrite IH. f_equal. unfold dec_char. lia.
Qed.

Lemma dec_chars_nonneg v :
  0 <= v < 2 ^ 31 -> exists ds, dec_chars v = dec_char <$> ds /\ ds <> [] /\ (length ds <= 64)%nat /\
    Forall (fun d => 0 <= d < 10) ds /\ horner 10 ds = v.
Proof.
  intros Hv. destruct (width_bounds 10 ltac:(lia) v ltac:(lia)) as (Hw & Hlt & _).
  exists (digits (width 10 v) 10 v). unfold dec_chars. destruct (Z.ltb_spec v 0); [lia|]. rewrite Z.abs_eq by lia.
  split; [done|]. pose proof (digits_length 10 (width 10 v) v) as Hl.
  split; [destruct (digits _ _ _); simpl in Hl; [lia|done]|]. split; [lia|].
  split; [apply digits_range; lia|apply digits_horner; lia].
Qed.

Lemma cstr_digits m p ds :
  cstr m p (dec_char <$> ds) -> digits_at m p (dec_char <$> ds).
Proof.
  intros H. pose proof (cstr_app m p (dec_char <$> ds) []) as Ha. rewrite app_nil_r in Ha. apply Ha in H as [Hl H0].
  split; [intros i c Hi; by apply Hl|]. simpl in H0. rewrite H0. unfold is_digit. lia.
Qed.

(** A number that is not negative, printed with %d by [sprintf] and read by [atoi], is
    itself. *)
Theorem sprintf_atoi fuel m out fmt v :
  (64 < fuel)%nat -> cstr m fmt [37; 100] -> 0 < fmt -> 0 < out -> 0 <= v < 2 ^ 31 ->
  fmt + 3 <= out \/ out + 65 <= fmt ->
  wp (_ ← sprintf fuel out fmt [v]; atoi fuel out) m (fun r m' => r = v).
Proof.
  intros Hf Hfmt Hp Ho Hv Hap. destruct (dec_chars_nonneg v Hv) as (ds & E & Hne & Hlen & Hd & Hh).
  pose proof (dec_char_digit _ Hd) as Hdig. assert (len (dec_chars v) = len ds) as El by (by rewrite E, length_fmap).
  assert (renders m out (out + len (dec_chars v) + 1) [37; 100] [v] (dec_chars v ++ [])) as Hren.
  { assert (i32 v = v) as Ev by (apply signed_small; simpl; lia).
    pose proof (d_int m out (out + len (dec_chars v) + 1) v []) as Hd1. rewrite Ev in Hd1.
    eapply renders_directive; [apply Hd1; lia|apply renders_end]. }
  rewrite app_nil_r in Hren.
  assert (Forall (fun c => c <> 0) (dec_chars v)).
  { rewrite E. eapply Forall_impl; [exact Hdig|]. unfold is_digit. lia. }
  assert (dec_chars v <> []) by (rewrite E; by destruct ds).
  apply wp_bind. eapply wp_mono.
  { eapply (vsprintf_text fuel Hf m out fmt [37; 100] [v] (dec_chars v)); try done; simpl length; lia. }
  intros r m' (_ & Hc & _). rewrite E in Hc. unfold atoi. apply wp_bind.
  assert (load8 m' out <> 32) as Hsp.
  { destruct ds as [|d ds]; [done|]. destruct Hc as (-> & _). apply Forall_cons in Hd as [Hd _]. unfold dec_char. lia. }
  eapply wp_mono; [apply (skip_spaces_spec fuel m' out 0); [lia|by rewrite Z.add_0_r|done|lia]|].
  intros ? ? [-> ->]. eapply wp_mono.
  { apply (atoi_loop_spec fuel m' _ 0 (dec_char <$> ds)); [|done|lia|rewrite length_fmap; lia|lia|].
    - rewrite Z.add_0_r. by apply cstr_digits.
    - change (dec_value (dec_char <$> ds) < 2 ^ 31). rewrite dec_value_horner. lia. }
  intros ? ? [_ ->]. change (dec_value (dec_char <$> ds) = v). by rewrite dec_value_horner.
Qed.

(** ** printf

    [prints m l args o r]: the format [l] makes [printf] print [o] and count [r]. A directive
    takes the character behind it along: the fall-through prints that character as it is,
    even a '%'. *)

Inductive printf_dir (m : mem) : Z -> list Z -> list Z -> list Z -> Prop :=
| p_common c args args' o :
    c ∈ [37; 99; 100; 115] -> directive m 0 0 c args args' o -> printf_dir m c args args' o
| p_hex a args : printf_dir m 120 (a :: args) args (hex_chars (u64 a))
| p_bin a args :
    0 <= i32 a -> printf_dir m 98 (a :: args) args (dec_char <$> digits (width 2 (i32 a)) 2 (i32 a)).

Inductive prints (m : mem) : list Z -> list Z -> list Z -> Z -> Prop :=
| prints_end args : prints m [] args [] 0
| prints_tab l args o r : prints m l args o r -> prints m (9 :: l) args (9 :: o) (r + 4)
| prints_char c l args o r : c ∉ [9; 37] -> prints m l args o r -> prints m (c :: l) args (c :: o) (r + 1)
| prints_other c l args o r :
    c ∉ [37; 98; 99; 100; 115; 120] -> prints m l args o r -> prints m (37 :: c :: l) args (c :: o) (r + 1)
| prints_directive c d l args args' o1 o2 r :
    printf_dir m c args args' o1 -> prints m l args' o2 r ->
    prints m (37 :: c :: d :: l) args (o1 ++ d :: o2) (r + len o1 + 1).

Lemma prints_count m l args o r : prints m l args o r -> len o <= r.
Proof. induction 1; rewrite ?length_app; simpl in *; lia. Qed.

Section PrintfSpec.
Context (fuel : nat) (Hfuel : (64 < fuel)%nat).

(** The console grew by [o]. *)
Definition said (s s' : kio) (o : list Z) : Prop := io_mem s' = io_mem s /\ io_out s' = io_out s ++ o.

Lemma said_nil s : said s s [].
Proof. split; [done|by rewrite app_nil_r]. Qed.

Lemma said_app s1 s2 s3 o1 o2 : said s1 s2 o1 -> said s2 s3 o2 -> said s1 s3 (o1 ++ o2).
Proof. intros [E1 H1] [E2 H2]. split; [congruence|]. by rewrite H2, H1, app_assoc. Qed.

Lemma wp_putch c s (Q : unit -> kio -> Prop) :
  Q tt (mk_kio (io_mem s) (io_out s ++ [u8 c])) -> wp (putch c) s Q.
Proof. intros HQ. exact (wp_modify _ s Q HQ). Qed.

Lemma said_putch c b s : u8 c = b -> said s (mk_kio (io_mem s) (io_out s ++ [u8 c])) [b].
Proof. by intros <-. Qed.

Lemma said_char s c : 0 < c < 256 -> said s (mk_kio (io_mem s) (io_out s ++ [u8 c])) [c].
Proof. intros Hc. apply said_putch, wrap_small. simpl; lia. Qed.

Lemma put_int_spec base k n s :
  2 <= base <= 10 -> 0 <= n < base ^ Z.of_nat k -> n < 2 ^ 31 -> (forall j, (j < k)%nat -> base ^ Z.of_nat j < 2 ^ 64) ->
  wp (put_int k base n) s (fun _ s' => said s s' (dec_char <$> digits k base n)).
Proof.
  intros Hb. revert n s. induction k as [|k IH]; intros n s Hn Hn31 Hpow; cbn [put_int digits].
  { apply wp_ret, said_nil. }
  apply wp_bind, digit_step; [lia..|apply Hpow; lia|].
  pose proof (base_pow_pos base ltac:(lia) k) as Hbp. rewrite base_pow_S in Hn by lia.
  assert (0 <= n / base ^ Z.of_nat k < base) as Hd.
  { split; [apply Z.div_pos; lia|apply Z.div_lt_upper_bound; lia]. }
  pose proof (Z.mod_pos_bound n _ Hbp) as Hm. pose proof (Z.mod_le n (base ^ Z.of_nat k) ltac:(lia) Hbp).
  apply wp_bind, wp_putch. rewrite signed_small by (simpl in *; lia).
  eapply wp_mono; [apply IH; [lia|lia|intros; apply Hpow; lia]|]. intros [] s' Hs.
  rewrite fmap_cons. eapply (said_app _ _ _ [_]); [apply said_putch|exact Hs].
  apply dec_digit. lia.
Qed.

Lemma put_hex_spec k n s :
  0 <= n < 16 ^ Z.of_nat k -> (forall j, (j < k)%nat -> 16 ^ Z.of_nat j < 2 ^ 64) ->
  wp (put_hex k n) s (fun _ s' => said s s' (hex_char <$> digits k 16 n)).
Proof.
  revert n s. induction k as [|k IH]; intros n s Hn Hpow; cbn [put_hex digits].
  { apply wp_ret, said_nil. }
  pose proof (base_pow_pos 16 ltac:(lia) k) as Hbp. rewrite base_pow_S in Hn by lia.
  apply wp_bind. rewrite m_pow_n_spec by (lia || apply Hpow; lia).
  eapply wp_mono; [apply udiv_spec; lia|]. intros ? ? [-> ->].
  assert (0 <= n / 16 ^ Z.of_nat k < 16) as Hd.
  { split; [apply Z.div_pos; lia|apply Z.div_lt_upper_bound; lia]. }
  pose proof (Z.mod_pos_bound n _ Hbp) as Hm. apply wp_bind. set (d := n / 16 ^ Z.of_nat k) in *.
  assert (wp (if d <=? 9 then putch (signed 8 d + 48) else putch (signed 8 d - 10 + 65)) s
    (fun _ s' => said s s' [hex_char d])) as Hput.
  { unfold hex_char. rewrite signed_small by (simpl; lia).
    destruct (Z.leb_spec d 9); apply wp_putch, said_putch; rewrite wrap_small; lia. }
  eapply wp_mono; [exact Hput|]. intros [] s1 Hs1.
  eapply wp_mono; [apply IH; [lia|intros; apply Hpow; lia]|]. intros [] s' Hs.
  rewrite fmap_cons. by eapply (said_app _ _ _ [_]).
Qed.

Lemma put_str_spec k p l s :
  cstr (io_mem s) p l -> 0 < p -> (length l < k)%nat -> wp (put_str k p) s (fun _ s' => said s s' l).
Proof.
  revert k p s. induction l as [|c l IH]; intros k p s Hl Hp Hk; (destruct k as [|k]; simpl in Hk; [lia|]);
    cbn [put_str]; apply wp_bind, wp_get8; try lia; simpl st_mem.
  - simpl in Hl. rewrite Hl. apply wp_ret, said_nil.
  - pose proof (cstr_bytes _ _ _ Hl) as Hb. apply Forall_cons in Hb as [Hb _].
    destruct Hl as (-> & Hn & Hl). destruct (Z.eqb_spec c 0); [done|]. apply wp_bind, wp_putch.
    eapply wp_mono; [apply IH; [exact Hl|lia|lia]|]. intros [] s' Hs.
    eapply (said_app _ _ _ [c]); [apply said_putch, wrap_small; simpl; lia|exact Hs].
Qed.

(** [strlen] on a state with a console. *)
Lemma strlen_io_loop k p i l s :
  cstr (io_mem s) p l -> 0 < p -> (length l < k)%nat -> 0 <= i -> i + len l < 2 ^ 64 ->
  wp (strlen_loop k p i) s (fun r s' => r = i + len l /\ s' = s).
Proof.
  revert k p i. induction l as [|c l IH]; intros k p i Hl Hp Hk Hi Hb; (destruct k as [|k]; simpl in Hk; [lia|]);
    simpl in *; apply wp_bind, wp_get8; try lia; simpl st_mem.
  - rewrite Hl. apply wp_ret. split; [lia|done].
  - destruct Hl as (-> & Hn & Hl). destruct (Z.eqb_spec c 0); [done|]. rewrite wrap_small by lia.
    eapply wp_mono; [apply IH; [done|lia..]|]. intros r m' [-> ->]. split; [lia|done].
Qed.

Lemma printf_int pStr ret_num a args s :
  - 2 ^ 31 < i32 a -> 0 <= ret_num -> ret_num + len (dec_chars (i32 a)) < 2 ^ 31 ->
  wp (printf_directive fuel 100 pStr ret_num (a :: args)) s (fun r s' =>
    r = (pStr + 1, ret_num + len (dec_chars (i32 a)), args) /\ said s s' (dec_chars (i32 a))).
Proof.
  intros Ha Hr Hlen. pose proof (signed_range 32 a ltac:(lia)) as Hra.
  destruct (dec_chars_cases (i32 a)) as (k & Hk & Ek & Ed & Hlt & Hpow); [simpl in *; lia|].
  unfold printf_directive. simpl. apply wp_bind, wp_ret.
  rewrite Ed in *. set (n := i32 a) in *. clearbody n. rewrite length_app, length_fmap, digits_length in *. simpl in Hra.
  assert (forall s1 r', 0 <= r' -> r' + Z.of_nat k < 2 ^ 31 ->
    wp (cnt ← count fuel (u64 (Z.abs n)) 10; _ ← put_int (Z.to_nat cnt) 10 (Z.abs n);
        mret (pStr + 1, i32 (r' + cnt), args)) s1
      (fun r s' => r = (pStr + 1, r' + Z.of_nat k, args) /\ said s1 s' (dec_char <$> digits k 10 (Z.abs n)))) as Hdig.
  { intros s1 r' Hr' Hl'. rewrite (wrap_small 64) by lia.
    apply wp_bind. eapply wp_mono; [apply count_spec; [done|lia|lia]|]. intros c s2 [-> ->].
    rewrite <- Ek, Nat2Z.id. apply wp_bind.
    eapply wp_mono; [apply put_int_spec; [lia|lia|lia|done]|]. intros [] s' Hs. apply wp_ret. by rewrite i32_add by lia. }
  destruct (Z.ltb_spec n 0).
  - rewrite (Z.abs_neq n) in * by lia. simpl in Hlen. apply wp_bind, wp_bind, wp_putch, wp_ret.
    rewrite !(signed_small 32) by (simpl; lia). eapply wp_mono; [apply Hdig; lia|].
    intros r s' [-> Hs]. split; [simpl; do 2 f_equal; lia|]. eapply (said_app _ _ _ [45]); [apply (said_char s 45); lia|exact Hs].
  - rewrite (Z.abs_eq n) in * by lia. apply wp_bind, wp_ret. eapply wp_mono; [apply Hdig; simpl in *; lia|].
    intros r s' [-> Hs]. done.
Qed.

Lemma printf_directive_spec c pStr ret_num args args' o s :
  printf_dir (io_mem s) c args args' o -> 0 <= ret_num -> ret_num + len o < 2 ^ 31 -> (length o < fuel)%nat ->
  wp (printf_directive fuel c pStr ret_num args) s (fun r s' =>
    r = (pStr + 1, ret_num + len o, args') /\ said s s' o).
Proof.
  intros Hd Hr Hlen Hf. destruct Hd as [c args args' o Hc Hd|a args|a args Ha].
  - destruct Hd as [b|a b Ha|a b|p t b Hcs Hp _|d b Hd]; [..|by destruct (Hd Hc)].
    + apply wp_bind, wp_putch, wp_ret. simpl in *. rewrite i32_add by lia. split; [done|by apply said_putch].
    + by apply printf_int.
    + apply wp_bind, wp_ret, wp_bind, wp_putch, wp_ret. simpl in *. rewrite i32_add by lia.
      split; [done|apply said_putch, u8_signed].
    + apply wp_bind, wp_ret, wp_bind. unfold strlen. destruct (Z.eqb_spec p 0); [lia|].
      eapply wp_mono; [apply strlen_io_loop; [exact Hcs|lia..]|]. intros ? ? [-> ->]. apply wp_bind.
      eapply wp_mono; [apply put_str_spec; [exact Hcs|lia|lia]|]. intros [] s' Hs. apply wp_ret.
      rewrite Z.add_0_l, wrap_small, i32_add by lia. done.
  - unfold hex_chars in *. rewrite length_fmap, digits_length in *. pose proof (wrap_range 64 a ltac:(lia)) as Hu.
    destruct (width_bounds 16 ltac:(lia) (u64 a) Hu) as (Hw & Hlt & _).
    apply wp_bind, wp_ret, wp_bind. eapply wp_mono; [apply count_spec; [done|lia|done]|]. intros ? ? [-> ->].
    rewrite Nat2Z.id. apply wp_bind. eapply wp_mono.
    { apply put_hex_spec; [lia|]. intros j Hj. by apply (pow_below 16 ltac:(lia) (u64 a)). }
    intros [] s' Hs. apply wp_ret. by rewrite i32_add by lia.
  - rewrite length_fmap, digits_length in *. pose proof (signed_range 32 a ltac:(lia)) as Hra. simpl in Hra.
    destruct (width_bounds 2 ltac:(lia) (i32 a) ltac:(lia)) as (Hw & Hlt & _).
    apply wp_bind, wp_ret, wp_bind. rewrite (wrap_small 64) by lia.
    eapply wp_mono; [apply count_spec; [done|lia|lia]|]. intros ? ? [-> ->].
    rewrite Nat2Z.id. apply wp_bind. eapply wp_mono.
    { apply put_int_spec; [lia|lia|lia|]. intros j Hj. apply (pow_below 2 ltac:(lia) (i32 a)); [lia|done]. }
    intros [] s' Hs. apply wp_ret. by rewrite i32_add by lia.
Qed.

(** A plain character, then the rest. *)
Lemma printf_char_step k pStr ret_num n args s c o r (m := io_mem s) :
  0 < c < 256 -> 0 <= ret_num -> 0 <= n -> ret_num + n + r < 2 ^ 31 -> 0 <= r ->
  (forall s1, io_mem s1 = m ->
    wp (printf_loop fuel k (pStr + 1) (ret_num + n) args) s1 (fun v s' => v = ret_num + n + r /\ said s1 s' o)) ->
  wp (_ ← putch c; printf_loop fuel k (pStr + 1) (i32 (ret_num + n)) args) s
    (fun v s' => v = ret_num + (r + n) /\ said s s' (c :: o)).
Proof.
  intros Hc Hr Hn Hlen Hr0 Hrest. apply wp_bind, wp_putch. rewrite i32_add by lia.
  eapply wp_mono; [by apply Hrest|]. intros v s' [-> Hs]. split; [lia|].
  eapply (said_app _ _ _ [c]); [by apply said_char|exact Hs].
Qed.

Lemma printf_loop_spec m l args o r :
  prints m l args o r ->
  forall k pStr ret_num s, io_mem s = m -> cstr m pStr l -> 0 < pStr ->
  0 <= ret_num -> ret_num + r < 2 ^ 31 -> (length l < k)%nat -> (length o < fuel)%nat ->
  wp (printf_loop fuel k pStr ret_num args) s (fun v s' => v = ret_num + r /\ said s s' o).
Proof.
  induction 1 as [args|l args o r Hpr IH|c l args o r Hc Hpr IH|c l args o r Hc Hpr IH|c d l args args' o1 o2 r Hd Hpr IH];
    intros k pStr ret_num s Hm Hl Hp Hr Hlen Hk Hf; (destruct k as [|k]; simpl in Hk; [lia|]); cbn [printf_loop];
    pose proof (cstr_bytes _ _ _ Hl) as Hby; apply wp_bind, wp_get8; try lia; simpl st_mem; rewrite Hm;
    try (pose proof (prints_count _ _ _ _ _ Hpr)).
  - simpl in Hl. rewrite Hl. apply wp_ret. split; [lia|apply said_nil].
  - destruct Hl as (-> & _ & Hl). simpl in Hf. simpl.
    apply printf_char_step; [lia..|]. intros s1 Hm1. rewrite Hm in Hm1. apply IH; [done|done|lia..].
  - apply Forall_cons in Hby as [Hby _]. destruct Hl as (-> & Hn & Hl). simpl in Hf.
    rewrite !not_elem_of_cons in Hc. destruct Hc as (? & ? & _).
    assert (wp (_ ← putch c; printf_loop fuel k (pStr + 1) (i32 (ret_num + 1)) args) s
      (fun v s' => v = ret_num + (r + 1) /\ said s s' (c :: o))) as Hplain.
    { apply printf_char_step; [lia..|]. intros s1 Hm1. rewrite Hm in Hm1. apply IH; [done|done|lia..]. }
    destruct (Z.eqb_spec c 0), (Z.eqb_spec c 9), (Z.eqb_spec c 13), (Z.eqb_spec c 10), (Z.eqb_spec c 37); done.
  - rewrite !Forall_cons in Hby. destruct Hby as (_ & Hby & _). destruct Hl as (-> & _ & Hc2 & _ & Hl). simpl.
    apply wp_bind, wp_get8; [lia|]. simpl. rewrite Hm, Hc2. simpl in Hf.
    rewrite !not_elem_of_cons in Hc. destruct Hc as (? & ? & ? & ? & ? & ? & _). apply wp_bind.
    assert (printf_directive fuel c (pStr + 1) ret_num args = mret (pStr + 1, ret_num, args)) as ->.
    { unfold printf_directive. destruct (Z.eqb_spec c 37), (Z.eqb_spec c 99), (Z.eqb_spec c 120), (Z.eqb_spec c 98),
        (Z.eqb_spec c 100), (Z.eqb_spec c 115); done. }
    apply wp_ret, wp_bind, wp_get8; [lia|]. simpl. rewrite Hm, Hc2.
    apply printf_char_step; [lia..|]. intros s1 Hm1. rewrite Hm in Hm1. apply IH; [done|done|lia..].
  - rewrite !Forall_cons in Hby. destruct Hby as (_ & _ & Hby & _). destruct Hl as (-> & _ & Hc2 & _ & Hd2 & Hdn & Hl). simpl.
    apply wp_bind, wp_get8; [lia|]. simpl. rewrite Hm, Hc2. rewrite length_app in Hf. simpl in Hf.
    apply wp_bind. eapply wp_mono; [apply printf_directive_spec; [by rewrite Hm|lia..]|].
    intros ? s1 (-> & Hs1). simpl. destruct Hs1 as [Em Eo]. apply wp_bind, wp_get8; [lia|]. simpl. rewrite Em, Hm, Hd2.
    eapply wp_mono; [apply (printf_char_step _ _ _ 1 _ s1 d o2 r); [lia..|]|].
    + intros s2 Hm2. rewrite Em, Hm in Hm2. apply IH; [done|done|lia..].
    + intros v s' [-> Hs']. split; [lia|]. by eapply said_app.
Qed.

(** [printf] prints what [prints] says and returns its count: numbers in decimal,
    hexadecimal and binary, strings and characters, a tab counted as 4 characters, and the
    character behind each directive taken as it is; memory is left alone. *)
Theorem printf_spec s fmt l args o r :
  prints (io_mem s) l args o r -> cstr (io_mem s) fmt l -> 0 < fmt -> r < 2 ^ 31 ->
  (length l < fuel)%nat -> (length o < fuel)%nat ->
  wp (printf fuel fmt args) s (fun v s' => v = r /\ io_mem s' = io_mem s /\ io_out s' = io_out s ++ o).
Proof.
  intros Hpr Hl Hp Hr Hf1 Hf2. unfold printf. destruct (Z.eqb_spec fmt 0); [lia|].
  eapply wp_mono; [eapply printf_loop_spec; [exact Hpr|done|exact Hl|lia..]|].
  intros v s' [-> [Hm Ho]]. by rewrite Z.add_0_l.
Qed.
End PrintfSpec.

(** ** Concrete formats *)

(** [m] with the bytes of [l] and a NUL at [p]. *)
Definition place (p : Z) (l : list Z) (m : mem) : mem := fun a =>
  if a <? p then m a else default (m a) ((l ++ [0]) !! Z.to_nat (a - p)).

Abbreviation no_mem := (fun _ => 0) (only parsing).

(** What [printf] prints and returns on a console with nothing on it. *)
Definition printf_result (m : mem) (fmt : Z) (args : list Z) : option (list Z * Z) :=
  match printf 80 fmt args (mk_kio m []) with Done r s => Some (io_out s, r) | Fault _ => None end.

(** The fall-through of [printf]: "%d%d" with the arguments 1 and 2 prints "1%d"; and
    when a directive ends the format, [printf] prints its NUL and reads on behind it, here
    "%c" followed in memory by "KEY". *)
Theorem printf_fall_through :
  printf_result (place 100 [37; 100; 37; 100] no_mem) 100 [1; 2] = Some ([49; 37; 100], 3) /\
  printf_result (place 100 [37; 99] (place 103 [75; 69; 89] no_mem)) 100 [65] = Some ([65; 0; 75; 69; 89], 5).
Proof. split; vm_compute; reflexivity. Qed.

(** [%b] of a negative [int] does not print its 32 bits: for -1 it prints 64 characters,
    the first 33 of them the codes 2 ^ j - 1 as far as a [char] holds them, after '0'. *)
Theorem printf_binary_negative :
  printf_result (place 100 [37; 98; 10] no_mem) 100 [-1] =
  Some ([49; 51; 55; 63; 79; 111; 175] ++ replicate 26 47 ++ replicate 31 49 ++ [10], 65).
Proof. vm_compute. reflexivity. Qed.

Section Witnesses.

(** "%d-%s%c" at 100, "ab" at 200; room at 300. *)
Definition demo_text : mem := place 100 [37; 100; 45; 37; 115; 37; 99] (place 200 [97; 98] no_mem).

Lemma demo_renders hi : 300 <= hi ->
  renders demo_text 300 hi [37; 100; 45; 37; 115; 37; 99] [-42; 200; 33] [45; 52; 50; 45; 97; 98; 33].
Proof.
  intros Hhi.
  apply (renders_directive _ _ _ 100 _ _ _ [45; 52; 50] [45; 97; 98; 33] (d_int demo_text 300 hi (-42) [200; 33] eq_refl)).
  apply renders_char; [done|].
  apply (renders_directive _ _ _ 115 _ _ [33] [97; 98] [33]).
  { apply d_str; [by vm_compute|lia|simpl; lia]. }
  apply (renders_directive _ _ _ 99 _ _ [] [33] [] (d_chr demo_text 300 hi 33 [])). apply renders_end.
Qed.

Lemma demo_fmt : cstr demo_text 100 [37; 100; 45; 37; 115; 37; 99].
Proof. by vm_compute. Qed.

Lemma sprintf_spec_witness :
  wp (sprintf 100 300 100 [-42; 200; 33]) demo_text (fun r m' =>
    if 100 =? 0 then r = -1 /\ m' = demo_text
    else r = 7 /\ cstr m' 300 [45; 52; 50; 45; 97; 98; 33] /\ only_in (inr 300 8) demo_text m').
Proof.
  apply (sprintf_spec 100 ltac:(lia) demo_text 300 100 [37; 100; 45; 37; 115; 37; 99] [-42; 200; 33] [45; 52; 50; 45; 97; 98; 33]
    (demo_renders 308 ltac:(lia)) demo_fmt); try (simpl; lia); [|done].
  repeat constructor; lia.
Defined.

Lemma vsprintf_empty_asserts_witness :
  sprintf 100 300 103 [] (place 103 [] no_mem) = Fault AssertFail.
Proof.
  apply (vsprintf_empty_asserts 100 ltac:(lia) (place 103 [] no_mem) 300 103 [] []); try (simpl; lia); [|by vm_compute].
  apply renders_end.
Defined.

Lemma vsnprintf_spec_witness :
  wp (snprintf 100 4 300 100 [-42; 200; 33]) demo_text (fun r m' =>
    r = 4 /\ if 7 <=? 4 then cstr m' 300 [45; 52; 50; 45; 97; 98; 33] /\ only_in (inr 300 8) demo_text m'
      else wrote demo_text m' 300 [45; 52; 50; 45]) /\
  snprintf 100 4 300 103 [] (place 103 [] no_mem) = Fault AssertFail.
Proof.
  split.
  - apply (vsnprintf_spec 4 ltac:(lia) 100 ltac:(lia) demo_text 300 100 [37; 100; 45; 37; 115; 37; 99] [-42; 200; 33]
      [45; 52; 50; 45; 97; 98; 33] (demo_renders 308 ltac:(lia)) demo_fmt); try (simpl; lia).
    repeat constructor; lia.
  - apply (vsnprintf_spec 4 ltac:(lia) 100 ltac:(lia) (place 103 [] no_mem) 300 103 [] [] []); try (simpl; lia); [|by vm_compute|done].
    apply renders_end.
Defined.

Lemma sprintf_atoi_witness :
  wp (_ ← sprintf 100 300 100 [31415]; atoi 100 300) (place 100 [37; 100] no_mem) (fun r m' => r = 31415).
Proof. apply (sprintf_atoi 100 (place 100 [37; 100] no_mem) 300 100 31415); try lia. by vm_compute. Defined.

Lemma printf_spec_witness :
  wp (printf 100 100 [0xBEEF]) (mk_kio (place 100 [9; 37; 120; 10] no_mem) []) (fun v s' =>
    v = 9 /\ io_mem s' = place 100 [9; 37; 120; 10] no_mem /\ io_out s' = [9; 66; 69; 69; 70; 10]).
Proof.
  apply (printf_spec 100 ltac:(lia) (mk_kio (place 100 [9; 37; 120; 10] no_mem) []) 100 [9; 37; 120; 10] [0xBEEF]
    [9; 66; 69; 69; 70; 10] 9); try (simpl; lia); [|by vm_compute].
  apply (prints_tab _ _ _ _ 5).
  apply (prints_directive _ 120 10 [] [0xBEEF] [] [66; 69; 69; 70] [] 0); [apply (p_hex _ 0xBEEF [])|apply prints_end].
Defined.
End Witnesses.
