(* ===== verification/Int64.v ===== *)
(** * 64-bit arithmetic for 32-bit targets: klib/src/int64.c

    Division by shifting and subtracting on pairs of 32-bit words, and the counts of leading
    and trailing zero bits. [__udivmoddi4] uses two builtins of the compiler; [Builtins]
    states what they promise, and the file's own [__clzsi2] and [__ctzsi2] are an instance. *)

From stdpp Require Import prelude.
From S2P Require Import Prelude.

(** [__builtin_clz] and [__builtin_ctz] on the unsigned integers for which they are defined. *)
Class Builtins : Type := {
  builtin_clz : Z -> Z;
  builtin_ctz : Z -> Z;
  builtin_clz_spec : forall x, 0 < x < 2 ^ 32 -> builtin_clz x = 31 - Z.log2 x;
  builtin_ctz_spec : forall x, 0 < x < 2 ^ 32 ->
    0 <= builtin_ctz x /\ exists k, x = 2 ^ builtin_ctz x * (2 * k + 1);
}.

(** ** The code *)

(** [udwords]: a 64-bit integer and its two words. *)
Definition s_low (all : Z) : Z := u32 all.
Definition s_high (all : Z) : Z := u32 (Z.shiftr all 32).
Definition s_all (high low : Z) : Z := Z.lor (Z.shiftl high 32) low.

Definition udiv32 (a b : Z) : option (Z * Z) :=
  if b =? 0 then None else Some (a / b, a mod b).

(** Lines 612-629: [k] rounds of the loop; the remainder, the quotient and the carry. *)
Fixpoint udiv_loop (k : nat) (d q r carry : Z) : Z * Z * Z :=
  match k with
  | O => (q, r, carry)
  | S k =>
      let rh := u32 (Z.lor (Z.shiftl (s_high r) 1) (Z.shiftr (s_low r) 31)) in
      let rl := u32 (Z.lor (Z.shiftl (s_low r) 1) (Z.shiftr (s_high q) 31)) in
      let qh := u32 (Z.lor (Z.shiftl (s_high q) 1) (Z.shiftr (s_low q) 31)) in
      let ql := u32 (Z.lor (Z.shiftl (s_low q) 1) carry) in
      let r := s_all rh rl in
      let s := Z.shiftr (i64 (u64 (d - r - 1))) 63 in
      udiv_loop k d (s_all qh ql) (u64 (r - Z.land d (u64 s))) (u32 (Z.land s 1))
  end.

(** Lines 611-633. *)
Definition udiv_finish (sr d q r : Z) : Z * Z :=
  let '(q, r, carry) := udiv_loop (Z.to_nat sr) d q r 0 in
  (Z.lor (u64 (Z.shiftl q 1)) carry, r).

(** Lines 557-563 and 598-602: [n] cut after [sr] bits, [1 <= sr <= 31]. *)
Definition cut_low (sr nh nl : Z) : Z * Z :=
  (s_all (u32 (Z.shiftl nl (32 - sr))) 0,
   s_all (Z.shiftr nh sr) (Z.lor (u32 (Z.shiftl nh (32 - sr))) (Z.shiftr nl sr))).

Section Code.
Context `{Builtins}.

(** Lines 460-521: the low word of the divisor is 0, the high word of the dividend is not. *)
Definition udiv_low0 (n d : Z) : option (Z * Z) :=
  let nh := s_high n in let nl := s_low n in
  let dh := s_high d in let dl := s_low d in
  if dh =? 0 then udiv32 nh dl
  else if nl =? 0 then Some (nh / dh, s_all (nh mod dh) 0)
  else if Z.land dh (u32 (dh - 1)) =? 0 then
    Some (Z.shiftr nh (builtin_ctz dh), s_all (Z.land nh (u32 (dh - 1))) nl)
  else
    let sr := u32 (builtin_clz dh - builtin_clz nh) in
    if 32 - 2 <? sr then Some (0, n)
    else
      let sr := u32 (sr + 1) in
      let '(q, r) := cut_low sr nh nl in
      Some (udiv_finish sr d q r).

(** Lines 524-572: a divisor of one word, not 0. *)
Definition udiv_high0 (n d : Z) : option (Z * Z) :=
  let nh := s_high n in let nl := s_low n in
  let dl := s_low d in
  if Z.land dl (u32 (dl - 1)) =? 0 then
    let rem := Z.land nl (u32 (dl - 1)) in
    if dl =? 1 then Some (n, rem)
    else
      let sr := builtin_ctz dl in
      Some (s_all (Z.shiftr nh sr) (Z.lor (u32 (Z.shiftl nh (32 - sr))) (Z.shiftr nl sr)), rem)
  else
    let sr := u32 (1 + 32 + builtin_clz dl - builtin_clz nh) in
    let '(q, r) :=
      if sr =? 32 then (s_all nl 0, s_all 0 nh)
      else if sr <? 32 then cut_low sr nh nl
      else
        (s_all (u32 (Z.lor (u32 (Z.shiftl nh (64 - sr))) (Z.shiftr nl (sr - 32))))
               (u32 (Z.shiftl nl (64 - sr))),
         s_all 0 (Z.shiftr nh (sr - 32))) in
    Some (udiv_finish sr d q r).

(** Lines 573-603: no word of the divisor is 0. *)
Definition udiv_full (n d : Z) : option (Z * Z) :=
  let nh := s_high n in let nl := s_low n in
  let dh := s_high d in
  let sr := u32 (builtin_clz dh - builtin_clz nh) in
  if 32 - 1 <? sr then Some (0, n)
  else
    let sr := u32 (sr + 1) in
    let '(q, r) := if sr =? 32 then (s_all nl 0, s_all 0 nh) else cut_low sr nh nl in
    Some (udiv_finish sr d q r).

(** The quotient returned and the remainder stored in [*rem] (when [rem] is not NULL);
    [None] is the trap of a division by 0. *)
Definition __udivmoddi4 (a b : Z) : option (Z * Z) :=
  if s_high a =? 0 then
    if s_high b =? 0 then udiv32 (s_low a) (s_low b)
    else Some (0, s_low a)
  else if s_low b =? 0 then udiv_low0 a b
  else if s_high b =? 0 then udiv_high0 a b
  else udiv_full a b.

(** [(x ^ s) - s], [s] being 0 or -1. *)
Definition negate_if (s x : Z) : Z := i64 (Z.lxor x s - s).

Definition __divdi3 (a b : Z) : option Z :=
  let s_a := Z.shiftr a 63 in
  let s_b := Z.shiftr b 63 in
  let a := negate_if s_a a in
  let b := negate_if s_b b in
  let s_a := Z.lxor s_a s_b in
  '(q, _) ← __udivmoddi4 (u64 a) (u64 b);
  Some (i64 (u64 (Z.lxor q (u64 s_a) - s_a))).

Definition __divmoddi4 (a b : Z) : option (Z * Z) :=
  d ← __divdi3 a b;
  Some (d, i64 (a - i64 (d * b))).

Definition __moddi3 (a b : Z) : option Z :=
  let s := Z.shiftr b 63 in
  let b := negate_if s b in
  let s := Z.shiftr a 63 in
  let a := negate_if s a in
  '(_, r) ← __udivmoddi4 (u64 a) (u64 b);
  Some (negate_if s (i64 r)).

Definition __udivdi3 (a b : Z) : option Z := '(q, _) ← __udivmoddi4 a b; Some q.

Definition __umoddi3 (a b : Z) : option Z := '(_, r) ← __udivmoddi4 a b; Some r.
End Code.

(** [((x & mask) == 0) << k] *)
Definition small_step (x mask k : Z) : Z := Z.shiftl (Z.b2z (Z.land x mask =? 0)) k.

Definition __clzsi2 (a : Z) : Z :=
  let x := u32 a in
  let t := small_step x 0xFFFF0000 4 in
  let x := Z.shiftr x (16 - t) in
  let r := t in
  let t := small_step x 0xFF00 3 in
  let x := Z.shiftr x (8 - t) in
  let r := u32 (r + t) in
  let t := small_step x 0xF0 2 in
  let x := Z.shiftr x (4 - t) in
  let r := u32 (r + t) in
  let t := small_step x 0xC 1 in
  let x := Z.shiftr x (2 - t) in
  let r := u32 (r + t) in
  i32 (u32 (r + Z.land (u32 (2 - x)) (u32 (- Z.b2z (Z.land x 2 =? 0))))).

Definition __ctzsi2 (a : Z) : Z :=
  let x := u32 a in
  let t := small_step x 0x0000FFFF 4 in
  let x := Z.shiftr x t in
  let r := t in
  let t := small_step x 0x00FF 3 in
  let x := Z.shiftr x t in
  let r := u32 (r + t) in
  let t := small_step x 0x0F 2 in
  let x := Z.shiftr x t in
  let r := u32 (r + t) in
  let t := small_step x 0x3 1 in
  let x := Z.shiftr x t in
  let x := Z.land x 3 in
  let r := u32 (r + t) in
  i32 (u32 (r + Z.land (u32 (2 - Z.shiftr x 1)) (u32 (- Z.b2z (Z.land x 1 =? 0))))).

Definition __ctzdi2 (a : Z) : Z :=
  let low := u32 a in let high := i32 (Z.shiftr a 32) in
  let f := - Z.b2z (low =? 0) in
  i32 (__ctzsi2 (i32 (Z.lor (Z.land high f) (Z.land low (u32 (Z.lnot f))))) + Z.land f 32).

Definition __clzdi2 (a : Z) : Z :=
  let low := u32 a in let high := i32 (Z.shiftr a 32) in
  let f := - Z.b2z (high =? 0) in
  i32 (__clzsi2 (i32 (Z.lor (Z.land high (Z.lnot f)) (Z.land low (u32 f)))) + Z.land f 32).

(** ** Words *)

Lemma s_all_add h l : 0 <= l < 2 ^ 32 -> s_all h l = h * 2 ^ 32 + l.
Proof. intros. by apply lor_add. Qed.

Lemma s_low_range x : 0 <= s_low x < 2 ^ 32.
Proof. by apply wrap_range. Qed.

Lemma s_high_range x : 0 <= s_high x < 2 ^ 32.
Proof. by apply wrap_range. Qed.

Lemma s_high_div x : 0 <= x < 2 ^ 64 -> s_high x = x / 2 ^ 32.
Proof.
  intros Hx. unfold s_high. rewrite Z.shiftr_div_pow2 by lia. apply wrap_small.
  split; [apply Z.div_pos; lia|apply Z.div_lt_upper_bound; lia].
Qed.

Lemma s_split x : 0 <= x < 2 ^ 64 -> x = s_high x * 2 ^ 32 + s_low x.
Proof. intros Hx. rewrite s_high_div by done. unfold s_low, wrap. pose proof (Z.div_mod x (2 ^ 32)). lia. Qed.

Lemma s_low_all h l : 0 <= l < 2 ^ 32 -> s_low (s_all h l) = l.
Proof.
  intros Hl. rewrite s_all_add by done. unfold s_low, wrap. rewrite Z.add_comm, Z_mod_plus_full.
  by apply Z.mod_small.
Qed.

Lemma s_high_all h l : 0 <= l < 2 ^ 32 -> 0 <= h < 2 ^ 32 -> s_high (s_all h l) = h.
Proof.
  intros Hl Hh. rewrite s_all_add by done. rewrite s_high_div by lia.
  rewrite Z.add_comm, Z.div_add, Z.div_small by lia. lia.
Qed.

(** One bit shifted into a word. *)
Lemma shift_word x b : 0 <= x < 2 ^ 32 -> 0 <= b < 2 -> u32 (Z.lor (Z.shiftl x 1) b) = (2 * x + b) mod 2 ^ 32.
Proof. intros Hx Hb. rewrite lor_add by lia. unfold wrap. f_equal. lia. Qed.

Lemma top_bit x : 0 <= x < 2 ^ 32 -> Z.shiftr x 31 = (2 * x) / 2 ^ 32 /\ 0 <= Z.shiftr x 31 < 2.
Proof.
  intros Hx. rewrite Z.shiftr_div_pow2 by lia. split.
  - change (2 ^ 32) with (2 * 2 ^ 31). by rewrite Z.div_mul_cancel_l by lia.
  - split; [apply Z.div_pos; lia|apply Z.div_lt_upper_bound; lia].
Qed.

(** Lines 615-618 are shifts of 64-bit integers. *)
Lemma shift_dword x b :
  0 <= x < 2 ^ 64 -> 0 <= b < 2 ->
  s_all (u32 (Z.lor (Z.shiftl (s_high x) 1) (Z.shiftr (s_low x) 31))) (u32 (Z.lor (Z.shiftl (s_low x) 1) b)) =
  (2 * x + b) mod 2 ^ 64.
Proof.
  intros Hx Hb. pose proof (s_low_range x) as Hl. pose proof (s_high_range x) as Hh.
  destruct (top_bit (s_low x) Hl) as [Et Ht]. rewrite s_all_add by (apply (wrap_range 32); lia).
  rewrite !shift_word by done. pose proof (s_split x Hx) as E.
  set (h := s_high x) in *. set (l := s_low x) in *. clearbody h l. rewrite Et. change (2 ^ 64) with (2 ^ 32 * 2 ^ 32). rewrite Z.rem_mul_r by lia.
  replace (2 * x + b) with (2 * l + b + (2 * h) * 2 ^ 32) by lia.
  rewrite Z_mod_plus_full, Z.div_add by lia.
  replace ((2 * l + b) / 2 ^ 32) with ((2 * l) / 2 ^ 32).
  2:{ zdm. }
  replace (2 * l / 2 ^ 32 + 2 * h) with (2 * h + 2 * l / 2 ^ 32) by lia. lia.
Qed.

Lemma s_high_top x : 0 <= x < 2 ^ 64 -> Z.shiftr (s_high x) 31 = (2 * x) / 2 ^ 64.
Proof.
  intros Hx. rewrite s_high_div, Z.shiftr_div_pow2, Z.div_div by lia.
  change (2 ^ 64) with (2 * 2 ^ 63). by rewrite Z.div_mul_cancel_l by lia.
Qed.

(** [n] cut after [sr] bits: the low bits at the top of the quotient, the rest the remainder. *)
Definition is_cut (n sr q r : Z) : Prop := q = (n mod 2 ^ sr) * 2 ^ (64 - sr) /\ r = n / 2 ^ sr.

Lemma shift_out x k : 0 <= x < 2 ^ 32 -> 0 <= k <= 32 -> u32 (Z.shiftl x k) = (x mod 2 ^ (32 - k)) * 2 ^ k.
Proof.
  intros Hx Hk. rewrite Z.shiftl_mul_pow2 by lia. unfold wrap.
  replace (2 ^ 32) with (2 ^ (32 - k) * 2 ^ k) by (rewrite <- Z.pow_add_r by lia; f_equal; lia).
  apply Z.mul_mod_distr_r; apply Z.pow_nonzero; lia.
Qed.

Lemma join_parts h l k :
  0 <= h < 2 ^ 32 -> 0 <= l < 2 ^ 32 -> 0 <= k <= 32 ->
  Z.lor (u32 (Z.shiftl h (32 - k))) (Z.shiftr l k) = (h mod 2 ^ k) * 2 ^ (32 - k) + l / 2 ^ k /\
  0 <= (h mod 2 ^ k) * 2 ^ (32 - k) + l / 2 ^ k < 2 ^ 32.
Proof.
  intros Hh Hl Hk. rewrite shift_out by lia. replace (32 - (32 - k)) with k by lia.
  assert (0 < 2 ^ k) by (apply Z.pow_pos_nonneg; lia). assert (0 < 2 ^ (32 - k)) by (apply Z.pow_pos_nonneg; lia).
  assert (2 ^ 32 = 2 ^ k * 2 ^ (32 - k)) as E by (rewrite <- Z.pow_add_r by lia; f_equal; lia).
  assert (0 <= l / 2 ^ k < 2 ^ (32 - k)).
  { split; [apply Z.div_pos; lia|apply Z.div_lt_upper_bound; lia]. }
  pose proof (Z.mod_pos_bound h (2 ^ k)). rewrite Z.shiftr_div_pow2 by lia.
  rewrite <- Z.shiftl_mul_pow2 by lia. rewrite lor_add by lia. rewrite Z.shiftl_mul_pow2 by lia.
  split; [done|]. nia.
Qed.

Lemma div_parts h l k : 0 <= k <= 32 ->
  (h * 2 ^ 32 + l) / 2 ^ k = h * 2 ^ (32 - k) + l / 2 ^ k /\ (h * 2 ^ 32 + l) mod 2 ^ k = l mod 2 ^ k.
Proof.
  intros Hk. assert (0 < 2 ^ k) by (apply Z.pow_pos_nonneg; lia).
  replace (2 ^ 32) with (2 ^ (32 - k) * 2 ^ k) by (rewrite <- Z.pow_add_r by lia; f_equal; lia).
  rewrite Z.mul_assoc, (Z.add_comm _ l), Z_mod_plus_full, Z.div_add by lia. split; [lia|done].
Qed.

Lemma cut_low_spec sr n q r :
  0 <= n < 2 ^ 64 -> 1 <= sr <= 31 -> cut_low sr (s_high n) (s_low n) = (q, r) -> is_cut n sr q r.
Proof.
  intros Hn Hsr [= <- <-]. pose proof (s_low_range n) as Hl. pose proof (s_high_range n) as Hh.
  destruct (join_parts (s_high n) (s_low n) sr Hh Hl ltac:(lia)) as [-> Hj].
  rewrite !s_all_add by (done || lia). rewrite shift_out by lia. replace (32 - (32 - sr)) with sr by lia.
  rewrite Z.shiftr_div_pow2 by lia. unfold is_cut.
  pose proof (div_parts (s_high n) (s_low n) sr ltac:(lia)) as Hp. rewrite <- (s_split n Hn) in Hp. destruct Hp as [-> ->]. split.
  - rewrite <- Z.mul_assoc, <- Z.pow_add_r, Z.add_0_r by lia. do 2 f_equal. lia.
  - rewrite (Z.div_mod (s_high n) (2 ^ sr)) at 3 by (apply Z.pow_nonzero; lia).
    replace (2 ^ 32) with (2 ^ sr * 2 ^ (32 - sr)) by (rewrite <- Z.pow_add_r by lia; f_equal; lia). lia.
Qed.

(** Line 626: all ones when the remainder reaches the divisor, by the sign of a difference
    that must fit 64 bits. *)
Lemma compare_sign d r :
  - 2 ^ 63 <= d - r - 1 < 2 ^ 63 ->
  Z.shiftr (i64 (u64 (d - r - 1))) 63 = if d <=? r then -1 else 0.
Proof.
  intros H. rewrite signed_wrap, signed_small by (simpl in *; lia). rewrite Z.shiftr_div_pow2 by lia.
  destruct (Z.leb_spec d r).
  - symmetry. apply Z.div_unique with (d - r - 1 + 2 ^ 63); lia.
  - apply Z.div_small. lia.
Qed.

(** One bit of the dividend moves from the quotient register to the remainder. *)
Lemma shift_step n k q Q :
  0 <= n < 2 ^ 64 -> 0 <= k < 64 -> 0 <= Q < 2 ^ (64 - (k + 1)) ->
  q = (n mod 2 ^ (k + 1)) * 2 ^ (64 - (k + 1)) + Q / 2 ->
  0 <= q < 2 ^ 64 /\
  let bit := (2 * q) / 2 ^ 64 in
  0 <= bit < 2 /\ n / 2 ^ k = 2 * (n / 2 ^ (k + 1)) + bit /\
  (2 * q + Q mod 2) mod 2 ^ 64 = (n mod 2 ^ k) * 2 ^ (64 - k) + Q.
Proof.
  intros Hn Hk HQ Hq. cbv zeta.
  assert (0 < 2 ^ k) by (apply Z.pow_pos_nonneg; lia).
  assert (2 ^ (k + 1) = 2 * 2 ^ k) as Ek by (rewrite Z.pow_add_r by lia; lia).
  assert (2 ^ 64 = 2 ^ k * 2 ^ (64 - k)) as E64 by (rewrite <- Z.pow_add_r by lia; f_equal; lia).
  assert (2 ^ (64 - k) = 2 * 2 ^ (64 - (k + 1))) as Ek'.
  { replace (64 - k) with (64 - (k + 1) + 1) by lia. rewrite Z.pow_add_r by lia. lia. }
  assert (0 < 2 ^ (64 - (k + 1))) by (apply Z.pow_pos_nonneg; lia).
  pose proof (Z.div_mod n (2 ^ k) ltac:(lia)) as Dn. pose proof (Z.mod_pos_bound n (2 ^ k) ltac:(lia)) as Mn.
  set (bit := (n / 2 ^ k) mod 2). assert (0 <= bit < 2) as Hbit by (apply Z.mod_pos_bound; lia).
  assert (n / 2 ^ (k + 1) = n / 2 ^ k / 2) as Dn1 by (rewrite Ek, Z.mul_comm, Z.div_div by lia; done).
  pose proof (Z.div_mod (n / 2 ^ k) 2 ltac:(lia)) as Db. fold bit in Db. rewrite <- Dn1 in Db.
  assert (n mod 2 ^ (k + 1) = bit * 2 ^ k + n mod 2 ^ k) as Em.
  { symmetry. apply Z.mod_unique_pos with (n / 2 ^ (k + 1)); nia. }
  pose proof (Z.div_mod Q 2 ltac:(lia)) as DQ. pose proof (Z.mod_pos_bound Q 2 ltac:(lia)).
  set (P := 2 ^ (64 - (k + 1))) in *. set (m := n mod 2 ^ k) in *. set (Kp := 2 ^ k) in *. set (T := 2 ^ 64) in *.
  assert (0 <= m * (2 * P) + Q < T) as Hlow by (rewrite E64, Ek'; nia).
  assert (2 * q = bit * T + (m * (2 * P) + 2 * (Q / 2))) as E2q by (rewrite Hq, Em, E64, Ek'; lia).
  assert (2 * q / T = bit) as ->.
  { symmetry. apply Z.div_unique_pos with (m * (2 * P) + 2 * (Q / 2)); lia. }
  split; [lia|]. split; [done|]. split; [lia|]. rewrite Ek'.
  symmetry. apply Z.mod_unique_pos with bit; lia.
Qed.

Lemma udiv_loop_spec k n d q r Q :
  0 <= n < 2 ^ 64 -> 0 < d < 2 ^ 64 -> (k <= 64)%nat ->
  0 <= Q -> n / 2 ^ Z.of_nat k = Q * d + r -> 0 <= r < d ->
  q = (n mod 2 ^ Z.of_nat k) * 2 ^ (64 - Z.of_nat k) + Q / 2 ->
  d < 2 ^ 63 \/ k = O \/ k = 1%nat /\ Q = 0 /\ 2 ^ 63 <= n ->
  udiv_loop k d q r (Q mod 2) = ((n / d) / 2, n mod d, (n / d) mod 2).
Proof.
  intros Hn Hd. revert q r Q. induction k as [|k IH]; intros q r Q Hk HQ Hr Hrd Hq Hsafe.
  - cbn [udiv_loop]. rewrite Z.div_1_r in Hr. rewrite Z.mod_1_r in Hq. simpl in Hq.
    assert (n / d = Q) as -> by (symmetry; apply Z.div_unique_pos with r; lia).
    assert (n mod d = r) as -> by (symmetry; apply Z.mod_unique_pos with Q; lia). by rewrite Hq.
  - cbn [udiv_loop]. rewrite Nat2Z.inj_succ, <- Z.add_1_r in *.
    assert (0 <= Q < 2 ^ (64 - (Z.of_nat k + 1))) as HQb.
    { split; [done|]. assert (Q <= n / 2 ^ (Z.of_nat k + 1)) by nia.
      eapply Z.le_lt_trans; [done|]. apply Z.div_lt_upper_bound; [apply Z.pow_pos_nonneg; lia|].
      rewrite <- Z.pow_add_r by lia. replace (Z.of_nat k + 1 + (64 - (Z.of_nat k + 1))) with 64 by lia. lia. }
    pose proof (Z.mod_pos_bound Q 2 ltac:(lia)).
    destruct (shift_step n (Z.of_nat k) q Q Hn ltac:(lia) HQb Hq) as (Hqb & Hbit & Hnk & Hq'). clear Hq.
    assert (n / 2 ^ Z.of_nat k <= n) as Hle.
    { apply Z.div_le_upper_bound; [apply Z.pow_pos_nonneg; lia|].
      pose proof (Z.pow_pos_nonneg 2 (Z.of_nat k) ltac:(lia) ltac:(lia)). nia. }
    rewrite !s_high_top by done. rewrite shift_dword by lia.
    rewrite <- (s_high_top q) by done. rewrite s_high_top by done. rewrite shift_dword by lia. rewrite Hq'.
    set (bit := 2 * q / 2 ^ 64) in *. rewrite Hr in Hnk. set (nk := n / 2 ^ Z.of_nat k) in *.
    assert (0 <= nk) by (apply Z.div_pos; [lia|apply Z.pow_pos_nonneg; lia]).
    rewrite (Z.mod_small (2 * r + bit)) by nia.
    assert (- 2 ^ 63 <= d - (2 * r + bit) - 1 < 2 ^ 63) as Hcmp.
    { destruct Hsafe as [|[|(E1 & -> & ?)]]; [lia|lia|]. assert (k = O) as -> by lia.
      unfold nk in *. rewrite Z.div_1_r in *. lia. }
    rewrite (compare_sign _ _ Hcmp). destruct (Z.leb_spec d (2 * r + bit)).
    + change (u32 (Z.land (-1) 1)) with 1. change (u64 (-1)) with (Z.ones 64). rewrite Z.land_ones by lia.
      rewrite (Z.mod_small d) by lia. rewrite wrap_small by nia.
      replace 1 with ((2 * Q + 1) mod 2) by (rewrite Z.mul_comm, Z.add_comm, Z_mod_plus_full; done).
      apply IH; [lia..| |lia| |].
      * lia.
      * replace ((2 * Q + 1) / 2) with Q by zdm. done.
      * destruct Hsafe as [|[|(? & ? & ?)]]; [by left|lia|right; left; lia].
    + change (u32 (Z.land 0 1)) with 0. change (u64 0) with 0. rewrite Z.land_0_r, Z.sub_0_r.
      rewrite wrap_small by nia.
      replace 0 with ((2 * Q) mod 2) by (rewrite Z.mul_comm; apply Z_mod_mult).
      apply IH; [lia..| |lia| |].
      * lia.
      * rewrite (Z.mul_comm 2 Q), Z.div_mul by lia. done.
      * destruct Hsafe as [|[|(? & ? & ?)]]; [by left|lia|right; left; lia].
Qed.

Lemma udiv_finish_spec n d sr q r :
  0 <= n < 2 ^ 64 -> 0 < d < 2 ^ 64 -> 1 <= sr <= 63 -> is_cut n sr q r -> n / 2 ^ sr < d ->
  d < 2 ^ 63 \/ sr = 1 /\ 2 ^ 63 <= n ->
  udiv_finish sr d q r = (n / d, n mod d).
Proof.
  intros Hn Hd Hsr [-> ->] Hlt Hsafe. unfold udiv_finish. change 0 with (0 mod 2) at 1.
  assert (0 <= n / 2 ^ sr) by (apply Z.div_pos; [lia|apply Z.pow_pos_nonneg; lia]).
  rewrite (udiv_loop_spec _ n _ _ _ 0); rewrite ?Z2Nat.id by lia; try lia.
  - assert (0 <= n / d < 2 ^ 64) as Hq.
    { split; [apply Z.div_pos; lia|]. apply Z.div_lt_upper_bound; nia. }
    f_equal. rewrite Z.shiftl_mul_pow2 by lia. change (2 ^ 1) with 2.
    pose proof (Z.mod_pos_bound (n / d) 2 ltac:(lia)). pose proof (Z.div_mod (n / d) 2 ltac:(lia)).
    rewrite wrap_small by lia. change 2 with (2 ^ 1) at 2. rewrite <- Z.shiftl_mul_pow2 by lia.
    rewrite lor_add by lia. lia.
  - change (0 / 2) with 0. lia.
Qed.

(** *** The builtins *)

Section Division.
Context `{Builtins}.

Lemma clz_diff x y :
  0 < x < 2 ^ 32 -> 0 < y < 2 ^ 32 -> builtin_clz x - builtin_clz y = Z.log2 y - Z.log2 x /\
  0 <= Z.log2 x <= 31 /\ 0 <= Z.log2 y <= 31.
Proof.
  intros Hx Hy. rewrite !builtin_clz_spec by done. split; [lia|].
  assert (forall z, 0 < z < 2 ^ 32 -> 0 <= Z.log2 z <= 31) as Hl; [|auto].
  intros z Hz. split; [apply Z.log2_nonneg|]. enough (Z.log2 z < 32) by lia. apply Z.log2_lt_pow2; lia.
Qed.

Lemma log2_bound x : 0 < x -> 2 ^ Z.log2 x <= x < 2 * 2 ^ Z.log2 x.
Proof. intros Hx. pose proof (Z.log2_spec x Hx). rewrite Z.pow_succ_r in * by apply Z.log2_nonneg. lia. Qed.

(** The test for a power of two. *)
Lemma pow2_test x : 0 < x < 2 ^ 32 -> (Z.land x (u32 (x - 1)) =? 0) = true -> exists j, 0 <= j < 32 /\ x = 2 ^ j.
Proof.
  intros Hx Ht%Z.eqb_eq. rewrite wrap_small in Ht by lia. exists (Z.log2 x).
  pose proof (log2_bound x ltac:(lia)) as Hl. pose proof (Z.log2_nonneg x).
  assert (Z.log2 x < 32) by (apply Z.log2_lt_pow2; lia). split; [lia|].
  destruct (decide (x = 2 ^ Z.log2 x)); [done|]. exfalso.
  assert (Z.log2 (x - 1) = Z.log2 x) as E.
  { apply Z.log2_unique; [done|]. rewrite Z.pow_succ_r by done. lia. }
  assert (0 < 2 ^ Z.log2 x) by (apply Z.pow_pos_nonneg; lia).
  pose proof (Z.bit_log2 x ltac:(lia)) as B1. pose proof (Z.bit_log2 (x - 1) ltac:(lia)) as B2.
  rewrite E in B2. assert (Z.testbit (Z.land x (x - 1)) (Z.log2 x) = true) as B by (by rewrite Z.land_spec, B1, B2).
  by rewrite Ht, Z.bits_0 in B.
Qed.

Lemma ctz_pow2 j : 0 <= j < 32 -> builtin_ctz (2 ^ j) = j.
Proof.
  intros Hj. assert (0 < 2 ^ j < 2 ^ 32).
  { split; [apply Z.pow_pos_nonneg; lia|apply Z.pow_lt_mono_r; lia]. }
  destruct (builtin_ctz_spec (2 ^ j)) as [Hc [k Hk]]; [done|]. set (c := builtin_ctz (2 ^ j)) in *. clearbody c.
  destruct (Z.lt_trichotomy c j) as [Hlt|[|Hgt]]; [|done|].
  - replace (2 ^ j) with (2 ^ c * 2 ^ (j - c)) in Hk by (rewrite <- Z.pow_add_r by lia; f_equal; lia).
    assert (0 < 2 ^ c) by (apply Z.pow_pos_nonneg; lia). apply Z.mul_reg_l in Hk; [|lia].
    replace (j - c) with (j - c - 1 + 1) in Hk by lia. rewrite Z.pow_add_r in Hk by lia. lia.
  - replace (2 ^ c) with (2 ^ j * 2 ^ (c - j)) in Hk by (rewrite <- Z.pow_add_r by lia; f_equal; lia).
    assert (0 < 2 ^ j) by (apply Z.pow_pos_nonneg; lia).
    replace (2 ^ (c - j)) with (2 * 2 ^ (c - j - 1)) in Hk
      by (rewrite <- Z.pow_succ_r by lia; f_equal; lia).
    assert (2 * (2 ^ (c - j - 1) * (2 * k + 1)) = 1) as E1.
    { apply (Z.mul_reg_l _ _ (2 ^ j)); lia. }
    lia.
Qed.

(** *** The branches *)

Lemma land_low_ones x j : 0 <= j < 32 -> Z.land x (u32 (2 ^ j - 1)) = x mod 2 ^ j.
Proof.
  intros Hj. assert (0 < 2 ^ j < 2 ^ 32).
  { split; [apply Z.pow_pos_nonneg; lia|apply Z.pow_lt_mono_r; lia]. }
  rewrite wrap_small by lia. rewrite <- Z.land_ones by lia. f_equal. rewrite Z.ones_equiv. lia.
Qed.

Lemma div_result n d q r : 0 < d -> n = q * d + r -> 0 <= r < d -> Some (q, r) = Some (n / d, n mod d).
Proof.
  intros Hd E Hr. do 2 f_equal; [apply Z.div_unique_pos with r|apply Z.mod_unique_pos with q]; lia.
Qed.

(** The first [sr] for which the remainder starts below the divisor. *)
Lemma cut_below n d sr j : 0 <= n < 2 ^ (sr + j) -> 2 ^ j <= d -> 0 <= sr -> 0 <= j -> n / 2 ^ sr < d.
Proof.
  intros Hn Hd Hsr Hj. apply Z.lt_le_trans with (2 ^ j); [|done].
  apply Z.div_lt_upper_bound; [apply Z.pow_pos_nonneg; lia|]. rewrite <- Z.pow_add_r by lia. lia.
Qed.

Lemma high_bound n : 0 <= n < 2 ^ 64 -> 0 < s_high n -> n < 2 ^ (33 + Z.log2 (s_high n)).
Proof.
  intros Hn Hh. rewrite Z.add_comm, Z.pow_add_r by (apply Z.log2_nonneg || lia).
  pose proof (log2_bound _ Hh). pose proof (s_split n Hn). pose proof (s_low_range n). nia.
Qed.

Lemma high_le n : 0 <= n < 2 ^ 64 -> 0 < s_high n -> 2 ^ (32 + Z.log2 (s_high n)) <= n.
Proof.
  intros Hn Hh. rewrite Z.add_comm, Z.pow_add_r by (apply Z.log2_nonneg || lia).
  pose proof (log2_bound _ Hh). pose proof (s_split n Hn). pose proof (s_low_range n). nia.
Qed.

(** Dividend and divisor with two words: [sr] is the difference of their lengths. *)
Lemma two_words n d (sr := u32 (builtin_clz (s_high d) - builtin_clz (s_high n))) :
  0 <= n < 2 ^ 64 -> 0 <= d < 2 ^ 64 -> 0 < s_high n -> 0 < s_high d ->
  (31 < sr /\ n < d) \/
  (0 <= sr <= 31 /\ sr = Z.log2 (s_high n) - Z.log2 (s_high d) /\ n / 2 ^ (sr + 1) < d /\
   (d < 2 ^ 63 \/ sr + 1 = 1 /\ 2 ^ 63 <= n)).
Proof.
  intros Hn Hd Hnh Hdh. pose proof (s_high_range n). pose proof (s_high_range d).
  destruct (clz_diff (s_high d) (s_high n)) as (E & Hld & Hln); [lia..|]. unfold sr. rewrite E.
  set (ln := Z.log2 (s_high n)) in *. set (ld := Z.log2 (s_high d)) in *.
  pose proof (high_bound n Hn Hnh) as Hnb. pose proof (high_le d Hd Hdh) as Hdb. fold ln in Hnb. fold ld in Hdb.
  destruct (decide (ln < ld)).
  - left. split.
    + unfold wrap. rewrite <- (Z.mod_unique_pos _ (2 ^ 32) (-1) (ln - ld + 2 ^ 32)); lia.
    + apply Z.lt_le_trans with (2 ^ (33 + ln)); [done|]. etrans; [|exact Hdb]. apply Z.pow_le_mono_r; lia.
  - right. rewrite wrap_small by lia. split; [lia|]. split; [done|]. split.
    + apply cut_below with (32 + ld); [|done|lia..].
      replace (ln - ld + 1 + (32 + ld)) with (33 + ln) by lia. lia.
    + destruct (decide (ld = 31)) as [Eld|].
      * right. split; [lia|]. assert (ln = 31) as E31 by lia.
        pose proof (high_le n Hn Hnh) as Hl. fold ln in Hl. rewrite E31 in Hl. exact Hl.
      * left. pose proof (high_bound d Hd Hdh) as Hl. fold ld in Hl.
        apply Z.lt_le_trans with (2 ^ (33 + ld)); [done|]. apply Z.pow_le_mono_r; lia.
Qed.

Lemma cut_words n : 0 <= n < 2 ^ 64 -> is_cut n 32 (s_all (s_low n) 0) (s_all 0 (s_high n)).
Proof.
  intros Hn. pose proof (s_high_range n). rewrite !s_all_add by lia. unfold is_cut. split.
  - change (64 - 32) with 32. rewrite Z.add_0_r. done.
  - rewrite s_high_div by done. lia.
Qed.

Lemma udiv_full_spec n d :
  0 <= n < 2 ^ 64 -> 0 <= d < 2 ^ 64 -> 0 < s_high n -> 0 < s_high d ->
  udiv_full n d = Some (n / d, n mod d).
Proof.
  intros Hn Hd Hnh Hdh. unfold udiv_full. pose proof (s_split d Hd). pose proof (s_low_range d).
  destruct (two_words n d Hn Hd Hnh Hdh) as [[Hsr Hlt]|(Hsr & _ & Hlt & Hsafe)];
    set (sr := u32 (builtin_clz (s_high d) - builtin_clz (s_high n))) in *.
  - destruct (Z.ltb_spec (32 - 1) sr); [|lia]. apply div_result; lia.
  - destruct (Z.ltb_spec (32 - 1) sr); [lia|]. rewrite wrap_small by lia.
    destruct (Z.eqb_spec (sr + 1) 32) as [E|].
    + rewrite (udiv_finish_spec n); [done|lia|lia|lia| |done|done]. rewrite E. by apply cut_words.
    + destruct (cut_low (sr + 1) (s_high n) (s_low n)) as [q r] eqn:Ec.
      rewrite (udiv_finish_spec n); [done|lia|lia|lia| |done|done]. apply cut_low_spec; [done|lia|done].
Qed.

Lemma udiv_low0_spec n d :
  0 <= n < 2 ^ 64 -> 0 <= d < 2 ^ 64 -> 0 < s_high n -> s_low d = 0 ->
  udiv_low0 n d = if d =? 0 then None else Some (n / d, n mod d).
Proof.
  intros Hn Hd Hnh Hdl. unfold udiv_low0. pose proof (s_split d Hd) as Ed. rewrite Hdl in Ed.
  pose proof (s_high_range d) as Hdh. pose proof (s_high_range n). pose proof (s_low_range n).
  pose proof (s_split n Hn) as En. rewrite Hdl.
  destruct (Z.eqb_spec (s_high d) 0) as [E0|].
  { destruct (Z.eqb_spec d 0); [done|lia]. }
  destruct (Z.eqb_spec d 0) as [|_]; [lia|].
  pose proof (Z.div_mod (s_high n) (s_high d) ltac:(lia)) as Dh.
  pose proof (Z.mod_pos_bound (s_high n) (s_high d) ltac:(lia)).
  destruct (Z.eqb_spec (s_low n) 0) as [El|].
  { rewrite s_all_add by lia. apply div_result; nia. }
  destruct (Z.land _ _ =? 0) eqn:Ep.
  { apply pow2_test in Ep as (j & Hj & Ej); [|lia]. rewrite Ej in *. rewrite ctz_pow2, land_low_ones by done.
    rewrite Z.shiftr_div_pow2 by lia. rewrite s_all_add by lia. apply div_result; nia. }
  destruct (two_words n d Hn Hd Hnh ltac:(lia)) as [[Hsr Hlt]|(Hsr & Esr & Hlt & Hsafe)];
    set (sr := u32 (builtin_clz (s_high d) - builtin_clz (s_high n))) in *.
  - destruct (Z.ltb_spec (32 - 2) sr); [|lia]. apply div_result; lia.
  - assert (sr <> 31).
    { intros E31. rewrite E31 in Esr. destruct (clz_diff (s_high d) (s_high n)) as (_ & ? & ?); [lia..|].
      assert (Z.log2 (s_high d) = 0) as E0 by lia. pose proof (log2_bound (s_high d) ltac:(lia)) as Hb.
      rewrite E0 in Hb. assert (s_high d = 1) as E1 by lia. rewrite E1 in Ep. done. }
    destruct (Z.ltb_spec (32 - 2) sr); [lia|]. rewrite wrap_small by lia.
    destruct (cut_low (sr + 1) (s_high n) (s_low n)) as [q r] eqn:Ec.
    rewrite (udiv_finish_spec n); [done|lia|lia|lia| |done|done]. apply cut_low_spec; [done|lia|done].
Qed.

Lemma join_high n k (nh := s_high n) (nl := s_low n) :
  0 <= n < 2 ^ 64 -> 0 <= k <= 32 ->
  s_all (Z.shiftr nh k) (Z.lor (u32 (Z.shiftl nh (32 - k))) (Z.shiftr nl k)) = n / 2 ^ k.
Proof.
  intros Hn Hk. pose proof (s_low_range n) as Hl. pose proof (s_high_range n) as Hh.
  destruct (join_parts nh nl k Hh Hl Hk) as [-> Hj]. rewrite s_all_add by done.
  rewrite Z.shiftr_div_pow2 by lia. pose proof (div_parts nh nl k Hk) as [Hp _].
  unfold nh, nl in *. rewrite <- (s_split n Hn) in Hp. rewrite Hp.
  rewrite (Z.div_mod (s_high n) (2 ^ k)) at 3 by (apply Z.pow_nonzero; lia).
  replace (2 ^ 32) with (2 ^ k * 2 ^ (32 - k)) by (rewrite <- Z.pow_add_r by lia; f_equal; lia). lia.
Qed.

(** Lines 564-571. *)
Lemma cut_high n sr (nh := s_high n) (nl := s_low n) :
  0 <= n < 2 ^ 64 -> 33 <= sr <= 63 ->
  is_cut n sr
    (s_all (u32 (Z.lor (u32 (Z.shiftl nh (64 - sr))) (Z.shiftr nl (sr - 32)))) (u32 (Z.shiftl nl (64 - sr))))
    (s_all 0 (Z.shiftr nh (sr - 32))).
Proof.
  intros Hn Hsr. pose proof (s_low_range n) as Hl. pose proof (s_high_range n) as Hh.
  set (k := sr - 32). replace (64 - sr) with (32 - k) by lia.
  destruct (join_parts nh nl k Hh Hl ltac:(lia)) as [-> Hj]. rewrite (wrap_small 32) by done.
  assert (0 < 2 ^ k) by (apply Z.pow_pos_nonneg; lia).
  assert (2 ^ sr = 2 ^ 32 * 2 ^ k) as E by (rewrite <- Z.pow_add_r by lia; f_equal; lia).
  assert (2 ^ 32 = 2 ^ k * 2 ^ (32 - k)) as E32 by (rewrite <- Z.pow_add_r by lia; f_equal; lia).
  rewrite !s_all_add by (apply (wrap_range 32); lia). rewrite s_all_add.
  2:{ rewrite Z.shiftr_div_pow2 by lia. split; [apply Z.div_pos; lia|apply Z.div_lt_upper_bound; nia]. }
  rewrite shift_out by lia. replace (32 - (32 - k)) with k by lia. rewrite Z.shiftr_div_pow2 by lia.
  pose proof (s_split n Hn) as En. fold nh nl in En.
  assert (n / 2 ^ sr = nh / 2 ^ k) as Ed.
  { rewrite E, <- Z.div_div by lia. unfold nh. by rewrite s_high_div. }
  unfold is_cut. rewrite Ed. split; [|lia].
  assert (n mod 2 ^ sr = (nh mod 2 ^ k) * 2 ^ 32 + nl) as ->.
  { symmetry. pose proof (Z.div_mod nh (2 ^ k) ltac:(lia)). pose proof (Z.mod_pos_bound nh (2 ^ k) ltac:(lia)).
    apply Z.mod_unique_pos with (nh / 2 ^ k); unfold nl in *; nia. }
  rewrite (Z.div_mod nl (2 ^ k)) at 3 by lia. set (a := nh mod 2 ^ k). set (b := nl / 2 ^ k). set (c := nl mod 2 ^ k).
  replace (64 - sr) with (32 - k) by lia. rewrite E32. lia.
Qed.

Lemma udiv_high0_spec n d :
  0 <= n < 2 ^ 64 -> 0 < d < 2 ^ 32 -> 0 < s_high n -> udiv_high0 n d = Some (n / d, n mod d).
Proof.
  intros Hn Hd Hnh. unfold udiv_high0. pose proof (s_high_range n) as Hh. pose proof (s_low_range n) as Hl.
  assert (s_low d = d) as -> by (apply wrap_small; lia).
  destruct (Z.land d _ =? 0) eqn:Ep.
  - apply pow2_test in Ep as (j & Hj & ->); [|lia]. rewrite land_low_ones by done.
    pose proof (div_parts (s_high n) (s_low n) j ltac:(lia)) as [_ Em]. rewrite <- (s_split n Hn) in Em. rewrite <- Em.
    destruct (Z.eqb_spec (2 ^ j) 1) as [->|]; [by rewrite Z.div_1_r|].
    rewrite ctz_pow2 by done. rewrite join_high by (done || lia). done.
  - destruct (clz_diff d (s_high n)) as (E & Hld & Hln); [lia..|].
    replace (1 + 32 + builtin_clz d - builtin_clz (s_high n)) with (33 + (builtin_clz d - builtin_clz (s_high n))) by lia.
    rewrite E. set (ld := Z.log2 d) in *. set (ln := Z.log2 (s_high n)) in *.
    pose proof (log2_bound d ltac:(lia)) as Hb. fold ld in Hb.
    assert (ld <> 0). { intros E0. rewrite E0 in Hb. assert (d = 1) as E1 by lia. by rewrite E1 in Ep. }
    rewrite wrap_small by lia. set (sr := 33 + (ln - ld)).
    assert (n / 2 ^ sr < d) as Hlt.
    { apply cut_below with ld; [|lia..]. pose proof (high_bound n Hn Hnh) as Hnb. fold ln in Hnb.
      replace (sr + ld) with (33 + ln) by lia. lia. }
    destruct (Z.eqb_spec sr 32) as [E32|].
    { rewrite (udiv_finish_spec n); [done|lia|lia|lia| |done|lia]. rewrite E32. by apply cut_words. }
    destruct (Z.ltb_spec sr 32).
    { destruct (cut_low sr (s_high n) (s_low n)) as [q r] eqn:Ec.
      rewrite (udiv_finish_spec n); [done|lia|lia|lia| |done|lia]. apply cut_low_spec; [done|lia|done]. }
    rewrite (udiv_finish_spec n); [done|lia|lia|lia| |done|lia]. apply cut_high; [done|lia].
Qed.

Lemma udivmoddi4_correct a b :
  0 <= a < 2 ^ 64 -> 0 <= b < 2 ^ 64 ->
  __udivmoddi4 a b = if b =? 0 then None else Some (a / b, a mod b).
Proof.
  intros Ha Hb. unfold __udivmoddi4. pose proof (s_split a Ha) as Ea. pose proof (s_split b Hb) as Eb.
  pose proof (s_high_range a). pose proof (s_high_range b). pose proof (s_low_range a). pose proof (s_low_range b).
  destruct (Z.eqb_spec (s_high a) 0) as [E0|].
  - rewrite E0 in Ea. assert (s_low a = a) as -> by lia. destruct (Z.eqb_spec (s_high b) 0) as [E1|].
    + rewrite E1 in Eb. assert (s_low b = b) as -> by lia. done.
    + destruct (Z.eqb_spec b 0); [lia|]. apply div_result; lia.
  - destruct (Z.eqb_spec (s_low b) 0) as [El|]; [by apply udiv_low0_spec; [..|lia|]|].
    destruct (Z.eqb_spec b 0); [lia|].
    destruct (Z.eqb_spec (s_high b) 0) as [E1|].
    + apply udiv_high0_spec; lia.
    + apply udiv_full_spec; lia.
Qed.

(** C34: the division routine computes the Euclidean quotient and remainder of any two 64-bit
    integers, on every one of its branches, and traps exactly on a divisor 0. *)
Theorem udivmoddi4_spec a b :
  0 <= a < 2 ^ 64 -> 0 <= b < 2 ^ 64 ->
  __udivmoddi4 a b = (if b =? 0 then None else Some (a / b, a mod b)) /\
  __udivdi3 a b = (if b =? 0 then None else Some (a / b)) /\
  __umoddi3 a b = (if b =? 0 then None else Some (a mod b)).
Proof.
  intros Ha Hb. unfold __udivdi3, __umoddi3. rewrite udivmoddi4_correct by done.
  by destruct (b =? 0).
Qed.

(** *** Signed division *)

Lemma sign_mask x : - 2 ^ 63 <= x < 2 ^ 63 -> Z.shiftr x 63 = if x <? 0 then -1 else 0.
Proof.
  intros Hx. rewrite Z.shiftr_div_pow2 by lia. destruct (Z.ltb_spec x 0).
  - symmetry. apply Z.div_unique with (x + 2 ^ 63); lia.
  - apply Z.div_small. lia.
Qed.

Lemma lxor_m1 x : Z.lxor x (-1) = - x - 1.
Proof. rewrite Z.lxor_m1_r. pose proof (Z.add_lnot_diag x). lia. Qed.

Lemma negate_if_abs x : - 2 ^ 63 <= x < 2 ^ 63 -> u64 (negate_if (Z.shiftr x 63) x) = Z.abs x.
Proof.
  intros Hx. unfold negate_if. rewrite sign_mask, wrap_signed by lia. destruct (Z.ltb_spec x 0).
  - rewrite lxor_m1, wrap_small; lia.
  - rewrite Z.lxor_0_r, wrap_small; lia.
Qed.

Lemma i64_cong x y : u64 x = u64 y -> i64 x = i64 y.
Proof. intros E. by rewrite <- (signed_wrap 64 x), E, signed_wrap. Qed.

Lemma flip_word q : 0 <= q < 2 ^ 64 -> u64 (Z.lxor q (u64 (-1)) - -1) = u64 (- q).
Proof.
  intros Hq. change (u64 (-1)) with (Z.ones 64).
  assert (Z.lxor q (Z.ones 64) = Z.ldiff (Z.ones 64) q) as ->.
  { apply Z.bits_inj'. intros i Hi. rewrite Z.lxor_spec, Z.ldiff_spec.
    destruct (decide (i < 64)); [rewrite Z.ones_spec_low by lia; by destruct (Z.testbit q i)|].
    rewrite Z.ones_spec_high, (high_bits q 64 i) by lia. done. }
  rewrite <- Z.sub_nocarry_ldiff.
  - unfold wrap. rewrite Z.ones_equiv. rewrite <- (Z_mod_plus_full (- q) 1 (2 ^ 64)). f_equal. lia.
  - apply Z.bits_inj'. intros i Hi. rewrite Z.ldiff_spec, Z.bits_0.
    destruct (decide (i < 64)); [rewrite Z.ones_spec_low, andb_false_r by lia; done|].
    rewrite (high_bits q 64 i) by lia. done.
Qed.

(** The quotient of the absolute values, negated when the signs differ. *)
Lemma quot_sign a b :
  b <> 0 -> Z.quot a b = if xorb (a <? 0) (b <? 0) then - (Z.abs a / Z.abs b) else Z.abs a / Z.abs b.
Proof.
  intros Hb. destruct (Z.ltb_spec a 0), (Z.ltb_spec b 0); simpl;
    rewrite ?(Z.abs_neq a), ?(Z.abs_eq a), ?(Z.abs_neq b), ?(Z.abs_eq b) by lia; rewrite <- Z.quot_div_nonneg by lia.
  - by rewrite Z.quot_opp_opp.
  - rewrite Z.quot_opp_l by lia. lia.
  - rewrite Z.quot_opp_r by lia. lia.
  - done.
Qed.

Lemma divdi3_correct a b :
  - 2 ^ 63 <= a < 2 ^ 63 -> - 2 ^ 63 <= b < 2 ^ 63 ->
  __divdi3 a b = if b =? 0 then None else Some (i64 (Z.quot a b)).
Proof.
  intros Ha Hb. unfold __divdi3. rewrite !negate_if_abs by done. rewrite udivmoddi4_correct by lia.
  destruct (Z.eqb_spec b 0) as [->|Hb0]; [done|]. destruct (Z.eqb_spec (Z.abs b) 0); [lia|].
  cbn [mbind option_bind]. f_equal. rewrite !sign_mask by done. rewrite signed_wrap, quot_sign by done.
  assert (0 <= Z.abs a / Z.abs b <= 2 ^ 63) as Hq.
  { split; [apply Z.div_pos; lia|]. apply Z.div_le_upper_bound; nia. }
  destruct (a <? 0), (b <? 0); cbn [xorb]; apply i64_cong.
  - change (Z.lxor (-1) (-1)) with 0. change (u64 0) with 0. by rewrite Z.lxor_0_r, Z.sub_0_r.
  - change (Z.lxor (-1) 0) with (-1). apply flip_word. lia.
  - change (Z.lxor 0 (-1)) with (-1). apply flip_word. lia.
  - change (Z.lxor 0 0) with 0. change (u64 0) with 0. by rewrite Z.lxor_0_r, Z.sub_0_r.
Qed.

Lemma rem_sign a b :
  b <> 0 -> Z.rem a b = if a <? 0 then - (Z.abs a mod Z.abs b) else Z.abs a mod Z.abs b.
Proof.
  intros Hb. rewrite <- Z.rem_mod_nonneg by lia.
  destruct (Z.ltb_spec a 0); [rewrite (Z.abs_neq a) by lia|rewrite (Z.abs_eq a) by lia].
  - assert (Z.rem (- a) (Z.abs b) = Z.rem (- a) b) as ->.
    { destruct (Z.abs_spec b) as [[_ ->]|[_ ->]]; [done|]. by rewrite Z.rem_opp_r. }
    rewrite Z.rem_opp_l by done. lia.
  - destruct (Z.abs_spec b) as [[_ ->]|[_ ->]]; [done|]. by rewrite Z.rem_opp_r.
Qed.

Lemma moddi3_correct a b :
  - 2 ^ 63 <= a < 2 ^ 63 -> - 2 ^ 63 <= b < 2 ^ 63 ->
  __moddi3 a b = if b =? 0 then None else Some (Z.rem a b).
Proof.
  intros Ha Hb. unfold __moddi3. rewrite !negate_if_abs by done. rewrite udivmoddi4_correct by lia.
  destruct (Z.eqb_spec b 0) as [->|Hb0]; [done|]. destruct (Z.eqb_spec (Z.abs b) 0); [lia|].
  cbn [mbind option_bind]. f_equal. rewrite sign_mask, rem_sign by done. unfold negate_if.
  pose proof (Z.mod_pos_bound (Z.abs a) (Z.abs b) ltac:(lia)).
  rewrite (signed_small 64 (Z.abs a mod Z.abs b)) by (simpl in *; lia).
  destruct (a <? 0); [rewrite lxor_m1|rewrite Z.lxor_0_r]; rewrite signed_small; lia.
Qed.

(** Signed division truncates towards 0 and the remainder has the sign of the dividend;
    the one quotient that does not fit, of - 2 ^ 63 by -1, wraps to - 2 ^ 63, and
    [__divmoddi4] returns both. *)
Theorem divmoddi4_spec a b :
  - 2 ^ 63 <= a < 2 ^ 63 -> - 2 ^ 63 <= b < 2 ^ 63 ->
  __divmoddi4 a b = (if b =? 0 then None else Some (i64 (Z.quot a b), Z.rem a b)) /\
  __moddi3 a b = (if b =? 0 then None else Some (Z.rem a b)) /\
  (b <> 0 -> (a, b) <> (- 2 ^ 63, -1) -> i64 (Z.quot a b) = Z.quot a b).
Proof.
  intros Ha Hb. split; [|split; [by apply moddi3_correct|]].
  - unfold __divmoddi4. rewrite divdi3_correct by done. destruct (Z.eqb_spec b 0) as [|Hb0]; [done|].
    cbn [mbind option_bind]. do 2 f_equal.
    assert (i64 (a - i64 (i64 (Z.quot a b) * b)) = i64 (Z.rem a b)) as ->.
    { rewrite Z.rem_eq by done. apply i64_cong. unfold wrap. rewrite (Z.mul_comm b).
      rewrite (Zminus_mod a), (Zminus_mod a (Z.quot a b * b)). do 2 f_equal.
      change (u64 (i64 (i64 (Z.quot a b) * b)) = u64 (Z.quot a b * b)). rewrite wrap_signed by lia.
      unfold wrap. rewrite Zmult_mod. change (i64 (Z.quot a b) mod 2 ^ 64) with (u64 (i64 (Z.quot a b))).
      rewrite wrap_signed by lia. unfold wrap. by rewrite <- Zmult_mod. }
    pose proof (Z.rem_bound_abs a b Hb0). apply signed_small; lia.
  - intros Hb0 Hne. apply signed_small; [lia|]. rewrite quot_sign by done.
    assert (0 <= Z.abs a / Z.abs b <= Z.abs a) as Hq.
    { split; [apply Z.div_pos; lia|]. apply Z.div_le_upper_bound; nia. }
    destruct (decide (a = - 2 ^ 63)) as [->|]; [|destruct (xorb _ _); simpl in *; lia].
    assert (b <> -1) by (intros ->; by apply Hne).
    destruct (decide (b = 1)) as [->|]; [by vm_compute|].
    assert (Z.abs (- 2 ^ 63) / Z.abs b < 2 ^ 63) by (apply Z.div_lt_upper_bound; lia).
    destruct (xorb _ _); simpl in *; lia.
Qed.
End Division.

(** ** Counting zero bits *)

Lemma small_step_case x mask k w :
  2 ^ k = w -> 0 <= k -> small_step x mask k = if Z.land x mask =? 0 then w else 0.
Proof.
  intros <- Hk. unfold small_step. rewrite Z.shiftl_mul_pow2 by done. destruct (_ =? 0); simpl; lia.
Qed.

Lemma land_high x w :
  0 < w -> 0 <= x < 2 ^ (2 * w) -> Z.land x (Z.shiftl (Z.ones w) w) = (x / 2 ^ w) * 2 ^ w.
Proof.
  intros Hw Hx. rewrite <- Z.shiftr_div_pow2, <- Z.shiftl_mul_pow2 by lia.
  apply Z.bits_inj'. intros i Hi. rewrite Z.land_spec. destruct (decide (i < w)).
  - by rewrite !Z.shiftl_spec_low, andb_false_r by lia.
  - rewrite !Z.shiftl_spec, Z.shiftr_spec by lia. replace (i - w + w) with i by lia.
    destruct (decide (i < 2 * w)); [by rewrite Z.ones_spec_low, andb_true_r by lia|].
    by rewrite (high_bits x (2 * w) i) by lia.
Qed.

(** One halving of [__clzsi2]. *)
Lemma clz_step x mask k w :
  2 ^ k = w -> 0 <= k -> mask = Z.shiftl (Z.ones w) w -> 0 < x < 2 ^ (2 * w) ->
  let t := small_step x mask k in
  0 < Z.shiftr x (w - t) < 2 ^ w /\ 0 <= t <= w /\
  2 * w - 1 - Z.log2 x = t + (w - 1 - Z.log2 (Z.shiftr x (w - t))).
Proof.
  intros Hk Hk0 -> Hx. cbv zeta. assert (0 < w) by (subst w; apply Z.pow_pos_nonneg; lia).
  rewrite (small_step_case _ _ _ _ Hk Hk0). rewrite land_high by lia.
  assert (0 < 2 ^ w) by (apply Z.pow_pos_nonneg; lia).
  assert (2 ^ (2 * w) = 2 ^ w * 2 ^ w) as E by (rewrite <- Z.pow_add_r by lia; f_equal; lia).
  destruct (Z.eqb_spec (x / 2 ^ w * 2 ^ w) 0) as [E0|].
  - rewrite Z.sub_diag, Z.shiftr_0_r. assert (x / 2 ^ w = 0) as Ed by nia.
    apply Z.div_small_iff in Ed; [|lia]. split; [lia|]. split; [lia|]. lia.
  - rewrite Z.sub_0_r. assert (0 < x / 2 ^ w < 2 ^ w) as Hd.
    { split; [pose proof (Z.div_pos x (2 ^ w)); nia|apply Z.div_lt_upper_bound; lia]. }
    split; [by rewrite Z.shiftr_div_pow2 by lia|]. split; [lia|].
    rewrite Z.log2_shiftr by lia.
    assert (w <= Z.log2 x).
    { apply Z.log2_le_pow2; [lia|]. pose proof (Z.mul_div_le x (2 ^ w)). nia. }
    lia.
Qed.

Lemma clzsi2_correct x : 0 < x < 2 ^ 32 -> __clzsi2 x = 31 - Z.log2 x.
Proof.
  intros Hx. unfold __clzsi2. cbv zeta. rewrite (wrap_small 32 x) by lia.
  destruct (clz_step x 0xFFFF0000 4 16 eq_refl ltac:(lia) eq_refl ltac:(lia)) as (H1 & T1 & E1).
  set (t1 := small_step x _ 4) in *. set (x1 := Z.shiftr x (16 - t1)) in *. clearbody t1 x1.
  destruct (clz_step x1 0xFF00 3 8 eq_refl ltac:(lia) eq_refl ltac:(lia)) as (H2 & T2 & E2).
  set (t2 := small_step x1 _ 3) in *. set (x2 := Z.shiftr x1 (8 - t2)) in *. clearbody t2 x2.
  destruct (clz_step x2 0xF0 2 4 eq_refl ltac:(lia) eq_refl ltac:(lia)) as (H3 & T3 & E3).
  set (t3 := small_step x2 _ 2) in *. set (x3 := Z.shiftr x2 (4 - t3)) in *. clearbody t3 x3.
  destruct (clz_step x3 0xC 1 2 eq_refl ltac:(lia) eq_refl ltac:(lia)) as (H4 & T4 & E4).
  set (t4 := small_step x3 _ 1) in *. set (x4 := Z.shiftr x3 (2 - t4)) in *. clearbody t4 x4.
  repeat rewrite (wrap_small 32 (_ + t2)) by lia. rewrite (wrap_small 32 (_ + t3)) by lia.
  rewrite (wrap_small 32 (_ + t4)) by lia.
  assert (Z.land (u32 (2 - x4)) (u32 (- Z.b2z (Z.land x4 2 =? 0))) = 1 - Z.log2 x4) as ->.
  { assert (x4 = 1 \/ x4 = 2 \/ x4 = 3) as [->|[->| ->]] by (simpl in *; lia); reflexivity. }
  assert (0 <= Z.log2 x4 <= 1).
  { split; [apply Z.log2_nonneg|]. enough (Z.log2 x4 < 2) by lia. apply Z.log2_lt_pow2; lia. }
  rewrite wrap_small by lia. rewrite signed_small; lia.
Qed.

(** The number [c] of trailing 0-bits of [x]. *)
Definition trailing (x c : Z) : Prop := 0 <= c /\ exists k, x = 2 ^ c * (2 * k + 1).

Lemma ctz_step x mask k w :
  2 ^ k = w -> 0 <= k -> mask = Z.ones w -> 0 <= x -> x mod 2 ^ (2 * w) <> 0 ->
  let t := small_step x mask k in
  0 <= Z.shiftr x t /\ Z.shiftr x t mod 2 ^ w <> 0 /\ 0 <= t <= w /\
  forall c, trailing (Z.shiftr x t) c -> trailing x (t + c).
Proof.
  intros Hk Hk0 -> H0 Hx. cbv zeta. assert (0 < w) by (subst w; apply Z.pow_pos_nonneg; lia).
  rewrite (small_step_case _ _ _ _ Hk Hk0). rewrite Z.land_ones by lia.
  assert (0 < 2 ^ w) by (apply Z.pow_pos_nonneg; lia).
  destruct (Z.eqb_spec (x mod 2 ^ w) 0) as [E0|].
  - rewrite Z.shiftr_div_pow2 by lia. split; [apply Z.div_pos; lia|]. split; [|split; [lia|]].
    + intros E1. apply Hx. replace (2 * w) with (w + w) by lia. rewrite Z.pow_add_r by lia.
      rewrite Z.rem_mul_r by lia. rewrite E0, E1. lia.
    + intros c (Hc & j & Ej). split; [lia|]. exists j. rewrite (Z.div_mod x (2 ^ w)), E0, Ej by lia.
      rewrite Z.pow_add_r by lia. lia.
  - rewrite Z.shiftr_0_r. split; [done|]. split; [done|]. split; [lia|]. intros c. by rewrite Z.add_0_l.
Qed.

Lemma ctzsi2_correct x : 0 < x < 2 ^ 32 -> trailing x (__ctzsi2 x).
Proof.
  intros Hx. unfold __ctzsi2. cbv zeta. rewrite (wrap_small 32 x) by lia.
  destruct (ctz_step x 0x0000FFFF 4 16 eq_refl ltac:(lia) eq_refl ltac:(lia)) as (P1 & M1 & T1 & E1).
  { change (2 * 16) with 32. rewrite Z.mod_small; lia. }
  set (t1 := small_step x _ 4) in *. set (x1 := Z.shiftr x t1) in *. clearbody t1 x1.
  destruct (ctz_step x1 0x00FF 3 8 eq_refl ltac:(lia) eq_refl P1 M1) as (P2 & M2 & T2 & E2).
  set (t2 := small_step x1 _ 3) in *. set (x2 := Z.shiftr x1 t2) in *. clearbody t2 x2.
  destruct (ctz_step x2 0x0F 2 4 eq_refl ltac:(lia) eq_refl P2 M2) as (P3 & M3 & T3 & E3).
  set (t3 := small_step x2 _ 2) in *. set (x3 := Z.shiftr x2 t3) in *. clearbody t3 x3.
  destruct (ctz_step x3 0x3 1 2 eq_refl ltac:(lia) eq_refl P3 M3) as (P4 & M4 & T4 & E4).
  set (t4 := small_step x3 _ 1) in *. set (x4 := Z.shiftr x3 t4) in *. clearbody t4 x4.
  rewrite (wrap_small 32 (_ + t2)) by lia. rewrite (wrap_small 32 (_ + t3)) by lia.
  rewrite (wrap_small 32 (_ + t4)) by lia.
  change 3 with (Z.ones 2). rewrite Z.land_ones by lia.
  pose proof (Z.mod_pos_bound x4 (2 ^ 2) ltac:(lia)) as Hb. pose proof (Z.div_mod x4 (2 ^ 2) ltac:(lia)) as Hd.
  set (y := x4 mod 2 ^ 2) in *. clearbody y.
  assert (exists c, 0 <= c <= 1 /\ Z.land (u32 (2 - Z.shiftr y 1)) (u32 (- Z.b2z (Z.land y 1 =? 0))) = c /\ trailing x4 c)
    as (c & Hc & -> & Hcx).
  { assert (y = 1 \/ y = 2 \/ y = 3) as [->|[->| ->]] by (simpl in *; lia).
    - exists 0. split; [lia|]. split; [done|]. split; [lia|]. exists (2 * (x4 / 2 ^ 2)). lia.
    - exists 1. split; [lia|]. split; [done|]. split; [lia|]. exists (x4 / 2 ^ 2). lia.
    - exists 0. split; [lia|]. split; [done|]. split; [lia|]. exists (2 * (x4 / 2 ^ 2) + 1). lia. }
  rewrite wrap_small by lia. rewrite signed_small by lia.
  replace (t1 + t2 + t3 + t4 + c) with (t1 + (t2 + (t3 + (t4 + c)))) by lia. auto.
Qed.

(** The file's own functions are what the compiler's builtins promise to be. *)
#[export] Instance klib_builtins : Builtins :=
  {| builtin_clz := __clzsi2; builtin_ctz := __ctzsi2;
     builtin_clz_spec := clzsi2_correct; builtin_ctz_spec := ctzsi2_correct |}.

Lemma clzsi2_signed y : __clzsi2 (i32 y) = __clzsi2 (u32 y).
Proof. unfold __clzsi2. by rewrite wrap_signed, wrap_wrap by lia. Qed.

Lemma ctzsi2_signed y : __ctzsi2 (i32 y) = __ctzsi2 (u32 y).
Proof. unfold __ctzsi2. by rewrite wrap_signed, wrap_wrap by lia. Qed.

(** The halves of a signed 64-bit integer. *)
Lemma signed_halves y :
  0 <= y < 2 ^ 64 -> u32 (i64 y) = s_low y /\ i32 (Z.shiftr (i64 y) 32) = i32 (s_high y) /\
  (i32 (s_high y) =? 0) = (s_high y =? 0).
Proof.
  intros Hy. pose proof (s_high_range y).
  assert (i64 y = y \/ i64 y = y + (-1) * 2 ^ 64) as E.
  { unfold signed. rewrite wrap_small by done. destruct (y <? 2 ^ (64 - 1)); lia. }
  split; [|split].
  - unfold s_low, wrap. destruct E as [->| ->]; [done|]. change (2 ^ 64) with (2 ^ 32 * 2 ^ 32).
    by rewrite Z.mul_assoc, Z_mod_plus_full.
  - rewrite <- (signed_wrap 32 (Z.shiftr (i64 y) 32)). do 2 f_equal. unfold s_high, wrap.
    destruct E as [->| ->]; [done|]. rewrite !Z.shiftr_div_pow2 by lia. change (2 ^ 64) with (2 ^ 32 * 2 ^ 32).
    by rewrite Z.mul_assoc, Z.div_add, Z_mod_plus_full by lia.
  - destruct (Z.eqb_spec (s_high y) 0) as [->|Hne]; [done|]. apply Z.eqb_neq. intros E0.
    apply Hne. rewrite <- (wrap_small 32 (s_high y)) by done. rewrite <- wrap_signed, E0 by lia. done.
Qed.

Lemma clzdi2_correct y : 0 < y < 2 ^ 64 -> __clzdi2 (i64 y) = 63 - Z.log2 y.
Proof.
  intros Hy. unfold __clzdi2. destruct (signed_halves y ltac:(lia)) as (-> & -> & ->).
  pose proof (s_split y ltac:(lia)) as E. pose proof (s_low_range y). pose proof (s_high_range y).
  destruct (Z.eqb_spec (s_high y) 0) as [E0|].
  - rewrite E0 in *. assert (s_low y = y) as -> by lia. simpl Z.b2z.
    change (Z.lnot (- (1))) with 0. rewrite Z.land_0_r, Z.lor_0_l. change (u32 (- (1))) with (Z.ones 32).
    rewrite Z.land_ones, Z.mod_small by lia. rewrite clzsi2_signed, wrap_small, clzsi2_correct by lia.
    change (Z.land (- (1)) 32) with 32. pose proof (Z.log2_nonneg y).
    assert (Z.log2 y < 32) by (apply Z.log2_lt_pow2; lia). rewrite signed_small; lia.
  - simpl Z.b2z. change (Z.lnot (- (0))) with (-1). rewrite Z.land_m1_r. change (u32 (- (0))) with 0.
    rewrite Z.land_0_r, Z.lor_0_r. rewrite clzsi2_signed, wrap_signed, wrap_small, clzsi2_correct by lia.
    change (Z.land (- (0)) 32) with 0. pose proof (Z.log2_nonneg (s_high y)).
    assert (Z.log2 (s_high y) < 32) by (apply Z.log2_lt_pow2; lia).
    assert (Z.log2 (s_high y) = Z.log2 y - 32) as El.
    { rewrite s_high_div, <- Z.shiftr_div_pow2, Z.log2_shiftr by lia.
      assert (32 <= Z.log2 y) by (apply Z.log2_le_pow2; lia). lia. }
    rewrite signed_small; lia.
Qed.

Lemma trailing_high y h c :
  y = h * 2 ^ 32 -> trailing h c -> trailing y (c + 32).
Proof.
  intros -> (Hc & k & ->). split; [lia|]. exists k. rewrite Z.pow_add_r by lia. lia.
Qed.

Lemma trailing_low y h l c :
  y = h * 2 ^ 32 + l -> 0 < l < 2 ^ 32 -> trailing l c -> 0 <= c <= 31 /\ trailing y c.
Proof.
  intros -> Hl (Hc & k & ->).
  assert (c <= 31) as Hc'.
  { destruct (decide (c <= 31)); [done|]. exfalso.
    assert (2 ^ 32 <= 2 ^ c) by (apply Z.pow_le_mono_r; lia). assert (0 < 2 * k + 1) by nia. nia. }
  split; [lia|]. split; [done|]. exists (h * 2 ^ (31 - c) + k).
  assert (2 ^ 32 = 2 ^ c * (2 * 2 ^ (31 - c))) as ->; [|lia].
  rewrite <- Z.pow_succ_r, <- Z.pow_add_r by lia. f_equal. lia.
Qed.

Lemma ctzdi2_correct y : 0 < y < 2 ^ 64 -> trailing y (__ctzdi2 (i64 y)).
Proof.
  intros Hy. unfold __ctzdi2. destruct (signed_halves y ltac:(lia)) as (-> & -> & _).
  pose proof (s_split y ltac:(lia)) as E. pose proof (s_low_range y). pose proof (s_high_range y).
  destruct (Z.eqb_spec (s_low y) 0) as [E0|].
  - rewrite E0, Z.add_0_r in E. rewrite E0. simpl Z.b2z. change (- (1)) with (-1).
    rewrite Z.land_m1_r, Z.land_0_l, Z.lor_0_r.
    rewrite ctzsi2_signed, wrap_signed, wrap_small by lia. change (Z.land (-1) 32) with 32.
    pose proof (ctzsi2_correct (s_high y) ltac:(lia)) as Ht.
    destruct (trailing_low (s_high y) 0 (s_high y) _ ltac:(lia) ltac:(lia) Ht) as [Hc _].
    rewrite signed_small by lia. by apply (trailing_high y (s_high y)).
  - simpl Z.b2z. change (u32 (Z.lnot (- (0)))) with (Z.ones 32). rewrite Z.land_0_r, Z.lor_0_l.
    rewrite Z.land_ones, Z.mod_small by lia. rewrite ctzsi2_signed, wrap_small by lia.
    change (Z.land (- (0)) 32) with 0. rewrite Z.add_0_r.
    pose proof (ctzsi2_correct (s_low y) ltac:(lia)) as Ht.
    destruct (trailing_low y (s_high y) (s_low y) _ E ltac:(lia) Ht) as [Hc Hy'].
    by rewrite signed_small by lia.
Qed.

(** The counts of leading and trailing zero bits of 32- and 64-bit integers, given as
    signed ones, are the positions of the highest and the lowest 1-bit. *)
Theorem count_zeros_spec x y :
  0 < x < 2 ^ 32 -> 0 < y < 2 ^ 64 ->
  __clzsi2 (i32 x) = 31 - Z.log2 x /\ trailing x (__ctzsi2 (i32 x)) /\
  __clzdi2 (i64 y) = 63 - Z.log2 y /\ trailing y (__ctzdi2 (i64 y)).
Proof.
  intros Hx Hy.
  split; [rewrite clzsi2_signed, wrap_small by lia; by apply clzsi2_correct|].
  split; [rewrite ctzsi2_signed, wrap_small by lia; by apply ctzsi2_correct|].
  split; [by apply clzdi2_correct|by apply ctzdi2_correct].
Qed.

(** ** The properties on concrete integers *)

Lemma udivmoddi4_spec_witness :
  __udivmoddi4 0xFEDCBA9876543210 0x123456789A = Some (0xFEDCBA9876543210 / 0x123456789A, 0xFEDCBA9876543210 mod 0x123456789A) /\
  __udivdi3 0xFEDCBA9876543210 0x123456789A = Some 234881024 /\
  __umoddi3 0xFEDCBA9876543210 0x123456789A = Some (0xFEDCBA9876543210 mod 0x123456789A).
Proof. apply (udivmoddi4_spec 0xFEDCBA9876543210 0x123456789A); lia. Defined.

Lemma divmoddi4_spec_witness :
  __divmoddi4 (- 2 ^ 63) 7 = Some (-1317624576693539401, -1) /\
  __moddi3 (- 2 ^ 63) 7 = Some (-1) /\
  (7 <> 0 -> (- 2 ^ 63, 7) <> (- 2 ^ 63, -1) -> i64 (Z.quot (- 2 ^ 63) 7) = Z.quot (- 2 ^ 63) 7).
Proof. apply (divmoddi4_spec (- 2 ^ 63) 7); lia. Defined.

Lemma count_zeros_spec_witness :
  __clzsi2 (i32 40) = 26 /\ trailing 40 (__ctzsi2 (i32 40)) /\
  __clzdi2 (i64 (2 ^ 63)) = 0 /\ trailing (2 ^ 63) (__ctzdi2 (i64 (2 ^ 63))).
Proof. apply (count_zeros_spec 40 (2 ^ 63)); lia. Defined.
