(* ===== verification/FreeList.v ===== *)
(** * Linked free lists and disjoint memory regions

    The abstract view of the allocator's data: a region is an address and a length, a free
    list is the list of the regions its nodes describe, and a layout is a family of pairwise
    disjoint regions inside an area. *)

From stdpp Require Import prelude sorting.
From S2P Require Import Prelude Mem.

Abbreviation region := (Z * Z)%type.

(** ** Regions *)

Definition rdisj (r1 r2 : region) : Prop := r1.1 + r1.2 <= r2.1 \/ r2.1 + r2.2 <= r1.1.

#[export] Instance rdisj_sym : Symmetric rdisj.
Proof. unfold rdisj. intros ??. tauto. Qed.

#[export] Instance rdisj_dec r1 r2 : Decision (rdisj r1 r2).
Proof. unfold rdisj. apply _. Defined.

Definition rbound (lo hi : Z) (r : region) : Prop := lo <= r.1 /\ 0 < r.2 /\ r.1 + r.2 <= hi.

(** Pairwise disjoint regions inside [lo, hi). *)
Definition layout (lo hi : Z) (l : list region) : Prop :=
  Forall (rbound lo hi) l /\ pairwise rdisj l.

#[export] Instance layout_proper lo hi : Proper ((≡ₚ) ==> iff) (layout lo hi).
Proof. intros l1 l2 H. unfold layout. by rewrite H. Qed.

Definition covers (l : list region) (x : Z) : Prop := exists r, r ∈ l /\ inr r.1 r.2 x.

Lemma covers_cons r l x : covers (r :: l) x <-> inr r.1 r.2 x \/ covers l x.
Proof.
  unfold covers. split.
  - intros (r' & [->|Hr]%elem_of_cons & Hx); [by left|right; eauto].
  - intros [Hx|(r' & Hr & Hx)]; [exists r|exists r']; split; auto; apply elem_of_cons; auto.
Qed.

Lemma covers_app l1 l2 x : covers (l1 ++ l2) x <-> covers l1 x \/ covers l2 x.
Proof.
  unfold covers. split.
  - intros (r' & [Hr|Hr]%elem_of_app & Hx); [left|right]; eauto.
  - intros [(r' & Hr & Hx)|(r' & Hr & Hx)]; exists r'; split; auto; apply elem_of_app; auto.
Qed.

Lemma covers_nil x : ~ covers [] x.
Proof. intros (r & Hr & _). by apply elem_of_nil in Hr. Qed.

#[export] Instance covers_proper : Proper ((≡ₚ) ==> (=) ==> iff) covers.
Proof. intros l1 l2 H x ? <-. unfold covers. by setoid_rewrite H. Qed.

Section Layout.
Context (lo hi : Z).

Lemma layout_cons r l :
  layout lo hi (r :: l) <-> rbound lo hi r /\ Forall (rdisj r) l /\ layout lo hi l.
Proof. unfold layout. rewrite Forall_cons. simpl. tauto. Qed.

Lemma layout_app_l l1 l2 : layout lo hi (l1 ++ l2) -> layout lo hi l1.
Proof. unfold layout. rewrite Forall_app, pairwise_app. tauto. Qed.

Lemma layout_app_r l1 l2 : layout lo hi (l1 ++ l2) -> layout lo hi l2.
Proof. unfold layout. rewrite Forall_app, pairwise_app. tauto. Qed.

(** Cutting a region in two. *)
Lemma layout_split a n n1 l :
  0 < n1 < n -> layout lo hi ((a, n) :: l) ->
  layout lo hi ((a, n1) :: (a + n1, n - n1) :: l).
Proof.
  rewrite !layout_cons. unfold rbound, rdisj. rewrite Forall_cons. simpl.
  intros Hn (Hb & Hd & Hl). rewrite !Forall_forall in *.
  split_and!; try lia; try done; intros r Hr; specialize (Hd r Hr); simpl in *; lia.
Qed.

(** Joining two adjacent regions. *)
Lemma layout_join a n1 n2 l :
  layout lo hi ((a, n1) :: (a + n1, n2) :: l) ->
  layout lo hi ((a, n1 + n2) :: l).
Proof.
  rewrite !layout_cons. unfold rbound, rdisj. rewrite Forall_cons. simpl.
  intros (Hb1 & (_ & Hd1) & Hb2 & Hd2 & Hl). rewrite !Forall_forall in *.
  split_and!; try lia; try done.
  intros r Hr; specialize (Hd1 r Hr); specialize (Hd2 r Hr); simpl in *.
  destruct Hl as [Hl _]. rewrite Forall_forall in Hl. destruct (Hl r Hr). lia.
Qed.

(** Giving up part of a region. *)
Lemma layout_shrink a n a' n' l :
  a <= a' -> 0 < n' -> a' + n' <= a + n -> layout lo hi ((a, n) :: l) ->
  layout lo hi ((a', n') :: l).
Proof.
  rewrite !layout_cons. unfold rbound, rdisj. simpl.
  intros ??? (Hb & Hd & Hl). rewrite !Forall_forall in *.
  split_and!; try lia; try done. intros r Hr; specialize (Hd r Hr); simpl in *; lia.
Qed.

Lemma layout_drop r l : layout lo hi (r :: l) -> layout lo hi l.
Proof. rewrite layout_cons. tauto. Qed.

Lemma layout_bound r l : layout lo hi l -> r ∈ l -> rbound lo hi r.
Proof. intros [H _] Hr. rewrite Forall_forall in H. auto. Qed.

(** Two members of a layout at different addresses do not overlap. *)
Lemma layout_disj r1 r2 l : layout lo hi l -> r1 ∈ l -> r2 ∈ l -> r1 <> r2 -> rdisj r1 r2.
Proof.
  intros [_ Hp] (i & Hi)%list_elem_of_lookup (j & Hj)%list_elem_of_lookup Hne.
  destruct (Nat.lt_trichotomy i j) as [?|[->|?]].
  - by eapply pairwise_lookup.
  - congruence.
  - symmetry. by eapply pairwise_lookup.
Qed.
End Layout.

(** ** Linked lists of nodes *)

(** From [p], following the [next] fields, the nodes at the addresses of [l], each with the
    [size] field of [l], up to [q]. *)
Fixpoint node_list (m : mem) (p : Z) (l : list region) (q : Z) : Prop :=
  match l with
  | [] => p = q
  | (a, n) :: l => p = a /\ 0 < a /\ loadi32 m (a + 8) = n /\ node_list m (load64 m a) l q
  end.

(** The nodes (16 bytes each) do not overlap. *)
Definition spaced (r1 r2 : region) : Prop := r1.1 + 16 <= r2.1 \/ r2.1 + 16 <= r1.1.

#[export] Instance spaced_sym : Symmetric spaced.
Proof. unfold spaced. intros ??. tauto. Qed.

(** The bytes the nodes occupy. *)
Definition in_nodes (l : list region) (x : Z) : Prop := exists r, r ∈ l /\ inr r.1 16 x.

Definition first_addr (l : list region) (q : Z) : Z :=
  match l with [] => q | r :: _ => r.1 end.

Lemma in_nodes_app l1 l2 x : in_nodes (l1 ++ l2) x <-> in_nodes l1 x \/ in_nodes l2 x.
Proof.
  unfold in_nodes. split.
  - intros (r' & [Hr|Hr]%elem_of_app & Hx); [left|right]; eauto.
  - intros [(r' & Hr & Hx)|(r' & Hr & Hx)]; exists r'; split; auto; apply elem_of_app; auto.
Qed.

Lemma in_nodes_cons r l x : in_nodes (r :: l) x <-> inr r.1 16 x \/ in_nodes l x.
Proof.
  unfold in_nodes. split.
  - intros (r' & [->|Hr]%elem_of_cons & Hx); [by left|right; eauto].
  - intros [Hx|(r' & Hr & Hx)]; [exists r|exists r']; split; auto; apply elem_of_cons; auto.
Qed.

Lemma node_list_first m p l q : node_list m p l q -> p = first_addr l q.
Proof. destruct l as [|[a n] l]; simpl; tauto. Qed.

Lemma node_list_app m p l1 l2 q :
  node_list m p (l1 ++ l2) q <-> exists r, node_list m p l1 r /\ node_list m r l2 q.
Proof.
  revert p. induction l1 as [|[a n] l1 IH]; intros p; simpl.
  - split; [intros H; by exists p|by intros (r & -> & H)].
  - rewrite IH. split.
    + intros (Hp & Ha & Hn & r & H1 & H2). by exists r.
    + intros (r & (Hp & Ha & Hn & H1) & H2). split_and!; eauto.
Qed.

Lemma node_list_pos m p l q r : node_list m p l q -> r ∈ l -> 0 < r.1.
Proof.
  revert p. induction l as [|[a n] l IH]; intros p H Hr; [by apply elem_of_nil in Hr|].
  apply elem_of_cons in Hr as [->|Hr]; simpl in *; [tauto|].
  destruct H as (? & ? & ? & H). eauto.
Qed.

(** Following a list reads the [next] and [size] fields only: 12 bytes of each node. *)
Lemma node_list_frame12 m m' p l q :
  (forall r x, r ∈ l -> inr r.1 12 x -> load8 m' x = load8 m x) ->
  node_list m p l q -> node_list m' p l q.
Proof.
  revert p. induction l as [|[a n] l IH]; intros p H Hl; [done|].
  destruct Hl as (-> & Ha & Hn & Hl). simpl.
  assert (loadi32 m' (a + 8) = loadi32 m (a + 8)) as E1.
  { unfold loadi32. f_equal. apply load_le_ext. intros x Hx. apply (H (a, n)); [by left|].
    unfold inr; simpl in *; lia. }
  assert (load64 m' a = load64 m a) as E2.
  { apply load_le_ext. intros x Hx. apply (H (a, n)); [by left|]. unfold inr; simpl in *; lia. }
  rewrite E1, E2. split_and!; [done..|]. apply IH; [|done]. intros r x Hr. apply H. by right.
Qed.

Lemma node_list_frame m m' p l q :
  same_on (in_nodes l) m m' -> node_list m p l q -> node_list m' p l q.
Proof.
  intros H. apply node_list_frame12. intros r x Hr Hx. apply H. exists r. split; [done|].
  unfold inr in *. lia.
Qed.

(** Overwriting the [next] field of the last node redirects the end of the list. *)
Lemma node_list_set_next m p l b n q q' :
  pairwise spaced (l ++ [(b, n)]) -> 0 <= q' < 2 ^ 64 ->
  node_list m p (l ++ [(b, n)]) q -> node_list (store64 m b q') p (l ++ [(b, n)]) q'.
Proof.
  intros (_ & _ & Hs)%pairwise_app Hq. rewrite !node_list_app.
  intros (r & Hl & (-> & Hb & Hn & _)). exists b. split.
  - eapply node_list_frame; [|done]. intros x (r & Hr & Hx).
    apply store_le_outside. rewrite Forall_forall in Hs. specialize (Hs r Hr).
    rewrite Forall_singleton in Hs. unfold spaced, inr in *. simpl in *. lia.
  - simpl. split_and!; [done..| |].
    + by rewrite loadi32_store64_ne by lia.
    + rewrite load64_store64. by apply wrap_small.
Qed.

Lemma layout_spaced lo hi l :
  Forall (fun r => 16 <= r.2) l -> layout lo hi l -> pairwise spaced l.
Proof.
  intros Hn [_ Hp]. rewrite Forall_forall in Hn. eapply pairwise_impl; [|done].
  intros r1 r2 Hr1 Hr2 Hd. apply Hn in Hr1, Hr2. unfold rdisj, spaced in *. lia.
Qed.

(** *** Nodes of a layout *)

(** The sizes the heap allocator keeps: multiples of 16, so a node always fits its header. *)
Definition sized (r : region) : Prop := 16 <= r.2 /\ r.2 mod 16 = 0.

Lemma sized_ge l : Forall sized l -> Forall (fun r => 16 <= r.2) l.
Proof. intros H. eapply Forall_impl; [exact H|]. by intros r [? _]. Qed.

Lemma in_nodes_covers l x : Forall sized l -> in_nodes l x -> covers l x.
Proof.
  rewrite Forall_forall. intros Hs (r & Hr & Hx). exists r. split; [done|].
  destruct (Hs r Hr). unfold inr in *. lia.
Qed.

(** The regions of the rest of a layout stay clear of one of its members. *)
Lemma layout_middle lo hi l1 r l2 x :
  layout lo hi (l1 ++ r :: l2) -> covers (l1 ++ l2) x -> ~ inr r.1 r.2 x.
Proof.
  intros HL (r' & Hr' & Hx) Hx'.
  rewrite <- Permutation_middle in HL. apply layout_cons in HL as (_ & Hd & _).
  rewrite Forall_forall in Hd. specialize (Hd r' Hr').
  unfold rdisj, inr in *. lia.
Qed.

(** A change inside one member leaves the node lists of the others alone. *)
Lemma layout_frame lo hi l1 a n l2 l m m' p q :
  layout lo hi (l1 ++ (a, n) :: l2) -> Forall sized l -> (forall r, r ∈ l -> r ∈ l1 ++ l2) ->
  only_in (inr a n) m m' -> node_list m p l q -> node_list m' p l q.
Proof.
  intros HL Hs Hin Hm. apply node_list_frame. intros x Hx. apply Hm. intros Hx'.
  apply in_nodes_covers in Hx as (r & Hr & Hx); [|done].
  eapply layout_middle; [exact HL| |exact Hx']. exists r. auto.
Qed.

(** The list after its prefix [l1] was redirected to [q'] by a store to its last node. *)
Definition relink (m : mem) (l1 : list region) (q' : Z) : mem :=
  match last l1 with Some r => store64 m r.1 q' | None => m end.

Lemma relink_spec m p l1 q q' :
  pairwise spaced l1 -> 0 <= q' < 2 ^ 64 -> node_list m p l1 q ->
  node_list (relink m l1 q') (first_addr l1 q') l1 q'.
Proof.
  intros Hs Hq Hl. unfold relink. destruct l1 as [|[b n] l1 _] using rev_ind; [done|].
  rewrite last_snoc. simpl.
  assert (first_addr (l1 ++ [(b, n)]) q' = p) as ->.
  { apply node_list_first in Hl. subst p. by destruct l1. }
  by eapply node_list_set_next.
Qed.

Lemma relink_only_in P m m' l1 q' :
  only_in P m m' -> (forall r x, last l1 = Some r -> inr r.1 16 x -> P x) ->
  only_in P m (relink m' l1 q').
Proof.
  intros H HP. unfold relink. destruct (last l1) as [r|] eqn:E; [|done].
  apply only_in_store; [done|]. intros x Hx. apply (HP r); [done|]. unfold inr; simpl in *; lia.
Qed.

(** *** Local changes of a list *)

Lemma spaced_nodes l1 l2 x :
  Forall (fun r => Forall (spaced r) l2) l1 -> in_nodes l1 x -> ~ in_nodes l2 x.
Proof.
  rewrite Forall_forall. intros H (r1 & Hr1 & Hx1) (r2 & Hr2 & Hx2).
  specialize (H r1 Hr1). rewrite Forall_forall in H. specialize (H r2 Hr2).
  unfold spaced, inr in *. lia.
Qed.

Lemma in_nodes_last l r x : last l = Some r -> inr r.1 16 x -> in_nodes l x.
Proof. intros [l' ->]%last_Some Hx. exists r. split; [apply elem_of_app; right; by left|done]. Qed.

(** A node pushed in front. *)
Lemma node_list_push m m' p l q h n :
  only_in (inr h 16) m m' -> 0 < h -> load64 m' h = p -> loadi32 m' (h + 8) = n ->
  Forall (spaced (h, n)) l -> node_list m p l q -> node_list m' h ((h, n) :: l) q.
Proof.
  intros Hm Hh Hn Hs Hsp Hl. simpl. split_and!; [done..|]. rewrite Hn.
  eapply node_list_frame; [|done]. eapply only_in_same_on; [done|]. intros x Hx Hx'.
  eapply (spaced_nodes [(h, n)] l); [by rewrite Forall_singleton| |done].
  exists (h, n). split; [by left|done].
Qed.

(** The [size] field of a node overwritten. *)
Lemma node_list_resize m p l1 b n n' l2 q :
  pairwise spaced (l1 ++ (b, n) :: l2) -> - 2 ^ 31 <= n' < 2 ^ 31 ->
  node_list m p (l1 ++ (b, n) :: l2) q ->
  node_list (store32 m (b + 8) n') p (l1 ++ (b, n') :: l2) q.
Proof.
  intros (_ & (Hs2 & _) & Hs1)%pairwise_app Hn. rewrite !node_list_app.
  intros (r & H1 & (-> & Hb & _ & H2)). exists b.
  assert (only_in (inr b 16) m (store32 m (b + 8) n')) as Hm.
  { apply only_in_store; [done|]. unfold inr; simpl; lia. }
  assert (forall l, Forall (spaced (b, n)) l -> same_on (in_nodes l) m (store32 m (b + 8) n')) as Hf.
  { intros l Hl. eapply only_in_same_on; [done|]. intros x Hx Hx'.
    eapply (spaced_nodes [(b, n)] l); [by rewrite Forall_singleton| |done].
    exists (b, n). split; [by left|done]. }
  split.
  - eapply node_list_frame; [|done]. apply Hf. rewrite Forall_forall in *. intros r Hr.
    specialize (Hs1 r Hr). apply Forall_cons in Hs1 as [Hs1 _]. by symmetry.
  - simpl. rewrite load64_store32_ne, loadi32_store32, signed_small by lia.
    split_and!; [done..|]. eapply node_list_frame; [|done]. by apply Hf.
Qed.

(** A node taken out of the middle. *)
Lemma node_list_unlink m p l1 a n l2 q :
  pairwise spaced (l1 ++ (a, n) :: l2) -> node_list m p (l1 ++ (a, n) :: l2) q ->
  node_list (relink m l1 (load64 m a)) (first_addr l1 (load64 m a)) (l1 ++ l2) q.
Proof.
  intros (Hs1 & (_ & Hs2) & Hs)%pairwise_app. rewrite !node_list_app.
  intros (r & H1 & (-> & Ha & _ & H2)). exists (load64 m a). split.
  - eapply relink_spec; [done|apply (load_le_range 8)|done].
  - eapply node_list_frame; [|done]. apply (only_in_same_on (in_nodes l1)).
    + apply relink_only_in; [done|]. intros r x. apply in_nodes_last.
    + intros x Hx Hx'. eapply spaced_nodes; [|exact Hx'|exact Hx].
      eapply Forall_impl; [exact Hs|]. intros r Hr. by apply Forall_cons in Hr as [_ Hr].
Qed.

(** *** The abstract free list: neighbours of an address, sizes, removal *)

(** The loop of [kfree] over a free list: the highest node below [p] and the lowest above,
    starting from the candidates [best] (0 is NULL). *)
Fixpoint below (p : Z) (l : list region) (best : Z) : Z :=
  match l with
  | [] => best
  | (h, _) :: l =>
      below p l
        (if h <? p then if best =? 0 then h else if best <? h then h else best else best)
  end.

Fixpoint above (p : Z) (l : list region) (best : Z) : Z :=
  match l with
  | [] => best
  | (h, _) :: l =>
      above p l
        (if p <? h then if best =? 0 then h else if h <? best then h else best else best)
  end.

Fixpoint size_at (a : Z) (l : list region) : Z :=
  match l with
  | [] => 0
  | (b, n) :: l => if b =? a then n else size_at a l
  end.

Definition set_size_at (a n : Z) (l : list region) : list region :=
  (fun r => if r.1 =? a then (a, n) else r) <$> l.

Definition remove_at (a : Z) (l : list region) : list region :=
  filter (fun r => r.1 <> a) l.

Lemma below_spec p l best :
  Forall (fun r => 0 < r.1) l -> 0 <= best ->
  let r := below p l best in
  best <= r /\ (r = best \/ r < p /\ exists n, (r, n) ∈ l) /\
  (forall b n, (b, n) ∈ l -> b < p -> b <= r).
Proof.
  revert best. induction l as [|[a n] l IH]; intros best Hpos Hb; cbn zeta.
  - simpl. split_and!; [done|by left|]. intros b n Hin. by apply elem_of_nil in Hin.
  - apply Forall_cons in Hpos as [Ha Hpos]. simpl in Ha.
    cbn [below]. set (best' := if a <? p then _ else best).
    assert (best <= best' /\ 0 <= best' /\
      ((best' = best /\ (a < p -> a <= best')) \/ best' = a /\ a < p)) as (H1 & H2 & H3).
    { unfold best'. destruct (Z.ltb_spec a p), (Z.eqb_spec best 0), (Z.ltb_spec best a); lia. }
    destruct (IH best' Hpos H2) as (I1 & I2 & I3). split_and!; [lia| |].
    + destruct I2 as [->|(Hs & k & Hk)].
      * destruct H3 as [[-> _]|[-> Hs]]; [by left|right]. split; [done|]. exists n. by left.
      * right. split; [done|]. exists k. by right.
    + intros b k [[= -> ->]|Hin]%elem_of_cons Hs; [|by eapply I3].
      destruct H3 as [[_ H3]|[-> _]]; [specialize (H3 Hs)|]; lia.
Qed.

Lemma above_spec p l best :
  Forall (fun r => 0 < r.1) l -> 0 <= best ->
  let r := above p l best in
  (best <> 0 -> 0 < r <= best) /\ (r = best \/ p < r /\ exists n, (r, n) ∈ l) /\
  (forall b n, (b, n) ∈ l -> p < b -> 0 < r <= b).
Proof.
  revert best. induction l as [|[a n] l IH]; intros best Hpos Hb; cbn zeta.
  - simpl. split_and!; [lia|by left|]. intros b n Hin. by apply elem_of_nil in Hin.
  - apply Forall_cons in Hpos as [Ha Hpos]. simpl in Ha.
    cbn [above]. set (best' := if p <? a then _ else best).
    assert ((best <> 0 -> 0 < best' <= best) /\ 0 <= best' /\
      ((best' = best /\ (p < a -> 0 < best' <= a)) \/ best' = a /\ p < a)) as (H1 & H2 & H3).
    { unfold best'. destruct (Z.ltb_spec p a), (Z.eqb_spec best 0), (Z.ltb_spec a best); lia. }
    destruct (IH best' Hpos H2) as (I1 & I2 & I3). split_and!.
    + intros Hne. specialize (H1 Hne). lia.
    + destruct I2 as [->|(Hs & k & Hk)].
      * destruct H3 as [[-> _]|[-> Hs]]; [by left|right]. split; [done|]. exists n. by left.
      * right. split; [done|]. exists k. by right.
    + intros b k [[= -> ->]|Hin]%elem_of_cons Hs; [|by eapply I3].
      destruct H3 as [[-> H3]|[-> _]]; [specialize (H3 Hs)|]; lia.
Qed.

Section Spaced.
Context (l1 l2 : list region) (a n : Z).
Context (Hsp : pairwise spaced (l1 ++ (a, n) :: l2)).

Lemma spaced_ne_l r : r ∈ l1 -> r.1 <> a.
Proof.
  apply pairwise_app in Hsp as (_ & _ & H). rewrite Forall_forall in H. intros Hr.
  specialize (H r Hr). apply Forall_cons in H as [H _]. unfold spaced in H; simpl in H; lia.
Qed.

Lemma spaced_ne_r r : r ∈ l2 -> r.1 <> a.
Proof.
  apply pairwise_app in Hsp as (_ & [H _] & _). rewrite Forall_forall in H. intros Hr.
  specialize (H r Hr). unfold spaced in H; simpl in H; lia.
Qed.

Lemma size_at_split : size_at a (l1 ++ (a, n) :: l2) = n.
Proof.
  pose proof spaced_ne_l as H. clear Hsp. induction l1 as [|[b k] l IH]; simpl.
  - by rewrite Z.eqb_refl.
  - destruct (Z.eqb_spec b a) as [->|_].
    + specialize (H (a, k) ltac:(by left)). done.
    + apply IH. intros r Hr. apply H. by right.
Qed.

Lemma set_size_at_split n' : set_size_at a n' (l1 ++ (a, n) :: l2) = l1 ++ (a, n') :: l2.
Proof.
  unfold set_size_at. rewrite fmap_app, fmap_cons. simpl. rewrite Z.eqb_refl.
  assert (forall l : list region, (forall r, r ∈ l -> r.1 <> a) ->
    ((fun r : region => if r.1 =? a then (a, n') else r) <$> l) = l) as Hid.
  { induction l as [|r l IH]; intros H; [done|]. rewrite fmap_cons, IH.
    - destruct (Z.eqb_spec r.1 a); [|done]. by destruct (H r ltac:(by left)).
    - intros r' Hr'. apply H. by right. }
  rewrite !Hid; [done|apply spaced_ne_r|apply spaced_ne_l].
Qed.

Lemma remove_at_split : remove_at a (l1 ++ (a, n) :: l2) = l1 ++ l2.
Proof.
  unfold remove_at. rewrite filter_app, filter_cons_False by (simpl; tauto).
  assert (forall l : list region, (forall r, r ∈ l -> r.1 <> a) -> filter (fun r : region => r.1 <> a) l = l) as Hid.
  { induction l as [|r l IH]; intros H; [done|]. rewrite filter_cons_True, IH; [done|..].
    - intros r' Hr'. apply H. by right.
    - apply H. by left. }
  rewrite !Hid; [done|apply spaced_ne_r|apply spaced_ne_l].
Qed.
End Spaced.

#[export] Instance set_size_at_proper a n : Proper ((≡ₚ) ==> (≡ₚ)) (set_size_at a n).
Proof. intros l1 l2 H. unfold set_size_at. by rewrite H. Qed.

#[export] Instance remove_at_proper a : Proper ((≡ₚ) ==> (≡ₚ)) (remove_at a).
Proof. intros l1 l2 H. unfold remove_at. by rewrite H. Qed.

(** A candidate returned by [below] or [above] is a member unless it is NULL. *)
Lemma below_member p l :
  Forall (fun r => 0 < r.1) l -> below p l 0 <> 0 ->
  below p l 0 < p /\ exists n, (below p l 0, n) ∈ l.
Proof.
  intros Hp Hne. destruct (below_spec p l 0 Hp ltac:(lia)) as (_ & [?|?] & _); [done|done].
Qed.

Lemma above_member p l :
  Forall (fun r => 0 < r.1) l -> above p l 0 <> 0 ->
  p < above p l 0 /\ exists n, (above p l 0, n) ∈ l.
Proof.
  intros Hp Hne. destruct (above_spec p l 0 Hp ltac:(lia)) as (_ & [?|?] & _); [done|done].
Qed.

Lemma node_list_size m p l q a n : node_list m p l q -> (a, n) ∈ l -> loadi32 m (a + 8) = n.
Proof.
  revert p. induction l as [|[b k] l IH]; intros p H Hr; [by apply elem_of_nil in Hr|].
  destruct H as (_ & _ & Hn & H). apply elem_of_cons in Hr as [[= -> ->]|Hr]; [done|eauto].
Qed.

Lemma spaced_resize l1 b n n' l2 :
  pairwise spaced (l1 ++ (b, n) :: l2) -> pairwise spaced (l1 ++ (b, n') :: l2).
Proof.
  rewrite !pairwise_app. intros (H1 & H2 & H3). split; [done|]. split; [exact H2|].
  eapply Forall_impl; [exact H3|]. intros r. by rewrite !Forall_cons.
Qed.

(** The part of a memory a local change of a list may touch. *)
Lemma only_in_nodes P m m' l a n :
  only_in P m m' -> Forall sized l -> (a, n) ∈ l -> (forall x, covers l x -> P x) ->
  forall off len v, 0 <= off -> off + Z.of_nat len <= 16 -> only_in P m (store_le len m' (a + off) v).
Proof.
  intros Hm Hs Hin HP off len v Ho Hl. apply only_in_store; [done|].
  intros x Hx. apply HP, in_nodes_covers; [done|]. exists (a, n). split; [done|].
  unfold inr. simpl. lia.
Qed.

Lemma relink_covers P m m' l l1 q :
  only_in P m m' -> Forall sized l -> (forall r, r ∈ l1 -> exists n, (r.1, n) ∈ l) ->
  (forall x, covers l x -> P x) -> only_in P m (relink m' l1 q).
Proof.
  intros Hm Hs Hin HP. apply relink_only_in; [done|]. intros r x [l' ->]%last_Some Hx.
  apply HP, in_nodes_covers; [done|]. destruct (Hin r) as [n Hn].
  { apply elem_of_app; right; by left. }
  by exists (r.1, n).
Qed.

(** *** Nodes taken out of a list, up to the order of the list *)

Lemma spaced_perm1 l b bn :
  pairwise spaced l -> (b, bn) ∈ l ->
  exists rest, l ≡ₚ (b, bn) :: rest /\ (forall n, set_size_at b n l ≡ₚ (b, n) :: rest) /\
    remove_at b l ≡ₚ rest.
Proof.
  intros Hsp (l1 & l2 & ->)%list_elem_of_split. exists (l1 ++ l2).
  split; [solve_Permutation|]. split.
  - intros n. rewrite (set_size_at_split _ _ _ _ Hsp). solve_Permutation.
  - by rewrite (remove_at_split _ _ _ _ Hsp).
Qed.

Lemma spaced_perm2 l b bn a an :
  pairwise spaced l -> (b, bn) ∈ l -> (a, an) ∈ l -> b <> a ->
  exists rest, l ≡ₚ (b, bn) :: (a, an) :: rest /\
    forall n, remove_at a (set_size_at b n l) ≡ₚ (b, n) :: rest.
Proof.
  intros Hsp Hb Ha Hne. destruct (spaced_perm1 _ _ _ Hsp Hb) as (rest & E & Es & _).
  rewrite E in Ha. apply elem_of_cons in Ha as [[= ? ?]|Ha]; [congruence|].
  apply list_elem_of_split in Ha as (l1 & l2 & ->). rewrite E in Hsp.
  exists (l1 ++ l2). split; [rewrite E; solve_Permutation|]. intros n. rewrite Es.
  assert (pairwise spaced (((b, n) :: l1) ++ (a, an) :: l2)) as Hsp' by apply Hsp.
  pose proof (remove_at_split ((b, n) :: l1) _ _ _ Hsp') as Er. simpl in Er. by rewrite Er.
Qed.

(** *** How many regions fit: the bound behind the fuel of every loop over a list *)

Lemma layout_sorted_length lo hi k l :
  lo <= hi -> 0 < k -> Forall (fun r => k <= r.2) l -> layout lo hi l ->
  StronglySorted (fun r1 r2 : region => r1.1 <= r2.1) l ->
  k * Z.of_nat (length l) <= hi - lo.
Proof.
  revert lo. induction l as [|r l IH]; intros lo Hlh Hk Hs HL Hso; simpl; [lia|].
  apply Forall_cons in Hs as [Hr Hs]. apply layout_cons in HL as ((Hb1 & Hb2 & Hb3) & Hd & HL).
  apply StronglySorted_inv in Hso as [Hso Hle].
  assert (layout (r.1 + r.2) hi l) as HL'.
  { destruct HL as [HL Hp]. split; [|done]. rewrite Forall_forall in *. intros r' Hr'.
    specialize (HL _ Hr'). specialize (Hd _ Hr'). specialize (Hle _ Hr').
    unfold rbound, rdisj in *. lia. }
  specialize (IH (r.1 + r.2) Hb3 Hk Hs HL' Hso). lia.
Qed.

#[local] Instance start_le_dec : RelDecision (fun r1 r2 : region => r1.1 <= r2.1).
Proof. intros r1 r2. apply _. Defined.

#[local] Instance start_le_total : Total (fun r1 r2 : region => r1.1 <= r2.1).
Proof. intros r1 r2. lia. Qed.

#[local] Instance start_le_trans : Transitive (fun r1 r2 : region => r1.1 <= r2.1).
Proof. intros r1 r2 r3. lia. Qed.

Lemma layout_length lo hi k l :
  lo <= hi -> 0 < k -> Forall (fun r => k <= r.2) l -> layout lo hi l ->
  k * Z.of_nat (length l) <= hi - lo.
Proof.
  intros Hlh Hk Hs HL.
  pose proof (merge_sort_Permutation (fun r1 r2 : region => r1.1 <= r2.1) l) as Hp.
  rewrite <- (Permutation_length Hp). apply layout_sorted_length; [done..| | |].
  - by rewrite Hp.
  - by rewrite Hp.
  - apply StronglySorted_merge_sort; apply _.
Qed.
