(* ===== verification/Kernel.v ===== *)
(** * Kernel state and locks: kernel/include/common.h and the globals of kernel/src/pmm.c *)

From stdpp Require Import prelude.
From S2P Require Import Prelude Mem KString.

(** ** Globals of pmm.c *)

(** [pagelist_t]: the page list of one processor and its lock. *)
Record pagelist_t : Type := mk_pagelist { pagehead : Z; pl_lock : Z }.

(** Memory and the globals [head], [heap_lock] and [cpupagelist]. *)
Record kstate : Type := mk_kstate {
  k_mem : mem;
  head : Z;
  heap_lock : Z;
  cpupagelist : list pagelist_t;
}.

#[export] Instance kstate_has_mem : HasMem kstate :=
  {| st_mem := k_mem;
     st_upd := fun f s => mk_kstate (f (k_mem s)) (head s) (heap_lock s) (cpupagelist s);
     st_mem_upd := fun _ _ => eq_refl |}.

Definition set_head (p : Z) : M kstate unit :=
  modify (fun s => mk_kstate (k_mem s) p (heap_lock s) (cpupagelist s)).

(** [cpupagelist[i]], an array of 16 elements. *)
Definition cpu_slot (i : Z) : M kstate pagelist_t := fun s =>
  if i <? 0 then Fault OutOfBounds
  else match cpupagelist s !! Z.to_nat i with
       | Some pl => Done pl s
       | None => Fault OutOfBounds
       end.

Definition set_cpu_slot (i : Z) (pl : pagelist_t) : M kstate unit :=
  modify (fun s => mk_kstate (k_mem s) (head s) (heap_lock s) (<[Z.to_nat i := pl]> (cpupagelist s))).

Definition get_pagehead (i : Z) : M kstate Z := pl ← cpu_slot i; mret (pagehead pl).

Definition set_pagehead (i : Z) (p : Z) : M kstate unit :=
  pl ← cpu_slot i; set_cpu_slot i (mk_pagelist p (pl_lock pl)).

(** ** Structures in memory

    [pageheader_t], [pagefreenode_t], [header_t] and [freenode_t] are 16 bytes each: an
    8-byte pointer ([next], [nothing]), a 4-byte [int size] and a 4-byte last field
    ([unsigned pagefreehead_index] or [int magic]). *)

Definition node_size : Z := 16.

Definition get_next (p : Z) : M kstate Z := read_le 8 p 0.
Definition set_next (p v : Z) : M kstate unit := write_le 8 p 0 v.
Definition get_size (p : Z) : M kstate Z := x ← read_le 4 p 8; mret (i32 x).
Definition set_size (p v : Z) : M kstate unit := write_le 4 p 8 v.
Definition get_magic (p : Z) : M kstate Z := x ← read_le 4 p 12; mret (i32 x).
Definition set_magic (p v : Z) : M kstate unit := write_le 4 p 12 v.
Definition get_index (p : Z) : M kstate Z := read_le 4 p 12.
Definition set_index (p v : Z) : M kstate unit := write_le 4 p 12 v.

(** ** Spin locks *)

Inductive lock_id : Type := HeapLock | CpuLock (i : Z).

Definition NOPE : Z := 1.
Definition YES : Z := 0.

Definition read_lock (l : lock_id) : M kstate Z :=
  match l with
  | HeapLock => gets heap_lock
  | CpuLock i => pl ← cpu_slot i; mret (pl_lock pl)
  end.

Definition write_lock (l : lock_id) (v : Z) : M kstate unit :=
  match l with
  | HeapLock => modify (fun s => mk_kstate (k_mem s) (head s) v (cpupagelist s))
  | CpuLock i => pl ← cpu_slot i; set_cpu_slot i (mk_pagelist (pagehead pl) v)
  end.

(** am/src/x86/qemu/mpe.c: the value the word held, exchanged for [newval]. *)
Definition atomic_xchg (l : lock_id) (newval : Z) : M kstate Z :=
  old ← read_lock l; _ ← write_lock l newval; mret old.

Fixpoint lock_spin (fuel : nat) (l : lock_id) : M kstate unit :=
  match fuel with
  | O => raise OutOfFuel
  | S k => old ← atomic_xchg l NOPE; if old =? 0 then mret tt else lock_spin k l
  end.

Definition lock (fuel : nat) (l : lock_id) : M kstate unit :=
  _ ← lock_spin fuel l; v ← read_lock l; c_assert (v =? NOPE).

Definition unlock (l : lock_id) : M kstate unit := _ ← atomic_xchg l YES; mret tt.

Definition lockinit (l : lock_id) : M kstate unit := write_lock l YES.

(** ** Symbolic execution of the accessors *)

Section Wp.
Implicit Types (s : kstate).

Lemma wp_get_next p s (Q : Z -> kstate -> Prop) :
  p <> 0 -> Q (load64 (k_mem s) p) s -> wp (get_next p) s Q.
Proof. intros. apply wp_read; [done|]. by rewrite Z.add_0_r. Qed.

Lemma wp_set_next p v s (Q : unit -> kstate -> Prop) :
  p <> 0 -> Q tt (st_upd (fun m => store64 m p v) s) -> wp (set_next p v) s Q.
Proof. intros. apply wp_write; [done|]. by rewrite Z.add_0_r. Qed.

Lemma wp_get_size p s (Q : Z -> kstate -> Prop) :
  p <> 0 -> Q (loadi32 (k_mem s) (p + 8)) s -> wp (get_size p) s Q.
Proof. intros. by apply wp_bind, wp_read, wp_ret. Qed.

Lemma wp_set_size p v s (Q : unit -> kstate -> Prop) :
  p <> 0 -> Q tt (st_upd (fun m => store32 m (p + 8) v) s) -> wp (set_size p v) s Q.
Proof. intros. by apply wp_write. Qed.

Lemma wp_get_magic p s (Q : Z -> kstate -> Prop) :
  p <> 0 -> Q (loadi32 (k_mem s) (p + 12)) s -> wp (get_magic p) s Q.
Proof. intros. by apply wp_bind, wp_read, wp_ret. Qed.

Lemma wp_set_magic p v s (Q : unit -> kstate -> Prop) :
  p <> 0 -> Q tt (st_upd (fun m => store32 m (p + 12) v) s) -> wp (set_magic p v) s Q.
Proof. intros. by apply wp_write. Qed.

Lemma wp_get_index p s (Q : Z -> kstate -> Prop) :
  p <> 0 -> Q (load32 (k_mem s) (p + 12)) s -> wp (get_index p) s Q.
Proof. intros. by apply wp_read. Qed.

Lemma wp_set_index p v s (Q : unit -> kstate -> Prop) :
  p <> 0 -> Q tt (st_upd (fun m => store32 m (p + 12) v) s) -> wp (set_index p v) s Q.
Proof. intros. by apply wp_write. Qed.

Lemma wp_set_head p s (Q : unit -> kstate -> Prop) :
  Q tt (mk_kstate (k_mem s) p (heap_lock s) (cpupagelist s)) -> wp (set_head p) s Q.
Proof. intros HQ. exact (wp_modify _ s Q HQ). Qed.

Lemma wp_cpu_slot i pl s (Q : pagelist_t -> kstate -> Prop) :
  0 <= i -> cpupagelist s !! Z.to_nat i = Some pl -> Q pl s -> wp (cpu_slot i) s Q.
Proof.
  intros Hi Hl HQ. apply wp_eq with pl s; [|done]. unfold cpu_slot.
  destruct (Z.ltb_spec i 0); [lia|]. by rewrite Hl.
Qed.

Lemma wp_get_pagehead i pl s (Q : Z -> kstate -> Prop) :
  0 <= i -> cpupagelist s !! Z.to_nat i = Some pl -> Q (pagehead pl) s ->
  wp (get_pagehead i) s Q.
Proof. intros. apply wp_bind. eapply wp_cpu_slot; eauto. Qed.

Lemma wp_set_pagehead i p pl s (Q : unit -> kstate -> Prop) :
  0 <= i -> cpupagelist s !! Z.to_nat i = Some pl ->
  Q tt (mk_kstate (k_mem s) (head s) (heap_lock s)
          (<[Z.to_nat i := mk_pagelist p (pl_lock pl)]> (cpupagelist s))) ->
  wp (set_pagehead i p) s Q.
Proof. intros. apply wp_bind. eapply wp_cpu_slot; eauto. Qed.

(** An acquired lock: the word goes from 0 to 1 in one exchange. *)
Lemma wp_lock_heap fuel s (Q : unit -> kstate -> Prop) :
  (0 < fuel)%nat -> heap_lock s = 0 ->
  Q tt (mk_kstate (k_mem s) (head s) 1 (cpupagelist s)) -> wp (lock fuel HeapLock) s Q.
Proof.
  intros Hf Hl HQ. destruct fuel as [|k]; [lia|].
  unfold lock. cbn [lock_spin]. unfold atomic_xchg, read_lock, write_lock.
  wp_steps. rewrite Hl. wp_steps. done.
Qed.

Lemma wp_unlock_heap s (Q : unit -> kstate -> Prop) :
  Q tt (mk_kstate (k_mem s) (head s) 0 (cpupagelist s)) -> wp (unlock HeapLock) s Q.
Proof. intros HQ. unfold unlock, atomic_xchg, read_lock, write_lock. by wp_steps. Qed.

Lemma wp_lock_cpu fuel i pl s (Q : unit -> kstate -> Prop) :
  (0 < fuel)%nat -> 0 <= i -> cpupagelist s !! Z.to_nat i = Some pl -> pl_lock pl = 0 ->
  Q tt (mk_kstate (k_mem s) (head s) (heap_lock s)
          (<[Z.to_nat i := mk_pagelist (pagehead pl) 1]> (cpupagelist s))) ->
  wp (lock fuel (CpuLock i)) s Q.
Proof.
  intros Hf Hi Hl H0 HQ. destruct fuel as [|k]; [lia|].
  pose proof (lookup_lt_Some _ _ _ Hl).
  unfold lock. cbn [lock_spin]. unfold atomic_xchg, read_lock, write_lock.
  repeat (apply wp_bind || (eapply wp_cpu_slot; [done|eauto|]) || apply wp_ret || apply wp_modify).
  rewrite H0. simpl. apply wp_ret, wp_bind, wp_bind.
  eapply wp_cpu_slot; [done|by apply list_lookup_insert_eq|].
  apply wp_ret. by apply wp_assert.
Qed.

Lemma wp_unlock_cpu i pl s (Q : unit -> kstate -> Prop) :
  0 <= i -> cpupagelist s !! Z.to_nat i = Some pl ->
  Q tt (mk_kstate (k_mem s) (head s) (heap_lock s)
          (<[Z.to_nat i := mk_pagelist (pagehead pl) 0]> (cpupagelist s))) ->
  wp (unlock (CpuLock i)) s Q.
Proof.
  intros Hi Hl HQ. unfold unlock, atomic_xchg, read_lock, write_lock.
  repeat (apply wp_bind || (eapply wp_cpu_slot; [done|eauto|]) || apply wp_ret || apply wp_modify).
  done.
Qed.
End Wp.

(** One step of a kernel computation; the side conditions are pointers that are not null. *)
Ltac k_step :=
  lazymatch goal with
  | |- wp (get_next _) _ _ => apply wp_get_next; [try lia|]
  | |- wp (set_next _ _) _ _ => apply wp_set_next; [try lia|]
  | |- wp (get_size _) _ _ => apply wp_get_size; [try lia|]
  | |- wp (set_size _ _) _ _ => apply wp_set_size; [try lia|]
  | |- wp (get_magic _) _ _ => apply wp_get_magic; [try lia|]
  | |- wp (set_magic _ _) _ _ => apply wp_set_magic; [try lia|]
  | |- wp (get_index _) _ _ => apply wp_get_index; [try lia|]
  | |- wp (set_index _ _) _ _ => apply wp_set_index; [try lia|]
  | |- wp (set_head _) _ _ => apply wp_set_head
  | |- wp (memset _ _ _) _ _ => apply wp_memset; [try lia|]
  | |- wp (unlock HeapLock) _ _ => apply wp_unlock_heap
  | |- _ => wp_step
  end; simpl.

Ltac k_steps := repeat k_step.
