(* ===== verification/Heap.v ===== *)
(** * The heap free list: allockpage, kallocHugeMemory, kfree of huge blocks (kernel/src/pmm.c) *)

From stdpp Require Import prelude.
From S2P Require Import Prelude Mem KString FreeList Kernel.

(** [64 * 1024], the size of a page. *)
Abbreviation PAGE := 65536 (only parsing).

(** ** The code *)

Section Code.
Variable fuel : nat.

(** Lines 80-92: first node of size at least 64 KiB, and the node before it. *)
Fixpoint first_fit (k : nat) (h prenode : Z) : M kstate (Z * Z) :=
  match k with
  | O => raise OutOfFuel
  | S k =>
      if h =? 0 then mret (0, prenode)
      else
        sz ← get_size h;
        if PAGE <=? sz then mret (h, prenode)
        else nx ← get_next h; first_fit k nx h
  end.

(** [void allockpage(pageheader_t **pagehead)]; the result is what is stored in [*pagehead]. *)
Definition allockpage : M kstate Z :=
  _ ← lock fuel HeapLock;
  h ← gets head;
  '(oldfreenode, prenode) ← first_fit fuel h 0;
  if negb (oldfreenode =? 0) then
    let freenode := oldfreenode + PAGE in
    osz ← get_size oldfreenode;
    if osz =? PAGE then
      _ ← (if negb (prenode =? 0) then
             pnx ← get_next prenode;
             _ ← c_assert (pnx =? oldfreenode);
             onx ← get_next oldfreenode;
             set_next prenode onx
           else
             hd ← gets head;
             _ ← c_assert (oldfreenode =? hd);
             hnx ← get_next hd;
             set_head hnx);
      _ ← memset oldfreenode 0 node_size;
      _ ← unlock HeapLock;
      mret oldfreenode
    else
      _ ← c_assert (PAGE <? osz);
      onx ← get_next oldfreenode;
      _ ← set_next freenode onx;
      osz ← get_size oldfreenode;
      _ ← set_size freenode (osz - PAGE);
      _ ← (if prenode =? 0 then
             hd ← gets head;
             _ ← c_assert (oldfreenode =? hd);
             set_head freenode
           else
             pnx ← get_next prenode;
             _ ← c_assert (pnx =? oldfreenode);
             set_next prenode freenode);
      _ ← memset oldfreenode 0 node_size;
      _ ← unlock HeapLock;
      mret oldfreenode
  else
    _ ← unlock HeapLock;
    mret 0.

(** Lines 145-157: the highest node that can hold [size] bytes; [h->size] is converted to
    [size_t] for the comparison. *)
Fixpoint highest_fit (k : nat) (size h highnode : Z) : M kstate Z :=
  match k with
  | O => raise OutOfFuel
  | S k =>
      if h =? 0 then mret highnode
      else
        sz ← get_size h;
        let highnode :=
          if size <=? u64 sz then
            if highnode =? 0 then h else if highnode <? h then h else highnode
          else highnode in
        nx ← get_next h;
        highest_fit k size nx highnode
  end.

(** [static void *kallocHugeMemory(size_t size)] *)
Definition kallocHugeMemory (size : Z) : M kstate Z :=
  _ ← lock fuel HeapLock;
  h ← gets head;
  highnode ← highest_fit fuel size h 0;
  if negb (highnode =? 0) then
    hsz ← get_size highnode;
    let ret := highnode + hsz - size in
    let header := ret - node_size in
    _ ← set_size highnode (u64 header - u64 highnode);
    _ ← set_size header size;
    _ ← set_magic header 7654321;
    _ ← unlock HeapLock;
    mret ret
  else
    _ ← unlock HeapLock;
    mret 0.

(** Lines 430-447 (and 342-359, the same loop on a page's list): the nearest list nodes above
    and below the address [p]. *)
Fixpoint neighbours (k : nat) (p h before after : Z) : M kstate (Z * Z) :=
  match k with
  | O => raise OutOfFuel
  | S k =>
      if h =? 0 then mret (before, after)
      else
        let after :=
          if p <? h then
            if after =? 0 then h else if h <? after then h else after
          else after in
        let before :=
          if h <? p then
            if before =? 0 then h else if before <? h then h else before
          else before in
        nx ← get_next h;
        neighbours k p nx before after
  end.

(** Lines 455-460, 473-478 (and 367-372, 392-397): the node whose [next] is [after], or NULL. *)
Fixpoint find_pred (k : nat) (after h : Z) : M kstate Z :=
  match k with
  | O => raise OutOfFuel
  | S k =>
      if h =? 0 then mret 0
      else
        nx ← get_next h;
        if nx =? after then mret h else find_pred k after nx
  end.

(** Lines 448-486: the freed block is merged with its neighbours or pushed on the list;
    [size] is the size in the block's header, [ptr] the pointer being freed. *)
Definition kfree_huge_merge (ptr header size before after : Z) : M kstate unit :=
  let freenode := header in
  bsz ← (if before =? 0 then mret 0 else get_size before);
  if negb (before =? 0) && (u64 (before + bsz) =? u64 header) then
    _ ← set_size before (bsz + size + node_size);
    if ptr + size =? after then
      bsz ← get_size before;
      asz ← get_size after;
      _ ← set_size before (bsz + asz);
      hd ← gets head;
      h ← find_pred fuel after hd;
      if negb (h =? 0) then
        anx ← get_next after;
        set_next h anx
      else
        hd ← gets head;
        hnx ← get_next hd;
        set_head hnx
    else mret tt
  else if ptr + size =? after then
    asz ← get_size after;
    _ ← set_size freenode (size + asz);
    hd ← gets head;
    _ ← set_next freenode hd;
    _ ← set_head freenode;
    h ← find_pred fuel after freenode;
    anx ← get_next after;
    set_next h anx
  else
    _ ← set_size freenode size;
    hd ← gets head;
    _ ← set_next freenode hd;
    set_head freenode.

(** Lines 420-488, the branch of [kfree] for a block of [kallocHugeMemory]. *)
Definition kfree_huge (ptr : Z) : M kstate unit :=
  _ ← lock fuel HeapLock;
  let header := ptr - node_size in
  h ← gets head;
  magic ← get_magic header;
  _ ← c_assert (magic =? 7654321);
  hsz ← get_size header;
  let size := u64 hsz in
  _ ← memset (ptr - node_size) 0 (u64 (size + node_size));
  '(before, after) ← neighbours fuel header h 0 0;
  _ ← kfree_huge_merge ptr header size before after;
  unlock HeapLock.
End Code.

(** ** Abstract operations on the list of free regions *)

(** What [allockpage] takes from the free list: 64 KiB from the low end of the first region
    that is large enough. *)
Fixpoint take_page (fl : list region) : option (Z * list region) :=
  match fl with
  | [] => None
  | (a, sz) :: tl =>
      if PAGE <=? sz then
        Some (a, if sz =? PAGE then tl else (a + PAGE, sz - PAGE) :: tl)
      else
        match take_page tl with
        | Some (p, tl') => Some (p, (a, sz) :: tl')
        | None => None
        end
  end.

Lemma take_page_none fl : take_page fl = None <-> Forall (fun r => r.2 < PAGE) fl.
Proof.
  induction fl as [|[a sz] fl IH]; simpl; [done|]. rewrite Forall_cons. simpl.
  destruct (Z.leb_spec PAGE sz); [split; [done|lia]|].
  destruct (take_page fl) as [[p tl']|]; [|tauto].
  split; [done|]. intros [_ H']. by apply IH in H'.
Qed.

Lemma take_page_some fl a fl' :
  take_page fl = Some (a, fl') <->
  exists l1 sz l2, fl = l1 ++ (a, sz) :: l2 /\ Forall (fun r => r.2 < PAGE) l1 /\ PAGE <= sz /\
    fl' = l1 ++ (if sz =? PAGE then l2 else (a + PAGE, sz - PAGE) :: l2).
Proof.
  split.
  - revert fl'. induction fl as [|[b sz] fl IH]; simpl; intros fl'; [done|].
    destruct (Z.leb_spec PAGE sz).
    + intros [= -> <-]. by exists [], sz, fl.
    + destruct (take_page fl) as [[p tl']|]; [|done]. intros [= -> <-].
      destruct (IH tl' eq_refl) as (l1 & sz' & l2 & -> & Hl & Hsz & ->).
      exists ((b, sz) :: l1), sz', l2. split_and!; auto.
  - intros (l1 & sz & l2 & -> & Hl & Hsz & ->).
    induction Hl as [|[b n] l1 Hn Hl IH]; simpl in *.
    + destruct (Z.leb_spec PAGE sz); [done|lia].
    + destruct (Z.leb_spec PAGE n); [lia|]. by rewrite IH.
Qed.

Lemma take_page_layout lo hi fl a fl' L :
  take_page fl = Some (a, fl') -> layout lo hi (fl ++ L) -> layout lo hi (fl' ++ (a, PAGE) :: L).
Proof.
  rewrite take_page_some. intros (l1 & sz & l2 & -> & _ & Hsz & ->).
  destruct (Z.eqb_spec sz PAGE) as [->|Hne]; intros HL.
  - eapply layout_proper; [|exact HL]. solve_Permutation.
  - assert (layout lo hi ((a, sz) :: l1 ++ l2 ++ L)) as HL'.
    { eapply layout_proper; [|exact HL]. solve_Permutation. }
    apply (layout_split _ _ _ _ PAGE) in HL'; [|lia].
    eapply layout_proper; [|exact HL']. solve_Permutation.
Qed.

Lemma take_page_sized fl a fl' : take_page fl = Some (a, fl') -> Forall sized fl -> Forall sized fl'.
Proof.
  rewrite take_page_some. intros (l1 & sz & l2 & -> & _ & Hsz & ->).
  rewrite !Forall_app, Forall_cons. intros (H1 & [Hs1 Hs2] & H2). simpl in *.
  destruct (Z.eqb_spec sz PAGE) as [->|Hne]; [done|]. rewrite Forall_cons. split_and!; [done| |done].
  unfold sized in *. simpl. split; [|]; Z.div_mod_to_equations; lia.
Qed.

(** The address of the highest region of at least [size] bytes, or [best] when there is none
    (0 is NULL). *)
Fixpoint best_fit (size : Z) (fl : list region) (best : Z) : Z :=
  match fl with
  | [] => best
  | (a, n) :: tl =>
      best_fit size tl
        (if size <=? n then if best =? 0 then a else if best <? a then a else best else best)
  end.

(** What [kallocHugeMemory] does to the free list: the region that starts at [a] loses
    [size] bytes and a header at its high end. *)
Definition carve (a size : Z) (fl : list region) : list region :=
  set_size_at a (size_at a fl - size - node_size) fl.

(** What [kfree] does to the free list with the huge block that occupies [h, h + k), [k]
    counting its 16-byte header: the block is joined to the free region that ends at [h], to
    the one that starts at [h + k], to both, or becomes a free region of its own. When no
    region ends at [h], the new size counts the block without its header. *)
Definition give_back (h k : Z) (fl : list region) : list region :=
  let b := below h fl 0 in
  let a := above h fl 0 in
  if negb (b =? 0) && (b + size_at b fl =? h) then
    if h + k =? a then
      remove_at a (set_size_at b (size_at b fl + k + size_at a fl) fl)
    else set_size_at b (size_at b fl + k) fl
  else if h + k =? a then (h, k - node_size + size_at a fl) :: remove_at a fl
  else (h, k - node_size) :: fl.

Lemma best_fit_spec size fl best :
  Forall (fun r => 0 < r.1) fl -> 0 <= best ->
  let r := best_fit size fl best in
  best <= r /\ (r = best \/ exists n, (r, n) ∈ fl /\ size <= n) /\
  (forall b n, (b, n) ∈ fl -> size <= n -> b <= r).
Proof.
  revert best. induction fl as [|[a n] fl IH]; intros best Hpos Hb; cbn zeta.
  - simpl. split_and!; [done|by left|]. intros b n Hin. by apply elem_of_nil in Hin.
  - apply Forall_cons in Hpos as [Ha Hpos]. simpl in Ha.
    cbn [best_fit]. set (best' := if size <=? n then _ else best).
    assert (best <= best' /\ 0 <= best' /\
      ((best' = best /\ (size <= n -> a <= best')) \/ best' = a /\ size <= n)) as (H1 & H2 & H3).
    { unfold best'. destruct (Z.leb_spec size n), (Z.eqb_spec best 0), (Z.ltb_spec best a); lia. }
    destruct (IH best' Hpos H2) as (I1 & I2 & I3). split_and!; [lia| |].
    + destruct I2 as [->|(k & Hk & Hs)].
      * destruct H3 as [[-> _]|[-> Hs]]; [by left|right]. exists n. split; [by left|done].
      * right. exists k. split; [by right|done].
    + intros b k [[= -> ->]|Hin]%elem_of_cons Hs; [|by eapply I3].
      destruct H3 as [[_ H3]|[-> _]]; [specialize (H3 Hs)|]; lia.
Qed.

Lemma best_fit_none size fl :
  Forall (fun r => 0 < r.1) fl -> (best_fit size fl 0 = 0 <-> Forall (fun r => r.2 < size) fl).
Proof.
  intros Hpos. destruct (best_fit_spec size fl 0 Hpos ltac:(lia)) as (H1 & H2 & H3). split.
  - intros E. rewrite E in *. apply Forall_forall. intros [b n] Hin. simpl.
    rewrite Forall_forall in Hpos. specialize (Hpos _ Hin). simpl in Hpos.
    destruct (Z.le_gt_cases size n); [|lia]. specialize (H3 _ _ Hin H). lia.
  - intros Hn. destruct H2 as [->|(n & Hin & Hs)]; [done|].
    rewrite Forall_forall in Hn. specialize (Hn _ Hin). simpl in Hn. lia.
Qed.

(** ** The free list in memory *)

Section Spec.
Context (lo hi : Z) (Hlo : 0 < lo) (Hhi : hi < 2 ^ 64) (Hsz : hi - lo < 2 ^ 31).
Context (fuel : nat).

(** The list from [head] is the free list [fl]. *)
Record heap_ok (s : kstate) (fl : list region) : Prop := {
  ho_list : node_list (k_mem s) (head s) fl 0;
  ho_sized : Forall sized fl;
  ho_layout : layout lo hi fl;
}.

Definition last_addr (l : list region) (q : Z) : Z :=
  match last l with Some r => r.1 | None => q end.

Lemma last_addr_cons r l q : last_addr (r :: l) q = last_addr l r.1.
Proof. unfold last_addr. rewrite last_cons. by destruct (last l). Qed.

Lemma first_fit_none k p l pre s :
  node_list (k_mem s) p l 0 -> (length l < k)%nat -> Forall (fun r => r.2 < PAGE) l ->
  wp (first_fit k p pre) s (fun r s' => r.1 = 0 /\ s' = s).
Proof.
  revert k p pre. induction l as [|[a n] l IH]; intros k p pre Hl Hk Hn;
    (destruct k as [|k]; simpl in Hk; [lia|]); simpl in *.
  - subst p. by apply wp_ret.
  - destruct Hl as (-> & Ha & Hz & Hl). apply Forall_cons in Hn as [Hn Hr]. simpl in Hn.
    destruct (Z.eqb_spec a 0); [lia|]. repeat k_step. rewrite Hz.
    destruct (Z.leb_spec PAGE n); [lia|]. repeat k_step. apply IH; [done|lia|done].
Qed.

Lemma first_fit_some k p l1 a n l2 pre s :
  node_list (k_mem s) p (l1 ++ (a, n) :: l2) 0 -> (length l1 < k)%nat ->
  Forall (fun r => r.2 < PAGE) l1 -> PAGE <= n ->
  wp (first_fit k p pre) s (fun r s' => r = (a, last_addr l1 pre) /\ s' = s).
Proof.
  revert k p pre. induction l1 as [|[b bn] l1 IH]; intros k p pre Hl Hk Hn Hp;
    (destruct k as [|k]; simpl in Hk; [lia|]); simpl in *;
    destruct Hl as (-> & Ha & Hz & Hl).
  - destruct (Z.eqb_spec a 0); [lia|]. repeat k_step. rewrite Hz.
    destruct (Z.leb_spec PAGE n); [|lia]. by apply wp_ret.
  - apply Forall_cons in Hn as [Hb Hn]. simpl in Hb.
    destruct (Z.eqb_spec b 0); [lia|]. repeat k_step. rewrite Hz.
    destruct (Z.leb_spec PAGE bn); [lia|]. repeat k_step. rewrite last_addr_cons.
    apply IH; [done|lia|done|done].
Qed.

Lemma heap_ok_member s fl a n :
  heap_ok s fl -> (a, n) ∈ fl -> lo <= a /\ a + n <= hi /\ 16 <= n < 2 ^ 31 /\ n mod 16 = 0.
Proof.
  intros [_ Hs Hl] Hr. rewrite Forall_forall in Hs. destruct (Hs _ Hr).
  destruct (layout_bound _ _ _ _ Hl Hr) as (? & ? & ?). simpl in *. lia.
Qed.


(** *** Unlinking a node (lines 98-107) and replacing it (lines 118-127) *)

Lemma wp_unlink s l1 a (Q : unit -> kstate -> Prop) :
  node_list (k_mem s) (head s) l1 a -> 0 < a ->
  (let q := load64 (k_mem s) a in
   Q tt (mk_kstate (relink (k_mem s) l1 q) (first_addr l1 q) (heap_lock s) (cpupagelist s))) ->
  wp (if negb (last_addr l1 0 =? 0) then
        pnx ← get_next (last_addr l1 0);
        _ ← c_assert (pnx =? a);
        onx ← get_next a;
        set_next (last_addr l1 0) onx
      else
        hd ← gets head;
        _ ← c_assert (a =? hd);
        hnx ← get_next hd;
        set_head hnx) s Q.
Proof.
  intros Hl Ha HQ. destruct l1 as [|[b n] l1 _] using rev_ind; simpl in *.
  - subst a. repeat k_step; [by rewrite Z.eqb_refl|]. repeat k_step. done.
  - apply node_list_app in Hl as (r & Hl & (-> & Hb & Hn & Hnx)).
    unfold last_addr, relink in *. rewrite !last_snoc in *. simpl in *.
    destruct (Z.eqb_spec b 0); [lia|]. simpl.
    repeat k_step; [rewrite Hnx; by apply Z.eqb_refl|]. repeat k_step.
    assert (head s = first_addr (l1 ++ [(b, n)]) (load64 (k_mem s) a)) as Hh.
    { apply node_list_first in Hl. rewrite Hl. by destruct l1. }
    by rewrite Hh.
Qed.

Lemma wp_replace s l1 a q (Q : unit -> kstate -> Prop) :
  node_list (k_mem s) (head s) l1 a -> 0 < a ->
  Q tt (mk_kstate (relink (k_mem s) l1 q) (first_addr l1 q) (heap_lock s) (cpupagelist s)) ->
  wp (if last_addr l1 0 =? 0 then
        hd ← gets head;
        _ ← c_assert (a =? hd);
        set_head q
      else
        pnx ← get_next (last_addr l1 0);
        _ ← c_assert (pnx =? a);
        set_next (last_addr l1 0) q) s Q.
Proof.
  intros Hl Ha HQ. destruct l1 as [|[b n] l1 _] using rev_ind; simpl in *.
  - subst a. repeat k_step; [by rewrite Z.eqb_refl|]. repeat k_step. done.
  - apply node_list_app in Hl as (r & Hl & (-> & Hb & Hn & Hnx)).
    unfold last_addr, relink in *. rewrite !last_snoc in *. simpl in *.
    destruct (Z.eqb_spec b 0); [lia|]. simpl.
    repeat k_step; [rewrite Hnx; by apply Z.eqb_refl|]. repeat k_step.
    assert (head s = first_addr (l1 ++ [(b, n)]) q) as Hh.
    { apply node_list_first in Hl. rewrite Hl. by destruct l1. }
    by rewrite Hh.
Qed.

(** The middle node of a list, and the parts around it. *)
Lemma heap_ok_split s l1 a n l2 :
  heap_ok s (l1 ++ (a, n) :: l2) ->
  node_list (k_mem s) (head s) l1 a /\ 0 < a /\ loadi32 (k_mem s) (a + 8) = n /\
  node_list (k_mem s) (load64 (k_mem s) a) l2 0 /\ pairwise spaced l1 /\
  Forall sized l1 /\ Forall sized l2.
Proof.
  intros [Hl Hs HL]. apply node_list_app in Hl as (r & H1 & (-> & Ha & Hn & H2)).
  apply Forall_app in Hs as [Hs1 [Hs Hs2]%Forall_cons].
  split_and!; auto. eapply layout_spaced; [by apply sized_ge|]. by eapply layout_app_l.
Qed.

(** After the bytes of the region of the middle node changed, the list was redirected past it
    to [q], and more bytes of the region changed: both parts of the list are intact. *)
Lemma splice_parts s l1 a n l2 m1 q m2 :
  heap_ok s (l1 ++ (a, n) :: l2) -> only_in (inr a n) (k_mem s) m1 -> 0 <= q < 2 ^ 64 ->
  only_in (inr a n) (relink m1 l1 q) m2 ->
  node_list m2 (first_addr l1 q) l1 q /\ node_list m2 (load64 (k_mem s) a) l2 0 /\
  only_in (covers (l1 ++ (a, n) :: l2)) (k_mem s) m2.
Proof.
  intros Hok Hm1 Hq Hm2. pose proof (heap_ok_split _ _ _ _ _ Hok) as (H1 & Ha & Hn & H2 & Hsp & Hs1 & Hs2).
  destruct Hok as [_ Hs HL].
  assert (forall r x, last l1 = Some r -> inr r.1 16 x -> in_nodes l1 x) as Hlast.
  { intros r x [l1' ->]%last_Some Hx. exists r. split; [apply elem_of_app; right; by left|done]. }
  split_and!.
  - eapply layout_frame; [exact HL|exact Hs1| |exact Hm2|].
    { intros r Hr. apply elem_of_app; by left. }
    eapply relink_spec; [done|done|].
    eapply layout_frame; [exact HL|exact Hs1| |exact Hm1|exact H1].
    intros r Hr. apply elem_of_app; by left.
  - eapply layout_frame; [exact HL|exact Hs2| |exact Hm2|].
    { intros r Hr. apply elem_of_app; by right. }
    apply (node_list_frame m1).
    + apply (only_in_same_on (in_nodes l1)).
      * apply relink_only_in; [done|done].
      * intros x Hx Hx'. apply in_nodes_covers in Hx, Hx'; [|done..].
        destruct HL as [_ Hp]. apply pairwise_app in Hp as (_ & _ & Hp).
        destruct Hx as (r & Hr & Hx), Hx' as (r' & Hr' & Hx').
        rewrite Forall_forall in Hp. specialize (Hp r' Hr'). rewrite Forall_forall in Hp.
        specialize (Hp r ltac:(by right)). unfold rdisj, inr in *. lia.
    + eapply layout_frame; [exact HL|exact Hs2| |exact Hm1|exact H2].
      intros r Hr. apply elem_of_app; by right.
  - assert (forall x, inr a n x -> covers (l1 ++ (a, n) :: l2) x) as Hin.
    { intros x Hx. exists (a, n). split; [apply elem_of_app; right; by left|done]. }
    eapply only_in_trans; [|by eapply only_in_weaken].
    apply relink_only_in; [by eapply only_in_weaken|].
    intros r x Hr Hx. apply covers_app. left. apply in_nodes_covers; eauto.
Qed.

(** *** allockpage *)

Lemma only_in_node a n m m' :
  16 <= n -> only_in (inr a n) m m' ->
  only_in (inr a n) m (memset_loop (Z.to_nat node_size) 0 m' a 0).
Proof.
  intros. apply only_in_memset; [done|done|]. unfold inr, node_size. lia.
Qed.

Lemma next_range m a : 0 <= load64 m a < 2 ^ 64.
Proof. apply (load_le_range 8). Qed.

(** Redirecting the prefix and clearing the header of the middle node leave the rest of its
    region alone. *)
Lemma relink_same_on s l1 a n l2 m q :
  heap_ok s (l1 ++ (a, n) :: l2) -> PAGE + 16 <= n ->
  same_on (inr (a + PAGE) 16) m (memset_loop (Z.to_nat node_size) 0 (relink m l1 q) a 0).
Proof.
  intros [_ Hs HL] Hn. apply (only_in_same_on (fun x => inr a 16 x \/ covers l1 x)).
  - apply only_in_memset; [done| |by left]. apply relink_only_in; [done|].
    intros r x [l1' ->]%last_Some Hx. right. apply Forall_app in Hs as [Hs _].
    apply in_nodes_covers; [done|]. exists r. split; [apply elem_of_app; right; by left|done].
  - intros x Hx [Hx'|Hc]; [unfold inr in *; lia|].
    eapply layout_middle; [exact HL|apply covers_app; by left|]. unfold inr in *; simpl; lia.
Qed.

Lemma allockpage_none s fl :
  heap_ok s fl -> heap_lock s = 0 -> (length fl < fuel)%nat -> take_page fl = None ->
  wp (allockpage fuel) s (fun r s' => r = 0 /\ s' = s).
Proof.
  intros [Hl Hs HL] H0 Hf Ht%take_page_none. unfold allockpage.
  apply wp_bind, wp_lock_heap; [lia|done|]. k_steps.
  eapply wp_mono. { apply (first_fit_none _ _ fl); simpl; [done|lia|done]. }
  intros [r p] s' [Hr ->]. simpl in *. subst r. simpl. k_steps. split; [done|].
  destruct s; simpl in *; by subst.
Qed.

Lemma allockpage_some s fl a fl' :
  heap_ok s fl -> heap_lock s = 0 -> (length fl < fuel)%nat -> take_page fl = Some (a, fl') ->
  wp (allockpage fuel) s (fun r s' =>
    r = a /\ heap_ok s' fl' /\ only_in (covers fl) (k_mem s) (k_mem s') /\
    heap_lock s' = 0 /\ cpupagelist s' = cpupagelist s).
Proof.
  intros Hok H0 Hf Ht. pose proof Ht as (l1 & n & l2 & -> & Hl1 & Hn & Hfl')%take_page_some.
  pose proof (heap_ok_split _ _ _ _ _ Hok) as (H1 & Ha & Hz & H2 & Hsp & Hs1 & Hs2).
  pose proof (heap_ok_member _ _ a n Hok ltac:(apply elem_of_app; right; by left)) as (? & ? & ? & Hmod).
  assert (heap_ok (mk_kstate (k_mem s) (head s) 1 (cpupagelist s)) (l1 ++ (a, n) :: l2)) as Hok1
    by (destruct Hok; by split).
  assert (layout lo hi fl') as HL'.
  { destruct Hok as [_ _ HL]. rewrite <- (app_nil_r (_ ++ _)) in HL.
    apply (take_page_layout _ _ _ _ _ _ Ht) in HL. by apply layout_app_l in HL. }
  assert (Forall sized fl') as Hs' by (eapply take_page_sized; [done|]; by destruct Hok).
  unfold allockpage. apply wp_bind, wp_lock_heap; [lia|done|]. k_steps.
  rewrite length_app in Hf.
  eapply wp_mono.
  { eapply first_fit_some with (l2 := l2) (n := n); simpl; [apply Hok|lia|done|done]. }
  intros [? ?] s' [[= -> ->] ->]. simpl. destruct (Z.eqb_spec a 0); [lia|]. simpl.
  k_steps. rewrite Hz. destruct (Z.eqb_spec n PAGE) as [->|Hne].
  - apply wp_bind, wp_unlink; [done|done|]. simpl. k_steps.
    destruct (splice_parts _ _ _ _ _ (k_mem s) (load64 (k_mem s) a)
      (memset_loop (Z.to_nat node_size) 0 (relink (k_mem s) l1 (load64 (k_mem s) a)) a 0) Hok)
      as (P1 & P2 & P3).
    { done. } { apply next_range. } { apply only_in_node; [done|]. done. }
    split_and!; try done. rewrite Hfl' in *. split; simpl; [|done|done].
    apply node_list_app. eauto.
  - assert (PAGE + 16 <= n) by (clear Hfl'; Z.div_mod_to_equations; lia).
    k_steps; [apply Z.ltb_lt; lia|]. k_steps.
    apply wp_replace; simpl; [|done|].
    { eapply layout_frame; [apply Hok|exact Hs1| | |exact H1].
      - intros r Hr. apply elem_of_app; by left.
      - repeat apply only_in_store; [done|..]; unfold inr in *; lia. }
    k_steps.
    set (m1 := store32 _ _ _).
    assert (only_in (inr a n) (k_mem s) m1) as Hm1.
    { repeat apply only_in_store; [done|..]; unfold inr in *; lia. }
    destruct (splice_parts _ _ _ _ _ m1 (a + PAGE)
      (memset_loop (Z.to_nat node_size) 0 (relink m1 l1 (a + PAGE)) a 0) Hok) as (P1 & P2 & P3).
    { done. } { lia. } { apply only_in_node; [lia|]. done. }
    split_and!; try done. rewrite Hfl' in *. split; simpl; [|done|done].
    apply node_list_app. exists (a + PAGE). split; [done|]. simpl.
    assert (same_on (inr (a + PAGE) 16) m1
      (memset_loop (Z.to_nat node_size) 0 (relink m1 l1 (a + PAGE)) a 0)) as Hsame.
    { by eapply relink_same_on. }
    set (m2 := memset_loop _ 0 (relink m1 l1 (a + PAGE)) a 0) in *. clearbody m2.
    unfold loadi32, load64.
    rewrite (same_on_load _ 4 _ _ (a + PAGE + 8) Hsame), (same_on_load _ 8 _ _ (a + PAGE) Hsame)
      by (unfold inr; lia).
    fold (loadi32 m1 (a + PAGE + 8)). fold (load64 m1 (a + PAGE)). unfold m1.
    rewrite load64_store32_ne, load64_store64, loadi32_store32 by lia.
    rewrite wrap_small by apply next_range.
    rewrite loadi32_store64_ne by lia. rewrite Hz, signed_small by lia.
    split_and!; [done|lia|done|done].
Qed.

(** *** kallocHugeMemory *)

Lemma highest_fit_spec k p l size best s :
  0 <= size -> node_list (k_mem s) p l 0 -> Forall sized l -> (length l < k)%nat ->
  wp (highest_fit k size p best) s (fun r s' => r = best_fit size l best /\ s' = s).
Proof.
  intros Hsize. revert k p best.
  induction l as [|[a n] l IH]; intros k p best Hl Hs Hk;
    (destruct k as [|k]; simpl in Hk; [lia|]); simpl in *.
  - subst p. by apply wp_ret.
  - destruct Hl as (-> & Ha & Hz & Hl). apply Forall_cons in Hs as [[Hn _] Hs]. simpl in Hn.
    assert (u64 n = n) as Hu.
    { apply wrap_small. pose proof (signed_range 32 (load_le 4 (k_mem s) (a + 8)) ltac:(lia)).
      unfold loadi32 in Hz. lia. }
    destruct (Z.eqb_spec a 0); [lia|]. repeat k_step. rewrite Hz, Hu. apply IH; [done..|lia].
Qed.

Lemma heap_ok_pos s fl : heap_ok s fl -> Forall (fun r => 0 < r.1) fl.
Proof. intros [Hl _ _]. apply Forall_forall. intros r Hr. by eapply node_list_pos. Qed.

Lemma kallocHuge_none s fl size :
  heap_ok s fl -> heap_lock s = 0 -> (length fl < fuel)%nat -> 0 <= size ->
  Forall (fun r => r.2 < size) fl ->
  wp (kallocHugeMemory fuel size) s (fun r s' => r = 0 /\ s' = s).
Proof.
  intros Hok H0 Hf Hsize Hn. unfold kallocHugeMemory.
  apply wp_bind, wp_lock_heap; [lia|done|]. k_steps.
  eapply wp_mono. { eapply highest_fit_spec; simpl; [done|apply Hok|apply Hok|done]. }
  intros r s' [-> ->]. apply best_fit_none in Hn as ->; [|by eapply heap_ok_pos].
  simpl. k_steps. split; [done|]. destruct s; simpl in *; by subst.
Qed.

(** What a successful call writes, whatever the size of the chosen node. *)
Definition huge_stores (a n size : Z) (m : mem) : mem :=
  let header := a + n - size - node_size in
  store32 (store32 (store32 m (a + 8) (u64 header - u64 a)) (header + 8) size)
    (header + 12) 7654321.

Lemma kallocHuge_run s fl size a n :
  heap_ok s fl -> heap_lock s = 0 -> (length fl < fuel)%nat -> 0 <= size ->
  best_fit size fl 0 = a -> (a, n) ∈ fl -> a + n - size - node_size <> 0 ->
  wp (kallocHugeMemory fuel size) s (fun r s' =>
    r = a + n - size /\ s' = st_upd (huge_stores a n size) s).
Proof.
  intros Hok H0 Hf Hsize Hb Hin Hh. unfold kallocHugeMemory.
  apply wp_bind, wp_lock_heap; [lia|done|]. k_steps.
  eapply wp_mono. { eapply highest_fit_spec; simpl; [done|apply Hok|apply Hok|done]. }
  intros r s' [-> ->]. rewrite Hb. simpl.
  apply list_elem_of_split in Hin as (l1 & l2 & ->).
  destruct (heap_ok_split _ _ _ _ _ Hok) as (_ & Ha & Hz & _).
  destruct (Z.eqb_spec a 0); [lia|]. simpl. k_steps. rewrite Hz. k_steps.
  split; [done|]. destruct s; simpl in *; subst. unfold huge_stores. f_equal.
Qed.

(** The parts of the list around a node when only bytes of its region changed. *)
Lemma middle_parts s l1 a n l2 m' :
  heap_ok s (l1 ++ (a, n) :: l2) -> only_in (inr a n) (k_mem s) m' ->
  node_list m' (head s) l1 a /\ node_list m' (load64 (k_mem s) a) l2 0.
Proof.
  intros Hok Hm. destruct (heap_ok_split _ _ _ _ _ Hok) as (H1 & Ha & Hn & H2 & Hsp & Hs1 & Hs2).
  split; (eapply layout_frame; [apply Hok|..]; [eassumption| |exact Hm|eassumption]);
    intros r Hr; apply elem_of_app; tauto.
Qed.

Lemma carve_split s l1 a n l2 size :
  heap_ok s (l1 ++ (a, n) :: l2) ->
  carve a size (l1 ++ (a, n) :: l2) = l1 ++ (a, n - size - node_size) :: l2.
Proof.
  intros [_ Hs HL]. apply layout_spaced in HL; [|by apply sized_ge].
  unfold carve. by rewrite size_at_split, set_size_at_split.
Qed.

(** The header of an allocated huge block, and the region the block occupies with it. *)
Definition huge_hdr (m : mem) (r : region) : Prop :=
  loadi32 m (r.1 + 8) = r.2 - node_size /\ loadi32 m (r.1 + 12) = 7654321.

Lemma carve_layout s l1 a n l2 size L :
  heap_ok s (l1 ++ (a, n) :: l2) -> 0 < size -> size + 32 <= n ->
  layout lo hi ((l1 ++ (a, n) :: l2) ++ L) ->
  layout lo hi (carve a size (l1 ++ (a, n) :: l2) ++
    (a + n - size - node_size, size + node_size) :: L).
Proof.
  intros Hok Hsize Hn HL. rewrite (carve_split _ _ _ _ _ _ Hok).
  assert (layout lo hi ((a, n) :: l1 ++ l2 ++ L)) as HL'.
  { eapply layout_proper; [|exact HL]. solve_Permutation. }
  apply (layout_split _ _ _ _ (n - size - node_size)) in HL'; [|unfold node_size; lia].
  eapply layout_proper; [|exact HL']. unfold node_size.
  replace (a + (n - size - 16)) with (a + n - size - 16) by lia.
  replace (n - (n - size - 16)) with (size + 16) by lia. solve_Permutation.
Qed.

Lemma huge_stores_node m a n size :
  0 < size -> size + 32 <= n < 2 ^ 31 -> 0 < a -> a + n < 2 ^ 64 ->
  load64 (huge_stores a n size m) a = load64 m a /\
  loadi32 (huge_stores a n size m) (a + 8) = n - size - node_size.
Proof.
  intros. unfold huge_stores, node_size.
  rewrite !load64_store32_ne, !loadi32_store32_ne, loadi32_store32 by lia.
  rewrite !wrap_small, signed_small by lia. split; [done|lia].
Qed.

Lemma kallocHuge_some s fl size a n :
  heap_ok s fl -> heap_lock s = 0 -> (length fl < fuel)%nat -> 0 < size -> size mod 16 = 0 ->
  best_fit size fl 0 = a -> (a, n) ∈ fl -> size + 32 <= n ->
  wp (kallocHugeMemory fuel size) s (fun r s' =>
    r = a + n - size /\ heap_ok s' (carve a size fl) /\
    huge_hdr (k_mem s') (r - node_size, size + node_size) /\
    only_in (covers fl) (k_mem s) (k_mem s') /\ heap_lock s' = 0 /\
    cpupagelist s' = cpupagelist s).
Proof.
  intros Hok H0 Hf Hsize Hmod Hb Hin Hn.
  pose proof (heap_ok_member _ _ _ _ Hok Hin) as (Hla & Han & Hn2 & Hnm).
  eapply wp_mono. { eapply kallocHuge_run; eauto; unfold node_size; lia. }
  intros r s' [-> ->]. apply list_elem_of_split in Hin as (l1 & l2 & ->).
  pose proof (heap_ok_split _ _ _ _ _ Hok) as (H1 & Ha & Hz & H2 & Hsp & Hs1 & Hs2).
  assert (layout lo hi (carve a size (l1 ++ (a, n) :: l2))) as HL'.
  { eapply layout_app_l, carve_layout with (L := []); [done..|].
    rewrite app_nil_r. apply Hok. }
  assert (only_in (inr a n) (k_mem s) (huge_stores a n size (k_mem s))) as Hm.
  { repeat apply only_in_store; [done|..]; unfold inr, node_size; lia. }
  destruct (middle_parts _ _ _ _ _ _ Hok Hm) as [P1 P2].
  rewrite (carve_split _ _ _ _ _ _ Hok) in *. simpl.
  split_and!; [done| | |eapply only_in_weaken; [exact Hm|]|done|done].
  - split; simpl; [|rewrite !Forall_app, !Forall_cons; split_and!; [done| |done]|done].
    + apply node_list_app. exists a. split; [done|].
      destruct (huge_stores_node (k_mem s) a n size) as [E1 E2]; [lia..|].
      simpl. rewrite E1, E2. split_and!; [done|done|lia|done].
    + unfold sized, node_size in *. simpl. split; [lia|]. Z.div_mod_to_equations; lia.
  - unfold huge_hdr, huge_stores, node_size. simpl. split.
    + rewrite loadi32_store32_ne, loadi32_store32, signed_small by lia. lia.
    + by rewrite loadi32_store32.
  - intros x Hx. exists (a, n). split; [apply elem_of_app; right; by left|done].
Qed.

(** A huge block that fills a region exactly, without room for its header: the header is
    written to the 16 bytes below the region, which are not free, and the size field of the
    node, now inside the block the client gets, is set to -16. *)
Theorem kallocHuge_tight s fl size a n :
  heap_ok s fl -> heap_lock s = 0 -> (length fl < fuel)%nat -> 32 < lo -> 0 < size ->
  best_fit size fl 0 = a -> (a, n) ∈ fl -> n = size ->
  wp (kallocHugeMemory fuel size) s (fun r s' =>
    r = a /\ loadi32 (k_mem s') (a - 8) = size /\ loadi32 (k_mem s') (a - 4) = 7654321 /\
    loadi32 (k_mem s') (a + 8) = -16).
Proof.
  intros Hok H0 Hf Hl32 Hsize Hb Hin ->.
  pose proof (heap_ok_member _ _ _ _ Hok Hin) as (Hla & Han & Hn2 & Hnm).
  eapply wp_mono. { eapply kallocHuge_run; eauto; unfold node_size; lia. }
  intros r s' [-> ->]. simpl. unfold huge_stores, node_size.
  replace (a + size - size - 16) with (a - 16) by lia.
  split_and!; [lia|..].
  - replace (a - 8) with (a - 16 + 8) by lia.
    rewrite loadi32_store32_ne, loadi32_store32, signed_small by lia. done.
  - replace (a - 4) with (a - 16 + 12) by lia. by rewrite loadi32_store32.
  - rewrite !loadi32_store32_ne, loadi32_store32 by lia.
    rewrite !wrap_small by lia. replace (a - 16 - a) with (-16) by lia. done.
Qed.

Lemma kallocHuge_zero_rest s l1 a l2 size :
  heap_ok s (l1 ++ (a, size + node_size) :: l2) -> heap_lock s = 0 ->
  (length (l1 ++ (a, (size + node_size)%Z) :: l2) < fuel)%nat -> 0 < size ->
  best_fit size (l1 ++ (a, size + node_size) :: l2) 0 = a ->
  wp (kallocHugeMemory fuel size) s (fun r s' =>
    r = a + node_size /\ node_list (k_mem s') (head s') (l1 ++ (a, size) :: l2) 0).
Proof.
  intros Hok H0 Hf Hsize Hb.
  assert ((a, size + node_size) ∈ l1 ++ (a, size + node_size) :: l2) as Hin
    by (apply elem_of_app; right; by left).
  pose proof (heap_ok_member _ _ _ _ Hok Hin) as (Hla & Han & Hn2 & Hnm).
  pose proof (heap_ok_split _ _ _ _ _ Hok) as (H1 & Ha & Hz & H2 & Hsp & Hs1 & Hs2).
  eapply wp_mono. { eapply kallocHuge_run; eauto; unfold node_size in *; lia. }
  intros r s' [-> ->]. simpl. split; [lia|].
  assert (only_in (inr a (size + node_size)) (k_mem s)
    (huge_stores a (size + node_size) size (k_mem s))) as Hm.
  { unfold node_size in *. repeat apply only_in_store; [done|..]; unfold inr, node_size; lia. }
  destruct (middle_parts _ _ _ _ _ _ Hok Hm) as [P1 P2].
  apply node_list_app. exists a. split; [done|].
  set (m' := huge_stores _ _ _ _) in *.
  assert (load64 m' a = load64 (k_mem s) a /\ loadi32 m' (a + 8) = size) as [E1 E2].
  { unfold m', huge_stores, node_size in *.
    replace (a + (size + 16) - size - 16) with a in * by lia.
    rewrite !load64_store32_ne, loadi32_store32_ne, loadi32_store32, signed_small by lia. done. }
  simpl. rewrite E1, E2. split_and!; done.
Qed.

(** *** The loops of kfree *)

Lemma neighbours_spec k x p l b a s :
  node_list (k_mem s) p l 0 -> (length l < k)%nat ->
  wp (neighbours k x p b a) s (fun r s' => r = (below x l b, above x l a) /\ s' = s).
Proof.
  revert k p b a. induction l as [|[h n] l IH]; intros k p b a Hl Hk;
    (destruct k as [|k]; simpl in Hk; [lia|]); simpl in *.
  - subst p. by apply wp_ret.
  - destruct Hl as (-> & Hh & _ & Hl). destruct (Z.eqb_spec h 0); [lia|].
    repeat k_step. apply IH; [done|lia].
Qed.

Lemma find_pred_none k a p l s :
  node_list (k_mem s) p l 0 -> (length l < k)%nat -> 0 < a ->
  (forall r, r ∈ tail l -> r.1 <> a) ->
  wp (find_pred k a p) s (fun r s' => r = 0 /\ s' = s).
Proof.
  revert k p. induction l as [|[h n] l IH]; intros k p Hl Hk Ha Hne;
    (destruct k as [|k]; simpl in Hk; [lia|]); simpl in *.
  - subst p. by apply wp_ret.
  - destruct Hl as (-> & Hh & _ & Hl). destruct (Z.eqb_spec h 0); [lia|].
    repeat k_step. pose proof (node_list_first _ _ _ _ Hl) as Hf.
    destruct (Z.eqb_spec (load64 (k_mem s) h) a) as [E|_].
    + destruct l as [|r l]; simpl in Hf; [lia|]. destruct (Hne r ltac:(by left)). congruence.
    + apply IH; [done|lia|done|]. intros r Hr. apply Hne. destruct l; [done|]. by right.
Qed.

Lemma find_pred_some k l1 a n l2 p s :
  node_list (k_mem s) p (l1 ++ (a, n) :: l2) 0 -> (length l1 < k)%nat ->
  pairwise spaced (l1 ++ (a, n) :: l2) -> l1 <> [] ->
  wp (find_pred k a p) s (fun r s' => r = last_addr l1 0 /\ s' = s).
Proof.
  revert k p. induction l1 as [|[h hn] l1 IH]; intros k p Hl Hk Hsp Hne; [done|].
  destruct k as [|k]; simpl in Hk; [lia|]. simpl in Hl. destruct Hl as (-> & Hh & _ & Hl).
  simpl. destruct (Z.eqb_spec h 0); [lia|]. repeat k_step.
  pose proof (node_list_first _ _ _ _ Hl) as Hf. rewrite last_addr_cons. simpl.
  destruct l1 as [|[c cn] l1]; simpl in Hf.
  - rewrite Hf, Z.eqb_refl. by apply wp_ret.
  - destruct (Z.eqb_spec (load64 (k_mem s) h) a) as [E|_].
    + exfalso. destruct Hsp as [_ Hsp]. eapply (spaced_ne_l ((c, cn) :: l1) l2 a n Hsp (c, cn)).
      * by left.
      * simpl. congruence.
    + eapply wp_mono; [apply IH; [done|simpl in *; lia|apply Hsp|done]|].
      intros r s' [-> ->]. split; [|done]. by rewrite !last_addr_cons.
Qed.

(** *** kfree of a huge block *)

Lemma relink_last_addr m r l q :
  relink m (r :: l) q = store64 m (last_addr l r.1) q /\
  exists r', r' ∈ r :: l /\ last_addr l r.1 = r'.1.
Proof.
  unfold relink, last_addr. rewrite last_cons.
  destruct (last l) as [r'|] eqn:El; (split; [done|]).
  - exists r'. split; [|done]. apply last_Some in El as [l' ->]. right.
    apply elem_of_app; right; by left.
  - exists r. split; [by left|done].
Qed.

Lemma wp_unlink_after s l1 a n l2 (Q : unit -> kstate -> Prop) :
  node_list (k_mem s) (head s) (l1 ++ (a, n) :: l2) 0 ->
  pairwise spaced (l1 ++ (a, n) :: l2) -> (length (l1 ++ (a, n) :: l2) < fuel)%nat ->
  (let q := load64 (k_mem s) a in
   Q tt (mk_kstate (relink (k_mem s) l1 q) (first_addr l1 q) (heap_lock s) (cpupagelist s))) ->
  wp (h ← find_pred fuel a (head s);
      if negb (h =? 0) then
        anx ← get_next a;
        set_next h anx
      else
        hd ← gets head;
        hnx ← get_next hd;
        set_head hnx) s Q.
Proof.
  intros Hl Hsp Hf HQ. k_steps.
  assert (0 < a) as Ha by (eapply (node_list_pos _ _ _ _ (a, n) Hl); apply elem_of_app; right; by left).
  destruct l1 as [|[b bn] l1 _] using rev_ind.
  - eapply wp_mono. { apply (find_pred_none _ _ _ ((a, n) :: l2)); [done|simpl in *; lia|done|].
      intros r Hr. eapply (spaced_ne_r [] l2 a n); done. }
    intros r s' [-> ->]. simpl. k_steps; simpl in Hl; destruct Hl as (-> & _); [lia|]. done.
  - eapply wp_mono. { eapply find_pred_some; [exact Hl| |exact Hsp|by destruct l1].
      rewrite length_app in Hf. lia. }
    intros r s' [-> ->]. apply node_list_app in Hl as (r & Hl & Hr).
    unfold last_addr, relink in *. rewrite last_snoc in *. simpl in *.
    assert (0 < b) by (eapply (node_list_pos _ _ _ _ (b, bn) Hl); apply elem_of_app; right; by left).
    destruct (Z.eqb_spec b 0); [lia|]. simpl. k_steps.
    assert (head s = first_addr (l1 ++ [(b, bn)]) (load64 (k_mem s) a)) as Hh.
    { apply node_list_first in Hl. rewrite Hl. by destruct l1. }
    by rewrite Hh.
Qed.

(** A block given back: [h] and [k] as in [give_back]. *)
Definition pending (s : kstate) (fl : list region) (h k : Z) : Prop :=
  heap_ok s fl /\ layout lo hi ((h, k) :: fl) /\ 32 <= k /\ k mod 16 = 0.

Lemma pending_facts s fl h k :
  pending s fl h k ->
  lo <= h /\ h + k <= hi /\ 32 <= k < 2 ^ 31 /\ k mod 16 = 0 /\
  Forall (fun r => 0 < r.1) fl /\ pairwise spaced ((h, k) :: fl) /\
  forall r, r ∈ fl -> rdisj (h, k) r /\ lo <= r.1 /\ r.1 + r.2 <= hi /\ 16 <= r.2.
Proof.
  intros (Hok & HL & Hk & Hm). pose proof HL as [Hb _].
  apply Forall_cons in Hb as [(? & ? & ?) Hb]. simpl in *.
  assert (pairwise spaced ((h, k) :: fl)) as Hsp.
  { eapply layout_spaced; [|done]. apply Forall_cons. split; [simpl; lia|].
    apply sized_ge, Hok. }
  do 4 (split; [lia|]). split; [by eapply heap_ok_pos|]. split; [done|].
intros r Hr. apply layout_cons in HL as (_ & Hd & _). destruct Hok as [_ Hs _].
    rewrite Forall_forall in Hd, Hb, Hs. destruct (Hb r Hr) as (? & ? & ?).
    destruct (Hs r Hr). split_and!; auto.
Qed.

Lemma size_at_member s fl a n : heap_ok s fl -> (a, n) ∈ fl -> size_at a fl = n.
Proof.
  intros [_ Hs HL] (l1 & l2 & ->)%list_elem_of_split. apply size_at_split.
  eapply layout_spaced; [|done]. by apply sized_ge.
Qed.

(** The four shapes of the list after a block is given back. *)
Inductive given (h k : Z) (fl : list region) : list region -> Prop :=
| given_both b bn a an :
    (b, bn) ∈ fl -> (a, an) ∈ fl -> b + bn = h -> h + k = a ->
    below h fl 0 = b -> above h fl 0 = a ->
    given h k fl (remove_at a (set_size_at b (bn + k + an) fl))
| given_low b bn :
    (b, bn) ∈ fl -> b + bn = h -> below h fl 0 = b -> above h fl 0 <> h + k ->
    given h k fl (set_size_at b (bn + k) fl)
| given_high a an :
    (a, an) ∈ fl -> h + k = a -> above h fl 0 = a ->
    (below h fl 0 = 0 \/ exists n, (below h fl 0, n) ∈ fl /\ below h fl 0 + n <> h) ->
    given h k fl ((h, k - node_size + an) :: remove_at a fl)
| given_alone :
    above h fl 0 <> h + k ->
    (below h fl 0 = 0 \/ exists n, (below h fl 0, n) ∈ fl /\ below h fl 0 + n <> h) ->
    given h k fl ((h, k - node_size) :: fl).

Lemma give_back_given s fl h k : pending s fl h k -> given h k fl (give_back h k fl).
Proof.
  intros Hp. destruct (pending_facts _ _ _ _ Hp) as (? & ? & ? & ? & Hpos & _ & _).
  destruct Hp as (Hok & _). unfold give_back.
  pose proof (above_member h fl Hpos) as Ha. pose proof (below_member h fl Hpos) as Hb.
  destruct (Z.eqb_spec (below h fl 0) 0) as [E|Hb0]; simpl.
  - destruct (Z.eqb_spec (h + k) (above h fl 0)) as [E'|Hne].
    + destruct (Ha ltac:(lia)) as (_ & an & Hin). rewrite (size_at_member _ _ _ _ Hok Hin).
      eapply given_high; eauto.
    + apply given_alone; auto.
  - destruct (Hb Hb0) as (_ & bn & Hbin). rewrite (size_at_member _ _ _ _ Hok Hbin).
    destruct (Z.eqb_spec (below h fl 0 + bn) h) as [Eb|Hbn];
      destruct (Z.eqb_spec (h + k) (above h fl 0)) as [E'|Hne].
    + destruct (Ha ltac:(lia)) as (_ & an & Hin). rewrite (size_at_member _ _ _ _ Hok Hin).
      eapply given_both; eauto.
    + eapply given_low; eauto.
    + destruct (Ha ltac:(lia)) as (_ & an & Hin). rewrite (size_at_member _ _ _ _ Hok Hin).
      eapply given_high; eauto.
    + apply given_alone; eauto.
Qed.

(** Members taken out of a free list. *)
Lemma heap_ok_spaced s fl : heap_ok s fl -> pairwise spaced fl.
Proof. intros [_ Hs HL]. apply layout_spaced in HL; [done|by apply sized_ge]. Qed.

Lemma give_back_layout s fl h k L :
  pending s fl h k -> layout lo hi ((h, k) :: fl ++ L) ->
  layout lo hi (give_back h k fl ++ L) /\ Forall sized (give_back h k fl).
Proof.
  intros Hp HL. pose proof (give_back_given _ _ _ _ Hp) as Hg.
  pose proof (pending_facts _ _ _ _ Hp) as (? & ? & Hk & Hm & _ & _ & Hfl).
  destruct Hp as (Hok & _). pose proof (ho_sized _ _ Hok) as Hs.
  destruct Hg as [b bn a an Hb Ha Eb Ea|b bn Hb Eb|a an Ha Ea|].
  - destruct (spaced_perm2 fl b bn a an (heap_ok_spaced _ _ Hok) Hb Ha) as (rest & E & Er).
    { destruct (Hfl _ Hb) as (_ & _ & _ & ?). simpl in *. lia. }
    rewrite E in HL, Hs. rewrite !Forall_cons in Hs. destruct Hs as ([Hs1 Hs2] & [Hs3 Hs4] & Hs).
    simpl in *. rewrite Er. split.
    + assert (layout lo hi ((b, bn) :: (b + bn, k) :: (a, an) :: rest ++ L)) as HL'.
      { eapply layout_proper; [|exact HL]. rewrite Eb. simpl. solve_Permutation. }
      apply layout_join in HL'. apply (layout_join _ _ b (bn + k) an).
      replace (b + (bn + k)) with a by lia. done.
    + apply Forall_cons. split; [|done]. unfold sized. simpl. split; [lia|].
      Z.div_mod_to_equations; lia.
  - destruct (spaced_perm1 fl b bn (heap_ok_spaced _ _ Hok) Hb) as (rest & E & Er & _).
    rewrite E in HL, Hs. apply Forall_cons in Hs as [[Hs1 Hs2] Hs]. simpl in *. rewrite Er. split.
    + apply layout_join. rewrite Eb. eapply layout_proper; [|exact HL]. solve_Permutation.
    + apply Forall_cons. split; [|done]. unfold sized. simpl. split; [lia|].
      Z.div_mod_to_equations; lia.
  - destruct (spaced_perm1 fl a an (heap_ok_spaced _ _ Hok) Ha) as (rest & E & _ & Er).
    rewrite E in HL, Hs. apply Forall_cons in Hs as [[Hs1 Hs2] Hs]. simpl in *. rewrite Er.
    unfold node_size. split.
    + subst a. apply layout_join in HL. eapply layout_shrink; [| | |exact HL]; lia.
    + apply Forall_cons. split; [|done]. unfold sized. simpl. split; [lia|].
      Z.div_mod_to_equations; lia.
  - unfold node_size. split.
    + eapply layout_shrink; [| | |exact HL]; lia.
    + apply Forall_cons. split; [|done]. unfold sized. simpl. split; [lia|].
      Z.div_mod_to_equations; lia.
Qed.

Definition merge_post (s : kstate) (fl : list region) (h k : Z) (s' : kstate) : Prop :=
  node_list (k_mem s') (head s') (give_back h k fl) 0 /\
  only_in (covers ((h, k) :: fl)) (k_mem s) (k_mem s') /\
  heap_lock s' = heap_lock s /\ cpupagelist s' = cpupagelist s.

Lemma merge_both s fl h k b bn a an :
  pending s fl h k -> (length fl + 1 < fuel)%nat ->
  (b, bn) ∈ fl -> (a, an) ∈ fl -> b + bn = h -> h + k = a ->
  give_back h k fl = remove_at a (set_size_at b (bn + k + an) fl) ->
  wp (kfree_huge_merge fuel (h + node_size) h (k - node_size) b a) s
    (fun _ s' => merge_post s fl h k s').
Proof.
  intros Hp Hf Hb Ha Eb Ea Eg.
  pose proof (pending_facts _ _ _ _ Hp) as (Hh & Hhk & Hk & Hm & Hpos & [_ Hsp] & Hfl).
  destruct (Hfl _ Hb) as (_ & Hb1 & Hb2 & Hb3), (Hfl _ Ha) as (_ & Ha1 & Ha2 & Ha3).
  destruct Hp as (Hok & _). pose proof (ho_list _ _ Hok) as Hl. simpl in *.
  pose proof Hb as (l1 & l2 & E)%list_elem_of_split.
  unfold kfree_huge_merge, node_size. destruct (Z.eqb_spec b 0); [lia|]. k_steps.
  rewrite (node_list_size _ _ _ _ _ _ Hl Hb), !wrap_small by lia.
  destruct (Z.eqb_spec (b + bn) h); [|lia]. simpl. k_steps.
  destruct (Z.eqb_spec (h + 16 + (k - 16)) a); [|lia]. k_steps.
  assert (give_back h k fl = remove_at a (l1 ++ (b, bn + k + an) :: l2)) as Eg'.
  { rewrite Eg, E, set_size_at_split; [done|by rewrite <- E]. }
  rewrite E in Hl, Hsp.
  apply (node_list_resize _ _ _ _ _ (bn + (k - 16) + 16)) in Hl; [|done|lia].
  apply (spaced_resize _ _ _ (bn + (k - 16) + 16)) in Hsp.
  rewrite (node_list_size _ _ _ _ b _ Hl) by (apply elem_of_app; right; by left).
  assert ((a, an) ∈ l1 ++ (b, bn + k + an) :: l2) as Ha'.
  { rewrite E in Ha. apply elem_of_app in Ha as [?|[[= ? ?]|?]%elem_of_cons]; [|lia|];
      apply elem_of_app; [by left|right; by right]. }
  rewrite (node_list_size _ _ _ _ a an Hl)
    by (apply elem_of_app in Ha' as [?|[[= ? ?]|?]%elem_of_cons]; [|lia|];
        apply elem_of_app; [by left|right; by right]).
  apply (node_list_resize _ _ _ _ _ (bn + k + an)) in Hl; [|done|lia].
  apply (spaced_resize _ _ _ (bn + k + an)) in Hsp.
  replace (bn + (k - 16) + 16 + an) with (bn + k + an) by lia.
  pose proof (ho_sized _ _ Hok) as Hs.
  assert (length (l1 ++ (b, bn + k + an) :: l2) = length fl) as Hlen
    by (rewrite E, !length_app; done).
  assert (forall r, r ∈ l1 ++ (b, bn + k + an) :: l2 -> exists n, (r.1, n) ∈ fl) as Hmem.
  { intros r Hr. apply elem_of_app in Hr as [Hr|[->|Hr]%elem_of_cons].
    - exists r.2. rewrite E. apply elem_of_app. left. by destruct r.
    - exists bn. done.
    - exists r.2. rewrite E. apply elem_of_app. right. right. by destruct r. }
  revert Eg' Hl Hsp Ha' Hlen Hmem. generalize (l1 ++ (b, bn + k + an) :: l2).
  intros fl' Eg' Hl Hsp (k1 & k2 & ->)%list_elem_of_split Hlen Hmem.
  apply wp_bind_inv. lazymatch goal with |- wp _ ?st _ => eapply (wp_unlink_after st) end;
    simpl; [exact Hl|done|lia|].
  split; simpl; [|split_and!; [|done|done]].
  - rewrite Eg', remove_at_split by done. by apply node_list_unlink in Hl.
  - eapply relink_covers; [|exact Hs| |].
    + repeat (eapply only_in_nodes; [|exact Hs|exact Hb| |lia|lia]); [done|..];
        intros x Hx; apply covers_cons; by right.
    + intros r Hr. apply Hmem, elem_of_app. by left.
    + intros x Hx. apply covers_cons. by right.
Qed.

Lemma merge_low s fl h k b bn a :
  pending s fl h k -> (b, bn) ∈ fl -> b + bn = h -> a <> h + k ->
  give_back h k fl = set_size_at b (bn + k) fl ->
  wp (kfree_huge_merge fuel (h + node_size) h (k - node_size) b a) s
    (fun _ s' => merge_post s fl h k s').
Proof.
  intros Hp Hb Eb Ea Eg.
  pose proof (pending_facts _ _ _ _ Hp) as (Hh & Hhk & Hk & Hm & Hpos & [_ Hsp] & Hfl).
  destruct (Hfl _ Hb) as (_ & Hb1 & Hb2 & Hb3).
  destruct Hp as (Hok & _). pose proof (ho_list _ _ Hok) as Hl. simpl in *.
  pose proof Hb as (l1 & l2 & E)%list_elem_of_split.
  unfold kfree_huge_merge, node_size. destruct (Z.eqb_spec b 0); [lia|]. k_steps.
  rewrite (node_list_size _ _ _ _ _ _ Hl Hb), !wrap_small by lia.
  destruct (Z.eqb_spec (b + bn) h); [|lia]. simpl. k_steps.
  destruct (Z.eqb_spec (h + 16 + (k - 16)) a); [lia|]. k_steps.
  split; simpl; [|split_and!; [|done|done]].
  - rewrite Eg, E, set_size_at_split by (by rewrite <- E).
    rewrite E in Hl, Hsp. replace (bn + (k - 16) + 16) with (bn + k) by lia.
    eapply node_list_resize; [exact Hsp|lia|exact Hl].
  - eapply only_in_nodes; [done|apply Hok|exact Hb| |lia|lia].
    intros x Hx. apply covers_cons. by right.
Qed.

(** The block pushed on the list as a node of its own. *)
Lemma push_pending s fl h k n m' :
  pending s fl h k -> only_in (inr h 16) (k_mem s) m' -> load64 m' h = head s ->
  loadi32 m' (h + 8) = n -> node_list m' h ((h, n) :: fl) 0 /\ pairwise spaced ((h, n) :: fl).
Proof.
  intros Hp Hm Hn Hs.
  pose proof (pending_facts _ _ _ _ Hp) as (Hh & Hhk & Hk & Hmod & Hpos & [Hsp1 Hsp2] & Hfl).
  assert (Forall (spaced (h, n)) fl) as Hsp.
  { eapply Forall_impl; [exact Hsp1|]. by intros r. }
  split; [|by split]. eapply node_list_push; try done; [lia|]. apply Hp.
Qed.

Lemma not_low h fl b :
  b = 0 \/ (exists n, (b, n) ∈ fl /\ b + n <> h) -> Forall (fun r => 0 < r.1) fl ->
  forall (s : kstate), node_list (k_mem s) (head s) fl 0 ->
  (forall n, (b, n) ∈ fl -> 0 <= b + n < 2 ^ 64) -> 0 <= h < 2 ^ 64 ->
  wp (if b =? 0 then mret 0 else get_size b) s (fun bsz s' =>
    s' = s /\ negb (b =? 0) && (u64 (b + bsz) =? u64 h) = false).
Proof.
  intros Hb Hpos s Hl Hr Hh. destruct (Z.eqb_spec b 0) as [->|Hb0]; simpl.
  - by apply wp_ret.
  - destruct Hb as [->|(n & Hin & Hn)]; [done|].
    k_steps. split; [done|]. rewrite (node_list_size _ _ _ _ _ _ Hl Hin).
    rewrite !wrap_small by auto. by apply Z.eqb_neq.
Qed.

Lemma merge_alone s fl h k b a :
  pending s fl h k -> a <> h + k ->
  (b = 0 \/ exists n, (b, n) ∈ fl /\ b + n <> h) ->
  give_back h k fl = (h, k - node_size) :: fl ->
  wp (kfree_huge_merge fuel (h + node_size) h (k - node_size) b a) s
    (fun _ s' => merge_post s fl h k s').
Proof.
  intros Hp Ea Hb Eg.
  pose proof (pending_facts _ _ _ _ Hp) as (Hh & Hhk & Hk & Hm & Hpos & [_ Hsp] & Hfl).
  unfold kfree_huge_merge. apply wp_bind.
  eapply wp_mono. { eapply (not_low h fl b Hb Hpos); [apply Hp| |lia].
    intros n Hin. destruct (Hfl _ Hin) as (_ & ? & ? & ?). simpl in *. lia. }
  intros bsz s' [-> ->]. unfold node_size.
  destruct (Z.eqb_spec (h + 16 + (k - 16)) a); [lia|]. k_steps.
  set (m' := store64 _ _ _).
  assert (only_in (inr h 16) (k_mem s) m') as Hm'.
  { repeat apply only_in_store; [done|..]; unfold inr; lia. }
  assert (load64 m' h = head s /\ loadi32 m' (h + 8) = k - 16) as [E1 E2].
  { unfold m'. rewrite load64_store64, loadi32_store64_ne, loadi32_store32 by lia.
    rewrite signed_small by lia. split; [|done]. apply wrap_small.
    destruct Hp as (Hok & _). rewrite (node_list_first _ _ _ _ (ho_list _ _ Hok)).
    destruct fl as [|r fl]; simpl; [done|]. destruct (Hfl r ltac:(by left)) as (_ & ? & ? & ?).
    lia. }
  destruct (push_pending _ _ _ _ _ _ Hp Hm' E1 E2) as [Hl' _].
  split; simpl; [by rewrite Eg|split_and!; [|done|done]].
  eapply only_in_weaken; [exact Hm'|]. intros x Hx. apply covers_cons. left.
  unfold inr in *; simpl; lia.
Qed.

Lemma merge_high s fl h k b a an :
  pending s fl h k -> (length fl + 1 < fuel)%nat -> (a, an) ∈ fl -> h + k = a ->
  (b = 0 \/ exists n, (b, n) ∈ fl /\ b + n <> h) ->
  give_back h k fl = (h, k - node_size + an) :: remove_at a fl ->
  wp (kfree_huge_merge fuel (h + node_size) h (k - node_size) b a) s
    (fun _ s' => merge_post s fl h k s').
Proof.
  intros Hp Hf Ha Ea Hb Eg.
  pose proof (pending_facts _ _ _ _ Hp) as (Hh & Hhk & Hk & Hm & Hpos & [_ Hsp] & Hfl).
  destruct (Hfl _ Ha) as (_ & Ha1 & Ha2 & Ha3). simpl in *.
  pose proof Hp as (Hok & _).
  unfold kfree_huge_merge. apply wp_bind.
  eapply wp_mono. { eapply (not_low h fl b Hb Hpos); [apply Hp| |lia].
    intros n Hin. destruct (Hfl _ Hin) as (_ & ? & ? & ?). simpl in *. lia. }
  intros bsz s' [-> ->]. unfold node_size.
  destruct (Z.eqb_spec (h + 16 + (k - 16)) a); [|lia]. do 12 (try k_step).
  rewrite (node_list_size _ _ _ _ _ _ (ho_list _ _ Hok) Ha).
  set (m' := store64 _ _ _).
  assert (only_in (inr h 16) (k_mem s) m') as Hm'.
  { repeat apply only_in_store; [done|..]; unfold inr; lia. }
  assert (load64 m' h = head s /\ loadi32 m' (h + 8) = k - 16 + an) as [E1 E2].
  { unfold m'. rewrite load64_store64, loadi32_store64_ne, loadi32_store32 by lia.
    rewrite signed_small by lia. split; [|done]. apply wrap_small.
    rewrite (node_list_first _ _ _ _ (ho_list _ _ Hok)).
    destruct fl as [|r fl]; simpl; [done|]. destruct (Hfl r ltac:(by left)) as (_ & ? & ? & ?).
    lia. }
  destruct (push_pending _ _ _ _ _ _ Hp Hm' E1 E2) as [Hl' Hsp'].
  clearbody m'. pose proof Ha as (l1 & l2 & E)%list_elem_of_split.
  assert (Forall sized fl) as Hs by apply Hok.
  assert (remove_at a fl = l1 ++ l2) as Er.
  { rewrite E. eapply remove_at_split. by rewrite E in Hsp. }
  rewrite E in Hl', Hsp'.
  eapply wp_mono. { apply (find_pred_some _ ((h, k - 16 + an) :: l1) a an l2); simpl;
      [exact Hl'| |exact Hsp'|done]. rewrite E, length_app in Hf. simpl in Hf. lia. }
  intros r s' [-> ->]. rewrite last_addr_cons. simpl.
  assert (0 < last_addr l1 h) as Hlast.
  { pose proof (relink_last_addr m' (h, k - 16 + an) l1 0) as [_ Hl1].
    simpl in Hl1. destruct Hl1 as (r & Hr & ->).
    apply elem_of_cons in Hr as [->|Hr]; simpl; [lia|].
    rewrite Forall_forall in Hpos. apply Hpos. rewrite E. apply elem_of_app. by left. }
  k_steps. destruct (relink_last_addr m' (h, k - 16 + an) l1 (load64 m' a)) as [Er' _].
  simpl in Er'. rewrite <- Er'. clear Er'.
  split; simpl; [|split_and!; [|done|done]].
  - rewrite Eg, Er. unfold node_size.
    by apply (node_list_unlink _ _ ((h, k - 16 + an) :: l1) a an l2 0 Hsp') in Hl'.
  - apply relink_only_in.
    + eapply only_in_weaken; [exact Hm'|]. intros x Hx. apply covers_cons. left.
      unfold inr in *; simpl; lia.
    + intros r x Hr Hx. apply covers_cons. pose proof (in_nodes_last _ _ _ Hr Hx) as Hx'.
      apply in_nodes_cons in Hx' as [Hx'|Hx']; [left; unfold inr in *; simpl in *; lia|right].
      apply in_nodes_covers; [done|]. rewrite E. apply in_nodes_app. by left.
Qed.

Lemma merge_spec s fl h k :
  pending s fl h k -> (length fl + 1 < fuel)%nat ->
  wp (kfree_huge_merge fuel (h + node_size) h (k - node_size) (below h fl 0) (above h fl 0)) s
    (fun _ s' => merge_post s fl h k s').
Proof.
  intros Hp Hf. pose proof (give_back_given _ _ _ _ Hp) as Hg.
  remember (give_back h k fl) as fl' eqn:Eg. symmetry in Eg.
  destruct Hg as [b bn a an Hb Ha Eb Ea -> ->|b bn Hb Eb -> Hn|a an Ha Ea -> Hb|Hn Hb].
  - by eapply merge_both.
  - by eapply merge_low.
  - by eapply merge_high.
  - by eapply merge_alone.
Qed.

Lemma pending_frame s fl h k m' hl :
  pending s fl h k -> only_in (inr h k) (k_mem s) m' ->
  pending (mk_kstate m' (head s) hl (cpupagelist s)) fl h k.
Proof.
  intros (Hok & HL & Hk & Hm) Ho. split_and!; [|done|done|done].
  destruct Hok as [Hl Hs HL']. split; simpl; [|done|done].
  eapply (layout_frame lo hi [] h k fl fl); [exact HL|done|done|exact Ho|exact Hl].
Qed.

Lemma kfree_huge_spec s fl h k :
  pending s fl h k -> huge_hdr (k_mem s) (h, k) -> heap_lock s = 0 ->
  (length fl + 1 < fuel)%nat ->
  wp (kfree_huge fuel (h + node_size)) s (fun _ s' =>
    heap_ok s' (give_back h k fl) /\ only_in (covers ((h, k) :: fl)) (k_mem s) (k_mem s') /\
    heap_lock s' = 0 /\ cpupagelist s' = cpupagelist s).
Proof.
  intros Hp [Hh1 Hh2] H0 Hf. simpl in Hh1, Hh2.
  pose proof (pending_facts _ _ _ _ Hp) as (Hh & Hhk & Hk & Hm & Hpos & [_ Hsp] & Hfl).
  assert (layout lo hi (give_back h k fl) /\ Forall sized (give_back h k fl)) as [HL' Hs'].
  { destruct (give_back_layout s fl h k [] Hp) as [HL' Hs'].
    - rewrite app_nil_r. apply Hp.
    - by rewrite app_nil_r in HL'. }
  unfold kfree_huge. apply wp_bind, wp_lock_heap; [lia|done|].
  replace (h + node_size - node_size) with h by lia. k_steps.
  { rewrite Hh2. done. }
  assert (u64 (loadi32 (k_mem s) (h + 8)) = k - node_size) as Eu.
  { rewrite Hh1. apply wrap_small. unfold node_size. lia. }
  rewrite Eu. replace (k - node_size + node_size) with k by lia. rewrite (wrap_small 64 k) by lia.
  set (m1 := memset_loop _ _ _ _ _).
  assert (only_in (inr h k) (k_mem s) m1) as Hm1 by (apply only_in_memset; [lia|done..]).
  apply (pending_frame _ _ _ _ m1 1) in Hp; [|done].
  eapply wp_mono. { apply (neighbours_spec _ _ _ fl); [apply Hp|lia]. }
  intros [b a] s' [[= -> ->] ->]. simpl. k_steps.
  eapply wp_mono; [by apply merge_spec|]. intros _ s' (Hn & Ho & Hl' & Hc'). simpl in *.
  k_steps. split_and!; [by split| |done|done].
  eapply only_in_trans; [|exact Ho]. eapply only_in_weaken; [exact Hm1|].
  intros x Hx. apply covers_cons. by left.
Qed.

(** ** What the operations do to the free memory *)

Definition total (fl : list region) : Z := foldr (fun r t => r.2 + t) 0 fl.

#[export] Instance total_proper : Proper ((≡ₚ) ==> (=)) total.
Proof.
  intros l1 l2 H. induction H as [| |x y l|l1 l2 l3 H1 IH1 H2 IH2]; simpl; [done|lia|lia|congruence].
Qed.

Lemma total_app l1 l2 : total (l1 ++ l2) = total l1 + total l2.
Proof. induction l1 as [|r l1 IH]; simpl; [done|lia]. Qed.

(** [allockpage] takes the low 64 KiB of the first region of the list that has as much,
    keeps the list, its order and its layout, and returns NULL only when no region has. *)
Theorem allockpage_first_fit s fl :
  heap_ok s fl -> heap_lock s = 0 -> (length fl < fuel)%nat ->
  wp (allockpage fuel) s (fun a s' =>
    (a = 0 /\ s' = s /\ Forall (fun r => r.2 < PAGE) fl) \/
    exists l1 sz l2, fl = l1 ++ (a, sz) :: l2 /\ Forall (fun r => r.2 < PAGE) l1 /\ PAGE <= sz /\
      heap_ok s' (l1 ++ (if sz =? PAGE then l2 else (a + PAGE, sz - PAGE) :: l2)) /\
      only_in (covers fl) (k_mem s) (k_mem s') /\ heap_lock s' = 0 /\
      cpupagelist s' = cpupagelist s).
Proof.
  intros Hok Hl Hf. destruct (take_page fl) as [[a fl']|] eqn:E.
  - eapply wp_mono; [by eapply allockpage_some|]. intros r s' (-> & Hok' & Ho & Hl' & Hc). right.
    apply take_page_some in E as (l1 & sz & l2 & -> & H1 & H2 & ->). by exists l1, sz, l2.
  - eapply wp_mono; [by eapply allockpage_none|]. intros r s' [-> ->]. left.
    by apply take_page_none in E.
Qed.

(** [kallocHugeMemory] takes the block from the region at the highest address among
    those of at least the size of the block, at the high end of that region, below it the
    header that records the size; the region keeps the rest. *)
Theorem kallocHuge_highest s fl size :
  heap_ok s fl -> heap_lock s = 0 -> (length fl < fuel)%nat -> 0 < size -> size mod 16 = 0 ->
  Forall (fun r => r.2 < size \/ size + 32 <= r.2) fl ->
  wp (kallocHugeMemory fuel size) s (fun ret s' =>
    (ret = 0 /\ s' = s /\ Forall (fun r => r.2 < size) fl) \/
    exists a n l1 l2, fl = l1 ++ (a, n) :: l2 /\ ret = a + n - size /\ size + 32 <= n /\
      (forall b k, (b, k) ∈ fl -> size <= k -> b <= a) /\
      heap_ok s' (l1 ++ (a, n - size - node_size) :: l2) /\
      loadi32 (k_mem s') (ret - 8) = size /\ loadi32 (k_mem s') (ret - 4) = 7654321 /\
      only_in (covers fl) (k_mem s) (k_mem s')).
Proof.
  intros Hok Hl Hf Hs Hmod Hroom. pose proof (heap_ok_pos _ _ Hok) as Hpos.
  destruct (best_fit_spec size fl 0 Hpos ltac:(lia)) as (_ & Hb & Hmax).
  destruct Hb as [E|(n & Hin & Hsn)].
  - eapply wp_mono; [eapply kallocHuge_none; [exact Hok|done|done|lia|by apply best_fit_none]|].
    intros r s' [-> ->]. left. split; [done|]. split; [done|by apply best_fit_none].
  - rewrite Forall_forall in Hroom. pose proof (Hroom _ Hin) as Hr. simpl in Hr.
    eapply wp_mono; [eapply kallocHuge_some; [exact Hok|done|done|done|done|reflexivity|exact Hin|lia]|].
    intros r s' (-> & Hok' & [Hh1 Hh2] & Ho & _). right.
    pose proof Hin as (l1 & l2 & E)%list_elem_of_split. exists (best_fit size fl 0), n, l1, l2.
    rewrite E in Hok at 1. pose proof (carve_split _ _ _ _ _ size Hok) as Ec. rewrite <- E in Ec.
    rewrite Ec in Hok'. unfold node_size in Hh1, Hh2 |- *. simpl in Hh1, Hh2.
    split; [done|]. split; [done|]. split; [lia|]. split; [exact Hmax|]. split; [exact Hok'|].
    rewrite <- Hh2. split; [|split; [f_equal; lia|exact Ho]].
    etrans; [|etrans; [exact Hh1|lia]]. f_equal. lia.
Qed.

(** Freeing a huge block that takes [k] bytes with its header returns all [k] bytes when
    a free region ends where the header starts, and 16 bytes less otherwise: those 16 bytes
    are never allocated again. *)
Theorem kfree_huge_bytes s fl h k :
  pending s fl h k -> huge_hdr (k_mem s) (h, k) -> heap_lock s = 0 -> (length fl + 1 < fuel)%nat ->
  wp (kfree_huge fuel (h + node_size)) s (fun _ s' => exists fl', heap_ok s' fl' /\
    ((exists b n, (b, n) ∈ fl /\ b + n = h) -> total fl' = total fl + k) /\
    (~ (exists b n, (b, n) ∈ fl /\ b + n = h) -> total fl' = total fl + k - node_size)).
Proof.
  intros Hp Hh Hl Hf. eapply wp_mono; [by eapply kfree_huge_spec|]. intros _ s' (Hok & _).
  exists (give_back h k fl). split; [done|]. clear Hok Hh Hl Hf s'.
  pose proof (give_back_given _ _ _ _ Hp) as Hg. pose proof Hp as (Hok & _).
  pose proof (pending_facts _ _ _ _ Hp) as (? & ? & ? & _ & Hpos & _ & Hfl).
  pose proof (heap_ok_spaced _ _ Hok) as Hsp.
  assert (forall b n, (b, n) ∈ fl -> b + n = h -> below h fl 0 = b) as Hbelow.
  { intros b n Hb E. destruct (below_spec h fl 0 Hpos ltac:(lia)) as (_ & H2 & H3).
    destruct (Hfl _ Hb) as (_ & ? & ? & ?). simpl in *. specialize (H3 _ _ Hb ltac:(lia)).
    destruct H2 as [E0|(Hlt & m & Hm)]; [lia|].
    destruct (Z.eq_dec (below h fl 0) b) as [|Hne]; [done|].
    destruct (layout_disj _ _ _ _ _ (ho_layout _ _ Hok) Hm Hb); [congruence|..]; simpl in *;
      destruct (Hfl _ Hm) as (_ & ? & ? & ?); simpl in *; lia. }
  destruct Hg as [b bn a an Hb Ha Eb Ea _ _|b bn Hb Eb _ _|a an Ha Ea _ Hn|_ Hn].
  - destruct (spaced_perm2 fl b bn a an Hsp Hb Ha) as (rest & E & Er); [destruct (Hfl _ Hb) as (_ & _ & _ & ?); simpl in *; lia|]. rewrite Er, E. simpl.
    split; [lia|]. intros []. eauto.
  - destruct (spaced_perm1 fl b bn Hsp Hb) as (rest & E & Er & _). rewrite Er, E. simpl.
    split; [lia|]. intros []. eauto.
  - destruct (spaced_perm1 fl a an Hsp Ha) as (rest & E & _ & Er). simpl. rewrite Er.
    assert (total fl = an + total rest) as -> by (by rewrite E).
    split; [|lia]. intros (b & n & Hb & Eb). exfalso. pose proof (Hbelow _ _ Hb Eb) as E'. rewrite E' in Hn.
    destruct (Hfl _ Hb) as (_ & ? & ? & ?). simpl in *. destruct Hn as [?|(m & Hm & Em)]; [lia|].
    apply Em. rewrite <- (size_at_member _ _ _ _ Hok Hm), (size_at_member _ _ _ _ Hok Hb). done.
  - simpl. split; [|lia]. intros (b & n & Hb & Eb). exfalso. pose proof (Hbelow _ _ Hb Eb) as E'. rewrite E' in Hn.
    destruct (Hfl _ Hb) as (_ & ? & ? & ?). simpl in *. destruct Hn as [?|(m & Hm & Em)]; [lia|].
    apply Em. rewrite <- (size_at_member _ _ _ _ Hok Hm), (size_at_member _ _ _ _ Hok Hb). done.
Qed.
End Spec.

(** ** Concrete heaps: one free region at 64 KiB, followed by a huge block of 64 KiB *)

Definition demo_heap (n : Z) : kstate :=
  mk_kstate
    (store32 (store32 (store64 (store32 (fun _ => 0) (65536 + 8) n) 65536 0) (65536 + n + 8) 65536)
       (65536 + n + 12) 7654321) 65536 0 [].

Lemma demo_heap_ok n :
  sized (65536, n) -> n < 2 ^ 30 -> heap_ok 65536 (65536 + n) (demo_heap n) [(65536, n)].
Proof.
  intros Hs Hn. pose proof Hs as [H1 H2]. simpl in H1, H2. split.
  - simpl. mem_simpl. rewrite signed_small by lia. by split_and!.
  - by constructor.
  - apply layout_cons. split; [unfold rbound; simpl; lia|]. split; [constructor|by split; [constructor|]].
Qed.

Lemma demo_heap_pending :
  pending 65536 (65536 + 131072 + 65552) (demo_heap 131072) [(65536, 131072)] (65536 + 131072) 65552.
Proof.
  destruct (demo_heap_ok 131072) as [H1 H2 H3]; [by split; vm_compute|lia|].
  split; [split; [exact H1|exact H2|]|split; [|split; [lia|done]]];
    repeat (apply layout_cons; split; [unfold rbound; simpl; lia|]; split;
      [repeat constructor; unfold rdisj; simpl; lia|]); split; constructor.
Qed.

Lemma demo_heap_header : huge_hdr (k_mem (demo_heap 131072)) (65536 + 131072, 65552).
Proof. split; vm_compute; reflexivity. Qed.

Lemma allockpage_first_fit_witness :
  wp (allockpage 9) (demo_heap 131072) (fun a _ => a = 0 \/ a = 65536).
Proof.
  eapply wp_mono.
  { exact (allockpage_first_fit 65536 (65536 + 131072) ltac:(lia) ltac:(lia) 9 _ _
      (demo_heap_ok 131072 ltac:(by split; vm_compute) ltac:(lia)) eq_refl ltac:(simpl; lia)). }
  intros a s' [(-> & _)|(l1 & sz & l2 & E & _)]; [by left|right].
  destruct l1 as [|r l1]; [by injection E|by destruct l1].
Defined.

Lemma kallocHuge_highest_witness :
  wp (kallocHugeMemory 9 65536) (demo_heap 131072) (fun r _ => r = 0 \/ r = 131072).
Proof.
  eapply wp_mono.
  { refine (kallocHuge_highest 65536 (65536 + 131072) ltac:(lia) ltac:(lia) ltac:(lia) 9 _ _ 65536
      (demo_heap_ok 131072 ltac:(by split; vm_compute) ltac:(lia)) eq_refl ltac:(simpl; lia) ltac:(lia) eq_refl _).
    constructor; [right; simpl; lia|constructor]. }
  intros r s' [(-> & _)|(a & n & l1 & l2 & E & -> & _)]; [by left|right].
  destruct l1 as [|x l1]; [by injection E as <- <- <-|by destruct l1].
Defined.

Lemma kallocHuge_tight_witness :
  wp (kallocHugeMemory 9 65536) (demo_heap 65536) (fun r s' =>
    r = 65536 /\ loadi32 (k_mem s') (65536 - 8) = 65536).
Proof.
  eapply wp_mono.
  { refine (kallocHuge_tight 65536 (65536 + 65536) ltac:(lia) ltac:(lia) 9 (demo_heap 65536) [(65536, 65536)] 65536 65536 65536
      (demo_heap_ok 65536 ltac:(by split; vm_compute) ltac:(lia)) eq_refl ltac:(simpl; lia) ltac:(lia) ltac:(lia) eq_refl _ eq_refl).
    by left. }
  intros r s' (-> & H & _). by split.
Defined.

Lemma kfree_huge_bytes_witness :
  wp (kfree_huge 9 (65536 + 131072 + 16)) (demo_heap 131072) (fun _ s' => exists fl',
    heap_ok 65536 (65536 + 131072 + 65552) s' fl' /\ total fl' = 131072 + 65552).
Proof.
  eapply wp_mono.
  { exact (kfree_huge_bytes 65536 (65536 + 131072 + 65552) ltac:(lia) ltac:(lia) ltac:(lia) 9 _ _ _ _
      demo_heap_pending demo_heap_header eq_refl ltac:(simpl; lia)). }
  intros _ s' (fl' & Hok & H & _). exists fl'. split; [exact Hok|].
  rewrite H; [done|]. exists 65536, 131072. split; [by left|done].
Defined.
