(* ===== verification/Pmm.v ===== *)
(** * kalloc, kfree and pmm_init (kernel/src/pmm.c) *)

From stdpp Require Import prelude.
From S2P Require Import Prelude Mem KString FreeList Kernel Heap.

Section Code.
(** [cpu_count()] and [cpu_current()] of the abstract machine, for the processor that runs
    the operation; [fuel] bounds every loop. *)
Context (cpu_count cpu_current : Z) (fuel : nat).

(** Lines 182-186 and 193-197: [while (powval < size) powval *= 2;]. *)
Fixpoint pow_loop (k : nat) (powval size : Z) : M kstate Z :=
  match k with
  | O => raise OutOfFuel
  | S k => if powval <? size then pow_loop k (u64 (powval * 2)) size else mret powval
  end.

(** Lines 218-226: the first page of this block size that is not full. *)
Fixpoint find_page (k : nat) (ph size : Z) : M kstate Z :=
  match k with
  | O => raise OutOfFuel
  | S k =>
      if ph =? 0 then mret 0
      else
        psz ← get_size ph;
        idx ← get_index ph;
        if (u64 psz =? size) && (0 <? idx) then mret ph
        else nx ← get_next ph; find_page k nx size
  end.

(** Lines 271-280: the first page that belongs to no size. *)
Fixpoint find_empty (k : nat) (ph : Z) : M kstate Z :=
  match k with
  | O => raise OutOfFuel
  | S k =>
      if ph =? 0 then mret 0
      else
        psz ← get_size ph;
        idx ← get_index ph;
        if (psz =? 0) && (0 <? idx) then mret ph
        else nx ← get_next ph; find_empty k nx
  end.

(** Lines 204-215: the first page of a processor. *)
Definition kalloc_first (cpuno size : Z) : M kstate unit :=
  _ ← lock fuel (CpuLock cpuno);
  p ← allockpage fuel;
  _ ← set_pagehead cpuno p;
  ph ← get_pagehead cpuno;
  _ ← c_assert (negb (ph =? 0));
  _ ← set_next ph 0;
  _ ← set_size ph size;
  _ ← set_index ph 1;
  let pageFreend := ph + size in
  _ ← set_magic pageFreend 1234567;
  _ ← set_next pageFreend 0;
  _ ← set_size pageFreend (64 * 1024 - size);
  unlock (CpuLock cpuno).

(** Lines 229-267: a block from the page [ph]. *)
Definition kalloc_fast (cpuno ph size : Z) : M kstate Z :=
  psz ← get_size ph;
  _ ← c_assert (u64 psz =? size);
  idx ← get_index ph;
  let fd := ph + idx * size in
  fsz ← get_size fd;
  if size <=? u64 fsz then
    _ ← set_size fd (fsz - size);
    fsz ← get_size fd;
    _ ← (if fsz =? 0 then
           mg ← get_magic fd;
           _ ← c_assert (mg =? 1234567);
           nx ← get_next fd;
           if nx =? 0 then set_index ph 0
           else
             _ ← set_index ph (u64 (nx - ph) / size);
             idx ← get_index ph;
             c_assert (u64 (ph + idx * size) =? nx)
         else
           psz ← get_size ph;
           _ ← c_assert (u64 psz =? size);
           let newnode := fd + size in
           _ ← set_magic newnode 1234567;
           nx ← get_next fd;
           _ ← set_next newnode nx;
           fsz ← get_size fd;
           _ ← set_size newnode fsz;
           idx ← get_index ph;
           _ ← set_index ph (idx + 1);
           idx ← get_index ph;
           _ ← c_assert (u64 (ph + idx * size) =? newnode);
           c_assert (idx <? 64 * 1024 / size));
    _ ← unlock (CpuLock cpuno);
    _ ← memset fd 0 size;
    mret fd
  else
    _ ← unlock (CpuLock cpuno);
    raise Panic.

(** Lines 297-306: the first block of the page [pagehead], whose size was just set. *)
Definition kalloc_carve (cpuno pagehead size : Z) : M kstate Z :=
  idx ← get_index pagehead;
  let ret := pagehead + idx * size in
  let newnode := ret + size in
  _ ← set_magic newnode 1234567;
  _ ← set_next newnode 0;
  idx ← get_index pagehead;
  _ ← set_index pagehead (idx + 1);
  idx ← get_index pagehead;
  _ ← set_size newnode (64 * 1024 - idx * size);
  _ ← c_assert (u64 (pagehead + idx * size) =? newnode);
  _ ← memset ret 0 size;
  _ ← unlock (CpuLock cpuno);
  mret ret.

(** Lines 271-306: no page of this size has a free block. *)
Definition kalloc_slow (cpuno size : Z) : M kstate Z :=
  ph ← get_pagehead cpuno;
  pagehead ← find_empty fuel ph;
  if negb (pagehead =? 0) then
    _ ← set_size pagehead size;
    kalloc_carve cpuno pagehead size
  else
    pagehead ← allockpage fuel;
    if negb (pagehead =? 0) then
      ph ← get_pagehead cpuno;
      _ ← set_next pagehead ph;
      _ ← set_size pagehead size;
      _ ← set_index pagehead 1;
      _ ← set_pagehead cpuno pagehead;
      kalloc_carve cpuno pagehead size
    else
      _ ← unlock (CpuLock cpuno);
      mret 0.

(** Lines 200-307: an allocation of at most 16 KiB, [size] already a power of two. *)
Definition kalloc_small (size : Z) : M kstate Z :=
  let cpuno := cpu_current in
  _ ← c_assert (cpuno <=? cpu_count);
  ph ← get_pagehead cpuno;
  _ ← (if ph =? 0 then kalloc_first cpuno size else mret tt);
  _ ← lock fuel (CpuLock cpuno);
  ph ← get_pagehead cpuno;
  ph ← find_page fuel ph size;
  if negb (ph =? 0) then kalloc_fast cpuno ph size
  else kalloc_slow cpuno size.

(** [static void *kalloc(size_t size)] *)
Definition kalloc (size : Z) : M kstate Z :=
  if size <=? 32 then kalloc_small 32
  else if 16 * 1024 <? size then
    if 16 * 1024 * 1024 <? size then mret 0
    else
      size ← pow_loop fuel 32 size;
      kallocHugeMemory fuel size
  else
    size ← pow_loop fuel 32 size;
    kalloc_small size.

(** Lines 319-328: the page of one list that contains [ptr]. *)
Fixpoint find_owner (k : nat) (ph ptr : Z) : M kstate Z :=
  match k with
  | O => raise OutOfFuel
  | S k =>
      if ph =? 0 then mret 0
      else if (ph <? ptr) && (ptr <? u64 (ph + 64 * 1024)) then mret ph
      else nx ← get_next ph; find_owner k nx ptr
  end.

(** Lines 315-333: the page, of any processor, that contains [ptr]; [n] processors are left
    from number [i]. *)
Fixpoint find_owner_cpus (n : nat) (i ptr : Z) : M kstate Z :=
  match n with
  | O => mret 0
  | S n =>
      ph ← get_pagehead i;
      ph ← find_owner fuel ph ptr;
      if ph =? 0 then find_owner_cpus n (i + 1) ptr else mret ph
  end.

(** [(void * )ph + ph->pagefreehead_index * ph->size]: the head of the free list of a page, the
    product in 32-bit unsigned arithmetic. *)
Definition free_head (ph : Z) : M kstate Z :=
  idx ← get_index ph;
  psz ← get_size ph;
  mret (ph + u32 (idx * psz)).

(** [((uintptr_t)p - (uintptr_t)ph) / ph->size], the division of two 64-bit integers. *)
Definition block_index (p ph : Z) : M kstate Z :=
  psz ← get_size ph;
  if psz =? 0 then raise DivByZero else mret (u64 (p - ph) / u64 psz).

(** Lines 360-413: the freed block [ptr] of the page [ph] is merged with its neighbours or
    pushed on the free list of the page. *)
Definition kfree_page_merge (ph ptr before after : Z) : M kstate unit :=
  psz ← get_size ph;
  bsz ← (if before =? 0 then mret 0 else get_size before);
  if negb (before =? 0) && (u64 (before + bsz) =? u64 ptr) then
    _ ← set_size before (bsz + psz);
    psz ← get_size ph;
    _ ← (if ptr + psz =? after then
           bsz ← get_size before;
           asz ← get_size after;
           _ ← set_size before (bsz + asz);
           h ← free_head ph;
           h ← find_pred fuel after h;
           if negb (h =? 0) then
             anx ← get_next after;
             set_next h anx
           else
             i ← block_index before ph;
             set_index ph i
         else mret tt);
    bsz ← get_size before;
    psz ← get_size ph;
    if bsz =? 64 * 1024 - psz then set_size ph 0 else mret tt
  else if ptr + psz =? after then
    let pf := ptr in
    _ ← set_magic pf 1234567;
    psz ← get_size ph;
    asz ← get_size after;
    _ ← set_size pf (psz + asz);
    fh ← free_head ph;
    _ ← set_next pf fh;
    i ← block_index pf ph;
    _ ← set_index ph i;
    i ← get_index ph;
    _ ← c_assert (0 <? i);
    h ← free_head ph;
    h ← find_pred fuel after h;
    anx ← get_next after;
    _ ← set_next h anx;
    pfsz ← get_size pf;
    psz ← get_size ph;
    if pfsz =? 64 * 1024 - psz then set_size ph 0 else mret tt
  else
    let pf := ptr in
    _ ← set_magic pf 1234567;
    psz ← get_size ph;
    _ ← set_size pf psz;
    oldpfhead ← free_head ph;
    _ ← set_next pf oldpfhead;
    i ← block_index pf ph;
    _ ← set_index ph i;
    i ← get_index ph;
    c_assert (0 <? i).

(** Lines 338-413: a block of a page is freed. *)
Definition kfree_page (ph ptr : Z) : M kstate unit :=
  psz ← get_size ph;
  _ ← memset ptr 0 (u64 psz);
  h ← free_head ph;
  '(before, after) ← neighbours fuel ptr h 0 0;
  kfree_page_merge ph ptr before after.

(** [static void kfree(void *ptr)] *)
Definition kfree (ptr : Z) : M kstate unit :=
  _ ← c_assert (negb (ptr =? 0));
  _ ← lock fuel (CpuLock cpu_current);
  ph ← find_owner_cpus (Z.to_nat cpu_count) 0 ptr;
  if negb (ph =? 0) then
    _ ← kfree_page ph ptr;
    unlock (CpuLock cpu_current)
  else
    _ ← unlock (CpuLock cpu_current);
    kfree_huge fuel ptr.

(** Lines 502-506: the page lists of [n] processors from number [i]. *)
Fixpoint init_cpus (n : nat) (i : Z) : M kstate unit :=
  match n with
  | O => mret tt
  | S n => _ ← set_pagehead i 0; _ ← lockinit (CpuLock i); init_cpus n (i + 1)
  end.

(** [static void pmm_init()], without the message it prints (Os.v has it). *)
Definition pmm_init (heap_start heap_end : Z) : M kstate unit :=
  _ ← set_head heap_start;
  hd ← gets head;
  _ ← c_assert (negb (hd =? 0));
  _ ← set_size hd (heap_end - heap_start);
  _ ← set_next hd 0;
  _ ← lockinit HeapLock;
  _ ← init_cpus (Z.to_nat cpu_count) 0;
  lockinit HeapLock.
End Code.
