(* ===== verification/PageSpec.v ===== *)
(** * Pages: the free list of one 64 KiB page

    The abstract state of a page and its representation in memory ([page_ok]), the blocks of
    a page a client holds ([live_in]), and what taking a block off the list and putting one
    back do to the abstract state. PageAlloc.v and PageFree.v prove that the code does it. *)

From stdpp Require Import prelude.
From S2P Require Import Prelude Mem KString FreeList Kernel Heap Pmm.

(** ** Pages *)

(** A page of a processor: its address, the size of its blocks (0: the page belongs to no
    size), the regions of its free list, and whether the page has been full. Block 0 holds
    the page header. The list of a page that has been full ends at the page header, not at
    NULL: index 0, the mark of a full page, is also the index of the header, so the first
    block freed there gets the header as its successor. *)
Record page : Type := mk_page {
  pg_addr : Z;
  pg_size : Z;
  pg_nodes : list region;
  pg_full : bool;
}.

(** The block sizes of kalloc: they divide 64 KiB, so they are powers of two. *)
Definition block_size (sz : Z) : Prop := 32 <= sz <= 16 * 1024 /\ (sz | PAGE).

(** The number of the block the free list starts at; 0 when the list is empty. *)
Definition idx_of (addr sz : Z) (nodes : list region) : Z :=
  match nodes with [] => 0 | r :: _ => (r.1 - addr) / sz end.

Definition page_index (pg : page) : Z :=
  if pg_size pg =? 0 then 1 else idx_of (pg_addr pg) (pg_size pg) (pg_nodes pg).

(** Where the free list ends. *)
Definition list_end (addr : Z) (full : bool) : Z := if full then addr else 0.

(** A node that starts at a block boundary and holds whole blocks. *)
Definition on_blocks (addr sz : Z) (r : region) : Prop := (sz | r.1 - addr) /\ (sz | r.2).

(** A list of page nodes in memory, with the magic number of [pagefreenode_t]. *)
Definition pnodes (m : mem) (l : list region) (q : Z) : Prop :=
  node_list m (first_addr l q) l q /\ Forall (fun r => loadi32 m (r.1 + 12) = 1234567) l.

Record free_blocks (m : mem) (addr sz : Z) (l : list region) (full : bool) : Prop := {
  fb_size : block_size sz;
  fb_nodes : pnodes m l (list_end addr full);
  fb_layout : layout (addr + sz) (addr + PAGE) l;
  fb_blocks : Forall (on_blocks addr sz) l;
  fb_full : l = [] -> full = true;
}.

(** The page [pg] in memory; [nx] is the page after it in the list of its processor. *)
Record page_ok (m : mem) (pg : page) (nx : Z) : Prop := {
  po_addr : 0 < pg_addr pg /\ pg_addr pg + PAGE < 2 ^ 64;
  po_next : load64 m (pg_addr pg) = nx;
  po_size : loadi32 m (pg_addr pg + 8) = pg_size pg;
  po_index : load32 m (pg_addr pg + 12) = page_index pg;
  po_free : pg_size pg = 0 /\ pg_nodes pg = [] /\ pg_full pg = false \/
            free_blocks m (pg_addr pg) (pg_size pg) (pg_nodes pg) (pg_full pg);
}.

(** A block of the page that a client holds: a block after the header's that no node of the
    free list overlaps. *)
Definition live_in (pg : page) (r : region) : Prop :=
  0 < pg_size pg /\ r.2 = pg_size pg /\ (pg_size pg | r.1 - pg_addr pg) /\
  rbound (pg_addr pg + pg_size pg) (pg_addr pg + PAGE) r /\ Forall (rdisj r) (pg_nodes pg).

(** The bytes the allocator keeps in a page: the header and the nodes. *)
Definition page_own (pg : page) (x : Z) : Prop :=
  inr (pg_addr pg) 16 x \/ covers (pg_nodes pg) x.

(** The list after a block was taken from its first node. *)
Definition take_block (sz : Z) (l : list region) : list region :=
  match l with
  | [] => []
  | (a, n) :: tl => if n =? sz then tl else (a + sz, n - sz) :: tl
  end.

Definition is_nil {A} (l : list A) : bool := match l with [] => true | _ => false end.

(** The page after [kalloc] took a block. *)
Definition page_take (pg : page) : page :=
  let l := take_block (pg_size pg) (pg_nodes pg) in
  mk_page (pg_addr pg) (pg_size pg) l (pg_full pg || is_nil l).

(** A page whose size has just become [sz], after [kalloc] took its first block. *)
Definition page_fresh (addr sz : Z) : page :=
  mk_page addr sz [(addr + 2 * sz, PAGE - 2 * sz)] false.

(** *** Facts about block arithmetic *)

Lemma divide_ge d n : 0 < d -> 0 < n -> (d | n) -> d <= n.
Proof. intros. by apply Z.divide_pos_le. Qed.

Lemma divide_block addr sz a : 0 < sz -> (sz | a - addr) -> addr + (a - addr) / sz * sz = a.
Proof. intros Hsz [i Hi]. rewrite Hi, Z.div_mul by lia. lia. Qed.

Lemma blocks_apart addr sz a b :
  0 < sz -> (sz | a - addr) -> (sz | b - addr) -> a <> b -> a + sz <= b \/ b + sz <= a.
Proof.
  intros Hs Ha Hb Hne. assert (sz | b - a) as [k Hk].
  { replace (b - a) with ((b - addr) - (a - addr)) by lia. by apply Z.divide_sub_r. }
  assert (k <> 0) by (intros ->; lia). nia.
Qed.

Lemma block_size_pos sz : block_size sz -> 32 <= sz <= 16384.
Proof. intros [H _]. lia. Qed.

Lemma block_size_count sz : block_size sz -> 4 * sz <= PAGE /\ PAGE / sz * sz = PAGE /\ 4 <= PAGE / sz.
Proof.
  intros [H [k Hk]]. rewrite Hk, Z.div_mul by lia. nia.
Qed.

Section Free.
Context (m : mem) (addr sz : Z).
Implicit Types (full : bool).

Lemma free_blocks_node l full a n :
  free_blocks m addr sz l full -> (a, n) ∈ l ->
  32 <= sz <= 16384 /\ addr + sz <= a /\ a + n <= addr + PAGE /\ sz <= n <= PAGE /\
  (sz | a - addr) /\ (sz | n) /\ addr + (a - addr) / sz * sz = a /\
  0 < (a - addr) / sz < PAGE / sz.
Proof.
  intros [Hs Hl Hb Ha _] Hin. pose proof (block_size_pos _ Hs) as Hsz.
  pose proof (block_size_count _ Hs) as (_ & Hc & _).
  destruct (layout_bound _ _ _ _ Hb Hin) as (H1 & H2 & H3). simpl in *.
  rewrite Forall_forall in Ha. destruct (Ha _ Hin) as [Hd1 Hd2]. simpl in *.
  pose proof (divide_ge sz n ltac:(lia) H2 Hd2).
  pose proof (divide_block addr sz a ltac:(lia) Hd1).
  do 6 (split; [first [lia|done]|]). split; [done|]. nia.
Qed.

Lemma idx_of_range l full : free_blocks m addr sz l full -> 0 <= idx_of addr sz l <= 2048.
Proof.
  intros H. destruct l as [|[a n] tl]; simpl; [lia|].
  destruct (free_blocks_node _ _ a n H) as (? & ? & ? & ? & ? & ? & ? & ?); [by left|]. nia.
Qed.

Lemma idx_of_pos l full : free_blocks m addr sz l full -> 0 < idx_of addr sz l <-> l <> [].
Proof.
  intros H. destruct l as [|[a n] tl]; simpl; [split; [lia|done]|].
  destruct (free_blocks_node _ _ a n H) as (? & _ & _ & _ & _ & _ & _ & ?); [by left|].
  split; [done|lia].
Qed.

(** The address the code computes from the index is the first node, or the header. *)
Lemma idx_of_head l full :
  free_blocks m addr sz l full -> addr + idx_of addr sz l * sz = first_addr l addr.
Proof.
  intros H. destruct l as [|[a n] tl]; simpl; [lia|]. apply (free_blocks_node _ _ a n H). by left.
Qed.

Lemma first_addr_end l full :
  free_blocks m addr sz l full -> first_addr l (list_end addr full) = first_addr l addr.
Proof. intros H. destruct l; [|done]. by rewrite (fb_full _ _ _ _ _ H). Qed.

Lemma pnodes_frame m' l q : same_on (in_nodes l) m m' -> pnodes m l q -> pnodes m' l q.
Proof.
  intros H [H1 H2]. split; [by eapply node_list_frame|].
  rewrite Forall_forall in *. intros r Hr. rewrite <- (H2 r Hr).
  unfold loadi32. f_equal. eapply same_on_load; [exact H|].
  intros x Hx. exists r. split; [done|]. unfold inr; simpl in *; lia.
Qed.

Lemma free_blocks_frame m' l full :
  same_on (in_nodes l) m m' -> free_blocks m addr sz l full -> free_blocks m' addr sz l full.
Proof. intros H [H1 H2 H3 H4 H5]. split; [done|by eapply pnodes_frame|done..]. Qed.

Lemma in_nodes_covers_blocks l full x :
  free_blocks m addr sz l full -> in_nodes l x -> covers l x.
Proof.
  intros H ([a n] & Hr & Hx). exists (a, n). split; [done|].
  destruct (free_blocks_node _ _ _ _ H Hr) as (? & _ & _ & ? & _). unfold inr in *; simpl in *; lia.
Qed.

(** The free blocks lie inside the page, after its first block. *)
Lemma free_blocks_inside l full x :
  free_blocks m addr sz l full -> covers l x -> inr (addr + sz) (PAGE - sz) x.
Proof.
  intros H ([a n] & Hr & Hx). destruct (free_blocks_node _ _ _ _ H Hr) as (? & ? & ? & ? & _).
  unfold inr in *. simpl in *. lia.
Qed.

Lemma free_blocks_spaced l full : free_blocks m addr sz l full -> pairwise spaced l.
Proof.
  intros H. eapply layout_spaced; [|apply H]. apply Forall_forall. intros [a n] Hr.
  destruct (free_blocks_node _ _ _ _ H Hr). simpl. lia.
Qed.

Lemma free_blocks_tail r l full :
  free_blocks m addr sz (r :: l) full -> free_blocks m addr sz l (full || is_nil l).
Proof.
  destruct r as [a n]. intros [H1 [H2 H2'] H3 H4 H5]. split; [done| | | |].
  - destruct l as [|r l]; [by split|].
    destruct H2 as (_ & _ & _ & H2). apply Forall_cons in H2' as [_ H2'].
    simpl is_nil. rewrite orb_false_r.
    split; [|done]. by rewrite <- (node_list_first _ _ _ _ H2).
  - by eapply layout_drop.
  - by apply Forall_cons in H4 as [_ H4].
  - intros ->. by apply orb_true_r.
Qed.

(** The regions of a list do not overlap. *)
Lemma free_blocks_disj l1 r l2 full x :
  free_blocks m addr sz (l1 ++ r :: l2) full -> covers (l1 ++ l2) x -> ~ inr r.1 r.2 x.
Proof. intros H. eapply layout_middle. apply H. Qed.
End Free.

(** *** Frames *)

Section Frame.
Implicit Types (pg : page).

Lemma page_ok_facts m pg nx :
  page_ok m pg nx -> pg_size pg = 0 \/ free_blocks m (pg_addr pg) (pg_size pg) (pg_nodes pg) (pg_full pg).
Proof. intros [_ _ _ _ H]. tauto. Qed.

(** A page depends on the bytes the allocator keeps in it only. *)
Lemma page_ok_frame m m' pg nx :
  same_on (page_own pg) m m' -> page_ok m pg nx -> page_ok m' pg nx.
Proof.
  intros H [H1 H2 H3 H4 H5].
  assert (forall n off, 0 <= off -> off + Z.of_nat n <= 16 ->
    load_le n m' (pg_addr pg + off) = load_le n m (pg_addr pg + off)) as Hh.
  { intros n off ??. eapply same_on_load; [exact H|]. intros x Hx. left. unfold inr. lia. }
  split; [done|..].
  - rewrite <- H2. unfold load64. specialize (Hh 8%nat 0). rewrite Z.add_0_r in Hh. apply Hh; lia.
  - rewrite <- H3. unfold loadi32. f_equal. apply Hh; lia.
  - rewrite <- H4. unfold load32. apply Hh; lia.
  - destruct H5 as [?|H5]; [by left|right]. eapply free_blocks_frame; [|exact H5].
    eapply same_on_weaken; [exact H|]. intros x Hx. right. by eapply in_nodes_covers_blocks.
Qed.

Lemma page_own_inside m pg nx x : page_ok m pg nx -> page_own pg x -> inr (pg_addr pg) PAGE x.
Proof.
  intros Hp [Hx|Hx]; [unfold inr in *; lia|].
  destruct (po_free _ _ _ Hp) as [(_ & E & _)|Hf].
  - rewrite E in Hx. by apply covers_nil in Hx.
  - pose proof (block_size_pos _ (fb_size _ _ _ _ _ Hf)).
    eapply free_blocks_inside in Hx; [|exact Hf]. unfold inr in *. lia.
Qed.

(** No byte of a client's block is a byte the allocator keeps. *)
Lemma live_not_own m pg nx r x :
  page_ok m pg nx -> live_in pg r -> inr r.1 r.2 x -> ~ page_own pg x.
Proof.
  intros Hp (Hs & Hn & _ & (Hb & _) & Hd) Hx [Hx'|(r' & Hr' & Hx')].
  - destruct (po_free _ _ _ Hp) as [(E & _)|Hf]; [lia|].
    pose proof (block_size_pos _ (fb_size _ _ _ _ _ Hf)). unfold inr in *. lia.
  - rewrite Forall_forall in Hd. specialize (Hd _ Hr'). unfold rdisj, inr in *. lia.
Qed.

Lemma live_inside pg r x : live_in pg r -> inr r.1 r.2 x -> inr (pg_addr pg) PAGE x.
Proof. intros (Hs & _ & _ & (Hb & _ & Hb') & _) Hx. unfold inr in *. lia. Qed.
End Frame.
