(* ===== verification/PageAlloc.v ===== *)
(** * Taking a block from a page: the three ways [kalloc] does it

    [kalloc_fast] takes a block off the free list of a page of the right size,
    [kalloc_carve] the first block of a page whose size was just chosen, and [kalloc_first]
    sets up the first page of a processor. *)

From stdpp Require Import prelude.
From S2P Require Import Prelude Mem KString FreeList Kernel Heap Pmm PageSpec.

(** ** The blocks a client holds *)

Section Live.
Context (m : mem) (addr sz : Z) (full : bool).

Lemma live_take a n tl r :
  free_blocks m addr sz ((a, n) :: tl) full ->
  live_in (page_take (mk_page addr sz ((a, n) :: tl) full)) r <->
  live_in (mk_page addr sz ((a, n) :: tl) full) r \/ r = (a, sz).
Proof.
  intros Hf. destruct (free_blocks_node _ _ _ _ _ a n Hf) as (Hs & Ha & Han & Hn & Hd1 & Hd2 & _);
    [by left|].
  pose proof (fb_layout _ _ _ _ _ Hf) as HL. apply layout_cons in HL as (_ & Htl & _).
  assert (n = sz \/ 2 * sz <= n) as Hcase by (destruct Hd2 as [k Hk]; destruct (Z.eq_dec k 1); [left; lia|right; nia]).
  unfold live_in, page_take. simpl.
  destruct r as [b k]. simpl. unfold rbound. simpl.
  assert (Forall (rdisj (b, k)) (if n =? sz then tl else (a + sz, n - sz) :: tl) <->
    (n = sz \/ rdisj (b, k) (a + sz, n - sz)) /\ Forall (rdisj (b, k)) tl) as ->.
  { destruct (Z.eqb_spec n sz); [|rewrite Forall_cons]; intuition lia. }
  rewrite Forall_cons. unfold rdisj at 1 3. simpl. split.
  - intros (H0 & -> & Hd & Hb & Hr & Ht).
    destruct (Z.eq_dec b a) as [->|Hne]; [by right|left].
    pose proof (blocks_apart addr sz b a ltac:(lia) Hd Hd1 Hne).
    do 5 (split; [first [done|lia]|]). done.
  - intros [(H0 & -> & Hd & Hb & Hr & Ht)|[= -> ->]].
    + do 5 (split; [first [done|lia]|]). done.
    + do 4 (split; [first [done|lia]|]). split; [lia|].
      eapply Forall_impl; [exact Htl|]. intros [c k']. unfold rdisj. simpl. lia.
Qed.

Lemma live_fresh r :
  block_size sz -> live_in (page_fresh addr sz) r <-> r = (addr + sz, sz).
Proof.
  intros Hs. pose proof (block_size_count _ Hs) as (Hc & _ & _).
  pose proof (block_size_pos _ Hs). unfold live_in, page_fresh, rbound, rdisj.
  destruct r as [b k]. cbn [pg_addr pg_size pg_nodes]. rewrite Forall_singleton. simpl. split.
  - intros (H0 & -> & Hd & Hb & Hr). f_equal.
    assert (sz | addr + sz - addr) as Hd' by (exists 1; lia).
    destruct (Z.eq_dec b (addr + sz)) as [->|Hne]; [done|].
    pose proof (blocks_apart addr sz b (addr + sz) ltac:(lia) Hd Hd' Hne). lia.
  - intros [= -> ->]. do 2 (split; [lia|]). split; [by exists 1; lia|]. lia.
Qed.

End Live.

(** ** kalloc_fast *)

Section Take.
Context (m m' : mem) (addr sz a n nx : Z) (tl : list region) (full : bool).
Abbreviation pg := (mk_page addr sz ((a, n) :: tl) full) (only parsing).
Context (Hpg : page_ok m pg nx).

Lemma take_free : 0 < addr /\ addr + PAGE < 2 ^ 64 /\ free_blocks m addr sz ((a, n) :: tl) full.
Proof.
  destruct (po_free _ _ _ Hpg) as [(_ & E & _)|Hf]; [done|].
  destruct (po_addr _ _ _ Hpg). done.
Qed.

Lemma take_block_free :
  free_blocks m addr sz ((a, n) :: tl) full ->
  (n <> sz -> 2 * sz <= n) /\
  layout (addr + sz) (addr + PAGE) (take_block sz ((a, n) :: tl)) /\
  Forall (on_blocks addr sz) (take_block sz ((a, n) :: tl)).
Proof.
  intros Hf. destruct (free_blocks_node _ _ _ _ _ a n Hf) as (Hs & Ha & Han & Hn & Hd1 & Hd2 & _);
    [by left|].
  assert (n <> sz -> 2 * sz <= n) as Hcase.
  { destruct Hd2 as [k Hk]; destruct (Z.eq_dec k 1); [lia|nia]. }
  destruct Hf as [_ _ HL HB _]. apply Forall_cons in HB as [[HB1 HB2] HB]. simpl in *.
  destruct (Z.eqb_spec n sz) as [->|Hne]; simpl.
  - split; [done|]. split; [by eapply layout_drop|done].
  - split; [done|]. split.
    + apply (layout_split _ _ _ _ sz) in HL; [|lia]. by eapply layout_drop.
    + constructor; [|done]. split; simpl.
      * replace (a + sz - addr) with (a - addr + sz) by lia. apply Z.divide_add_r; [done|exists 1; lia].
      * apply Z.divide_sub_r; [done|exists 1; lia].
Qed.

(** What the stores have to do for the page to lose its first free block. *)
Lemma take_ok :
  only_in (fun x => inr a n x \/ inr (addr + 12) 4 x) m m' ->
  load32 m' (addr + 12) = idx_of addr sz (take_block sz ((a, n) :: tl)) ->
  (n <> sz -> load64 m' (a + sz) = load64 m a /\ loadi32 m' (a + sz + 8) = n - sz /\
     loadi32 m' (a + sz + 12) = 1234567) ->
  page_ok m' (page_take pg) nx.
Proof.
  intros Ho Hi Hnode. destruct take_free as (H0 & H64 & Hf).
  destruct (take_block_free Hf) as (Hn2 & HL' & HB').
  destruct (free_blocks_node _ _ _ _ _ a n Hf) as (Hs & Ha & Han & Hn & _); [by left|].
  assert (forall k off, 0 <= off -> off + Z.of_nat k <= 12 ->
    load_le k m' (addr + off) = load_le k m (addr + off)) as Hh.
  { intros k off ??. eapply only_in_load; [exact Ho|]. unfold inr. lia. }
  split; cbn [page_take pg_addr pg_size pg_nodes pg_full].
  - done.
  - etrans; [|exact (po_next _ _ _ Hpg)]. specialize (Hh 8%nat 0). rewrite Z.add_0_r in Hh. apply Hh; lia.
  - etrans; [|exact (po_size _ _ _ Hpg)]. unfold loadi32. f_equal. apply Hh; lia.
  - unfold page_index. simpl. destruct (Z.eqb_spec sz 0); [lia|]. exact Hi.
  - right. split; [apply Hf| |done|done|].
    + assert (free_blocks m' addr sz tl (full || is_nil tl)) as Htl.
      { eapply free_blocks_frame; [|by eapply free_blocks_tail].
        eapply only_in_same_on; [exact Ho|]. intros x Hx.
        pose proof (free_blocks_tail _ _ _ _ _ _ Hf) as Hf'.
        apply (in_nodes_covers_blocks _ _ _ _ _ _ Hf') in Hx.
        pose proof (free_blocks_inside _ _ _ _ _ _ Hf' Hx) as Hin. intros [Hx'|Hx'].
        - by apply (free_blocks_disj _ _ _ [] (a, n) tl _ _ Hf Hx).
        - unfold inr in *. lia. }
      simpl take_block in *. destruct (Z.eqb_spec n sz) as [->|Hne]; [apply Htl|].
      destruct (Hnode Hne) as (E1 & E2 & E3). simpl is_nil. rewrite orb_false_r.
      pose proof (fb_nodes _ _ _ _ _ Hf) as [(_ & _ & _ & Hnl) _].
      pose proof (fb_nodes _ _ _ _ _ Htl) as [_ Hmg].
      split; [|by constructor]. simpl. rewrite E1. do 3 (split; [first [done|lia]|]).
      eapply node_list_frame; [|exact Hnl]. eapply only_in_same_on; [exact Ho|].
      intros x Hx. pose proof (free_blocks_tail _ _ _ _ _ _ Hf) as Hf'.
      apply (in_nodes_covers_blocks _ _ _ _ _ _ Hf') in Hx.
      pose proof (free_blocks_inside _ _ _ _ _ _ Hf' Hx) as Hin. intros [Hx'|Hx'].
      * by apply (free_blocks_disj _ _ _ [] (a, n) tl _ _ Hf Hx).
      * unfold inr in *. lia.
    + intros E. rewrite E. apply orb_true_r.
Qed.
End Take.

(** The processor's lock word released. *)
Definition released (i : Z) (pl : pagelist_t) (s : kstate) (m : mem) : kstate :=
  mk_kstate m (head s) (heap_lock s) (<[Z.to_nat i := mk_pagelist (pagehead pl) 0]> (cpupagelist s)).

Lemma memset_zero k m a x : inr a k x -> load8 (memset_loop (Z.to_nat k) 0 m a 0) x = 0.
Proof.
  unfold inr. intros Hx. rewrite load8_memset_loop.
  destruct (Z.leb_spec (a + 0) x), (Z.ltb_spec x (a + 0 + Z.of_nat (Z.to_nat k))); simpl; try lia.
  reflexivity.
Qed.

Definition block_given (r sz : Z) (pg pg' : page) (nx : Z) (s s' : kstate) : Prop :=
  page_ok (k_mem s') pg' nx /\ only_in (page_own pg) (k_mem s) (k_mem s') /\
  (forall x, inr r sz x -> load8 (k_mem s') x = 0).

(** Lines 237-245: the index of the successor of a node that was used up. *)
Lemma wp_next_index s addr sz l nx :
  0 < addr -> 0 < sz -> 0 <= nx < 2 ^ 64 -> 0 <= idx_of addr sz l < 2 ^ 32 ->
  (nx = 0 /\ l = [] \/ nx <> 0 /\ 0 <= nx - addr /\ idx_of addr sz l = (nx - addr) / sz /\
     addr + (nx - addr) / sz * sz = nx) ->
  wp (if nx =? 0 then set_index addr 0
      else
        _ ← set_index addr (u64 (nx - addr) / sz);
        idx ← get_index addr;
        c_assert (u64 (addr + idx * sz) =? nx)) s
    (fun _ s' => s' = st_upd (fun m => store32 m (addr + 12) (idx_of addr sz l)) s).
Proof.
  intros Ha Hs H64 Hi [[-> ->]|(Hne & Hp & E & Hm)].
  - simpl. by k_steps.
  - destruct (Z.eqb_spec nx 0); [lia|]. rewrite wrap_small by lia. rewrite <- E in *. k_steps.
    + mem_simpl. rewrite (wrap_small 32) by lia. rewrite Hm, wrap_small by lia. apply Z.eqb_refl.
    + done.
Qed.

(** Lines 258-260: the lock is released and the block cleared. *)
Lemma wp_fast_end s cpuno pl a sz :
  0 <= cpuno -> cpupagelist s !! Z.to_nat cpuno = Some pl -> a <> 0 ->
  wp (_ ← unlock (CpuLock cpuno); _ ← memset a 0 sz; mret a) s (fun r s' =>
    r = a /\ s' = released cpuno pl s (memset_loop (Z.to_nat sz) 0 (k_mem s) a 0)).
Proof.
  intros. apply wp_bind. eapply wp_unlock_cpu; [done..|]. k_steps. done.
Qed.

Lemma next_in_range m addr sz a n tl full :
  0 < addr -> addr + PAGE < 2 ^ 64 -> free_blocks m addr sz ((a, n) :: tl) full ->
  let nx := load64 m a in
  nx = 0 /\ tl = [] \/ nx <> 0 /\ 0 <= nx - addr /\ idx_of addr sz tl = (nx - addr) / sz /\
    addr + (nx - addr) / sz * sz = nx.
Proof.
  intros H0 H64 Hf. cbn zeta. pose proof (fb_nodes _ _ _ _ _ Hf) as [(_ & _ & _ & Hnl) _].
  apply node_list_first in Hnl. rewrite Hnl. destruct tl as [|[b k] tl]; simpl.
  - unfold list_end. destruct full; [right|by left].
    rewrite Z.sub_diag, Z.div_0_l by (pose proof (block_size_pos _ (fb_size _ _ _ _ _ Hf)); lia). lia.
  - right. destruct (free_blocks_node _ _ _ _ _ b k Hf) as (? & ? & ? & ? & ? & ? & ? & ?);
      [right; by left|]. lia.
Qed.

Lemma fast_finish s cpuno pl addr sz a n tl full nx m1 :
  page_ok (k_mem s) (mk_page addr sz ((a, n) :: tl) full) nx ->
  only_in (fun x => inr a n x \/ inr (addr + 12) 4 x) (k_mem s) m1 ->
  load32 m1 (addr + 12) = idx_of addr sz (take_block sz ((a, n) :: tl)) ->
  (n <> sz -> load64 m1 (a + sz) = load64 (k_mem s) a /\ loadi32 m1 (a + sz + 8) = n - sz /\
     loadi32 m1 (a + sz + 12) = 1234567) ->
  block_given a sz (mk_page addr sz ((a, n) :: tl) full)
    (page_take (mk_page addr sz ((a, n) :: tl) full)) nx s
    (released cpuno pl s (memset_loop (Z.to_nat sz) 0 m1 a 0)).
Proof.
  intros Hpg Ho Ei Hnode. destruct (take_free _ _ _ _ _ _ _ _ Hpg) as (H0 & H64 & Hf).
  destruct (take_block_free _ _ _ _ _ _ _ _ Hpg Hf) as (Hn2 & _ & _).
  destruct (free_blocks_node _ _ _ _ _ a n Hf) as (Hs & Ha & Han & Hn & _); [by left|].
  set (m2 := memset_loop _ _ _ _ _).
  assert (only_in (inr a sz) m1 m2) as Hm2 by (apply only_in_memset; [lia|done|done]).
  assert (only_in (fun x => inr a n x \/ inr (addr + 12) 4 x) (k_mem s) m2) as Ho2.
  { eapply only_in_trans; [exact Ho|]. eapply only_in_weaken; [exact Hm2|]. unfold inr. lia. }
  split; [|split]; simpl.
  - eapply take_ok; [exact Hpg|exact Ho2| |].
    + rewrite <- Ei. eapply only_in_load; [exact Hm2|]. unfold inr. lia.
    + intros Hne. destruct (Hnode Hne) as (<- & <- & <-). specialize (Hn2 Hne).
      split; [|split]; [|unfold loadi32; f_equal..];
        (eapply only_in_load; [exact Hm2|unfold inr; lia]).
  - eapply only_in_weaken; [exact Ho2|]. intros x [Hx|Hx]; [right|left; simpl; unfold inr in *; lia].
    exists (a, n). split; [by left|done].
  - by apply memset_zero.
Qed.

Lemma kalloc_fast_spec s cpuno pl addr sz a n tl full nx :
  page_ok (k_mem s) (mk_page addr sz ((a, n) :: tl) full) nx ->
  0 <= cpuno -> cpupagelist s !! Z.to_nat cpuno = Some pl ->
  wp (kalloc_fast cpuno addr sz) s (fun r s' =>
    r = a /\ s' = released cpuno pl s (k_mem s') /\
    block_given a sz (mk_page addr sz ((a, n) :: tl) full)
      (page_take (mk_page addr sz ((a, n) :: tl) full)) nx s s').
Proof.
  intros Hpg Hc Hpl. destruct (take_free _ _ _ _ _ _ _ _ Hpg) as (H0 & H64 & Hf).
  destruct (take_block_free _ _ _ _ _ _ _ _ Hpg Hf) as (Hn2 & _ & _).
  pose proof (idx_of_range _ _ _ _ _ Hf) as Hir.
  destruct (free_blocks_node _ _ _ _ _ a n Hf) as (Hs & Ha & Han & Hn & Hd1 & Hd2 & Hh & Hc');
    [by left|].
  pose proof (po_size _ _ _ Hpg) as Esz. pose proof (po_index _ _ _ Hpg) as Eix.
  unfold page_index in Eix. simpl in Esz, Eix, Hir. destruct (Z.eqb_spec sz 0); [lia|].
  pose proof (fb_nodes _ _ _ _ _ Hf) as [(_ & _ & En & Hnl) Hmg].
  apply Forall_cons in Hmg as [Emg _]. simpl in Emg.
  unfold kalloc_fast. k_steps. { rewrite Esz, wrap_small by lia. apply Z.eqb_refl. }
  rewrite Eix, Hh, En, wrap_small by lia. destruct (Z.leb_spec sz n); [|lia].
  apply wp_bind, wp_set_size; [lia|]. k_steps. mem_simpl. rewrite signed_small by lia.
  destruct (Z.eqb_spec (n - sz) 0) as [En0|En0].
  - assert (n = sz) as -> by lia. apply wp_bind, wp_get_magic; [lia|]. simpl. mem_simpl. rewrite Emg.
    do 4 k_step. mem_simpl.
    eapply wp_mono. { apply (wp_next_index _ addr sz tl); [lia|lia|apply next_range| |].
      - pose proof (idx_of_range _ _ _ _ _ (free_blocks_tail _ _ _ _ _ _ Hf)). lia.
      - by eapply next_in_range. }
    intros _ s' ->. eapply wp_mono; [apply (wp_fast_end _ _ pl); [done..|lia]|].
    intros r s' [-> ->]. split; [done|]. split; [done|]. simpl. set (m1 := store32 _ _ _).
    assert (load32 m1 (addr + 12) = idx_of addr sz (take_block sz ((a, sz) :: tl))) as Ei.
    { simpl. rewrite Z.eqb_refl. unfold m1. mem_simpl. apply wrap_small.
      pose proof (idx_of_range _ _ _ _ _ (free_blocks_tail _ _ _ _ _ _ Hf)). lia. }
    assert (only_in (fun x => inr a sz x \/ inr (addr + 12) 4 x) (k_mem s) m1) as Ho.
    { repeat apply only_in_store; [done|..]; unfold inr; lia. }
    by apply (fast_finish s).
  - specialize (Hn2 ltac:(lia)). do 2 k_step. set (m1 := store32 (k_mem s) (a + 8) (n - sz)).
    assert (only_in (inr a sz) (k_mem s) m1 /\ loadi32 m1 (a + 8) = n - sz) as [Ho1 Ea].
    { unfold m1. mem_simpl. rewrite signed_small by lia. split; [|done].
      apply only_in_store; [done|]. unfold inr; lia. }
    assert (load32 m1 (addr + 8) = load32 (k_mem s) (addr + 8)) as Es1.
    { eapply only_in_load; [exact Ho1|]. unfold inr; lia. }
    assert (load32 m1 (addr + 12) = load32 (k_mem s) (addr + 12)) as Ei1.
    { eapply only_in_load; [exact Ho1|]. unfold inr; lia. }
    assert (load64 m1 a = load64 (k_mem s) a) as En1 by (unfold m1; by mem_simpl).
    clearbody m1. k_steps; mem_simpl.
    + unfold loadi32 in *. unfold load32 in Es1. rewrite Es1, Esz, wrap_small by lia. apply Z.eqb_refl.
    + rewrite Ei1, Eix, (wrap_small 32), wrap_small by lia. apply Z.eqb_eq. lia.
    + rewrite Ei1, Eix, (wrap_small 32) by lia. apply Z.ltb_lt.
      apply Z.lt_le_trans with ((a - addr) / sz + 2); [lia|]. apply Z.div_le_lower_bound; lia.
    + rewrite Ei1, Eix, Ea. set (m2 := store32 _ _ _).
      assert (only_in (fun x => inr a n x \/ inr (addr + 12) 4 x) (k_mem s) m2) as Ho2.
      { repeat apply only_in_store; [|unfold inr; lia..].
        eapply only_in_weaken; [exact Ho1|]. unfold inr. lia. }
      assert (load64 m2 (a + sz) = load64 m1 a /\ loadi32 m2 (a + sz + 8) = n - sz /\
        loadi32 m2 (a + sz + 12) = 1234567 /\ load32 m2 (addr + 12) = (a - addr) / sz + 1) as (E1 & E2 & E3 & E4).
      { unfold m2. mem_simpl. rewrite (wrap_small 32), !signed_small by lia.
        split; [apply wrap_small, next_range|done]. }
      clearbody m2. apply wp_bind_inv. eapply wp_mono; [apply (wp_fast_end _ _ pl); [done..|lia]|].
      intros r s' [-> ->]. split; [done|]. split; [done|]. simpl.
      apply (fast_finish s); [done|done| |by rewrite E1, E2, E3].
      rewrite E4. simpl. destruct (Z.eqb_spec n sz); [lia|]. simpl.
      apply Z.div_unique_exact; lia.
Qed.

(** ** kalloc_carve *)

(** A page header whose index is 1 and that [m] holds at [addr]. *)
Definition header_at (m : mem) (addr nx sz : Z) : Prop :=
  load64 m addr = nx /\ loadi32 m (addr + 8) = sz /\ load32 m (addr + 12) = 1.

Lemma fresh_ok m addr sz nx :
  0 < addr -> addr + PAGE < 2 ^ 64 -> block_size sz ->
  load64 m addr = nx -> loadi32 m (addr + 8) = sz -> load32 m (addr + 12) = 2 ->
  load64 m (addr + 2 * sz) = 0 -> loadi32 m (addr + 2 * sz + 8) = PAGE - 2 * sz ->
  loadi32 m (addr + 2 * sz + 12) = 1234567 -> page_ok m (page_fresh addr sz) nx.
Proof.
  intros H0 H64 Hs Hn Hz Hi E1 E2 E3. pose proof (block_size_pos _ Hs).
  pose proof (block_size_count _ Hs) as (Hc & _). split; [done..| |].
  - unfold page_index. cbn [page_fresh pg_size pg_addr pg_nodes idx_of fst].
    destruct (Z.eqb_spec sz 0); [lia|]. rewrite Hi. apply Z.div_unique_exact; lia.
  - right. cbn [page_fresh pg_size pg_addr pg_nodes pg_full]. split; [done| | | |done].
    + split; [|by constructor]. simpl. by split_and!; [|lia| |].
    + split; [|simpl; split; [by constructor|done]]. constructor; [|done].
      unfold rbound. simpl. lia.
    + constructor; [|done]. destruct Hs as [_ Hd]. split; simpl.
      * exists 2. lia.
      * apply Z.divide_sub_r; [done|exists 2; lia].
Qed.

Lemma kalloc_carve_spec s cpuno pl addr sz nx :
  header_at (k_mem s) addr nx sz -> 0 < addr -> addr + PAGE < 2 ^ 64 -> block_size sz ->
  0 <= cpuno -> cpupagelist s !! Z.to_nat cpuno = Some pl ->
  wp (kalloc_carve cpuno addr sz) s (fun r s' =>
    r = addr + sz /\ s' = released cpuno pl s (k_mem s') /\
    page_ok (k_mem s') (page_fresh addr sz) nx /\
    only_in (inr addr PAGE) (k_mem s) (k_mem s') /\
    (forall x, inr (addr + sz) sz x -> load8 (k_mem s') x = 0)).
Proof.
  intros (Hn & Hz & Hi) H0 H64 Hs Hc Hpl. pose proof (block_size_pos _ Hs) as Hp.
  pose proof (block_size_count _ Hs) as (Hc4 & _).
  unfold kalloc_carve. k_steps; rewrite ?Hi; replace (1 * sz) with sz by lia;
    repeat match goal with |- context [addr + sz + sz] =>
      replace (addr + sz + sz) with (addr + 2 * sz) by lia end.
  - mem_simpl. rewrite (wrap_small 32), wrap_small by lia. apply Z.eqb_eq. lia.
  - set (m1 := store32 _ (addr + 2 * sz + 8) _).
    set (m2 := memset_loop _ _ _ _ _).
    assert (only_in (inr (addr + sz) sz) m1 m2) as Hm2 by (apply only_in_memset; [lia|done|done]).
    assert (only_in (inr addr PAGE) (k_mem s) m1) as Hm1.
    { repeat apply only_in_store; [done|unfold inr; lia..]. }
    assert (load64 m1 addr = nx /\ loadi32 m1 (addr + 8) = sz /\ load32 m1 (addr + 12) = 2 /\
      load64 m1 (addr + 2 * sz) = 0 /\ loadi32 m1 (addr + 2 * sz + 8) = PAGE - 2 * sz /\
      loadi32 m1 (addr + 2 * sz + 12) = 1234567) as (E1 & E2 & E3 & E4 & E5 & E6).
    { unfold m1. mem_simpl. rewrite Hn, Hz, Hi. change (u32 (1 + 1)) with 2.
      split_and!; [done..| |done]. rewrite signed_small by lia. lia. }
    clearbody m1. eapply wp_unlock_cpu; [done|exact Hpl|]. apply wp_ret. simpl.
    split_and!; [done|done| |..].
    + apply fresh_ok; [done..|rewrite <- E1|rewrite <- E2|rewrite <- E3|rewrite <- E4|rewrite <- E5|rewrite <- E6];
        unfold loadi32; first [eapply only_in_load|f_equal; eapply only_in_load]; try exact Hm2; unfold inr; lia.
    + eapply only_in_trans; [exact Hm1|]. eapply only_in_weaken; [exact Hm2|]. unfold inr. lia.
    + by apply memset_zero.
Qed.

(** ** kalloc_first *)

(** A page no block of which was taken yet. *)
Definition page_new (addr sz : Z) : page := mk_page addr sz [(addr + sz, PAGE - sz)] false.

Lemma live_new addr sz r : block_size sz -> ~ live_in (page_new addr sz) r.
Proof.
  intros Hs (H0 & Hr & _ & (Hb & _ & Hb') & Hd). pose proof (block_size_pos _ Hs).
  cbn [page_new pg_nodes pg_addr pg_size] in *. rewrite Forall_singleton in Hd.
  unfold rdisj in Hd. simpl in *. lia.
Qed.

Lemma new_ok m addr sz nx :
  0 < addr -> addr + PAGE < 2 ^ 64 -> block_size sz ->
  load64 m addr = nx -> loadi32 m (addr + 8) = sz -> load32 m (addr + 12) = 1 ->
  load64 m (addr + sz) = 0 -> loadi32 m (addr + sz + 8) = PAGE - sz ->
  loadi32 m (addr + sz + 12) = 1234567 -> page_ok m (page_new addr sz) nx.
Proof.
  intros H0 H64 Hs Hn Hz Hi E1 E2 E3. pose proof (block_size_pos _ Hs).
  split; cbn [page_new pg_size pg_addr pg_nodes pg_full]; [done|done|done| |].
  - unfold page_index. cbn [page_new pg_size pg_addr pg_nodes idx_of fst].
    destruct (Z.eqb_spec sz 0); [lia|]. rewrite Hi. apply Z.div_unique_exact; lia.
  - right. split; [done| | | |done].
    + split; [|by constructor]. simpl. by split_and!; [|lia| |].
    + split; [|simpl; split; [by constructor|done]]. constructor; [|done].
      unfold rbound. simpl. lia.
    + constructor; [|done]. destruct Hs as [_ Hd]. split; simpl.
      * exists 1. lia.
      * apply Z.divide_sub_r; [done|exists 1; lia].
Qed.

Section First.
Context (lo hi : Z) (Hlo : 0 < lo) (Hhi : hi < 2 ^ 64) (Hsz : hi - lo < 2 ^ 31) (fuel : nat).

Lemma take_page_covers fl a fl' x : take_page fl = Some (a, fl') -> inr a PAGE x -> covers fl x.
Proof.
  rewrite take_page_some. intros (l1 & n & l2 & -> & _ & Hn & _) Hx.
  exists (a, n). split; [apply elem_of_app; right; by left|]. unfold inr in *; simpl; lia.
Qed.

(** Stores into the page that was taken leave the free list alone. *)
Lemma heap_ok_page_frame s fl a fl' s' :
  take_page fl = Some (a, fl') -> layout lo hi fl -> heap_ok lo hi s fl' ->
  only_in (inr a PAGE) (k_mem s) (k_mem s') -> head s' = head s -> heap_ok lo hi s' fl'.
Proof.
  intros Ht HL [Hl Hs HL'] Ho Eh.
  assert (layout lo hi (fl' ++ (a, PAGE) :: [])) as HL2.
  { eapply take_page_layout; [exact Ht|]. by rewrite app_nil_r. }
  split; [|done|done]. rewrite Eh.
  eapply (layout_frame lo hi fl' a PAGE [] fl'); [exact HL2|done| |exact Ho|exact Hl].
  intros r. by rewrite app_nil_r.
Qed.

Lemma take_page_addr fl a fl' :
  take_page fl = Some (a, fl') -> layout lo hi fl -> lo <= a /\ a + PAGE <= hi.
Proof.
  intros (l1 & n & l2 & -> & _ & Hn & _)%take_page_some HL.
  destruct (layout_bound _ _ (a, n) _ HL) as (? & ? & ?); [apply elem_of_app; right; by left|].
  simpl in *. lia.
Qed.

Lemma kalloc_first_spec s cpuno pl sz fl a fl' :
  heap_ok lo hi s fl -> heap_lock s = 0 -> (length fl < fuel)%nat ->
  take_page fl = Some (a, fl') -> hi + PAGE < 2 ^ 64 -> block_size sz ->
  0 <= cpuno -> cpupagelist s !! Z.to_nat cpuno = Some pl -> pl_lock pl = 0 ->
  wp (kalloc_first fuel cpuno sz) s (fun _ s' =>
    heap_ok lo hi s' fl' /\ page_ok (k_mem s') (page_new a sz) 0 /\
    only_in (covers fl) (k_mem s) (k_mem s') /\ heap_lock s' = 0 /\
    cpupagelist s' = <[Z.to_nat cpuno := mk_pagelist a 0]> (cpupagelist s)).
Proof.
  intros Hok Hl0 Hf Ht Hhi2 Hbs Hc Hpl Hpl0. pose proof (block_size_pos _ Hbs) as Hp.
  pose proof (ho_layout _ _ _ _ Hok) as HL.
  destruct (take_page_addr _ _ _ Ht HL) as [Ha1 Ha2].
  pose proof (lookup_lt_Some _ _ _ Hpl) as Hlt.
  unfold kalloc_first. apply wp_bind. eapply wp_lock_cpu; [lia|done|exact Hpl|done|]. apply wp_bind.
  set (s1 := mk_kstate _ _ _ _).
  assert (heap_ok lo hi s1 fl) as Hok1 by (destruct Hok; by split).
  eapply wp_mono; [by eapply (allockpage_some lo hi Hhi Hsz fuel s1)|].
  intros r s2 (-> & Hok2 & Ho2 & Hl2 & Hc2). simpl in Hl2, Ho2, Hc2.
  assert (cpupagelist s2 !! Z.to_nat cpuno = Some (mk_pagelist (pagehead pl) 1)) as Hpl2.
  { rewrite Hc2. by apply list_lookup_insert_eq. }
  apply wp_bind. eapply wp_set_pagehead; [done|exact Hpl2|]. apply wp_bind.
  eapply wp_get_pagehead; [done|apply list_lookup_insert_eq; by rewrite Hc2, length_insert|].
  simpl. k_steps. { apply negb_true_iff, Z.eqb_neq. lia. }
  set (m' := store32 _ _ _).
  assert (only_in (inr a PAGE) (k_mem s2) m') as Hm'.
  { repeat apply only_in_store; [done|unfold inr; lia..]. }
  assert (page_ok m' (page_new a sz) 0) as Hpg.
  { unfold m'. apply new_ok; [lia|lia|done|..]; mem_simpl; try done; rewrite signed_small by lia; lia. }
  clearbody m'. eapply wp_unlock_cpu; [done|apply list_lookup_insert_eq; by rewrite Hc2, length_insert|].
  simpl. split_and!; [|done| |done|].
  - eapply heap_ok_page_frame; [exact Ht|exact HL|exact Hok2|exact Hm'|done].
  - eapply only_in_trans; [exact Ho2|]. eapply only_in_weaken; [exact Hm'|].
    intros x. by eapply take_page_covers.
  - rewrite Hc2, !list_insert_insert_eq. done.
Qed.
End First.
