(* ===== verification/PageFree.v ===== *)
(** * Giving a block back to its page: the part of [kfree] for blocks of at most 16 KiB

    The first half is the effect on the free list of the page as a list of regions
    ([give_block]) with its properties; the second half proves that [kfree_page] has it. *)

From stdpp Require Import prelude.
From S2P Require Import Prelude Mem KString FreeList Kernel Heap Pmm PageSpec PageAlloc.

(** ** The abstract operation *)

(** The node that ends where the block starts, and the node that starts where it ends. *)
Definition node_before (ptr : Z) (l : list region) : option region :=
  List.find (fun r => r.1 + r.2 =? ptr) l.

Definition node_after (stop : Z) (l : list region) : option region :=
  List.find (fun r => r.1 =? stop) l.

Fixpoint drop_to (b : Z) (l : list region) : list region :=
  match l with
  | [] => []
  | r :: tl => if r.1 =? b then l else drop_to b tl
  end.

(** The free list after the block [ptr, ptr + sz) was freed. When the block joins two nodes
    of which the upper one is the head of the list, the list is made to start at the lower
    one, and the nodes in between are lost. *)
Definition give_block (sz : Z) (l : list region) (ptr : Z) : list region :=
  match node_before ptr l, node_after (ptr + sz) l with
  | Some b, Some a =>
      let l' := set_size_at b.1 (b.2 + sz + a.2) l in
      if first_addr l 0 =? a.1 then drop_to b.1 l' else remove_at a.1 l'
  | Some b, None => set_size_at b.1 (b.2 + sz) l
  | None, Some a => (ptr, sz + a.2) :: remove_at a.1 l
  | None, None => (ptr, sz) :: l
  end.

(** No node is lost. *)
Definition keeps_all (sz : Z) (l : list region) (ptr : Z) : bool :=
  match node_before ptr l, l with
  | Some b, (a, _) :: (c, _) :: _ => negb (a =? ptr + sz) || (c =? b.1)
  | _, _ => true
  end.

(** The page after [kfree]: a page whose blocks are all free belongs to no size. *)
Definition page_give (pg : page) (ptr : Z) : page :=
  let l := give_block (pg_size pg) (pg_nodes pg) ptr in
  if existsb (fun r => r.2 =? PAGE - pg_size pg) l then mk_page (pg_addr pg) 0 [] false
  else mk_page (pg_addr pg) (pg_size pg) l (pg_full pg).

(** *** The list as a set of regions *)

Inductive freed (sz ptr : Z) (l l' : list region) : Prop :=
| freed_both b bn an rest :
    l ≡ₚ (b, bn) :: (ptr + sz, an) :: rest -> b + bn = ptr ->
    l' ≡ₚ (b, bn + sz + an) :: rest -> freed sz ptr l l'
| freed_low b bn rest :
    l ≡ₚ (b, bn) :: rest -> b + bn = ptr -> l' ≡ₚ (b, bn + sz) :: rest -> freed sz ptr l l'
| freed_high an rest :
    l ≡ₚ (ptr + sz, an) :: rest -> l' ≡ₚ (ptr, sz + an) :: rest -> freed sz ptr l l'
| freed_alone : l' ≡ₚ (ptr, sz) :: l -> freed sz ptr l l'.

Lemma node_before_some ptr l b : node_before ptr l = Some b -> b ∈ l /\ b.1 + b.2 = ptr.
Proof. intros [H1 H2]%List.find_some. apply list_elem_of_In in H1. split; [done|lia]. Qed.

Lemma node_after_some stop l a : node_after stop l = Some a -> a ∈ l /\ a.1 = stop.
Proof. intros [H1 H2]%List.find_some. apply list_elem_of_In in H1. split; [done|lia]. Qed.

Lemma node_before_none ptr l r : node_before ptr l = None -> r ∈ l -> r.1 + r.2 <> ptr.
Proof.
  intros H Hr. rewrite list_elem_of_In in Hr. pose proof (List.find_none _ _ H _ Hr). simpl in *. lia.
Qed.

Lemma node_after_none stop l r : node_after stop l = None -> r ∈ l -> r.1 <> stop.
Proof.
  intros H Hr. rewrite list_elem_of_In in Hr. pose proof (List.find_none _ _ H _ Hr). simpl in *. lia.
Qed.

Lemma drop_to_split b n l1 l2 :
  pairwise spaced (l1 ++ (b, n) :: l2) -> drop_to b (l1 ++ (b, n) :: l2) = (b, n) :: l2.
Proof.
  intros Hsp. pose proof (spaced_ne_l _ _ _ _ Hsp) as Hne. clear Hsp.
  induction l1 as [|r l1 IH]; simpl; [by rewrite Z.eqb_refl|].
  destruct (Z.eqb_spec r.1 b); [by destruct (Hne r ltac:(by left))|].
  apply IH. intros r' Hr'. apply Hne. by right.
Qed.

Lemma give_block_freed sz ptr l :
  pairwise spaced l -> 0 < sz -> Forall (fun r => 0 < r.2) l ->
  exists lost, freed sz ptr l (give_block sz l ptr ++ lost) /\
    (keeps_all sz l ptr = true -> lost = []).
Proof.
  intros Hsp Hs Hpos. unfold give_block, keeps_all.
  destruct (node_before ptr l) as [[b bn]|] eqn:Eb, (node_after (ptr + sz) l) as [[a an]|] eqn:Ea.
  - apply node_before_some in Eb as [Hb Eb]. apply node_after_some in Ea as [Ha Ea]. simpl in *.
    rewrite Forall_forall in Hpos. pose proof (Hpos _ Hb) as Hbn. simpl in Hbn.
    destruct (spaced_perm2 _ _ _ _ _ Hsp Hb Ha ltac:(lia)) as (rest & E & Er).
    destruct (Z.eqb_spec (first_addr l 0) a) as [Eh|Eh].
    + destruct l as [|[a' an'] tl]; [by apply elem_of_nil in Hb|]. simpl in Eh. subst a'.
      apply elem_of_cons in Hb as [[= ? ?]|Hb]; [lia|].
      apply list_elem_of_split in Hb as (l1 & l2 & ->).
      assert (pairwise spaced (((a, an') :: l1) ++ (b, bn) :: l2)) as Hsp1 by done.
      pose proof (set_size_at_split _ _ _ _ Hsp1 (bn + sz + an)) as Es. cbn [app] in Es.
      specialize (Er (bn + sz + an)). rewrite Es in Er |- *.
      pose proof (spaced_resize _ _ _ (bn + sz + an) _ Hsp1) as Hsp2.
      pose proof (drop_to_split _ _ _ _ Hsp2) as Ed. simpl app in Ed. rewrite Ed.
      pose proof (remove_at_split [] (l1 ++ (b, bn + sz + an) :: l2) a an' Hsp2) as Ed2.
      simpl app in Ed2. rewrite Ed2 in Er. exists l1. split.
      * eapply freed_both; [by rewrite <- Ea|done|]. rewrite <- Er. solve_Permutation.
      * destruct l1 as [|[c cn] l1]; [done|]. simpl. intros Hk.
        pose proof (spaced_ne_l _ _ _ _ Hsp1 (c, cn) ltac:(right; by left)). simpl in *.
        destruct (Z.eqb_spec a (ptr + sz)), (Z.eqb_spec c b); simpl in *; congruence.
    + exists []. rewrite app_nil_r. split; [|done].
      eapply freed_both; [by rewrite <- Ea|done|]. by rewrite Er.
  - apply node_before_some in Eb as [Hb Eb]. simpl in *.
    destruct (spaced_perm1 _ _ _ Hsp Hb) as (rest & E & Es & _).
    exists []. rewrite app_nil_r. split; [|done]. eapply freed_low; [done|done|apply Es].
  - apply node_after_some in Ea as [Ha Ea]. simpl in *.
    destruct (spaced_perm1 _ _ _ Hsp Ha) as (rest & E & _ & Es).
    exists []. rewrite app_nil_r. split; [|done]. eapply freed_high; [by rewrite <- Ea|].
    by rewrite Es.
  - exists []. rewrite app_nil_r. split; [|done]. by apply freed_alone.
Qed.

(** The node that holds the freed block. *)
Definition merged_node (sz : Z) (l : list region) (ptr : Z) : region :=
  match node_before ptr l, node_after (ptr + sz) l with
  | Some b, Some a => (b.1, b.2 + sz + a.2)
  | Some b, None => (b.1, b.2 + sz)
  | None, Some a => (ptr, sz + a.2)
  | None, None => (ptr, sz)
  end.

Lemma merged_in sz ptr l :
  pairwise spaced l -> 0 < sz -> Forall (fun r => 0 < r.2) l ->
  merged_node sz l ptr ∈ give_block sz l ptr.
Proof.
  intros Hsp Hs Hpos. unfold give_block, merged_node.
  destruct (node_before ptr l) as [[b bn]|] eqn:Eb, (node_after (ptr + sz) l) as [[a an]|] eqn:Ea;
    [| |by left..].
  - apply node_before_some in Eb as [Hb Eb]. apply node_after_some in Ea as [Ha Ea]. simpl in *.
    rewrite Forall_forall in Hpos. pose proof (Hpos _ Hb) as Hbn. simpl in Hbn.
    destruct (spaced_perm2 _ _ _ _ _ Hsp Hb Ha ltac:(lia)) as (rest & _ & Er).
    destruct (Z.eqb_spec (first_addr l 0) a); [|rewrite Er; by left].
    apply list_elem_of_split in Hb as (l1 & l2 & ->).
    rewrite set_size_at_split, drop_to_split; [by left| |done]. by eapply spaced_resize.
  - apply node_before_some in Eb as [Hb Eb]. simpl in *.
    destruct (spaced_perm1 _ _ _ Hsp Hb) as (rest & _ & Es & _). rewrite Es. by left.
Qed.

(** Regions of [(ptr, sz) :: l], joined. *)
Lemma freed_layout lo hi sz ptr l l' :
  layout lo hi ((ptr, sz) :: l) -> freed sz ptr l l' -> layout lo hi l'.
Proof.
  intros HL [b bn an rest E Eb ->|b bn rest E Eb ->|an rest E ->| ->]; [..|done].
  - assert (layout lo hi ((b, bn) :: (b + bn, sz) :: (b + bn + sz, an) :: rest)) as HL'.
    { eapply layout_proper; [|exact HL]. rewrite E. rewrite <- Eb. solve_Permutation. }
    apply layout_join in HL'. replace (b + bn + sz) with (b + (bn + sz)) in HL' by lia.
    by apply layout_join in HL'.
  - apply layout_join. eapply layout_proper; [|exact HL]. rewrite E, <- Eb. solve_Permutation.
  - apply layout_join. eapply layout_proper; [|exact HL]. by rewrite E.
Qed.

Lemma freed_covers sz ptr l l' x :
  0 < sz -> Forall (fun r => 0 < r.2) l -> freed sz ptr l l' ->
  covers l' x <-> covers l x \/ inr ptr sz x.
Proof.
  intros Hs Hpos H. destruct H as [b bn an rest E Eb ->|b bn rest E Eb ->|an rest E ->| ->];
    rewrite ?E in *; rewrite ?Forall_cons in Hpos; rewrite !covers_cons; unfold inr; simpl in *;
    [intuition lia..|tauto].
Qed.

Lemma freed_blocks addr sz ptr l l' :
  (sz | ptr - addr) -> Forall (on_blocks addr sz) l -> freed sz ptr l l' ->
  Forall (on_blocks addr sz) l'.
Proof.
  unfold on_blocks.
  intros Hd Hl [b bn an rest E Eb ->|b bn rest E Eb ->|an rest E ->| ->]; rewrite ?E in Hl;
    rewrite ?Forall_cons in *; simpl in *.
  - destruct Hl as ((H1 & H2) & (H3 & H4) & Hl). split_and!; [done| |done].
    apply Z.divide_add_r; [apply Z.divide_add_r; [done|exists 1; lia]|done].
  - destruct Hl as ((H1 & H2) & Hl). split_and!; [done| |done].
    apply Z.divide_add_r; [done|exists 1; lia].
  - destruct Hl as ((H1 & H2) & Hl). split_and!; [done| |done].
    apply Z.divide_add_r; [exists 1; lia|done].
  - split_and!; [done|exists 1; lia|done].
Qed.

Lemma rdisj_covers r l :
  0 < r.2 -> Forall (fun r => 0 < r.2) l ->
  Forall (rdisj r) l <-> forall x, inr r.1 r.2 x -> ~ covers l x.
Proof.
  intros Hr Hl. rewrite !Forall_forall in *. split.
  - intros H x Hx (r' & Hr' & Hx'). specialize (H r' Hr'). unfold rdisj, inr in *. lia.
  - intros H r' Hr'. specialize (Hl r' Hr'). unfold rdisj.
    destruct (Z.le_gt_cases (r.1 + r.2) r'.1), (Z.le_gt_cases (r'.1 + r'.2) r.1); [by left|by left|by right|].
    exfalso. apply (H (Z.max r.1 r'.1)); [unfold inr; lia|]. exists r'. split; [done|]. unfold inr; lia.
Qed.

(** *** The page *)

Section Page.
Context (m : mem) (addr sz : Z) (l : list region) (full : bool) (ptr : Z).
Abbreviation pg := (mk_page addr sz l full) (only parsing).
Context (Hf : free_blocks m addr sz l full) (Hlive : live_in pg (ptr, sz)).

Lemma fb_pos : Forall (fun r => 0 < r.2) l.
Proof.
  apply Forall_forall. intros [a n] Hr. destruct (free_blocks_node _ _ _ _ _ _ _ Hf Hr). simpl. lia.
Qed.

Lemma live_layout : layout (addr + sz) (addr + PAGE) ((ptr, sz) :: l).
Proof.
  destruct Hlive as (H0 & _ & _ & Hb & Hd). apply layout_cons. split; [done|]. split; [done|apply Hf].
Qed.

Lemma give_block_page :
  exists l' lost, freed sz ptr l l' /\ l' = give_block sz l ptr ++ lost /\
    (keeps_all sz l ptr = true -> lost = []) /\
    layout (addr + sz) (addr + PAGE) l' /\ Forall (on_blocks addr sz) l'.
Proof.
  destruct Hlive as (H0 & _ & Hd & _). simpl in *.
  destruct (give_block_freed sz ptr l (free_blocks_spaced _ _ _ _ _ Hf) H0 fb_pos) as (lost & H & Hk).
  eexists _, lost. split; [exact H|]. split; [done|]. split; [done|]. split.
  - eapply freed_layout; [apply live_layout|exact H].
  - eapply freed_blocks; [exact Hd|apply Hf|exact H].
Qed.

Lemma give_block_empties :
  existsb (fun r => r.2 =? PAGE - sz) (give_block sz l ptr) =
    ((merged_node sz l ptr).2 =? PAGE - sz).
Proof.
  destruct give_block_page as (l' & lost & Hfr & E & _ & HL & _). rewrite E in HL.
  apply layout_app_l in HL. destruct Hlive as (H0 & _ & _ & (Hb & _ & Hb') & _). simpl in *.
  pose proof (merged_in sz ptr l (free_blocks_spaced _ _ _ _ _ Hf) H0 fb_pos) as Hm.
  destruct (Z.eqb_spec (merged_node sz l ptr).2 (PAGE - sz)) as [Ee|Ee].
  - apply existsb_exists. exists (merged_node sz l ptr). rewrite <- list_elem_of_In.
    split; [done|by apply Z.eqb_eq].
  - apply not_true_iff_false. intros (r & Hr & Er)%existsb_exists. apply list_elem_of_In in Hr.
    apply Z.eqb_eq in Er.
    destruct (layout_bound _ _ _ _ HL Hr) as (? & ? & ?), (layout_bound _ _ _ _ HL Hm) as (? & ? & ?).
    destruct (layout_disj _ _ _ _ _ HL Hr Hm); [congruence|lia..].
Qed.

(** Freeing a block takes exactly that block from the client. *)
Lemma live_give r :
  keeps_all sz l ptr = true ->
  live_in (page_give pg ptr) r <-> live_in pg r /\ r <> (ptr, sz).
Proof.
  intros Hk. destruct give_block_page as (l' & lost & Hfr & E & Hl & HL & HB).
  rewrite (Hl Hk), app_nil_r in E. clear Hl lost. unfold page_give. cbn [pg_size pg_nodes pg_addr pg_full].
  rewrite <- E. clear E. destruct Hlive as (H0 & _ & Hd & Hb & Hd'). cbn [pg_size pg_nodes pg_addr pg_full fst snd] in *.
  assert (Forall (fun r => 0 < r.2) l') as Hpos.
  { destruct HL as [HL _]. eapply Forall_impl; [exact HL|]. intros r' (_ & ? & _). done. }
  pose proof (fun x => freed_covers sz ptr l l' x H0 fb_pos Hfr) as Hc.
  assert (forall r, live_in pg r -> r <> (ptr, sz) -> rdisj r (ptr, sz)) as Hap.
  { intros [a n] (_ & Hn & Hda & _) Hne. cbn [pg_size pg_nodes pg_addr fst snd] in *. subst n.
    unfold rdisj. simpl. apply (blocks_apart addr); [done..|]. congruence. }
  assert (forall r, live_in (mk_page addr sz l' full) r <-> live_in pg r /\ r <> (ptr, sz)) as Hgen.
  { intros r'. split.
    - intros (_ & Hn & Hda & Hbr & Hr). cbn [pg_size pg_nodes pg_addr fst snd] in *.
      rewrite rdisj_covers in Hr by (done || lia). split.
      + split; [done|]. split; [done|]. split; [done|]. split; [done|].
        rewrite rdisj_covers by (apply fb_pos || lia). intros x Hx Hx'. apply (Hr x Hx), Hc. by left.
      + intros ->. apply (Hr ptr); [unfold inr; simpl; lia|]. apply Hc. right. unfold inr. lia.
    - intros [Hlv Hne]. pose proof (Hap _ Hlv Hne) as Hd2.
      destruct Hlv as (_ & Hn & Hda & Hbr & Hr). cbn [pg_size pg_nodes pg_addr fst snd] in *.
      split; [done|]. split; [done|]. split; [done|]. split; [done|].
      rewrite rdisj_covers by (done || lia). intros x Hx [Hx'|Hx']%Hc.
      + rewrite rdisj_covers in Hr by (apply fb_pos || lia). by apply (Hr x).
      + unfold rdisj, inr in *. simpl in *. lia. }
  destruct (existsb _ l') eqn:Ee; [|apply Hgen].
  split; [intros [? _]; simpl in *; lia|]. intros Hr. apply Hgen in Hr.
  apply existsb_exists in Ee as ([a n] & Hin & Hn). apply list_elem_of_In in Hin.
  simpl in Hn. apply Z.eqb_eq in Hn. subst n.
  destruct (layout_bound _ _ _ _ HL Hin) as (? & ? & ?). simpl in *.
  destruct Hr as (_ & Hn & _ & (? & ? & ?) & Hr). cbn [pg_size pg_nodes pg_addr fst snd] in *.
  rewrite Forall_forall in Hr. specialize (Hr _ Hin). unfold rdisj in Hr. simpl in *. lia.
Qed.
End Page.

(** ** The code *)

(** What [kfree_page] relies on. [T] holds the nodes a walk of the free list visits after
    the page's own: nothing when the list ends at NULL, and the headers of this page and of
    the pages after it when the page has been full. The last two conditions are the cases in
    which the code takes a page header for a free block (PmmFaults.v): the block does not
    start where the header's would end, and no header follows the block. *)
Record free_ctx (m : mem) (addr sz : Z) (l : list region) (full : bool) (nx : Z)
    (T : list region) (ptr : Z) : Prop := {
  fc_page : page_ok m (mk_page addr sz l full) nx;
  fc_live : live_in (mk_page addr sz l full) (ptr, sz);
  fc_tail : node_list m (list_end addr full) T 0;
  fc_head : if full then exists T', T = (addr, sz) :: T' else T = [];
  fc_spaced : pairwise spaced (l ++ T);
  fc_far : Forall (fun r => r.1 <= addr \/ addr + PAGE <= r.1) T;
  fc_first : full = true -> ptr <> addr + sz;
  fc_last : Forall (fun r => r.1 <> ptr + sz) T;
}.

Section Free.
Context (m : mem) (addr sz : Z) (l : list region) (full : bool) (nx : Z) (T : list region) (ptr : Z).
Context (Hctx : free_ctx m addr sz l full nx T ptr).
Abbreviation pg := (mk_page addr sz l full) (only parsing).

Lemma fc_facts :
  0 < addr /\ addr + PAGE < 2 ^ 64 /\ 32 <= sz <= 16384 /\ block_size sz /\
  (sz | ptr - addr) /\ addr + sz <= ptr /\ ptr + sz <= addr + PAGE /\
  free_blocks m addr sz l full.
Proof.
  destruct (fc_page _ _ _ _ _ _ _ _ Hctx) as [[H1 H2] _ _ _ [[H _]|Hf]];
    destruct (fc_live _ _ _ _ _ _ _ _ Hctx) as (H0 & _ & Hd & (Hb1 & _ & Hb2) & _);
    cbn [pg_size pg_nodes pg_addr pg_full fst snd] in *; [lia|].
  pose proof (block_size_pos _ (fb_size _ _ _ _ _ Hf)). pose proof (fb_size _ _ _ _ _ Hf).
  by split_and!; try lia.
Qed.

(** The whole list the code walks. *)
Lemma fc_list : node_list m (first_addr l addr) (l ++ T) 0.
Proof.
  destruct fc_facts as (_ & _ & _ & _ & _ & _ & _ & Hf).
  rewrite <- (first_addr_end _ _ _ _ _ Hf). apply node_list_app.
  exists (list_end addr full). split; [apply Hf|apply Hctx].
Qed.

Lemma fc_list_pos : Forall (fun r => 0 < r.1) (l ++ T).
Proof. apply Forall_forall. intros r Hr. eapply node_list_pos; [apply fc_list|done]. Qed.

Lemma fc_node a n :
  (a, n) ∈ l -> addr + sz <= a /\ a + n <= addr + PAGE /\ sz <= n /\ (a + n <= ptr \/ ptr + sz <= a).
Proof.
  intros Hin. destruct fc_facts as (_ & _ & _ & _ & _ & _ & _ & Hf).
  destruct (free_blocks_node _ _ _ _ _ _ _ Hf Hin) as (_ & ? & ? & ? & _).
  destruct (fc_live _ _ _ _ _ _ _ _ Hctx) as (_ & _ & _ & _ & Hd). cbn [pg_nodes] in Hd.
  rewrite Forall_forall in Hd. specialize (Hd _ Hin). unfold rdisj in Hd. simpl in Hd. lia.
Qed.

(** A header the walk visits below the block is this page's. *)
Lemma fc_tail_low r : r ∈ T -> r.1 <= addr -> full = true.
Proof. intros Hr _. pose proof (fc_head _ _ _ _ _ _ _ _ Hctx) as H. destruct full; [done|]. subst T. by apply elem_of_nil in Hr. Qed.

(** *** The neighbours the code finds *)

Lemma nbr_low b bn : (b, bn) ∈ l -> b + bn = ptr -> below ptr (l ++ T) 0 = b.
Proof.
  intros Hb E. destruct (below_spec ptr (l ++ T) 0 fc_list_pos ltac:(lia)) as (H1 & H2 & H3).
  destruct (fc_node _ _ Hb) as (Hb1 & Hb2 & Hb3 & _). destruct fc_facts as (? & ? & ? & _).
  specialize (H3 b bn ltac:(apply elem_of_app; by left) ltac:(lia)).
  destruct H2 as [E0|(Hlt & n & Hin)]; [lia|].
  apply elem_of_app in Hin as [Hin|Hin].
  - destruct (fc_node _ _ Hin) as (_ & _ & ? & _).
    destruct (Z.eq_dec b (below ptr (l ++ T) 0)) as [E'|E']; [done|].
    destruct (layout_disj _ _ (b, bn) (below ptr (l ++ T) 0, n) l (fb_layout m addr sz l full ltac:(apply fc_facts)) Hb Hin);
      simpl in *; [congruence|lia..].
  - pose proof (fc_far _ _ _ _ _ _ _ _ Hctx) as Hfar. rewrite Forall_forall in Hfar.
    specialize (Hfar _ Hin). simpl in Hfar. destruct fc_facts as (_ & _ & _ & _ & _ & ? & ? & _). lia.
Qed.

Lemma nbr_not_low :
  node_before ptr l = None ->
  let b := below ptr (l ++ T) 0 in
  b = 0 \/ exists n, (b, n) ∈ l ++ T /\ addr <= b < ptr /\ b + n <> ptr /\ 0 <= b + n <= addr + PAGE.
Proof.
  intros Hnone. cbn zeta. destruct fc_facts as (? & ? & ? & _ & _ & ? & ? & _).
  destruct (below_spec ptr (l ++ T) 0 fc_list_pos ltac:(lia)) as (B1 & B2 & B3).
  destruct B2 as [->|(Hlt & n & Hin)]; [by left|right]. exists n. split; [done|].
  pose proof (node_list_size _ _ _ _ _ _ fc_list Hin) as Hn.
  apply elem_of_app in Hin as [Hin|Hin].
  - pose proof (node_before_none _ _ _ Hnone Hin). destruct (fc_node _ _ Hin) as (? & ? & ? & _). simpl in *. lia.
  - pose proof (fc_far _ _ _ _ _ _ _ _ Hctx) as Hfar. rewrite Forall_forall in Hfar.
    specialize (Hfar _ Hin). simpl in Hfar.
    pose proof (fc_tail_low _ Hin ltac:(simpl; lia)) as Hfull.
    pose proof (fc_head _ _ _ _ _ _ _ _ Hctx) as Hh. rewrite Hfull in Hh. destruct Hh as [T' HT].
    specialize (B3 addr sz ltac:(rewrite HT; apply elem_of_app; right; by left) ltac:(lia)).
    assert (below ptr (l ++ T) 0 = addr) as E by lia. rewrite E in *.
    pose proof (node_list_size _ _ _ _ addr sz fc_list ltac:(rewrite HT; apply elem_of_app; right; by left)) as Hz.
    rewrite Hz in Hn. subst n.
    pose proof (fc_first _ _ _ _ _ _ _ _ Hctx Hfull). lia.
Qed.

Lemma nbr_high an : (ptr + sz, an) ∈ l -> above ptr (l ++ T) 0 = ptr + sz.
Proof.
  intros Ha. destruct fc_facts as (? & ? & ? & _ & _ & ? & ? & _).
  destruct (above_spec ptr (l ++ T) 0 fc_list_pos ltac:(lia)) as (_ & B2 & B3).
  specialize (B3 (ptr + sz) an ltac:(apply elem_of_app; by left) ltac:(lia)).
  destruct B2 as [E|(Hlt & n & Hin)]; [lia|].
  apply elem_of_app in Hin as [Hin|Hin].
  - destruct (fc_node _ _ Hin) as (_ & _ & ? & ?). lia.
  - pose proof (fc_far _ _ _ _ _ _ _ _ Hctx) as Hfar. rewrite Forall_forall in Hfar.
    specialize (Hfar _ Hin). simpl in Hfar. lia.
Qed.

Lemma nbr_not_high : node_after (ptr + sz) l = None -> ptr + sz <> above ptr (l ++ T) 0.
Proof.
  intros Hnone E. destruct fc_facts as (? & ? & ? & _ & _ & ? & ? & _).
  destruct (above_spec ptr (l ++ T) 0 fc_list_pos ltac:(lia)) as (_ & B2 & _).
  destruct B2 as [E'|(_ & n & Hin)]; [lia|]. rewrite <- E in Hin.
  apply elem_of_app in Hin as [Hin|Hin].
  - by destruct (node_after_none _ _ _ Hnone Hin).
  - pose proof (fc_last _ _ _ _ _ _ _ _ Hctx) as Hl. rewrite Forall_forall in Hl.
    by destruct (Hl _ Hin).
Qed.

(** *** What the stores may change *)

Definition free_touch (x : Z) : Prop :=
  inr (addr + 12) 4 x \/ (exists r, r ∈ l /\ inr r.1 12 x) \/ inr ptr sz x.

Lemma touch_own x : free_touch x -> page_own pg x \/ inr ptr sz x.
Proof.
  destruct fc_facts as (? & ? & ? & _).
  intros [Hx|[(r & Hr & Hx)|Hx]]; [left; left; unfold inr in *; simpl; lia|left; right|by right].
  exists r. split; [done|]. destruct r as [a n]. destruct (fc_node _ _ Hr). unfold inr in *; simpl in *; lia.
Qed.

Lemma touch_header m1 :
  only_in free_touch m m1 ->
  load64 m1 addr = nx /\ loadi32 m1 (addr + 8) = sz.
Proof.
  intros Ho. destruct (fc_page _ _ _ _ _ _ _ _ Hctx) as [_ En Es _ _]. cbn [pg_size pg_addr] in *.
  destruct fc_facts as (? & ? & ? & _ & _ & ? & _).
  assert (forall x, inr addr 12 x -> ~ free_touch x) as Hn.
  { intros x Hx [Hx'|[([a n] & Hr & Hx')|Hx']]; [| |unfold inr in *; lia].
    - unfold inr in *; lia.
    - destruct (fc_node _ _ Hr). unfold inr in *; simpl in *; lia. }
  rewrite <- En, <- Es at 1. unfold loadi32. split; [|f_equal]; (eapply only_in_load; [exact Ho|]);
    intros x Hx; apply Hn; unfold inr; simpl in *; lia.
Qed.

Lemma nodes_apart a n b k : (a, n) ∈ l -> (b, k) ∈ l -> a = b \/ a + 16 <= b \/ b + 16 <= a.
Proof.
  intros Ha Hb. destruct (Z.eq_dec a b) as [?|Hne]; [by left|right].
  destruct fc_facts as (_ & _ & ? & _ & _ & _ & _ & Hf).
  destruct (fc_node _ _ Ha) as (_ & _ & ? & _), (fc_node _ _ Hb) as (_ & _ & ? & _).
  destruct (layout_disj _ _ (a, n) (b, k) l (fb_layout _ _ _ _ _ Hf) Ha Hb); simpl in *; [congruence|lia..].
Qed.

Lemma touch_magic m1 a n :
  only_in free_touch m m1 -> (a, n) ∈ l -> loadi32 m1 (a + 12) = 1234567.
Proof.
  intros Ho Ha. destruct fc_facts as (? & ? & ? & _ & _ & ? & _ & Hf).
  pose proof (fb_nodes _ _ _ _ _ Hf) as [_ Hm]. rewrite Forall_forall in Hm.
  specialize (Hm _ Ha). simpl in Hm. rewrite <- Hm. unfold loadi32. f_equal.
  eapply only_in_load; [exact Ho|]. intros x Hx. destruct (fc_node _ _ Ha) as (? & ? & ? & ?).
  intros [Hx'|[([b k] & Hr & Hx')|Hx']]; [unfold inr in *; simpl in *; lia| |unfold inr in *; simpl in *; lia].
  destruct (nodes_apart _ _ _ _ Ha Hr); unfold inr in *; simpl in *; lia.
Qed.

Lemma touch_store m1 a n len off v :
  (a, n) ∈ l -> 0 <= off -> off + Z.of_nat len <= 12 ->
  only_in free_touch m m1 -> only_in free_touch m (store_le len m1 (a + off) v).
Proof.
  intros Ha H0 H12 Ho. apply only_in_store; [done|]. intros x Hx. right. left. exists (a, n).
  split; [done|]. unfold inr. simpl. lia.
Qed.

Lemma touch_relink m1 l1 q :
  (forall r, r ∈ l1 -> (exists n, (r.1, n) ∈ l) \/ r.1 = ptr) ->
  only_in free_touch m m1 -> only_in free_touch m (relink m1 l1 q).
Proof.
  intros Hl1 Ho. unfold relink. destruct (last l1) as [r|] eqn:E; [|done].
  apply last_Some in E as [l' ->].
  destruct (Hl1 r ltac:(apply elem_of_app; right; by left)) as [[n Hn]|E].
  - unfold store64. replace r.1 with (r.1 + 0) by lia. eapply touch_store; [exact Hn|lia|simpl; lia|done].
  - apply only_in_store; [done|]. intros x Hx. right. right. destruct fc_facts as (_ & _ & ? & _).
    unfold inr. rewrite <- E. simpl in Hx. lia.
Qed.

Lemma touch_index m1 v : only_in free_touch m m1 -> only_in free_touch m (store32 m1 (addr + 12) v).
Proof. intros Ho. apply only_in_store; [done|]. intros x Hx. left. unfold inr; simpl in *; lia. Qed.

Lemma touch_ptr m1 len off v :
  0 <= off -> off + Z.of_nat len <= 16 ->
  only_in free_touch m m1 -> only_in free_touch m (store_le len m1 (ptr + off) v).
Proof.
  intros H0 H16 Ho. apply only_in_store; [done|]. intros x Hx. right. right.
  destruct fc_facts as (_ & _ & ? & _). unfold inr. lia.
Qed.

(** *** The page with its new list, before the test that may make it empty *)

Record list_given (m1 : mem) (l' : list region) : Prop := {
  lg_only : only_in free_touch m m1;
  lg_nodes : pnodes m1 l' (list_end addr full);
  lg_index : load32 m1 (addr + 12) = idx_of addr sz l';
}.

Lemma tail_first : first_addr T 0 = list_end addr full.
Proof.
  pose proof (fc_head _ _ _ _ _ _ _ _ Hctx) as H. unfold list_end.
  destruct full; [by destruct H as [T' ->]|by rewrite H].
Qed.

Lemma given_intro m1 p l' :
  only_in free_touch m m1 -> node_list m1 p (l' ++ T) 0 ->
  load32 m1 (addr + 12) = idx_of addr sz l' ->
  (forall r, r ∈ l' -> (exists n, (r.1, n) ∈ l) \/ r.1 = ptr /\ loadi32 m1 (ptr + 12) = 1234567) ->
  list_given m1 l'.
Proof.
  intros Ho Hl Hi Hm. split; [done| |done]. split.
  - apply node_list_app in Hl as (r & Hl & HT). apply node_list_first in HT. rewrite tail_first in HT.
    subst r. pose proof (node_list_first _ _ _ _ Hl) as E. by rewrite <- E.
  - apply Forall_forall. intros r Hr. destruct (Hm _ Hr) as [[n Hn]|[-> ?]]; [|done].
    eapply touch_magic; [exact Ho|exact Hn].
Qed.

(** The merged node of a page that has become empty is the whole list. *)
Lemma give_block_whole :
  (merged_node sz l ptr).2 = PAGE - sz -> give_block sz l ptr = [(addr + sz, PAGE - sz)].
Proof.
  intros Hm. destruct fc_facts as (_ & _ & ? & _ & _ & _ & _ & Hf).
  destruct (give_block_page _ _ _ _ _ _ Hf (fc_live _ _ _ _ _ _ _ _ Hctx))
    as (l' & lost & _ & E & _ & HL & _). rewrite E in HL. apply layout_app_l in HL.
  pose proof (merged_in sz ptr l (free_blocks_spaced _ _ _ _ _ Hf) ltac:(lia) (fb_pos _ _ _ _ _ Hf)) as Hin.
  apply list_elem_of_split in Hin as (l1 & l2 & E'). rewrite E' in *.
  rewrite <- Permutation_middle in HL. apply layout_cons in HL as ((? & _ & ?) & Hd & [HL _]).
  destruct (l1 ++ l2) as [|r l3] eqn:E3.
  - apply app_nil in E3 as [-> ->]. simpl. f_equal. destruct (merged_node _ _ _). simpl in *. f_equal; lia.
  - apply Forall_cons in Hd as [Hd _], HL as [(? & ? & ?) _]. unfold rdisj in Hd. lia.
Qed.

Lemma given_ok m1 :
  list_given m1 (give_block sz l ptr) ->
  if (merged_node sz l ptr).2 =? PAGE - sz
  then page_ok (store32 m1 (addr + 8) 0) (page_give pg ptr) nx
  else page_ok m1 (page_give pg ptr) nx.
Proof.
  intros [Ho Hn Hi]. destruct fc_facts as (? & ? & ? & Hbs & _ & _ & _ & Hf).
  destruct (touch_header _ Ho) as [En Es]. pose proof (fc_live _ _ _ _ _ _ _ _ Hctx) as Hlv.
  destruct (give_block_page _ _ _ _ _ _ Hf Hlv) as (l' & lost & Hfr & E & _ & HL & HB).
  unfold page_give. cbn [pg_size pg_nodes pg_addr pg_full].
  rewrite (give_block_empties _ _ _ _ _ _ Hf Hlv).
  rewrite E in HL, HB. apply layout_app_l in HL. apply Forall_app in HB as [HB _].
  destruct (Z.eqb_spec (merged_node sz l ptr).2 (PAGE - sz)) as [Ew|_].
  - split; cbn [pg_size pg_nodes pg_addr pg_full]; [done|by mem_simpl|by mem_simpl| |by left].
    mem_simpl. rewrite Hi, give_block_whole by done. simpl.
    change (page_index _) with 1. symmetry. apply Z.div_unique_exact; lia.
  - split; cbn [pg_size pg_nodes pg_addr pg_full]; [done|done|done| |right; split; try done].
    + unfold page_index. simpl. destruct (Z.eqb_spec sz 0); [lia|done].
    + intros Hnil. pose proof (merged_in sz ptr l (free_blocks_spaced _ _ _ _ _ Hf) ltac:(lia) (fb_pos _ _ _ _ _ Hf)) as Hin.
      rewrite Hnil in Hin. by apply elem_of_nil in Hin.
Qed.

(** *** Running the code *)

(** The whole list, under changes of the index. *)
Lemma list_index_frame m1 p l' v :
  node_list m1 p (l' ++ T) 0 -> (forall r, r ∈ l' -> addr + 16 <= r.1) ->
  node_list (store32 m1 (addr + 12) v) p (l' ++ T) 0.
Proof.
  intros Hl Hf. eapply node_list_frame12; [|exact Hl]. intros r x Hr Hx. apply store_le_outside.
  pose proof (fc_far _ _ _ _ _ _ _ _ Hctx) as Hfar. pose proof (fc_spaced _ _ _ _ _ _ _ _ Hctx) as Hsp.
  apply elem_of_app in Hr as [Hr|Hr].
  - specialize (Hf _ Hr). unfold inr in *; simpl; lia.
  - rewrite Forall_forall in Hfar. specialize (Hfar _ Hr).
    pose proof (fc_head _ _ _ _ _ _ _ _ Hctx) as Hh. destruct full.
    + destruct Hh as [T' ->]. apply elem_of_cons in Hr as [->|Hr]; [unfold inr in *; simpl in *; lia|].
      apply pairwise_app in Hsp as (_ & (Hsp & _) & _). rewrite Forall_forall in Hsp.
      specialize (Hsp _ Hr). unfold spaced, inr in *. simpl in *. lia.
    + subst T. by apply elem_of_nil in Hr.
Qed.

Lemma wp_free_head s h i (Q : Z -> kstate -> Prop) :
  loadi32 (k_mem s) (addr + 8) = sz -> load32 (k_mem s) (addr + 12) = i -> addr + i * sz = h ->
  h <= addr + PAGE -> addr <= h -> Q h s -> wp (free_head addr) s Q.
Proof.
  intros Es Ei E H1 H2 HQ. destruct fc_facts as (? & ? & ? & _). unfold free_head. k_steps.
  rewrite Ei, Es, wrap_small by lia. by rewrite E.
Qed.

Lemma wp_block_index s p (Q : Z -> kstate -> Prop) :
  loadi32 (k_mem s) (addr + 8) = sz -> addr <= p <= addr + PAGE -> Q ((p - addr) / sz) s ->
  wp (block_index p addr) s Q.
Proof.
  intros Es Hp HQ. destruct fc_facts as (? & ? & ? & _). unfold block_index. k_steps. rewrite Es.
  destruct (Z.eqb_spec sz 0); [lia|]. apply wp_ret. by rewrite !wrap_small by lia.
Qed.

Lemma first_addr_range : addr <= first_addr l addr <= addr + PAGE.
Proof.
  pose proof fc_node as Hn. destruct fc_facts as (_ & _ & ? & _). clear Hctx.
  destruct l as [|[a n] tl]; simpl; [lia|]. destruct (Hn a n); [by left|lia].
Qed.

(** Lines 378-381 and 399-402: the page becomes empty. *)
Lemma wp_empty_test s k c (Q : unit -> kstate -> Prop) :
  list_given (k_mem s) (give_block sz l ptr) -> merged_node sz l ptr = (c, k) -> c <> 0 ->
  (forall m', page_ok m' (page_give pg ptr) nx ->
    only_in (fun x => page_own pg x \/ inr ptr sz x) m m' -> Q tt (mk_kstate m' (head s) (heap_lock s) (cpupagelist s))) ->
  wp (bsz ← get_size c; psz ← get_size addr;
      if bsz =? 64 * 1024 - psz then set_size addr 0 else mret tt) s Q.
Proof.
  intros Hg Em Hc HQ. destruct fc_facts as (? & ? & ? & _ & _ & _ & _ & Hf).
  pose proof Hg as [Ho [Hn _] _]. pose proof (given_ok _ Hg) as Hok. rewrite Em in Hok. simpl in Hok.
  destruct (touch_header _ Ho) as [_ Es].
  pose proof (merged_in sz ptr l (free_blocks_spaced _ _ _ _ _ Hf) ltac:(lia) (fb_pos _ _ _ _ _ Hf)) as Hin.
  rewrite Em in Hin. k_steps. rewrite Es, (node_list_size _ _ _ _ _ _ Hn Hin).
  assert (only_in (fun x => page_own pg x \/ inr ptr sz x) m (k_mem s)) as Ho'.
  { eapply only_in_weaken; [exact Ho|]. apply touch_own. }
  change (64 * 1024) with PAGE. destruct (k =? PAGE - sz); k_steps.
  - apply (HQ _ Hok). apply only_in_store; [done|]. intros x Hx. left. left. unfold inr; simpl in *; lia.
  - destruct s as [ms hs hl cl]. by apply (HQ ms).
Qed.
End Free.

(** *** The four cases of [kfree_page_merge] *)

Section Merge.
Context (s : kstate) (addr sz : Z) (l : list region) (full : bool) (nx : Z) (T : list region) (ptr : Z).
Context (Hctx : free_ctx (k_mem s) addr sz l full nx T ptr).
Context (fuel : nat) (Hfuel : (length (l ++ T) + 1 < fuel)%nat).
Abbreviation pg := (mk_page addr sz l full) (only parsing).

Definition free_post (s' : kstate) : Prop :=
  page_ok (k_mem s') (page_give pg ptr) nx /\
  only_in (fun x => page_own pg x \/ inr ptr sz x) (k_mem s) (k_mem s') /\
  s' = mk_kstate (k_mem s') (head s) (heap_lock s) (cpupagelist s).

Lemma size_read : loadi32 (k_mem s) (addr + 8) = sz.
Proof. apply (touch_header _ _ _ _ _ _ _ _ Hctx). done. Qed.

Lemma index_read :
  load32 (k_mem s) (addr + 12) = idx_of addr sz l /\ addr + idx_of addr sz l * sz = first_addr l addr.
Proof.
  destruct (fc_facts _ _ _ _ _ _ _ _ Hctx) as (_ & _ & ? & _ & _ & _ & _ & Hf).
  pose proof (po_index _ _ _ (fc_page _ _ _ _ _ _ _ _ Hctx)) as Hi. unfold page_index in Hi.
  cbn [pg_size pg_nodes pg_addr] in Hi. destruct (Z.eqb_spec sz 0); [lia|]. split; [done|].
  by eapply idx_of_head.
Qed.

Lemma wp_merge_end s1 c k :
  list_given (k_mem s) addr sz l full ptr (k_mem s1) (give_block sz l ptr) ->
  merged_node sz l ptr = (c, k) -> c <> 0 ->
  s1 = mk_kstate (k_mem s1) (head s) (heap_lock s) (cpupagelist s) ->
  wp (bsz ← get_size c; psz ← get_size addr;
      if bsz =? 64 * 1024 - psz then set_size addr 0 else mret tt) s1 (fun _ => free_post).
Proof.
  intros Hg Em Hc E. eapply (wp_empty_test _ _ _ _ _ _ _ _ Hctx); [exact Hg|exact Em|exact Hc|].
  intros m' Hok Ho. split; [done|]. split; [done|]. rewrite E. done.
Qed.

(** Only the node below joins. *)
Lemma page_merge_low b bn a :
  node_before ptr l = Some (b, bn) -> node_after (ptr + sz) l = None -> ptr + sz <> a ->
  wp (kfree_page_merge fuel addr ptr b a) s (fun _ => free_post).
Proof.
  intros Eb Ea Hna. pose proof (node_before_some _ _ _ Eb) as [Hb Ebp]. simpl in Ebp.
  destruct (fc_facts _ _ _ _ _ _ _ _ Hctx) as (? & ? & ? & _ & _ & _ & _ & Hf).
  destruct (fc_node _ _ _ _ _ _ _ _ Hctx _ _ Hb) as (? & ? & ? & _).
  pose proof (fc_list _ _ _ _ _ _ _ _ Hctx) as Hl. pose proof size_read as Es.
  destruct index_read as [Ei _]. pose proof (fc_spaced _ _ _ _ _ _ _ _ Hctx) as Hsp.
  assert (list_given (k_mem s) addr sz l full ptr (store32 (k_mem s) (b + 8) (bn + sz)) (give_block sz l ptr)) as Hg.
  { unfold give_block. rewrite Eb, Ea. cbn [fst snd].
    assert (only_in (free_touch addr sz l ptr) (k_mem s) (store32 (k_mem s) (b + 8) (bn + sz))) as Ho.
    { eapply touch_store; [exact Hb|lia|simpl; lia|done]. }
    pose proof (free_blocks_spaced _ _ _ _ _ Hf) as Hspl.
    pose proof Hb as (l1 & l2 & E)%list_elem_of_split.
    assert (set_size_at b (bn + sz) l = l1 ++ (b, bn + sz) :: l2) as Eset.
    { rewrite E. apply set_size_at_split. by rewrite <- E. }
    rewrite Eset. eapply (given_intro _ _ _ _ _ _ _ _ Hctx); [exact Ho| | |].
    - rewrite E, <- app_assoc in Hl, Hsp. rewrite <- app_assoc. eapply node_list_resize; [exact Hsp|lia|exact Hl].
    - mem_simpl. rewrite Ei, E. by destruct l1.
    - intros r Hr. left. apply elem_of_app in Hr as [Hr|[->|Hr]%elem_of_cons].
      + exists r.2. rewrite E. apply elem_of_app. left. by destruct r.
      + by exists bn.
      + exists r.2. rewrite E. apply elem_of_app. right; right. by destruct r. }
  unfold kfree_page_merge. destruct (Z.eqb_spec b 0); [lia|]. k_steps.
  rewrite (node_list_size _ _ _ _ _ _ Hl (proj2 (elem_of_app _ _ _) (or_introl Hb))), !wrap_small by lia.
  destruct (Z.eqb_spec (b + bn) ptr); [|lia]. simpl. rewrite Es. repeat k_step. mem_simpl. rewrite Es.
  destruct (Z.eqb_spec (ptr + sz) a); [done|]. k_step.
  apply (wp_merge_end _ b (bn + sz)); [exact Hg| |lia|done]. unfold merged_node. by rewrite Eb, Ea.
Qed.

(** The list with the node at [b] resized to [v]. *)
Lemma resized_list m1 b bn k v l1 l2 :
  l = l1 ++ (b, bn) :: l2 -> - 2 ^ 31 <= v < 2 ^ 31 ->
  node_list m1 (first_addr l addr) ((l1 ++ (b, k) :: l2) ++ T) 0 ->
  node_list (store32 m1 (b + 8) v) (first_addr l addr) ((l1 ++ (b, v) :: l2) ++ T) 0 /\
  pairwise spaced ((l1 ++ (b, v) :: l2) ++ T).
Proof.
  intros E Hv Hl. pose proof (fc_spaced _ _ _ _ _ _ _ _ Hctx) as Hsp. rewrite E in Hsp at 1.
  rewrite <- app_assoc in Hsp, Hl |- *. split.
  - eapply node_list_resize; [|exact Hv|exact Hl]. by eapply spaced_resize.
  - by eapply spaced_resize.
Qed.

Lemma resized_member b bn v l1 l2 r :
  l = l1 ++ (b, bn) :: l2 -> r ∈ l1 ++ (b, v) :: l2 -> exists n, (r.1, n) ∈ l.
Proof.
  intros E. rewrite E. intros [Hr|[->|Hr]%elem_of_cons]%elem_of_app.
  - exists r.2. apply elem_of_app. left. by destruct r.
  - exists bn. apply elem_of_app. right. by left.
  - exists r.2. apply elem_of_app. right; right. by destruct r.
Qed.

Lemma node_above_header (r : region) : (exists n, (r.1, n) ∈ l) -> addr + 16 <= r.1.
Proof.
  intros [n Hn]. destruct (fc_facts _ _ _ _ _ _ _ _ Hctx) as (_ & _ & ? & _).
  destruct (fc_node _ _ _ _ _ _ _ _ Hctx _ _ Hn). lia.
Qed.

(** Lines 366-376, the node above joined too: it is the head of the list, ... *)
Lemma wp_drop_head s1 l1 l2 b bn v a an (Q : unit -> kstate -> Prop) :
  l = (a, an) :: l1 ++ (b, bn) :: l2 ->
  only_in (free_touch addr sz l ptr) (k_mem s) (k_mem s1) ->
  node_list (k_mem s1) a (((a, an) :: l1 ++ (b, v) :: l2) ++ T) 0 ->
  pairwise spaced (((a, an) :: l1 ++ (b, v) :: l2) ++ T) ->
  (forall m', list_given (k_mem s) addr sz l full ptr m' ((b, v) :: l2) ->
    Q tt (mk_kstate m' (head s1) (heap_lock s1) (cpupagelist s1))) ->
  wp (h ← find_pred fuel a a;
      if negb (h =? 0) then anx ← get_next a; set_next h anx
      else i ← block_index b addr; set_index addr i) s1 Q.
Proof.
  intros E Ho Hl Hsp HQ. destruct (fc_facts _ _ _ _ _ _ _ _ Hctx) as (? & ? & ? & _).
  assert ((a, an) ∈ l /\ (b, bn) ∈ l) as [Ha Hb].
  { rewrite E. split; [by left|right]. apply elem_of_app. right. by left. }
  destruct (fc_node _ _ _ _ _ _ _ _ Hctx _ _ Ha) as (? & _), (fc_node _ _ _ _ _ _ _ _ Hctx _ _ Hb) as (? & ? & ? & _).
  destruct (touch_header _ _ _ _ _ _ _ _ Hctx _ Ho) as [_ Es].
  apply wp_bind. eapply wp_mono. { apply (find_pred_none _ _ _ _ _ Hl); [|lia|].
    - revert Hfuel. rewrite E. cbn [length app]. rewrite !length_app. cbn [length]. lia.
    - intros r Hr. apply (spaced_ne_r [] (l1 ++ (b, v) :: l2 ++ T) a an); simpl in *; rewrite <- ?app_assoc in *; done. }
  intros r s' [-> ->]. simpl. apply wp_bind.
  eapply (wp_block_index _ _ _ _ _ _ _ _ Hctx); [exact Es|lia|]. k_steps. apply HQ.
  eapply (given_intro _ _ _ _ _ _ _ _ Hctx _ b); [by apply touch_index| |mem_simpl; apply wrap_small; simpl|].
  - eapply (list_index_frame _ _ _ _ _ _ _ _ Hctx).
    + cbn [app] in Hl. destruct Hl as (_ & _ & _ & Hl).
      rewrite <- app_assoc in Hl. apply node_list_app in Hl as (r & _ & Hl).
      pose proof (node_list_first _ _ _ _ Hl) as Er. simpl in Er. by subst r.
    + intros r Hr. apply node_above_header. eapply (resized_member b bn v ((a, an) :: l1)); [exact E|].
      right. apply elem_of_app. by right.
  - assert (0 <= (b - addr) / sz <= 2048); [|lia]. split; [apply Z.div_pos; lia|].
    apply Z.div_le_upper_bound; lia.
  - intros r Hr. left. eapply (resized_member b bn v ((a, an) :: l1)); [exact E|]. right. apply elem_of_app. by right.
Qed.

(** ... or it has a predecessor, whose [next] field is redirected. *)
Lemma unlink_given m1 p k1 a an k2 :
  k1 <> [] -> node_list m1 p ((k1 ++ (a, an) :: k2) ++ T) 0 ->
  pairwise spaced ((k1 ++ (a, an) :: k2) ++ T) ->
  only_in (free_touch addr sz l ptr) (k_mem s) m1 ->
  (forall r, r ∈ k1 ++ (a, an) :: k2 ->
    (exists n, (r.1, n) ∈ l) \/ r.1 = ptr /\ loadi32 m1 (ptr + 12) = 1234567) ->
  load32 m1 (addr + 12) = idx_of addr sz (k1 ++ k2) ->
  0 < last_addr k1 0 /\
  list_given (k_mem s) addr sz l full ptr (store64 m1 (last_addr k1 0) (load64 m1 a)) (k1 ++ k2).
Proof.
  intros Hne Hl Hsp Ho Hm Hi. destruct k1 as [|r0 k1]; [done|clear Hne].
  destruct (fc_facts _ _ _ _ _ _ _ _ Hctx) as (? & ? & ? & _ & _ & Hp1 & _).
  destruct (relink_last_addr m1 r0 k1 (load64 m1 a)) as [Er (r1 & Hr1 & Elast)].
  rewrite last_addr_cons. split.
  { rewrite Elast. eapply node_list_pos; [exact Hl|]. apply elem_of_app. left. apply elem_of_app. by left. }
  rewrite <- Er. clear Er.
  assert (forall r, r ∈ r0 :: k1 -> (exists n, (r.1, n) ∈ l) \/ r.1 = ptr) as Hk.
  { intros r Hr. destruct (Hm r) as [?|[? _]]; [apply elem_of_app; by left|by left|by right]. }
  assert (addr + 16 <= r1.1) as Hhdr.
  { destruct (Hk _ Hr1) as [Hn|Hn]; [by apply node_above_header|lia]. }
  eapply (given_intro _ _ _ _ _ _ _ _ Hctx _ (first_addr (r0 :: k1) (load64 m1 a))).
  - by eapply touch_relink.
  - rewrite <- app_assoc in Hl, Hsp |- *. by apply node_list_unlink in Hl.
  - rewrite <- Hi. destruct (relink_last_addr m1 r0 k1 (load64 m1 a)) as [-> _].
    apply load32_store64_ne. rewrite Elast. lia.
  - intros r Hr. destruct (Hm r) as [?|[E Hmg]].
    { apply elem_of_app in Hr as [?|?]; apply elem_of_app; [by left|right; by right]. }
    + by left.
    + right. split; [done|]. destruct (relink_last_addr m1 r0 k1 (load64 m1 a)) as [-> _].
      rewrite <- Hmg. apply loadi32_store64_ne. rewrite Elast.
      destruct (Hk _ Hr1) as [[n Hn]|Hn]; [|lia].
      destruct (fc_node _ _ _ _ _ _ _ _ Hctx _ _ Hn). lia.
Qed.

Lemma unlink_length k1 (x : region) k2 : (length ((k1 ++ x :: k2) ++ T) < fuel)%nat -> (length k1 < fuel)%nat.
Proof. rewrite !length_app. simpl. lia. Qed.

(** Lines 366-376 after the sizes were added: the node above leaves the list. *)
Lemma wp_remove_after s1 b bn an v l1 l2 (Q : unit -> kstate -> Prop) :
  node_before ptr l = Some (b, bn) -> node_after (ptr + sz) l = Some (ptr + sz, an) ->
  l = l1 ++ (b, bn) :: l2 -> v = bn + sz + an ->
  only_in (free_touch addr sz l ptr) (k_mem s) (k_mem s1) ->
  node_list (k_mem s1) (first_addr l addr) ((l1 ++ (b, v) :: l2) ++ T) 0 ->
  pairwise spaced ((l1 ++ (b, v) :: l2) ++ T) ->
  load32 (k_mem s1) (addr + 12) = idx_of addr sz l ->
  (forall m', list_given (k_mem s) addr sz l full ptr m' (give_block sz l ptr) ->
    Q tt (mk_kstate m' (head s1) (heap_lock s1) (cpupagelist s1))) ->
  wp (h ← find_pred fuel (ptr + sz) (first_addr l addr);
      if negb (h =? 0) then anx ← get_next (ptr + sz); set_next h anx
      else i ← block_index b addr; set_index addr i) s1 Q.
Proof.
  intros Eb Ea E Ev Ho Hl Hsp Hi HQ. pose proof (node_before_some _ _ _ Eb) as [_ Ebp].
  pose proof (node_after_some _ _ _ Ea) as [Ha _]. simpl in Ebp.
  destruct (fc_facts _ _ _ _ _ _ _ _ Hctx) as (? & ? & ? & _ & _ & Hp1 & _ & Hf).
  pose proof (free_blocks_spaced _ _ _ _ _ Hf) as Hspl.
  assert (set_size_at b v l = l1 ++ (b, v) :: l2) as Eset.
  { rewrite E. apply set_size_at_split. by rewrite <- E. }
  pose proof (proj1 (proj1 (pairwise_app _ _ _) Hsp)) as Hsp1.
  assert ((ptr + sz, an) ∈ l1 ++ (b, v) :: l2) as Ha'.
  { rewrite E in Ha. apply elem_of_app in Ha as [?|[[= ? ?]|?]%elem_of_cons];
      [apply elem_of_app; by left| |apply elem_of_app; right; by right].
    destruct (fc_node _ _ _ _ _ _ _ _ Hctx b bn) as (_ & _ & ? & _); [|lia].
    rewrite E. apply elem_of_app. right. by left. }
  assert (give_block sz l ptr = if first_addr l 0 =? ptr + sz then drop_to b (l1 ++ (b, v) :: l2)
    else remove_at (ptr + sz) (l1 ++ (b, v) :: l2)) as Egive.
  { unfold give_block. rewrite Eb, Ea. cbn [fst snd]. by rewrite <- Ev, Eset. }
  assert (forall q, first_addr l q = first_addr (l1 ++ (b, v) :: l2) q) as Efirst.
  { intros q. rewrite E. by destruct l1. }
  apply list_elem_of_split in Ha' as (k1 & k2 & Ek). destruct (decide (k1 = [])) as [->|Hk1].
  - destruct (fc_node _ _ _ _ _ _ _ _ Hctx b bn) as (_ & _ & ? & _).
    { rewrite E. apply elem_of_app. right. by left. }
    destruct l1 as [|x l1]; [injection Ek; intros; lia|]. injection Ek as -> Ek2.
    rewrite Efirst in Hl |- *. simpl first_addr in *.
    eapply (wp_drop_head _ l1 l2 b bn v (ptr + sz) an); [exact E|exact Ho|exact Hl|exact Hsp|].
    intros m' Hg. apply HQ. rewrite Egive, Efirst. simpl first_addr. rewrite Z.eqb_refl.
    by rewrite drop_to_split.
  - rewrite Ek in Hl, Hsp, Hsp1, Egive, Efirst.
    assert (first_addr l 0 <> ptr + sz) as Hne.
    { rewrite Efirst. destruct k1 as [|r0 k1]; [done|].
      apply (spaced_ne_l _ _ _ _ Hsp1 r0). by left. }
    apply Z.eqb_neq in Hne. rewrite Hne, (remove_at_split _ _ _ _ Hsp1) in Egive.
    destruct (unlink_given _ _ _ _ _ _ Hk1 Hl Hsp Ho) as [Hpos Hg].
    { intros r Hr. left. eapply resized_member; [exact E|]. by rewrite Ek. }
    { rewrite Hi. destruct k1 as [|r0 k1]; [done|]. rewrite E. specialize (Efirst 0). rewrite E in Efirst.
      destruct l1; simpl in *; by rewrite Efirst. }
    rewrite <- app_assoc in Hl, Hsp. apply wp_bind. eapply wp_mono.
    { eapply find_pred_some; [exact Hl| |exact Hsp|exact Hk1].
      pose proof (f_equal length Ek) as El. pose proof (f_equal length E) as El2.
      rewrite !length_app in *. simpl in *. lia. }
    intros r s' [-> ->]. destruct (Z.eqb_spec (last_addr k1 0) 0); [lia|]. simpl. k_steps.
    apply HQ. by rewrite Egive.
Qed.

(** Both neighbours join. *)
Lemma page_merge_both b bn an :
  node_before ptr l = Some (b, bn) -> node_after (ptr + sz) l = Some (ptr + sz, an) ->
  wp (kfree_page_merge fuel addr ptr b (ptr + sz)) s (fun _ => free_post).
Proof.
  intros Eb Ea. pose proof (node_before_some _ _ _ Eb) as [Hb Ebp]. simpl in Ebp.
  pose proof (node_after_some _ _ _ Ea) as [Ha _].
  destruct (fc_facts _ _ _ _ _ _ _ _ Hctx) as (? & ? & ? & _ & _ & _ & _ & Hf).
  destruct (fc_node _ _ _ _ _ _ _ _ Hctx _ _ Hb) as (? & ? & ? & _).
  destruct (fc_node _ _ _ _ _ _ _ _ Hctx _ _ Ha) as (? & ? & ? & _).
  pose proof (fc_list _ _ _ _ _ _ _ _ Hctx) as Hl. pose proof size_read as Es.
  destruct index_read as [Ei Eh]. pose proof (fc_spaced _ _ _ _ _ _ _ _ Hctx) as Hsp.
  pose proof (first_addr_range _ _ _ _ _ _ _ _ Hctx) as Hr.
  pose proof Hb as (l1 & l2 & E)%list_elem_of_split.
  set (v := bn + sz + an). set (m2 := store32 (store32 (k_mem s) (b + 8) (bn + sz)) (b + 8) v).
  assert (only_in (free_touch addr sz l ptr) (k_mem s) m2) as Ho.
  { eapply touch_store; [exact Hb|lia|simpl; lia|]. eapply touch_store; [exact Hb|lia|simpl; lia|done]. }
  assert (node_list m2 (first_addr l addr) ((l1 ++ (b, v) :: l2) ++ T) 0 /\
    pairwise spaced ((l1 ++ (b, v) :: l2) ++ T)) as [Hl2 Hsp2].
  { eapply resized_list; [exact E|lia|]. eapply resized_list; [exact E|lia|]. by rewrite <- E. }
  unfold kfree_page_merge. destruct (Z.eqb_spec b 0); [lia|]. k_steps.
  rewrite (node_list_size _ _ _ _ _ _ Hl (proj2 (elem_of_app _ _ _) (or_introl Hb))), !wrap_small by lia.
  destruct (Z.eqb_spec (b + bn) ptr); [|lia]. simpl. rewrite Es. repeat k_step. mem_simpl. rewrite Es, Z.eqb_refl.
  do 6 k_step.
  rewrite (loadi32_store32_ne _ _ (ptr + sz + 8)), loadi32_store32, signed_small by lia.
  rewrite (node_list_size _ _ _ _ _ _ Hl (proj2 (elem_of_app _ _ _) (or_introl Ha))).
  fold v. fold m2. apply wp_bind.
  eapply (wp_free_head _ _ _ _ _ _ _ _ Hctx); [simpl; unfold m2; mem_simpl; exact Es| |exact Eh|lia|lia|].
  { simpl. unfold m2. mem_simpl. exact Ei. }
  eapply (wp_remove_after _ b bn an v l1 l2); [exact Eb|exact Ea|exact E|done|exact Ho|exact Hl2|exact Hsp2| |].
  { simpl. unfold m2. mem_simpl. exact Ei. }
  intros m' Hg. apply (wp_merge_end _ b v); [exact Hg| |lia|done]. unfold merged_node. by rewrite Eb, Ea.
Qed.

(** The freed block pushed on the list as a node of size [k] (lines 385-390 and 406-412). *)
Definition pushed_mem (k : Z) : mem :=
  store32 (store64 (store32 (store32 (k_mem s) (ptr + 12) 1234567) (ptr + 8) k) ptr (first_addr l addr))
    (addr + 12) ((ptr - addr) / sz).

Lemma pushed_index : 0 < (ptr - addr) / sz <= 2048 /\ addr + (ptr - addr) / sz * sz = ptr.
Proof.
  destruct (fc_facts _ _ _ _ _ _ _ _ Hctx) as (? & ? & ? & _ & Hd & Hp1 & Hp2 & _).
  pose proof (divide_block addr sz ptr ltac:(lia) Hd). nia.
Qed.

Lemma pushed_facts k :
  - 2 ^ 31 <= k < 2 ^ 31 ->
  only_in (free_touch addr sz l ptr) (k_mem s) (pushed_mem k) /\
  load32 (pushed_mem k) (addr + 12) = (ptr - addr) / sz /\
  loadi32 (pushed_mem k) (ptr + 12) = 1234567 /\
  node_list (pushed_mem k) ptr (((ptr, k) :: l) ++ T) 0 /\ pairwise spaced (((ptr, k) :: l) ++ T).
Proof.
  intros Hk. destruct (fc_facts _ _ _ _ _ _ _ _ Hctx) as (? & ? & ? & _ & Hd & Hp1 & Hp2 & Hf).
  destruct pushed_index as [Hi _]. pose proof (first_addr_range _ _ _ _ _ _ _ _ Hctx) as Hr.
  assert (only_in (free_touch addr sz l ptr) (k_mem s) (pushed_mem k)) as Ho.
  { unfold pushed_mem. eapply touch_index.
    apply only_in_store; [|intros x Hx; right; right; unfold inr; simpl in Hx; lia].
    repeat (eapply (touch_ptr _ _ _ _ _ _ _ _ Hctx); [lia|simpl; lia|]). done. }
  assert (Forall (spaced (ptr, k)) (l ++ T)) as Hps.
  { apply Forall_app. split; apply Forall_forall; intros r Hr'; unfold spaced; simpl.
    - destruct r as [a n]. destruct (fc_node _ _ _ _ _ _ _ _ Hctx _ _ Hr'). simpl. lia.
    - pose proof (fc_far _ _ _ _ _ _ _ _ Hctx) as Hfar. rewrite Forall_forall in Hfar.
      specialize (Hfar _ Hr'). lia. }
  split; [done|]. split; [unfold pushed_mem; mem_simpl; apply wrap_small; lia|].
  split; [unfold pushed_mem; by mem_simpl|].
  split; [|exact (conj Hps (fc_spaced _ _ _ _ _ _ _ _ Hctx))].
  unfold pushed_mem. eapply (list_index_frame _ _ _ _ _ _ _ _ Hctx _ _ ((ptr, k) :: l)).
  - eapply node_list_push; [|lia| | |exact Hps|apply (fc_list _ _ _ _ _ _ _ _ Hctx)].
    + repeat apply only_in_store; [done|unfold inr; simpl; lia..].
    + mem_simpl. apply wrap_small. lia.
    + mem_simpl. by apply signed_small.
  - intros r [->|Hr']%elem_of_cons; [simpl; lia|]. apply node_above_header. exists r.2. by destruct r.
Qed.

(** Lines 360-361: no node ends where the block starts. *)
Lemma wp_not_before b :
  node_before ptr l = None -> b = below ptr (l ++ T) 0 ->
  wp (if b =? 0 then mret 0 else get_size b) s (fun bsz s' =>
    s' = s /\ negb (b =? 0) && (u64 (b + bsz) =? u64 ptr) = false).
Proof.
  intros Hnone ->. destruct (fc_facts _ _ _ _ _ _ _ _ Hctx) as (? & ? & ? & _ & Hd & Hp1 & Hp2 & Hf).
  destruct (nbr_not_low _ _ _ _ _ _ _ _ Hctx Hnone) as [E|(n & Hin & Hb & Hn & Hn2)].
  - rewrite E. simpl. by apply wp_ret.
  - destruct (Z.eqb_spec (below ptr (l ++ T) 0) 0); [lia|]. k_steps. split; [done|].
    pose proof (fc_list _ _ _ _ _ _ _ _ Hctx) as Hl. rewrite (node_list_size _ _ _ _ _ _ Hl Hin).
    rewrite !wrap_small by lia. by apply Z.eqb_neq.
Qed.

(** No neighbour joins. *)
Lemma page_merge_alone b a :
  node_before ptr l = None -> node_after (ptr + sz) l = None ->
  b = below ptr (l ++ T) 0 -> a <> ptr + sz ->
  wp (kfree_page_merge fuel addr ptr b a) s (fun _ => free_post).
Proof.
  intros Eb Ea Hb Hna. destruct (fc_facts _ _ _ _ _ _ _ _ Hctx) as (? & ? & ? & _ & _ & Hp1 & Hp2 & Hf).
  pose proof size_read as Es. destruct index_read as [Ei Eh].
  pose proof (first_addr_range _ _ _ _ _ _ _ _ Hctx) as Hr. destruct pushed_index as [Hpi Hpe].
  destruct (pushed_facts sz ltac:(lia)) as (Ho & Ei' & Emg & Hl & _).
  assert (give_block sz l ptr = (ptr, sz) :: l) as Eg by (unfold give_block; by rewrite Eb, Ea).
  assert (list_given (k_mem s) addr sz l full ptr (pushed_mem sz) (give_block sz l ptr)) as Hg.
  { rewrite Eg. eapply (given_intro _ _ _ _ _ _ _ _ Hctx); [exact Ho|exact Hl|exact Ei'|].
    intros r [->|Hr']%elem_of_cons; [by right|left]. exists r.2. by destruct r. }
  pose proof (given_ok _ _ _ _ _ _ _ _ Hctx _ Hg) as Hok.
  assert (merged_node sz l ptr = (ptr, sz)) as Em by (unfold merged_node; by rewrite Eb, Ea).
  rewrite Em in Hok. cbn [snd] in Hok. destruct (Z.eqb_spec sz (PAGE - sz)); [lia|].
  unfold kfree_page_merge. k_step. k_step. rewrite Es. apply wp_bind. eapply wp_mono; [by apply wp_not_before|].
  intros bsz s' [-> ->]. destruct (Z.eqb_spec (ptr + sz) a); [by destruct Hna|].
  do 6 k_step. mem_simpl. rewrite Es. apply wp_bind.
  eapply (wp_free_head _ _ _ _ _ _ _ _ Hctx); [simpl; mem_simpl; exact Es|simpl; mem_simpl; exact Ei|exact Eh|lia|lia|].
  do 2 k_step. apply wp_bind.
  eapply (wp_block_index _ _ _ _ _ _ _ _ Hctx); [simpl; mem_simpl; exact Es|lia|].
  do 4 k_step. fold (pushed_mem sz). k_step; [rewrite Ei'; apply Z.ltb_lt; lia|].
  split; [exact Hok|]. split; [|done]. eapply only_in_weaken; [exact Ho|].
  apply (touch_own _ _ _ _ _ _ _ _ Hctx).
Qed.

(** Only the node above joins: the block is pushed with the size of both, the node leaves. *)
Lemma page_merge_high b an :
  node_before ptr l = None -> node_after (ptr + sz) l = Some (ptr + sz, an) ->
  b = below ptr (l ++ T) 0 ->
  wp (kfree_page_merge fuel addr ptr b (ptr + sz)) s (fun _ => free_post).
Proof.
  intros Eb Ea Hb. destruct (fc_facts _ _ _ _ _ _ _ _ Hctx) as (? & ? & ? & _ & _ & Hp1 & Hp2 & Hf).
  pose proof (node_after_some _ _ _ Ea) as [Ha _].
  destruct (fc_node _ _ _ _ _ _ _ _ Hctx _ _ Ha) as (? & ? & ? & _).
  pose proof size_read as Es. destruct index_read as [Ei Eh].
  pose proof (first_addr_range _ _ _ _ _ _ _ _ Hctx) as Hr. destruct pushed_index as [Hpi Hpe].
  destruct (pushed_facts (sz + an) ltac:(lia)) as (Ho & Ei' & Emg & Hl & Hsp).
  assert (merged_node sz l ptr = (ptr, sz + an)) as Em by (unfold merged_node; by rewrite Eb, Ea).
  pose proof Ha as (l1 & l2 & E)%list_elem_of_split.
  pose proof (free_blocks_spaced _ _ _ _ _ Hf) as Hspl.
  assert (give_block sz l ptr = ((ptr, sz + an) :: l1) ++ l2) as Eg.
  { unfold give_block. rewrite Eb, Ea. cbn [fst snd]. rewrite E in Hspl |- *.
    by rewrite (remove_at_split _ _ _ _ Hspl). }
  rewrite E in Hl, Hsp.
  destruct (unlink_given (pushed_mem (sz + an)) ptr ((ptr, sz + an) :: l1) (ptr + sz) an l2)
    as [Hpos Hg]; [done|exact Hl|exact Hsp|exact Ho| |exact Ei'|].
  { intros r [->|Hr']%elem_of_cons; [by right|left]. exists r.2. rewrite E. by destruct r. }
  rewrite <- Eg in Hg.
  unfold kfree_page_merge. k_step. k_step. rewrite Es. apply wp_bind. eapply wp_mono; [by apply wp_not_before|].
  intros bsz s' [-> ->]. rewrite Z.eqb_refl.
  do 8 k_step. mem_simpl.
  rewrite Es, (node_list_size _ _ _ _ _ _ (fc_list _ _ _ _ _ _ _ _ Hctx) (proj2 (elem_of_app _ _ _) (or_introl Ha))).
  apply wp_bind.
  eapply (wp_free_head _ _ _ _ _ _ _ _ Hctx); [simpl; mem_simpl; exact Es|simpl; mem_simpl; exact Ei|exact Eh|lia|lia|].
  do 2 k_step. apply wp_bind.
  eapply (wp_block_index _ _ _ _ _ _ _ _ Hctx); [simpl; mem_simpl; exact Es|lia|].
  do 4 k_step. fold (pushed_mem (sz + an)). k_step. k_step; [rewrite Ei'; apply Z.ltb_lt; lia|]. apply wp_bind.
  eapply (wp_free_head _ _ _ _ _ _ _ _ Hctx _ ptr); [apply (touch_header _ _ _ _ _ _ _ _ Hctx _ Ho)|exact Ei'|exact Hpe|lia|lia|].
  cbn [app] in Hl, Hsp. rewrite <- app_assoc in Hl, Hsp. apply wp_bind. eapply wp_mono.
  { apply (find_pred_some _ ((ptr, sz + an) :: l1) (ptr + sz) an (l2 ++ T)); [exact Hl| |exact Hsp|done].
    rewrite E, !length_app in Hfuel. cbn [length] in *. lia. }
  intros r s' [-> ->]. k_step. k_step. k_step. k_step.
  apply (wp_merge_end _ ptr (sz + an)); [exact Hg|exact Em|lia|done].
Qed.

Lemma page_merge_spec :
  wp (kfree_page_merge fuel addr ptr (below ptr (l ++ T) 0) (above ptr (l ++ T) 0)) s
    (fun _ => free_post).
Proof.
  destruct (node_before ptr l) as [[b bn]|] eqn:Eb, (node_after (ptr + sz) l) as [[a an]|] eqn:Ea.
  - pose proof (node_before_some _ _ _ Eb) as [Hb Ebp]. pose proof (node_after_some _ _ _ Ea) as [Ha Eap].
    simpl in Ebp, Eap. subst a.
    rewrite (nbr_low _ _ _ _ _ _ _ _ Hctx _ _ Hb Ebp), (nbr_high _ _ _ _ _ _ _ _ Hctx _ Ha).
    by eapply page_merge_both.
  - pose proof (node_before_some _ _ _ Eb) as [Hb Ebp].
    rewrite (nbr_low _ _ _ _ _ _ _ _ Hctx _ _ Hb Ebp).
    eapply page_merge_low; [exact Eb|exact Ea|]. by eapply (nbr_not_high _ _ _ _ _ _ _ _ Hctx).
  - pose proof (node_after_some _ _ _ Ea) as [Ha Eap]. simpl in Eap. subst a.
    rewrite (nbr_high _ _ _ _ _ _ _ _ Hctx _ Ha). by eapply page_merge_high.
  - eapply page_merge_alone; [exact Eb|exact Ea|done|]. apply not_eq_sym.
    by eapply (nbr_not_high _ _ _ _ _ _ _ _ Hctx).
Qed.
End Merge.

(** ** kfree_page *)

Lemma free_ctx_frame m m' addr sz l full nx T ptr :
  free_ctx m addr sz l full nx T ptr -> only_in (inr ptr sz) m m' ->
  free_ctx m' addr sz l full nx T ptr.
Proof.
  intros Hctx Ho. pose proof (fc_facts _ _ _ _ _ _ _ _ Hctx) as (? & ? & ? & _ & _ & ? & ? & _).
  pose proof Hctx as [F1 F2 F3 F4 F5 F6 F7 F8]. split; try done.
  - eapply page_ok_frame; [|exact F1]. eapply only_in_same_on; [exact Ho|]. intros x Hx Hx'.
    eapply live_not_own; [exact F1|exact F2|exact Hx'|exact Hx].
  - eapply node_list_frame; [|exact F3]. eapply only_in_same_on; [exact Ho|].
    intros x (r & Hr & Hx) Hx'. rewrite Forall_forall in F6. specialize (F6 _ Hr). unfold inr in *. lia.
Qed.

Lemma kfree_page_spec s addr sz l full nx T ptr fuel :
  free_ctx (k_mem s) addr sz l full nx T ptr -> (length (l ++ T) + 1 < fuel)%nat ->
  wp (kfree_page fuel addr ptr) s (fun _ s' =>
    page_ok (k_mem s') (page_give (mk_page addr sz l full) ptr) nx /\
    only_in (fun x => page_own (mk_page addr sz l full) x \/ inr ptr sz x) (k_mem s) (k_mem s') /\
    s' = mk_kstate (k_mem s') (head s) (heap_lock s) (cpupagelist s)).
Proof.
  intros Hctx Hfuel. destruct (fc_facts _ _ _ _ _ _ _ _ Hctx) as (? & ? & ? & _ & _ & ? & ? & _).
  pose proof (size_read _ _ _ _ _ _ _ _ Hctx) as Es.
  unfold kfree_page. k_steps. rewrite Es, wrap_small by lia.
  set (m1 := memset_loop _ _ _ _ _).
  assert (only_in (inr ptr sz) (k_mem s) m1) as Hm1 by (apply only_in_memset; [lia|done|done]).
  pose proof (free_ctx_frame _ _ _ _ _ _ _ _ _ Hctx Hm1) as Hctx1. clearbody m1.
  set (s1 := mk_kstate _ _ _ _). change m1 with (k_mem s1) in Hctx1.
  destruct (index_read s1 _ _ _ _ _ _ _ Hctx1 fuel Hfuel) as [Ei Eh].
  pose proof (first_addr_range _ _ _ _ _ _ _ _ Hctx1) as Hr.
  eapply (wp_free_head _ _ _ _ _ _ _ _ Hctx1); [by eapply size_read|exact Ei|exact Eh|lia|lia|].
  apply wp_bind. eapply wp_mono. { eapply neighbours_spec; [apply (fc_list _ _ _ _ _ _ _ _ Hctx1)|lia]. }
  intros [b a] s' [[= -> ->] ->].
  eapply wp_mono; [by eapply (page_merge_spec s1 _ _ _ _ _ _ _ Hctx1 fuel)|]. intros _ s' (Hok & Ho & E). split; [done|].
  split; [|exact E]. eapply only_in_trans; [|exact Ho]. eapply only_in_weaken; [exact Hm1|]. by right.
Qed.
