(* ===== verification/PmmInv.v ===== *)
(** * The allocator's invariant and the blocks its clients hold

    The abstract state of the allocator ([gstate]), its representation invariant ([pmm_inv]),
    the set of blocks handed out and not freed ([live]), and the changes of the abstract state
    (a page changed, a page added) that preserve the invariant. *)

From stdpp Require Import prelude.
From S2P Require Import Prelude Mem KString FreeList Kernel Heap Pmm PageSpec.

(** ** Abstract state *)

(** The free list of the heap, the pages of each processor in the order of its list, and the
    huge blocks with their 16-byte headers. *)
Record gstate : Type := mk_g {
  g_free : list region;
  g_pages : list (list page);
  g_huge : list region;
}.

Definition page_region (pg : page) : region := (pg_addr pg, PAGE).

Definition all_pages (g : gstate) : list page := concat (g_pages g).

Definition regions (g : gstate) : list region :=
  g_free g ++ (page_region <$> all_pages g) ++ g_huge g.

Definition first_page (l : list page) : Z := match l with [] => 0 | pg :: _ => pg_addr pg end.

(** The pages of one processor, each linked to the next. *)
Fixpoint pages_ok (m : mem) (l : list page) : Prop :=
  match l with
  | [] => True
  | pg :: l => page_ok m pg (first_page l) /\ pages_ok m l
  end.

Definition set_pages (g : gstate) (i : nat) (l : list page) : gstate :=
  mk_g (g_free g) (<[i := l]> (g_pages g)) (g_huge g).

(** The blocks of at most 16 KiB and the huge blocks in the hands of clients: address and
    size. *)
Inductive live (g : gstate) (r : region) : Prop :=
| live_page pg : pg ∈ all_pages g -> live_in pg r -> live g r
| live_huge h k : (h, k) ∈ g_huge g -> r = (h + node_size, k - node_size) -> live g r.

Definition owned (g : gstate) (x : Z) : Prop := exists r, live g r /\ inr r.1 r.2 x.

Lemma all_pages_in g i l pg : g_pages g !! i = Some l -> pg ∈ l -> pg ∈ all_pages g.
Proof.
  intros Hi Hpg. apply list_elem_of_In, in_concat. exists l. rewrite <- !list_elem_of_In.
  split; [by eapply list_elem_of_lookup_2|done].
Qed.

Lemma elem_of_middle {A} (l1 : list A) x l2 : x ∈ l1 ++ x :: l2.
Proof. apply elem_of_app. right. by left. Qed.

Section Inv.
Context (lo hi : Z).

(** Every lock is free, and every structure is in memory as [g] says, inside [lo, hi). *)
Record pmm_inv (s : kstate) (g : gstate) : Prop := {
  pi_heap : heap_ok lo hi s (g_free g);
  pi_lock : heap_lock s = 0;
  pi_cpus : cpupagelist s = (fun l => mk_pagelist (first_page l) 0) <$> g_pages g;
  pi_len : length (g_pages g) = 16%nat;
  pi_pages : Forall (pages_ok (k_mem s)) (g_pages g);
  pi_huge : Forall (huge_hdr (k_mem s)) (g_huge g);
  pi_hsize : Forall (fun r => 32 <= r.2 /\ r.2 mod 16 = 0) (g_huge g);
  pi_layout : layout lo hi (regions g);
}.

Lemma pages_ok_elem m l pg : pages_ok m l -> pg ∈ l -> exists nx, page_ok m pg nx.
Proof.
  induction l as [|pg' l IH]; simpl; [by intros _ ?%elem_of_nil|].
  intros [H1 H2] [->|Hin]%elem_of_cons; eauto.
Qed.

Lemma pages_ok_app m l1 pg l2 :
  pages_ok m (l1 ++ pg :: l2) -> page_ok m pg (first_page l2) /\ pages_ok m l2.
Proof. induction l1 as [|pg' l1 IH]; simpl; [done|]. intros [_ H]. auto. Qed.

Lemma pages_ok_frame m m' l :
  (forall pg, pg ∈ l -> same_on (page_own pg) m m') -> pages_ok m l -> pages_ok m' l.
Proof.
  induction l as [|pg l IH]; intros H; [done|]. simpl. intros [H1 H2]. split.
  - eapply page_ok_frame; [|exact H1]. apply H. by left.
  - apply IH; [|done]. intros pg' Hin. apply H. by right.
Qed.

(** One page of a list changed. *)
Lemma pages_ok_replace m m' l1 pg pg' l2 :
  pages_ok m (l1 ++ pg :: l2) -> pg_addr pg' = pg_addr pg ->
  page_ok m' pg' (first_page l2) ->
  (forall p, p ∈ l1 ++ l2 -> same_on (page_own p) m m') -> pages_ok m' (l1 ++ pg' :: l2).
Proof.
  intros Hl Ea Hpg. induction l1 as [|p l1 IH]; simpl in *; intros H.
  - split; [done|]. destruct Hl as [_ Hl]. eapply pages_ok_frame; [exact H|done].
  - destruct Hl as [Hp Hl]. split.
    + eapply page_ok_frame; [apply H; by left|]. destruct l1; simpl in *; by rewrite ?Ea.
    + apply IH; [done|]. intros p' Hp'. apply H. by right.
Qed.

Section Facts.
Context (s : kstate) (g : gstate) (Hinv : pmm_inv s g).

Lemma all_pages_ok pg : pg ∈ all_pages g -> exists nx, page_ok (k_mem s) pg nx.
Proof.
  intros (l & Hpg & Hl)%list_elem_of_In%in_concat. apply list_elem_of_In in Hl, Hpg.
  pose proof (pi_pages _ _ Hinv) as H. rewrite Forall_forall in H. eapply pages_ok_elem; eauto.
Qed.

Lemma region_page pg : pg ∈ all_pages g -> page_region pg ∈ regions g.
Proof.
  intros H. unfold regions. rewrite !elem_of_app. right. left. by apply list_elem_of_fmap_2.
Qed.

Lemma region_huge r : r ∈ g_huge g -> r ∈ regions g.
Proof. intros H. unfold regions. rewrite !elem_of_app. by right; right. Qed.

Lemma region_free r : r ∈ g_free g -> r ∈ regions g.
Proof. intros H. unfold regions. rewrite !elem_of_app. by left. Qed.

(** The bytes of two regions of the invariant are distinct unless the regions are equal. *)
Lemma regions_same r1 r2 x :
  r1 ∈ regions g -> r2 ∈ regions g -> inr r1.1 r1.2 x -> inr r2.1 r2.2 x -> r1 = r2.
Proof.
  intros H1 H2 Hx1 Hx2. destruct (decide (r1 = r2)) as [|Hne]; [done|].
  pose proof (layout_disj _ _ _ _ _ (pi_layout _ _ Hinv) H1 H2 Hne). unfold rdisj, inr in *. lia.
Qed.

(** The three kinds of regions have no byte in common. *)
Lemma page_not_free pg x : pg ∈ all_pages g -> inr (pg_addr pg) PAGE x -> ~ covers (g_free g) x.
Proof.
  intros Hpg Hx (r & Hr & Hx').
  pose proof (pi_layout _ _ Hinv) as [_ HL]. unfold regions in HL.
  apply pairwise_app in HL as (_ & _ & HL). rewrite Forall_forall in HL. specialize (HL _ Hr).
  rewrite Forall_forall in HL. specialize (HL (page_region pg)).
  destruct HL; [apply elem_of_app; left; by apply list_elem_of_fmap_2| |]; unfold inr, page_region in *; simpl in *; lia.
Qed.

Lemma huge_not_free r x : r ∈ g_huge g -> inr r.1 r.2 x -> ~ covers (g_free g) x.
Proof.
  intros Hr Hx (r' & Hr' & Hx').
  pose proof (pi_layout _ _ Hinv) as [_ HL]. unfold regions in HL.
  apply pairwise_app in HL as (_ & _ & HL). rewrite Forall_forall in HL. specialize (HL _ Hr').
  rewrite Forall_forall in HL. destruct (HL r); [apply elem_of_app; by right|unfold inr in *; lia..].
Qed.

Lemma huge_not_page r pg x :
  r ∈ g_huge g -> inr r.1 r.2 x -> pg ∈ all_pages g -> ~ inr (pg_addr pg) PAGE x.
Proof.
  intros Hr Hx Hpg Hx'.
  pose proof (pi_layout _ _ Hinv) as [_ HL]. unfold regions in HL.
  apply pairwise_app in HL as (_ & HL & _). apply pairwise_app in HL as (_ & _ & HL).
  rewrite Forall_forall in HL. specialize (HL (page_region pg) ltac:(by apply list_elem_of_fmap_2)).
  rewrite Forall_forall in HL. destruct (HL r Hr); unfold inr, page_region in *; simpl in *; lia.
Qed.

Lemma pages_same pg1 pg2 x :
  pg1 ∈ all_pages g -> pg2 ∈ all_pages g ->
  inr (pg_addr pg1) PAGE x -> inr (pg_addr pg2) PAGE x -> pg1 = pg2.
Proof.
  intros H1 H2 Hx1 Hx2. pose proof (pi_layout _ _ Hinv) as [_ HL]. unfold regions in HL.
  apply pairwise_app in HL as (_ & HL & _). apply pairwise_app in HL as (HL & _ & _).
  eapply (pairwise_unique rdisj page_region); [exact HL|done..|].
  unfold rdisj, page_region, inr in *. simpl. lia.
Qed.

Lemma huge_facts h k : (h, k) ∈ g_huge g -> 32 <= k /\ k mod 16 = 0 /\ lo <= h /\ h + k <= hi.
Proof.
  intros H. pose proof (pi_hsize _ _ Hinv) as Hs. rewrite Forall_forall in Hs. destruct (Hs _ H).
  destruct (layout_bound _ _ _ _ (pi_layout _ _ Hinv) (region_huge _ H)) as (? & ? & ?). simpl in *. lia.
Qed.

(** The bytes of the heap. *)
Lemma covers_regions x : covers (regions g) x -> inr lo (hi - lo) x.
Proof.
  intros (r & Hr & Hx). destruct (pi_layout _ _ Hinv) as [HB _]. rewrite Forall_forall in HB.
  destruct (HB _ Hr) as (? & ? & ?). unfold inr in *. lia.
Qed.

Lemma page_heap pg m m' :
  pg ∈ all_pages g -> only_in (inr (pg_addr pg) PAGE) m m' -> only_in (inr lo (hi - lo)) m m'.
Proof.
  intros Hpg Ho. eapply only_in_weaken; [exact Ho|]. intros x Hx. apply covers_regions.
  exists (page_region pg). split; [by apply region_page|done].
Qed.

Lemma free_heap m m' : only_in (covers (g_free g)) m m' -> only_in (inr lo (hi - lo)) m m'.
Proof.
  intros Ho. eapply only_in_weaken; [exact Ho|]. intros x (r & Hr & Hx). apply covers_regions.
  exists r. split; [by apply region_free|done].
Qed.

Lemma page_bounds pg : pg ∈ all_pages g -> lo <= pg_addr pg /\ pg_addr pg + PAGE <= hi.
Proof.
  intros H. destruct (layout_bound _ _ _ _ (pi_layout _ _ Hinv) (region_page _ H)) as (? & ? & ?).
  unfold page_region in *. simpl in *. lia.
Qed.

(** *** The clients' bytes are none of the allocator's *)

(** The bytes of a block a client holds lie in the regions. *)
Lemma owned_covers x : owned g x -> covers (regions g) x.
Proof.
  intros (r & [p Hp Hl|h k Hh ->] & Hx).
  - exists (page_region p). split; [by apply region_page|]. by eapply live_inside.
  - exists (h, k). split; [by apply region_huge|]. pose proof (huge_facts _ _ Hh).
    unfold inr, node_size in *; simpl in *; lia.
Qed.

Lemma owned_not_free x : owned g x -> ~ covers (g_free g) x.
Proof.
  intros (r & Hr & Hx). destruct Hr as [pg Hpg Hlv|h k Hh ->].
  - eapply page_not_free; [exact Hpg|by eapply live_inside].
  - pose proof (huge_facts _ _ Hh). eapply huge_not_free; [exact Hh|]. unfold node_size, inr in *; simpl in *; lia.
Qed.

Lemma owned_not_page pg x : pg ∈ all_pages g -> page_own pg x -> ~ owned g x.
Proof.
  intros Hpg Hx (r & Hr & Hx'). destruct (all_pages_ok _ Hpg) as [nx Hok].
  pose proof (page_own_inside _ _ _ _ Hok Hx) as Hin. destruct Hr as [pg' Hpg' Hlv|h k Hh ->].
  - pose proof (live_inside _ _ _ Hlv Hx') as Hin'. rewrite (pages_same _ _ _ Hpg Hpg' Hin Hin') in *.
    destruct (all_pages_ok _ Hpg') as [nx' Hok']. by eapply live_not_own.
  - pose proof (huge_facts _ _ Hh). eapply huge_not_page; [exact Hh| |exact Hpg|exact Hin].
    unfold node_size, inr in *; simpl in *; lia.
Qed.

Lemma owned_not_empty pg x :
  pg ∈ all_pages g -> pg_size pg = 0 -> inr (pg_addr pg) PAGE x -> ~ owned g x.
Proof.
  intros Hpg Hz Hin (r & Hr & Hx'). destruct Hr as [pg' Hpg' Hlv|h k Hh ->].
  - pose proof (live_inside _ _ _ Hlv Hx') as Hin'. rewrite <- (pages_same _ _ _ Hpg Hpg' Hin Hin') in *.
    destruct Hlv as [? _]. lia.
  - pose proof (huge_facts _ _ Hh). eapply huge_not_page; [exact Hh| |exact Hpg|exact Hin].
    unfold node_size, inr in *; simpl in *; lia.
Qed.

Lemma owned_not_header h k x : (h, k) ∈ g_huge g -> inr h node_size x -> ~ owned g x.
Proof.
  intros Hh Hx (r & Hr & Hx'). pose proof (huge_facts _ _ Hh). unfold node_size in *.
  destruct Hr as [pg Hpg Hlv|h' k' Hh' ->].
  - eapply (huge_not_page (h, k)); [exact Hh| |exact Hpg|by eapply live_inside]. unfold inr in *; simpl; lia.
  - pose proof (huge_facts _ _ Hh').
    unfold node_size in *.
    assert ((h, k) = (h', k')) as [= -> ->]; [|unfold inr in *; simpl in *; lia].
    eapply (regions_same _ _ x); [by apply region_huge|by apply region_huge|unfold inr in *; simpl in *; lia..].
Qed.

(** Two blocks in the hands of clients do not overlap. *)
Lemma live_disjoint r1 r2 : live g r1 -> live g r2 -> r1 <> r2 -> rdisj r1 r2.
Proof.
  intros H1 H2 Hne. destruct (decide (rdisj r1 r2)) as [|Hnd]; [done|].
  assert (exists x, inr r1.1 r1.2 x /\ inr r2.1 r2.2 x) as (x & Hx1 & Hx2).
  { assert (forall r, live g r -> 0 < r.2) as Hpos.
    { intros r [pg _ (H & E & _)|h k Hh ->]; [lia|]. pose proof (huge_facts _ _ Hh). unfold node_size; simpl; lia. }
    pose proof (Hpos _ H1). pose proof (Hpos _ H2).
    exists (Z.max r1.1 r2.1). unfold rdisj, inr in *. lia. }
  exfalso. destruct H1 as [pg1 Hp1 Hl1|h1 k1 Hh1 ->], H2 as [pg2 Hp2 Hl2|h2 k2 Hh2 ->].
  - pose proof (pages_same _ _ _ Hp1 Hp2 (live_inside _ _ _ Hl1 Hx1) (live_inside _ _ _ Hl2 Hx2)) as <-.
    destruct r1 as [a1 n1], r2 as [a2 n2].
    destruct Hl1 as (H0 & E1 & Hd1 & _), Hl2 as (_ & E2 & Hd2 & _). simpl in *. subst n1 n2.
    destruct (Z.eq_dec a1 a2) as [->|Ha]; [done|].
    pose proof (blocks_apart (pg_addr pg1) (pg_size pg1) a1 a2 H0 Hd1 Hd2 Ha).
    unfold rdisj in Hnd. simpl in Hnd. lia.
  - pose proof (huge_facts _ _ Hh2). eapply huge_not_page; [exact Hh2| |exact Hp1|by eapply live_inside].
    unfold node_size, inr in *; simpl in *; lia.
  - pose proof (huge_facts _ _ Hh1). eapply huge_not_page; [exact Hh1| |exact Hp2|by eapply live_inside].
    unfold node_size, inr in *; simpl in *; lia.
  - pose proof (huge_facts _ _ Hh1). pose proof (huge_facts _ _ Hh2).
    pose proof (regions_same _ _ x (region_huge _ Hh1) (region_huge _ Hh2)) as E.
    unfold node_size, inr in *; simpl in *.
    assert ((h1, k1) = (h2, k2)) as [= -> ->] by (apply E; lia). done.
Qed.
End Facts.

(** ** Changes of the abstract state *)

(** *** One page changed *)

Section PageStep.
Context (s s' : kstate) (g : gstate) (i : nat) (l1 : list page) (pg : page) (l2 : list page) (pg' : page).
Context (Hinv : pmm_inv s g) (Hi : g_pages g !! i = Some (l1 ++ pg :: l2)).
Context (Ha : pg_addr pg' = pg_addr pg).
Abbreviation g' := (set_pages g i (l1 ++ pg' :: l2)) (only parsing).

Lemma step_pages :
  exists rest, all_pages g ≡ₚ pg :: rest /\ all_pages g' ≡ₚ pg' :: rest.
Proof.
  destruct (concat_insert _ _ _ Hi) as (rest & E & En). exists (l1 ++ l2 ++ rest).
  unfold all_pages, set_pages. simpl. rewrite E, En. split; solve_Permutation.
Qed.

Lemma step_page_in : pg ∈ all_pages g.
Proof. destruct step_pages as (rest & E & _). rewrite E. by left. Qed.

(** The other pages: those of the same list, and the rest. *)
Lemma step_others :
  exists rest, (forall l, concat (<[i := l]> (g_pages g)) ≡ₚ l ++ rest) /\
    forall p, p ∈ l1 ++ l2 ++ rest -> rdisj (page_region pg) (page_region p).
Proof.
  destruct (concat_insert _ _ _ Hi) as (rest & E & En). exists rest. split; [done|].
  pose proof (pi_layout _ _ Hinv) as [_ HL]. unfold regions in HL.
  apply pairwise_app in HL as (_ & HL & _). apply pairwise_app in HL as (HL & _ & _).
  assert (all_pages g ≡ₚ pg :: l1 ++ l2 ++ rest) as E'.
  { unfold all_pages. rewrite E. solve_Permutation. }
  rewrite E', fmap_cons in HL. destruct HL as [HL _]. rewrite Forall_forall in HL.
  intros p Hp. apply HL. by apply list_elem_of_fmap_2.
Qed.

(** A page that is not at the place of the changed one is another page. *)
Lemma step_other_lists j l p :
  g_pages g !! j = Some l -> j <> i -> p ∈ l -> forall x, inr (pg_addr p) PAGE x -> ~ inr (pg_addr pg) PAGE x.
Proof.
  intros Hj Hne Hp x Hx Hx'. destruct step_others as (rest & En & HL).
  assert (p ∈ rest) as Hin.
  { assert (p ∈ concat (<[i := []]> (g_pages g))) as H'.
    { apply list_elem_of_In, in_concat. exists l. rewrite <- !list_elem_of_In. split; [|done].
      apply list_elem_of_lookup. exists j. by rewrite list_lookup_insert_ne. }
    rewrite En in H'. done. }
  destruct (HL p); [rewrite !elem_of_app; by right; right|..]; unfold page_region, inr in *; simpl in *; lia.
Qed.

Lemma step_same_list p :
  p ∈ l1 ++ l2 -> forall x, inr (pg_addr p) PAGE x -> ~ inr (pg_addr pg) PAGE x.
Proof.
  intros Hp x Hx Hx'. destruct step_others as (rest & _ & HL).
  destruct (HL p); [rewrite !elem_of_app in *; tauto|..]; unfold page_region, inr in *; simpl in *; lia.
Qed.

Lemma step_regions : regions g' ≡ₚ regions g.
Proof.
  destruct step_pages as (rest & E & E'). unfold regions. rewrite E, E', !fmap_cons.
  assert (page_region pg' = page_region pg) as -> by (unfold page_region; by rewrite Ha). done.
Qed.

Lemma page_step :
  page_ok (k_mem s') pg' (first_page l2) ->
  only_in (inr (pg_addr pg) PAGE) (k_mem s) (k_mem s') ->
  s' = mk_kstate (k_mem s') (head s) (heap_lock s) (cpupagelist s) ->
  pmm_inv s' g'.
Proof.
  intros Hok Ho Es. pose proof step_page_in as Hpg. pose proof (pi_heap _ _ Hinv) as [Hl Hs HL].
  destruct s' as [m' hd' hl' cp']. injection Es as -> -> ->. simpl in Hok, Ho. split; simpl.
  - split; [|done|done]. simpl. eapply node_list_frame; [|exact Hl].
    eapply only_in_same_on; [exact Ho|]. intros x Hx Hx'.
    eapply page_not_free; [exact Hinv|exact Hpg|exact Hx'|by apply in_nodes_covers].
  - apply Hinv.
  - rewrite (pi_cpus _ _ Hinv). rewrite list_fmap_insert. rewrite list_insert_id; [done|].
    rewrite list_lookup_fmap, Hi. simpl. destruct l1; simpl; by rewrite ?Ha.
  - rewrite length_insert. apply Hinv.
  - pose proof (pi_pages _ _ Hinv) as HP. apply Forall_lookup. intros j l Hj.
    rewrite Forall_lookup in HP. rewrite list_lookup_insert in Hj.
    destruct (decide _) as [[<- _]|Hne]; simplify_eq.
    + eapply pages_ok_replace; [by eapply HP|exact Ha|exact Hok|].
      intros p Hp x Hx. apply Ho. intros Hx'.
      assert (p ∈ l1 ++ pg :: l2) as Hp' by (rewrite elem_of_app, elem_of_cons in *; tauto).
      destruct (pages_ok_elem _ _ _ (HP _ _ Hi) Hp') as [nx Hokp].
      eapply step_same_list; [exact Hp|by eapply page_own_inside|exact Hx'].
    + eapply pages_ok_frame; [|by eapply HP]. intros p Hp x Hx. apply Ho. intros Hx'.
      destruct (pages_ok_elem _ _ _ (HP _ _ Hj) Hp) as [nx Hokp].
      eapply step_other_lists; [exact Hj| |exact Hp|by eapply page_own_inside|exact Hx'].
      intros ->. apply Hne. split; [done|by eapply lookup_lt_Some].
  - pose proof (pi_huge _ _ Hinv) as HH. rewrite Forall_forall in *. intros [h k] Hr.
    destruct (HH _ Hr) as [H1 H2]. destruct (huge_facts _ _ Hinv _ _ Hr) as (? & _).
    assert (same_on (inr h 16) (k_mem s) m') as Hf.
    { eapply only_in_same_on; [exact Ho|]. intros x Hx Hx'.
      eapply huge_not_page; [exact Hinv|exact Hr| |exact Hpg|exact Hx']. unfold inr in *; simpl; lia. }
    unfold huge_hdr in *. simpl in *. rewrite <- H1, <- H2. unfold loadi32.
    split; f_equal; (eapply same_on_load; [exact Hf|unfold inr; simpl; lia]).
  - apply Hinv.
  - rewrite step_regions. apply Hinv.
Qed.

(** The blocks in other hands are the same before and after. *)
Lemma page_step_live r :
  exists P : Prop, (live g r <-> live_in pg r \/ P) /\ (live g' r <-> live_in pg' r \/ P) /\
    (P -> live_in pg r -> False).
Proof.
  destruct step_pages as (rest & E & E').
  exists ((exists p, p ∈ rest /\ live_in p r) \/ (exists h k, (h, k) ∈ g_huge g /\ r = (h + node_size, k - node_size))).
  split; [|split].
  - split.
    + intros [p Hp Hl|h k Hh ->]; [|right; right; eauto]. rewrite E in Hp.
      apply elem_of_cons in Hp as [->|Hp]; [by left|right; left; eauto].
    + intros [Hl|[(p & Hp & Hl)|(h & k & Hh & ->)]]; [| |by eapply live_huge];
        eapply live_page; [|exact Hl| |exact Hl]; rewrite E; [by left|by right].
  - split.
    + intros [p Hp Hl|h k Hh ->]; [|right; right; eauto]. rewrite E' in Hp.
      apply elem_of_cons in Hp as [->|Hp]; [by left|right; left; eauto].
    + intros [Hl|[(p & Hp & Hl)|(h & k & Hh & ->)]]; [| |by eapply (live_huge g')];
        eapply live_page; [|exact Hl| |exact Hl]; rewrite E'; [by left|by right].
  - intros HP Hl. pose proof step_page_in as Hpg.
    assert (inr r.1 r.2 r.1) as Hx by (destruct Hl as (? & Er & _); unfold inr; lia).
    pose proof (live_inside _ _ _ Hl Hx) as Hin. destruct HP as [(p & Hp & Hl')|(h & k & Hh & ->)].
    + pose proof (live_inside _ _ _ Hl' Hx) as Hin'.
      pose proof (pi_layout _ _ Hinv) as [_ HL]. unfold regions in HL.
      apply pairwise_app in HL as (_ & HL & _). apply pairwise_app in HL as (HL & _ & _).
      rewrite E in HL. destruct HL as [HL _]. rewrite Forall_forall in HL.
      destruct (HL (page_region p)); [by apply list_elem_of_fmap_2|..]; unfold page_region, inr in *; simpl in *; lia.
    + destruct (huge_facts _ _ Hinv _ _ Hh). eapply huge_not_page; [exact Hinv|exact Hh| |exact Hpg|exact Hin].
      unfold node_size, inr in *; simpl in *; lia.
Qed.
End PageStep.

(** *** The heap changed *)

Section HeapStep.
Context (s s' : kstate) (g : gstate) (Hinv : pmm_inv s g).

Lemma pages_frame (P : Z -> Prop) :
  only_in P (k_mem s) (k_mem s') ->
  (forall pg x, pg ∈ all_pages g -> P x -> ~ inr (pg_addr pg) PAGE x) ->
  Forall (pages_ok (k_mem s')) (g_pages g).
Proof.
  intros Ho HP. pose proof (pi_pages _ _ Hinv) as H. rewrite Forall_forall in *. intros l Hl.
  eapply pages_ok_frame; [|by apply H]. intros pg Hpg x Hx. apply Ho. intros Hx'.
  destruct (pages_ok_elem _ _ _ (H _ Hl) Hpg) as [nx Hok].
  eapply HP; [|exact Hx'|by eapply page_own_inside].
  apply list_elem_of_In, in_concat. exists l. by rewrite <- !list_elem_of_In.
Qed.

Lemma huge_frame (P : Z -> Prop) l :
  only_in P (k_mem s) (k_mem s') -> (forall r, r ∈ l -> r ∈ g_huge g) ->
  (forall r x, r ∈ l -> P x -> ~ inr r.1 r.2 x) -> Forall (huge_hdr (k_mem s')) l.
Proof.
  intros Ho Hl HP. pose proof (pi_huge _ _ Hinv) as HH. rewrite Forall_forall in *. intros [h k] Hr.
  destruct (HH _ (Hl _ Hr)) as [H1 H2]. destruct (huge_facts _ _ Hinv _ _ (Hl _ Hr)) as (? & _).
  assert (same_on (inr h 16) (k_mem s) (k_mem s')) as Hf.
  { eapply only_in_same_on; [exact Ho|]. intros x Hx Hx'. eapply HP; [exact Hr|exact Hx'|].
    unfold inr in *; simpl; lia. }
  unfold huge_hdr in *. simpl in *. rewrite <- H1, <- H2. unfold loadi32.
  split; f_equal; (eapply same_on_load; [exact Hf|unfold inr; simpl; lia]).
Qed.

(** The free list and the huge blocks changed. *)
Lemma heap_step (P : Z -> Prop) fl' hg' :
  heap_ok lo hi s' fl' -> layout lo hi (fl' ++ (page_region <$> all_pages g) ++ hg') ->
  Forall (huge_hdr (k_mem s')) hg' -> Forall (fun r => 32 <= r.2 /\ r.2 mod 16 = 0) hg' ->
  only_in P (k_mem s) (k_mem s') ->
  (forall pg x, pg ∈ all_pages g -> P x -> ~ inr (pg_addr pg) PAGE x) ->
  heap_lock s' = 0 -> cpupagelist s' = cpupagelist s ->
  pmm_inv s' (mk_g fl' (g_pages g) hg').
Proof.
  intros Hok HL Hh Hs Ho HP Hlk Hc. split; simpl; try done.
  - rewrite Hc. apply Hinv.
  - apply Hinv.
  - by eapply pages_frame.
Qed.

(** A page taken from the free list becomes the first page of processor [i]. *)
Lemma new_page_step i l pg' fl' :
  take_page (g_free g) = Some (pg_addr pg', fl') -> g_pages g !! i = Some l ->
  page_ok (k_mem s') pg' (first_page l) -> heap_ok lo hi s' fl' ->
  only_in (covers (g_free g)) (k_mem s) (k_mem s') -> heap_lock s' = 0 ->
  cpupagelist s' = <[i := mk_pagelist (pg_addr pg') 0]> (cpupagelist s) ->
  pmm_inv s' (mk_g fl' (<[i := pg' :: l]> (g_pages g)) (g_huge g)).
Proof.
  intros Ht Hi Hok Hh Ho Hlk Hc.
  assert (forall pg x, pg ∈ all_pages g -> covers (g_free g) x -> ~ inr (pg_addr pg) PAGE x) as HP.
  { intros pg x Hpg Hx Hx'. eapply page_not_free; [exact Hinv|exact Hpg|exact Hx'|exact Hx]. }
  pose proof (pages_frame _ Ho HP) as Hpages. split; simpl; try done.
  - rewrite Hc, (pi_cpus _ _ Hinv), list_fmap_insert. done.
  - rewrite length_insert. apply Hinv.
  - apply Forall_insert; [done|]. simpl. split; [done|].
    rewrite Forall_lookup in Hpages. by eapply Hpages.
  - eapply huge_frame; [exact Ho|done|]. intros r x Hr Hx Hx'.
    eapply huge_not_free; [exact Hinv|exact Hr|exact Hx'|exact Hx].
  - apply Hinv.
  - destruct (concat_insert _ _ _ Hi) as (rest & E & En). unfold regions, all_pages. simpl.
    rewrite En. pose proof (pi_layout _ _ Hinv) as HL. unfold regions, all_pages in HL. rewrite E in HL.
    apply (take_page_layout _ _ _ _ _ _ Ht) in HL. eapply layout_proper; [|exact HL].
    simpl. rewrite !fmap_app. unfold page_region at 2. simpl. solve_Permutation.
Qed.

Lemma new_page_live i l pg' fl' r :
  g_pages g !! i = Some l ->
  live (mk_g fl' (<[i := pg' :: l]> (g_pages g)) (g_huge g)) r <-> live g r \/ live_in pg' r.
Proof.
  intros Hi. destruct (concat_insert _ _ _ Hi) as (rest & E & En). split.
  - intros [p Hp Hl|h k Hh ->]; [|left; by eapply live_huge]. unfold all_pages in Hp. simpl in Hp.
    rewrite En in Hp. apply elem_of_cons in Hp as [->|Hp]; [by right|left].
    eapply live_page; [|exact Hl]. unfold all_pages. by rewrite E.
  - intros [[p Hp Hl|h k Hh ->]|Hl].
    + eapply live_page; [|exact Hl]. unfold all_pages in *. simpl. rewrite En. rewrite E in Hp. by right.
    + by eapply live_huge.
    + eapply live_page; [|exact Hl]. unfold all_pages. simpl. rewrite En. by left.
Qed.
End HeapStep.
End Inv.
