(* ===== verification/PmmAlloc.v ===== *)
(** * kalloc: the abstract allocation and its refinement

    [abs_alloc] is what [kalloc] promises, as a function on the abstract state; the code is
    proved to compute it ([kalloc_spec]), and the allocation to hand out a block no client
    holds ([abs_alloc_live], [abs_alloc_fresh]). *)

From stdpp Require Import prelude.
From S2P Require Import Prelude Mem KString FreeList Kernel Heap Pmm PageSpec PageAlloc PmmInv.

(** ** The size of the block for a request *)

(** The least power of two that is at least 32 and at least [size]. *)
Definition rounded (size : Z) : Z := 2 ^ Z.max 5 (Z.log2_up size).

Lemma rounded_le size : size <= rounded size.
Proof.
  unfold rounded. destruct (Z.le_gt_cases size 1).
  - pose proof (Z.pow_pos_nonneg 2 (Z.max 5 (Z.log2_up size)) ltac:(lia) ltac:(lia)). lia.
  - pose proof (Z.log2_up_spec size ltac:(lia)) as [_ H1]. etrans; [exact H1|].
    apply Z.pow_le_mono_r; lia.
Qed.

Lemma rounded_pow k size : 5 <= k -> size <= 2 ^ k -> rounded size <= 2 ^ k.
Proof.
  intros Hk Hs. unfold rounded. apply Z.pow_le_mono_r; [lia|].
  destruct (Z.le_gt_cases size 1) as [H1|H1].
  - rewrite Z.log2_up_eqn0 by lia. lia.
  - apply Z.log2_up_le_pow2 in Hs; lia.
Qed.

Lemma rounded_div k size : 5 <= k -> size <= 2 ^ k -> (rounded size | 2 ^ k).
Proof.
  intros Hk Hs. unfold rounded. set (j := Z.max 5 (Z.log2_up size)).
  assert (j <= k) as Hj.
  { unfold j. destruct (Z.le_gt_cases size 1) as [H1|H1]; [rewrite Z.log2_up_eqn0 by lia; lia|].
    apply Z.log2_up_le_pow2 in Hs; lia. }
  exists (2 ^ (k - j)). rewrite <- Z.pow_add_r by (unfold j in *; lia). f_equal. lia.
Qed.

Lemma rounded_ge size : 32 <= rounded size.
Proof. unfold rounded. change 32 with (2 ^ 5). apply Z.pow_le_mono_r; lia. Qed.

Lemma rounded_block size : size <= 16384 -> block_size (rounded size).
Proof.
  intros Hs. split; [split; [apply rounded_ge|]|].
  - by apply (rounded_pow 14).
  - apply (rounded_div 16); lia.
Qed.

Lemma rounded_small size : size <= 32 -> rounded size = 32.
Proof.
  intros Hs. pose proof (rounded_ge size). pose proof (rounded_pow 5 size ltac:(lia) ltac:(lia)). lia.
Qed.

Lemma rounded_exact k : 5 <= k -> rounded (2 ^ k) = 2 ^ k.
Proof.
  intros Hk. pose proof (rounded_le (2 ^ k)). pose proof (rounded_pow k (2 ^ k) Hk ltac:(lia)). lia.
Qed.

(** The loop at lines 182-186 and 193-197 stops after at most [n] doublings. *)
Lemma pow_loop_spec n k j size s :
  (n < k)%nat -> 5 <= j -> j + Z.of_nat n < 63 -> size <= 2 ^ (j + Z.of_nat n) ->
  (j = 5 \/ 2 ^ (j - 1) < size) ->
  wp (pow_loop k (2 ^ j) size) s (fun r s' => r = rounded size /\ s' = s).
Proof.
  revert k j. induction n as [|n IH]; intros k j Hk Hj Hn Hs Hlow; (destruct k as [|k]; [lia|]); simpl.
  - rewrite Z.add_0_r in Hs. destruct (Z.ltb_spec (2 ^ j) size); [lia|]. apply wp_ret. split; [|done].
    pose proof (rounded_pow j size Hj Hs). destruct Hlow as [->|Hlow].
    + pose proof (rounded_ge size). lia.
    + unfold rounded in *. symmetry. f_equal.
      apply Z.pow_le_mono_r_iff in H0; [|lia..].
      assert (Z.log2_up size = j) as ->; [|lia].
      apply Z.log2_up_unique; [lia|]. rewrite <- Z.sub_1_r. lia.
  - destruct (Z.ltb_spec (2 ^ j) size) as [Hlt|Hge].
    + assert (u64 (2 ^ j * 2) = 2 ^ (j + 1)) as ->.
      { rewrite Z.pow_add_r by lia. apply wrap_small. split; [pose proof (Z.pow_nonneg 2 j); lia|].
        change (2 ^ 64) with (2 ^ 63 * 2). apply Z.mul_lt_mono_pos_r; [lia|].
        apply Z.pow_lt_mono_r; lia. }
      apply IH; [lia|lia|lia| |].
      * replace (j + 1 + Z.of_nat n) with (j + Z.of_nat (S n)) by lia. done.
      * right. by replace (j + 1 - 1) with j by lia.
    + apply wp_ret. split; [|done]. pose proof (rounded_pow j size Hj Hge). destruct Hlow as [->|Hlow].
      * pose proof (rounded_ge size). lia.
      * unfold rounded in *. symmetry. f_equal. apply Z.pow_le_mono_r_iff in H; [|lia..].
        assert (Z.log2_up size = j) as ->; [|lia].
        apply Z.log2_up_unique; [lia|]. rewrite <- Z.sub_1_r. lia.
Qed.

(** ** The abstract allocation *)

(** The first page that satisfies [P], with the pages before and after it. *)
Fixpoint split_first (P : page -> bool) (l : list page) : option (list page * page * list page) :=
  match l with
  | [] => None
  | pg :: l =>
      if P pg then Some ([], pg, l)
      else match split_first P l with
           | Some (l1, pg', l2) => Some (pg :: l1, pg', l2)
           | None => None
           end
  end.

Lemma split_first_some P l l1 pg l2 :
  split_first P l = Some (l1, pg, l2) ->
  l = l1 ++ pg :: l2 /\ P pg = true /\ Forall (fun p => P p = false) l1.
Proof.
  revert l1. induction l as [|p l IH]; simpl; intros l1; [done|].
  destruct (P p) eqn:E; [intros [= <- <- <-]; done|].
  destruct (split_first P l) as [[[l1' pg'] l2']|]; [|done]. intros [= <- -> ->].
  destruct (IH l1' eq_refl) as (-> & ? & ?). split; [done|]. split; [done|]. by constructor.
Qed.

Lemma split_first_none P l : split_first P l = None <-> Forall (fun p => P p = false) l.
Proof.
  induction l as [|p l IH]; simpl; [done|]. rewrite Forall_cons.
  destruct (P p); [split; [done|by intros []]|].
  destruct (split_first P l) as [[[l1' pg'] l2']|]; [|tauto].
  split; [done|]. intros [_ H]. by apply IH in H.
Qed.

(** A page of blocks of [sz] bytes that is not full; a page without a size. *)
Definition usable (sz : Z) (pg : page) : bool := (pg_size pg =? sz) && negb (is_nil (pg_nodes pg)).
Definition sizeless (pg : page) : bool := pg_size pg =? 0.

Definition cpu_pages (g : gstate) (cpu : Z) : list page := default [] (g_pages g !! Z.to_nat cpu).

(** A block of [sz] bytes for processor [cpu]: from its first usable page, or else its first
    page without a size, or else a new page, or else there is none. *)
Definition alloc_block (g : gstate) (cpu sz : Z) : option (Z * gstate) :=
  let l := cpu_pages g cpu in
  match split_first (usable sz) l with
  | Some (l1, pg, l2) =>
      Some (first_addr (pg_nodes pg) 0, set_pages g (Z.to_nat cpu) (l1 ++ page_take pg :: l2))
  | None =>
      match split_first sizeless l with
      | Some (l1, pg, l2) =>
          Some (pg_addr pg + sz, set_pages g (Z.to_nat cpu) (l1 ++ page_fresh (pg_addr pg) sz :: l2))
      | None =>
          match take_page (g_free g) with
          | Some (a, fl') =>
              Some (a + sz, mk_g fl' (<[Z.to_nat cpu := page_fresh a sz :: l]> (g_pages g)) (g_huge g))
          | None => None
          end
      end
  end.

(** A huge block of [sz] bytes from the high end of the highest free region that is as large
    as the block. *)
Definition alloc_huge (g : gstate) (sz : Z) : option (Z * gstate) :=
  let a := best_fit sz (g_free g) 0 in
  if a =? 0 then None
  else
    let ret := a + size_at a (g_free g) - sz in
    Some (ret, mk_g (carve a sz (g_free g)) (g_pages g) ((ret - node_size, sz + node_size) :: g_huge g)).

(** [kalloc] for a request of [size] bytes. *)
Definition abs_alloc (g : gstate) (cpu size : Z) : option (Z * gstate) :=
  if size <=? 16 * 1024 then alloc_block g cpu (rounded size)
  else if size <=? 16 * 1024 * 1024 then alloc_huge g (rounded size)
  else None.

(** ** The code computes it *)

(** The area the heap lives in, and the fuel: one unit for each 16 bytes of it. *)
Class Area (lo hi : Z) (fuel : nat) : Prop := {
  ar_lo : 0 < lo;
  ar_hi : hi + PAGE < 2 ^ 64;
  ar_size : lo <= hi < lo + 2 ^ 31;
  ar_fuel : hi - lo + 512 < 16 * Z.of_nat fuel;
}.

Section Fuel.
Context (lo hi : Z) (fuel : nat) `{!Area lo hi fuel}.
Context (s : kstate) (g : gstate) (Hinv : pmm_inv lo hi s g).

Lemma heap_fuel : (length (g_free g) + 1 < fuel)%nat.
Proof.
  destruct (pi_heap _ _ _ _ Hinv) as [_ Hs HL]. pose proof ar_size. pose proof (ar_fuel (lo := lo) (hi := hi) (fuel := fuel)).
  pose proof (layout_length lo hi 16 (g_free g) ltac:(lia) ltac:(lia) (sized_ge _ Hs) HL). lia.
Qed.

Lemma pages_count : PAGE * Z.of_nat (length (all_pages g)) <= hi - lo.
Proof.
  pose proof (pi_layout _ _ _ _ Hinv) as HL. unfold regions in HL.
  apply layout_app_r, layout_app_l in HL. pose proof ar_size.
  rewrite <- (length_fmap page_region). apply layout_length; [lia|lia| |exact HL].
  apply Forall_fmap, Forall_forall. intros pg _. unfold page_region. simpl. lia.
Qed.

Lemma list_count l : l ∈ g_pages g -> (length l <= length (all_pages g))%nat.
Proof.
  intros (i & Hi)%list_elem_of_lookup. destruct (concat_insert _ _ _ Hi) as (rest & E & _).
  unfold all_pages. rewrite E, length_app. lia.
Qed.

Lemma pages_fuel l : l ∈ g_pages g -> (length l + 1 < fuel)%nat.
Proof.
  intros Hl. pose proof (list_count _ Hl). pose proof pages_count.
  pose proof (ar_fuel (lo := lo) (hi := hi) (fuel := fuel)). lia.
Qed.

(** The nodes of a page and the headers of its list. *)
Lemma walk_fuel l pg : l ∈ g_pages g -> pg ∈ l -> (length (pg_nodes pg) + length l + 1 < fuel)%nat.
Proof.
  intros Hl Hpg. pose proof (list_count _ Hl). pose proof pages_count.
  pose proof (ar_fuel (lo := lo) (hi := hi) (fuel := fuel)).
  assert (0 < length l)%nat by (destruct l; [by apply elem_of_nil in Hpg|simpl; lia]).
  pose proof (pi_pages _ _ _ _ Hinv) as HP. rewrite Forall_forall in HP.
  destruct (pages_ok_elem _ _ _ (HP _ Hl) Hpg) as [nx Hok].
  destruct (po_free _ _ _ Hok) as [(_ & -> & _)|Hf]; [simpl; lia|].
  pose proof (layout_length (pg_addr pg + pg_size pg) (pg_addr pg + PAGE) 32 (pg_nodes pg)) as HL.
  pose proof (block_size_pos _ (fb_size _ _ _ _ _ Hf)).
  specialize (HL ltac:(lia) ltac:(lia)).
  assert (32 * Z.of_nat (length (pg_nodes pg)) <= PAGE); [|lia].
  etrans; [apply HL; [|apply Hf]|lia].
  apply Forall_forall. intros [a n] Hr. destruct (free_blocks_node _ _ _ _ _ _ _ Hf Hr). simpl. lia.
Qed.
End Fuel.

(** *** The searches *)

Lemma usable_code m pg nx sz :
  page_ok m pg nx -> 0 < sz ->
  (u64 (loadi32 m (pg_addr pg + 8)) =? sz) && (0 <? load32 m (pg_addr pg + 12)) = usable sz pg.
Proof.
  intros Hok Hs. destruct Hok as [_ _ -> -> Hf]. unfold usable, page_index.
  destruct Hf as [(-> & -> & _)|Hf].
  - change (u64 0) with 0. destruct (Z.eqb_spec 0 sz); [lia|done].
  - pose proof (block_size_pos _ (fb_size _ _ _ _ _ Hf)). rewrite wrap_small by lia.
    destruct (Z.eqb_spec (pg_size pg) 0); [lia|]. f_equal.
    pose proof (idx_of_pos _ _ _ _ _ Hf) as Hp. destruct (pg_nodes pg) as [|r l]; [done|].
    apply Z.ltb_lt, Hp. done.
Qed.

Lemma sizeless_code m pg nx :
  page_ok m pg nx ->
  (loadi32 m (pg_addr pg + 8) =? 0) && (0 <? load32 m (pg_addr pg + 12)) = sizeless pg.
Proof.
  intros [_ _ -> -> _]. unfold sizeless, page_index. destruct (Z.eqb_spec (pg_size pg) 0); done.
Qed.

(** What a search returns: the address of the first page found, or NULL. *)
Definition found (P : page -> bool) (l : list page) : Z :=
  match split_first P l with Some (_, pg, _) => pg_addr pg | None => 0 end.

Lemma found_cons P pg l : found P (pg :: l) = if P pg then pg_addr pg else found P l.
Proof.
  unfold found. simpl. destruct (P pg); [done|]. by destruct (split_first P l) as [[[l1 pg'] l2]|].
Qed.

Lemma find_page_spec k l sz s :
  pages_ok (k_mem s) l -> (length l < k)%nat -> 0 < sz ->
  wp (find_page k (first_page l) sz) s (fun r s' => r = found (usable sz) l /\ s' = s).
Proof.
  revert k. induction l as [|pg l IH]; intros k Hl Hk Hs; (destruct k as [|k]; simpl in Hk; [lia|]); simpl.
  - by apply wp_ret.
  - destruct Hl as [Hpg Hl]. pose proof (po_addr _ _ _ Hpg). destruct (Z.eqb_spec (pg_addr pg) 0); [lia|].
    k_steps. rewrite (usable_code _ _ _ _ Hpg Hs), found_cons. destruct (usable sz pg).
    + by apply wp_ret.
    + k_steps. rewrite (po_next _ _ _ Hpg). apply IH; [done|lia|done].
Qed.

Lemma find_empty_spec k l s :
  pages_ok (k_mem s) l -> (length l < k)%nat ->
  wp (find_empty k (first_page l)) s (fun r s' => r = found sizeless l /\ s' = s).
Proof.
  revert k. induction l as [|pg l IH]; intros k Hl Hk; (destruct k as [|k]; simpl in Hk; [lia|]); simpl.
  - by apply wp_ret.
  - destruct Hl as [Hpg Hl]. pose proof (po_addr _ _ _ Hpg). destruct (Z.eqb_spec (pg_addr pg) 0); [lia|].
    k_steps. rewrite (sizeless_code _ _ _ Hpg), found_cons. destruct (sizeless pg).
    + by apply wp_ret.
    + k_steps. rewrite (po_next _ _ _ Hpg). apply IH; [done|lia].
Qed.

(** *** A block of a page *)

Section Block.
Context (lo hi : Z) (fuel : nat) `{!Area lo hi fuel}.
Context (s : kstate) (g : gstate) (Hinv : pmm_inv lo hi s g).
Context (cpu sz : Z) (Hcpu : 0 <= cpu < 16) (Hsz : block_size sz).
Abbreviation i := (Z.to_nat cpu) (only parsing).

Lemma cpu_lookup : g_pages g !! i = Some (cpu_pages g cpu).
Proof.
  unfold cpu_pages. destruct (g_pages g !! i) eqn:E; [done|].
  apply lookup_ge_None in E. rewrite (pi_len _ _ _ _ Hinv) in E. lia.
Qed.

Lemma cpu_lookup_slot : cpupagelist s !! i = Some (mk_pagelist (first_page (cpu_pages g cpu)) 0).
Proof. by rewrite (pi_cpus _ _ _ _ Hinv), list_lookup_fmap, cpu_lookup. Qed.

Lemma cpu_pages_in : cpu_pages g cpu ∈ g_pages g.
Proof. eapply list_elem_of_lookup_2, cpu_lookup. Qed.

Lemma cpu_pages_ok : pages_ok (k_mem s) (cpu_pages g cpu).
Proof.
  pose proof (pi_pages _ _ _ _ Hinv) as H. rewrite Forall_forall in H. apply H, cpu_pages_in.
Qed.

(** The state while the processor's list is locked. *)
Definition locked : kstate :=
  mk_kstate (k_mem s) (head s) (heap_lock s)
    (<[i := mk_pagelist (first_page (cpu_pages g cpu)) 1]> (cpupagelist s)).

Abbreviation slot := (mk_pagelist (first_page (cpu_pages g cpu)) 1) (only parsing).

Lemma locked_slot : cpupagelist locked !! i = Some slot.
Proof. apply list_lookup_insert_eq. eapply lookup_lt_Some, cpu_lookup_slot. Qed.

Lemma released_locked m' :
  released cpu slot locked m' = mk_kstate m' (head s) (heap_lock s) (cpupagelist s).
Proof.
  unfold released, locked. simpl. f_equal. rewrite list_insert_insert_eq.
  apply list_insert_id, cpu_lookup_slot.
Qed.

(** What a successful allocation leaves: the new abstract state, the clients' bytes as they
    were, the block cleared, nothing written outside the heap. *)
Definition alloc_post (a n : Z) (g' : gstate) (s' : kstate) : Prop :=
  pmm_inv lo hi s' g' /\ same_on (owned g) (k_mem s) (k_mem s') /\
  (forall x, inr a n x -> load8 (k_mem s') x = 0) /\
  only_in (inr lo (hi - lo)) (k_mem s) (k_mem s').

(** A change inside one page, of bytes that are not the clients'. *)
Lemma page_alloc_post l1 pg l2 pg' a n s' :
  g_pages g !! i = Some (l1 ++ pg :: l2) -> pg_addr pg' = pg_addr pg ->
  page_ok (k_mem s') pg' (first_page l2) ->
  (forall x, owned g x -> load8 (k_mem s') x = load8 (k_mem s) x) ->
  only_in (inr (pg_addr pg) PAGE) (k_mem s) (k_mem s') ->
  (forall x, inr a n x -> load8 (k_mem s') x = 0) ->
  s' = mk_kstate (k_mem s') (head s) (heap_lock s) (cpupagelist s) ->
  alloc_post a n (set_pages g i (l1 ++ pg' :: l2)) s'.
Proof.
  intros Hi Ha Hok Hown Ho Hz Es. split; [|split; [|split; [exact Hz|]]].
  - eapply page_step; [exact Hinv|exact Hi|exact Ha|exact Hok|exact Ho|exact Es].
  - exact Hown.
  - eapply page_heap; [exact Hinv|eapply all_pages_in; [exact Hi|apply elem_of_middle]|exact Ho].
Qed.

Lemma alloc_fast_spec l1 pg l2 :
  split_first (usable sz) (cpu_pages g cpu) = Some (l1, pg, l2) ->
  wp (kalloc_fast cpu (pg_addr pg) sz) locked (fun r s' =>
    r = first_addr (pg_nodes pg) 0 /\
    alloc_post r sz (set_pages g i (l1 ++ page_take pg :: l2)) s').
Proof.
  intros Hsp. apply split_first_some in Hsp as (El & Hu & _).
  unfold usable in Hu. apply andb_true_iff in Hu as [Hz Hn]. apply Z.eqb_eq in Hz.
  destruct pg as [addr sz' l full]. simpl in Hz, Hn |- *. subst sz'.
  destruct l as [|[a n] tl]; [done|]. clear Hn.
  pose proof cpu_pages_ok as Hp. rewrite El in Hp. apply pages_ok_app in Hp as [Hpg _].
  pose proof cpu_lookup as Hi. rewrite El in Hi.
  eapply wp_mono; [eapply (kalloc_fast_spec locked); [exact Hpg|lia|apply locked_slot]|].
  intros r s' (-> & Es & Hok & Ho & Hz). simpl. split; [done|]. rewrite released_locked in Es.
  assert (mk_page addr sz ((a, n) :: tl) full ∈ all_pages g) as Hin.
  { eapply all_pages_in; [exact Hi|apply elem_of_middle]. }
  eapply page_alloc_post; [exact Hi|done|exact Hok| | |exact Hz|exact Es].
  - intros x Hx. apply Ho. intros Hx'. eapply owned_not_page; [exact Hinv|exact Hin|exact Hx'|exact Hx].
  - eapply only_in_weaken; [exact Ho|]. intros x. by eapply page_own_inside.
Qed.

Lemma alloc_empty_spec l1 pg l2 :
  split_first sizeless (cpu_pages g cpu) = Some (l1, pg, l2) ->
  wp (_ ← set_size (pg_addr pg) sz; kalloc_carve cpu (pg_addr pg) sz) locked (fun r s' =>
    r = pg_addr pg + sz /\
    alloc_post r sz (set_pages g i (l1 ++ page_fresh (pg_addr pg) sz :: l2)) s').
Proof.
  intros Hsp. apply split_first_some in Hsp as (El & Hu & _).
  unfold sizeless in Hu. apply Z.eqb_eq in Hu. pose proof (block_size_pos _ Hsz) as Hszp.
  pose proof cpu_pages_ok as Hp. rewrite El in Hp. apply pages_ok_app in Hp as [Hpg _].
  pose proof cpu_lookup as Hi. rewrite El in Hi.
  assert (pg ∈ all_pages g) as Hin by (eapply all_pages_in; [exact Hi|apply elem_of_middle]).
  destruct Hpg as [[H0 H64] En Es Ei _]. unfold page_index in Ei. rewrite Hu in Ei. simpl in Ei.
  apply wp_bind, wp_set_size; [lia|]. set (s1 := st_upd _ _).
  assert (only_in (inr (pg_addr pg) PAGE) (k_mem s) (k_mem s1)) as Ho1.
  { apply only_in_store; [done|]. unfold inr; simpl; lia. }
  assert (header_at (k_mem s1) (pg_addr pg) (first_page l2) sz) as Hh.
  { unfold header_at, s1. simpl. mem_simpl. rewrite signed_small by lia. done. }
  eapply wp_mono; [eapply (kalloc_carve_spec s1); [exact Hh|lia|lia|done|lia|exact locked_slot]|].
  intros r s' (-> & E & Hok & Ho & Hz). split; [done|].
  assert (released cpu slot s1 (k_mem s') = released cpu slot locked (k_mem s')) as Er by done.
  rewrite Er, released_locked in E.
  assert (only_in (inr (pg_addr pg) PAGE) (k_mem s) (k_mem s')) as Ho2 by (by etrans).
  eapply page_alloc_post; [exact Hi|done|exact Hok| |exact Ho2|exact Hz|exact E].
  intros x Hx. apply Ho2. intros Hx'.
  eapply owned_not_empty; [exact Hinv|exact Hin|done|exact Hx'|exact Hx].
Qed.

Lemma area_bounds : hi < 2 ^ 64 /\ hi - lo < 2 ^ 31.
Proof. pose proof (ar_hi (lo := lo) (hi := hi) (fuel := fuel)). pose proof (ar_size (lo := lo) (hi := hi) (fuel := fuel)). lia. Qed.

Lemma locked_heap : heap_ok lo hi locked (g_free g).
Proof. destruct (pi_heap _ _ _ _ Hinv). by split. Qed.

Lemma alloc_new_spec a fl' :
  take_page (g_free g) = Some (a, fl') ->
  wp (pagehead ← allockpage fuel;
      if negb (pagehead =? 0) then
        ph ← get_pagehead cpu;
        _ ← set_next pagehead ph;
        _ ← set_size pagehead sz;
        _ ← set_index pagehead 1;
        _ ← set_pagehead cpu pagehead;
        kalloc_carve cpu pagehead sz
      else _ ← unlock (CpuLock cpu); mret 0) locked (fun r s' =>
    r = a + sz /\
    alloc_post r sz (mk_g fl' (<[i := page_fresh a sz :: cpu_pages g cpu]> (g_pages g)) (g_huge g)) s').
Proof.
  intros Ht. destruct area_bounds as [Hb1 Hb2]. pose proof (block_size_pos _ Hsz) as Hszp.
  pose proof (ho_layout _ _ _ _ (pi_heap _ _ _ _ Hinv)) as HL.
  destruct (take_page_addr _ _ _ _ _ Ht HL) as [Ha1 Ha2].
  pose proof (ar_lo (lo := lo) (hi := hi) (fuel := fuel)). pose proof (ar_hi (lo := lo) (hi := hi) (fuel := fuel)).
  pose proof (heap_fuel _ _ _ _ _ Hinv) as Hf.
  apply wp_bind. eapply wp_mono.
  { eapply (allockpage_some lo hi); [done..|apply locked_heap|apply (pi_lock _ _ _ _ Hinv)|lia|exact Ht]. }
  intros r s1 (-> & Hok1 & Ho1 & Hl1 & Hc1). simpl in Ho1, Hc1.
  destruct (Z.eqb_spec a 0); [lia|]. simpl.
  assert (cpupagelist s1 !! i = Some slot) as Hs1 by (rewrite Hc1; apply locked_slot).
  apply wp_bind. eapply wp_get_pagehead; [lia|exact Hs1|]. simpl. k_steps.
  set (m2 := store32 _ _ _). apply wp_bind_inv.
  assert (only_in (inr a PAGE) (k_mem s1) m2) as Ho2.
  { repeat apply only_in_store; [done|unfold inr; simpl; lia..]. }
  assert (0 <= first_page (cpu_pages g cpu) < 2 ^ 64) as Hfp.
  { pose proof cpu_pages_ok as Hp. destruct (cpu_pages g cpu) as [|pg l]; simpl; [lia|].
    destruct Hp as [[[? ?] _ _ _ _] _]. lia. }
  assert (header_at m2 a (first_page (cpu_pages g cpu)) sz) as Hh.
  { unfold header_at, m2. mem_simpl. rewrite signed_small by lia. by rewrite (wrap_small 64). }
  clearbody m2. apply wp_bind. eapply wp_set_pagehead; [lia|exact Hs1|]. simpl.
  set (s2 := mk_kstate _ _ _ _).
  assert (cpupagelist s2 !! i = Some (mk_pagelist a 1)) as Hs2.
  { apply list_lookup_insert_eq. by eapply lookup_lt_Some. }
  eapply wp_mono; [eapply (kalloc_carve_spec s2); [exact Hh|lia|lia|done|lia|exact Hs2]|].
  intros r s' (-> & E & Hok & Ho & Hz). split; [done|].
  assert (only_in (inr a PAGE) (k_mem s1) (k_mem s')) as Ho3 by (etrans; [exact Ho2|exact Ho]).
  assert (only_in (covers (g_free g)) (k_mem s) (k_mem s')) as Ho4.
  { etrans; [exact Ho1|]. eapply only_in_weaken; [exact Ho3|]. intros x. by eapply take_page_covers. }
  split; [|split; [|split; [exact Hz|by eapply free_heap]]].
  - eapply (new_page_step lo hi s s' g Hinv i (cpu_pages g cpu) (page_fresh a sz));
      [exact Ht|apply cpu_lookup|exact Hok| |exact Ho4| |].
    + eapply heap_ok_page_frame; [exact Ht|exact HL|exact Hok1|exact Ho3|by rewrite E].
    + rewrite E. done.
    + rewrite E. unfold released. simpl. rewrite Hc1. unfold locked. simpl. by rewrite !list_insert_insert_eq.
  - intros x Hx. apply Ho4. intros Hx'. by eapply owned_not_free.
Qed.

Lemma alloc_none_spec :
  take_page (g_free g) = None ->
  wp (pagehead ← allockpage fuel;
      if negb (pagehead =? 0) then
        ph ← get_pagehead cpu;
        _ ← set_next pagehead ph;
        _ ← set_size pagehead sz;
        _ ← set_index pagehead 1;
        _ ← set_pagehead cpu pagehead;
        kalloc_carve cpu pagehead sz
      else _ ← unlock (CpuLock cpu); mret 0) locked (fun r s' => r = 0 /\ s' = s).
Proof.
  intros Ht. pose proof (heap_fuel _ _ _ _ _ Hinv) as Hf. apply wp_bind. eapply wp_mono.
  { eapply (allockpage_none lo hi); [apply locked_heap|apply (pi_lock _ _ _ _ Hinv)|lia|exact Ht]. }
  intros r s' [-> ->]. simpl. apply wp_bind. eapply wp_unlock_cpu; [lia|apply locked_slot|].
  apply wp_ret. split; [done|]. pose proof (released_locked (k_mem s)) as E. unfold released in E.
  simpl in E. simpl. rewrite E. by destruct s.
Qed.

(** The result of an allocation: the abstract one, or NULL and nothing changed. *)
Definition alloc_result (n : Z) (o : option (Z * gstate)) (r : Z) (s' : kstate) : Prop :=
  match o with
  | Some (a, g') => r = a /\ alloc_post a n g' s'
  | None => r = 0 /\ s' = s
  end.

Lemma found_some P l l1 pg l2 : split_first P l = Some (l1, pg, l2) -> found P l = pg_addr pg.
Proof. intros E. unfold found. by rewrite E. Qed.

(** Lines 217-307. *)
Lemma alloc_block_spec :
  wp (_ ← lock fuel (CpuLock cpu);
      ph ← get_pagehead cpu;
      ph ← find_page fuel ph sz;
      if negb (ph =? 0) then kalloc_fast cpu ph sz else kalloc_slow fuel cpu sz) s
    (alloc_result sz (alloc_block g cpu sz)).
Proof.
  pose proof (block_size_pos _ Hsz) as Hszp. pose proof (pages_fuel _ _ _ _ _ Hinv _ (cpu_pages_in)) as Hf.
  apply wp_bind. eapply wp_lock_cpu; [lia|lia|exact cpu_lookup_slot|done|]. fold locked. simpl pagehead.
  apply wp_bind. eapply wp_get_pagehead; [lia|exact locked_slot|]. simpl pagehead. apply wp_bind.
  eapply wp_mono; [apply (find_page_spec _ _ _ locked cpu_pages_ok); lia|]. intros r s' [-> ->].
  unfold alloc_block.
  assert (forall P l1 pg l2, split_first P (cpu_pages g cpu) = Some (l1, pg, l2) -> 0 < pg_addr pg) as Hpos.
  { intros P l1 pg l2 E. apply split_first_some in E as (E & _ & _). pose proof cpu_pages_ok as Hp.
    rewrite E in Hp. apply pages_ok_app in Hp as [[[? _] _ _ _ _] _]. done. }
  destruct (split_first (usable sz) _) as [[[l1 pg] l2]|] eqn:Eu.
  { rewrite (found_some _ _ _ _ _ Eu). specialize (Hpos _ _ _ _ Eu). destruct (Z.eqb_spec (pg_addr pg) 0); [lia|].
    simpl. eapply wp_mono; [by apply alloc_fast_spec|]. intros r s' [-> H]. done. }
  unfold found. rewrite Eu. simpl. unfold kalloc_slow.
  apply wp_bind. eapply wp_get_pagehead; [lia|exact locked_slot|]. simpl pagehead. apply wp_bind.
  eapply wp_mono; [apply (find_empty_spec _ _ locked cpu_pages_ok); lia|]. intros r s' [-> ->].
  destruct (split_first sizeless _) as [[[l1 pg] l2]|] eqn:Ee.
  { rewrite (found_some _ _ _ _ _ Ee). specialize (Hpos _ _ _ _ Ee). destruct (Z.eqb_spec (pg_addr pg) 0); [lia|].
    simpl. eapply wp_mono; [by apply alloc_empty_spec|]. intros r s' [-> H]. done. }
  unfold found. rewrite Ee. simpl. destruct (take_page (g_free g)) as [[a fl']|] eqn:Et.
  - eapply wp_mono; [by apply alloc_new_spec|]. intros r s' [-> H]. done.
  - by apply alloc_none_spec.
Qed.
End Block.

(** *** The whole of kalloc for small requests *)

Lemma page_take_new a sz : block_size sz -> page_take (page_new a sz) = page_fresh a sz.
Proof.
  intros Hs. pose proof (block_size_pos _ Hs). unfold page_take, page_new, page_fresh.
  cbn [pg_size pg_nodes pg_addr pg_full take_block].
  destruct (Z.eqb_spec (PAGE - sz) sz); [lia|]. simpl is_nil.
  replace (a + sz + sz) with (a + 2 * sz) by lia.
  by replace (PAGE - sz - sz) with (PAGE - 2 * sz) by lia.
Qed.

Section Small.
Context (lo hi : Z) (fuel : nat) `{!Area lo hi fuel}.
Context (cpu_count cpu sz : Z) (Hcpu : 0 <= cpu < 16) (Hcount : cpu <= cpu_count) (Hsz : block_size sz).

(** The first allocation of a processor takes a page; what is left to do is the same
    allocation from the state with that page. *)
Lemma first_alloc s g :
  pmm_inv lo hi s g -> cpu_pages g cpu = [] -> take_page (g_free g) <> None ->
  wp (kalloc_first fuel cpu sz) s (fun _ s1 => exists g1,
    pmm_inv lo hi s1 g1 /\ alloc_block g1 cpu sz = alloc_block g cpu sz /\
    (forall x, owned g x -> owned g1 x) /\ same_on (owned g) (k_mem s) (k_mem s1) /\
    only_in (inr lo (hi - lo)) (k_mem s) (k_mem s1) /\ alloc_block g1 cpu sz <> None).
Proof.
  intros Hinv Hnil Ht. destruct (take_page (g_free g)) as [[a fl']|] eqn:Et; [clear Ht|done].
  destruct (area_bounds lo hi fuel) as [Hb1 Hb2].
  pose proof (heap_fuel _ _ fuel _ _ Hinv) as Hf. pose proof (cpu_lookup _ _ _ _ Hinv cpu Hcpu) as Hi.
  pose proof (cpu_lookup_slot _ _ _ _ Hinv cpu Hcpu) as Hslot. rewrite Hnil in Hi, Hslot.
  pose proof (ar_hi (lo := lo) (hi := hi) (fuel := fuel)). pose proof (ar_lo (lo := lo) (hi := hi) (fuel := fuel)).
  eapply wp_mono.
  { eapply (kalloc_first_spec lo hi); [done..|apply Hinv|apply Hinv|lia|exact Et|done|done|lia|exact Hslot|done]. }
  intros _ s1 (Hh & Hok & Ho & Hl & Hc).
  exists (mk_g fl' (<[Z.to_nat cpu := [page_new a sz]]> (g_pages g)) (g_huge g)).
  assert (alloc_block (mk_g fl' (<[Z.to_nat cpu := [page_new a sz]]> (g_pages g)) (g_huge g)) cpu sz
    = Some (a + sz, mk_g fl' (<[Z.to_nat cpu := [page_fresh a sz]]> (g_pages g)) (g_huge g))) as E1.
  { unfold alloc_block, cpu_pages. simpl g_pages.
    rewrite list_lookup_insert_eq by (by eapply lookup_lt_Some). simpl. unfold usable at 1.
    cbn [page_new pg_size pg_nodes is_nil negb]. rewrite Z.eqb_refl. simpl.
    unfold set_pages. simpl. rewrite list_insert_insert_eq. by rewrite page_take_new. }
  split; [|split; [|split; [|split; [|split]]]].
  - eapply (new_page_step lo hi s s1 g Hinv _ [] (page_new a sz)); [exact Et|exact Hi|exact Hok|exact Hh|exact Ho|exact Hl|exact Hc].
  - rewrite E1. unfold alloc_block. rewrite Hnil. simpl. by rewrite Et.
  - intros x (r & Hr & Hx). exists r. split; [|done].
    apply (new_page_live g _ [] (page_new a sz) fl' r Hi). by left.
  - intros x Hx. apply Ho. intros Hx'. by eapply owned_not_free.
  - by eapply free_heap.
  - by rewrite E1.
Qed.

(** [kalloc] of a small block computes [alloc_block]. *)
Lemma kalloc_small_spec s g :
  pmm_inv lo hi s g -> (cpu_pages g cpu = [] -> take_page (g_free g) <> None) ->
  wp (kalloc_small cpu_count cpu fuel sz) s (alloc_result lo hi s g sz (alloc_block g cpu sz)).
Proof.
  intros Hinv Hfirst. pose proof (cpu_lookup_slot _ _ _ _ Hinv cpu Hcpu) as Hslot.
  unfold kalloc_small. apply wp_bind, wp_assert; [by apply Z.leb_le|].
  apply wp_bind. eapply wp_get_pagehead; [lia|exact Hslot|]. simpl pagehead.
  destruct (cpu_pages g cpu) as [|pg l] eqn:El.
  - simpl. apply wp_bind. eapply wp_mono; [apply (first_alloc s g Hinv El (Hfirst eq_refl))|].
    intros _ s1 (g1 & Hinv1 & E & Hown & Ho & Hheap & Hne). rewrite <- E.
    eapply wp_mono; [by apply (alloc_block_spec lo hi fuel s1 g1 Hinv1 cpu sz)|].
    intros r s' H. unfold alloc_result in *. destruct (alloc_block g1 cpu sz) as [[a g']|]; [|done].
    destruct H as (-> & Hi' & Ho' & Hz' & Hh'). split; [done|]. split; [done|].
    split; [|split; [exact Hz'|by etrans]].
    intros x Hx. rewrite Ho'; [|by apply Hown]. by apply Ho.
  - pose proof (cpu_pages_ok _ _ _ _ Hinv cpu Hcpu) as Hp. rewrite El in Hp.
    destruct Hp as [[[? _] _ _ _ _] _]. simpl. destruct (Z.eqb_spec (pg_addr pg) 0); [lia|].
    apply wp_bind, wp_ret. by eapply alloc_block_spec.
Qed.

(** Without memory for the first page of a processor the assertion at line 206 fails. *)
Lemma kalloc_first_fails s g :
  pmm_inv lo hi s g -> cpu_pages g cpu = [] -> take_page (g_free g) = None ->
  kalloc_small cpu_count cpu fuel sz s = Fault AssertFail.
Proof.
  intros Hinv Hnil Ht. pose proof (cpu_lookup_slot _ _ _ _ Hinv cpu Hcpu) as Hslot.
  rewrite Hnil in Hslot. simpl in Hslot. pose proof (heap_fuel _ _ fuel _ _ Hinv) as Hf.
  pose proof (locked_slot _ _ _ _ Hinv cpu Hcpu) as Hls. rewrite Hnil in Hls.
  set (s1 := locked s g cpu) in *.
  unfold kalloc_small. apply (fault_bind _ _ _ (fun _ s' => s' = s)).
  { apply wp_assert; [by apply Z.leb_le|done]. }
  intros _ ? ->. apply (fault_bind _ _ _ (fun p s' => p = 0 /\ s' = s)).
  { by eapply wp_get_pagehead; [lia|exact Hslot|]. }
  intros ? ? [-> ->]. simpl. unfold mbind at 1, M_bind.
  assert (kalloc_first fuel cpu sz s = Fault AssertFail) as ->; [|done].
  unfold kalloc_first. apply (fault_bind _ _ _ (fun _ s' => s' = s1)).
  { eapply wp_lock_cpu; [lia|lia|exact Hslot|done|]. unfold s1, locked. by rewrite Hnil. }
  intros _ ? ->. apply (fault_bind _ _ _ (fun p s' => p = 0 /\ s' = s1)).
  { eapply (allockpage_none lo hi); [by apply locked_heap|apply (pi_lock _ _ _ _ Hinv)|lia|exact Ht]. }
  intros ? ? [-> ->]. set (s2 := mk_kstate (k_mem s1) (head s1) (heap_lock s1)
    (<[Z.to_nat cpu := mk_pagelist 0 1]> (cpupagelist s1))).
  apply (fault_bind _ _ _ (fun _ s' => s' = s2)).
  { by eapply wp_set_pagehead; [lia|exact Hls|]. }
  intros _ ? ->. apply (fault_bind _ _ _ (fun p s' => p = 0)); [|by intros ? ? ->].
  eapply wp_get_pagehead; [lia| |].
  - apply list_lookup_insert_eq. by eapply lookup_lt_Some.
  - done.
Qed.
End Small.

(** *** Huge requests and the whole of kalloc *)

(** The block and its header leave at least a node of the region they are taken from. *)
Definition huge_room (g : gstate) (sz : Z) : bool :=
  (best_fit sz (g_free g) 0 =? 0) || (sz + 32 <=? size_at (best_fit sz (g_free g) 0) (g_free g)).

(** What the code needs to do as [abs_alloc] says: memory for the first page of a processor,
    room for the header of a huge block. *)
Definition alloc_pre (g : gstate) (cpu size : Z) : Prop :=
  if size <=? 16 * 1024 then cpu_pages g cpu = [] -> take_page (g_free g) <> None
  else if size <=? 16 * 1024 * 1024 then huge_room g (rounded size) = true
  else True.

(** A small request of a processor without pages, when no free region holds a page. *)
Definition no_first_page (g : gstate) (cpu size : Z) : bool :=
  (size <=? 16 * 1024) && is_nil (cpu_pages g cpu) &&
  match take_page (g_free g) with Some _ => false | None => true end.

(** The half of the precondition that is about huge blocks. *)
Definition huge_pre (g : gstate) (size : Z) : Prop :=
  16 * 1024 < size <= 16 * 1024 * 1024 -> huge_room g (rounded size) = true.

Lemma huge_pre_alloc g cpu size : huge_pre g size -> no_first_page g cpu size = false -> alloc_pre g cpu size.
Proof.
  unfold huge_pre, no_first_page, alloc_pre. intros Hh Hf.
  destruct (Z.leb_spec size (16 * 1024)); simpl in Hf.
  - intros E. rewrite E in Hf. simpl in Hf. by destruct (take_page (g_free g)).
  - destruct (Z.leb_spec size (16 * 1024 * 1024)); [|done]. apply Hh. lia.
Qed.

Lemma no_first_page_spec g cpu size :
  no_first_page g cpu size = true <->
  size <= 16384 /\ cpu_pages g cpu = [] /\ forall r, r ∈ g_free g -> r.2 < PAGE.
Proof.
  unfold no_first_page. change (16 * 1024) with 16384. rewrite !andb_true_iff, Z.leb_le.
  assert (is_nil (cpu_pages g cpu) = true <-> cpu_pages g cpu = []) as -> by (by destruct (cpu_pages g cpu)).
  assert (match take_page (g_free g) with Some _ => false | None => true end = true <-> take_page (g_free g) = None) as ->
    by (by destruct (take_page (g_free g))).
  rewrite take_page_none, Forall_forall. tauto.
Qed.

(** The bytes [kalloc] clears: a small block. *)
Definition cleared (size : Z) : Z := if size <=? 16 * 1024 then rounded size else 0.

Section Kalloc.
Context (lo hi : Z) (fuel : nat) `{!Area lo hi fuel}.
Implicit Types (s : kstate) (g : gstate).

Lemma rounded_mod size : rounded size mod 16 = 0.
Proof.
  unfold rounded. apply Z.mod_divide; [lia|]. exists (2 ^ (Z.max 5 (Z.log2_up size) - 4)).
  change 16 with (2 ^ 4). rewrite <- Z.pow_add_r by lia. f_equal. lia.
Qed.

Lemma size_at_best s g sz :
  pmm_inv lo hi s g -> best_fit sz (g_free g) 0 <> 0 ->
  (best_fit sz (g_free g) 0, size_at (best_fit sz (g_free g) 0) (g_free g)) ∈ g_free g /\
  sz <= size_at (best_fit sz (g_free g) 0) (g_free g).
Proof.
  intros Hinv Hne. pose proof (pi_heap _ _ _ _ Hinv) as Hh.
  destruct (best_fit_spec sz (g_free g) 0) as (_ & [?|(n & Hn & Hs)] & _); [|lia|done|].
  { apply Forall_forall. intros r Hr. eapply node_list_pos; [apply Hh|done]. }
  by rewrite (size_at_member lo hi s _ _ n Hh Hn).
Qed.

Lemma huge_covers g a n k x : (a, n) ∈ g_free g -> 0 <= k <= n -> inr (a + n - k) k x -> covers (g_free g) x.
Proof. intros Hin Hk Hx. exists (a, n). split; [done|]. unfold inr in *; simpl; lia. Qed.

(** The heap after a huge allocation. *)
Lemma huge_layout s g sz :
  pmm_inv lo hi s g -> 0 < sz -> best_fit sz (g_free g) 0 <> 0 -> huge_room g sz = true ->
  let a := best_fit sz (g_free g) 0 in
  let ret := a + size_at a (g_free g) - sz in
  layout lo hi (carve a sz (g_free g) ++ (page_region <$> all_pages g) ++
    (ret - node_size, sz + node_size) :: g_huge g).
Proof.
  intros Hinv Hs Hne Hroom. cbn zeta. destruct (size_at_best _ _ _ Hinv Hne) as [Hin Hsz].
  unfold huge_room in Hroom. apply Z.eqb_neq in Hne. rewrite Hne in Hroom. simpl in Hroom.
  apply Z.leb_le in Hroom. set (a := best_fit sz (g_free g) 0) in *. set (n := size_at a (g_free g)) in *.
  clearbody a n. pose proof (pi_heap _ _ _ _ Hinv) as Hh. pose proof (pi_layout _ _ _ _ Hinv) as HL.
  unfold regions in HL. pose proof Hin as (l1 & l2 & E)%list_elem_of_split. rewrite E in Hh, HL |- *.
  pose proof (carve_layout _ _ _ _ _ _ _ _ _ Hh Hs Hroom HL) as HL'.
  eapply layout_proper; [|exact HL']. solve_Permutation.
Qed.

Lemma kallocHuge_spec s g sz :
  pmm_inv lo hi s g -> 0 < sz -> sz mod 16 = 0 -> huge_room g sz = true ->
  wp (kallocHugeMemory fuel sz) s (alloc_result lo hi s g 0 (alloc_huge g sz)).
Proof.
  intros Hinv Hs Hmod Hroom. destruct (area_bounds lo hi fuel) as [Hb1 Hb2].
  pose proof (ar_lo (lo := lo) (hi := hi) (fuel := fuel)).
  pose proof (heap_fuel _ _ fuel _ _ Hinv) as Hf. pose proof (pi_heap _ _ _ _ Hinv) as Hh.
  unfold alloc_huge. destruct (Z.eqb_spec (best_fit sz (g_free g) 0) 0) as [E0|Hne].
  - apply (kallocHuge_none lo hi fuel s (g_free g)); [done|apply Hinv|lia|lia|].
    apply best_fit_none; [|done]. apply Forall_forall. intros r Hr. eapply node_list_pos; [apply Hh|done].
  - pose proof (huge_layout _ _ _ Hinv Hs Hne Hroom) as HL. cbn zeta in HL.
    destruct (size_at_best _ _ _ Hinv Hne) as [Hin Hsz]. unfold huge_room in Hroom.
    pose proof Hne as Hne'. apply Z.eqb_neq in Hne'. rewrite Hne' in Hroom. apply Z.leb_le in Hroom.
    eapply wp_mono.
    { eapply (kallocHuge_some lo hi); [done..|exact Hh|apply Hinv|lia|done|done|reflexivity|exact Hin|exact Hroom]. }
    intros r s' (-> & Hh' & Hhdr & Ho & Hl & Hc). simpl. split; [done|].
    assert (same_on (owned g) (k_mem s) (k_mem s')) as Hown.
    { intros x Hx. apply Ho. intros Hx'. by eapply owned_not_free. }
    split; [|split; [done|split; [unfold inr; lia|by eapply free_heap]]].
    eapply (heap_step lo hi s s' g Hinv (covers (g_free g))); [exact Hh'|exact HL| | |exact Ho| |exact Hl|exact Hc].
    + constructor; [exact Hhdr|]. eapply huge_frame; [exact Hinv|exact Ho|done|].
      intros r x Hr Hx Hx'. eapply huge_not_free; [exact Hinv|exact Hr|exact Hx'|exact Hx].
    + constructor; [|apply Hinv]. simpl. unfold node_size. split; Z.div_mod_to_equations; lia.
    + intros pg x Hpg Hx Hx'. eapply page_not_free; [exact Hinv|exact Hpg|exact Hx'|exact Hx].
Qed.

(** Without memory for its first page, the first small allocation of a processor stops the
    kernel at the assertion of line 206 instead of returning NULL. *)
Lemma kalloc_asserts s g cpu_count cpu size :
  pmm_inv lo hi s g -> 0 <= cpu < 16 -> cpu <= cpu_count -> 0 <= size -> no_first_page g cpu size = true ->
  kalloc cpu_count cpu fuel size s = Fault AssertFail.
Proof.
  intros Hinv Hcpu Hcount Hs (Hle & Hnil & Hfl)%no_first_page_spec.
  assert (take_page (g_free g) = None) as Ht by (by apply take_page_none, Forall_forall).
  assert (forall sz, block_size sz -> kalloc_small cpu_count cpu fuel sz s = Fault AssertFail) as Hsmall.
  { intros sz Hsz. by apply (kalloc_first_fails lo hi fuel cpu_count cpu sz Hcpu Hcount s g). }
  unfold kalloc. destruct (Z.leb_spec size 32); [apply Hsmall, (rounded_block 32); lia|].
  destruct (Z.ltb_spec (16 * 1024) size); [lia|].
  pose proof (ar_fuel (lo := lo) (hi := hi) (fuel := fuel)). pose proof (ar_size (lo := lo) (hi := hi) (fuel := fuel)).
  eapply fault_bind; [apply (pow_loop_spec 9 fuel 5 size); [lia|lia|lia|change (2 ^ (5 + Z.of_nat 9)) with 16384; lia|by left]|].
  intros r s' [-> ->]. apply Hsmall, rounded_block. lia.
Qed.

Lemma kalloc_spec s g cpu_count cpu size :
  pmm_inv lo hi s g -> 0 <= cpu < 16 -> cpu <= cpu_count -> 0 <= size -> alloc_pre g cpu size ->
  wp (kalloc cpu_count cpu fuel size) s (alloc_result lo hi s g (cleared size) (abs_alloc g cpu size)).
Proof.
  intros Hinv Hcpu Hcount Hs Hpre. unfold kalloc, abs_alloc, alloc_pre, cleared in *.
  pose proof (ar_fuel (lo := lo) (hi := hi) (fuel := fuel)). pose proof (ar_size (lo := lo) (hi := hi) (fuel := fuel)).
  destruct (Z.leb_spec size 32) as [H32|H32].
  - destruct (Z.leb_spec size (16 * 1024)); [|lia].
    rewrite rounded_small by done. apply kalloc_small_spec; try done. apply (rounded_block 32). lia.
  - destruct (Z.ltb_spec (16 * 1024) size) as [Hb|Hb], (Z.leb_spec size (16 * 1024)); try lia.
    + destruct (Z.ltb_spec (16 * 1024 * 1024) size), (Z.leb_spec size (16 * 1024 * 1024)); try lia.
      * by apply wp_ret.
      * apply wp_bind. eapply wp_mono; [apply (pow_loop_spec 19 fuel 5 size); [lia|lia|lia|change (2 ^ (5 + Z.of_nat 19)) with 16777216; lia|by left]|].
        intros r s' [-> ->]. pose proof (rounded_ge size). apply kallocHuge_spec; [done|lia|apply rounded_mod|done].
    + apply wp_bind. eapply wp_mono; [apply (pow_loop_spec 9 fuel 5 size); [lia|lia|lia|change (2 ^ (5 + Z.of_nat 9)) with 16384; lia|by left]|].
      intros r s' [-> ->]. apply kalloc_small_spec; try done. apply rounded_block. lia.
Qed.
End Kalloc.

(** ** What an allocation gives the client *)

Section Client.
Context (lo hi : Z) (s : kstate) (g : gstate) (Hinv : pmm_inv lo hi s g).

(** The new block joins the blocks the clients hold; none of its bytes was a client's. *)
Definition gives (g' : gstate) (a n : Z) : Prop :=
  (forall r, live g' r <-> live g r \/ r = (a, n)) /\
  (forall x, inr a n x -> ~ owned g x) /\ lo <= a /\ a + n <= hi.

Lemma alloc_block_gives cpu sz a g' :
  0 <= cpu < 16 -> block_size sz -> alloc_block g cpu sz = Some (a, g') -> gives g' a sz.
Proof.
  intros Hcpu Hs. pose proof (block_size_pos _ Hs). pose proof (block_size_count _ Hs) as (Hc4 & _).
  pose proof (cpu_lookup _ _ _ _ Hinv cpu Hcpu) as Hi. pose proof (cpu_pages_ok _ _ _ _ Hinv cpu Hcpu) as Hp.
  unfold alloc_block. destruct (split_first (usable sz) _) as [[[l1 pg] l2]|] eqn:Eu;
    [|destruct (split_first sizeless _) as [[[l1 pg] l2]|] eqn:Ee;
      [|destruct (take_page (g_free g)) as [[b fl']|] eqn:Et; [|done]]]; intros [= <- <-].
  - apply split_first_some in Eu as (El & Hu & _). rewrite El in Hi, Hp. apply pages_ok_app in Hp as [Hok _].
    assert (pg ∈ all_pages g) as Hin by (eapply all_pages_in; [exact Hi|apply elem_of_middle]).
    destruct (page_bounds _ _ _ _ Hinv _ Hin). apply andb_true_iff in Hu as [Hz Hn]. apply Z.eqb_eq in Hz.
    destruct pg as [addr sz' l full]. simpl in *. subst sz'. destruct l as [|[c n] tl]; [done|].
    destruct (take_free _ _ _ _ _ _ _ _ Hok) as (_ & _ & Hf).
    destruct (free_blocks_node _ _ _ _ _ c n Hf) as (_ & ? & ? & ? & _); [by left|]. simpl.
    split; [intros r|split; [|lia]].
    + destruct (page_step_live lo hi s g _ _ _ _ (page_take (mk_page addr sz ((c, n) :: tl) full)) Hinv Hi r)
        as (P & -> & -> & _).
      rewrite (live_take _ _ _ _ _ _ _ r Hf). tauto.
    + intros x Hx. eapply owned_not_page; [exact Hinv|exact Hin|]. right. exists (c, n).
      split; [by left|]. unfold inr in *; simpl; lia.
  - apply split_first_some in Ee as (El & Hu & _). rewrite El in Hi. apply Z.eqb_eq in Hu.
    assert (pg ∈ all_pages g) as Hin by (eapply all_pages_in; [exact Hi|apply elem_of_middle]).
    destruct (page_bounds _ _ _ _ Hinv _ Hin). split; [intros r|split; [|lia]].
    + destruct (page_step_live lo hi s g _ _ _ _ (page_fresh (pg_addr pg) sz) Hinv Hi r) as (P & -> & -> & _).
      rewrite (live_fresh _ _ r Hs). assert (~ live_in pg r) by (intros [? _]; lia). tauto.
    + intros x Hx. eapply owned_not_empty; [exact Hinv|exact Hin|done|]. unfold inr in *; lia.
  - pose proof (ho_layout _ _ _ _ (pi_heap _ _ _ _ Hinv)) as HL.
    destruct (take_page_addr _ _ _ _ _ Et HL) as [Ha1 Ha2]. split; [intros r|split; [|lia]].
    + rewrite (new_page_live g _ _ (page_fresh b sz) fl' r Hi). by rewrite (live_fresh _ _ r Hs).
    + intros x Hx Hx'. eapply owned_not_free; [exact Hinv|exact Hx'|].
      eapply take_page_covers; [exact Et|]. unfold inr in *; lia.
Qed.

Lemma alloc_huge_gives sz a g' :
  0 < sz -> huge_room g sz = true -> alloc_huge g sz = Some (a, g') -> gives g' a sz.
Proof.
  intros Hs Hroom. unfold alloc_huge. destruct (Z.eqb_spec (best_fit sz (g_free g) 0) 0) as [|Hne]; [done|].
  intros [= <- <-]. destruct (size_at_best _ _ _ _ _ Hinv Hne) as [Hin Hsz]. unfold huge_room in Hroom.
  apply Z.eqb_neq in Hne. rewrite Hne in Hroom. apply Z.leb_le in Hroom.
  set (b := best_fit sz (g_free g) 0) in *. set (n := size_at b (g_free g)) in *.
  destruct (layout_bound _ _ _ _ (ho_layout _ _ _ _ (pi_heap _ _ _ _ Hinv)) Hin) as (? & _ & ?). simpl in *.
  split; [|split; [|lia]].
  - intros r. split.
    + intros [p Hp Hl|h k Hh ->]; [left; by eapply live_page|]. simpl in Hh.
      apply elem_of_cons in Hh as [[= -> ->]|Hh]; [right; f_equal; lia|left; by eapply live_huge].
    + intros [[p Hp Hl|h k Hh ->]| ->]; [by eapply live_page|eapply live_huge; [by right|done]|].
      eapply live_huge; [by left|]. f_equal; lia.
  - intros x Hx Hx'. eapply owned_not_free; [exact Hinv|exact Hx'|].
    eapply huge_covers; [exact Hin| |exact Hx]. lia.
Qed.

Lemma abs_alloc_gives cpu size a g' :
  0 <= cpu < 16 -> alloc_pre g cpu size -> abs_alloc g cpu size = Some (a, g') ->
  gives g' a (rounded size).
Proof.
  unfold alloc_pre, abs_alloc. intros Hcpu Hpre. pose proof (rounded_ge size).
  destruct (Z.leb_spec size (16 * 1024)); [apply alloc_block_gives; [done|]; by apply rounded_block|].
  destruct (Z.leb_spec size (16 * 1024 * 1024)); [apply alloc_huge_gives; [lia|done]|done].
Qed.
End Client.
