(* ===== verification/PmmFree.v ===== *)
(** * kfree: the abstract operation and its refinement

    [abs_free] is what [kfree] promises for a block a client holds; [kfree_spec] proves that
    the code computes it under [free_safe], the condition under which the page code does not
    take a page header for a free block. *)

From stdpp Require Import prelude.
From S2P Require Import Prelude Mem KString FreeList Kernel Heap Pmm PageSpec PageAlloc PageFree PmmInv PmmAlloc.

(** ** The abstract operation *)

(** The test of lines 322: the address is inside the page, after its first byte. *)
Definition contains (ptr : Z) (pg : page) : bool :=
  (pg_addr pg <? ptr) && (ptr <? pg_addr pg + PAGE).

(** The first page of the first processor that satisfies [P]. *)
Fixpoint find_in (P : page -> bool) (j : nat) (ll : list (list page)) :
    option (nat * (list page * page * list page)) :=
  match ll with
  | [] => None
  | l :: ll =>
      match split_first P l with
      | Some x => Some (j, x)
      | None => find_in P (S j) ll
      end
  end.

(** The huge block with that address, with the blocks before and after it. *)
Fixpoint split_huge (ptr : Z) (l : list region) : option (list region * region * list region) :=
  match l with
  | [] => None
  | r :: l =>
      if r.1 + node_size =? ptr then Some ([], r, l)
      else match split_huge ptr l with
           | Some (l1, r', l2) => Some (r :: l1, r', l2)
           | None => None
           end
  end.

Definition abs_free (g : gstate) (ptr : Z) : option gstate :=
  match find_in (contains ptr) 0 (g_pages g) with
  | Some (j, (l1, pg, l2)) => Some (set_pages g j (l1 ++ page_give pg ptr :: l2))
  | None =>
      match split_huge ptr (g_huge g) with
      | Some (l1, (h, k), l2) => Some (mk_g (give_back h k (g_free g)) (g_pages g) (l1 ++ l2))
      | None => None
      end
  end.

(** The block is not where the code takes a page header for a node: in a page that has been
    full, the block after the header, and a block right below the header of a page later in
    the list. *)
Definition header_safe (pg : page) (l2 : list page) (ptr : Z) : bool :=
  negb (pg_full pg) ||
  (negb (ptr =? pg_addr pg + pg_size pg) &&
   forallb (fun p => negb (pg_addr p =? ptr + pg_size pg)) l2).

Definition free_safe (g : gstate) (ptr : Z) : bool :=
  match find_in (contains ptr) 0 (g_pages g) with
  | Some (_, (_, pg, l2)) => header_safe pg l2 ptr
  | None => true
  end.

(** The code loses no node of the free list of the page. *)
Definition free_keeps (g : gstate) (ptr : Z) : bool :=
  match find_in (contains ptr) 0 (g_pages g) with
  | Some (_, (_, pg, _)) => keeps_all (pg_size pg) (pg_nodes pg) ptr
  | None => true
  end.

Lemma find_in_some P j0 ll j l1 pg l2 :
  find_in P j0 ll = Some (j, (l1, pg, l2)) ->
  (j0 <= j)%nat /\ ll !! (j - j0)%nat = Some (l1 ++ pg :: l2) /\ P pg = true.
Proof.
  revert j0. induction ll as [|l ll IH]; intros j0; simpl; [done|].
  destruct (split_first P l) as [[[l1' pg'] l2']|] eqn:E.
  - intros [= <- -> -> ->]. apply split_first_some in E as (-> & HP & _).
    split; [lia|]. by rewrite Nat.sub_diag.
  - intros H. destruct (IH _ H) as (Hle & Hl & HP). split; [lia|].
    split; [|done]. replace (j - j0)%nat with (S (j - S j0)) by lia. done.
Qed.

Lemma find_in_none P j0 ll : find_in P j0 ll = None <-> Forall (fun p => P p = false) (concat ll).
Proof.
  revert j0. induction ll as [|l ll IH]; intros j0; simpl; [done|]. rewrite Forall_app, <- split_first_none.
  destruct (split_first P l) as [x|] eqn:E; [split; [done|by intros [? _]]|].
  rewrite (IH (S j0)). tauto.
Qed.

Lemma split_huge_some ptr l l1 r l2 :
  split_huge ptr l = Some (l1, r, l2) -> l = l1 ++ r :: l2 /\ r.1 + node_size = ptr.
Proof.
  revert l1. induction l as [|p l IH]; simpl; intros l1; [done|].
  destruct (Z.eqb_spec (p.1 + node_size) ptr); [intros [= <- <- <-]; done|].
  destruct (split_huge ptr l) as [[[l1' r'] l2']|]; [|done]. intros [= <- -> ->].
  destruct (IH l1' eq_refl) as [-> ?]. done.
Qed.

Lemma split_huge_in ptr l h k : (h, k) ∈ l -> h + node_size = ptr -> split_huge ptr l <> None.
Proof.
  intros Hin E. induction l as [|p l IH]; [by apply elem_of_nil in Hin|]. simpl.
  destruct (Z.eqb_spec (p.1 + node_size) ptr); [done|].
  apply elem_of_cons in Hin as [<-|Hin]; [done|]. specialize (IH Hin).
  destruct (split_huge ptr l) as [[[l1' r'] l2']|]; done.
Qed.

(** ** The searches *)

Lemma find_owner_spec k l ptr s :
  pages_ok (k_mem s) l -> (length l < k)%nat ->
  wp (find_owner k (first_page l) ptr) s (fun r s' => r = found (contains ptr) l /\ s' = s).
Proof.
  revert k. induction l as [|pg l IH]; intros k Hl Hk; (destruct k as [|k]; simpl in Hk; [lia|]); simpl.
  - by apply wp_ret.
  - destruct Hl as [Hpg Hl]. pose proof (po_addr _ _ _ Hpg). destruct (Z.eqb_spec (pg_addr pg) 0); [lia|].
    change (64 * 1024) with PAGE. rewrite wrap_small by lia.
    rewrite found_cons. unfold contains at 1. destruct (_ && _).
    + by apply wp_ret.
    + k_steps. rewrite (po_next _ _ _ Hpg). apply IH; [done|lia].
Qed.

(** The address of the page, or NULL. *)
Definition owner (ll : list (list page)) (ptr : Z) : Z :=
  match find_in (contains ptr) 0 ll with Some (_, (_, pg, _)) => pg_addr pg | None => 0 end.

Lemma find_in_shift P j0 j1 ll :
  match find_in P j0 ll with Some (_, (_, pg, _)) => pg_addr pg | None => 0 end =
  match find_in P j1 ll with Some (_, (_, pg, _)) => pg_addr pg | None => 0 end.
Proof.
  revert j0 j1. induction ll as [|l ll IH]; intros j0 j1; simpl; [done|].
  destruct (split_first P l) as [[[l1 pg] l2]|]; [done|apply IH].
Qed.

Lemma find_owner_cpus_spec fuel n i ll ptr s :
  (forall j l, ll !! j = Some l -> exists lk,
    cpupagelist s !! (Z.to_nat i + j)%nat = Some (mk_pagelist (first_page l) lk) /\
    pages_ok (k_mem s) l /\ (length l < fuel)%nat) ->
  0 <= i -> (length ll = n)%nat ->
  wp (find_owner_cpus fuel n i ptr) s (fun r s' => r = owner ll ptr /\ s' = s).
Proof.
  revert i ll. induction n as [|n IH]; intros i ll Hll Hi Hn; destruct ll as [|l ll]; simpl in *;
    [by apply wp_ret|done|done|].
  - destruct (Hll 0%nat l eq_refl) as (lk & Hc & Hp & Hf). rewrite Nat.add_0_r in Hc.
    apply wp_bind. eapply wp_get_pagehead; [done|exact Hc|]. simpl. apply wp_bind.
    eapply wp_mono; [by apply find_owner_spec|]. intros r s' [-> ->].
    unfold owner. simpl. unfold found. destruct (split_first (contains ptr) l) as [[[l1 pg] l2]|] eqn:E.
    + apply split_first_some in E as (-> & _ & _). apply pages_ok_app in Hp as [Hpg _].
      pose proof (po_addr _ _ _ Hpg). destruct (Z.eqb_spec (pg_addr pg) 0); [lia|]. by apply wp_ret.
    + simpl. eapply wp_mono; [apply (IH (i + 1) ll)|].
      * intros j l' Hj. destruct (Hll (S j) l' Hj) as (lk' & Hc' & ?). exists lk'. split; [|done].
        rewrite <- Hc'. f_equal. lia.
      * lia.
      * lia.
      * intros r s' [-> ->]. split; [|done]. unfold owner. apply find_in_shift.
Qed.

(** ** What the page code relies on holds in the invariant *)

Lemma pages_node_list m l :
  pages_ok m l -> node_list m (first_page l) ((fun p => (pg_addr p, pg_size p)) <$> l) 0.
Proof.
  induction l as [|pg l IH]; [done|]. intros [[[? ?] En Es _ _] Hl]. rewrite fmap_cons. simpl.
  rewrite En. by auto.
Qed.

Section Page.
Context (lo hi : Z) (fuel : nat) `{!Area lo hi fuel}.
Context (s : kstate) (g : gstate) (Hinv : pmm_inv lo hi s g).
Context (j : nat) (l1 : list page) (pg : page) (l2 : list page).
Context (Hj : g_pages g !! j = Some (l1 ++ pg :: l2)).

(** The nodes a walk of the page's list visits after its own. *)
Definition walk_tail : list region :=
  if pg_full pg then (fun p => (pg_addr p, pg_size p)) <$> pg :: l2 else [].

Lemma the_pages_ok : pages_ok (k_mem s) (pg :: l2).
Proof.
  pose proof (pi_pages _ _ _ _ Hinv) as H. rewrite Forall_lookup in H.
  by apply H, pages_ok_app in Hj.
Qed.

Lemma the_page_in : pg ∈ all_pages g.
Proof. eapply all_pages_in; [exact Hj|apply elem_of_middle]. Qed.

Lemma later_page_far p : p ∈ l2 -> pg_addr p + PAGE <= pg_addr pg \/ pg_addr pg + PAGE <= pg_addr p.
Proof.
  intros Hp. destruct (step_others lo hi s g j l1 pg l2 Hinv Hj) as (rest & _ & H).
  destruct (H p); [apply elem_of_app; right; apply elem_of_app; by left|..]; unfold page_region in *; simpl in *; lia.
Qed.

Lemma tail_pages_spaced : pairwise spaced ((fun p => (pg_addr p, pg_size p)) <$> pg :: l2).
Proof.
  pose proof (pi_layout _ _ _ _ Hinv) as [_ HL]. unfold regions in HL.
  apply pairwise_app in HL as (_ & HL & _). apply pairwise_app in HL as (HL & _ & _).
  destruct (concat_insert _ _ _ Hj) as (rest & E & _). unfold all_pages in HL. rewrite E in HL.
  rewrite fmap_app in HL. apply pairwise_app in HL as (HL & _ & _).
  rewrite fmap_app in HL. apply pairwise_app in HL as (_ & HL & _).
  rewrite pairwise_fmap in HL. rewrite pairwise_fmap. eapply pairwise_impl; [|exact HL].
  intros x y _ _. unfold rdisj, spaced, page_region. simpl. lia.
Qed.

Lemma page_free_blocks ptr n :
  live_in pg (ptr, n) -> free_blocks (k_mem s) (pg_addr pg) (pg_size pg) (pg_nodes pg) (pg_full pg).
Proof.
  intros (H0 & _). pose proof the_pages_ok as [Hok _].
  destruct (po_free _ _ _ Hok) as [(E & _)|Hf]; [lia|done].
Qed.

Lemma page_free_ctx ptr :
  live_in pg (ptr, pg_size pg) -> header_safe pg l2 ptr = true ->
  free_ctx (k_mem s) (pg_addr pg) (pg_size pg) (pg_nodes pg) (pg_full pg) (first_page l2) walk_tail ptr.
Proof.
  intros Hlv Hsafe. pose proof the_pages_ok as Hp. pose proof (page_free_blocks _ _ Hlv) as Hf.
  pose proof tail_pages_spaced as Hsp. unfold walk_tail, header_safe in *.
  assert (forall r, r ∈ (fun p => (pg_addr p, pg_size p)) <$> pg :: l2 ->
    r.1 <= pg_addr pg \/ pg_addr pg + PAGE <= r.1) as Hfar.
  { intros r (p & -> & Hin)%list_elem_of_fmap. apply elem_of_cons in Hin as [->|Hin]; [simpl; lia|].
    destruct (later_page_far _ Hin); simpl; lia. }
  assert (pg = mk_page (pg_addr pg) (pg_size pg) (pg_nodes pg) (pg_full pg)) as Epg by (by destruct pg).
  split.
  - rewrite <- Epg. apply Hp.
  - by rewrite <- Epg.
  - destruct (pg_full pg); [|done]. by apply pages_node_list in Hp.
  - destruct (pg_full pg); [|done]. eexists. rewrite fmap_cons. done.
  - destruct (pg_full pg); [|rewrite app_nil_r; by eapply free_blocks_spaced].
    apply pairwise_app. split; [by eapply free_blocks_spaced|]. split; [done|].
    apply Forall_forall. intros [a n] Hr. apply Forall_forall. intros r Hr'. specialize (Hfar _ Hr').
    destruct (free_blocks_node _ _ _ _ _ _ _ Hf Hr) as (? & ? & ? & ? & _). unfold spaced. simpl.
    destruct (Z.eq_dec r.1 (pg_addr pg)); [lia|].
    apply list_elem_of_fmap in Hr' as (p & -> & Hin). simpl in *.
    apply elem_of_cons in Hin as [->|Hin]; [lia|]. destruct (later_page_far _ Hin); lia.
  - destruct (pg_full pg); [|by constructor]. apply Forall_forall. exact Hfar.
  - intros E. rewrite E in Hsafe. simpl in Hsafe. apply andb_true_iff in Hsafe as [Hs _].
    apply negb_true_iff, Z.eqb_neq in Hs. done.
  - destruct (pg_full pg); [|by constructor]. simpl in Hsafe. apply andb_true_iff in Hsafe as [Hs Hs'].
    rewrite fmap_cons. apply Forall_cons. destruct Hlv as (? & _ & _ & (? & _) & _). simpl in *.
    split; [lia|]. apply Forall_fmap, Forall_forall. intros p Hin. simpl.
    rewrite forallb_forall in Hs'. specialize (Hs' p ltac:(by apply list_elem_of_In)).
    apply negb_true_iff, Z.eqb_neq in Hs'. done.
Qed.
End Page.

(** ** The processors' lists *)

(** Processors that do not exist have no pages. *)
Definition cpus_used (g : gstate) (cpu_count : Z) : Prop :=
  forall j l, g_pages g !! j = Some l -> (Z.to_nat cpu_count <= j)%nat -> l = [].

Lemma find_in_app P j ll1 ll2 :
  Forall (eq []) ll2 -> find_in P j (ll1 ++ ll2) = find_in P j ll1.
Proof.
  intros H2. revert j. induction ll1 as [|l ll1 IH]; intros j; simpl.
  - clear -H2. revert j. induction H2 as [|l ll <- H2 IH]; intros j; simpl; [done|apply IH].
  - destruct (split_first P l); [done|apply IH].
Qed.

Lemma owner_take g n ptr :
  cpus_used g n -> owner (take (Z.to_nat n) (g_pages g)) ptr = owner (g_pages g) ptr.
Proof.
  intros Hu. unfold owner. rewrite <- (take_drop (Z.to_nat n) (g_pages g)) at 2.
  rewrite find_in_app; [done|]. apply Forall_lookup. intros j l Hj. rewrite lookup_drop in Hj.
  symmetry. eapply Hu; [exact Hj|lia].
Qed.

Section Kfree.
Context (lo hi : Z) (fuel : nat) `{!Area lo hi fuel}.
Context (s : kstate) (g : gstate) (Hinv : pmm_inv lo hi s g).

(** The page that holds a block of a client is the one the search finds. *)
Lemma live_page_found ptr n p :
  p ∈ all_pages g -> live_in p (ptr, n) ->
  exists j l1 l2, find_in (contains ptr) 0 (g_pages g) = Some (j, (l1, p, l2)) /\
    g_pages g !! j = Some (l1 ++ p :: l2) /\ n = pg_size p.
Proof.
  intros Hp Hl. pose proof Hl as (H0 & Hn & _ & (Hb & _ & Hb') & _). simpl in *.
  assert (contains ptr p = true) as Hc.
  { apply andb_true_iff. split; apply Z.ltb_lt; lia. }
  destruct (find_in (contains ptr) 0 (g_pages g)) as [[j [[l1 pg] l2]]|] eqn:E.
  - pose proof (find_in_some _ _ _ _ _ _ _ E) as (_ & Hj & Hc'). rewrite Nat.sub_0_r in Hj.
    apply andb_true_iff in Hc', Hc. rewrite !Z.ltb_lt in *.
    assert (pg ∈ all_pages g) as Hin by (eapply all_pages_in; [exact Hj|apply elem_of_middle]).
    assert (pg = p) as -> by (eapply (pages_same _ _ _ _ Hinv _ _ ptr); unfold inr; [done|done|lia|lia]).
    by exists j, l1, l2.
  - apply find_in_none in E. rewrite Forall_forall in E. rewrite E in Hc; [done|].
    unfold all_pages in Hp. done.
Qed.

Lemma live_huge_found ptr n h k :
  (h, k) ∈ g_huge g -> (ptr, n) = (h + node_size, k - node_size) ->
  find_in (contains ptr) 0 (g_pages g) = None /\
  exists l1 l2, split_huge ptr (g_huge g) = Some (l1, (h, k), l2) /\ g_huge g = l1 ++ (h, k) :: l2.
Proof.
  intros Hh [= -> ->]. destruct (huge_facts _ _ _ _ Hinv _ _ Hh) as (? & ? & ? & ?).
  assert (forall p, p ∈ all_pages g -> contains (h + node_size) p = false) as Hno.
  { intros p Hp. apply not_true_iff_false. intros Hc. apply andb_true_iff in Hc. rewrite !Z.ltb_lt in Hc.
    unfold node_size in *. eapply (huge_not_page _ _ _ _ Hinv _ p (h + 16) Hh); unfold inr; simpl; [lia|done|lia]. }
  split; [apply find_in_none, Forall_forall; exact Hno|].
  destruct (split_huge (h + node_size) (g_huge g)) as [[[l1 r] l2]|] eqn:E;
    [|by destruct (split_huge_in (h + node_size) (g_huge g) h k)].
  destruct (split_huge_some _ _ _ _ _ E) as [El Er]. exists l1, l2.
  assert (r = (h, k)) as ->; [|done]. eapply (regions_same _ _ _ _ Hinv _ _ h).
  - apply region_huge. rewrite El. apply elem_of_middle.
  - by apply region_huge.
  - destruct r as [h' k']. simpl in *.
    destruct (huge_facts _ _ _ _ Hinv h' k') as (? & _); [rewrite El; apply elem_of_middle|].
    unfold inr; simpl; lia.
  - unfold inr; simpl; lia.
Qed.

(** The bytes of the clients other than those of the block. *)
Definition others (ptr n x : Z) : Prop := owned g x /\ ~ inr ptr n x.

Context (cpu_count cpu : Z) (Hcpu : 0 <= cpu < cpu_count) (Hcount : cpu_count <= 16).
Context (Hused : cpus_used g cpu_count).

Abbreviation slot := (mk_pagelist (first_page (cpu_pages g cpu)) 1) (only parsing).

Lemma cpu_in : 0 <= cpu < 16.
Proof. lia. Qed.

(** The search of lines 315-333, under the lock. *)
Lemma wp_find_owner ptr :
  wp (find_owner_cpus fuel (Z.to_nat cpu_count) 0 ptr) (locked s g cpu) (fun r s' =>
    r = owner (g_pages g) ptr /\ s' = locked s g cpu).
Proof.
  rewrite <- (owner_take g cpu_count) by done. apply find_owner_cpus_spec; [|lia|].
  - intros j l Hj. apply lookup_take_Some in Hj as [Hj Hlt]. simpl (Z.to_nat 0 + j)%nat.
    assert (cpupagelist s !! j = Some (mk_pagelist (first_page l) 0)) as Hs.
    { by rewrite (pi_cpus _ _ _ _ Hinv), list_lookup_fmap, Hj. }
    pose proof (pi_pages _ _ _ _ Hinv) as HP. rewrite Forall_lookup in HP.
    pose proof (pages_fuel _ _ fuel _ _ Hinv l ltac:(by eapply list_elem_of_lookup_2)).
    destruct (decide (j = Z.to_nat cpu)) as [->|Hne].
    + exists 1. split; [|split; [by eapply HP|lia]]. unfold locked. simpl.
      rewrite list_lookup_insert_eq by (by eapply lookup_lt_Some).
      unfold cpu_pages. by rewrite Hj.
    + exists 0. split; [|split; [by eapply HP|lia]]. unfold locked. simpl.
      by rewrite list_lookup_insert_ne by done.
  - rewrite length_take, (pi_len _ _ _ _ Hinv). lia.
Qed.

(** Lines 335-416. *)
Lemma kfree_page_global ptr n p :
  p ∈ all_pages g -> live_in p (ptr, n) -> free_safe g ptr = true ->
  wp (_ ← kfree_page fuel (owner (g_pages g) ptr) ptr; unlock (CpuLock cpu)) (locked s g cpu)
    (fun _ s' => exists g', abs_free g ptr = Some g' /\ pmm_inv lo hi s' g' /\
      same_on (others ptr n) (k_mem s) (k_mem s') /\ only_in (inr lo (hi - lo)) (k_mem s) (k_mem s')).
Proof.
  intros Hp Hl Hsafe. destruct (live_page_found _ _ _ Hp Hl) as (j & l1 & l2 & Ef & Hj & ->).
  unfold free_safe in Hsafe. unfold owner, abs_free. rewrite Ef in *.
  pose proof (page_free_ctx lo hi s g Hinv j l1 p l2 Hj ptr Hl Hsafe) as Hctx.
  pose proof (walk_fuel _ _ fuel _ _ Hinv _ p (list_elem_of_lookup_2 _ _ _ Hj) (elem_of_middle _ _ _)) as Hf.
  apply wp_bind. eapply wp_mono.
  { eapply (kfree_page_spec (locked s g cpu)); [exact Hctx|].
    unfold walk_tail. rewrite length_app. rewrite length_app in Hf. simpl in Hf.
    destruct (pg_full p); [rewrite length_fmap; simpl; lia|simpl; lia]. }
  intros _ s1 (Hok & Ho & E).
  replace (mk_page (pg_addr p) (pg_size p) (pg_nodes p) (pg_full p)) with p in * by (by destruct p).
  assert (cpupagelist s1 !! Z.to_nat cpu = Some slot) as Hs1.
  { rewrite E. exact (locked_slot lo hi s g Hinv cpu cpu_in). }
  eapply wp_unlock_cpu; [lia|exact Hs1|]. simpl. eexists. split; [done|].
  pose proof (released_locked lo hi s g Hinv cpu cpu_in (k_mem s1)) as Er. unfold released in Er. simpl in Er.
  rewrite E in Er |- *. simpl in Er |- *. rewrite Er. pose proof Hl as (H0 & _ & _ & (Hb1 & _ & Hb2) & _). simpl in Hb1, Hb2.
  destruct (all_pages_ok _ _ _ _ Hinv _ Hp) as [nx Hokp].
  assert (only_in (inr (pg_addr p) PAGE) (k_mem s) (k_mem s1)) as Ho1.
  { eapply only_in_weaken; [exact Ho|]. intros x [Hx|Hx]; [by eapply page_own_inside|]. unfold inr in *; lia. }
  split; [|split; [|by eapply page_heap]].
  - eapply (page_step lo hi s _ g j l1 p l2 (page_give p ptr)); [exact Hinv|exact Hj| |exact Hok|exact Ho1|done].
    unfold page_give. by destruct (existsb _ _).
  - intros x [Hx Hn]. apply Ho. intros [Hx'|Hx']; [|done].
    eapply owned_not_page; [exact Hinv|exact Hp|exact Hx'|exact Hx].
Qed.

(** Lines 417-489. *)
Lemma kfree_huge_global ptr n h k :
  (h, k) ∈ g_huge g -> (ptr, n) = (h + node_size, k - node_size) ->
  wp (kfree_huge fuel ptr) s
    (fun _ s' => exists g', abs_free g ptr = Some g' /\ pmm_inv lo hi s' g' /\
      same_on (others ptr n) (k_mem s) (k_mem s') /\ only_in (inr lo (hi - lo)) (k_mem s) (k_mem s')).
Proof.
  intros Hh Er. destruct (live_huge_found _ _ _ _ Hh Er) as (Ef & l1 & l2 & Es & El).
  unfold abs_free. rewrite Ef, Es. injection Er as -> ->.
  destruct (huge_facts _ _ _ _ Hinv _ _ Hh) as (Hk & Hmod & Hlo & Hhi).
  destruct (area_bounds lo hi fuel) as [Hb1 Hb2]. pose proof (ar_lo (lo := lo) (hi := hi) (fuel := fuel)).
  pose proof (heap_fuel _ _ fuel _ _ Hinv) as Hf.
  pose proof (pi_layout _ _ _ _ Hinv) as HL. unfold regions in HL. rewrite El in HL.
  assert (layout lo hi ((h, k) :: g_free g ++ (page_region <$> all_pages g) ++ l1 ++ l2)) as HL2.
  { eapply layout_proper; [|exact HL]. solve_Permutation. }
  assert (pending lo hi s (g_free g) h k) as Hp.
  { split; [apply Hinv|]. split; [|done]. rewrite app_comm_cons in HL2. by apply layout_app_l in HL2. }
  pose proof (pi_huge _ _ _ _ Hinv) as HH. rewrite Forall_forall in HH.
  eapply wp_mono.
  { eapply (kfree_huge_spec lo hi); [done..|exact Hp|apply HH; exact Hh|apply Hinv|lia]. }
  intros _ s' (Hok & Ho & Hl & Hc). eexists. split; [done|].
  assert (forall r, r ∈ l1 ++ l2 -> r ∈ g_huge g) as Hsub.
  { intros r Hr. rewrite El. apply elem_of_app in Hr as [?|?]; apply elem_of_app; [by left|right; by right]. }
  assert (forall r x, r ∈ l1 ++ l2 -> inr r.1 r.2 x -> ~ inr h k x) as Hoth.
  { intros r x Hr Hx Hx'. apply layout_cons in HL2 as (_ & HL2 & _). rewrite Forall_forall in HL2.
    destruct (HL2 r); [rewrite !elem_of_app in *; tauto|unfold inr in *; simpl in *; lia..]. }
  split; [|split; [|eapply only_in_weaken; [exact Ho|]; intros x [Hx|(r & Hr & Hx)]%covers_cons]].
  - eapply (heap_step lo hi s s' g Hinv (covers ((h, k) :: g_free g))); [exact Hok| | | |exact Ho| |exact Hl|exact Hc].
    + eapply give_back_layout; [done..|exact Hp|exact HL2].
    + eapply huge_frame; [exact Hinv|exact Ho|exact Hsub|]. intros r x Hr [Hx|Hx]%covers_cons Hx'.
      * by eapply Hoth.
      * eapply huge_not_free; [exact Hinv|by apply Hsub|exact Hx'|exact Hx].
    + pose proof (pi_hsize _ _ _ _ Hinv) as Hs. rewrite Forall_forall in *. auto.
    + intros pg x Hpg [Hx|Hx]%covers_cons Hx'.
      * eapply huge_not_page; [exact Hinv|exact Hh|exact Hx|exact Hpg|exact Hx'].
      * eapply page_not_free; [exact Hinv|exact Hpg|exact Hx'|exact Hx].
  - intros x [Hx Hn]. apply Ho. intros [Hx'|Hx']%covers_cons; [|by eapply owned_not_free].
    destruct Hx as (r & Hr & Hx). simpl in Hx'. destruct Hr as [p Hp' Hl'|h' k' Hh' ->].
    + eapply huge_not_page; [exact Hinv|exact Hh|exact Hx'|exact Hp'|by eapply live_inside].
    + destruct (huge_facts _ _ _ _ Hinv _ _ Hh') as (? & _). unfold node_size in *. simpl in *.
      assert ((h, k) = (h', k')) as [= <- <-]; [|by apply Hn].
      eapply (regions_same _ _ _ _ Hinv _ _ x); [by apply region_huge|by apply region_huge|done|].
      unfold inr in *; simpl in *; lia.
  - unfold inr in *; simpl in *; lia.
  - eapply covers_regions; [exact Hinv|]. exists r. split; [by apply region_free|done].
Qed.

(** [kfree] of a block a client holds. *)
Lemma kfree_spec ptr n :
  live g (ptr, n) -> free_safe g ptr = true ->
  wp (kfree cpu_count cpu fuel ptr) s
    (fun _ s' => exists g', abs_free g ptr = Some g' /\ pmm_inv lo hi s' g' /\
      same_on (others ptr n) (k_mem s) (k_mem s') /\ only_in (inr lo (hi - lo)) (k_mem s) (k_mem s')).
Proof.
  intros Hl Hsafe. pose proof (ar_lo (lo := lo) (hi := hi) (fuel := fuel)).
  pose proof (ar_fuel (lo := lo) (hi := hi) (fuel := fuel)). pose proof (ar_size (lo := lo) (hi := hi) (fuel := fuel)).
  pose proof (cpu_lookup_slot lo hi s g Hinv cpu cpu_in) as Hslot.
  unfold kfree. apply wp_bind, wp_assert.
  { apply negb_true_iff, Z.eqb_neq. destruct Hl as [p Hp Hl|h k Hh E].
    - destruct (page_bounds _ _ _ _ Hinv _ Hp). destruct Hl as (? & _ & _ & (? & _) & _). simpl in *. lia.
    - destruct (huge_facts _ _ _ _ Hinv _ _ Hh). injection E as -> ->. unfold node_size. lia. }
  apply wp_bind. eapply wp_lock_cpu; [lia|lia|exact Hslot|done|]. simpl pagehead. fold (locked s g cpu).
  apply wp_bind. eapply wp_mono; [apply wp_find_owner|]. intros r s' [-> ->].
  destruct Hl as [p Hp Hl|h k Hh E].
  - destruct (live_page_found _ _ _ Hp Hl) as (j & l1 & l2 & Ef & _). pose proof (page_bounds _ _ _ _ Hinv _ Hp).
    assert (owner (g_pages g) ptr = pg_addr p) as Eo by (unfold owner; by rewrite Ef). rewrite Eo.
    destruct (Z.eqb_spec (pg_addr p) 0); [lia|]. simpl. rewrite <- Eo. by eapply kfree_page_global.
  - destruct (live_huge_found _ _ _ _ Hh E) as (Ef & _).
    assert (owner (g_pages g) ptr = 0) as -> by (unfold owner; by rewrite Ef). simpl.
    apply wp_bind. eapply wp_unlock_cpu; [lia|exact (locked_slot lo hi s g Hinv cpu cpu_in)|].
    pose proof (released_locked lo hi s g Hinv cpu cpu_in (k_mem s)) as Er. unfold released in Er. simpl in Er.
    simpl. rewrite Er.
    replace (mk_kstate (k_mem s) (head s) (heap_lock s) (cpupagelist s)) with s by (by destruct s).
    by eapply kfree_huge_global.
Qed.

(** The client loses the block, and nothing else, when no node is lost. *)
Lemma abs_free_live ptr n g' :
  live g (ptr, n) -> free_keeps g ptr = true -> abs_free g ptr = Some g' ->
  forall r, live g' r <-> live g r /\ r <> (ptr, n).
Proof.
  intros Hl Hk Hg r. pose proof Hl as Hl0. destruct Hl as [p Hp Hl|h k Hh E].
  - destruct (live_page_found _ _ _ Hp Hl) as (j & l1 & l2 & Ef & Hj & ->).
    unfold free_keeps, abs_free in *. rewrite Ef in *. injection Hg as <-.
    pose proof (page_free_blocks lo hi s g Hinv j l1 p l2 Hj _ _ Hl) as Hf.
    destruct (page_step_live lo hi s g j l1 p l2 (page_give p ptr) Hinv Hj r) as (P & -> & -> & HP).
    destruct p as [addr sz l full]. simpl in *. rewrite (live_give _ _ _ _ _ _ Hf Hl r Hk).
    split; [|tauto]. intros [[? ?]|HP']; [tauto|]. split; [by right|]. intros ->. by apply HP.
  - destruct (live_huge_found _ _ _ _ Hh E) as (Ef & l1 & l2 & Es & El).
    unfold abs_free in Hg. rewrite Ef, Es in Hg. injection Hg as <-. injection E as -> ->.
    destruct (huge_facts _ _ _ _ Hinv _ _ Hh) as (? & ? & ? & ?).
    pose proof (pi_layout _ _ _ _ Hinv) as HL. unfold regions in HL. rewrite El in HL.
    apply layout_app_r, layout_app_r in HL. rewrite <- Permutation_middle in HL.
    apply layout_cons in HL as (_ & HL & _). rewrite Forall_forall in HL. split.
    + intros [p Hp Hl|h' k' Hh' ->].
      * split; [by eapply live_page|]. intros ->.
        eapply (huge_not_page _ _ _ _ Hinv (h, k) p (h + node_size) Hh); [|exact Hp|eapply live_inside; [exact Hl|]];
          unfold node_size, inr; simpl; lia.
      * simpl in Hh'. pose proof (HL _ Hh') as Hd. split.
        { eapply live_huge; [|done]. rewrite El. apply elem_of_app in Hh' as [?|?]; apply elem_of_app; [by left|right; by right]. }
        intros [= ? ?]. unfold rdisj in Hd. simpl in Hd. lia.
    + intros [[p Hp Hl|h' k' Hh' ->] Hne]; [by eapply live_page|]. eapply live_huge; [|done]. simpl.
      rewrite El in Hh'. apply elem_of_app in Hh' as [?|[[= -> ->]|?]%elem_of_cons]; [apply elem_of_app; by left|done|apply elem_of_app; by right].
Qed.
End Kfree.
