(* ===== verification/PmmSystem.v ===== *)
(** * The allocator in use: initialisation, clients, and what holds in every reachable state

    The clients of the allocator are processors that call [kalloc] and [kfree] one operation
    at a time (each operation holds its lock from the first access to the last) and write to
    the blocks they hold. The theorems of this file are the contract of kernel/src/pmm.c. *)

From stdpp Require Import prelude.
From S2P Require Import Prelude Mem KString FreeList Kernel Heap Pmm PageSpec PageAlloc PageFree PmmInv PmmAlloc PmmFree.

(** ** Initialisation *)

(** The globals before [pmm_init]: C clears [cpupagelist]. *)
Definition boot_state (m : mem) (h hl : Z) : kstate :=
  mk_kstate m h hl (replicate 16 (mk_pagelist 0 0)).

Definition init_gstate (heap_start heap_end : Z) : gstate :=
  mk_g [(heap_start, heap_end - heap_start)] (replicate 16 []) [].

Lemma init_cpus_spec n i s :
  cpupagelist s = replicate 16 (mk_pagelist 0 0) -> 0 <= i -> i + Z.of_nat n <= 16 ->
  wp (init_cpus n i) s (fun _ s' => s' = s).
Proof.
  revert i. induction n as [|n IH]; intros i Hc Hi Hn; cbn [init_cpus]; [by apply wp_ret|].
  assert (cpupagelist s !! Z.to_nat i = Some (mk_pagelist 0 0)) as Hl.
  { rewrite Hc. apply lookup_replicate_2. lia. }
  assert (mk_kstate (k_mem s) (head s) (heap_lock s) (<[Z.to_nat i := mk_pagelist 0 0]> (cpupagelist s)) = s) as E.
  { rewrite list_insert_id by done. by destruct s. }
  apply wp_bind. eapply wp_set_pagehead; [done|exact Hl|]. simpl. rewrite E.
  apply wp_bind. unfold lockinit, write_lock. apply wp_bind. eapply wp_cpu_slot; [done|exact Hl|].
  unfold set_cpu_slot. k_steps. change YES with 0. rewrite E. apply IH; [done|lia..].
Qed.

Section Init.
Context (lo hi : Z) (fuel : nat) `{!Area lo hi fuel}.
Context (cpu_count : Z) (Hcount : 0 <= cpu_count <= 16).

Lemma pmm_init_spec m h hl :
  sized (lo, hi - lo) ->
  wp (pmm_init cpu_count lo hi) (boot_state m h hl) (fun _ s' =>
    pmm_inv lo hi s' (init_gstate lo hi) /\ cpus_used (init_gstate lo hi) cpu_count /\
    only_in (inr lo 16) m (k_mem s')).
Proof.
  intros [Hs1 Hs2]. simpl in Hs1, Hs2. pose proof (ar_lo (lo := lo) (hi := hi) (fuel := fuel)).
  pose proof (ar_hi (lo := lo) (hi := hi) (fuel := fuel)). pose proof (ar_size (lo := lo) (hi := hi) (fuel := fuel)).
  unfold pmm_init. k_steps. { apply negb_true_iff, Z.eqb_neq. lia. }
  eapply wp_mono; [by apply init_cpus_spec; [|lia|lia]|]. intros _ s' ->.
  unfold lockinit, write_lock. k_steps. set (m' := store64 _ _ _).
  assert (node_list m' lo [(lo, hi - lo)] 0) as Hn.
  { simpl. unfold m'. mem_simpl. rewrite signed_small by lia. by split_and!. }
  split; [|split].
  - split; simpl.
    + split; [exact Hn|by constructor|]. apply layout_cons. simpl. unfold rbound. simpl.
      split; [lia|]. split; [constructor|]. split; [constructor|done].
    + done.
    + done.
    + done.
    + repeat (constructor; [done|]). constructor.
    + constructor.
    + constructor.
    + unfold regions, all_pages. simpl. split; [|done]. constructor; [|done]. unfold rbound. simpl. lia.
  - intros j l Hl _. unfold init_gstate in Hl. cbn [g_pages] in Hl.
    by apply lookup_replicate_1 in Hl as [-> _].
  - unfold m'. repeat apply only_in_store; [done|unfold inr; simpl; lia..].
Qed.
End Init.

(** ** Clients *)

Section System.
Context (lo hi : Z) (fuel : nat) `{!Area lo hi fuel}.
Context (cpu_count : Z) (Hcount : 0 <= cpu_count <= 16).

(** The allocator, with its abstract state, and the blocks in the hands of its clients: the
    address each [kalloc] returned, with the rounded size of the request. *)
Record system : Type := mk_sys { y_state : kstate; y_abs : gstate; y_held : list region }.

(** One operation of a client. What a client holds is what [kalloc] returned to it: a client
    frees blocks it holds, and writes to them. The contract of the allocator excludes three
    kinds of calls, and they are no steps: a huge request that leaves no room for the header of
    its block ([huge_pre]), and a free that takes a page header for a free block ([free_safe])
    or loses free blocks ([free_keeps]). A call that fails an assertion stops the kernel and is
    no step either. *)
Inductive client_step : system -> system -> Prop :=
| client_alloc s g held cpu size r s' :
    0 <= cpu < cpu_count -> 0 <= size -> huge_pre g size ->
    kalloc cpu_count cpu fuel size s = Done r s' ->
    client_step (mk_sys s g held)
      (mk_sys s' (default g (snd <$> abs_alloc g cpu size)) (if r =? 0 then held else (r, rounded size) :: held))
| client_free s g held held' cpu ptr n s' g' :
    0 <= cpu < cpu_count -> held ≡ₚ (ptr, n) :: held' -> free_safe g ptr = true -> free_keeps g ptr = true ->
    kfree cpu_count cpu fuel ptr s = Done tt s' -> abs_free g ptr = Some g' ->
    client_step (mk_sys s g held) (mk_sys s' g' held')
| client_write s g held m' :
    only_in (covers held) (k_mem s) m' ->
    client_step (mk_sys s g held) (mk_sys (mk_kstate m' (head s) (heap_lock s) (cpupagelist s)) g held).

(** The states of a kernel that booted with a heap at [lo, hi). *)
Inductive reachable : system -> Prop :=
| reach_init m h hl s :
    sized (lo, hi - lo) -> pmm_init cpu_count lo hi (boot_state m h hl) = Done tt s ->
    reachable (mk_sys s (init_gstate lo hi) [])
| reach_step c c' : reachable c -> client_step c c' -> reachable c'.

(** The clients hold the live blocks of the abstract state, each once. *)
Record sys_inv (y : system) : Prop := {
  si_inv : pmm_inv lo hi (y_state y) (y_abs y);
  si_used : cpus_used (y_abs y) cpu_count;
  si_held : forall r, live (y_abs y) r <-> r ∈ y_held y;
  si_once : NoDup (y_held y);
}.

(** The bytes the allocator works with: the free regions with their nodes, the headers and
    the free lists of the pages, and the headers of the huge blocks. *)
Definition metadata (g : gstate) (x : Z) : Prop :=
  covers (g_free g) x \/ (exists pg, pg ∈ all_pages g /\ page_own pg x) \/
  exists h k, (h, k) ∈ g_huge g /\ inr h node_size x.

(** Nobody holds a lock. *)
Definition unlocked (s : kstate) : Prop :=
  heap_lock s = 0 /\ Forall (fun pl => pl_lock pl = 0) (cpupagelist s).

(** *** Each operation preserves the invariant *)

Lemma cpus_used_set g i l :
  cpus_used g cpu_count -> (i < Z.to_nat cpu_count)%nat ->
  forall g', g_pages g' = <[i := l]> (g_pages g) -> cpus_used g' cpu_count.
Proof.
  intros Hu Hi g' E j l' Hj Hle. rewrite E, list_lookup_insert_ne in Hj by lia. by eapply Hu.
Qed.

Lemma cpus_used_alloc g cpu size :
  0 <= cpu < cpu_count -> cpus_used g cpu_count ->
  cpus_used (default g (snd <$> abs_alloc g cpu size)) cpu_count.
Proof.
  intros Hcpu Hu. unfold abs_alloc, alloc_block, alloc_huge.
  repeat case_match; simplify_eq/=; try done; (eapply cpus_used_set; [exact Hu| |done]); lia.
Qed.

Lemma cpus_used_free g ptr g' :
  cpus_used g cpu_count -> abs_free g ptr = Some g' -> cpus_used g' cpu_count.
Proof.
  intros Hu. unfold abs_free.
  destruct (find_in (contains ptr) 0 (g_pages g)) as [[j [[l1 pg] l2]]|] eqn:E.
  - intros [= <-]. apply find_in_some in E as (_ & Hj & _). rewrite Nat.sub_0_r in Hj.
    destruct (decide (j < Z.to_nat cpu_count)%nat) as [Hlt|Hge].
    + eapply cpus_used_set; [exact Hu|exact Hlt|done].
    + specialize (Hu _ _ Hj ltac:(lia)). by destruct l1.
  - by destruct (split_huge ptr (g_huge g)) as [[[l1 [h k]] l2]|]; intros; simplify_eq.
Qed.

(** A client that writes to blocks it holds disturbs nothing. *)
Lemma write_inv s g m' :
  pmm_inv lo hi s g -> only_in (owned g) (k_mem s) m' ->
  pmm_inv lo hi (mk_kstate m' (head s) (heap_lock s) (cpupagelist s)) g.
Proof.
  intros Hinv Ho. destruct (pi_heap _ _ _ _ Hinv) as [Hl Hs HL]. split; simpl; try apply Hinv.
  - split; [|done|done]. eapply node_list_frame; [|exact Hl]. eapply only_in_same_on; [exact Ho|].
    intros x Hx Hx'. eapply owned_not_free; [exact Hinv|exact Hx'|by apply in_nodes_covers].
  - pose proof (pi_pages _ _ _ _ Hinv) as HP. rewrite Forall_lookup in *. intros j l Hj.
    eapply pages_ok_frame; [|by eapply HP]. intros pg Hpg. eapply only_in_same_on; [exact Ho|].
    intros x Hx. eapply owned_not_page; [exact Hinv| |exact Hx]. by eapply all_pages_in.
  - pose proof (pi_huge _ _ _ _ Hinv) as HH. rewrite Forall_forall in *. intros [h k] Hr.
    destruct (HH _ Hr) as [H1 H2].
    assert (same_on (inr h 16) (k_mem s) m') as Hf.
    { eapply only_in_same_on; [exact Ho|]. intros x. by eapply owned_not_header. }
    unfold huge_hdr in *. simpl in *. rewrite <- H1, <- H2. unfold loadi32.
    split; f_equal; (eapply same_on_load; [exact Hf|unfold inr; simpl; lia]).
Qed.

Lemma owned_not_metadata s g x : pmm_inv lo hi s g -> owned g x -> ~ metadata g x.
Proof.
  intros Hinv Hx [Hm|[(pg & Hpg & Hm)|(h & k & Hh & Hm)]].
  - by eapply owned_not_free.
  - by eapply owned_not_page.
  - by eapply owned_not_header.
Qed.

Lemma inv_unlocked s g : pmm_inv lo hi s g -> unlocked s.
Proof.
  intros Hinv. split; [apply (pi_lock _ _ _ _ Hinv)|]. rewrite (pi_cpus _ _ _ _ Hinv).
  apply Forall_fmap, Forall_forall. done.
Qed.

Lemma live_facts s g r : pmm_inv lo hi s g -> live g r -> lo <= r.1 /\ 0 < r.2 /\ r.1 + r.2 <= hi.
Proof.
  intros Hinv [p Hp Hl|h k Hh ->].
  - destruct (page_bounds _ _ _ _ Hinv _ Hp). destruct Hl as (? & _ & _ & (? & ? & ?) & _). lia.
  - destruct (huge_facts _ _ _ _ Hinv _ _ Hh). unfold node_size. simpl. lia.
Qed.

(** What [kalloc] returns, to a client that holds the live blocks. *)
Lemma alloc_held s g cpu size r s' held :
  pmm_inv lo hi s g -> 0 <= cpu < cpu_count -> 0 <= size -> huge_pre g size ->
  (forall b, live g b <-> b ∈ held) -> NoDup held -> kalloc cpu_count cpu fuel size s = Done r s' ->
  let g' := default g (snd <$> abs_alloc g cpu size) in
  let held' := if r =? 0 then held else (r, rounded size) :: held in
  pmm_inv lo hi s' g' /\ (forall b, live g' b <-> b ∈ held') /\ NoDup held'.
Proof.
  intros Hinv Hcpu Hs Hpre Hheld Hnd E. destruct (no_first_page g cpu size) eqn:Ef.
  { by rewrite (kalloc_asserts lo hi fuel s g cpu_count cpu size Hinv) in E by (done || lia). }
  apply huge_pre_alloc with (cpu := cpu) in Hpre; [|done].
  pose proof (kalloc_spec lo hi fuel s g cpu_count cpu size Hinv ltac:(lia) ltac:(lia) Hs Hpre) as H.
  apply wp_done in H as (r' & s1 & E1 & H). rewrite E in E1. injection E1 as <- <-.
  unfold alloc_result in H. destruct (abs_alloc g cpu size) as [[a g']|] eqn:Ea; [|by destruct H as [-> ->]].
  destruct H as (-> & Hinv' & _). destruct (abs_alloc_gives lo hi s g Hinv cpu size a g') as (Hl & Hf & Hb);
    [lia|done|done|]. pose proof (ar_lo (lo := lo) (hi := hi) (fuel := fuel)). simpl.
  destruct (Z.eqb_spec a 0); [lia|]. split; [done|]. split.
  - intros b. rewrite Hl, elem_of_cons, Hheld. tauto.
  - constructor; [|done]. rewrite <- Hheld. intros Hlive. pose proof (rounded_ge size).
    apply (Hf a); [unfold inr; simpl; lia|]. exists (a, rounded size). split; [done|]. unfold inr. simpl. lia.
Qed.

Lemma step_inv c c' : sys_inv c -> client_step c c' -> sys_inv c'.
Proof.
  intros [Hinv Hu Hheld Hnd] Hst.
  destruct Hst as [s g held cpu size r s' Hcpu Hs Hpre E|s g held held' cpu ptr n s' g' Hcpu Hp Hsafe Hk E Hg|s g held m' Ho];
    simpl in *.
  - destruct (alloc_held s g cpu size r s' held Hinv Hcpu Hs Hpre Hheld Hnd E) as (H1 & H2 & H3).
    split; [done|by apply cpus_used_alloc|done|done].
  - assert (live g (ptr, n)) as Hl by (rewrite Hheld, Hp; by left).
    pose proof (kfree_spec lo hi fuel s g Hinv cpu_count cpu ltac:(lia) ltac:(lia) Hu ptr n Hl Hsafe) as H.
    apply wp_done in H as (r' & s1 & E1 & g1 & Eg & H & _). rewrite E in E1. injection E1 as _ <-.
    rewrite Hg in Eg. injection Eg as <-. rewrite Hp in Hnd. apply NoDup_cons in Hnd as [Hnew Hnd].
    split; simpl; [done|by eapply cpus_used_free| |done].
    intros b. assert (live g' b <-> live g b /\ b <> (ptr, n)) as -> by (by eapply (abs_free_live lo hi s g Hinv)).
    rewrite Hheld, Hp, elem_of_cons.
    split; [by intros [[-> |?] ?]|]. intros Hb. split; [by right|]. by intros ->.
  - split; simpl; [|done..]. apply write_inv; [done|]. eapply only_in_weaken; [exact Ho|].
    intros x (b & Hb & Hx). exists b. by rewrite Hheld.
Qed.

Lemma reachable_inv c : reachable c -> sys_inv c.
Proof.
  induction 1 as [m h hl s Hs E|c c' Hr IH Hst]; [|by eapply step_inv].
  pose proof (pmm_init_spec lo hi fuel cpu_count Hcount m h hl Hs) as H.
  apply wp_done in H as (? & s1 & E1 & H1 & H2 & _). rewrite E in E1. injection E1 as <- <-.
  split; simpl; [done|done| |constructor]. intros r. split; [|by intros ?%elem_of_nil].
  intros [pg Hpg _|h' k Hh _]; [by apply elem_of_nil in Hpg|by apply elem_of_nil in Hh].
Qed.

(** *** The contract *)

(** C1: in every state a kernel reaches by [pmm_init] and any sequence of calls of [kalloc]
    and [kfree] that keep the contract ([client_step]), and of writes of the clients to their
    blocks, on any processors: the heap is well formed and unlocked, the blocks [kalloc]
    returned and nobody freed lie inside the heap, no two of them overlap, and no byte of one
    is a byte of the free regions, of a page header, of a page's free list or of the header
    of a huge block. *)
Theorem allocator_safe y :
  reachable y ->
  pmm_inv lo hi (y_state y) (y_abs y) /\ unlocked (y_state y) /\
  (forall r, r ∈ y_held y -> lo <= r.1 /\ 0 < r.2 /\ r.1 + r.2 <= hi) /\
  pairwise rdisj (y_held y) /\
  (forall x, covers (y_held y) x -> ~ metadata (y_abs y) x).
Proof.
  intros [Hinv _ Hheld Hnd]%reachable_inv. split; [done|]. split; [by eapply inv_unlocked|]. split; [|split].
  - intros r Hr. apply Hheld in Hr. by eapply live_facts.
  - apply pairwise_NoDup; [done|]. intros r1 r2 H1 H2 Hne. apply Hheld in H1, H2. by eapply live_disjoint.
  - intros x (r & Hr & Hx). eapply owned_not_metadata; [exact Hinv|]. exists r. by rewrite Hheld.
Qed.

(** C2: [kalloc] of any size: with no page of the processor and no free region for one, a
    request of at most 16 KiB fails the assertion of line 206. In every other case the call
    either returns NULL and changes nothing, exactly when the abstract allocator has no block,
    or returns a block of the least power of two of at least 32 bytes that covers the request:
    it becomes a client's, overlaps no block a client holds, no byte of a client and no byte
    outside the heap changes, and the bytes of a block of at most 16 KiB are 0 (those of a
    huge block are not cleared). A huge request must leave room for the header of its block
    ([huge_pre]). *)
Theorem kalloc_contract s g cpu size :
  pmm_inv lo hi s g -> 0 <= cpu < cpu_count -> 0 <= size -> huge_pre g size ->
  if no_first_page g cpu size then kalloc cpu_count cpu fuel size s = Fault AssertFail
  else wp (kalloc cpu_count cpu fuel size) s (fun r s' =>
    (r = 0 /\ s' = s /\ abs_alloc g cpu size = None) \/
    (0 < r /\ exists g', abs_alloc g cpu size = Some (r, g') /\ pmm_inv lo hi s' g' /\
      (forall b, live g' b <-> live g b \/ b = (r, rounded size)) /\
      (forall b, live g b -> rdisj b (r, rounded size)) /\
      (forall x, owned g x -> load8 (k_mem s') x = load8 (k_mem s) x) /\
      (size <= 16384 -> forall x, inr r (rounded size) x -> load8 (k_mem s') x = 0) /\
      only_in (inr lo (hi - lo)) (k_mem s) (k_mem s'))).
Proof.
  intros Hinv Hcpu Hs Hpre. destruct (no_first_page g cpu size) eqn:Ef.
  { apply (kalloc_asserts lo hi fuel s g cpu_count cpu size Hinv); [lia|lia|done|done]. }
  apply huge_pre_alloc with (cpu := cpu) in Hpre; [|done].
  eapply wp_mono; [apply (kalloc_spec lo hi fuel s g cpu_count cpu size Hinv); [lia|lia|done|done]|].
  intros r s' H. unfold alloc_result in H. destruct (abs_alloc g cpu size) as [[a g']|] eqn:E; [right|left; by destruct H].
  destruct H as (-> & Hinv' & Ho & Hz & Hheap). destruct (abs_alloc_gives lo hi s g Hinv cpu size a g') as (Hl & Hf & Hb);
    [lia|done|done|]. pose proof (ar_lo (lo := lo) (hi := hi) (fuel := fuel)). split; [lia|].
  exists g'. split; [done|]. split; [done|]. split; [done|]. split; [|split; [done|]].
  - intros b Hb'. pose proof (rounded_ge size). destruct (live_facts s g b Hinv Hb') as (_ & Hpos & _).
    destruct (decide (rdisj b (a, rounded size))) as [|Hnd]; [done|].
    destruct (Hf (Z.max b.1 a)); unfold rdisj in Hnd; simpl in Hnd; [unfold inr; lia|].
    exists b. split; [done|]. unfold inr; lia.
  - split; [|exact Hheap]. intros Hs16. unfold cleared in Hz. destruct (Z.leb_spec size (16 * 1024)); [done|lia].
Qed.

(** C3: [kfree] of a block a client holds, on any processor, takes exactly that block from
    the client (when no node of the page's list is lost), keeps the heap well formed and
    unlocked, and leaves every byte of the other blocks and every byte outside the heap as
    it was. *)
Theorem kfree_contract s g cpu ptr n :
  pmm_inv lo hi s g -> cpus_used g cpu_count -> 0 <= cpu < cpu_count ->
  live g (ptr, n) -> free_safe g ptr = true ->
  wp (kfree cpu_count cpu fuel ptr) s (fun _ s' => exists g',
    abs_free g ptr = Some g' /\ pmm_inv lo hi s' g' /\
    (free_keeps g ptr = true -> forall b, live g' b <-> live g b /\ b <> (ptr, n)) /\
    (forall x, owned g x -> ~ inr ptr n x -> load8 (k_mem s') x = load8 (k_mem s) x) /\
    only_in (inr lo (hi - lo)) (k_mem s) (k_mem s')).
Proof.
  intros Hinv Hu Hcpu Hl Hsafe.
  eapply wp_mono; [apply (kfree_spec lo hi fuel s g Hinv cpu_count cpu ltac:(lia) ltac:(lia) Hu ptr n Hl Hsafe)|].
  intros _ s' (g' & Hg & Hinv' & Ho & Hheap). exists g'. split; [done|]. split; [done|]. split; [|split; [|exact Hheap]].
  - intros Hk. by eapply (abs_free_live lo hi s g Hinv).
  - intros x Hx Hn. by apply Ho.
Qed.

(** C4: in a state a kernel reaches, every call within the contract ends and releases every
    lock, with a fuel fixed by the size of the heap alone: [kalloc] of any size returns, a
    huge request provided it leaves room for the header of its block, and the first small
    request of a processor provided a free region holds a page (else it fails the assertion of
    line 206); [kfree] of a block a client holds returns, provided the code does not take a
    page header for a free block ([free_safe]). *)
Theorem reachable_progress y :
  reachable y ->
  (forall cpu size, 0 <= cpu < cpu_count -> 0 <= size -> huge_pre (y_abs y) size ->
    if no_first_page (y_abs y) cpu size then kalloc cpu_count cpu fuel size (y_state y) = Fault AssertFail
    else exists r s', kalloc cpu_count cpu fuel size (y_state y) = Done r s' /\ unlocked s') /\
  (forall cpu ptr n, 0 <= cpu < cpu_count -> (ptr, n) ∈ y_held y -> free_safe (y_abs y) ptr = true ->
    exists s', kfree cpu_count cpu fuel ptr (y_state y) = Done tt s' /\ unlocked s').
Proof.
  intros [Hinv Hu Hheld _]%reachable_inv. split.
  - intros cpu size Hcpu Hs Hpre. destruct (no_first_page _ cpu size) eqn:Ef.
    { apply (kalloc_asserts lo hi fuel _ _ cpu_count cpu size Hinv); [lia|lia|done|done]. }
    apply huge_pre_alloc with (cpu := cpu) in Hpre; [|done].
    pose proof (kalloc_spec lo hi fuel _ _ cpu_count cpu size Hinv ltac:(lia) ltac:(lia) Hs Hpre) as H.
    apply wp_done in H as (r & s' & E & H). exists r, s'. split; [done|]. unfold alloc_result in H.
    destruct (abs_alloc _ cpu size) as [[a g']|]; [destruct H as (_ & Hinv' & _)|destruct H as [_ ->]]; by eapply inv_unlocked.
  - intros cpu ptr n Hcpu Hl%Hheld Hsafe.
    pose proof (kfree_spec lo hi fuel _ _ Hinv cpu_count cpu ltac:(lia) ltac:(lia) Hu ptr n Hl Hsafe) as H.
    apply wp_done in H as ([] & s' & E & g' & _ & Hinv' & _). exists s'. split; [done|]. by eapply inv_unlocked.
Qed.

(** C8: what [kalloc] does without memory. A request of at most 16 KiB of a processor without
    pages fails the assertion of line 206 when no free region holds 64 KiB. In every other
    case NULL is returned exactly for a request over 16 MiB, a huge request larger than every
    free region, and a small one when no page of the processor has a free block of the size
    or no size and no free region holds 64 KiB. A huge request must leave room for the header
    of its block ([huge_pre]). *)
Theorem kalloc_null s g cpu size :
  pmm_inv lo hi s g -> 0 <= cpu < cpu_count -> 0 <= size -> huge_pre g size ->
  if no_first_page g cpu size then kalloc cpu_count cpu fuel size s = Fault AssertFail
  else wp (kalloc cpu_count cpu fuel size) s (fun r _ => r = 0 <->
    if size <=? 16384 then
      (forall p, p ∈ cpu_pages g cpu -> pg_size p <> 0 /\ (pg_size p = rounded size -> pg_nodes p = [])) /\
      (forall r, r ∈ g_free g -> r.2 < PAGE)
    else size <= 16777216 -> forall r, r ∈ g_free g -> r.2 < rounded size).
Proof.
  intros Hinv Hcpu Hs Hpre. destruct (no_first_page g cpu size) eqn:Ef.
  { apply (kalloc_asserts lo hi fuel s g cpu_count cpu size Hinv); [lia|lia|done|done]. }
  apply huge_pre_alloc with (cpu := cpu) in Hpre; [|done].
  eapply wp_mono; [apply (kalloc_spec lo hi fuel s g cpu_count cpu size Hinv); [lia|lia|done|done]|].
  intros r s' H. assert (r = 0 <-> abs_alloc g cpu size = None) as ->.
  { unfold alloc_result in H. destruct (abs_alloc g cpu size) as [[a g']|] eqn:E; [|by destruct H].
    destruct H as [-> _]. destruct (abs_alloc_gives lo hi s g Hinv cpu size a g') as (_ & _ & ? & _);
      [lia|done|done|]. pose proof (ar_lo (lo := lo) (hi := hi) (fuel := fuel)). split; [lia|done]. }
  unfold abs_alloc. change (16 * 1024) with 16384. destruct (Z.leb_spec size 16384).
  - unfold alloc_block. transitivity (split_first (usable (rounded size)) (cpu_pages g cpu) = None /\
      split_first sizeless (cpu_pages g cpu) = None /\ take_page (g_free g) = None).
    { destruct (split_first (usable (rounded size)) (cpu_pages g cpu)) as [[[l1 p1] l2]|]; [split; [done|by intros []]|].
      destruct (split_first sizeless (cpu_pages g cpu)) as [[[l1 p1] l2]|]; [split; [done|by intros (_ & ? & _)]|].
      by destruct (take_page (g_free g)) as [[b fl']|]; [split; [done|intros (_ & _ & ?)]|]. }
    rewrite !split_first_none, take_page_none, !Forall_forall. split.
    + intros (H1 & H2 & H3). split; [|done]. intros p Hp. specialize (H1 p Hp). specialize (H2 p Hp).
      unfold usable, sizeless in *. apply Z.eqb_neq in H2. split; [done|]. intros E.
      apply Z.eqb_eq in E. rewrite E in H1. by destruct (pg_nodes p).
    + intros [H1 H2]. split; [|split; [|done]]; intros p Hp; destruct (H1 p Hp) as [Hz Hn].
      * unfold usable. destruct (Z.eqb_spec (pg_size p) (rounded size)) as [E|]; [|done]. by rewrite (Hn E).
      * by apply Z.eqb_neq.
  - change (16384 * 1024) with 16777216. destruct (Z.leb_spec size 16777216);
      [|split; [intros _ ?; lia|done]].
    unfold alloc_huge. transitivity (best_fit (rounded size) (g_free g) 0 = 0).
    { by destruct (Z.eqb_spec (best_fit (rounded size) (g_free g) 0) 0); split. }
    rewrite best_fit_none, Forall_forall; [intuition|]. apply Forall_forall. intros b Hb.
    eapply node_list_pos; [apply (pi_heap _ _ _ _ Hinv)|done].
Qed.

(** Free regions and pages start at multiples of 64 KiB. *)
Definition page_aligned (g : gstate) : Prop :=
  Forall (fun r => (PAGE | r.1)) (g_free g) /\ Forall (fun p => (PAGE | pg_addr p)) (all_pages g).

Lemma take_page_aligned fl a fl' :
  take_page fl = Some (a, fl') -> Forall (fun r => (PAGE | r.1)) fl ->
  (PAGE | a) /\ Forall (fun r => (PAGE | r.1)) fl'.
Proof.
  intros (l1 & n & l2 & -> & _ & _ & ->)%take_page_some. rewrite !Forall_app, Forall_cons.
  intros (H1 & Ha & H2). split; [done|]. split; [done|]. destruct (n =? PAGE); [done|].
  constructor; [|done]. simpl. apply Z.divide_add_r; [done|exists 1; lia].
Qed.

Lemma alloc_block_aligned s g cpu sz a g' :
  pmm_inv lo hi s g -> 0 <= cpu < 16 -> block_size sz -> page_aligned g ->
  alloc_block g cpu sz = Some (a, g') -> (sz | a) /\ page_aligned g'.
Proof.
  intros Hinv Hcpu Hbs [Hf Hp]. pose proof (cpu_lookup lo hi s g Hinv cpu Hcpu) as Hi.
  pose proof (cpu_pages_ok lo hi s g Hinv cpu Hcpu) as Hok. destruct Hbs as [Hs Hdiv].
  unfold alloc_block. destruct (split_first (usable sz) _) as [[[l1 pg] l2]|] eqn:Eu;
    [|destruct (split_first sizeless _) as [[[l1 pg] l2]|] eqn:Ee;
      [|destruct (take_page (g_free g)) as [[b fl']|] eqn:Et; [|done]]]; intros [= <- <-].
  - apply split_first_some in Eu as (El & Hu & _). rewrite El in Hi, Hok. apply pages_ok_app in Hok as [Hok _].
    destruct (step_pages g (Z.to_nat cpu) l1 pg l2 (page_take pg) Hi) as (rest & E & E').
    rewrite E in Hp. apply Forall_cons in Hp as [Hpg Hrest].
    apply andb_true_iff in Hu as [Hz Hn]. apply Z.eqb_eq in Hz. split.
    + destruct pg as [addr sz' l full]. simpl in *. subst sz'. destruct l as [|[c n] tl]; [done|].
      destruct (take_free _ _ _ _ _ _ _ _ Hok) as (_ & _ & Hfb).
      destruct (free_blocks_node _ _ _ _ _ c n Hfb) as (_ & _ & _ & _ & Hd & _); [by left|]. simpl.
      replace c with (c - addr + addr) by lia. apply Z.divide_add_r; [done|by apply (Z.divide_trans _ PAGE)].
    + split; [done|]. rewrite E'. by constructor.
  - apply split_first_some in Ee as (El & Hu & _). rewrite El in Hi.
    destruct (step_pages g (Z.to_nat cpu) l1 pg l2 (page_fresh (pg_addr pg) sz) Hi) as (rest & E & E').
    rewrite E in Hp. apply Forall_cons in Hp as [Hpg Hrest]. split.
    + apply Z.divide_add_r; [by apply (Z.divide_trans _ PAGE)|exists 1; lia].
    + split; [done|]. rewrite E'. by constructor.
  - destruct (take_page_aligned _ _ _ Et Hf) as [Hb Hf']. split.
    + apply Z.divide_add_r; [by apply (Z.divide_trans _ PAGE)|exists 1; lia].
    + split; [done|]. destruct (concat_insert _ _ _ Hi) as (rest & E & E'). unfold all_pages in *. simpl.
      rewrite E'. rewrite E in Hp. by constructor.
Qed.

Lemma alloc_huge_aligned g sz a g' : page_aligned g -> alloc_huge g sz = Some (a, g') -> page_aligned g'.
Proof.
  intros [Hf Hp]. unfold alloc_huge. destruct (_ =? 0); [done|]. intros [= <- <-]. split; [|done].
  unfold carve, set_size_at. simpl. apply Forall_fmap. eapply Forall_impl; [exact Hf|].
  intros r Hr. simpl. destruct (Z.eqb_spec r.1 (best_fit sz (g_free g) 0)) as [<-|]; done.
Qed.

(** C9: as long as pages and free regions are aligned to 64 KiB, as they are when the heap
    is, a block of at most 16 KiB is aligned to its size; and [kalloc] of any size keeps the
    pages and free regions aligned. *)
Theorem small_block_aligned s g cpu size :
  pmm_inv lo hi s g -> page_aligned g -> 0 <= cpu < cpu_count -> 0 <= size -> alloc_pre g cpu size ->
  wp (kalloc cpu_count cpu fuel size) s (fun r s' =>
    (size <= 16384 -> (rounded size | r)) /\ exists g', pmm_inv lo hi s' g' /\ page_aligned g').
Proof.
  intros Hinv Hal Hcpu Hs Hpre.
  eapply wp_mono; [apply (kalloc_spec lo hi fuel s g cpu_count cpu size Hinv); [lia|lia|done|done]|].
  intros r s' H. unfold alloc_result in H. destruct (abs_alloc g cpu size) as [[a g']|] eqn:E.
  - destruct H as (-> & Hinv' & _). unfold abs_alloc in E. change (16 * 1024) with 16384 in E.
    destruct (Z.leb_spec size 16384).
    + destruct (alloc_block_aligned s g cpu (rounded size) a g' Hinv) as [Ha Hg]; [lia|by apply rounded_block|done..|].
      split; [done|eauto].
    + split; [lia|]. exists g'. split; [done|]. destruct (size <=? _); [|done]. by eapply alloc_huge_aligned.
  - destruct H as [-> ->]. split; [intros; by apply Z.divide_0_r|eauto].
Qed.
End System.

(** the loop that rounds a request up: it ends within [k] doublings for a request of at
    most [2 ^ (5 + k)] bytes, and yields the least power of two that is at least 32 and at
    least the request. *)
Theorem pow_loop_rounds fuel k size s :
  (k < fuel)%nat -> (k < 58)%nat -> size <= 2 ^ (5 + Z.of_nat k) ->
  wp (pow_loop fuel 32 size) s (fun r s' => s' = s /\ size <= r /\
    exists j, 5 <= j /\ r = 2 ^ j /\ forall i, 5 <= i -> size <= 2 ^ i -> j <= i).
Proof.
  intros Hf Hk Hs. eapply wp_mono; [apply (pow_loop_spec k fuel 5 size s Hf); [lia|lia|done|by left]|].
  intros r s' [-> ->]. split; [done|]. split; [apply rounded_le|].
  exists (Z.max 5 (Z.log2_up size)). split; [lia|]. split; [done|]. intros i Hi Hsi.
  pose proof (rounded_pow i size Hi Hsi) as H. unfold rounded in H.
  apply Z.pow_le_mono_r_iff in H; lia.
Qed.

(** ** Concrete runs

    A machine with one processor and a heap of two pages at 1 MiB: the state after boot, and
    after [kalloc(40)], which hands out the 64-byte block 1 of a fresh page. *)

Definition demo_lo : Z := 1048576.
Definition demo_hi : Z := 1179648.
Definition demo_fuel : nat := Z.to_nat 9000.

#[export] Instance demo_area : Area demo_lo demo_hi demo_fuel.
Proof. unfold demo_lo, demo_hi, demo_fuel. split; rewrite ?Z2Nat.id; lia. Qed.

#[global] Opaque demo_fuel.

Definition demo_g0 : gstate := init_gstate demo_lo demo_hi.

Definition demo_g1 : gstate :=
  mk_g [(1114112, 65536)]
    ([page_fresh 1048576 64] :: replicate 15 []) [].

Lemma demo_alloc : abs_alloc demo_g0 0 40 = Some (1048640, demo_g1).
Proof. vm_compute. reflexivity. Qed.

(** The state after boot, and after [kalloc(40)] on processor 0. *)
Definition demo_sys0 (s : kstate) : system := mk_sys s demo_g0 [].
Definition demo_sys1 (s : kstate) : system := mk_sys s demo_g1 [(1048640, 64)].

Lemma demo_boot : exists s, reachable demo_lo demo_hi demo_fuel 1 (demo_sys0 s).
Proof.
  assert (sized (demo_lo, demo_hi - demo_lo)) as Hs by (split; vm_compute; done).
  pose proof (pmm_init_spec demo_lo demo_hi demo_fuel 1 ltac:(lia) (fun _ => 0) 0 0 Hs) as H.
  apply wp_done in H as ([] & s & E & _). exists s. by eapply reach_init.
Qed.

Lemma demo_pre : alloc_pre demo_g0 0 40.
Proof. vm_compute. done. Qed.

Lemma demo_huge_pre : huge_pre demo_g0 40.
Proof. unfold huge_pre. lia. Qed.

Lemma demo_run : exists s, reachable demo_lo demo_hi demo_fuel 1 (demo_sys1 s).
Proof.
  destruct demo_boot as [s Hr]. pose proof (reachable_inv demo_lo demo_hi demo_fuel 1 ltac:(lia) _ Hr) as [Hinv _ _ _].
  pose proof (kalloc_spec demo_lo demo_hi demo_fuel s demo_g0 1 0 40 Hinv ltac:(lia) ltac:(lia) ltac:(lia) demo_pre) as H.
  apply wp_done in H as (r & s' & E & H). rewrite demo_alloc in H. destruct H as [-> _].
  exists s'. eapply reach_step; [exact Hr|]. unfold demo_sys1.
  change demo_g1 with (default demo_g0 (snd <$> Some (1048640, demo_g1))). rewrite <- demo_alloc.
  apply (client_alloc demo_fuel 1 s demo_g0 [] 0 40 1048640 s'); [lia|lia|exact demo_huge_pre|exact E].
Qed.

Lemma demo_live : live demo_g1 (1048640, 64).
Proof.
  eapply live_page; [by left|]. split; [vm_compute; done|]. split; [done|].
  split; [by exists 1|]. split; [unfold rbound; vm_compute; split_and!; done|].
  constructor; [|constructor]. left. vm_compute. done.
Qed.

(** The state of a machine whose heap is too small for a page. *)
Definition small_hi : Z := 1048576 + 4096.

#[export] Instance small_area : Area 1048576 small_hi demo_fuel.
Proof.
  pose proof demo_area as [_ _ _ H]. unfold demo_lo, demo_hi in H. unfold small_hi. split; lia.
Qed.

Lemma small_boot : exists s, pmm_inv 1048576 small_hi s (init_gstate 1048576 small_hi).
Proof.
  assert (sized (1048576, small_hi - 1048576)) as Hs by (split; vm_compute; done).
  pose proof (pmm_init_spec 1048576 small_hi demo_fuel 1 ltac:(lia) (fun _ => 0) 0 0 Hs) as H.
  apply wp_done in H as ([] & s & _ & Hinv & _). eauto.
Qed.

Lemma allocator_safe_witness :
  exists s, reachable demo_lo demo_hi demo_fuel 1 (demo_sys1 s) /\
    forall x, covers [(1048640, 64)] x -> ~ metadata demo_g1 x.
Proof.
  destruct demo_run as [s Hr]. exists s. split; [exact Hr|].
  exact (proj2 (proj2 (proj2 (proj2 (allocator_safe demo_lo demo_hi demo_fuel 1 ltac:(lia) (demo_sys1 s) Hr))))).
Defined.

Lemma kalloc_contract_witness :
  (exists s, wp (kalloc 1 0 demo_fuel 40) s (fun r s' =>
    r = 1048640 /\ pmm_inv demo_lo demo_hi s' demo_g1 /\ load8 (k_mem s') 1048640 = 0)) /\
  exists s, kalloc 1 0 demo_fuel 100 s = Fault AssertFail.
Proof.
  split.
  - destruct demo_boot as [s Hr]. exists s.
    pose proof (si_inv _ _ _ _ (reachable_inv demo_lo demo_hi demo_fuel 1 ltac:(lia) _ Hr)) as Hinv.
    eapply wp_mono.
    { exact (kalloc_contract demo_lo demo_hi demo_fuel 1 ltac:(lia) s demo_g0 0 40 Hinv ltac:(lia) ltac:(lia) demo_huge_pre). }
    intros r s' [(_ & _ & E)|(_ & g' & E & Hi & _ & _ & _ & Hz)]; rewrite demo_alloc in E; [done|].
    injection E as <- <-. split; [done|]. split; [exact Hi|]. apply Hz; [lia|vm_compute; done].
  - destruct small_boot as [s Hinv]. exists s.
    refine (kalloc_contract 1048576 small_hi demo_fuel 1 ltac:(lia) s _ 0 100 Hinv ltac:(lia) ltac:(lia) _). unfold huge_pre. lia.
Defined.

Lemma kfree_contract_witness :
  exists s, wp (kfree 1 0 demo_fuel 1048640) s (fun _ s' => exists g',
    pmm_inv demo_lo demo_hi s' g' /\ g_pages g' !! 0%nat = Some [mk_page 1048576 0 [] false] /\
    ~ live g' (1048640, 64)).
Proof.
  destruct demo_run as [s Hr]. exists s.
  pose proof (reachable_inv demo_lo demo_hi demo_fuel 1 ltac:(lia) _ Hr) as [Hinv Hu _ _].
  eapply wp_mono.
  { exact (kfree_contract demo_lo demo_hi demo_fuel 1 ltac:(lia) s demo_g1 0 1048640 64 Hinv Hu ltac:(lia) demo_live eq_refl). }
  intros _ s' (g' & E & Hi & Hl & _). exists g'. split; [exact Hi|]. split.
  - vm_compute in E. injection E as <-. reflexivity.
  - rewrite (Hl eq_refl). intros [_ Hne]. done.
Defined.

Lemma reachable_progress_witness :
  exists s, reachable demo_lo demo_hi demo_fuel 1 (demo_sys1 s) /\
    exists s', kfree 1 0 demo_fuel 1048640 s = Done tt s' /\ unlocked s'.
Proof.
  destruct demo_run as [s Hr]. exists s. split; [exact Hr|].
  apply (proj2 (reachable_progress demo_lo demo_hi demo_fuel 1 ltac:(lia) (demo_sys1 s) Hr) 0 1048640 64); [lia|by left|reflexivity].
Defined.

Lemma kalloc_null_witness :
  exists s, wp (kalloc 1 0 demo_fuel 20000000) s (fun r _ => r = 0).
Proof.
  destruct demo_boot as [s Hr]. exists s.
  pose proof (si_inv _ _ _ _ (reachable_inv demo_lo demo_hi demo_fuel 1 ltac:(lia) _ Hr)) as Hinv.
  eapply wp_mono.
  { refine (kalloc_null demo_lo demo_hi demo_fuel 1 ltac:(lia) s demo_g0 0 20000000 Hinv ltac:(lia) ltac:(lia) _). unfold huge_pre. lia. }
  intros r s' H. apply H. change (20000000 <=? 16384) with false. simpl. lia.
Defined.

Lemma small_block_aligned_witness :
  exists s, wp (kalloc 1 0 demo_fuel 40) s (fun r _ => (64 | r)).
Proof.
  destruct demo_boot as [s Hr]. exists s.
  pose proof (si_inv _ _ _ _ (reachable_inv demo_lo demo_hi demo_fuel 1 ltac:(lia) _ Hr)) as Hinv.
  eapply wp_mono.
  { refine (small_block_aligned demo_lo demo_hi demo_fuel 1 ltac:(lia) s demo_g0 0 40 Hinv _ ltac:(lia) ltac:(lia) demo_pre).
    split; [|constructor]. constructor; [|constructor]. exists 16. reflexivity. }
  intros r s' [H _]. apply H. lia.
Defined.

Lemma pow_loop_rounds_witness :
  wp (pow_loop 30 32 5000) (boot_state (fun _ => 0) 0 0) (fun r _ => 5000 <= r).
Proof.
  eapply wp_mono; [exact (pow_loop_rounds 30 9 5000 (boot_state (fun _ => 0) 0 0) ltac:(lia) ltac:(lia) ltac:(vm_compute; discriminate))|].
  intros r s' (_ & H & _). exact H.
Defined.
