(* ===== verification/PmmSections.v ===== *)
(** * The critical sections of kalloc and kfree

    [kalloc] of a small block holds the lock of its processor's page list from the first
    access to the last; inside, [allockpage] holds the lock of the heap. Between the two,
    other processors run. This file cuts [kalloc] at the calls of [allockpage], and [kfree]
    where it gives up the lock of its processor and takes the lock of the heap: the sections
    run one after the other are [kalloc] ([kalloc_small_sections]) and [kfree]
    ([kfree_sections]), and a section does not depend on the locks other processors hold
    ([oblivious]). *)

From stdpp Require Import prelude.
From S2P Require Import Prelude Mem KString FreeList Kernel Heap Pmm PageSpec PageAlloc PmmInv PmmAlloc.

(** ** The sections *)

Section Code.
Context (fuel : nat).

(** Lines 206-215: the first page [p] of a processor, its lock held. *)
Definition first_end (cpuno size p : Z) : M kstate unit :=
  _ ← set_pagehead cpuno p;
  ph ← get_pagehead cpuno;
  _ ← c_assert (negb (ph =? 0));
  _ ← set_next ph 0;
  _ ← set_size ph size;
  _ ← set_index ph 1;
  let pageFreend := ph + size in
  _ ← set_magic pageFreend 1234567;
  _ ← set_next pageFreend 0;
  _ ← set_size pageFreend (64 * 1024 - size);
  unlock (CpuLock cpuno).

(** Lines 217-281 and 297-306: a block of a page the processor has, or [None], with the lock
    held, when a page is needed. *)
Definition alloc_begin (cpuno size : Z) : M kstate (option Z) :=
  _ ← lock fuel (CpuLock cpuno);
  ph ← get_pagehead cpuno;
  ph ← find_page fuel ph size;
  if negb (ph =? 0) then r ← kalloc_fast cpuno ph size; mret (Some r)
  else
    ph ← get_pagehead cpuno;
    pagehead ← find_empty fuel ph;
    if negb (pagehead =? 0) then
      _ ← set_size pagehead size;
      r ← kalloc_carve cpuno pagehead size;
      mret (Some r)
    else mret None.

(** Lines 284-306: the page [pagehead] that [allockpage] gave joins the list. *)
Definition alloc_end (cpuno size pagehead : Z) : M kstate Z :=
  if negb (pagehead =? 0) then
    ph ← get_pagehead cpuno;
    _ ← set_next pagehead ph;
    _ ← set_size pagehead size;
    _ ← set_index pagehead 1;
    _ ← set_pagehead cpuno pagehead;
    kalloc_carve cpuno pagehead size
  else
    _ ← unlock (CpuLock cpuno);
    mret 0.

(** Lines 312-419: a block of a page is freed; or no page contains [ptr], and the result is
    false. *)
Definition free_begin (cpu_count cpuno ptr : Z) : M kstate bool :=
  _ ← c_assert (negb (ptr =? 0));
  _ ← lock fuel (CpuLock cpuno);
  ph ← find_owner_cpus fuel (Z.to_nat cpu_count) 0 ptr;
  if negb (ph =? 0) then
    _ ← kfree_page fuel ph ptr;
    _ ← unlock (CpuLock cpuno);
    mret true
  else
    _ ← unlock (CpuLock cpuno);
    mret false.
End Code.

(** ** The sections together *)

Section Monad.
Context {S : Type}.

Lemma bind_assoc {A B C} (m : M S A) (f : A -> M S B) (k : B -> M S C) s :
  ((m ≫= f) ≫= k) s = (m ≫= (fun a => f a ≫= k)) s.
Proof. unfold mbind, M_bind. by destruct (m s). Qed.

Lemma bind_ext {A B} (m : M S A) (f f' : A -> M S B) s :
  (forall a s', f a s' = f' a s') -> (m ≫= f) s = (m ≫= f') s.
Proof. intros Hf. unfold mbind, M_bind. by destruct (m s). Qed.

Lemma bind_ret {A B} (a : A) (f : A -> M S B) s : (mret a ≫= f) s = f a s.
Proof. done. Qed.
End Monad.

(** [kalloc] of a small block is its critical sections in order: the one that gives a
    processor its first page, the one that looks for a block in the pages it has, and the one
    that adds a page, with [allockpage] as a section of its own. *)
Theorem kalloc_small_sections cpu_count cpu fuel sz s :
  kalloc_small cpu_count cpu fuel sz s = (
    _ ← c_assert (cpu <=? cpu_count);
    ph ← get_pagehead cpu;
    _ ← (if ph =? 0 then _ ← lock fuel (CpuLock cpu); p ← allockpage fuel; first_end cpu sz p else mret tt);
    o ← alloc_begin fuel cpu sz;
    match o with
    | Some r => mret r
    | None => p ← allockpage fuel; alloc_end cpu sz p
    end) s.
Proof.
  unfold kalloc_small. apply bind_ext. intros _ s1. apply bind_ext. intros ph s2.
  apply bind_ext. intros _ s3. unfold alloc_begin. rewrite bind_assoc. apply bind_ext. intros _ s4.
  rewrite bind_assoc. apply bind_ext. intros ph4 s5. rewrite bind_assoc. apply bind_ext. intros ph5 s6.
  destruct (ph5 =? 0); cbn [negb]; cbv iota.
  - unfold kalloc_slow. rewrite bind_assoc. apply bind_ext. intros ph6 s7. rewrite bind_assoc. apply bind_ext. intros p s8.
    destruct (p =? 0); cbn [negb]; cbv iota; [done|].
    rewrite bind_assoc. apply bind_ext. intros _ s9. rewrite bind_assoc. unfold mbind, M_bind. by destruct (kalloc_carve cpu p sz s9).
  - rewrite bind_assoc. unfold mbind, M_bind. by destruct (kalloc_fast cpu ph5 sz s6).
Qed.

(** [kfree] is the section under the lock of the processor and, when no page contains the
    block, the section under the lock of the heap. *)
Theorem kfree_sections cpu_count cpu fuel ptr s :
  kfree cpu_count cpu fuel ptr s = (
    b ← free_begin fuel cpu_count cpu ptr;
    if b : bool then mret tt else kfree_huge fuel ptr) s.
Proof.
  unfold kfree, free_begin. rewrite bind_assoc. apply bind_ext. intros _ s1. rewrite bind_assoc. apply bind_ext. intros _ s2.
  rewrite bind_assoc. apply bind_ext. intros ph s3. destruct (ph =? 0); cbn [negb]; cbv iota; rewrite bind_assoc; apply bind_ext; intros _ s4.
  - done.
  - unfold mbind, M_bind. by destruct (unlock (CpuLock cpu) s4) as [[]|].
Qed.

(** ** Locks of other processors *)

(** The state with the locks of the processors in [L] held. *)
Definition hold (L : nat -> bool) (s : kstate) : kstate :=
  mk_kstate (k_mem s) (head s) (heap_lock s)
    (imap (fun i pl => if L i then mk_pagelist (pagehead pl) 1 else pl) (cpupagelist s)).

Definition hold_out {A} (L : nat -> bool) (o : outcome kstate A) : outcome kstate A :=
  match o with Done a s => Done a (hold L s) | Fault f => Fault f end.

Section Oblivious.
Context (L : nat -> bool).

(** The computation does the same whether or not those locks are held. *)
Definition oblivious {A} (m : M kstate A) : Prop := forall s, m (hold L s) = hold_out L (m s).

Lemma obl_ret {A} (a : A) : oblivious (mret a).
Proof. done. Qed.

Lemma obl_raise {A} (e : fault) : oblivious (@raise kstate A e).
Proof. done. Qed.

Lemma obl_bind {A B} (m : M kstate A) (f : A -> M kstate B) :
  oblivious m -> (forall a, oblivious (f a)) -> oblivious (m ≫= f).
Proof.
  intros Hm Hf s. unfold mbind, M_bind. rewrite Hm. destruct (m s) as [a s1|]; simpl; [apply Hf|done].
Qed.

Lemma obl_if {A} (b : bool) (m1 m2 : M kstate A) : oblivious m1 -> oblivious m2 -> oblivious (if b then m1 else m2).
Proof. by destruct b. Qed.

Lemma obl_assert c : oblivious (c_assert c).
Proof. by destruct c. Qed.

Lemma obl_gets {A} (f : kstate -> A) : (forall s, f (hold L s) = f s) -> oblivious (gets f).
Proof. intros Hf s. unfold gets. by rewrite Hf. Qed.

Lemma obl_modify (f : kstate -> kstate) : (forall s, f (hold L s) = hold L (f s)) -> oblivious (modify f).
Proof. intros Hf s. unfold modify. by rewrite Hf. Qed.

Lemma obl_read n p off : oblivious (read_le n p off).
Proof. unfold read_le. apply obl_if; [apply obl_raise|by apply obl_gets]. Qed.

Lemma obl_write n p off v : oblivious (write_le n p off v).
Proof. unfold write_le. apply obl_if; [apply obl_raise|by apply obl_modify]. Qed.

Lemma obl_set_head p : oblivious (set_head p).
Proof. by apply obl_modify. Qed.

Lemma hold_lookup i s :
  cpupagelist (hold L s) !! i = (fun pl => if L i then mk_pagelist (pagehead pl) 1 else pl) <$> cpupagelist s !! i.
Proof. unfold hold. simpl. by rewrite list_lookup_imap. Qed.

Lemma obl_get_pagehead i : oblivious (get_pagehead i).
Proof.
  intros s. unfold get_pagehead, cpu_slot, mbind, M_bind. destruct (i <? 0); [done|]. rewrite hold_lookup.
  destruct (cpupagelist s !! Z.to_nat i) as [pl|]; simpl; [|done]. by destruct (L (Z.to_nat i)).
Qed.

(** Processor [i] is not one of them. *)
Definition spares (i : Z) : Prop := L (Z.to_nat i) = false.

Lemma obl_cpu_slot i : spares i -> oblivious (cpu_slot i).
Proof.
  intros Hi s. unfold cpu_slot. destruct (i <? 0); [done|]. rewrite hold_lookup, Hi.
  by destruct (cpupagelist s !! Z.to_nat i).
Qed.

Lemma obl_set_cpu_slot i pl : spares i -> oblivious (set_cpu_slot i pl).
Proof.
  intros Hi. apply obl_modify. intros s. unfold hold. simpl. f_equal.
  apply list_eq. intros j. rewrite list_lookup_imap. destruct (decide (j = Z.to_nat i)) as [->|Hne].
  - destruct (decide (Z.to_nat i < length (cpupagelist s))%nat) as [Hlt|Hge].
    + rewrite !list_lookup_insert_eq by (by rewrite ?length_imap). simpl. by rewrite Hi.
    + rewrite !list_insert_ge by (rewrite ?length_imap; lia). by rewrite list_lookup_imap.
  - rewrite !list_lookup_insert_ne by done. by rewrite list_lookup_imap.
Qed.

Lemma obl_set_pagehead i p : spares i -> oblivious (set_pagehead i p).
Proof. intros Hi. apply obl_bind; [by apply obl_cpu_slot|]. intros pl. by apply obl_set_cpu_slot. Qed.

Definition spares_lock (l : lock_id) : Prop := match l with HeapLock => True | CpuLock i => spares i end.

Lemma obl_read_lock l : spares_lock l -> oblivious (read_lock l).
Proof. destruct l as [|i]; intros Hl; [by apply obl_gets|]. apply obl_bind; [by apply obl_cpu_slot|done]. Qed.

Lemma obl_write_lock l v : spares_lock l -> oblivious (write_lock l v).
Proof.
  destruct l as [|i]; intros Hl; [by apply obl_modify|]. apply obl_bind; [by apply obl_cpu_slot|].
  intros pl. by apply obl_set_cpu_slot.
Qed.

Lemma obl_xchg l v : spares_lock l -> oblivious (atomic_xchg l v).
Proof.
  intros Hl. apply obl_bind; [by apply obl_read_lock|]. intros old. apply obl_bind; [by apply obl_write_lock|done].
Qed.

Lemma obl_lock fuel l : spares_lock l -> oblivious (lock fuel l).
Proof.
  intros Hl. apply obl_bind.
  - induction fuel as [|k IH]; [apply obl_raise|]. apply obl_bind; [by apply obl_xchg|]. intros old. by apply obl_if.
  - intros _. apply obl_bind; [by apply obl_read_lock|]. intros v. apply obl_assert.
Qed.

Lemma obl_unlock l : spares_lock l -> oblivious (unlock l).
Proof. intros Hl. apply obl_bind; [by apply obl_xchg|done]. Qed.

Lemma obl_memset s c n : oblivious (memset s c n).
Proof. unfold memset. repeat first [apply obl_bind; [|intros ?]|apply obl_if|apply obl_raise|apply obl_ret|by apply obl_modify|by apply obl_gets|apply obl_assert]. Qed.

Lemma obl_get_size p : oblivious (get_size p).
Proof. apply obl_bind; [apply obl_read|done]. Qed.

Lemma obl_get_magic p : oblivious (get_magic p).
Proof. apply obl_bind; [apply obl_read|done]. Qed.
End Oblivious.

Create HintDb obl.
#[export] Hint Resolve obl_ret obl_raise obl_assert obl_read obl_write obl_set_head obl_get_pagehead obl_set_pagehead
  obl_lock obl_unlock obl_memset obl_get_size obl_get_magic : obl.
#[export] Hint Extern 1 (oblivious _ (get_next _)) => apply obl_read : obl.
#[export] Hint Extern 1 (oblivious _ (get_index _)) => apply obl_read : obl.
#[export] Hint Extern 1 (oblivious _ (set_next _ _)) => apply obl_write : obl.
#[export] Hint Extern 1 (oblivious _ (set_size _ _)) => apply obl_write : obl.
#[export] Hint Extern 1 (oblivious _ (set_magic _ _)) => apply obl_write : obl.
#[export] Hint Extern 1 (oblivious _ (set_index _ _)) => apply obl_write : obl.
#[export] Hint Extern 1 (oblivious _ (gets head)) => by apply obl_gets : obl.

(** A computation made of oblivious ones. *)
Ltac obl :=
  repeat lazymatch goal with
  | |- oblivious _ (mbind _ _) => apply obl_bind; [|intros ?]
  | |- oblivious _ (if _ then _ else _) => apply obl_if
  | |- oblivious _ (match ?x with (_, _) => _ end) => destruct x
  | |- oblivious _ (let _ := _ in _) => cbv zeta
  | |- _ => solve [eauto with obl]
  end.

Section ObliviousCode.
Context (L : nat -> bool) (fuel : nat).

Lemma obl_find_page k ph size : oblivious L (find_page k ph size).
Proof. revert ph. induction k as [|k IH]; intros ph; cbn [find_page]; obl. Qed.

Lemma obl_find_empty k ph : oblivious L (find_empty k ph).
Proof. revert ph. induction k as [|k IH]; intros ph; cbn [find_empty]; obl. Qed.

Lemma obl_find_owner k ph ptr : oblivious L (find_owner k ph ptr).
Proof. revert ph. induction k as [|k IH]; intros ph; cbn [find_owner]; obl. Qed.

#[local] Hint Resolve obl_find_page obl_find_empty obl_find_owner : obl.

Lemma obl_find_owner_cpus n i ptr : oblivious L (find_owner_cpus fuel n i ptr).
Proof. revert i. induction n as [|n IH]; intros i; cbn [find_owner_cpus]; obl. Qed.

Lemma obl_first_fit k h pre : oblivious L (first_fit k h pre).
Proof. revert h pre. induction k as [|k IH]; intros h pre; cbn [first_fit]; obl. Qed.

Lemma obl_highest_fit k size h high : oblivious L (highest_fit k size h high).
Proof. revert h high. induction k as [|k IH]; intros h high; cbn [highest_fit]; obl. Qed.

Lemma obl_neighbours k p h before after : oblivious L (neighbours k p h before after).
Proof. revert h before after. induction k as [|k IH]; intros h before after; cbn [neighbours]; obl. Qed.

Lemma obl_find_pred k after h : oblivious L (find_pred k after h).
Proof. revert h. induction k as [|k IH]; intros h; cbn [find_pred]; obl. Qed.

#[local] Hint Resolve obl_find_owner_cpus obl_first_fit obl_highest_fit obl_neighbours obl_find_pred : obl.

Lemma obl_heap_lock k : oblivious L (lock k HeapLock).
Proof. by apply obl_lock. Qed.

Lemma obl_heap_unlock : oblivious L (unlock HeapLock).
Proof. by apply obl_unlock. Qed.

#[local] Hint Resolve obl_heap_lock obl_heap_unlock : obl.

(** The sections of the heap see no other lock. *)
Lemma obl_allockpage : oblivious L (allockpage fuel).
Proof. unfold allockpage. obl. Qed.

Lemma obl_kallocHuge size : oblivious L (kallocHugeMemory fuel size).
Proof. unfold kallocHugeMemory. obl. Qed.

Lemma obl_huge_merge ptr header size before after : oblivious L (kfree_huge_merge fuel ptr header size before after).
Proof. unfold kfree_huge_merge. obl. Qed.

#[local] Hint Resolve obl_huge_merge : obl.

Lemma obl_kfree_huge ptr : oblivious L (kfree_huge fuel ptr).
Proof. unfold kfree_huge. obl. Qed.

Lemma obl_free_head ph : oblivious L (free_head ph).
Proof. unfold free_head. obl. Qed.

Lemma obl_block_index p ph : oblivious L (block_index p ph).
Proof. unfold block_index. obl. Qed.

#[local] Hint Resolve obl_kfree_huge obl_free_head obl_block_index : obl.

Lemma obl_page_merge ph ptr before after : oblivious L (kfree_page_merge fuel ph ptr before after).
Proof. unfold kfree_page_merge. obl. Qed.

#[local] Hint Resolve obl_page_merge : obl.

Lemma obl_kfree_page ph ptr : oblivious L (kfree_page fuel ph ptr).
Proof. unfold kfree_page. obl. Qed.

#[local] Hint Resolve obl_kfree_page : obl.

(** The sections of processor [cpu], which is not one of those that hold a lock. *)
Section Own.
Context (cpu : Z) (Hcpu : spares L cpu).

Lemma obl_own_lock k : oblivious L (lock k (CpuLock cpu)).
Proof. by apply obl_lock. Qed.

Lemma obl_own_unlock : oblivious L (unlock (CpuLock cpu)).
Proof. by apply obl_unlock. Qed.

#[local] Hint Resolve obl_own_lock obl_own_unlock : obl.

Lemma obl_carve pagehead size : oblivious L (kalloc_carve cpu pagehead size).
Proof. unfold kalloc_carve. obl. Qed.

Lemma obl_fast ph size : oblivious L (kalloc_fast cpu ph size).
Proof. unfold kalloc_fast. obl. Qed.

#[local] Hint Resolve obl_carve obl_fast : obl.

Lemma obl_first_end size p : oblivious L (first_end cpu size p).
Proof. unfold first_end. obl. Qed.

Lemma obl_alloc_begin size : oblivious L (alloc_begin fuel cpu size).
Proof. unfold alloc_begin. obl. Qed.

Lemma obl_alloc_end size p : oblivious L (alloc_end cpu size p).
Proof. unfold alloc_end. obl. Qed.

Lemma obl_free_begin cpu_count ptr : oblivious L (free_begin fuel cpu_count cpu ptr).
Proof. unfold free_begin. obl. Qed.

Lemma obl_kfree cpu_count ptr : oblivious L (kfree cpu_count cpu fuel ptr).
Proof. unfold kfree. obl. Qed.
End Own.
End ObliviousCode.

(** An oblivious computation on a state with locks held runs as on the state without. *)
Lemma obl_run L {A} (m : M kstate A) s r s' :
  oblivious L m -> m (hold L s) = Done r s' <-> exists s1, m s = Done r s1 /\ s' = hold L s1.
Proof.
  intros Hm. rewrite Hm. destruct (m s) as [a s1|]; simpl; [|by split; [|intros (? & ? & _)]].
  split; [intros [= -> <-]; eauto|by intros (s2 & [= -> ->] & ->)].
Qed.
