(* ===== verification/PmmFaults.v ===== *)
(** * What the allocator does outside its contract

    The preconditions of PmmAlloc.v and PmmFree.v are not artefacts of the proofs. The
    theorems of the first half show, for every state of the invariant, what the code does
    without one of them; the concrete runs of the second half use one or two processors and a
    heap at 1 MiB. *)

From Stdlib Require Import Znumtheory Zpow_facts.
From stdpp Require Import prelude.
From S2P Require Import Prelude Mem KString FreeList Kernel Heap Pmm PageSpec PageAlloc PageFree PmmInv PmmAlloc PmmFree PmmSystem PmmSections.

(** ** Frees by another processor *)

Section Foreign.
Context (lo hi : Z) (fuel : nat) `{!Area lo hi fuel}.
Context (cpu_count : Z) (Hcount : cpu_count <= 16).

End Foreign.

(** ** A page that is full *)

(** Block [i] of a page; block 0 holds the header. *)
Definition block (pg : page) (i : Z) : region := (pg_addr pg + i * pg_size pg, pg_size pg).

Lemma full_live pg i :
  pg_nodes pg = [] -> 0 < pg_size pg -> 0 < i -> (i + 1) * pg_size pg <= PAGE -> live_in pg (block pg i).
Proof.
  intros Hn Hs Hi Hb. unfold live_in, block, rbound. rewrite Hn. simpl. split; [done|]. split; [done|].
  split; [exists i; lia|]. split; [nia|constructor].
Qed.

Lemma block_size_pow sz : block_size sz -> exists m, 5 <= m <= 14 /\ sz = 2 ^ m.
Proof.
  intros [Hs Hd]. change PAGE with (2 ^ 16) in Hd.
  destruct (Zdivide_power_2 sz 2 16 ltac:(lia) ltac:(lia) prime_2 Hd) as [m ->]. exists m. split; [|done].
  destruct (Z.lt_ge_cases m 0) as [Hm|Hm]; [rewrite Z.pow_neg_r in Hs; lia|].
  split; [apply (Z.pow_le_mono_r_iff 2); lia|]. apply (Z.pow_le_mono_r_iff 2); lia.
Qed.

Lemma block_size_double sz : block_size sz -> sz <= 8192 -> block_size (2 * sz).
Proof.
  intros Hbs Hle. destruct (block_size_pow _ Hbs) as (m & Hm & ->). split; [destruct Hbs; lia|].
  rewrite <- Z.pow_succ_r by lia. change PAGE with (2 ^ 16). exists (2 ^ (16 - Z.succ m)).
  rewrite <- Z.pow_add_r by lia. f_equal. lia.
Qed.

Lemma block_size_rounded sz : block_size sz -> rounded sz = sz.
Proof.
  intros (m & Hm & ->)%block_size_pow. unfold rounded. rewrite Z.log2_up_pow2 by lia. f_equal. lia.
Qed.

Section Full.
Context (lo hi : Z) (fuel : nat) `{!Area lo hi fuel}.

(** The place of a page in the lists is unique. *)
Lemma page_position s g j j' p l2 l1' l2' :
  pmm_inv lo hi s g -> g_pages g !! j = Some (p :: l2) -> g_pages g !! j' = Some (l1' ++ p :: l2') ->
  j' = j /\ l1' = [] /\ l2' = l2.
Proof.
  intros Hinv Hj Hj'. assert (inr (pg_addr p) PAGE (pg_addr p)) as Hx by (unfold inr; lia).
  destruct (decide (j' = j)) as [->|Hne].
  - split; [done|]. rewrite Hj in Hj'. injection Hj' as E. destruct l1' as [|q l1']; [by injection E as ->|].
    exfalso. simpl in E. injection E as <- E. rewrite E in Hj.
    by apply (step_same_list lo hi s g j (p :: l1') p l2' Hinv Hj p ltac:(by left) (pg_addr p)).
  - exfalso. by apply (step_other_lists lo hi s g j [] p l2 Hinv Hj j' _ p Hj' Hne (elem_of_middle _ _ _) (pg_addr p)).
Qed.

Lemma first_page_found s g j p l2 ptr :
  pmm_inv lo hi s g -> g_pages g !! j = Some (p :: l2) -> live_in p (ptr, pg_size p) ->
  find_in (contains ptr) 0 (g_pages g) = Some (j, ([], p, l2)).
Proof.
  intros Hinv Hj Hl. assert (p ∈ all_pages g) as Hp by (eapply all_pages_in; [exact Hj|by left]).
  destruct (live_page_found lo hi s g Hinv _ _ _ Hp Hl) as (j' & l1 & l2' & Ef & Hj' & _).
  by destruct (page_position s g j j' p l2 l1 l2' Hinv Hj Hj') as (-> & -> & ->).
Qed.

Section First.
Context (s : kstate) (g : gstate) (Hinv : pmm_inv lo hi s g).
Context (j : nat) (pg : page) (l2 : list page) (Hj : g_pages g !! j = Some (pg :: l2)).
Context (Hfull : pg_nodes pg = []) (Hsz : 0 < pg_size pg <= 8192).
Abbreviation addr := (pg_addr pg) (only parsing).
Abbreviation sz := (pg_size pg) (only parsing).

Lemma full_facts :
  0 < addr /\ addr + PAGE < 2 ^ 64 /\ block_size sz /\ pg_full pg = true /\
  page_ok (k_mem s) pg (first_page l2).
Proof.
  pose proof (the_pages_ok lo hi s g Hinv j [] pg l2 Hj) as [Hok _].
  destruct (po_addr _ _ _ Hok). destruct (po_free _ _ _ Hok) as [(? & _)|Hf]; [lia|].
  split; [done|]. split; [done|]. split; [apply Hf|]. split; [by apply (fb_full _ _ _ _ _ Hf)|done].
Qed.

(** The list the code walks: the headers of this page and of those after it. *)
Definition header_list : list region := (fun p => (pg_addr p, pg_size p)) <$> pg :: l2.

Lemma header_far r : r ∈ header_list -> r.1 = addr \/ r.1 + PAGE <= addr \/ addr + PAGE <= r.1.
Proof.
  intros (p & -> & [->|Hp]%elem_of_cons)%list_elem_of_fmap; [by left|right].
  exact (later_page_far lo hi s g Hinv j [] pg l2 Hj p Hp).
Qed.

(** The first block and the header are neighbours for the code; no header follows. *)
Lemma header_neighbours :
  below (addr + sz) header_list 0 = addr /\ addr + 3 * sz <> above (addr + sz) header_list 0.
Proof.
  destruct full_facts as (Ha & _ & Hbs & _). pose proof (block_size_pos _ Hbs).
  pose proof (pages_node_list _ _ (the_pages_ok lo hi s g Hinv j [] pg l2 Hj)) as Hl. fold header_list in Hl.
  assert (Forall (fun r => 0 < r.1) header_list) as Hpos.
  { apply Forall_forall. intros r Hr. by eapply node_list_pos. }
  destruct (below_spec (addr + sz) header_list 0 Hpos ltac:(lia)) as (_ & B2 & B3).
  destruct (above_spec (addr + sz) header_list 0 Hpos ltac:(lia)) as (_ & A2 & _).
  specialize (B3 addr sz ltac:(by left) ltac:(lia)). split.
  - destruct B2 as [?|(Hlt & n & Hin)]; [lia|]. destruct (header_far _ Hin) as [?|[?|?]]; simpl in *; lia.
  - destruct A2 as [?|(Hlt & n & Hin)]; [lia|]. destruct (header_far _ Hin) as [?|[?|?]]; simpl in *; lia.
Qed.

(** The bytes of the first block are in no node. *)
Lemma header_frame m' : only_in (inr (addr + sz) sz) (k_mem s) m' ->
  page_ok m' pg (first_page l2) /\ node_list m' addr header_list 0.
Proof.
  intros Ho. destruct full_facts as (Ha & _ & Hbs & _ & Hok). pose proof (block_size_pos _ Hbs).
  assert (pages_ok m' (pg :: l2)) as Hp.
  { eapply pages_ok_frame; [|exact (the_pages_ok lo hi s g Hinv j [] pg l2 Hj)].
    intros p Hp. eapply only_in_same_on; [exact Ho|]. intros x Hx Hx'. apply elem_of_cons in Hp as [->|Hp].
    - destruct Hx as [Hx|Hx]; [unfold inr in *; lia|]. rewrite Hfull in Hx. by apply covers_nil in Hx.
    - pose proof (all_pages_ok lo hi s g Hinv p (all_pages_in g j _ p Hj ltac:(by right))) as [nx Hokp].
      pose proof (page_own_inside _ _ _ _ Hokp Hx). pose proof (later_page_far lo hi s g Hinv j [] pg l2 Hj p Hp).
      unfold inr in *. lia. }
  split; [apply Hp|exact (pages_node_list _ _ Hp)].
Qed.

(** The page with blocks of twice the size. *)
Lemma doubled_ok m' nx : page_ok m' pg nx -> page_ok (store32 m' (addr + 8) (2 * sz)) (mk_page addr (2 * sz) [] true) nx.
Proof.
  intros [H1 H2 H3 H4 H5]. destruct full_facts as (Ha & Hb & Hbs & Hf & _). pose proof (block_size_pos _ Hbs).
  split; cbn [pg_addr pg_size pg_nodes pg_full].
  - lia.
  - by mem_simpl.
  - mem_simpl. apply signed_small; lia.
  - mem_simpl. rewrite H4. unfold page_index. cbn [pg_addr pg_size pg_nodes]. rewrite Hfull. simpl.
    destruct (Z.eqb_spec sz 0); [lia|]. destruct (Z.eqb_spec (2 * sz) 0); [lia|done].
  - right. split; [apply block_size_double; [done|lia]|by split|split; [constructor|done]|constructor|done].
Qed.

Lemma free_first_merge s1 :
  k_mem s1 = k_mem s ->
  wp (kfree_page fuel addr (addr + sz)) s1 (fun _ s' =>
    page_ok (k_mem s') (mk_page addr (2 * sz) [] true) (first_page l2) /\
    only_in (inr addr PAGE) (k_mem s) (k_mem s') /\
    s' = mk_kstate (k_mem s') (head s1) (heap_lock s1) (cpupagelist s1)).
Proof.
  intros Em. destruct s1 as [m0 h0 hl0 c0]. simpl in Em. subst m0.
  destruct full_facts as (Ha & Hb & Hbs & Hf & Hok). pose proof (block_size_pos _ Hbs).
  pose proof (walk_fuel lo hi fuel s g Hinv _ pg (list_elem_of_lookup_2 _ _ _ Hj) ltac:(by left)) as Hfuel.
  unfold kfree_page. k_steps. rewrite (po_size _ _ _ Hok), wrap_small by lia.
  set (m1 := memset_loop _ _ _ _ _).
  assert (only_in (inr (addr + sz) sz) (k_mem s) m1) as Hm1 by (apply only_in_memset; [lia|done|done]).
  destruct (header_frame m1 Hm1) as [Hok1 Hl1]. clearbody m1. destruct header_neighbours as [Eb Ea].
  unfold free_head. k_steps. rewrite (po_index _ _ _ Hok1), (po_size _ _ _ Hok1).
  unfold page_index. rewrite Hfull. simpl idx_of. destruct (Z.eqb_spec sz 0); [lia|]. simpl (0 * _).
  change (u32 0) with 0. rewrite Z.add_0_r.
  eapply wp_mono.
  { eapply (neighbours_spec _ _ _ header_list); [exact Hl1|]. unfold header_list. rewrite length_fmap. lia. }
  intros r s' [-> ->]. rewrite Eb. revert Ea. generalize (above (addr + sz) header_list 0). intros a Ea.
  unfold kfree_page_merge. k_steps. destruct (Z.eqb_spec addr 0); [lia|]. k_steps. rewrite (po_size _ _ _ Hok1).
  rewrite !wrap_small by lia. rewrite Z.eqb_refl. simpl. k_steps. mem_simpl.
  replace (sz + sz) with (2 * sz) by lia. rewrite signed_small by lia.
  destruct (Z.eqb_spec (addr + sz + 2 * sz) a); [lia|]. k_steps. mem_simpl. rewrite signed_small by lia.
  destruct (Z.eqb_spec (2 * sz) (64 * 1024 - 2 * sz)); [lia|]. k_steps.
  split; [by apply doubled_ok|]. split; [|done]. apply only_in_store; [|unfold inr; simpl; lia].
  eapply only_in_weaken; [exact Hm1|]. unfold inr; lia.
Qed.
(** [kfree] of the first block turns the page into a full page of blocks of twice the size. *)
Lemma free_first_spec cpu_count cpu :
  0 <= cpu < cpu_count -> cpu_count <= 16 -> cpus_used g cpu_count ->
  wp (kfree cpu_count cpu fuel (addr + sz)) s (fun _ s' =>
    pmm_inv lo hi s' (set_pages g j (mk_page addr (2 * sz) [] true :: l2))).
Proof.
  intros Hcpu Hcount Hu. destruct full_facts as (Ha & Hb & Hbs & Hf & Hok). pose proof (block_size_pos _ Hbs).
  pose proof (ar_fuel (lo := lo) (hi := hi) (fuel := fuel)). pose proof (ar_size (lo := lo) (hi := hi) (fuel := fuel)).
  assert (0 <= cpu < 16) as Hc16 by lia. pose proof (cpu_lookup_slot lo hi s g Hinv cpu Hc16) as Hslot.
  assert (live_in pg (addr + sz, sz)) as Hl.
  { pose proof (full_live pg 1 Hfull) as Hl. unfold block in Hl. rewrite Z.mul_1_l in Hl. apply Hl; lia. }
  unfold kfree. apply wp_bind, wp_assert; [apply negb_true_iff, Z.eqb_neq; lia|].
  apply wp_bind. eapply wp_lock_cpu; [lia|lia|exact Hslot|done|]. simpl pagehead. fold (locked s g cpu).
  apply wp_bind. eapply wp_mono; [by apply (wp_find_owner lo hi fuel s g Hinv cpu_count cpu)|]. intros r s' [-> ->].
  unfold owner. rewrite (first_page_found s g j pg l2 _ Hinv Hj Hl). destruct (Z.eqb_spec addr 0); [lia|]. simpl negb. cbv iota.
  apply wp_bind. eapply wp_mono; [by apply (free_first_merge (locked s g cpu))|]. intros _ s1 (Hok1 & Ho & E).
  eapply wp_unlock_cpu; [lia|rewrite E; exact (locked_slot lo hi s g Hinv cpu Hc16)|]. simpl.
  pose proof (released_locked lo hi s g Hinv cpu Hc16 (k_mem s1)) as Er. unfold released in Er. simpl in Er.
  rewrite E in Er |- *. simpl in Er |- *. rewrite Er.
  by apply (page_step lo hi s _ g j [] pg l2 (mk_page addr (2 * sz) [] true)).
Qed.
End First.

Lemma free_first_used g cpu_count cpu pg pg' l2 :
  cpus_used g cpu_count -> 0 <= cpu < cpu_count -> g_pages g !! Z.to_nat cpu = Some (pg :: l2) ->
  cpus_used (set_pages g (Z.to_nat cpu) (pg' :: l2)) cpu_count.
Proof. intros Hu Hcpu _. eapply cpus_used_set; [exact Hu| |done]. lia. Qed.

(** A block of a full page is freed: the page has that block, and no other. *)
Lemma give_full addr sz ptr :
  block_size sz -> page_give (mk_page addr sz [] true) ptr = mk_page addr sz [(ptr, sz)] true.
Proof.
  intros Hbs. pose proof (block_size_count _ Hbs) as (? & _). unfold page_give, give_block. simpl.
  destruct (Z.eqb_spec sz (65536 - sz)); [lia|done].
Qed.

(** C11: without [free_safe] the allocator hands out memory its client still holds. Let the
    first page of a processor be full, with blocks of at most 8 KiB. [kfree] of the page's
    block 1 takes the page header, which is a node of the list, for the free block below it
    and doubles the block size of the page; [kfree] of block 4 then frees blocks 4 and 5, and
    [kalloc] of twice the size returns both, though the client of block 5 never freed it. *)
Theorem full_page_double_alloc s g cpu_count cpu pg l2 :
  pmm_inv lo hi s g -> 0 <= cpu < cpu_count -> cpu_count <= 16 -> cpus_used g cpu_count ->
  g_pages g !! Z.to_nat cpu = Some (pg :: l2) -> pg_nodes pg = [] -> 0 < pg_size pg <= 8192 ->
  live g (block pg 1) /\ live g (block pg 4) /\ live g (block pg 5) /\
  wp (_ ← kfree cpu_count cpu fuel (block pg 1).1;
      _ ← kfree cpu_count cpu fuel (block pg 4).1;
      kalloc cpu_count cpu fuel (2 * pg_size pg)) s
    (fun r _ => r = (block pg 4).1 /\ ~ rdisj (r, 2 * pg_size pg) (block pg 5)).
Proof.
  intros Hinv Hcpu Hcount Hu Hj Hfull Hsz.
  destruct (full_facts s g Hinv _ pg l2 Hj Hfull Hsz) as (Ha & Hb & Hbs & Hf & _).
  assert (forall i, 0 < i < 6 -> live g (block pg i)) as Hlive.
  { intros i Hi. eapply live_page; [eapply all_pages_in; [exact Hj|by left]|]. apply full_live; [done|lia|lia|nia]. }
  split; [apply Hlive; lia|]. split; [apply Hlive; lia|]. split; [apply Hlive; lia|].
  set (addr := pg_addr pg) in *. set (sz := pg_size pg) in *.
  pose proof (block_size_double _ Hbs ltac:(lia)) as Hbs2.
  apply wp_bind. unfold block. cbn [fst]. fold addr sz. rewrite Z.mul_1_l.
  eapply wp_mono; [by apply (free_first_spec s g Hinv _ pg l2 Hj Hfull Hsz cpu_count cpu)|]. intros [] s1 Hinv1.
  cbv beta in Hinv1. fold addr sz in Hinv1. set (pg1 := mk_page addr (2 * sz) [] true) in *. set (g1 := set_pages g _ _) in *.
  assert (g_pages g1 !! Z.to_nat cpu = Some (pg1 :: l2)) as Hj1.
  { apply list_lookup_insert_eq. by eapply lookup_lt_Some. }
  assert (cpus_used g1 cpu_count) as Hu1 by (by eapply free_first_used).
  assert (live_in pg1 (addr + 4 * sz, 2 * sz)) as Hl1.
  { pose proof (full_live pg1 2 eq_refl) as Hl. unfold block in Hl. cbn [pg_addr pg_size pg1] in Hl.
    replace (4 * sz) with (2 * (2 * sz)) by lia. apply Hl; lia. }
  pose proof (first_page_found s1 g1 _ pg1 l2 _ Hinv1 Hj1 Hl1) as Ef.
  assert (free_safe g1 (addr + 4 * sz) = true) as Hsafe.
  { unfold free_safe. rewrite Ef. unfold header_safe. cbn [pg_full pg_addr pg_size pg1]. simpl.
    apply andb_true_iff. split; [apply negb_true_iff, Z.eqb_neq; lia|].
    apply forallb_forall. intros p Hp%list_elem_of_In. apply negb_true_iff, Z.eqb_neq.
    pose proof (later_page_far lo hi s1 g1 Hinv1 _ [] pg1 l2 Hj1 p Hp) as Hfar. cbn [pg_addr pg1] in Hfar. lia. }
  assert (live g1 (addr + 4 * sz, 2 * sz)) as Hlv1.
  { eapply live_page; [eapply all_pages_in; [exact Hj1|by left]|exact Hl1]. }
  apply wp_bind. eapply wp_mono.
  { exact (kfree_spec lo hi fuel s1 g1 Hinv1 cpu_count cpu Hcpu Hcount Hu1 _ _ Hlv1 Hsafe). }
  intros _ s2 (g2 & Eg & Hinv2 & _). unfold abs_free in Eg. rewrite Ef in Eg. injection Eg as <-.
  unfold pg1 in Hinv2. rewrite give_full in Hinv2 by done. simpl in Hinv2.
  set (pg2 := mk_page addr (2 * sz) [(addr + 4 * sz, 2 * sz)] true) in *. set (g2 := set_pages g1 _ _) in *.
  assert (cpu_pages g2 cpu = pg2 :: l2) as Ec.
  { unfold cpu_pages, g2. cbn [g_pages set_pages]. rewrite list_lookup_insert_eq; [done|exact (lookup_lt_Some _ _ _ Hj1)]. }
  pose proof (block_size_pos _ Hbs2). eapply wp_mono.
  { apply (kalloc_spec lo hi fuel s2 g2 cpu_count cpu (2 * sz) Hinv2); [lia|lia|lia|].
    unfold alloc_pre. rewrite Ec. destruct (Z.leb_spec (2 * sz) (16 * 1024)); [done|lia]. }
  intros r s3 Hr. unfold alloc_result, abs_alloc, alloc_block in Hr.
  destruct (Z.leb_spec (2 * sz) (16 * 1024)); [|lia]. rewrite block_size_rounded, Ec in Hr by done.
  simpl in Hr. unfold usable at 1 in Hr. simpl in Hr. rewrite Z.eqb_refl in Hr. simpl in Hr.
  destruct Hr as [-> _]. split; [done|]. unfold rdisj. simpl. fold addr sz. lia.
Qed.

(** ** A huge block without room for its header *)

(** C12: without [huge_room] a huge block stays in the free list. When the region
    [kallocHugeMemory] chooses is just the block and its 16-byte header, the region keeps
    its node, with the size of the block as its size: the free list in memory is well formed
    and has a region that overlaps the block [kalloc] returned. *)
Theorem huge_block_overlap s g cpu_count cpu size a :
  pmm_inv lo hi s g -> 16384 < size <= 16777216 ->
  best_fit (rounded size) (g_free g) 0 = a -> (a, rounded size + 16) ∈ g_free g ->
  wp (kalloc cpu_count cpu fuel size) s (fun r s' => r = a + 16 /\
    heap_ok lo hi s' (set_size_at a (rounded size) (g_free g)) /\
    (a, rounded size) ∈ set_size_at a (rounded size) (g_free g) /\
    ~ rdisj (r, rounded size) (a, rounded size)).
Proof.
  intros Hinv Hs Hb Hin. pose proof (pi_heap _ _ _ _ Hinv) as Hok. pose proof (heap_fuel lo hi fuel s g Hinv) as Hf.
  pose proof (ar_fuel (lo := lo) (hi := hi) (fuel := fuel)). pose proof (ar_size (lo := lo) (hi := hi) (fuel := fuel)).
  pose proof (rounded_le size). pose proof (rounded_mod size) as Hmod. unfold kalloc.
  destruct (Z.leb_spec size 32); [lia|]. destruct (Z.ltb_spec (16 * 1024) size); [|lia].
  destruct (Z.ltb_spec (16 * 1024 * 1024) size); [lia|]. apply wp_bind. eapply wp_mono.
  { apply (pow_loop_spec 19 fuel 5 size); [lia|lia|lia|change (2 ^ (5 + Z.of_nat 19)) with 16777216; lia|by left]. }
  intros r s' [-> ->]. set (n := rounded size) in *.
  destruct (area_bounds lo hi fuel) as [Hb1 Hb2]. pose proof (ar_lo (lo := lo) (hi := hi) (fuel := fuel)).
  destruct (heap_ok_member lo hi ltac:(lia) _ _ _ _ Hok Hin) as (_ & _ & Hn2 & _).
  pose proof Hin as (l1 & l2 & E)%list_elem_of_split. rewrite E in Hok, Hb, Hf |- *.
  pose proof Hok as [_ Hsz HL]. pose proof HL as Hsp. apply layout_spaced in Hsp; [|by apply sized_ge].
  rewrite set_size_at_split by exact Hsp.
  assert (layout lo hi (l1 ++ (a, n) :: l2)) as HL'.
  { assert (layout lo hi ((a, n + 16) :: l1 ++ l2)) as HL1 by (eapply layout_proper; [|exact HL]; solve_Permutation).
    apply (layout_split _ _ _ _ n) in HL1; [|lia].
    apply (layout_drop _ _ (a + n, n + 16 - n)). eapply layout_proper; [|exact HL1]. solve_Permutation. }
  eapply wp_mono.
  { eapply (kallocHuge_zero_rest lo hi); [lia|exact Hok|apply Hinv|unfold node_size; lia|lia|exact Hb]. }
  intros r s' [-> Hl]. split; [done|]. split; [|split; [apply elem_of_middle|unfold rdisj, node_size; simpl; lia]].
  split; [exact Hl| |exact HL']. rewrite Forall_app, Forall_cons in Hsz |- *. destruct Hsz as (? & [? ?] & ?).
  split; [done|]. split; [|done]. unfold sized in *. simpl in *. split; [lia|done].
Qed.
End Full.

(** The value a computation returns. *)
Definition result {A} (m : M kstate A) (s : kstate) : option A :=
  match m s with Done a _ => Some a | Fault _ => None end.

Abbreviation run_fuel := 64%nat.
Definition alloc1 (size : Z) : M kstate Z := kalloc 1 0 run_fuel size.
Definition free1 (ptr : Z) : M kstate unit := kfree 1 0 run_fuel ptr.

(** [pmm_init] on a heap at [lo, hi), then the operations [m]. *)
Definition booted {A} (lo hi : Z) (m : M kstate A) : option A :=
  result (_ ← pmm_init 1 lo hi; m) (boot_state (fun _ => 0) 0 0).

Abbreviation MiB := 1048576 (only parsing).

(** ** Runs: a page that has been full *)

(** Three blocks fill a page of 16 KiB blocks. The first is freed twice over: its successor
    in the free list is the page header, and freeing the block after the header merges the
    block into the header. *)
Definition full_page_run : M kstate (Z * Z * Z * Z * Z) :=
  a ← alloc1 16384; b ← alloc1 16384; c ← alloc1 16384;
  _ ← free1 b; _ ← free1 a;
  d ← alloc1 16384; e ← alloc1 16384;
  mret (a, b, c, d, e).

(** Blocks of 16 KiB: after blocks 2 and 1 of a full page are freed, the second allocation
    returns block 3, which was never freed. *)
Lemma full_page_example :
  booted MiB (8 * MiB) full_page_run =
    Some (MiB + 16384, MiB + 32768, MiB + 49152, MiB + 32768, MiB + 49152).
Proof. vm_compute. reflexivity. Qed.

(** ** Runs: a free list that loses nodes *)

(** Six blocks of 8 KiB are allocated; 2, 6 and 4 are freed, so that the list is 4, 6, 2;
    then block 3, which joins 2 and 4. Of the next four allocations, three come from the
    page: 2, 3 and 4. *)
Definition lost_node_run : M kstate (Z * list Z) :=
  _ ← alloc1 8192; b ← alloc1 8192; c ← alloc1 8192; d ← alloc1 8192; _ ← alloc1 8192; f ← alloc1 8192;
  _ ← free1 b; _ ← free1 f; _ ← free1 d; _ ← free1 c;
  w ← alloc1 8192; x ← alloc1 8192; y ← alloc1 8192; z ← alloc1 8192;
  mret (f, [w; x; y; z]).

(** without [free_keeps] free blocks are lost: block 6 was freed, but the page has no
    block left after blocks 2, 3 and 4 are allocated again, and the next allocation takes a
    new page. *)
Theorem lost_node_leak :
  booted MiB (8 * MiB) lost_node_run =
    Some (MiB + 6 * 8192,
          [MiB + 2 * 8192; MiB + 3 * 8192; MiB + 4 * 8192; (MiB + PAGE) + 8192]).
Proof. vm_compute. reflexivity. Qed.

(** ** Runs: huge blocks *)

(** After a huge block that fills the heap with its header, the next allocation lies inside
    the block. *)
Lemma huge_block_example :
  booted MiB (MiB + MiB + 16) (x ← alloc1 MiB; a ← alloc1 4096; mret (x, a)) =
    Some (MiB + 16, MiB + 4096) /\
  ~ rdisj (MiB + 16, MiB) (MiB + 4096, 4096).
Proof. split; [vm_compute; reflexivity|]. unfold rdisj. simpl. lia. Qed.

(** The header of a huge block breaks the alignment the README promises: the second
    block of 32 KiB is not aligned to 32 KiB, and after a block of 64 KiB was freed next to
    no free region, a page starts at its header and blocks of 4 KiB are not aligned either. *)
Theorem huge_breaks_alignment :
  booted MiB (8 * MiB) (a ← alloc1 32768; b ← alloc1 32768; mret (a mod 32768, b mod 32768)) =
    Some (0, 32752) /\
  booted MiB (8 * MiB) (x ← alloc1 65536; _ ← alloc1 65536; _ ← free1 x; a ← alloc1 4096; mret (a mod 4096)) =
    Some 4080.
Proof. split; vm_compute; reflexivity. Qed.

(** ** A free by another processor *)

(** Processor 0 allocates a block and is then inside a critical section of its own list, as
    in the middle of another call, when processor 1 frees the block: the index of the head
    of the page's free list before and after, and the lock of processor 0. *)
Definition foreign_free_run : M kstate (Z * Z * Z) :=
  a ← kalloc 2 0 run_fuel 4096;
  ph ← get_pagehead 0;
  before ← get_index ph;
  _ ← lock run_fuel (CpuLock 0);
  _ ← kfree 2 1 run_fuel a;
  after ← get_index ph;
  held ← read_lock (CpuLock 0);
  mret (before, after, held).

(** While processor 0 holds its lock, processor 1 does not wait. *)
Lemma foreign_free_example :
  result (_ ← pmm_init 2 MiB (8 * MiB); foreign_free_run) (boot_state (fun _ => 0) 0 0) = Some (2, 1, NOPE).
Proof. vm_compute. reflexivity. Qed.

(** ** States in which the theorems apply *)


(** Seven allocations of 8 KiB fill a page. *)
Definition full_gstate : gstate :=
  mk_g [(1114112, 65536)] ([mk_page 1048576 8192 [] true] :: replicate 15 []) [].

Lemma alloc_next s g g' :
  pmm_inv demo_lo demo_hi s g -> no_first_page g 0 8192 = false -> snd <$> abs_alloc g 0 8192 = Some g' ->
  exists s', pmm_inv demo_lo demo_hi s' g'.
Proof.
  intros Hinv Hf Hg. assert (alloc_pre g 0 8192) as Hpre by (apply huge_pre_alloc; [unfold huge_pre; lia|done]).
  pose proof (kalloc_spec demo_lo demo_hi demo_fuel s g 1 0 8192 Hinv ltac:(lia) ltac:(lia) ltac:(lia) Hpre) as H.
  apply wp_done in H as (r & s' & _ & H). exists s'. unfold alloc_result in H.
  destruct (abs_alloc g 0 8192) as [[a g1]|]; [|done]. injection Hg as <-. apply H.
Qed.

Lemma full_state : exists s, pmm_inv demo_lo demo_hi s full_gstate.
Proof.
  destruct demo_boot as [s0 Hr]. pose proof (si_inv _ _ _ _ (reachable_inv demo_lo demo_hi demo_fuel 1 ltac:(lia) _ Hr)) as H0.
  simpl in H0. do 7 (eapply alloc_next in H0 as [? H0]; [|vm_compute; reflexivity|vm_compute; reflexivity]).
  eexists. exact H0.
Qed.

Lemma full_page_double_alloc_witness :
  exists s, wp (_ ← kfree 1 0 demo_fuel 1056768; _ ← kfree 1 0 demo_fuel 1081344; kalloc 1 0 demo_fuel 16384) s
    (fun r _ => r = 1081344 /\ ~ rdisj (r, 16384) (1089536, 8192)).
Proof.
  destruct full_state as [s Hinv]. exists s.
  assert (cpus_used full_gstate 1) as Hu.
  { intros j l Hj Hle. destruct j as [|j]; [simpl in Hle; lia|]. cbn [g_pages full_gstate] in Hj.
    by apply (lookup_replicate_1 15) in Hj as [-> _]. }
  exact (proj2 (proj2 (proj2 (full_page_double_alloc demo_lo demo_hi demo_fuel s full_gstate 1 0
    (mk_page 1048576 8192 [] true) [] Hinv ltac:(lia) ltac:(lia) Hu eq_refl eq_refl ltac:(simpl; lia))))).
Defined.

(** A heap of one region that is a block of 32 KiB and its header. *)
Definition tight_hi : Z := 1048576 + 32784.

#[export] Instance tight_area : Area 1048576 tight_hi demo_fuel.
Proof.
  pose proof demo_area as [_ _ _ H]. unfold demo_lo, demo_hi in H. unfold tight_hi. split; lia.
Qed.

Lemma huge_block_overlap_witness :
  exists s, wp (kalloc 1 0 demo_fuel 20000) s (fun r s' =>
    r = 1048592 /\ heap_ok 1048576 tight_hi s' [(1048576, 32768)]).
Proof.
  assert (sized (1048576, tight_hi - 1048576)) as Hs by (split; vm_compute; done).
  pose proof (pmm_init_spec 1048576 tight_hi demo_fuel 1 ltac:(lia) (fun _ => 0) 0 0 Hs) as H.
  apply wp_done in H as ([] & s & _ & Hinv & _). exists s. eapply wp_mono.
  { refine (huge_block_overlap 1048576 tight_hi demo_fuel s _ 1 0 20000 1048576 Hinv ltac:(lia) eq_refl _).
    vm_compute. by left. }
  intros r s' (-> & Hok & _). split; [reflexivity|exact Hok].
Defined.
