(* ===== verification/PmmConc.v ===== *)
(** * Several processors in the allocator at once

    The critical sections of PmmSections.v, interleaved: a step is one section of one
    processor, with the locks it leaves held. The state of the heap is that of PmmInv.v, less
    the pages that are on their way from the heap to a processor's list; a huge block that is
    being freed belongs to the clients' blocks until the second section of [kfree] puts it
    back. The calls are those within the contract: huge requests leave room for the header of
    their block ([huge_room]), no free takes a page header for a free block ([free_safe]) or
    loses free blocks ([free_keeps]), and a block of a page is freed by the processor the page
    belongs to ([free_local]): a free by another one changes the page without the lock of the
    page's processor (PmmFaults.v, [foreign_free_unlocked]), so its accesses and those of that
    processor would not be sections. *)

From stdpp Require Import prelude.
From S2P Require Import Prelude Mem KString FreeList Kernel Heap Pmm PageSpec PageAlloc PageFree PmmInv PmmAlloc PmmFree PmmSystem PmmSections.

(** ** Regions *)

Lemma layout_swap lo hi F R R' : R ≡ₚ R' -> layout lo hi (F ++ R) -> layout lo hi (F ++ R').
Proof. by intros <-. Qed.

Lemma layout_comm lo hi F R : layout lo hi (F ++ R) <-> layout lo hi (R ++ F).
Proof. by rewrite (Permutation_app_comm F R). Qed.

Lemma layout_apart lo hi F R r x : layout lo hi (F ++ R) -> r ∈ F -> inr r.1 r.2 x -> ~ covers R x.
Proof.
  intros [_ HL] Hr Hx (r' & Hr' & Hx'). apply pairwise_app in HL as (_ & _ & HL). rewrite Forall_forall in HL.
  specialize (HL _ Hr). rewrite Forall_forall in HL. destruct (HL _ Hr'); unfold inr in *; lia.
Qed.

(** ** The sections on the abstract state *)

Definition abs_begin (g : gstate) (cpu sz : Z) : option (Z * gstate) :=
  let l := cpu_pages g cpu in
  match split_first (usable sz) l with
  | Some (l1, pg, l2) =>
      Some (first_addr (pg_nodes pg) 0, set_pages g (Z.to_nat cpu) (l1 ++ page_take pg :: l2))
  | None =>
      match split_first sizeless l with
      | Some (l1, pg, l2) =>
          Some (pg_addr pg + sz, set_pages g (Z.to_nat cpu) (l1 ++ page_fresh (pg_addr pg) sz :: l2))
      | None => None
      end
  end.

Lemma abs_begin_block g cpu sz x : abs_begin g cpu sz = Some x -> alloc_block g cpu sz = Some x.
Proof.
  unfold abs_begin, alloc_block. destruct (split_first (usable sz) _) as [[[l1 pg] l2]|]; [done|].
  by destruct (split_first sizeless _) as [[[l1 pg] l2]|].
Qed.

(** The heap without the page that is taken. *)
Definition took (g : gstate) (fl' : list region) : gstate := mk_g fl' (g_pages g) (g_huge g).

Definition abs_page (g : gstate) : gstate :=
  match take_page (g_free g) with Some (_, fl') => took g fl' | None => g end.

(** The page [pg] in front of the list of a processor. *)
Definition with_page (g : gstate) (cpu : Z) (pg : page) : gstate :=
  set_pages g (Z.to_nat cpu) (pg :: cpu_pages g cpu).

Section Specs.
Context (lo hi : Z) (fuel : nat) `{!Area lo hi fuel}.
Context (s : kstate) (g : gstate) (Hinv : pmm_inv lo hi s g).
Context (cpu sz : Z) (Hcpu : 0 <= cpu < 16) (Hsz : block_size sz).

Lemma alloc_begin_spec :
  wp (alloc_begin fuel cpu sz) s (fun o s' =>
    match abs_begin g cpu sz with
    | Some (a, g') => o = Some a /\ alloc_post lo hi s g a sz g' s'
    | None => o = None /\ s' = locked s g cpu
    end).
Proof.
  pose proof (block_size_pos _ Hsz) as Hszp. pose proof (pages_fuel lo hi fuel s g Hinv _ (cpu_pages_in lo hi s g Hinv cpu Hcpu)) as Hf.
  unfold alloc_begin.
  apply wp_bind. eapply wp_lock_cpu; [lia|lia|exact (cpu_lookup_slot lo hi s g Hinv cpu Hcpu)|done|]. fold (locked s g cpu). simpl pagehead.
  apply wp_bind. eapply wp_get_pagehead; [lia|exact (locked_slot lo hi s g Hinv cpu Hcpu)|]. simpl pagehead. apply wp_bind.
  eapply wp_mono; [apply (find_page_spec _ _ _ (locked s g cpu) (cpu_pages_ok lo hi s g Hinv cpu Hcpu)); lia|]. intros r s' [-> ->].
  unfold abs_begin.
  assert (forall P l1 pg l2, split_first P (cpu_pages g cpu) = Some (l1, pg, l2) -> 0 < pg_addr pg) as Hpos.
  { intros P l1 pg l2 E. apply split_first_some in E as (E & _ & _). pose proof (cpu_pages_ok lo hi s g Hinv cpu Hcpu) as Hp.
    rewrite E in Hp. apply pages_ok_app in Hp as [[[? _] _ _ _ _] _]. done. }
  destruct (split_first (usable sz) _) as [[[l1 pg] l2]|] eqn:Eu.
  { rewrite (found_some _ _ _ _ _ Eu). specialize (Hpos _ _ _ _ Eu). destruct (Z.eqb_spec (pg_addr pg) 0); [lia|].
    cbn [negb]. apply wp_bind. eapply wp_mono; [by apply alloc_fast_spec|]. intros r s' [-> H]. by apply wp_ret. }
  unfold found. rewrite Eu. simpl negb. cbv iota.
  apply wp_bind. eapply wp_get_pagehead; [lia|exact (locked_slot lo hi s g Hinv cpu Hcpu)|]. simpl pagehead. apply wp_bind.
  eapply wp_mono; [apply (find_empty_spec _ _ (locked s g cpu) (cpu_pages_ok lo hi s g Hinv cpu Hcpu)); lia|]. intros r s' [-> ->].
  destruct (split_first sizeless _) as [[[l1 pg] l2]|] eqn:Ee.
  - rewrite (found_some _ _ _ _ _ Ee). specialize (Hpos _ _ _ _ Ee). destruct (Z.eqb_spec (pg_addr pg) 0); [lia|].
    cbn [negb]. pose proof (alloc_empty_spec lo hi s g Hinv cpu sz Hcpu Hsz _ _ _ Ee) as He. apply wp_bind_inv in He.
    apply wp_bind. eapply wp_mono; [exact He|]. intros [] s1 H. apply wp_bind. eapply wp_mono; [exact H|]. intros r s' [-> Hpost]. by apply wp_ret.
  - unfold found. rewrite Ee. simpl negb. cbv iota. by apply wp_ret.
Qed.

Lemma took_inv s1 a fl' :
  take_page (g_free g) = Some (a, fl') -> heap_ok lo hi s1 fl' -> only_in (covers (g_free g)) (k_mem s) (k_mem s1) ->
  heap_lock s1 = 0 -> cpupagelist s1 = cpupagelist s -> pmm_inv lo hi s1 (took g fl').
Proof.
  intros Ht Hok Ho Hl Hc. eapply (heap_step lo hi s s1 g Hinv (covers (g_free g))); [exact Hok| | |apply Hinv|exact Ho| |exact Hl|exact Hc].
  - pose proof (pi_layout _ _ _ _ Hinv) as HL. unfold regions in HL.
    apply (take_page_layout _ _ _ _ _ _ Ht) in HL. rewrite <- Permutation_middle in HL. by apply layout_drop in HL.
  - eapply huge_frame; [exact Hinv|exact Ho|done|]. intros r x Hr Hx Hx'.
    eapply huge_not_free; [exact Hinv|exact Hr|exact Hx'|exact Hx].
  - intros pg x Hpg Hx Hx'. eapply page_not_free; [exact Hinv|exact Hpg|exact Hx'|exact Hx].
Qed.

Lemma took_layout a fl' F :
  take_page (g_free g) = Some (a, fl') -> layout lo hi (F ++ regions g) ->
  layout lo hi ((a, PAGE) :: F ++ regions (took g fl')).
Proof.
  intros Ht HL. apply layout_comm in HL. unfold regions in HL |- *. rewrite <- app_assoc in HL.
  apply (take_page_layout _ _ _ _ _ _ Ht) in HL. eapply layout_proper; [|exact HL]. simpl. solve_Permutation.
Qed.

(** [allockpage] under the lock of the processor. *)
Lemma page_section :
  wp (allockpage fuel) (locked s g cpu) (fun p s' => exists s1,
    s' = locked s1 (abs_page g) cpu /\ pmm_inv lo hi s1 (abs_page g) /\ same_on (owned g) (k_mem s) (k_mem s1) /\
    only_in (inr lo (hi - lo)) (k_mem s) (k_mem s1) /\
    match take_page (g_free g) with Some (a, _) => p = a /\ 0 < a | None => p = 0 end).
Proof.
  pose proof (heap_fuel lo hi fuel s g Hinv) as Hf. destruct (area_bounds lo hi fuel) as [Hb1 Hb2].
  pose proof (ho_layout _ _ _ _ (pi_heap _ _ _ _ Hinv)) as HL. pose proof (ar_lo (lo := lo) (hi := hi) (fuel := fuel)).
  unfold abs_page. destruct (take_page (g_free g)) as [[a fl']|] eqn:Et.
  - destruct (take_page_addr _ _ _ _ _ Et HL) as [Ha1 Ha2].
    eapply wp_mono.
    { eapply (allockpage_some lo hi); [done..|apply (locked_heap lo hi s g Hinv)|apply (pi_lock _ _ _ _ Hinv)|lia|exact Et]. }
    intros p s' (-> & Hok & Ho & Hl & Hc). simpl in Ho.
    exists (mk_kstate (k_mem s') (head s') (heap_lock s') (cpupagelist s)). split; [|split; [|split; [|split]]].
    + unfold locked, cpu_pages, took. simpl. destruct s' as [m' h' l' c']. simpl in *. by rewrite Hc.
    + eapply took_inv; [exact Et|by destruct Hok|exact Ho|exact Hl|done].
    + intros x Hx. apply Ho. intros Hx'. by eapply owned_not_free.
    + by eapply free_heap.
    + split; [done|lia].
  - eapply wp_mono.
    { eapply (allockpage_none lo hi); [apply (locked_heap lo hi s g Hinv)|apply (pi_lock _ _ _ _ Hinv)|lia|exact Et]. }
    intros p s' [-> ->]. by exists s.
Qed.

(** A page that is none of the regions joins the list of the processor. *)
Section Install.
Context (p : Z) (HL : layout lo hi ((p, PAGE) :: regions g)).

Lemma install_bounds : 0 < p /\ p + PAGE <= hi /\ hi + PAGE < 2 ^ 64.
Proof.
  pose proof (ar_lo (lo := lo) (hi := hi) (fuel := fuel)). pose proof (ar_hi (lo := lo) (hi := hi) (fuel := fuel)).
  apply layout_cons in HL as ((? & _ & ?) & _). simpl in *. lia.
Qed.

Lemma install_apart x : inr p PAGE x -> ~ covers (regions g) x.
Proof. apply (layout_apart lo hi [(p, PAGE)] (regions g) (p, PAGE) x); [exact HL|by left]. Qed.

Lemma install_owned m' : only_in (inr p PAGE) (k_mem s) m' -> same_on (owned g) (k_mem s) m'.
Proof. intros Ho x Hx. apply Ho. intros Hx'. by eapply install_apart, owned_covers. Qed.

Lemma install_heap m' : only_in (inr p PAGE) (k_mem s) m' -> only_in (inr lo (hi - lo)) (k_mem s) m'.
Proof.
  intros Ho. eapply only_in_weaken; [exact Ho|]. apply layout_cons in HL as ((? & _ & ?) & _).
  simpl in *. unfold inr. lia.
Qed.

Lemma install_step pg s' :
  pg_addr pg = p -> page_ok (k_mem s') pg (first_page (cpu_pages g cpu)) ->
  only_in (inr p PAGE) (k_mem s) (k_mem s') -> head s' = head s -> heap_lock s' = 0 ->
  cpupagelist s' = <[Z.to_nat cpu := mk_pagelist p 0]> (cpupagelist s) ->
  pmm_inv lo hi s' (with_page g cpu pg).
Proof.
  intros Ha Hok Ho Hh Hl Hc. pose proof (cpu_lookup lo hi s g Hinv cpu Hcpu) as Hi.
  assert (forall r x, r ∈ regions g -> inr r.1 r.2 x -> ~ inr p PAGE x) as Hapart.
  { intros r x Hr Hx Hx'. by eapply install_apart; [exact Hx'|exists r]. }
  pose proof (pages_frame lo hi s s' g Hinv (inr p PAGE) Ho) as Hpages.
  specialize (Hpages (fun pg' x Hpg Hx Hx' => Hapart (page_region pg') x (region_page g pg' Hpg) Hx' Hx)).
  pose proof (pi_heap _ _ _ _ Hinv) as [Hn Hs HLf]. split; simpl.
  - split; [|done|done]. rewrite Hh. eapply node_list_frame; [|exact Hn]. eapply only_in_same_on; [exact Ho|].
    intros x Hx. apply in_nodes_covers in Hx; [|done]. destruct Hx as (r & Hr & Hx). eapply Hapart; [by apply region_free|exact Hx].
  - done.
  - rewrite Hc, (pi_cpus _ _ _ _ Hinv), list_fmap_insert. simpl. by rewrite Ha.
  - rewrite length_insert. apply Hinv.
  - apply Forall_insert; [done|]. split; [exact Hok|]. rewrite Forall_lookup in Hpages. by eapply Hpages.
  - eapply huge_frame; [exact Hinv|exact Ho|done|]. intros r x Hr Hx Hx'. eapply Hapart; [by apply region_huge|exact Hx'|exact Hx].
  - apply Hinv.
  - destruct (concat_insert _ _ _ Hi) as (rest & E & En). unfold regions, all_pages in *. simpl. rewrite En.
    rewrite E in HL. eapply layout_proper; [|exact HL]. simpl. unfold page_region at 1. rewrite Ha. solve_Permutation.
Qed.

(** The rest of [kalloc] with that page. *)
Lemma end_section :
  wp (alloc_end cpu sz p) (locked s g cpu) (fun r s' =>
    r = p + sz /\ alloc_post lo hi s g r sz (with_page g cpu (page_fresh p sz)) s').
Proof.
  destruct install_bounds as (Hp0 & Hp1 & Hhi). pose proof (block_size_pos _ Hsz) as Hszp.
  pose proof (locked_slot lo hi s g Hinv cpu Hcpu) as Hslot. unfold alloc_end.
  destruct (Z.eqb_spec p 0); [lia|]. simpl negb. cbv iota.
  apply wp_bind. eapply wp_get_pagehead; [lia|exact Hslot|]. simpl pagehead. k_steps.
  set (m2 := store32 _ _ _). apply wp_bind_inv.
  assert (only_in (inr p PAGE) (k_mem s) m2) as Ho2.
  { repeat apply only_in_store; [done|unfold inr; simpl; lia..]. }
  assert (0 <= first_page (cpu_pages g cpu) < 2 ^ 64) as Hfp.
  { pose proof (cpu_pages_ok lo hi s g Hinv cpu Hcpu) as Hp. destruct (cpu_pages g cpu) as [|pg l]; simpl; [lia|].
    destruct Hp as [[[? ?] _ _ _ _] _]. lia. }
  assert (header_at m2 p (first_page (cpu_pages g cpu)) sz) as Hh.
  { unfold header_at, m2. mem_simpl. rewrite signed_small by lia. by rewrite (wrap_small 64). }
  clearbody m2. apply wp_bind. eapply wp_set_pagehead; [lia|exact Hslot|]. simpl.
  set (s2 := mk_kstate _ _ _ _).
  assert (cpupagelist s2 !! Z.to_nat cpu = Some (mk_pagelist p 1)) as Hs2.
  { apply list_lookup_insert_eq. by eapply lookup_lt_Some. }
  eapply wp_mono; [eapply (kalloc_carve_spec s2); [exact Hh|lia|lia|done|lia|exact Hs2]|].
  intros r s' (-> & E & Hok & Ho & Hz). split; [done|].
  assert (only_in (inr p PAGE) (k_mem s) (k_mem s')) as Ho3 by (etrans; [exact Ho2|exact Ho]).
  split; [|split; [by apply install_owned|split; [exact Hz|by apply install_heap]]].
  eapply install_step; [done|exact Hok|exact Ho3|by rewrite E| |].
  - rewrite E. apply (pi_lock _ _ _ _ Hinv).
  - rewrite E. unfold released, s2, locked. simpl. by rewrite !list_insert_insert_eq.
Qed.

(** The first page of the processor. *)
Lemma first_section :
  cpu_pages g cpu = [] ->
  wp (first_end cpu sz p) (locked s g cpu) (fun _ s' =>
    pmm_inv lo hi s' (with_page g cpu (page_new p sz)) /\ same_on (owned g) (k_mem s) (k_mem s') /\
    only_in (inr lo (hi - lo)) (k_mem s) (k_mem s')).
Proof.
  intros Hnil. destruct install_bounds as (Hp0 & Hp1 & Hhi). pose proof (block_size_pos _ Hsz) as Hszp.
  pose proof (locked_slot lo hi s g Hinv cpu Hcpu) as Hslot. unfold first_end. apply wp_bind.
  eapply wp_set_pagehead; [lia|exact Hslot|]. apply wp_bind.
  eapply wp_get_pagehead; [lia|apply list_lookup_insert_eq; by eapply lookup_lt_Some|]. simpl. k_steps.
  { apply negb_true_iff, Z.eqb_neq. lia. }
  set (m' := store32 _ _ _).
  assert (only_in (inr p PAGE) (k_mem s) m') as Hm'.
  { repeat apply only_in_store; [done|unfold inr; simpl; lia..]. }
  assert (page_ok m' (page_new p sz) 0) as Hpg.
  { unfold m'. apply new_ok; [lia|lia|done|..]; mem_simpl; try done; rewrite signed_small by lia; lia. }
  clearbody m'. eapply wp_unlock_cpu; [lia|apply list_lookup_insert_eq; rewrite length_insert; by eapply lookup_lt_Some, cpu_lookup_slot|].
  simpl. split; [|split; [by apply install_owned|by apply install_heap]].
  eapply install_step; simpl; [done|by rewrite Hnil|exact Hm'|done|apply (pi_lock _ _ _ _ Hinv)|].
  unfold locked. simpl. by rewrite !list_insert_insert_eq.
Qed.

(** Without one the assertion of line 206 fails. *)
Lemma first_section_null : first_end cpu sz 0 (locked s g cpu) = Fault AssertFail.
Proof.
  pose proof (locked_slot lo hi s g Hinv cpu Hcpu) as Hslot. unfold first_end.
  set (s2 := mk_kstate (k_mem s) (head s) (heap_lock s) (<[Z.to_nat cpu := mk_pagelist 0 1]> (cpupagelist (locked s g cpu)))).
  apply (fault_bind _ _ _ (fun _ s' => s' = s2)).
  { eapply wp_set_pagehead; [lia|exact Hslot|done]. }
  intros _ ? ->. apply (fault_bind _ _ _ (fun q s' => q = 0)); [|by intros ? ? ->].
  eapply wp_get_pagehead; [lia| |].
  - apply list_lookup_insert_eq. by eapply lookup_lt_Some.
  - done.
Qed.
End Install.

Lemma end_section_null : wp (alloc_end cpu sz 0) (locked s g cpu) (fun r s' => r = 0 /\ s' = s).
Proof.
  pose proof (locked_slot lo hi s g Hinv cpu Hcpu) as Hslot. unfold alloc_end. simpl negb. cbv iota.
  apply wp_bind. eapply wp_unlock_cpu; [lia|exact Hslot|]. apply wp_ret. split; [done|].
  pose proof (released_locked lo hi s g Hinv cpu Hcpu (k_mem s)) as E. unfold released in E. simpl in E. simpl. rewrite E.
  by destruct s.
Qed.
End Specs.

(** ** Processors between sections *)

(** Where a processor is in a call of [kalloc] for a block of [sz] bytes, or [Idle]: it
    holds its lock and needs its first page; it has page [p] (NULL: there is none) for that;
    it is about to search its pages; it holds its lock and needs a page; it has page [p]. Or
    it is in [kfree] of the huge block at [ptr] of [n] bytes, which it has not found in the
    pages, and is about to take the lock of the heap. *)
Inductive phase : Type :=
| Idle | First (sz : Z) | FirstGot (sz p : Z) | Again (sz : Z) | Want (sz : Z) | Got (sz p : Z) | Freeing (ptr n : Z).

Definition holds (ph : phase) : bool := match ph with Idle | Again _ | Freeing _ _ => false | _ => true end.

(** The blocks that are between the two sections of a [kfree]. *)
Definition freeing (ph : phase) : list region := match ph with Freeing ptr n => [(ptr, n)] | _ => [] end.

Definition freeings (phs : list phase) : list region := concat (freeing <$> phs).

Definition flight (ph : phase) : list region :=
  match ph with FirstGot _ p | Got _ p => if p =? 0 then [] else [(p, PAGE)] | _ => [] end.

Definition flights (phs : list phase) : list region := concat (flight <$> phs).

Definition held (phs : list phase) (i : nat) : bool := match phs !! i with Some ph => holds ph | None => false end.

(** The locks that processors other than [cpu] hold. *)
Definition others_held (phs : list phase) (cpu : Z) (i : nat) : bool := held phs i && negb (i =? Z.to_nat cpu)%nat.

Record conc : Type := mk_conc { c_state : kstate; c_abs : gstate; c_phases : list phase }.

(** What a step shows to the clients. *)
Inductive event : Type := Tau | Returns (r n : Z) | Frees (ptr n : Z) | Writes.

(** The block is in a page of [cpu], or huge. *)
Definition free_local (g : gstate) (cpu ptr : Z) : Prop :=
  match find_in (contains ptr) 0 (g_pages g) with Some (j, _) => j = Z.to_nat cpu | None => True end.

Section System.
Context (lo hi : Z) (fuel : nat) `{!Area lo hi fuel}.
Context (cpu_count : Z) (Hcount : 0 <= cpu_count <= 16).

Definition in_phase (phs : list phase) (cpu : Z) (ph : phase) : Prop := phs !! Z.to_nat cpu = Some ph.

Definition go (phs : list phase) (cpu : Z) (ph : phase) : list phase := <[Z.to_nat cpu := ph]> phs.

(** The abstract state after [alloc_end] with the page [p]. *)
Definition abs_end (g : gstate) (cpu sz p : Z) : gstate :=
  if p =? 0 then g else with_page g cpu (page_fresh p sz).

(** A section of processor [cpu]. *)
Inductive section_step (cpu : Z) : event -> conc -> conc -> Prop :=
| sec_first s g phs sz s' :
    in_phase phs cpu Idle -> block_size sz -> get_pagehead cpu s = Done 0 s -> lock fuel (CpuLock cpu) s = Done tt s' ->
    section_step cpu Tau (mk_conc s g phs) (mk_conc s' g (go phs cpu (First sz)))
| sec_call s g phs sz q :
    in_phase phs cpu Idle -> block_size sz -> get_pagehead cpu s = Done q s -> q <> 0 ->
    section_step cpu Tau (mk_conc s g phs) (mk_conc s g (go phs cpu (Again sz)))
| sec_first_page s g phs sz p s' :
    in_phase phs cpu (First sz) -> allockpage fuel s = Done p s' ->
    section_step cpu Tau (mk_conc s g phs) (mk_conc s' (abs_page g) (go phs cpu (FirstGot sz p)))
| sec_first_end s g phs sz p s' :
    in_phase phs cpu (FirstGot sz p) -> first_end cpu sz p s = Done tt s' ->
    section_step cpu Tau (mk_conc s g phs) (mk_conc s' (with_page g cpu (page_new p sz)) (go phs cpu (Again sz)))
| sec_begin s g phs sz r s' :
    in_phase phs cpu (Again sz) -> alloc_begin fuel cpu sz s = Done (Some r) s' ->
    section_step cpu (Returns r sz) (mk_conc s g phs)
      (mk_conc s' (default g (snd <$> abs_begin g cpu sz)) (go phs cpu Idle))
| sec_begin_none s g phs sz s' :
    in_phase phs cpu (Again sz) -> alloc_begin fuel cpu sz s = Done None s' ->
    section_step cpu Tau (mk_conc s g phs) (mk_conc s' g (go phs cpu (Want sz)))
| sec_page s g phs sz p s' :
    in_phase phs cpu (Want sz) -> allockpage fuel s = Done p s' ->
    section_step cpu Tau (mk_conc s g phs) (mk_conc s' (abs_page g) (go phs cpu (Got sz p)))
| sec_end s g phs sz p r s' :
    in_phase phs cpu (Got sz p) -> alloc_end cpu sz p s = Done r s' ->
    section_step cpu (Returns r sz) (mk_conc s g phs) (mk_conc s' (abs_end g cpu sz p) (go phs cpu Idle))
| sec_huge s g phs size r s' :
    in_phase phs cpu Idle -> 16 * 1024 < size <= 16 * 1024 * 1024 -> huge_room g (rounded size) = true ->
    kallocHugeMemory fuel (rounded size) s = Done r s' ->
    section_step cpu (Returns r (rounded size)) (mk_conc s g phs)
      (mk_conc s' (default g (snd <$> alloc_huge g (rounded size))) (go phs cpu Idle))
| sec_free s g phs ptr n s' g' :
    in_phase phs cpu Idle -> live g (ptr, n) -> free_safe g ptr = true -> free_keeps g ptr = true -> free_local g cpu ptr ->
    free_begin fuel cpu_count cpu ptr s = Done true s' -> abs_free g ptr = Some g' ->
    section_step cpu (Frees ptr n) (mk_conc s g phs) (mk_conc s' g' (go phs cpu Idle))
| sec_free_huge s g phs ptr n s' :
    in_phase phs cpu Idle -> live g (ptr, n) -> free_safe g ptr = true -> (ptr, n) ∉ freeings phs ->
    free_begin fuel cpu_count cpu ptr s = Done false s' ->
    section_step cpu Tau (mk_conc s g phs) (mk_conc s' g (go phs cpu (Freeing ptr n)))
| sec_free_end s g phs ptr n s' g' :
    in_phase phs cpu (Freeing ptr n) -> kfree_huge fuel ptr s = Done tt s' -> abs_free g ptr = Some g' ->
    section_step cpu (Frees ptr n) (mk_conc s g phs) (mk_conc s' g' (go phs cpu Idle))
| sec_write s g phs m' :
    in_phase phs cpu Idle -> only_in (owned g) (k_mem s) m' ->
    section_step cpu Writes (mk_conc s g phs)
      (mk_conc (mk_kstate m' (head s) (heap_lock s) (cpupagelist s)) g (go phs cpu Idle)).

Definition conc_step (e : event) (c c' : conc) : Prop := exists cpu, 0 <= cpu < cpu_count /\ section_step cpu e c c'.

(** The states of processors that start idle with an initialised heap. *)
Inductive conc_reachable : conc -> Prop :=
| conc_boot m h hl s :
    sized (lo, hi - lo) -> pmm_init cpu_count lo hi (boot_state m h hl) = Done tt s ->
    conc_reachable (mk_conc s (init_gstate lo hi) (replicate 16 Idle))
| conc_next e c c' : conc_reachable c -> conc_step e c c' -> conc_reachable c'.

(** ** The invariant *)

Definition phase_ok (g : gstate) (i : nat) (ph : phase) : Prop :=
  match ph with
  | Idle => True
  | First sz | FirstGot sz _ => block_size sz /\ g_pages g !! i = Some []
  | Again sz | Want sz | Got sz _ => block_size sz
  | Freeing ptr n => (ptr - node_size, n + node_size) ∈ g_huge g
  end.

Record conc_inv (c : conc) : Prop := {
  ci_base : exists s0, c_state c = hold (held (c_phases c)) s0 /\ pmm_inv lo hi s0 (c_abs c);
  ci_used : cpus_used (c_abs c) cpu_count;
  ci_len : length (c_phases c) = 16%nat;
  ci_layout : layout lo hi (flights (c_phases c) ++ regions (c_abs c));
  ci_phase : forall i ph, c_phases c !! i = Some ph -> phase_ok (c_abs c) i ph;
  ci_once : NoDup (freeings (c_phases c));
}.

(** The state processor [cpu] sees: with its own lock as its phase says. *)
Definition own_view (ph : phase) (s0 : kstate) (g : gstate) (cpu : Z) : kstate :=
  if holds ph then locked s0 g cpu else s0.

Lemma hold_ext L L' s : (forall i, L i = L' i) -> hold L s = hold L' s.
Proof. intros HL. unfold hold. f_equal. apply imap_ext. intros i pl _. by rewrite HL. Qed.

Lemma held_go phs cpu ph i : others_held (go phs cpu ph) cpu i = others_held phs cpu i.
Proof.
  unfold others_held, held, go. destruct (Nat.eqb_spec i (Z.to_nat cpu)) as [->|Hne].
  - by rewrite !andb_false_r.
  - by rewrite list_lookup_insert_ne.
Qed.

Lemma hold_own phs cpu ph s0 g :
  pmm_inv lo hi s0 g -> 0 <= cpu < 16 -> in_phase phs cpu ph ->
  hold (held phs) s0 = hold (others_held phs cpu) (own_view ph s0 g cpu).
Proof.
  intros Hinv Hcpu Hph. unfold own_view. pose proof (cpu_lookup_slot lo hi s0 g Hinv cpu Hcpu) as Hslot.
  assert (forall i, i <> Z.to_nat cpu -> others_held phs cpu i = held phs i) as Hne.
  { intros i Hi. unfold others_held. destruct (Nat.eqb_spec i (Z.to_nat cpu)); [done|]. by rewrite andb_true_r. }
  assert (others_held phs cpu (Z.to_nat cpu) = false) as Heq.
  { unfold others_held. by rewrite Nat.eqb_refl, andb_false_r. }
  assert (held phs (Z.to_nat cpu) = holds ph) as Hown by (unfold held; by rewrite Hph).
  destruct (holds ph) eqn:Eh.
  - unfold hold, locked. simpl. f_equal. apply list_eq. intros i. rewrite !list_lookup_imap.
    destruct (decide (i = Z.to_nat cpu)) as [->|Hi].
    + rewrite list_lookup_insert_eq by (by eapply lookup_lt_Some). rewrite Hslot. simpl. by rewrite Hown, Heq.
    + rewrite list_lookup_insert_ne by done. by rewrite Hne.
  - apply hold_ext. intros i. destruct (decide (i = Z.to_nat cpu)) as [->|Hi]; [congruence|by rewrite Hne].
Qed.

(** A section of [cpu] runs on its own view, whatever locks the others hold. *)
Lemma section_run {A} (m : M kstate A) phs cpu ph s0 g r s' :
  pmm_inv lo hi s0 g -> 0 <= cpu < 16 -> in_phase phs cpu ph -> oblivious (others_held phs cpu) m ->
  m (hold (held phs) s0) = Done r s' ->
  exists s1, m (own_view ph s0 g cpu) = Done r s1 /\ s' = hold (others_held phs cpu) s1.
Proof.
  intros Hinv Hcpu Hph Hobl Hm. rewrite (hold_own phs cpu ph s0 g) in Hm by done. by apply obl_run in Hm.
Qed.

Lemma spares_own phs cpu : spares (others_held phs cpu) cpu.
Proof. unfold spares, others_held. by rewrite Nat.eqb_refl, andb_false_r. Qed.

(** The state after a section, as the invariant wants it. *)
Lemma after_section phs cpu ph ph' s1 g' :
  pmm_inv lo hi s1 g' -> 0 <= cpu < 16 -> in_phase phs cpu ph ->
  hold (others_held phs cpu) (own_view ph' s1 g' cpu) = hold (held (go phs cpu ph')) s1.
Proof.
  intros Hinv Hcpu Hph. rewrite (hold_own (go phs cpu ph') cpu ph' s1 g'); [|done|done|].
  - apply hold_ext. intros i. by rewrite held_go.
  - apply list_lookup_insert_eq. by eapply lookup_lt_Some.
Qed.

Lemma concat_go (f : phase -> list region) phs cpu ph ph' :
  in_phase phs cpu ph ->
  exists rest, concat (f <$> phs) ≡ₚ f ph ++ rest /\ concat (f <$> go phs cpu ph') ≡ₚ f ph' ++ rest.
Proof.
  intros Hph. unfold go. rewrite list_fmap_insert.
  destruct (concat_insert (f <$> phs) (Z.to_nat cpu) (f ph)) as (rest & E & En).
  { by rewrite list_lookup_fmap, Hph. }
  exists rest. by rewrite E, En.
Qed.

Lemma flights_go phs cpu ph ph' :
  in_phase phs cpu ph ->
  exists rest, flights phs ≡ₚ flight ph ++ rest /\ flights (go phs cpu ph') ≡ₚ flight ph' ++ rest.
Proof. apply concat_go. Qed.

Lemma freeings_same phs cpu ph ph' :
  in_phase phs cpu ph -> freeing ph' = freeing ph -> NoDup (freeings phs) -> NoDup (freeings (go phs cpu ph')).
Proof.
  intros Hph Hf. destruct (concat_go freeing phs cpu ph ph' Hph) as (rest & E & E'). unfold freeings. by rewrite E, E', Hf.
Qed.

(** Another processor frees another block. *)
Lemma freeing_other phs cpu i ptr n p k :
  in_phase phs cpu (Freeing ptr n) -> phs !! i = Some (Freeing p k) -> i <> Z.to_nat cpu -> NoDup (freeings phs) -> (p, k) <> (ptr, n).
Proof.
  intros Hph Hi Hne Hnd. destruct (concat_go freeing phs cpu (Freeing ptr n) Idle Hph) as (rest & E & E').
  unfold freeings in Hnd. rewrite E in Hnd. simpl in Hnd. apply NoDup_cons in Hnd as [Hnew _]. intros [= -> ->]. apply Hnew.
  simpl in E'. rewrite <- E'. apply list_elem_of_In, in_concat. exists [(ptr, n)]. split; [|by left].
  apply list_elem_of_In, list_elem_of_fmap. exists (Freeing ptr n). split; [done|].
  apply list_elem_of_lookup. exists i. unfold go. by rewrite list_lookup_insert_ne by done.
Qed.

Lemma inv_move_gen phs cpu ph ph' s1 g g' :
  length phs = 16%nat -> (forall i ph, phs !! i = Some ph -> phase_ok g i ph) ->
  0 <= cpu < cpu_count -> in_phase phs cpu ph -> pmm_inv lo hi s1 g' -> cpus_used g' cpu_count ->
  layout lo hi (flights (go phs cpu ph') ++ regions g') ->
  (forall j, j <> Z.to_nat cpu -> g_pages g' !! j = g_pages g !! j) -> phase_ok g' (Z.to_nat cpu) ph' ->
  (forall i p n, i <> Z.to_nat cpu -> phs !! i = Some (Freeing p n) -> (p - node_size, n + node_size) ∈ g_huge g') ->
  NoDup (freeings (go phs cpu ph')) ->
  conc_inv (mk_conc (hold (others_held phs cpu) (own_view ph' s1 g' cpu)) g' (go phs cpu ph')).
Proof.
  intros Hlen Hok Hcpu Hph Hinv Hu HL Hj Hok' Hfr Hnd. rewrite (after_section phs cpu ph) by (done || lia). split; simpl.
  - by exists s1.
  - done.
  - unfold go. by rewrite length_insert.
  - done.
  - intros i ph1 Hi. unfold go in Hi. destruct (decide (i = Z.to_nat cpu)) as [->|Hne].
    + rewrite list_lookup_insert_eq in Hi by (by eapply lookup_lt_Some). by simplify_eq.
    + rewrite list_lookup_insert_ne in Hi by done. specialize (Hok _ _ Hi). unfold phase_ok in *.
      destruct ph1; try done; [by rewrite Hj..|]. by eapply Hfr.
  - done.
Qed.

(** A section that frees no huge block. *)
Lemma inv_move phs cpu ph ph' s1 g g' :
  length phs = 16%nat -> (forall i ph, phs !! i = Some ph -> phase_ok g i ph) -> NoDup (freeings phs) ->
  0 <= cpu < cpu_count -> in_phase phs cpu ph -> freeing ph' = freeing ph -> pmm_inv lo hi s1 g' -> cpus_used g' cpu_count ->
  layout lo hi (flights (go phs cpu ph') ++ regions g') ->
  (forall j, j <> Z.to_nat cpu -> g_pages g' !! j = g_pages g !! j) -> phase_ok g' (Z.to_nat cpu) ph' ->
  (forall r, r ∈ g_huge g -> r ∈ g_huge g') ->
  conc_inv (mk_conc (hold (others_held phs cpu) (own_view ph' s1 g' cpu)) g' (go phs cpu ph')).
Proof.
  intros Hlen Hok Hnd Hcpu Hph Hf Hinv Hu HL Hj Hok' Hh. eapply inv_move_gen; try done.
  - intros i p n _ Hi. apply Hh. exact (Hok _ _ Hi).
  - by eapply freeings_same.
Qed.

Lemma layout_go phs cpu ph ph' R :
  in_phase phs cpu ph -> flight ph' = flight ph -> layout lo hi (flights phs ++ R) -> layout lo hi (flights (go phs cpu ph') ++ R).
Proof.
  intros Hph Ef. destruct (flights_go phs cpu ph ph' Hph) as (rest & -> & ->). by rewrite Ef.
Qed.

(** The effect of a section, as its event says, on the blocks of the clients and their bytes. *)
Definition event_ok (e : event) (c c' : conc) : Prop :=
  let g := c_abs c in let g' := c_abs c' in
  let m := k_mem (c_state c) in let m' := k_mem (c_state c') in
  match e with
  | Tau => (forall b, live g' b <-> live g b) /\ same_on (owned g) m m'
  | Returns r n => same_on (owned g) m m' /\
      if r =? 0 then forall b, live g' b <-> live g b
      else (forall b, live g' b <-> live g b \/ b = (r, n)) /\ (forall x, inr r n x -> ~ owned g x) /\
           (n <= 16384 -> forall x, inr r n x -> load8 m' x = 0)
  | Frees ptr n => (forall b, live g' b <-> live g b /\ b <> (ptr, n)) /\ same_on (others g ptr n) m m'
  | Writes => (forall b, live g' b <-> live g b) /\ only_in (owned g) m m'
  end.

(** No section writes outside the heap. *)
Definition in_heap (c c' : conc) : Prop := only_in (inr lo (hi - lo)) (k_mem (c_state c)) (k_mem (c_state c')).

Definition step_ok (e : event) (c c' : conc) : Prop := conc_inv c' /\ event_ok e c c' /\ in_heap c c'.

Section Steps.
Context (cpu : Z) (Hcpu : 0 <= cpu < cpu_count) (phs : list phase) (s0 : kstate) (g : gstate).
Context (Hinv : pmm_inv lo hi s0 g) (Hu : cpus_used g cpu_count) (Hlen : length phs = 16%nat).
Context (HL : layout lo hi (flights phs ++ regions g)).
Context (Hok : forall i ph, phs !! i = Some ph -> phase_ok g i ph) (Hnd : NoDup (freeings phs)).
Abbreviation s := (hold (held phs) s0) (only parsing).

Lemma cpu16 : 0 <= cpu < 16.
Proof. clear -Hcpu Hcount. lia. Qed.

Lemma own_list : g_pages g !! Z.to_nat cpu = Some (cpu_pages g cpu).
Proof. exact (cpu_lookup lo hi s0 g Hinv cpu cpu16). Qed.

(** The head of the processor's list, read without the lock. *)
Lemma own_head q s1 : in_phase phs cpu Idle -> get_pagehead cpu s = Done q s1 -> q = first_page (cpu_pages g cpu) /\ s1 = s.
Proof.
  intros Hph Hq. apply (section_run (get_pagehead cpu) phs cpu Idle s0 g q s1) in Hq as (s2 & Hq & ->); [|done|exact cpu16|done|apply obl_get_pagehead].
  unfold own_view in Hq. simpl in Hq.
  assert (wp (get_pagehead cpu) s0 (fun q s2 => q = first_page (cpu_pages g cpu) /\ s2 = s0)) as H.
  { eapply wp_get_pagehead; [lia|exact (cpu_lookup_slot lo hi s0 g Hinv cpu cpu16)|done]. }
  apply wp_done in H as (q' & s' & E & -> & ->). rewrite E in Hq. injection Hq as <- <-. split; [done|].
  symmetry. exact (hold_own phs cpu Idle s0 g Hinv cpu16 Hph).
Qed.

Lemma head_nil : first_page (cpu_pages g cpu) = 0 -> cpu_pages g cpu = [].
Proof.
  intros E. pose proof (cpu_pages_ok lo hi s0 g Hinv cpu cpu16) as Hp. destruct (cpu_pages g cpu) as [|pg l]; [done|].
  destruct Hp as [[[? _] _ _ _ _] _]. simpl in E. lia.
Qed.

(** A section that computes what [wp] says, on the processor's own view. *)
Lemma section_wp {A} (m : M kstate A) ph r s' Q :
  in_phase phs cpu ph -> oblivious (others_held phs cpu) m -> m s = Done r s' ->
  wp m (own_view ph s0 g cpu) Q -> exists s1, s' = hold (others_held phs cpu) s1 /\ Q r s1.
Proof.
  intros Hph Hobl Hm Hwp. apply (section_run m phs cpu ph s0 g r s') in Hm as (s1 & Hm & ->); [|done|exact cpu16|done|done].
  apply wp_done in Hwp as (r' & s2 & E & HQ). rewrite E in Hm. injection Hm as <- <-. eauto.
Qed.

(** A section that leaves the abstract state alone. *)
Lemma quiet_move ph ph' :
  in_phase phs cpu ph -> flight ph' = flight ph -> freeing ph' = freeing ph -> phase_ok g (Z.to_nat cpu) ph' ->
  conc_inv (mk_conc (hold (others_held phs cpu) (own_view ph' s0 g cpu)) g (go phs cpu ph')).
Proof.
  intros Hph Hf Hff Hok'. eapply inv_move; [done|exact Hok|done|done|exact Hph|done|done|done| |done|done|done]. by eapply layout_go.
Qed.

Lemma first_ok sz s' :
  in_phase phs cpu Idle -> block_size sz -> get_pagehead cpu s = Done 0 s -> lock fuel (CpuLock cpu) s = Done tt s' ->
  step_ok Tau (mk_conc s g phs) (mk_conc s' g (go phs cpu (First sz))).
Proof.
  intros Hph Hsz Hq Hs. apply own_head in Hq as [E _]; [|done]. symmetry in E. apply head_nil in E.
  pose proof (ar_fuel (lo := lo) (hi := hi) (fuel := fuel)). pose proof (ar_size (lo := lo) (hi := hi) (fuel := fuel)).
  eapply section_wp in Hs as (s1 & -> & Hs1); [|exact Hph|apply obl_own_lock, spares_own|].
  2:{ unfold own_view. simpl. eapply (wp_lock_cpu _ _ _ _ (fun _ s' => s' = locked s0 g cpu)); [lia|lia|exact (cpu_lookup_slot lo hi s0 g Hinv cpu cpu16)|done|done]. }
  simpl in Hs1. subst s1. split; [|done]. apply (quiet_move Idle (First sz)); [done|done|done|]. split; [done|]. by rewrite own_list, E.
Qed.

Lemma call_ok sz q :
  in_phase phs cpu Idle -> block_size sz -> get_pagehead cpu s = Done q s -> q <> 0 ->
  step_ok Tau (mk_conc s g phs) (mk_conc s g (go phs cpu (Again sz))).
Proof.
  intros Hph Hsz _ _. split; [|done]. pose proof (quiet_move Idle (Again sz) Hph eq_refl eq_refl Hsz) as H.
  unfold own_view in H. simpl in H. by rewrite (hold_own phs cpu Idle s0 g Hinv cpu16 Hph).
Qed.

Lemma page_ok_step ph ph' p s' :
  in_phase phs cpu ph -> holds ph = true -> flight ph = [] -> holds ph' = true -> freeing ph' = freeing ph ->
  flight ph' = (if p =? 0 then [] else [(p, PAGE)]) -> phase_ok g (Z.to_nat cpu) ph' ->
  allockpage fuel s = Done p s' -> step_ok Tau (mk_conc s g phs) (mk_conc s' (abs_page g) (go phs cpu ph')).
Proof.
  intros Hph Hh Hf Hh' Hff Hf' Hok' Hs. eapply section_wp in Hs as (s1 & -> & Hs1); [|exact Hph|apply obl_allockpage|].
  2:{ unfold own_view. rewrite Hh. exact (page_section lo hi fuel s0 g Hinv cpu). }
  destruct Hs1 as (s2 & -> & Hinv2 & Hsame & Hheap & Ht).
  assert (locked s2 (abs_page g) cpu = own_view ph' s2 (abs_page g) cpu) as -> by (unfold own_view; by rewrite Hh').
  assert (g_pages (abs_page g) = g_pages g /\ g_huge (abs_page g) = g_huge g) as [Hg Hgh].
  { unfold abs_page. by destruct (take_page (g_free g)) as [[a fl']|]. }
  destruct (flights_go phs cpu ph ph' Hph) as (rest & E & E').
  split; [|split; [|unfold in_heap, own_view; simpl; by rewrite Hh']].
  - eapply inv_move; [done|exact Hok|done|done|exact Hph|done|done| | | | |by rewrite Hgh].
    + intros j l. rewrite Hg. apply Hu.
    + rewrite E', Hf'. rewrite E, Hf in HL. simpl in HL. unfold abs_page in *.
      destruct (take_page (g_free g)) as [[a fl']|] eqn:Et; [destruct Ht as [-> ?]|rewrite Ht; simpl; done].
      destruct (Z.eqb_spec a 0); [lia|]. simpl. by apply took_layout.
    + intros j _. by rewrite Hg.
    + destruct ph'; simpl in *; by rewrite ?Hg, ?Hgh.
  - split; simpl.
    + intros b. split; intros [q Hq Hl|h k Hk ->].
      * eapply live_page; [|exact Hl]. unfold all_pages in *. by rewrite Hg in Hq.
      * eapply live_huge; [|done]. by rewrite Hgh in Hk.
      * eapply live_page; [|exact Hl]. unfold all_pages in *. by rewrite Hg.
      * eapply live_huge; [|done]. by rewrite Hgh.
    + unfold own_view. by rewrite Hh'.
Qed.

(** A page on its way to the processor is apart from the regions. *)
Lemma flight_layout ph p :
  in_phase phs cpu ph -> flight ph = [(p, PAGE)] -> layout lo hi ((p, PAGE) :: regions g).
Proof.
  intros Hph Hf. destruct (flights_go phs cpu ph ph Hph) as (rest & E & _). rewrite E, Hf in HL. simpl in HL.
  eapply layout_app_r with (l1 := rest). eapply layout_proper; [|exact HL]. solve_Permutation.
Qed.

(** It joins the list of the processor. *)
Lemma join_layout ph ph' p pg :
  in_phase phs cpu ph -> flight ph = [(p, PAGE)] -> flight ph' = [] -> pg_addr pg = p ->
  layout lo hi (flights (go phs cpu ph') ++ regions (with_page g cpu pg)).
Proof.
  intros Hph Hf Hf' Ha. destruct (flights_go phs cpu ph ph' Hph) as (rest & E & E'). rewrite E'. rewrite E in HL.
  rewrite Hf in HL. rewrite Hf'. destruct (concat_insert _ _ _ own_list) as (rest' & Ep & Ep').
  unfold regions, all_pages in *. simpl. rewrite Ep'. rewrite Ep in HL. eapply layout_proper; [|exact HL].
  simpl. unfold page_region at 1. rewrite Ha. solve_Permutation.
Qed.

Lemma join_used pg : cpus_used (with_page g cpu pg) cpu_count.
Proof. eapply cpus_used_set; [exact Hu| |done]. lia. Qed.

Lemma join_others pg j : j <> Z.to_nat cpu -> g_pages (with_page g cpu pg) !! j = g_pages g !! j.
Proof. intros Hj. simpl. by rewrite list_lookup_insert_ne. Qed.

Lemma join_live pg r : live (with_page g cpu pg) r <-> live g r \/ live_in pg r.
Proof. exact (new_page_live g (Z.to_nat cpu) (cpu_pages g cpu) pg (g_free g) r own_list). Qed.

Lemma first_end_ok sz p s' :
  in_phase phs cpu (FirstGot sz p) -> first_end cpu sz p s = Done tt s' ->
  step_ok Tau (mk_conc s g phs) (mk_conc s' (with_page g cpu (page_new p sz)) (go phs cpu (Again sz))).
Proof.
  intros Hph Hs. pose proof (Hok _ _ Hph) as [Hsz Hnil]. rewrite own_list in Hnil. injection Hnil as Hnil.
  destruct (Z.eqb_spec p 0) as [->|Hp].
  { apply (section_run _ phs cpu (FirstGot sz 0) s0 g tt s' Hinv cpu16 Hph) in Hs as (s1 & Hs & _); [|apply obl_first_end, spares_own].
    unfold own_view in Hs. simpl in Hs. by rewrite (first_section_null lo hi s0 g Hinv cpu sz cpu16) in Hs. }
  assert (flight (FirstGot sz p) = [(p, PAGE)]) as Hf by (simpl; by destruct (Z.eqb_spec p 0)).
  pose proof (flight_layout _ _ Hph Hf) as HLp.
  eapply section_wp in Hs as (s1 & -> & Hs1); [|exact Hph|apply obl_first_end, spares_own|].
  2:{ unfold own_view. simpl. by apply (first_section lo hi fuel s0 g Hinv cpu sz cpu16 Hsz p HLp). }
  destruct Hs1 as (Hinv1 & Hsame & Hheap).
  split; [|split; [|exact Hheap]].
  - apply (inv_move phs cpu (FirstGot sz p) (Again sz) s1 g (with_page g cpu (page_new p sz))); try done.
    + apply join_used.
    + by eapply join_layout.
    + apply join_others.
  - split; simpl; [|done]. intros b. rewrite join_live. pose proof (live_new p sz b Hsz). tauto.
Qed.

Lemma abs_begin_shape sz a g' :
  abs_begin g cpu sz = Some (a, g') ->
  exists l1 pg l2 pg', cpu_pages g cpu = l1 ++ pg :: l2 /\ pg_addr pg' = pg_addr pg /\ g' = set_pages g (Z.to_nat cpu) (l1 ++ pg' :: l2).
Proof.
  unfold abs_begin. destruct (split_first (usable sz) _) as [[[l1 pg] l2]|] eqn:Eu.
  - intros [= _ <-]. apply split_first_some in Eu as (El & _). exists l1, pg, l2, (page_take pg). split; [done|].
    split; [|done]. unfold page_take. by destruct (is_nil _).
  - destruct (split_first sizeless _) as [[[l1 pg] l2]|] eqn:Ee; [|done]. intros [= _ <-].
    apply split_first_some in Ee as (El & _). by exists l1, pg, l2, (page_fresh (pg_addr pg) sz).
Qed.

(** One page of one processor changed: the regions are the same. *)
Lemma set_regions j l1 pg l2 pg' :
  g_pages g !! j = Some (l1 ++ pg :: l2) -> pg_addr pg' = pg_addr pg -> regions (set_pages g j (l1 ++ pg' :: l2)) ≡ₚ regions g.
Proof. intros Hi Ha. exact (step_regions g j l1 pg l2 pg' Hi Ha). Qed.

Lemma begin_ok sz r s' :
  in_phase phs cpu (Again sz) -> alloc_begin fuel cpu sz s = Done (Some r) s' ->
  step_ok (Returns r sz) (mk_conc s g phs) (mk_conc s' (default g (snd <$> abs_begin g cpu sz)) (go phs cpu Idle)).
Proof.
  intros Hph Hs. pose proof (Hok _ _ Hph) as Hsz. simpl in Hsz.
  eapply section_wp in Hs as (s1 & -> & Hs1); [|exact Hph|apply obl_alloc_begin, spares_own|].
  2:{ unfold own_view. simpl. apply (alloc_begin_spec lo hi fuel s0 g Hinv cpu sz cpu16 Hsz). }
  destruct (abs_begin g cpu sz) as [[a g']|] eqn:Ea; [|by destruct Hs1]. destruct Hs1 as ([= ->] & Hinv' & Hsame & Hz & Hheap). simpl.
  destruct (alloc_block_gives lo hi s0 g Hinv cpu sz a g' cpu16 Hsz (abs_begin_block _ _ _ _ Ea)) as (Hl & Hf & Hb & _).
  destruct (abs_begin_shape _ _ _ Ea) as (l1 & pg & l2 & pg' & El & Hpa & ->). pose proof own_list as Hi. rewrite El in Hi.
  pose proof (ar_lo (lo := lo) (hi := hi) (fuel := fuel)). split; [|split; [|exact Hheap]].
  - apply (inv_move phs cpu (Again sz) Idle s1 g (set_pages g (Z.to_nat cpu) (l1 ++ pg' :: l2))); try done.
    + eapply cpus_used_set; [exact Hu| |done]. lia.
    + apply (layout_go phs cpu (Again sz) Idle); [done|done|]. eapply layout_swap; [|exact HL].
      symmetry. by eapply set_regions.
    + intros j Hj. simpl. by rewrite list_lookup_insert_ne.
  - split; simpl; [done|]. destruct (Z.eqb_spec a 0); [lia|]. split; [done|]. by split.
Qed.

Lemma begin_none_ok sz s' :
  in_phase phs cpu (Again sz) -> alloc_begin fuel cpu sz s = Done None s' ->
  step_ok Tau (mk_conc s g phs) (mk_conc s' g (go phs cpu (Want sz))).
Proof.
  intros Hph Hs. pose proof (Hok _ _ Hph) as Hsz. simpl in Hsz.
  eapply section_wp in Hs as (s1 & -> & Hs1); [|exact Hph|apply obl_alloc_begin, spares_own|].
  2:{ unfold own_view. simpl. apply (alloc_begin_spec lo hi fuel s0 g Hinv cpu sz cpu16 Hsz). }
  destruct (abs_begin g cpu sz) as [[a g']|]; [by destruct Hs1|]. destruct Hs1 as [_ ->].
  split; [|done]. exact (quiet_move (Again sz) (Want sz) Hph eq_refl eq_refl Hsz).
Qed.

Lemma end_ok sz p r s' :
  in_phase phs cpu (Got sz p) -> alloc_end cpu sz p s = Done r s' ->
  step_ok (Returns r sz) (mk_conc s g phs) (mk_conc s' (abs_end g cpu sz p) (go phs cpu Idle)).
Proof.
  intros Hph Hs. pose proof (Hok _ _ Hph) as Hsz. simpl in Hsz. pose proof (block_size_count _ Hsz) as (Hc4 & _).
  pose proof (block_size_pos _ Hsz) as Hszp. unfold abs_end. destruct (Z.eqb_spec p 0) as [->|Hp].
  { eapply section_wp in Hs as (s1 & -> & Hs1); [|exact Hph|apply obl_alloc_end, spares_own|].
    2:{ unfold own_view. simpl. exact (end_section_null lo hi s0 g Hinv cpu sz cpu16). }
    destruct Hs1 as [-> ->].
    split; [|done]. exact (quiet_move (Got sz 0) Idle Hph eq_refl eq_refl I). }
  assert (flight (Got sz p) = [(p, PAGE)]) as Hf by (simpl; by destruct (Z.eqb_spec p 0)).
  pose proof (flight_layout _ _ Hph Hf) as HLp.
  eapply section_wp in Hs as (s1 & -> & Hs1); [|exact Hph|apply obl_alloc_end, spares_own|].
  2:{ unfold own_view. simpl. exact (end_section lo hi fuel s0 g Hinv cpu sz cpu16 Hsz p HLp). }
  destruct Hs1 as (-> & Hinv1 & Hsame & Hz & Hheap).
  destruct (install_bounds lo hi fuel g p HLp) as (Hp0 & _). split; [|split; [|exact Hheap]].
  - apply (inv_move phs cpu (Got sz p) Idle s1 g (with_page g cpu (page_fresh p sz))); try done.
    + apply join_used.
    + by eapply join_layout.
    + apply join_others.
  - split; simpl; [done|]. destruct (Z.eqb_spec (p + sz) 0); [lia|]. split; [|split; [|done]].
    + intros b. rewrite join_live. by rewrite (live_fresh p sz b Hsz).
    + intros x Hx Hx'. eapply (install_apart lo hi g p HLp x); [unfold inr in *; lia|]. by eapply owned_covers.
Qed.

(** The heap after a huge allocation, with the pages on their way. *)
Lemma huge_layout_flights sz F :
  0 < sz -> best_fit sz (g_free g) 0 <> 0 -> huge_room g sz = true -> layout lo hi (F ++ regions g) ->
  let a := best_fit sz (g_free g) 0 in
  let ret := a + size_at a (g_free g) - sz in
  layout lo hi (F ++ carve a sz (g_free g) ++ (page_region <$> all_pages g) ++ (ret - node_size, sz + node_size) :: g_huge g).
Proof.
  intros Hs Hne Hroom HF. cbn zeta. destruct (size_at_best lo hi s0 g sz Hinv Hne) as [Hin Hsz].
  unfold huge_room in Hroom. apply Z.eqb_neq in Hne. rewrite Hne in Hroom. simpl in Hroom.
  apply Z.leb_le in Hroom. set (a := best_fit sz (g_free g) 0) in *. set (n := size_at a (g_free g)) in *.
  clearbody a n. pose proof (pi_heap _ _ _ _ Hinv) as Hh. apply layout_comm in HF. unfold regions in HF. rewrite <- app_assoc in HF.
  pose proof Hin as (l1 & l2 & E)%list_elem_of_split. rewrite E in Hh, HF |- *.
  pose proof (carve_layout _ _ _ _ _ _ _ _ _ Hh Hs Hroom HF) as HL'.
  eapply layout_proper; [|exact HL']. solve_Permutation.
Qed.

Lemma huge_ok size r s' :
  in_phase phs cpu Idle -> 16 * 1024 < size <= 16 * 1024 * 1024 -> huge_room g (rounded size) = true ->
  kallocHugeMemory fuel (rounded size) s = Done r s' ->
  step_ok (Returns r (rounded size)) (mk_conc s g phs)
    (mk_conc s' (default g (snd <$> alloc_huge g (rounded size))) (go phs cpu Idle)).
Proof.
  intros Hph Hsize Hroom Hs. pose proof (rounded_le size) as Hle. pose proof (ar_lo (lo := lo) (hi := hi) (fuel := fuel)).
  eapply section_wp in Hs as (s1 & -> & Hs1); [|exact Hph|apply obl_kallocHuge|].
  2:{ unfold own_view. simpl. apply (kallocHuge_spec lo hi fuel s0 g (rounded size)); [done|lia|apply rounded_mod|done]. }
  unfold alloc_result in Hs1. destruct (alloc_huge g (rounded size)) as [[a g']|] eqn:Ea.
  - destruct Hs1 as (-> & Hinv' & Hsame & _ & Hheap).
    destruct (alloc_huge_gives lo hi s0 g Hinv (rounded size) a g' ltac:(lia) Hroom Ea) as (Hl & Hf & Hb & _).
    unfold alloc_huge in Ea. destruct (Z.eqb_spec (best_fit (rounded size) (g_free g) 0) 0) as [|Hne]; [done|]. injection Ea as <- <-.
    set (g' := mk_g _ _ _) in *. simpl. split; [|split; [|exact Hheap]].
    + apply (inv_move phs cpu Idle Idle s1 g g'); try done.
      * apply (layout_go phs cpu Idle Idle); [done|done|]. by apply huge_layout_flights; [lia| | |].
      * intros q Hq. by right.
    + split; simpl; [done|]. destruct (Z.eqb_spec (best_fit (rounded size) (g_free g) 0 + size_at (best_fit (rounded size) (g_free g) 0) (g_free g) - rounded size) 0); [lia|].
      split; [done|]. split; [done|]. lia.
  - destruct Hs1 as [-> ->]. simpl. split; [|done]. exact (quiet_move Idle Idle Hph eq_refl eq_refl I).
Qed.

(** Freeing keeps the regions apart from the pages on their way. *)
Lemma free_layout ptr n g' F :
  live g (ptr, n) -> abs_free g ptr = Some g' -> layout lo hi (F ++ regions g) -> layout lo hi (F ++ regions g').
Proof.
  intros Hl Hg HF. destruct (area_bounds lo hi fuel) as [Hb1 Hb2]. pose proof (ar_lo (lo := lo) (hi := hi) (fuel := fuel)).
  destruct Hl as [p Hp Hl|h k Hh E].
  - destruct (live_page_found lo hi s0 g Hinv _ _ _ Hp Hl) as (j & l1 & l2 & Ef & Hj & ->).
    unfold abs_free in Hg. rewrite Ef in Hg. injection Hg as <-. eapply layout_swap; [|exact HF]. symmetry.
    apply set_regions with p; [done|]. unfold page_give. by destruct (existsb _ _).
  - destruct (live_huge_found lo hi s0 g Hinv _ _ _ _ Hh E) as (Ef & l1 & l2 & Es & El).
    unfold abs_free in Hg. rewrite Ef, Es in Hg. injection Hg as <-. injection E as -> ->.
    destruct (huge_facts _ _ _ _ Hinv _ _ Hh) as (Hk & Hmod & Hlo & Hhi).
    assert (layout lo hi ((h, k) :: g_free g ++ (page_region <$> all_pages g) ++ (l1 ++ l2) ++ F)) as HL2.
    { eapply layout_proper; [|exact HF]. unfold regions. rewrite El. solve_Permutation. }
    assert (pending lo hi s0 (g_free g) h k) as Hp.
    { split; [apply Hinv|]. split; [|done]. rewrite app_comm_cons in HL2. by apply layout_app_l in HL2. }
    destruct (give_back_layout lo hi ltac:(done) ltac:(done) s0 (g_free g) h k
      ((page_region <$> all_pages g) ++ (l1 ++ l2) ++ F) Hp HL2) as [HL' _].
    eapply layout_proper; [|exact HL']. unfold regions, all_pages. simpl. solve_Permutation.
Qed.

(** The first section of [kfree]. *)
Lemma free_begin_spec ptr n :
  live g (ptr, n) -> free_safe g ptr = true ->
  wp (free_begin fuel cpu_count cpu ptr) s0 (fun b s' =>
    match find_in (contains ptr) 0 (g_pages g) with
    | Some _ => b = true /\ exists g', abs_free g ptr = Some g' /\ pmm_inv lo hi s' g' /\
        same_on (others g ptr n) (k_mem s0) (k_mem s') /\ only_in (inr lo (hi - lo)) (k_mem s0) (k_mem s')
    | None => b = false /\ s' = s0
    end).
Proof.
  intros Hl Hsafe. pose proof (ar_lo (lo := lo) (hi := hi) (fuel := fuel)).
  pose proof (ar_fuel (lo := lo) (hi := hi) (fuel := fuel)). pose proof (ar_size (lo := lo) (hi := hi) (fuel := fuel)).
  pose proof (cpu_lookup_slot lo hi s0 g Hinv cpu cpu16) as Hslot. pose proof cpu16 as Hc16.
  destruct (live_facts lo hi s0 g _ Hinv Hl) as (Hp & _). simpl in Hp.
  unfold free_begin. apply wp_bind, wp_assert; [apply negb_true_iff, Z.eqb_neq; lia|].
  apply wp_bind. eapply wp_lock_cpu; [lia|lia|exact Hslot|done|]. simpl pagehead. fold (locked s0 g cpu).
  apply wp_bind. eapply wp_mono; [apply (wp_find_owner lo hi fuel s0 g Hinv cpu_count cpu); (done || lia)|]. intros r s' [-> ->].
  destruct Hl as [p Hpg Hlv|h k Hh E].
  - destruct (live_page_found lo hi s0 g Hinv _ _ _ Hpg Hlv) as (j & l1 & l2 & Ef & _). pose proof (page_bounds _ _ _ _ Hinv _ Hpg).
    assert (owner (g_pages g) ptr = pg_addr p) as Eo by (unfold owner; by rewrite Ef). rewrite Eo, Ef.
    destruct (Z.eqb_spec (pg_addr p) 0); [lia|]. simpl negb. cbv iota. rewrite <- Eo.
    pose proof (kfree_page_global lo hi fuel s0 g Hinv cpu_count cpu Hcpu ltac:(lia) ptr n p Hpg Hlv Hsafe) as Hk.
    apply wp_bind_inv in Hk. apply wp_bind. eapply wp_mono; [exact Hk|]. intros [] s1 Hk1.
    apply wp_bind. eapply wp_mono; [exact Hk1|]. intros [] s2 Hk2. by apply wp_ret.
  - destruct (live_huge_found lo hi s0 g Hinv _ _ _ _ Hh E) as (Ef & _).
    assert (owner (g_pages g) ptr = 0) as -> by (unfold owner; by rewrite Ef). rewrite Ef. simpl negb. cbv iota.
    apply wp_bind. eapply wp_unlock_cpu; [lia|exact (locked_slot lo hi s0 g Hinv cpu cpu16)|]. apply wp_ret. split; [done|].
    pose proof (released_locked lo hi s0 g Hinv cpu cpu16 (k_mem s0)) as Er. unfold released in Er. simpl in Er.
    simpl. rewrite Er. by destruct s0.
Qed.

Lemma free_ok ptr n s' g' :
  in_phase phs cpu Idle -> live g (ptr, n) -> free_safe g ptr = true -> free_keeps g ptr = true -> free_local g cpu ptr ->
  free_begin fuel cpu_count cpu ptr s = Done true s' -> abs_free g ptr = Some g' ->
  step_ok (Frees ptr n) (mk_conc s g phs) (mk_conc s' g' (go phs cpu Idle)).
Proof.
  intros Hph Hl Hsafe Hkeep Hloc Hs Hg.
  eapply section_wp in Hs as (s1 & -> & Hs1); [|exact Hph|apply obl_free_begin, spares_own|].
  2:{ unfold own_view. simpl. exact (free_begin_spec ptr n Hl Hsafe). }
  destruct (find_in (contains ptr) 0 (g_pages g)) as [[j' [[l1 pg] l2]]|] eqn:Ef; [|by destruct Hs1].
  destruct Hs1 as (_ & g1 & Eg & Hinv1 & Hsame & Hheap). rewrite Hg in Eg. injection Eg as <-. split; [|split; [|exact Hheap]].
  - apply (inv_move phs cpu Idle Idle s1 g g'); try done.
    + by eapply cpus_used_free.
    + apply (layout_go phs cpu Idle Idle); [done|done|]. by eapply free_layout.
    + intros j Hj. unfold abs_free, free_local in *. rewrite Ef in Hg, Hloc.
      injection Hg as <-. subst j'. simpl. by rewrite list_lookup_insert_ne.
    + intros r. unfold abs_free in Hg. rewrite Ef in Hg. by injection Hg as <-.
  - split; [|done]. by eapply (abs_free_live lo hi s0 g Hinv).
Qed.

(** A huge block is not in a page; it waits for the second section. *)
Lemma free_huge_ok ptr n s' :
  in_phase phs cpu Idle -> live g (ptr, n) -> free_safe g ptr = true -> (ptr, n) ∉ freeings phs ->
  free_begin fuel cpu_count cpu ptr s = Done false s' ->
  step_ok Tau (mk_conc s g phs) (mk_conc s' g (go phs cpu (Freeing ptr n))).
Proof.
  intros Hph Hl Hsafe Hnew Hs.
  eapply section_wp in Hs as (s1 & -> & Hs1); [|exact Hph|apply obl_free_begin, spares_own|].
  2:{ unfold own_view. simpl. exact (free_begin_spec ptr n Hl Hsafe). }
  destruct (find_in (contains ptr) 0 (g_pages g)) as [x|] eqn:Ef; [by destruct Hs1|]. destruct Hs1 as [_ ->].
  split; [|done]. apply (inv_move_gen phs cpu Idle (Freeing ptr n) s0 g g); try done.
  - by apply (layout_go phs cpu Idle (Freeing ptr n)).
  - simpl. destruct Hl as [p Hp Hlv|h k Hh [= -> ->]].
    + destruct (live_page_found lo hi s0 g Hinv _ _ _ Hp Hlv) as (j & l1 & l2 & Ef' & _). by rewrite Ef in Ef'.
    + by replace (h + node_size - node_size, k - node_size + node_size) with (h, k) by (f_equal; lia).
  - intros i p k _ Hi. exact (Hok _ _ Hi).
  - destruct (concat_go freeing phs cpu Idle (Freeing ptr n) Hph) as (rest & E & E'). unfold freeings in *.
    rewrite E'. rewrite E in Hnew, Hnd. simpl in *. by constructor.
Qed.

Lemma free_end_wp ptr n :
  (ptr - node_size, n + node_size) ∈ g_huge g ->
  wp (kfree_huge fuel ptr) s0 (fun _ s' => exists g', abs_free g ptr = Some g' /\ pmm_inv lo hi s' g' /\
    same_on (others g ptr n) (k_mem s0) (k_mem s') /\ only_in (inr lo (hi - lo)) (k_mem s0) (k_mem s')).
Proof.
  intros Hh. apply (kfree_huge_global lo hi fuel s0 g Hinv cpu_count cpu Hcpu ptr n _ _ Hh). f_equal; lia.
Qed.

Lemma free_end_ok ptr n s' g' :
  in_phase phs cpu (Freeing ptr n) -> kfree_huge fuel ptr s = Done tt s' -> abs_free g ptr = Some g' ->
  step_ok (Frees ptr n) (mk_conc s g phs) (mk_conc s' g' (go phs cpu Idle)).
Proof.
  intros Hph Hs Hg. pose proof (Hok _ _ Hph) as Hh. simpl in Hh.
  eapply section_wp in Hs as (s1 & -> & Hs1); [|exact Hph|apply obl_kfree_huge|].
  2:{ unfold own_view. simpl. exact (free_end_wp ptr n Hh). }
  destruct Hs1 as (g1 & Eg & Hinv1 & Hsame & Hheap). rewrite Hg in Eg. injection Eg as <-.
  assert (live g (ptr, n)) as Hl by (eapply live_huge; [exact Hh|f_equal; lia]).
  assert (find_in (contains ptr) 0 (g_pages g) = None) as Ef.
  { apply (live_huge_found lo hi s0 g Hinv ptr n _ _ Hh). f_equal; lia. }
  assert (forall r, live g' r <-> live g r /\ r <> (ptr, n)) as Hlive.
  { assert (free_keeps g ptr = true) as Hkeep by (unfold free_keeps; by rewrite Ef).
    by eapply (abs_free_live lo hi s0 g Hinv). }
  split; [|split; [by split|exact Hheap]].
  apply (inv_move_gen phs cpu (Freeing ptr n) Idle s1 g g'); try done.
  - by eapply cpus_used_free.
  - apply (layout_go phs cpu (Freeing ptr n) Idle); [done|done|]. by eapply free_layout.
  - intros j _. unfold abs_free in Hg. rewrite Ef in Hg. destruct (split_huge ptr (g_huge g)) as [[[l1 [h k]] l2]|]; [|done].
    by injection Hg as <-.
  - intros i p k Hne Hi. pose proof (Hok _ _ Hi) as Hp. simpl in Hp.
    pose proof (freeing_other phs cpu i ptr n p k Hph Hi Hne Hnd) as Hpn. unfold abs_free in Hg. rewrite Ef in Hg.
    destruct (live_huge_found lo hi s0 g Hinv ptr n _ _ Hh ltac:(f_equal; lia)) as (_ & l1 & l2 & Es & El).
    rewrite Es in Hg. injection Hg as <-. simpl. rewrite El in Hp.
    apply elem_of_app in Hp as [?|[[= ? ?]|?]%elem_of_cons]; apply elem_of_app; [by left| |by right].
    destruct Hpn. f_equal; lia.
  - destruct (concat_go freeing phs cpu (Freeing ptr n) Idle Hph) as (rest & E & E'). unfold freeings in *.
    rewrite E'. rewrite E in Hnd. by apply NoDup_cons in Hnd as [_ ?].
Qed.

Lemma write_ok m' :
  in_phase phs cpu Idle -> only_in (owned g) (k_mem s) m' ->
  step_ok Writes (mk_conc s g phs) (mk_conc (mk_kstate m' (head s) (heap_lock s) (cpupagelist s)) g (go phs cpu Idle)).
Proof.
  intros Hph Ho. split; [|split; [done|]].
  2:{ eapply only_in_weaken; [exact Ho|]. intros x Hx. eapply covers_regions; [exact Hinv|]. by eapply owned_covers. }
  assert (go phs cpu Idle = phs) as -> by (by apply list_insert_id).
  pose proof (write_inv lo hi s0 g m' Hinv Ho) as Hinv'. split; simpl; try done.
  by exists (mk_kstate m' (head s0) (heap_lock s0) (cpupagelist s0)).
Qed.
End Steps.

Lemma section_step_ok cpu e c c' : 0 <= cpu < cpu_count -> conc_inv c -> section_step cpu e c c' -> step_ok e c c'.
Proof.
  intros Hcpu [(s0 & Es & Hinv) Hu Hlen HL Hok Hnd] Hst. destruct Hst; simpl in *; subst s.
  - by eapply first_ok.
  - by eapply call_ok.
  - destruct (Hok _ _ H) as [Hsz Hnil]. eapply (page_ok_step cpu Hcpu phs s0 g Hinv Hu Hlen HL Hok Hnd (First sz)); by eauto.
  - by eapply first_end_ok.
  - by eapply begin_ok.
  - by eapply begin_none_ok.
  - eapply (page_ok_step cpu Hcpu phs s0 g Hinv Hu Hlen HL Hok Hnd (Want sz)); try done. exact (Hok _ _ H).
  - by eapply end_ok.
  - by eapply huge_ok.
  - by eapply free_ok.
  - by eapply free_huge_ok.
  - by eapply free_end_ok.
  - by eapply write_ok.
Qed.

Lemma flights_idle n : flights (replicate n Idle) = [].
Proof. induction n as [|n IH]; [done|]. exact IH. Qed.

Lemma freeings_idle n : freeings (replicate n Idle) = [].
Proof. induction n as [|n IH]; [done|]. exact IH. Qed.

Lemma held_idle n i : held (replicate n Idle) i = false.
Proof. unfold held. destruct (replicate n Idle !! i) as [ph|] eqn:E; [|done]. by apply lookup_replicate in E as [-> _]. Qed.

Lemma hold_idle n s : hold (held (replicate n Idle)) s = s.
Proof.
  destruct s as [sm sh sl sc]. unfold hold. cbn [k_mem head heap_lock cpupagelist]. f_equal.
  apply list_eq. intros i. rewrite list_lookup_imap, held_idle. by destruct (sc !! i).
Qed.

(** All processors idle. *)
Lemma idle_inv s g : pmm_inv lo hi s g -> cpus_used g cpu_count -> conc_inv (mk_conc s g (replicate 16 Idle)).
Proof.
  intros Hinv Hu. split; cbn [c_state c_abs c_phases].
  - exists s. split; [symmetry; apply (hold_idle 16)|done].
  - done.
  - done.
  - rewrite flights_idle. apply (Hinv.(pi_layout _ _ _ _)).
  - intros i ph Hi. by apply (lookup_replicate 16) in Hi as [-> _].
  - rewrite freeings_idle. constructor.
Qed.

Lemma conc_reachable_inv c : conc_reachable c -> conc_inv c.
Proof.
  induction 1 as [m h hl s Hs E|e c c' Hr IH (cpu & Hcpu & Hst)]; [|by eapply section_step_ok].
  pose proof (pmm_init_spec lo hi fuel cpu_count Hcount m h hl Hs) as H.
  apply wp_done in H as (? & s1 & E1 & H1 & H2 & _). rewrite E in E1. injection E1 as <- <-. by apply idle_inv.
Qed.

Lemma live_bounds s0 g r : pmm_inv lo hi s0 g -> live g r -> lo <= r.1 /\ 0 < r.2 /\ r.1 + r.2 <= hi.
Proof.
  intros Hinv [p Hp Hl|h k Hh ->].
  - destruct (page_bounds _ _ _ _ Hinv _ Hp). destruct Hl as (? & _ & _ & (? & ? & ?) & _). lia.
  - destruct (huge_facts _ _ _ _ Hinv _ _ Hh). unfold node_size. simpl. lia.
Qed.

(** C5: with any number of processors in the allocator at once, each making calls within the
    contract ([section_step]: huge requests that leave room for the header of their block,
    frees of huge blocks and of blocks of the processor's own pages that take no page header
    for a free block and lose no free block; a section is one step, with the search of [kfree]
    in the lists of other processors), at any point between two critical sections:
    the blocks in the hands of clients lie in the heap, are disjoint from one another, from
    the bytes the allocator works with and from the pages processors are about to add to their
    lists, which are disjoint themselves; the heap is well formed, and the locks are held by
    exactly the processors that are in the middle of a call of [kalloc] with their lock. *)
Theorem conc_safe c :
  conc_reachable c ->
  (exists s0, c_state c = hold (held (c_phases c)) s0 /\ pmm_inv lo hi s0 (c_abs c)) /\
  (forall r, live (c_abs c) r -> lo <= r.1 /\ 0 < r.2 /\ r.1 + r.2 <= hi) /\
  (forall r1 r2, live (c_abs c) r1 -> live (c_abs c) r2 -> r1 <> r2 -> rdisj r1 r2) /\
  (forall x, owned (c_abs c) x -> ~ metadata (c_abs c) x) /\
  (forall r f x, live (c_abs c) r -> f ∈ flights (c_phases c) -> inr r.1 r.2 x -> ~ inr f.1 f.2 x) /\
  layout lo hi (flights (c_phases c)).
Proof.
  intros [(s0 & Es & Hinv) _ _ HL _ _]%conc_reachable_inv. split; [by exists s0|]. split; [|split; [|split; [|split]]].
  - intros r. by apply (live_bounds s0).
  - by apply (live_disjoint lo hi s0).
  - intros x. by eapply owned_not_metadata.
  - intros r f x Hr Hf Hx Hx'. eapply layout_apart; [exact HL|exact Hf|exact Hx'|].
    eapply owned_covers; [exact Hinv|]. by exists r.
  - by apply layout_app_l in HL.
Qed.

(** C6: each critical section of a call within the contract (that of C5) does to the clients'
    blocks what the event it ends in says and nothing else, whatever sections other processors
    are between: a call of [kalloc] that returns hands out a block of which no byte was a
    client's, cleared if it is small, or NULL; in the section of [kfree] that puts a block
    back, and in no other, the block leaves the clients; every other section leaves the blocks
    and all their bytes alone. No section writes outside the heap. *)
Theorem conc_linear e c c' : conc_reachable c -> conc_step e c c' -> event_ok e c c' /\ in_heap c c'.
Proof.
  intros Hinv%conc_reachable_inv (cpu & Hcpu & Hst). by eapply section_step_ok.
Qed.

(** ** Progress *)

Section Progress.
Context (cpu : Z) (Hcpu : 0 <= cpu < cpu_count).

(** A section that computes on the processor's own view runs. *)
Lemma section_enabled {A} (m : M kstate A) phs ph s0 g Q :
  pmm_inv lo hi s0 g -> in_phase phs cpu ph -> oblivious (others_held phs cpu) m -> wp m (own_view ph s0 g cpu) Q ->
  exists r s', m (hold (held phs) s0) = Done r s' /\ exists s1, Q r s1.
Proof.
  intros Hinv Hph Hobl (r & s1 & E & HQ)%wp_done. exists r, (hold (others_held phs cpu) s1). split; [|eauto].
  rewrite (hold_own phs cpu ph s0 g) by (done || lia). rewrite Hobl, E. done.
Qed.

Lemma in_go phs ph ph' : in_phase phs cpu ph -> in_phase (go phs cpu ph') cpu ph'.
Proof. intros Hph. apply list_lookup_insert_eq. by eapply lookup_lt_Some. Qed.

Definition rank (ph : phase) : nat :=
  match ph with First _ => 5 | FirstGot _ _ => 4 | Again _ => 3 | Want _ => 2 | Got _ _ | Freeing _ _ => 1 | Idle => 0 end%nat.

(** The processor's next section runs and brings it nearer to the end of its call. *)
Definition advances (c : conc) (ph : phase) : Prop :=
  exists e c' ph', section_step cpu e c c' /\ in_phase (c_phases c') cpu ph' /\ (rank ph' < rank ph)%nat.

Lemma advances_one c ph :
  conc_inv c -> in_phase (c_phases c) cpu ph -> ph <> Idle -> (forall sz, ph <> FirstGot sz 0) -> advances c ph.
Proof.
  intros [(s0 & Es & Hinv) Hu Hlen HL Hok Hnd] Hph Hid Hnull. destruct c as [s g phs]. simpl in *. subst s.
  pose proof (Hok _ _ Hph) as Hphase. assert (0 <= cpu < 16) as Hc16 by lia. unfold advances.
  destruct ph as [|sz|sz p|sz|sz|sz p|ptr n]; [done|..]; simpl in Hphase.
  - destruct (section_enabled (allockpage fuel) phs (First sz) s0 g _ Hinv Hph (obl_allockpage _ _) (page_section lo hi fuel s0 g Hinv cpu))
      as (p & s' & E & _).
    eexists _, _, _. split; [by eapply sec_first_page|]. split; [by eapply in_go|simpl; lia].
  - destruct Hphase as [Hsz Hnil]. rewrite (own_list cpu Hcpu s0 g Hinv) in Hnil. injection Hnil as Hnil.
    assert (p <> 0) as Hp by (intros ->; by eapply Hnull).
    assert (flight (FirstGot sz p) = [(p, PAGE)]) as Hf by (simpl; by destruct (Z.eqb_spec p 0)).
    pose proof (flight_layout cpu phs g HL _ _ Hph Hf) as HLp.
    destruct (section_enabled (first_end cpu sz p) phs (FirstGot sz p) s0 g _ Hinv Hph (obl_first_end _ _ (spares_own _ _) _ _)
      (first_section lo hi fuel s0 g Hinv cpu sz Hc16 Hsz p HLp Hnil)) as ([] & s' & E & _).
    eexists _, _, _. split; [by eapply sec_first_end|]. split; [by eapply in_go|simpl; lia].
  - destruct (section_enabled (alloc_begin fuel cpu sz) phs (Again sz) s0 g _ Hinv Hph (obl_alloc_begin _ _ _ (spares_own _ _) _)
      (alloc_begin_spec lo hi fuel s0 g Hinv cpu sz Hc16 Hphase)) as ([r|] & s' & E & _).
    + eexists _, _, _. split; [by eapply sec_begin|]. split; [by eapply in_go|simpl; lia].
    + eexists _, _, _. split; [by eapply sec_begin_none|]. split; [by eapply in_go|simpl; lia].
  - destruct (section_enabled (allockpage fuel) phs (Want sz) s0 g _ Hinv Hph (obl_allockpage _ _) (page_section lo hi fuel s0 g Hinv cpu))
      as (p & s' & E & _).
    eexists _, _, _. split; [by eapply sec_page|]. split; [by eapply in_go|simpl; lia].
  - assert (exists r s', alloc_end cpu sz p (hold (held phs) s0) = Done r s') as (r & s' & E).
    { destruct (Z.eqb_spec p 0) as [->|Hp].
      - destruct (section_enabled (alloc_end cpu sz 0) phs (Got sz 0) s0 g _ Hinv Hph (obl_alloc_end _ _ (spares_own _ _) _ _)
          (end_section_null lo hi s0 g Hinv cpu sz Hc16)) as (r & s' & E & _). eauto.
      - assert (flight (Got sz p) = [(p, PAGE)]) as Hf by (simpl; by destruct (Z.eqb_spec p 0)).
        pose proof (flight_layout cpu phs g HL _ _ Hph Hf) as HLp.
        destruct (section_enabled (alloc_end cpu sz p) phs (Got sz p) s0 g _ Hinv Hph (obl_alloc_end _ _ (spares_own _ _) _ _)
          (end_section lo hi fuel s0 g Hinv cpu sz Hc16 Hphase p HLp)) as (r & s' & E & _). eauto. }
    eexists _, _, _. split; [by eapply sec_end|]. split; [by eapply in_go|simpl; lia].
  - destruct (section_enabled (kfree_huge fuel ptr) phs (Freeing ptr n) s0 g _ Hinv Hph (obl_kfree_huge _ _ _)
      (free_end_wp cpu Hcpu phs s0 g Hinv Hlen ptr n Hphase)) as ([] & s' & E & s2 & g' & Hg & _).
    eexists _, _, _. split; [by eapply sec_free_end|]. split; [by eapply in_go|simpl; lia].
Qed.

Lemma advances_all n c ph :
  conc_inv c -> in_phase (c_phases c) cpu ph -> (rank ph <= n)%nat ->
  exists c' ph', rtc (fun a b => exists e, section_step cpu e a b) c c' /\ in_phase (c_phases c') cpu ph' /\
    (ph' = Idle \/ exists sz, ph' = FirstGot sz 0).
Proof.
  revert c ph. induction n as [|n IH]; intros c ph Hinv Hph Hr.
  { exists c, ph. split; [done|]. split; [done|]. left. destruct ph; simpl in Hr; (done || lia). }
  destruct (decide (rank ph = 0%nat)) as [E|Hne].
  { exists c, ph. split; [done|]. split; [done|]. left. by destruct ph. }
  assert ((exists sz, ph = FirstGot sz 0) \/ (forall sz, ph <> FirstGot sz 0)) as [Hd|Hd].
  { destruct ph as [| |sz p| | | |]; try (right; done). destruct (Z.eqb_spec p 0) as [->|Hp]; [left; eauto|right; congruence]. }
  { exists c, ph. split; [done|]. split; [done|]. by right. }
  destruct (advances_one c ph Hinv Hph ltac:(by intros ->) Hd) as (e & c1 & ph1 & Hst & Hph1 & Hlt).
  destruct (section_step_ok cpu e c c1 Hcpu Hinv Hst) as [Hinv1 _].
  destruct (IH c1 ph1 Hinv1 Hph1 ltac:(lia)) as (c2 & ph2 & Hsteps & Hph2 & Hend).
  exists c2, ph2. split; [|done]. eapply rtc_l; [by exists e|done].
Qed.

(** An idle processor can call [kalloc]. *)
Lemma can_call c sz :
  conc_inv c -> in_phase (c_phases c) cpu Idle -> block_size sz ->
  exists c' ph, section_step cpu Tau c c' /\ in_phase (c_phases c') cpu ph /\ (ph = First sz \/ ph = Again sz).
Proof.
  intros [(s0 & Es & Hinv) Hu Hlen HL Hok Hnd] Hph Hsz. destruct c as [s g phs]. simpl in *. subst s.
  pose proof (ar_fuel (lo := lo) (hi := hi) (fuel := fuel)). pose proof (ar_size (lo := lo) (hi := hi) (fuel := fuel)).
  assert (0 <= cpu < 16) as Hc16 by lia. pose proof (cpu_lookup_slot lo hi s0 g Hinv cpu Hc16) as Hslot.
  destruct (section_enabled (get_pagehead cpu) phs Idle s0 g (fun _ _ => True) Hinv Hph (obl_get_pagehead _ _)) as (q & s1 & Eq & _).
  { eapply wp_get_pagehead; [lia|exact Hslot|done]. }
  assert (s1 = hold (held phs) s0) as -> by (eapply own_head; eauto).
  destruct (Z.eqb_spec q 0) as [->|Hq].
  - destruct (section_enabled (lock fuel (CpuLock cpu)) phs Idle s0 g (fun _ _ => True) Hinv Hph (obl_own_lock _ _ (spares_own _ _) _))
      as ([] & s2 & El & _).
    { eapply wp_lock_cpu; [lia|lia|exact Hslot|done|done]. }
    eexists _, (First sz). split; [by eapply sec_first|]. split; [by eapply in_go|by left].
  - eexists _, (Again sz). split; [by eapply sec_call|]. split; [by eapply in_go|by right].
Qed.

(** It can free a block of its pages, and start to free a huge one. *)
Lemma can_free c ptr n :
  conc_inv c -> in_phase (c_phases c) cpu Idle -> live (c_abs c) (ptr, n) -> (ptr, n) ∉ freeings (c_phases c) ->
  free_safe (c_abs c) ptr = true -> free_keeps (c_abs c) ptr = true -> free_local (c_abs c) cpu ptr ->
  exists e c' ph, section_step cpu e c c' /\ in_phase (c_phases c') cpu ph /\
    (e = Frees ptr n /\ ph = Idle \/ e = Tau /\ ph = Freeing ptr n).
Proof.
  intros [(s0 & Es & Hinv) Hu Hlen HL Hok Hnd] Hph Hl Hnew Hsafe Hkeep Hloc. destruct c as [s g phs]. simpl in *. subst s.
  pose proof (free_begin_spec cpu Hcpu phs s0 g Hinv Hu Hlen ptr n Hl Hsafe) as Hwp.
  destruct (section_enabled (free_begin fuel cpu_count cpu ptr) phs Idle s0 g _ Hinv Hph (obl_free_begin _ _ _ (spares_own _ _) _ _) Hwp)
    as (b & s1 & E & s2 & Hb).
  destruct (find_in (contains ptr) 0 (g_pages g)) as [x|].
  - destruct Hb as (-> & g' & Hg & _). eexists (Frees ptr n), _, Idle. split; [by eapply sec_free|].
    split; [by eapply in_go|by left].
  - destruct Hb as [-> _]. eexists Tau, _, (Freeing ptr n). split; [by eapply sec_free_huge|]. split; [by eapply in_go|by right].
Qed.
End Progress.

(** C7: no processor waits for another for good. In every reachable state a processor in the
    middle of a call gets to the end of it by its own sections alone, or to the assertion of
    line 206, which fails, when there was no memory for its first page. One that is idle can
    call [kalloc], and can free a block that takes no page header for a free block, loses no
    free block, is huge or in one of its own pages, and is not being freed already: the first
    section of [kfree] frees it, or finds that it is huge and goes on to the second. *)
Theorem conc_progress c cpu :
  conc_reachable c -> 0 <= cpu < cpu_count ->
  (exists c' ph', rtc (fun a b => exists e, section_step cpu e a b) c c' /\ in_phase (c_phases c') cpu ph' /\
    (ph' = Idle \/ exists sz, ph' = FirstGot sz 0)) /\
  (in_phase (c_phases c) cpu Idle ->
    (forall sz, block_size sz -> exists c', section_step cpu Tau c c') /\
    (forall ptr n, live (c_abs c) (ptr, n) -> (ptr, n) ∉ freeings (c_phases c) ->
      free_safe (c_abs c) ptr = true -> free_keeps (c_abs c) ptr = true -> free_local (c_abs c) cpu ptr ->
      exists e c' ph, section_step cpu e c c' /\ in_phase (c_phases c') cpu ph /\
        (e = Frees ptr n /\ ph = Idle \/ e = Tau /\ ph = Freeing ptr n))).
Proof.
  intros Hinv%conc_reachable_inv Hcpu. split.
  - assert (exists ph, in_phase (c_phases c) cpu ph) as [ph Hph].
    { apply lookup_lt_is_Some_2. rewrite (ci_len _ Hinv). lia. }
    by eapply advances_all.
  - intros Hph. split.
    + intros sz Hsz. destruct (can_call cpu Hcpu c sz Hinv Hph Hsz) as (c' & ph & Hst & _). eauto.
    + intros ptr n. by apply can_free.
Qed.
End System.

(** ** Two processors and the heap of PmmSystem.v *)

Lemma demo_conc_boot : exists c, conc_reachable demo_lo demo_hi demo_fuel 2 c /\ c_phases c = replicate 16 Idle.
Proof.
  assert (sized (demo_lo, demo_hi - demo_lo)) as Hs by (by split).
  pose proof (pmm_init_spec demo_lo demo_hi demo_fuel 2 ltac:(lia) (fun _ => 0) 0 0 Hs) as H.
  apply wp_done in H as ([] & s & E & _). eexists. split; [by eapply conc_boot|done].
Qed.

Lemma block_64 : block_size 64.
Proof. split; [lia|]. by exists 1024. Qed.

(** Processor 0 is in the middle of a call. *)
Lemma demo_conc_call : exists c c' ph, conc_reachable demo_lo demo_hi demo_fuel 2 c /\
  conc_step demo_fuel 2 Tau c c' /\ conc_reachable demo_lo demo_hi demo_fuel 2 c' /\
  in_phase (c_phases c') 0 ph /\ ph <> Idle.
Proof.
  destruct demo_conc_boot as (c & Hc & Hphs).
  destruct (can_call demo_lo demo_hi demo_fuel 2 ltac:(lia) 0 ltac:(lia) c 64) as (c' & ph & Hst & Hph & Hcall).
  - by apply (conc_reachable_inv demo_lo demo_hi demo_fuel 2).
  - by rewrite Hphs.
  - exact block_64.
  - assert (conc_step demo_fuel 2 Tau c c') as Hstep by (exists 0; split; [lia|done]).
    exists c, c', ph. split; [done|]. split; [done|]. split; [by eapply conc_next|]. split; [done|]. by destruct Hcall as [->| ->].
Qed.

Lemma conc_safe_witness : exists c ph, conc_reachable demo_lo demo_hi demo_fuel 2 c /\ in_phase (c_phases c) 0 ph /\ ph <> Idle /\
  (forall r1 r2, live (c_abs c) r1 -> live (c_abs c) r2 -> r1 <> r2 -> rdisj r1 r2).
Proof.
  destruct demo_conc_call as (_ & c & ph & _ & _ & Hc & Hph & Hid). exists c, ph. split; [done|]. split; [done|]. split; [done|].
  exact (proj1 (proj2 (proj2 (conc_safe demo_lo demo_hi demo_fuel 2 ltac:(lia) c Hc)))).
Defined.

Lemma conc_linear_witness : exists c c', conc_reachable demo_lo demo_hi demo_fuel 2 c /\
  conc_step demo_fuel 2 Tau c c' /\ event_ok Tau c c' /\ in_heap demo_lo demo_hi c c'.
Proof.
  destruct demo_conc_call as (c & c' & ph & Hc & Hst & _). exists c, c'. split; [done|]. split; [done|].
  exact (conc_linear demo_lo demo_hi demo_fuel 2 ltac:(lia) Tau c c' Hc Hst).
Defined.

Lemma conc_progress_witness : exists c ph, conc_reachable demo_lo demo_hi demo_fuel 2 c /\ in_phase (c_phases c) 0 ph /\ ph <> Idle /\
  exists c' ph', rtc (fun a b => exists e, section_step demo_fuel 2 0 e a b) c c' /\ in_phase (c_phases c') 0 ph' /\
    (ph' = Idle \/ exists sz, ph' = FirstGot sz 0).
Proof.
  destruct demo_conc_call as (_ & c & ph & _ & _ & Hc & Hph & Hid). exists c, ph. split; [done|]. split; [done|]. split; [done|].
  exact (proj1 (conc_progress demo_lo demo_hi demo_fuel 2 ltac:(lia) c 0 Hc ltac:(lia))).
Defined.
