(* ===== verification/Os.v ===== *)
(** * The kernel: kernel/src/os.c, kernel/framework/main.c and the message of pmm_init

    The kernel runs on the state of the allocator and a console. The output of a processor is
    determined by the abstract allocator ([os_run_serves]); on a machine with one processor
    the whole output is ([kernel_output]). With several, [os->run] runs on all of them at
    once: OsConc.v. *)

From Stdlib Require Import Ascii String.
From stdpp Require Import prelude.
From S2P Require Import Prelude Mem KString KStdio FreeList Kernel Heap Pmm PageSpec PageAlloc PageFree PmmInv PmmAlloc PmmFree PmmSystem.

(** ** The state *)

(** The allocator's state and the characters on the console. *)
Record os_state : Type := mk_os { os_k : kstate; os_out : list Z }.

Definition os_mem (s : os_state) : mem := k_mem (os_k s).

#[export] Instance os_has_mem : HasMem os_state :=
  {| st_mem := os_mem; st_upd := fun f s => mk_os (st_upd f (os_k s)) (os_out s); st_mem_upd := fun _ _ => eq_refl |}.

(** A call into pmm.c. *)
Definition on_heap {A} (m : M kstate A) : M os_state A := fun s =>
  match m (os_k s) with Done a k => Done a (mk_os k (os_out s)) | Fault e => Fault e end.

(** A call into stdio.c or [putch], on the same memory. *)
Definition on_console {A} (m : M kio A) : M os_state A := fun s =>
  match m (mk_kio (os_mem s) (os_out s)) with
  | Done a io => Done a (mk_os (st_upd (fun _ => io_mem io) (os_k s)) (io_out io))
  | Fault e => Fault e
  end.

(** *** String literals *)

Definition text (t : string) : list Z := (fun c => Z.of_N (N_of_ascii c)) <$> list_ascii_of_string t.

#[global] Arguments text : simpl never.

Definition nl : string := String "010" EmptyString.

Definition hello_text : string := "Hello World from CPU #*" ++ nl.
Definition heap_text : string := "Got %d MiB heap: [%x, %x)" ++ nl.
Definition hex_line : string := "%x" ++ nl.

Section Kernel.
(** Where the linker puts a string literal; [cpu_count()] and [cpu_current()]; the heap; the
    fuel of the loops. *)
Context (lit : string -> Z) (cpu_count : Z) (fuel : nat).

Definition print (t : string) (args : list Z) : M os_state unit :=
  _ ← on_console (printf fuel (lit t) args); mret tt.

(** pmm.c, lines 493-508, with the message of line 496. *)
Definition os_pmm_init (heap_start heap_end : Z) : M os_state unit :=
  let pmsize := heap_end - heap_start in
  _ ← print heap_text [Z.shiftr pmsize 20; heap_start; heap_end];
  on_heap (pmm_init cpu_count heap_start heap_end).

(** os.c, lines 2-5. *)
Definition os_init (heap_start heap_end : Z) : M os_state unit := os_pmm_init heap_start heap_end.

Section Cpu.
Context (cpu_current : Z).

Definition pmm_alloc (size : Z) : M os_state Z := on_heap (kalloc cpu_count cpu_current fuel size).
Definition pmm_free (ptr : Z) : M os_state unit := on_heap (kfree cpu_count cpu_current fuel ptr).

(** Lines 107-110, [s] being the pointer into the text. *)
Fixpoint hello_loop (k : nat) (s : Z) : M os_state unit :=
  match k with
  | O => raise OutOfFuel
  | S k =>
      c ← get8 s;
      if c =? 0 then mret tt
      else
        _ ← on_console (putch (if c =? 42 then 48 + cpu_current else c));
        hello_loop k (s + 1)
  end.

(** [printf("%x\n", pmm->alloc(size));] *)
Definition print_alloc (size : Z) : M os_state unit := p ← pmm_alloc size; print hex_line [p].

(** Lines 105-122, up to the endless loop [while(true);], without the tests of
    [#ifdef TEST] (OsTest.v). *)
Definition os_run : M os_state unit :=
  _ ← hello_loop fuel (lit hello_text);
  _ ← print_alloc 5368;
  _ ← print_alloc 4096;
  _ ← print_alloc 5368;
  print_alloc 4.
End Cpu.

End Kernel.

(** main.c, lines 4-8, on a machine with one processor: [mpe_init] runs [os->run] on the
    processor that booted, number 0, and does not return. *)
Definition main (lit : string -> Z) (fuel : nat) (heap_start heap_end : Z) : M os_state unit :=
  _ ← os_init lit 1 fuel heap_start heap_end;
  os_run lit 1 fuel 0.

(** ** What the kernel prints *)

(** [c] on the console: the bytes of [l], in front of which [s] had printed. *)
Definition shown (s : os_state) (l : list Z) : os_state := mk_os (os_k s) (os_out s ++ l).

Definition hello_chars (cpu : Z) : list Z := (fun c => if c =? 42 then 48 + cpu else c) <$> text hello_text.

(** The line for a pointer. *)
Definition line (p : Z) : list Z := hex_chars p ++ [10].

(** [kalloc] as the caller sees it: NULL when the abstract allocator has no block. *)
Definition abs_serve (g : gstate) (cpu size : Z) : Z * gstate := default (0, g) (abs_alloc g cpu size).

Fixpoint abs_serves (g : gstate) (cpu : Z) (sizes : list Z) : list Z * gstate :=
  match sizes with
  | [] => ([], g)
  | size :: sizes =>
      let (p, g1) := abs_serve g cpu size in
      let (ps, g2) := abs_serves g1 cpu sizes in (p :: ps, g2)
  end.

Definition os_sizes : list Z := [5368; 4096; 5368; 4].

Lemma wp_on_heap {A} (m : M kstate A) s (Q : A -> os_state -> Prop) :
  wp m (os_k s) (fun a k => Q a (mk_os k (os_out s))) -> wp (on_heap m) s Q.
Proof.
  intros (a & k & E & HQ)%wp_done. apply wp_eq with a (mk_os k (os_out s)); [|done]. unfold on_heap. by rewrite E.
Qed.

(** Console output that leaves memory alone. *)
Lemma wp_on_console {A} (m : M kio A) s o (Q : A -> os_state -> Prop) :
  wp m (mk_kio (os_mem s) (os_out s)) (fun a io => io_mem io = os_mem s /\ io_out io = os_out s ++ o /\ Q a (shown s o)) ->
  wp (on_console m) s Q.
Proof.
  intros (a & [im io] & E & Hm & Ho & HQ)%wp_done. simpl in Hm, Ho. subst im io.
  apply wp_eq with a (shown s o); [|done]. unfold on_console. rewrite E. by destruct s as [[km h hl cp] out].
Qed.

(** A literal in memory, apart from the heap. *)
Record literal (lo hi : Z) (lit : string -> Z) (m : mem) (t : string) : Prop := {
  lit_text : cstr m (lit t) (text t);
  lit_pos : 0 < lit t;
  lit_apart : lit t + len (text t) + 1 <= lo \/ hi <= lit t;
}.

Lemma literal_frame lo hi lit m m' t :
  only_in (inr lo (hi - lo)) m m' -> literal lo hi lit m t -> literal lo hi lit m' t.
Proof.
  intros Ho [Ht Hp Ha]. split; [|done|done]. eapply cstr_frame; [|exact Ht].
  eapply only_in_same_on; [exact Ho|]. unfold inr. lia.
Qed.

(** *** Lengths *)

Lemma width_le base n k : 2 <= base -> 0 <= n < 2 ^ 64 -> n < base ^ Z.of_nat k -> (0 < k)%nat -> (width base n <= k)%nat.
Proof.
  intros Hb Hn Hk Hk0. destruct (width_bounds base Hb n Hn) as (_ & _ & Hle).
  destruct (Nat.le_gt_cases (width base n) k) as [|Hgt]; [done|].
  assert (base ^ Z.of_nat k <= base ^ Z.of_nat (width base n - 1)) by (apply Z.pow_le_mono_r; lia).
  assert (1 < base ^ Z.of_nat k) by (apply Z.pow_gt_1; lia). lia.
Qed.

Lemma hex_chars_length p : 0 <= p < 2 ^ 64 -> (length (hex_chars p) <= 16)%nat.
Proof.
  intros Hp. unfold hex_chars. rewrite length_fmap, digits_length. apply width_le; lia.
Qed.

Section Spec.
Context (lo hi : Z) (fuel : nat) `{!Area lo hi fuel} (Hf : (128 < fuel)%nat).
Context (lit : string -> Z) (cpu_count : Z) (Hcount : 0 <= cpu_count <= 16).

(** The texts [os_run] needs are where [lit] says, and the allocator is as [g] says. *)
Record os_inv (texts : list string) (s : os_state) (g : gstate) : Prop := {
  oi_pmm : pmm_inv lo hi (os_k s) g;
  oi_used : cpus_used g cpu_count;
  oi_text : Forall (literal lo hi lit (os_mem s)) texts;
}.

Lemma os_inv_shown ts s g l : os_inv ts s g -> os_inv ts (shown s l) g.
Proof. by intros []. Qed.

Lemma print_spec ts s t args o r :
  Forall (literal lo hi lit (os_mem s)) ts -> t ∈ ts -> prints (os_mem s) (text t) args o r -> r < 2 ^ 31 ->
  (length (text t) < fuel)%nat -> (length o < fuel)%nat ->
  wp (print lit fuel t args) s (fun _ s' => s' = shown s o).
Proof.
  intros Hl Ht Hp Hr Hf1 Hf2. rewrite Forall_forall in Hl. destruct (Hl _ Ht) as [Hc Hpos _].
  apply wp_bind, wp_on_console with o.
  eapply wp_mono; [apply (printf_spec fuel ltac:(lia) (mk_kio (os_mem s) (os_out s)) (lit t) (text t) args o r); done|].
  intros v s' (_ & Hm & Ho). split; [done|]. split; [done|]. by apply wp_ret.
Qed.

Lemma alloc_spec ts s g cpu size :
  os_inv ts s g -> 0 <= cpu < cpu_count -> 0 <= size -> alloc_pre g cpu size ->
  wp (pmm_alloc cpu_count fuel cpu size) s (fun r s' => os_out s' = os_out s /\
    r = (abs_serve g cpu size).1 /\ os_inv ts s' (abs_serve g cpu size).2 /\ 0 <= r < 2 ^ 64).
Proof.
  intros [Hinv Hu Hl] Hcpu Hs Hpre. apply wp_on_heap.
  pose proof (cpus_used_alloc cpu_count g cpu size Hcpu Hu) as Hu'.
  eapply wp_mono; [apply (kalloc_spec lo hi fuel _ g cpu_count cpu size Hinv); [lia|lia|done|done]|].
  intros r k H. simpl. split; [done|]. unfold alloc_result, abs_serve in *.
  destruct (abs_alloc g cpu size) as [[a g']|] eqn:E; simpl in *.
  - destruct H as (-> & Hinv' & _ & _ & Hheap). split; [done|].
    destruct (abs_alloc_gives lo hi _ g Hinv cpu size a g') as (_ & _ & Hb1 & Hb2); [lia|done|done|].
    pose proof (rounded_ge size). pose proof (ar_lo (lo := lo) (hi := hi) (fuel := fuel)).
    pose proof (ar_hi (lo := lo) (hi := hi) (fuel := fuel)). split; [|lia]. split; [done|done|].
    eapply Forall_impl; [exact Hl|]. intros t. by apply literal_frame.
  - destruct H as [-> ->]. split; [done|]. split; [by split|lia].
Qed.

(** After one allocation of a small block a processor has a page. *)
Lemma small_pre g cpu size size' :
  (Z.to_nat cpu < length (g_pages g))%nat -> size <= 16384 -> size' <= 16384 -> alloc_pre g cpu size ->
  alloc_pre (abs_serve g cpu size).2 cpu size'.
Proof.
  intros Hlen H1 H2 Hpre. unfold alloc_pre, abs_serve, abs_alloc in *.
  destruct (Z.leb_spec size (16 * 1024)); [|lia]. destruct (Z.leb_spec size' (16 * 1024)); [|lia].
  unfold alloc_block. destruct (split_first (usable _) _) as [[[l1 pg] l2]|] eqn:Eu;
    [|destruct (split_first sizeless _) as [[[l1 pg] l2]|] eqn:Ee;
      [|destruct (take_page (g_free g)) as [[b fl']|] eqn:Et; [|simpl; by rewrite Et]]];
    simpl; unfold cpu_pages; simpl; rewrite list_lookup_insert_eq by done; simpl; [by destruct l1..|done].
Qed.

Lemma print_alloc_spec ts s g cpu size :
  os_inv ts s g -> hex_line ∈ ts -> 0 <= cpu < cpu_count -> 0 <= size -> alloc_pre g cpu size ->
  wp (print_alloc lit cpu_count fuel cpu size) s (fun _ s' =>
    os_out s' = os_out s ++ line (abs_serve g cpu size).1 /\ os_inv ts s' (abs_serve g cpu size).2).
Proof.
  intros Hinv Ht Hcpu Hs Hpre. unfold print_alloc. apply wp_bind.
  eapply wp_mono; [by eapply alloc_spec|]. intros r s' (Ho & -> & Hinv' & Hr).
  set (p := (abs_serve g cpu size).1) in *. set (g' := (abs_serve g cpu size).2) in *.
  pose proof (hex_chars_length p Hr) as Hw.
  eapply wp_mono.
  { eapply (print_spec ts s' hex_line [p] (line p)); [apply Hinv'|exact Ht| |..].
    - change (text hex_line) with [37; 120; 10].
      rewrite <- (wrap_small 64 p) at 2 by lia. apply (prints_directive _ 120 10 [] [p] [] (hex_chars (u64 p)) [] 0);
        [apply (p_hex _ p [])|apply prints_end].
    - rewrite wrap_small by lia. lia.
    - simpl. lia.
    - unfold line. rewrite length_app. simpl. lia. }
  intros _ s'' ->. split; [simpl; by rewrite Ho|by apply os_inv_shown].
Qed.

Lemma hello_loop_spec cpu l k p s :
  0 <= cpu < 16 -> cstr (os_mem s) p l -> 0 < p -> (length l < k)%nat ->
  wp (hello_loop cpu k p) s (fun _ s' => s' = shown s ((fun c => if c =? 42 then 48 + cpu else c) <$> l)).
Proof.
  intros Hcpu. revert k p s. induction l as [|c l IH]; intros k p s Hl Hp Hk; (destruct k as [|k]; simpl in Hk; [lia|]);
    cbn [hello_loop]; apply wp_bind, wp_get8; try lia; simpl st_mem.
  - simpl in Hl. rewrite Hl. apply wp_ret. unfold shown. simpl. rewrite app_nil_r. by destruct s.
  - pose proof (cstr_bytes _ _ _ Hl) as Hb. apply Forall_cons in Hb as [Hb _].
    destruct Hl as (-> & Hn & Hl). destruct (Z.eqb_spec c 0); [done|].
    set (d := if c =? 42 then 48 + cpu else c). apply wp_bind, wp_on_console with [d].
    assert (u8 d = d) as Ed by (apply wrap_small; subst d; destruct (c =? 42); simpl; lia).
    apply wp_putch. simpl. rewrite Ed. split; [done|]. split; [done|].
    eapply wp_mono; [apply IH; [exact Hl|lia|lia]|]. intros _ s' ->. unfold shown. simpl.
    by rewrite <- app_assoc.
Qed.

(** The output of a processor that is served the pointers [ps]. *)
Definition os_text (cpu : Z) (ps : list Z) : list Z := hello_chars cpu ++ concat (line <$> ps).

Definition os_texts : list string := [hello_text; hex_line].

(** Each line [os_run] prints behind its greeting is the pointer the abstract allocator
    serves, or 0. *)
Lemma os_run_serves ts s g cpu :
  os_inv ts s g -> os_texts ⊆ ts -> 0 <= cpu < cpu_count -> alloc_pre g cpu 5368 ->
  wp (os_run lit cpu_count fuel cpu) s (fun _ s' =>
    os_out s' = os_out s ++ os_text cpu (abs_serves g cpu os_sizes).1 /\ os_inv ts s' (abs_serves g cpu os_sizes).2).
Proof.
  intros Hinv Hts Hcpu Hpre. unfold os_texts in Hts.
  assert (hello_text ∈ ts /\ hex_line ∈ ts) as [Ht1 Ht2].
  { split; apply Hts; [by left|right; by left]. }
  pose proof Hinv as [Hpmm _ Hl]. rewrite Forall_forall in Hl. destruct (Hl _ Ht1) as [Hc Hp _].
  pose proof (pi_len _ _ _ _ Hpmm) as Hlen. unfold os_run. apply wp_bind.
  eapply wp_mono; [apply hello_loop_spec; [lia|exact Hc|done|simpl; lia]|]. intros _ s0 ->. fold (hello_chars cpu).
  unfold abs_serves, os_sizes, os_text.
  pose proof (os_inv_shown ts s g (hello_chars cpu) Hinv) as Hinv0.
  apply wp_bind. eapply wp_mono; [eapply print_alloc_spec; [eassumption|done|done|lia|eassumption]|]. intros _ s1 (Ho1 & Hinv1).
  pose proof (small_pre g cpu 5368 4096 ltac:(lia) ltac:(lia) ltac:(lia) Hpre) as Hpre1.
  destruct (abs_serve g cpu 5368) as [p1 g1]. simpl in *.
  pose proof (pi_len _ _ _ _ (oi_pmm _ _ _ Hinv1)) as Hlen1.
  apply wp_bind. eapply wp_mono; [eapply print_alloc_spec; [eassumption|done|done|lia|eassumption]|]. intros _ s2 (Ho2 & Hinv2).
  pose proof (small_pre g1 cpu 4096 5368 ltac:(lia) ltac:(lia) ltac:(lia) Hpre1) as Hpre2.
  destruct (abs_serve g1 cpu 4096) as [p2 g2]. simpl in *.
  pose proof (pi_len _ _ _ _ (oi_pmm _ _ _ Hinv2)) as Hlen2.
  apply wp_bind. eapply wp_mono; [eapply print_alloc_spec; [eassumption|done|done|lia|eassumption]|]. intros _ s3 (Ho3 & Hinv3).
  pose proof (small_pre g2 cpu 5368 4 ltac:(lia) ltac:(lia) ltac:(lia) Hpre2) as Hpre3.
  destruct (abs_serve g2 cpu 5368) as [p3 g3]. simpl in *.
  eapply wp_mono; [eapply print_alloc_spec; [eassumption|done|done|lia|eassumption]|]. intros _ s4 (Ho4 & Hinv4).
  destruct (abs_serve g3 cpu 4) as [p4 g4]. simpl in *. split; [|done].
  rewrite Ho4, Ho3, Ho2, Ho1. by rewrite app_nil_r, <- !app_assoc.
Qed.

(** *** From boot *)

Definition banner : list Z :=
  text "Got " ++ dec_chars (Z.shiftr (hi - lo) 20) ++ text " MiB heap: [" ++ hex_chars lo ++ text ", " ++ hex_chars hi ++ text (")" ++ nl).

Definition kernel_texts : list string := heap_text :: os_texts.

Lemma banner_prints m :
  exists r, prints m (text heap_text) [Z.shiftr (hi - lo) 20; lo; hi] banner r /\ r = len banner.
Proof.
  pose proof (ar_lo (lo := lo) (hi := hi) (fuel := fuel)). pose proof (ar_hi (lo := lo) (hi := hi) (fuel := fuel)).
  pose proof (ar_size (lo := lo) (hi := hi) (fuel := fuel)). unfold banner.
  assert (0 <= Z.shiftr (hi - lo) 20 < 2 ^ 31) as Hs.
  { rewrite Z.shiftr_div_pow2 by lia. split; [apply Z.div_pos; lia|]. apply Z.div_lt_upper_bound; lia. }
  set (n := Z.shiftr (hi - lo) 20) in *. clearbody n.
  assert (printf_dir m 100 [n; lo; hi] [lo; hi] (dec_chars n)) as Hd.
  { apply p_common; [by right; right; left|]. rewrite <- (signed_small 32 n) at 2 by (simpl; lia).
    apply d_int. rewrite signed_small by (simpl; lia). lia. }
  pose proof (p_hex m lo [hi]) as Hlo. pose proof (p_hex m hi []) as Hhi.
  rewrite wrap_small in Hlo by lia. rewrite wrap_small in Hhi by lia.
  set (D := dec_chars n) in *. set (L := hex_chars lo) in *. set (H' := hex_chars hi) in *. clearbody D L H'.
  assert (text (")" ++ nl) = [41; 10]) as -> by done. assert (text ", " = [44; 32]) as -> by done.
  eexists. split.
  - unfold text. simpl.
    repeat (apply prints_char; [by apply (bool_decide_unpack _)|]). apply (prints_directive m 100 32 _ _ [lo; hi] D); [exact Hd|].
    repeat (apply prints_char; [by apply (bool_decide_unpack _)|]). apply (prints_directive m 120 44 _ _ [hi] L); [exact Hlo|].
    apply prints_char; [by apply (bool_decide_unpack _)|]. apply (prints_directive m 120 41 _ _ [] H'); [exact Hhi|].
    apply prints_char; [by apply (bool_decide_unpack _)|]. apply prints_end.
  - rewrite !length_app. simpl. lia.
Qed.

(** What is left of a heap of one region. *)
Definition rest (a sz : Z) : list region := if sz =? 0 then [] else [(a, sz)].

Lemma take_rest a sz : PAGE <= sz -> take_page (rest a sz) = Some (a, rest (a + PAGE) (sz - PAGE)).
Proof.
  intros. unfold rest. destruct (Z.eqb_spec sz 0); [lia|]. simpl. destruct (Z.leb_spec PAGE sz); [|lia].
  destruct (Z.eqb_spec sz PAGE), (Z.eqb_spec (sz - PAGE) 0); try lia; done.
Qed.

(** The blocks a processor without pages gets from a heap of one region: the first of three
    new pages, and the second of the first. *)
Definition os_blocks (a : Z) : list Z := [a + 8192; a + PAGE + 4096; a + 16384; a + 2 * PAGE + 32].

Lemma cpu_pages_insert f pgs h cpu l :
  (Z.to_nat cpu < length pgs)%nat -> cpu_pages (mk_g f (<[Z.to_nat cpu := l]> pgs) h) cpu = l.
Proof. intros Hlen. unfold cpu_pages. simpl. by rewrite list_lookup_insert_eq. Qed.

Lemma serve_new pgs h cpu size l a sz :
  (Z.to_nat cpu < length pgs)%nat -> size <= 16384 -> PAGE <= sz ->
  Forall (fun p => usable (rounded size) p = false /\ sizeless p = false) l ->
  abs_serve (mk_g (rest a sz) (<[Z.to_nat cpu := l]> pgs) h) cpu size =
  (a + rounded size, mk_g (rest (a + PAGE) (sz - PAGE)) (<[Z.to_nat cpu := page_fresh a (rounded size) :: l]> pgs) h).
Proof.
  intros Hlen Hsize Hs Hl. unfold abs_serve, abs_alloc. destruct (Z.leb_spec size (16 * 1024)); [|lia].
  unfold alloc_block. rewrite cpu_pages_insert by done. rewrite !(proj2 (split_first_none _ l)).
  - simpl. rewrite take_rest by done. simpl. by rewrite list_insert_insert_eq.
  - eapply Forall_impl; [exact Hl|]. by intros p [].
  - eapply Forall_impl; [exact Hl|]. by intros p [].
Qed.

Lemma serves_fresh f pgs h cpu a sz :
  pgs !! Z.to_nat cpu = Some [] -> f = rest a sz -> 3 * PAGE <= sz ->
  exists l, abs_serves (mk_g f pgs h) cpu os_sizes =
    (os_blocks a, mk_g (rest (a + 3 * PAGE) (sz - 3 * PAGE)) (<[Z.to_nat cpu := l]> pgs) h).
Proof.
  intros Hc -> Hs. pose proof (lookup_lt_Some _ _ _ Hc) as Hlen.
  assert (rounded 5368 = 8192) as E1 by done. assert (rounded 4096 = 4096) as E2 by done. assert (rounded 4 = 32) as E4 by done.
  replace (mk_g (rest a sz) pgs h) with (mk_g (rest a sz) (<[Z.to_nat cpu := []]> pgs) h) by (by rewrite list_insert_id).
  unfold os_sizes. cbn [abs_serves].
  rewrite serve_new, E1 by (done || lia). rewrite serve_new, E2 by (done || lia || (rewrite E2; by repeat constructor)).
  assert (forall g', alloc_block g' cpu 8192 = abs_alloc g' cpu 5368) as Ea by done.
  unfold abs_serve at 1. rewrite <- Ea. unfold alloc_block. rewrite cpu_pages_insert by done.
  cbn [split_first page_fresh usable pg_size pg_nodes is_nil negb Z.eqb Pos.eqb andb default app first_addr]. unfold set_pages.
  cbn [g_free g_pages g_huge]. rewrite list_insert_insert_eq. cbn [id fst]. rewrite serve_new, E4.
  - replace (a + PAGE + PAGE + PAGE) with (a + 3 * PAGE) by lia. replace (sz - PAGE - PAGE - PAGE) with (sz - 3 * PAGE) by lia.
    replace (a + PAGE + PAGE + 32) with (a + 2 * PAGE + 32) by lia. by eexists.
  - done.
  - lia.
  - lia.
  - rewrite E4. by repeat constructor.
Qed.

Lemma banner_length : (length banner <= 80)%nat.
Proof.
  pose proof (ar_lo (lo := lo) (hi := hi) (fuel := fuel)). pose proof (ar_hi (lo := lo) (hi := hi) (fuel := fuel)).
  pose proof (ar_size (lo := lo) (hi := hi) (fuel := fuel)). unfold banner.
  assert (0 <= Z.shiftr (hi - lo) 20 < 2 ^ 31) as Hs.
  { rewrite Z.shiftr_div_pow2 by lia. split; [apply Z.div_pos; lia|]. apply Z.div_lt_upper_bound; lia. }
  pose proof (hex_chars_length lo ltac:(lia)). pose proof (hex_chars_length hi ltac:(lia)).
  assert (length (dec_chars (Z.shiftr (hi - lo) 20)) <= 11)%nat as Hd.
  { destruct (dec_chars_cases (Z.shiftr (hi - lo) 20)) as (k & _ & Ek & Ed & _ & _); [lia|].
    rewrite Ed. destruct (Z.ltb_spec (Z.shiftr (hi - lo) 20) 0); [lia|]. simpl.
    rewrite length_fmap, digits_length. rewrite Ek, Z.abs_eq by lia.
    assert (width 10 (Z.shiftr (hi - lo) 20) <= 10)%nat; [|lia].
    apply width_le; [lia|lia|change (10 ^ Z.of_nat 10) with 10000000000; lia|lia]. }
  rewrite !length_app. change (length (text "Got ")) with 4%nat. change (length (text " MiB heap: [")) with 12%nat.
  change (length (text ", ")) with 2%nat. change (length (text (")" ++ nl))) with 2%nat. lia.
Qed.

Lemma os_init_spec m h hl out :
  sized (lo, hi - lo) -> Forall (literal lo hi lit m) kernel_texts ->
  wp (os_init lit cpu_count fuel lo hi) (mk_os (boot_state m h hl) out) (fun _ s' =>
    os_out s' = out ++ banner /\ os_inv kernel_texts s' (init_gstate lo hi)).
Proof.
  intros Hs Hl. unfold os_init, os_pmm_init. pose proof banner_length as Hb. apply wp_bind.
  destruct (banner_prints m) as (r & Hp & Er). eapply wp_mono.
  { eapply (print_spec kernel_texts _ heap_text); [exact Hl|by left|exact Hp|lia| |lia].
    change (length (text heap_text)) with 26%nat. lia. }
  intros _ s' ->. apply wp_on_heap. eapply wp_mono; [exact (pmm_init_spec lo hi fuel cpu_count Hcount m h hl Hs)|].
  intros _ k (Hinv & Hu & Ho). split; [done|]. split; [done|done|]. eapply Forall_impl; [exact Hl|]. intros t.
  apply literal_frame. eapply only_in_weaken; [exact Ho|]. destruct Hs as [Hs1 _]. cbn [snd] in Hs1. intros x. unfold inr. lia.
Qed.

End Spec.

(** C13: the whole kernel on a machine with one processor, booted with a heap of at least a
    page: [main] initialises the allocator and [os->run] gets to its endless loop. It prints
    exactly the message of [pmm_init] with the bounds of the heap, its greeting, and a line for
    each of its four calls of [alloc] with what the abstract allocator serves, which is, with
    a heap of three pages (192 KiB), the addresses of four blocks of 8192, 4096, 8192 and 32
    bytes in three pages; the allocator is left well formed. *)
Theorem kernel_output lo hi fuel `{!Area lo hi fuel} lit m h hl :
  (128 < fuel)%nat -> sized (lo, hi - lo) -> Forall (literal lo hi lit m) kernel_texts -> PAGE <= hi - lo ->
  wp (main lit fuel lo hi) (mk_os (boot_state m h hl) []) (fun _ s' =>
    let serves := abs_serves (init_gstate lo hi) 0 os_sizes in
    os_out s' = banner lo hi ++ os_text 0 serves.1 /\ pmm_inv lo hi (os_k s') serves.2 /\
    (3 * PAGE <= hi - lo -> serves.1 = os_blocks lo)).
Proof.
  intros Hf Hs Hl Hlen. unfold main. apply wp_bind.
  eapply wp_mono; [apply (os_init_spec lo hi fuel Hf lit 1 ltac:(lia) m h hl [] Hs Hl)|]. intros _ s1 [Ho Hinv].
  assert (init_gstate lo hi = mk_g (rest lo (hi - lo)) (replicate 16 []) []) as Eg.
  { unfold init_gstate, rest. destruct Hs as [Hs _]. simpl in Hs. by destruct (Z.eqb_spec (hi - lo) 0); [lia|]. }
  eapply wp_mono.
  { apply (os_run_serves lo hi fuel Hf lit 1 ltac:(lia) kernel_texts s1 _ 0 Hinv); [intros t Ht; by right|lia|].
    rewrite Eg. unfold alloc_pre. simpl. intros _. by rewrite (take_rest fuel Hf) by lia. }
  intros _ s2 [Ho2 [Hinv2 _ _]]. split; [by rewrite Ho2, Ho|]. split; [done|]. intros Hlen3.
  destruct (serves_fresh fuel Hf (rest lo (hi - lo)) (replicate 16 []) [] 0 lo (hi - lo) eq_refl eq_refl Hlen3) as [l E].
  by rewrite Eg, E.
Qed.

(** ** A concrete boot

    A heap of six pages at 1 MiB, the literals at 4096 and on. *)

Definition boot_lo : Z := 1048576.
Definition boot_hi : Z := 1441792.
Definition boot_fuel : nat := Z.to_nat 30000.

#[export] Instance boot_area : Area boot_lo boot_hi boot_fuel.
Proof. unfold boot_lo, boot_hi, boot_fuel. split; rewrite ?Z2Nat.id; lia. Qed.

Lemma boot_fuel_enough : (128 < boot_fuel)%nat.
Proof. unfold boot_fuel. lia. Qed.

#[global] Opaque boot_fuel.

Definition boot_lit (t : string) : Z :=
  if String.eqb t heap_text then 4096 else if String.eqb t hello_text then 8192 else 12288.

Definition boot_mem : mem :=
  place 4096 (text heap_text) (place 8192 (text hello_text) (place 12288 (text hex_line) no_mem)).

Lemma boot_literals : Forall (literal boot_lo boot_hi boot_lit boot_mem) kernel_texts.
Proof.
  repeat (constructor; [split; [vm_compute; repeat split; intros ?; discriminate|vm_compute; reflexivity|left; vm_compute; intros ?; discriminate]|]).
  constructor.
Qed.

(** What the theorem says of this boot, as text. *)
Lemma boot_text :
  banner boot_lo boot_hi ++ os_text 0 (os_blocks boot_lo) =
  text ("Got 0 MiB heap: [100000, 160000)" ++ nl ++
        "Hello World from CPU #0" ++ nl ++ "102000" ++ nl ++ "111000" ++ nl ++ "104000" ++ nl ++ "120020" ++ nl).
Proof. vm_compute. reflexivity. Qed.

Lemma kernel_output_witness :
  wp (main boot_lit boot_fuel boot_lo boot_hi) (mk_os (boot_state boot_mem 0 0) []) (fun _ s' =>
    os_out s' = banner boot_lo boot_hi ++ os_text 0 (os_blocks boot_lo)).
Proof.
  eapply wp_mono.
  { apply (kernel_output boot_lo boot_hi boot_fuel boot_lit boot_mem 0 0 boot_fuel_enough); [split; vm_compute; done|exact boot_literals|].
    vm_compute. done. }
  intros _ s' (Ho & _ & Hserves). rewrite Ho, Hserves; [reflexivity|]. vm_compute. done.
Defined.
