(* ===== verification/OsTest.v ===== *)
(** * The tests of the kernel: kernel/src/os.c, lines 7-104, compiled with [TEST]

    [tests_pass]: the three tests, run one after the other on a processor, end with every
    assertion true and every block they took given back, whenever the abstract allocator can
    serve them. *)

From Stdlib Require Import Ascii String.
From stdpp Require Import prelude.
From S2P Require Import Prelude Mem KString KStdio FreeList Kernel Heap Pmm PageSpec PageAlloc PageFree PmmInv PmmAlloc PmmFree PmmSystem Os.

(** ** The code *)

(** A function that returns, or one that called [halt(code)]. *)
Inductive flow (A : Type) : Type := Goes_on (a : A) | Halts (code : Z).
Arguments Goes_on {A} a.
Arguments Halts {A} code.

Definition going {A B} (f : A -> M os_state (flow B)) (r : flow A) : M os_state (flow B) :=
  match r with Goes_on a => f a | Halts code => mret (Halts code) end.

Definition add_null : string := "add is NULL".
Definition add3_null : string := "add3 is NULL".
Definition add2_i_null : string := "add2[%d] is NULL".
Definition add_line : string := "add: %x" ++ nl.
Definition add1_i_line : string := "add1[%d]: %x" ++ nl.
Definition add2_i_line : string := "add2[%d]: %x" ++ nl.
Definition add1_line : string := "add1: %x" ++ nl.
Definition add2_line : string := "add2: %x" ++ nl.
Definition add3_line : string := "add3: %x" ++ nl.

Section Tests.
Context (lit : string -> Z) (cpu_count : Z) (fuel : nat) (cpu_current : Z).

(** The shape of every allocation of the tests: a message and [halt(1)] for NULL, otherwise a
    line with the pointer. *)
Definition alloc_shown (size : Z) (null ok : string) (args : list Z) : M os_state (flow Z) :=
  add ← pmm_alloc cpu_count fuel cpu_current size;
  if add =? 0 then
    _ ← print lit fuel null args;
    mret (Halts 1)
  else
    _ ← print lit fuel ok (args ++ [add]);
    mret (Goes_on add).

(** [*(int * )(p + off) = v] and its value. *)
Definition set_int (p off v : Z) : M os_state unit := write_le 4 p off v.
Definition get_int (p off : Z) : M os_state Z := x ← read_le 4 p off; mret (i32 x).

(** Lines 8-25. The loop of lines 19-22 does nothing. *)
Definition os_run_test3 : M os_state (flow unit) :=
  add ← alloc_shown (64 * 4096) add_null add_line [];
  going (fun add =>
    _ ← pmm_free cpu_count fuel cpu_current add;
    mret (Goes_on tt)) add.

(** Lines 29-50, [n] elements of the arrays [add1] and [add2] being left from number [i]. *)
Fixpoint test1_fill (n : nat) (i : Z) : M os_state (flow (list (Z * Z))) :=
  match n with
  | O => mret (Goes_on [])
  | S n =>
      add1 ← alloc_shown 24 add_null add1_i_line [i];
      going (fun add1 =>
        _ ← set_int add1 0 9876;
        _ ← set_int add1 20 114514;
        add2 ← alloc_shown 64 add2_i_null add2_i_line [i];
        going (fun add2 =>
          l ← test1_fill n (i + 1);
          going (fun l => mret (Goes_on ((add1, add2) :: l))) l) add2) add1
  end.

(** Lines 51-58: the arguments of the assertions are assignments. *)
Fixpoint test1_release (l : list (Z * Z)) : M os_state unit :=
  match l with
  | [] => mret tt
  | (add1, add2) :: l =>
      _ ← set_int add1 0 9876;
      _ ← c_assert (negb (9876 =? 0));
      _ ← set_int add1 20 114514;
      _ ← c_assert (negb (114514 =? 0));
      _ ← pmm_free cpu_count fuel cpu_current add1;
      _ ← pmm_free cpu_count fuel cpu_current add2;
      test1_release l
  end.

(** Lines 26-59. *)
Definition os_run_test1 : M os_state (flow unit) :=
  l ← test1_fill 100 0;
  going (fun l => _ ← test1_release l; mret (Goes_on tt)) l.

(** Lines 88-102: the blocks are written and freed, and what remains is checked after each. *)
Definition test2_check (add1 add2 add3 : Z) : M os_state (flow unit) :=
  _ ← set_int add3 0 543210;
  _ ← set_int add3 796 114514;
  _ ← pmm_free cpu_count fuel cpu_current add2;
  v ← get_int add1 0; _ ← c_assert (v =? 9876);
  v ← get_int add1 1016; _ ← c_assert (v =? 114514);
  v ← get_int add3 0; _ ← c_assert (v =? 543210);
  v ← get_int add3 796; _ ← c_assert (v =? 114514);
  _ ← pmm_free cpu_count fuel cpu_current add1;
  v ← get_int add3 0; _ ← c_assert (v =? 543210);
  v ← get_int add3 796; _ ← c_assert (v =? 114514);
  _ ← pmm_free cpu_count fuel cpu_current add3;
  mret (Goes_on tt).

(** Lines 60-103. *)
Definition os_run_test2 : M os_state (flow unit) :=
  add1 ← alloc_shown 1020 add_null add1_line [];
  going (fun add1 =>
    _ ← set_int add1 0 9876;
    _ ← set_int add1 1016 114514;
    add2 ← alloc_shown 510 add3_null add2_line [];
    going (fun add2 =>
      add3 ← alloc_shown 800 add3_null add3_line [];
      going (fun add3 => test2_check add1 add2 add3) add3) add2) add1.

(** Lines 112-114. *)
Definition os_run_tests : M os_state (flow unit) :=
  r ← os_run_test1;
  going (fun _ =>
    r ← os_run_test2;
    going (fun _ => os_run_test3) r) r.
End Tests.

(** ** The tests on the abstract allocator

    The same calls on the abstract allocator; [None] where the code's precondition fails, the
    allocator has no block, or freeing would lose a node. The characters printed come along. *)

Definition is_some {A} (o : option A) : bool := match o with Some _ => true | None => false end.

Definition alloc_okb (g : gstate) (cpu size : Z) : bool :=
  if size <=? 16 * 1024 then negb (is_nil (cpu_pages g cpu)) || is_some (take_page (g_free g))
  else if size <=? 16 * 1024 * 1024 then huge_room g (rounded size)
  else true.

Definition abs_get (g : gstate) (cpu size : Z) : option (Z * gstate) :=
  if alloc_okb g cpu size then abs_alloc g cpu size else None.

Definition abs_put (g : gstate) (ptr : Z) : option gstate :=
  if free_safe g ptr && free_keeps g ptr then abs_free g ptr else None.

(** "add: p" and "add1[i]: p". *)
Definition add_text (name : string) (p : Z) : list Z := text (name ++ ": ") ++ line p.
Definition add_i_text (name : string) (i p : Z) : list Z := text (name ++ "[") ++ dec_chars i ++ text "]: " ++ line p.

Section Abstract.
Context (cpu : Z).

Fixpoint abs_fill (n : nat) (i : Z) (g : gstate) : option (list (Z * Z) * list Z * gstate) :=
  match n with
  | O => Some ([], [], g)
  | S n =>
      '(p1, g) ← abs_get g cpu 24;
      '(p2, g) ← abs_get g cpu 64;
      '(l, o, g) ← abs_fill n (i + 1) g;
      Some ((p1, p2) :: l, add_i_text "add1" i p1 ++ add_i_text "add2" i p2 ++ o, g)
  end.

Fixpoint abs_release (l : list (Z * Z)) (g : gstate) : option gstate :=
  match l with
  | [] => Some g
  | (p1, p2) :: l =>
      g ← abs_put g p1;
      g ← abs_put g p2;
      abs_release l g
  end.

Definition abs_test1 (g : gstate) : option (list Z * gstate) :=
  '(l, o, g) ← abs_fill 100 0 g;
  g ← abs_release l g;
  Some (o, g).

Definition abs_test2 (g : gstate) : option (list Z * gstate) :=
  '(p1, g) ← abs_get g cpu 1020;
  '(p2, g) ← abs_get g cpu 510;
  '(p3, g) ← abs_get g cpu 800;
  g ← abs_put g p2;
  g ← abs_put g p1;
  g ← abs_put g p3;
  Some (add_text "add1" p1 ++ add_text "add2" p2 ++ add_text "add3" p3, g).

Definition abs_test3 (g : gstate) : option (list Z * gstate) :=
  '(p, g) ← abs_get g cpu (64 * 4096);
  g ← abs_put g p;
  Some (add_text "add" p, g).

Definition abs_tests (g : gstate) : option (list Z * gstate) :=
  '(o1, g) ← abs_test1 g;
  '(o2, g) ← abs_test2 g;
  '(o3, g) ← abs_test3 g;
  Some (o1 ++ o2 ++ o3, g).
End Abstract.

(** ** The code computes it *)

Lemma alloc_okb_pre g cpu size : alloc_okb g cpu size = true -> alloc_pre g cpu size.
Proof.
  unfold alloc_okb, alloc_pre. destruct (size <=? 16 * 1024); [|by destruct (size <=? _)].
  intros H Hnil. rewrite Hnil in H. simpl in H. by destruct (take_page (g_free g)).
Qed.

(** Lines of the format of the tests. *)
Lemma prints_plain m pre l args o r :
  Forall (fun c => c ∉ [9; 37]) pre -> prints m l args o r -> prints m (pre ++ l) args (pre ++ o) (r + len pre).
Proof.
  intros Hpre Hl. induction Hpre as [|c pre Hc Hpre IH]; simpl; [by rewrite Z.add_0_r|].
  replace (r + Z.of_nat (S (length pre))) with (r + len pre + 1) by lia. by apply prints_char.
Qed.

Lemma prints_line m pre p :
  Forall (fun c => c ∉ [9; 37]) pre -> 0 <= p < 2 ^ 64 ->
  prints m (pre ++ [37; 120; 10]) [p] (pre ++ line p) (len (hex_chars p) + 1 + len pre).
Proof.
  intros Hpre Hp. apply prints_plain; [done|]. unfold line. rewrite <- (wrap_small 64 p) at 2 3 by lia.
  apply (prints_directive m 120 10 [] [p] [] (hex_chars (u64 p)) [] 0); [apply (p_hex m p [])|apply prints_end].
Qed.

Lemma prints_indexed m pre i p :
  Forall (fun c => c ∉ [9; 37]) pre -> 0 <= i < 2 ^ 31 -> 0 <= p < 2 ^ 64 ->
  prints m (pre ++ 37 :: 100 :: [93; 58; 32] ++ [37; 120; 10]) [i; p] (pre ++ dec_chars i ++ [93; 58; 32] ++ line p)
    (len (hex_chars p) + 1 + 2 + len (dec_chars i) + 1 + len pre).
Proof.
  intros Hpre Hi Hp. apply prints_plain; [done|].
  apply (prints_directive m 100 93 ([58; 32] ++ [37; 120; 10]) [i; p] [p] (dec_chars i) ([58; 32] ++ line p) (len (hex_chars p) + 1 + 2)).
  - apply p_common; [by right; right; left|]. rewrite <- (signed_small 32 i) at 2 by (simpl; lia). apply d_int.
    rewrite signed_small by (simpl; lia). lia.
  - apply (prints_line m [58; 32] p); [|done]. repeat (constructor; [by apply (bool_decide_unpack _)|]). constructor.
Qed.

Section Spec.
Context (lo hi : Z) (fuel : nat) `{!Area lo hi fuel} (Hf : (128 < fuel)%nat).
Context (lit : string -> Z) (cpu_count : Z) (Hcount : 0 <= cpu_count <= 16).
Context (cpu : Z) (Hcpu : 0 <= cpu < cpu_count) (ts : list string).
Abbreviation inv := (os_inv lo hi lit cpu_count ts) (only parsing).

(** *** One operation *)

Lemma get_spec s g size p g' :
  inv s g -> 0 <= size -> abs_get g cpu size = Some (p, g') ->
  wp (pmm_alloc cpu_count fuel cpu size) s (fun r s' => r = p /\ os_out s' = os_out s /\ inv s' g' /\ same_on (owned g) (os_mem s) (os_mem s')) /\
  0 < p < 2 ^ 64 /\ (forall b, live g' b <-> live g b \/ b = (p, rounded size)) /\ ~ live g (p, rounded size).
Proof.
  intros [Hinv Hu Hl] Hs Hg. unfold abs_get in Hg. destruct (alloc_okb g cpu size) eqn:Ep; [|done].
  apply alloc_okb_pre in Ep. pose proof (rounded_ge size).
  pose proof (ar_lo (lo := lo) (hi := hi) (fuel := fuel)). pose proof (ar_hi (lo := lo) (hi := hi) (fuel := fuel)).
  destruct (abs_alloc_gives lo hi _ g Hinv cpu size p g') as (Hlive & Hfresh & Hb1 & Hb2); [lia|done|done|].
  split; [|split; [lia|split; [done|]]].
  - apply wp_on_heap. eapply wp_mono; [apply (kalloc_spec lo hi fuel _ g cpu_count cpu size Hinv); [lia|lia|done|done]|].
    intros r k H'. rewrite Hg in H'. destruct H' as (-> & Hinv' & Hsame & _ & Hheap). split; [done|]. split; [done|].
    split; [|done]. split; [done| |].
    + pose proof (cpus_used_alloc cpu_count g cpu size Hcpu Hu) as Hu'. by rewrite Hg in Hu'.
    + eapply Forall_impl; [exact Hl|]. intros t. by apply literal_frame.
  - intros Hlv. apply (Hfresh p); [unfold inr; lia|]. exists (p, rounded size). split; [done|]. unfold inr. simpl. lia.
Qed.

Lemma put_spec s g ptr n g' :
  inv s g -> live g (ptr, n) -> abs_put g ptr = Some g' ->
  wp (pmm_free cpu_count fuel cpu ptr) s (fun _ s' => os_out s' = os_out s /\ inv s' g' /\ same_on (others g ptr n) (os_mem s) (os_mem s')) /\
  (forall b, live g' b <-> live g b /\ b <> (ptr, n)).
Proof.
  intros [Hinv Hu Hl] Hlv Hg. unfold abs_put in Hg. destruct (free_safe g ptr) eqn:Es; [|done].
  destruct (free_keeps g ptr) eqn:Ek; [|done]. simpl in Hg. split; [|by eapply (abs_free_live lo hi _ g Hinv)].
  apply wp_on_heap. eapply wp_mono; [apply (kfree_spec lo hi fuel _ g Hinv cpu_count cpu Hcpu ltac:(lia) Hu ptr n Hlv Es)|].
  intros _ k (g1 & Eg & Hinv' & Hsame & Hheap). rewrite Hg in Eg. injection Eg as <-. split; [done|]. split; [|done].
  split; [done|by eapply cpus_used_free|]. eapply Forall_impl; [exact Hl|]. intros t. by apply literal_frame.
Qed.

(** A client writes an [int] to a block it holds. *)
Lemma set_int_spec s g p n off v :
  inv s g -> live g (p, n) -> 0 < p -> 0 <= off -> off + 4 <= n ->
  wp (set_int p off v) s (fun _ s' => s' = mk_os (st_upd (fun m => store32 m (p + off) v) (os_k s)) (os_out s) /\ inv s' g).
Proof.
  intros [Hinv Hu Hl] Hlv Hp Ho1 Ho2. apply wp_write; [lia|]. split; [done|].
  assert (only_in (owned g) (os_mem s) (store32 (os_mem s) (p + off) v)) as Hown.
  { apply only_in_store; [done|]. intros x Hx. exists (p, n). split; [done|]. unfold inr in *. simpl in *. lia. }
  split; [by apply (write_inv lo hi (os_k s) g)|done|]. eapply Forall_impl; [exact Hl|]. intros t. apply literal_frame.
  eapply only_in_weaken; [exact Hown|]. intros x Hx. eapply covers_regions; [exact Hinv|].
  by eapply owned_covers.
Qed.

(** An allocation and its line. *)
Lemma shown_spec s g size null ok args p g' o r :
  inv s g -> 0 <= size -> abs_get g cpu size = Some (p, g') -> ok ∈ ts ->
  (forall m, prints m (text ok) (args ++ [p]) o r) -> r < 2 ^ 31 -> (length (text ok) < 128)%nat -> (length o < 128)%nat ->
  wp (alloc_shown lit cpu_count fuel cpu size null ok args) s (fun v s' =>
    v = Goes_on p /\ os_out s' = os_out s ++ o /\ inv s' g' /\ same_on (owned g) (os_mem s) (os_mem s')).
Proof.
  intros Hinv Hs Hg Ht Hp Hr Hl1 Hl2. destruct (get_spec s g size p g' Hinv Hs Hg) as (Hw & Hpos & _).
  unfold alloc_shown. apply wp_bind. eapply wp_mono; [exact Hw|]. intros r' s1 (-> & Ho & Hinv1 & Hsame).
  destruct (Z.eqb_spec p 0); [lia|]. apply wp_bind.
  eapply wp_mono.
  { eapply (print_spec lo hi fuel Hf lit ts s1 ok (args ++ [p]) o r); [apply Hinv1|done|done|done|lia|lia]. }
  intros _ s' ->. apply wp_ret. split; [done|]. split; [simpl; by rewrite Ho|]. split; [by apply os_inv_shown|exact Hsame].
Qed.

Lemma add_text_prints name ok pre p :
  text ok = pre ++ [37; 120; 10] -> text (name ++ ": ") = pre -> bool_decide (Forall (fun c => c ∉ [9; 37]) pre) = true ->
  (length pre < 64)%nat -> 0 <= p < 2 ^ 64 ->
  (forall m, prints m (text ok) ([] ++ [p]) (add_text name p) (len (hex_chars p) + 1 + len pre)) /\
  len (hex_chars p) + 1 + len pre < 2 ^ 31 /\ (length (text ok) < 128)%nat /\ (length (add_text name p) < 128)%nat.
Proof.
  intros Eok Ep Hpre%bool_decide_eq_true_1 Hlen Hp. pose proof (hex_chars_length p Hp). unfold add_text, line. rewrite Ep, Eok, !length_app. simpl.
  split; [intros m; by apply prints_line|lia].
Qed.

Lemma dec_chars_short i : 0 <= i < 100 -> (length (dec_chars i) <= 2)%nat.
Proof.
  intros Hi. destruct (dec_chars_cases i) as (k & _ & Ek & Ed & _ & _); [lia|].
  rewrite Ed. destruct (Z.ltb_spec i 0); [lia|]. simpl. rewrite length_fmap, digits_length, Ek, Z.abs_eq by lia.
  apply width_le; [lia|lia|change (10 ^ Z.of_nat 2) with 100; lia|lia].
Qed.

Lemma add_i_text_prints name ok pre i p :
  text ok = pre ++ [37; 100; 93; 58; 32; 37; 120; 10] -> text (name ++ "[") = pre ->
  bool_decide (Forall (fun c => c ∉ [9; 37]) pre) = true -> (length pre < 64)%nat -> 0 <= i < 100 -> 0 <= p < 2 ^ 64 ->
  exists r, (forall m, prints m (text ok) ([i] ++ [p]) (add_i_text name i p) r) /\
  r < 2 ^ 31 /\ (length (text ok) < 128)%nat /\ (length (add_i_text name i p) < 128)%nat.
Proof.
  intros Eok Ep Hpre%bool_decide_eq_true_1 Hlen Hi Hp. pose proof (hex_chars_length p Hp). pose proof (dec_chars_short i Hi).
  unfold add_i_text. change (text "]: ") with [93; 58; 32]. rewrite Ep, Eok. eexists.
  split; [intros m; apply prints_indexed; [done|lia|done]|]. unfold line. rewrite !length_app. simpl. lia.
Qed.

(** *** Words that clients have written *)

(** An [int] at offset [off] of a block. *)
Definition word_ok (g : gstate) (m : mem) (b : region) (off v : Z) : Prop :=
  live g b /\ 0 <= off /\ off + 4 <= b.2 /\ loadi32 m (b.1 + off) = v.

Lemma word_keep g g' m m' b off v (P : Z -> Prop) :
  word_ok g m b off v -> live g' b -> same_on P m m' -> (forall x, inr b.1 b.2 x -> P x) -> word_ok g' m' b off v.
Proof.
  intros (Hlv & H1 & H2 & <-) Hlv' Hs HP. split; [done|]. split; [done|]. split; [done|]. unfold loadi32. f_equal.
  eapply same_on_load; [exact Hs|]. intros x Hx. apply HP. unfold inr in *; simpl in *; lia.
Qed.

Lemma word_get g g' m m' b off v :
  word_ok g m b off v -> (forall b, live g b -> live g' b) -> same_on (owned g) m m' -> word_ok g' m' b off v.
Proof. intros Hw Hl Hs. pose proof Hw as (Hlv & _). eapply word_keep; [exact Hw|by apply Hl|exact Hs|]. intros x Hx. by exists b. Qed.

Lemma word_put lo' hi' k g g' m m' b off v ptr n :
  pmm_inv lo' hi' k g -> live g (ptr, n) -> b <> (ptr, n) -> (forall b, live g' b <-> live g b /\ b <> (ptr, n)) ->
  same_on (others g ptr n) m m' -> word_ok g m b off v -> word_ok g' m' b off v.
Proof.
  intros Hinv Hlv Hne Hl Hs Hw. pose proof Hw as (Hb & _). eapply word_keep; [exact Hw|by apply Hl|exact Hs|].
  intros x Hx. split; [by exists b|]. intros Hx'. pose proof (live_disjoint lo' hi' k g Hinv b (ptr, n) Hb Hlv Hne) as Hd.
  unfold rdisj, inr in *. simpl in *. lia.
Qed.

(** A store to another block, or elsewhere in the block. *)
Lemma word_set lo' hi' k g m b off v c off' v' :
  pmm_inv lo' hi' k g -> live g c -> 0 <= off' -> off' + 4 <= c.2 -> b <> c \/ off + 4 <= off' \/ off' + 4 <= off ->
  word_ok g m b off v -> word_ok g (store32 m (c.1 + off') v') b off v.
Proof.
  intros Hinv Hc Ho1 Ho2 Hne (Hb & H1 & H2 & <-). split; [done|]. split; [done|]. split; [done|].
  apply loadi32_store32_ne. destruct (decide (b = c)) as [->|Hbc]; [destruct Hne as [?|?]; [done|lia]|].
  pose proof (live_disjoint lo' hi' k g Hinv b c Hb Hc Hbc) as Hd. unfold rdisj in Hd. simpl in *. lia.
Qed.

Lemma word_new g m b off v : live g b -> 0 <= off -> off + 4 <= b.2 -> i32 v = v -> word_ok g (store32 m (b.1 + off) v) b off v.
Proof. intros Hb H1 H2 Hv. split; [done|]. split; [done|]. split; [done|]. by rewrite loadi32_store32. Qed.

(** Several of them. *)
Definition words (g : gstate) (m : mem) : list (region * Z * Z) -> Prop :=
  Forall (fun w => word_ok g m w.1.1 w.1.2 w.2).

Lemma words_get g g' m m' ws :
  words g m ws -> (forall b, live g b -> live g' b) -> same_on (owned g) m m' -> words g' m' ws.
Proof. intros Hw Hl Hs. eapply Forall_impl; [exact Hw|]. intros w Hw'. exact (word_get g g' m m' _ _ _ Hw' Hl Hs). Qed.

Lemma words_put s g g' m' ws ptr n :
  inv s g -> live g (ptr, n) -> Forall (fun w => w.1.1 <> (ptr, n)) ws -> (forall b, live g' b <-> live g b /\ b <> (ptr, n)) ->
  same_on (others g ptr n) (os_mem s) m' -> words g (os_mem s) ws -> words g' m' ws.
Proof.
  intros Hinv Hlv Hne Hl Hs Hw. unfold words in *. rewrite Forall_forall in *. intros w Hin.
  eapply (word_put lo hi); [apply Hinv|exact Hlv|by apply Hne|exact Hl|exact Hs|by apply Hw].
Qed.

(** A store makes a new word; the others are in other blocks or elsewhere in the block. *)
Lemma words_set s g ws p n off v :
  inv s g -> live g (p, n) -> 0 < p -> 0 <= off -> off + 4 <= n -> i32 v = v ->
  Forall (fun w => w.1.1 <> (p, n) \/ w.1.2 + 4 <= off \/ off + 4 <= w.1.2) ws -> words g (os_mem s) ws ->
  wp (set_int p off v) s (fun _ s' => os_out s' = os_out s /\ inv s' g /\ words g (os_mem s') (((p, n), off, v) :: ws)).
Proof.
  intros Hinv Hlv Hp Ho1 Ho2 Hv Hne Hw. eapply wp_mono; [by eapply set_int_spec|]. intros _ s' [-> Hinv'].
  split; [done|]. split; [done|]. constructor.
  - by apply (word_new g (os_mem s) (p, n)).
  - rewrite Forall_forall in *. intros w Hin. unfold words in Hw. rewrite Forall_forall in Hw.
    apply (word_set lo hi (os_k s) g (os_mem s) _ _ _ (p, n)); [apply Hinv|done|done|done|by apply Hne|by apply Hw].
Qed.

(** A word is what [get_int] reads: the assertion on it holds. *)
Lemma assert_word {A} (f : M os_state A) s g ws p n off v (Q : A -> os_state -> Prop) :
  words g (os_mem s) ws -> ((p, n), off, v) ∈ ws -> 0 < p -> wp f s Q ->
  wp (x ← get_int p off; _ ← c_assert (x =? v); f) s Q.
Proof.
  intros Hw Hin Hp HQ. unfold words in Hw. rewrite Forall_forall in Hw. destruct (Hw _ Hin) as (_ & _ & _ & Hv).
  simpl in Hv. unfold get_int. apply wp_bind, wp_bind, wp_read; [lia|]. apply wp_ret. apply wp_bind, wp_assert; [|done].
  unfold loadi32 in Hv. simpl. rewrite Hv. apply Z.eqb_refl.
Qed.

(** *** The tests *)

(** From [s] the run went to [s']: it printed [o], and the blocks of the clients are those of
    before. *)
Definition passed (s : os_state) (g : gstate) (o : list Z) (g' : gstate) (r : flow unit) (s' : os_state) : Prop :=
  r = Goes_on tt /\ os_out s' = os_out s ++ o /\ inv s' g' /\ (forall b, live g' b <-> live g b).

Lemma test3_spec s g o g' :
  inv s g -> add_line ∈ ts -> abs_test3 cpu g = Some (o, g') ->
  wp (os_run_test3 lit cpu_count fuel cpu) s (passed s g o g').
Proof.
  intros Hinv Ht. unfold abs_test3, os_run_test3. destruct (abs_get g cpu (64 * 4096)) as [[p g1]|] eqn:E1; [|done].
  simpl. destruct (abs_put g1 p) as [g2|] eqn:E2; [|done]. intros [= <- <-].
  destruct (get_spec s g (64 * 4096) p g1 Hinv ltac:(lia) E1) as (_ & Hp & Hl1 & Hn1).
  destruct (add_text_prints "add" add_line (text "add: ") p ltac:(done) ltac:(done) ltac:(done) ltac:(simpl; lia) ltac:(lia))
    as (Hpr & Hr & Ha & Hb).
  apply wp_bind. eapply wp_mono; [eapply (shown_spec s g _ _ _ [] p g1); [exact Hinv|lia|exact E1|exact Ht|exact Hpr|done..]|].
  intros v s1 (-> & Ho1 & Hinv1 & _). simpl going.
  destruct (put_spec s1 g1 p _ g2 Hinv1 ltac:(apply Hl1; by right) E2) as (Hw & Hl2).
  apply wp_bind. eapply wp_mono; [exact Hw|]. intros _ s2 (Ho2 & Hinv2 & _). apply wp_ret.
  split; [done|]. split; [by rewrite Ho2, Ho1|]. split; [done|]. intros b. rewrite Hl2, Hl1. split; [tauto|].
  intros Hb'. split; [by left|]. by intros ->.
Qed.

Lemma add_shown s g size null name ok pre p g' :
  text ok = pre ++ [37; 120; 10] -> text (name ++ ": ") = pre -> bool_decide (Forall (fun c => c ∉ [9; 37]) pre) = true ->
  (length pre < 64)%nat -> inv s g -> 0 <= size -> ok ∈ ts -> abs_get g cpu size = Some (p, g') ->
  wp (alloc_shown lit cpu_count fuel cpu size null ok []) s (fun v s' =>
    v = Goes_on p /\ os_out s' = os_out s ++ add_text name p /\ inv s' g' /\ same_on (owned g) (os_mem s) (os_mem s')) /\
  0 < p /\ (forall b, live g' b <-> live g b \/ b = (p, rounded size)) /\ ~ live g (p, rounded size).
Proof.
  intros Eok Ep Hpre Hlen Hinv Hs Ht Hg. destruct (get_spec s g size p g' Hinv Hs Hg) as (_ & Hp & Hl & Hn).
  destruct (add_text_prints name ok pre p Eok Ep Hpre Hlen ltac:(lia)) as (Hpr & Hr & Ha & Hb).
  split; [|split; [lia|done]]. by eapply (shown_spec s g size null ok [] p g').
Qed.

Lemma test2_check_spec s g g1 g2 g3 p1 p2 p3 :
  inv s g -> 0 < p1 -> 0 < p3 -> live g (p1, 1024) -> live g (p2, 512) -> live g (p3, 1024) -> p1 <> p3 ->
  words g (os_mem s) [((p1, 1024), 1016, 114514); ((p1, 1024), 0, 9876)] ->
  abs_put g p2 = Some g1 -> abs_put g1 p1 = Some g2 -> abs_put g2 p3 = Some g3 ->
  wp (test2_check cpu_count fuel cpu p1 p2 p3) s (fun r s' => r = Goes_on tt /\ os_out s' = os_out s /\ inv s' g3 /\
    (forall b, live g3 b <-> live g b /\ b <> (p1, 1024) /\ b <> (p2, 512) /\ b <> (p3, 1024))).
Proof.
  intros Hinv Hp1 Hp3 Hb1 Hb2 Hb3 Hne Hw E1 E2 E3. unfold test2_check.
  assert ((p1, 1024) <> (p3, 1024)) as H13 by congruence. assert ((p1, 1024) <> (p2, 512)) as H12 by done.
  assert ((p3, 1024) <> (p2, 512)) as H32 by done.
  apply wp_bind. eapply wp_mono; [eapply (words_set s g _ p3 1024 0 543210 Hinv); [done|done|lia|lia|done| |exact Hw]|].
  { repeat (constructor; [by left|]). constructor. }
  intros _ s1 (Ho1 & Hinv1 & Hw1).
  apply wp_bind. eapply wp_mono; [eapply (words_set s1 g _ p3 1024 796 114514 Hinv1); [done|done|lia|lia|done| |exact Hw1]|].
  { constructor; [right; simpl; lia|]. repeat (constructor; [by left|]). constructor. }
  intros _ s2 (Ho2 & Hinv2 & Hw2).
  destruct (put_spec s2 g p2 512 g1 Hinv2 Hb2 E1) as (Hput & Hl1).
  apply wp_bind. eapply wp_mono; [exact Hput|]. intros _ s3 (Ho3 & Hinv3 & Hs3).
  eapply (words_put s2 g g1 (os_mem s3) _ p2 512 Hinv2 Hb2) in Hw2; [|by repeat (constructor; [done|])|exact Hl1|exact Hs3].
  rename Hw2 into Hw3.
  eapply assert_word; [exact Hw3|by repeat constructor|done|]. eapply assert_word; [exact Hw3|by repeat constructor|done|].
  eapply assert_word; [exact Hw3|by repeat constructor|done|]. eapply assert_word; [exact Hw3|by repeat constructor|done|].
  assert (live g1 (p1, 1024)) as Hb1' by (by apply Hl1). destruct (put_spec s3 g1 p1 1024 g2 Hinv3 Hb1' E2) as (Hput4 & Hl2).
  apply wp_bind. eapply wp_mono; [exact Hput4|]. intros _ s4 (Ho4 & Hinv4 & Hs4).
  apply (Forall_take _ 2) in Hw3. simpl in Hw3.
  eapply (words_put s3 g1 g2 (os_mem s4) _ p1 1024 Hinv3 Hb1') in Hw3;
    [|by repeat (constructor; [by apply not_eq_sym|])|exact Hl2|exact Hs4]. rename Hw3 into Hw4.
  eapply assert_word; [exact Hw4|by repeat constructor|done|]. eapply assert_word; [exact Hw4|by repeat constructor|done|].
  assert (live g2 (p3, 1024)) as Hb3' by (apply Hl2; split; [by apply Hl1|by apply not_eq_sym]).
  destruct (put_spec s4 g2 p3 1024 g3 Hinv4 Hb3' E3) as (Hput5 & Hl3).
  apply wp_bind. eapply wp_mono; [exact Hput5|]. intros _ s5 (Ho5 & Hinv5 & _). apply wp_ret.
  split; [done|]. split; [by rewrite Ho5, Ho4, Ho3, Ho2|]. split; [done|]. intros b. rewrite Hl3, Hl2, Hl1. tauto.
Qed.

Lemma test2_spec s g o g' :
  inv s g -> add1_line ∈ ts -> add2_line ∈ ts -> add3_line ∈ ts -> abs_test2 cpu g = Some (o, g') ->
  wp (os_run_test2 lit cpu_count fuel cpu) s (passed s g o g').
Proof.
  intros Hinv Ht1 Ht2 Ht3. unfold abs_test2, os_run_test2.
  destruct (abs_get g cpu 1020) as [[p1 g1]|] eqn:E1; [simpl|done]. destruct (abs_get g1 cpu 510) as [[p2 g2]|] eqn:E2; [simpl|done].
  destruct (abs_get g2 cpu 800) as [[p3 g3]|] eqn:E3; [simpl|done]. destruct (abs_put g3 p2) as [g4|] eqn:E4; [simpl|done].
  destruct (abs_put g4 p1) as [g5|] eqn:E5; [simpl|done]. destruct (abs_put g5 p3) as [g6|] eqn:E6; [simpl|done]. intros [= <- <-].
  assert (rounded 1020 = 1024) as R1 by done. assert (rounded 510 = 512) as R2 by done. assert (rounded 800 = 1024) as R3 by done.
  destruct (add_shown s g 1020 add_null "add1" add1_line (text "add1: ") p1 g1) as (Hw & Hp1 & Hl1 & Hn1); [done..|simpl; lia|done|lia|done|done|].
  rewrite R1 in *. apply wp_bind. eapply wp_mono; [exact Hw|]. intros v s1 (-> & Ho1 & Hinv1 & _). cbn [going].
  apply wp_bind. eapply wp_mono; [eapply (words_set s1 g1 [] p1 1024 0 9876 Hinv1); [apply Hl1; by right|done|lia|lia|done|constructor|constructor]|].
  intros _ s2 (Ho2 & Hinv2 & Hw2).
  apply wp_bind. eapply wp_mono; [eapply (words_set s2 g1 _ p1 1024 1016 114514 Hinv2); [apply Hl1; by right|done|lia|lia|done| |exact Hw2]|].
  { constructor; [right; simpl; lia|constructor]. }
  intros _ s3 (Ho3 & Hinv3 & Hw3). clear Hw2 Hw.
  destruct (add_shown s3 g1 510 add3_null "add2" add2_line (text "add2: ") p2 g2) as (Hw & Hp2 & Hl2 & Hn2); [done..|simpl; lia|done|lia|done|done|].
  rewrite R2 in *. apply wp_bind. eapply wp_mono; [exact Hw|]. intros v s4 (-> & Ho4 & Hinv4 & Hs4). cbn [going].
  apply (words_get g1 g2 (os_mem s3) (os_mem s4)) in Hw3; [|intros b Hb; apply Hl2; by left|exact Hs4]. clear Hw.
  destruct (add_shown s4 g2 800 add3_null "add3" add3_line (text "add3: ") p3 g3) as (Hw & Hp3 & Hl3 & Hn3); [done..|simpl; lia|done|lia|done|done|].
  rewrite R3 in *. apply wp_bind. eapply wp_mono; [exact Hw|]. intros v s5 (-> & Ho5 & Hinv5 & Hs5). cbn [going].
  apply (words_get g2 g3 (os_mem s4) (os_mem s5)) in Hw3; [|intros b Hb; apply Hl3; by left|exact Hs5]. clear Hw.
  assert (live g2 (p1, 1024)) as Hb1 by (apply Hl2; left; apply Hl1; by right).
  eapply wp_mono; [eapply (test2_check_spec s5 g3 g4 g5 g6 p1 p2 p3 Hinv5 Hp1 Hp3); [apply Hl3; by left| | | |exact Hw3|done..]|].
  - apply Hl3. left. apply Hl2. by right.
  - apply Hl3. by right.
  - by intros ->.
  - intros r s6 (-> & Ho6 & Hinv6 & Hl6). split; [done|]. split; [by rewrite Ho6, Ho5, Ho4, Ho3, Ho2, Ho1, <- !app_assoc|].
    split; [done|]. intros b. rewrite Hl6, Hl3, Hl2, Hl1. split; [tauto|]. intros Hb. split; [tauto|].
    split; [by intros ->|]. split; [intros ->; apply Hn2, Hl1; by left|]. intros ->. apply Hn3, Hl2. left. apply Hl1. by left.
Qed.

(** The blocks of the arrays [add1] and [add2]. *)
Fixpoint blocks1 (l : list (Z * Z)) : list region :=
  match l with [] => [] | (p1, p2) :: l => (p1, 32) :: (p2, 64) :: blocks1 l end.

Lemma add_i_shown s g size null name ok pre i p g' :
  text ok = pre ++ [37; 100; 93; 58; 32; 37; 120; 10] -> text (name ++ "[") = pre ->
  bool_decide (Forall (fun c => c ∉ [9; 37]) pre) = true -> (length pre < 64)%nat -> 0 <= i < 100 ->
  inv s g -> 0 <= size -> ok ∈ ts -> abs_get g cpu size = Some (p, g') ->
  wp (alloc_shown lit cpu_count fuel cpu size null ok [i]) s (fun v s' =>
    v = Goes_on p /\ os_out s' = os_out s ++ add_i_text name i p /\ inv s' g') /\
  0 < p /\ (forall b, live g' b <-> live g b \/ b = (p, rounded size)) /\ ~ live g (p, rounded size).
Proof.
  intros Eok Ep Hpre Hlen Hi Hinv Hs Ht Hg. destruct (get_spec s g size p g' Hinv Hs Hg) as (_ & Hp & Hl & Hn).
  destruct (add_i_text_prints name ok pre i p Eok Ep Hpre Hlen Hi ltac:(lia)) as (r & Hpr & Hr & Ha & Hb).
  split; [|split; [lia|done]]. eapply wp_mono; [by eapply (shown_spec s g size null ok [i] p g')|].
  intros v s' (Hv & Ho & Hinv' & _). done.
Qed.

(** What [test1_fill] gives: the arrays [l], all of whose blocks are new. *)
Definition filled (s : os_state) (g : gstate) (l : list (Z * Z)) (o : list Z) (g' : gstate) (r : flow (list (Z * Z))) (s' : os_state) : Prop :=
  r = Goes_on l /\ os_out s' = os_out s ++ o /\ inv s' g' /\ (forall b, live g' b <-> live g b \/ b ∈ blocks1 l) /\
  NoDup (blocks1 l) /\ Forall (fun b => ~ live g b) (blocks1 l) /\ Forall (fun p => 0 < p.1) l.

Lemma filled_cons s s1 s2 g g1 g2 g' p1 p2 l o o1 o2 r s' :
  0 < p1 -> ~ live g (p1, 32) -> ~ live g1 (p2, 64) ->
  (forall b, live g1 b <-> live g b \/ b = (p1, 32)) -> (forall b, live g2 b <-> live g1 b \/ b = (p2, 64)) ->
  os_out s1 = os_out s ++ o1 -> os_out s2 = os_out s1 ++ o2 ->
  filled s2 g2 l o g' (Goes_on r) s' -> filled s g ((p1, p2) :: l) (o1 ++ o2 ++ o) g' (Goes_on ((p1, p2) :: r)) s'.
Proof.
  intros Hp Hn1 Hn2 Hl1 Hl2 Ho1 Ho2 (Hr & Ho & Hinv & Hl & Hnd & Hf' & Hpos). injection Hr as ->. rewrite Forall_forall in Hf'.
  split; [done|]. split; [by rewrite Ho, Ho2, Ho1, <- !app_assoc|]. split; [done|]. cbn [blocks1]. split; [|split; [|split]].
  - intros b. rewrite Hl, Hl2, Hl1, !elem_of_cons. tauto.
  - constructor; [|constructor; [|done]].
    + intros [E|Hin]%elem_of_cons; [done|]. apply (Hf' _ Hin), Hl2. left. apply Hl1. by right.
    + intros Hin. apply (Hf' _ Hin), Hl2. by right.
  - constructor; [done|]. constructor; [intros Hx; apply Hn2, Hl1; by left|]. apply Forall_forall. intros b Hin Hx.
    apply (Hf' _ Hin), Hl2. left. apply Hl1. by left.
  - by constructor.
Qed.

Lemma fill_spec (Ht1 : add1_i_line ∈ ts) (Ht2 : add2_i_line ∈ ts) n : forall i s g l o g',
  inv s g -> 0 <= i -> i + Z.of_nat n <= 100 -> abs_fill cpu n i g = Some (l, o, g') ->
  wp (test1_fill lit cpu_count fuel cpu n i) s (filled s g l o g').
Proof.
  assert (rounded 24 = 32) as R1 by done. assert (rounded 64 = 64) as R2 by done.
  induction n as [|n IH]; intros i s g l o g' Hinv Hi Hn; cbn [abs_fill test1_fill].
  { intros [= <- <- <-]. apply wp_ret. split; [done|]. rewrite app_nil_r. split; [done|]. split; [done|].
    split; [intros b; simpl; rewrite elem_of_nil; tauto|]. split; [constructor|]. split; constructor. }
  destruct (abs_get g cpu 24) as [[p1 g1]|] eqn:E1; [cbn [mbind option_bind]|done]. destruct (abs_get g1 cpu 64) as [[p2 g2]|] eqn:E2; [cbn [mbind option_bind]|done].
  destruct (abs_fill cpu n (i + 1) g2) as [[[l2 o2] g3]|] eqn:E3; [cbn [mbind option_bind]|done]. intros [= <- <- <-].
  destruct (add_i_shown s g 24 add_null "add1" add1_i_line (text "add1[") i p1 g1) as (Hw1 & Hp1 & Hl1 & Hn1);
    [done..|simpl; lia|lia|done|lia|done|done|]. rewrite R1 in *.
  assert (live g1 (p1, 32)) as Hb1 by (apply Hl1; by right).
  apply wp_bind. eapply wp_mono; [exact Hw1|]. intros v s1 (-> & Ho1 & Hinv1). cbn [going].
  apply wp_bind. eapply wp_mono; [apply (words_set s1 g1 [] p1 32 0 9876 Hinv1 Hb1); [done|lia|lia|done|constructor|constructor]|].
  intros _ s2 (Ho2 & Hinv2 & _).
  apply wp_bind. eapply wp_mono; [apply (words_set s2 g1 [] p1 32 20 114514 Hinv2 Hb1); [done|lia|lia|done|constructor|constructor]|].
  intros _ s3 (Ho3 & Hinv3 & _).
  destruct (add_i_shown s3 g1 64 add2_i_null "add2" add2_i_line (text "add2[") i p2 g2) as (Hw2 & _ & Hl2 & Hn2);
    [done..|simpl; lia|lia|done|lia|done|done|]. rewrite R2 in *.
  apply wp_bind. eapply wp_mono; [exact Hw2|]. intros v s4 (-> & Ho4 & Hinv4). cbn [going].
  apply wp_bind. eapply wp_mono; [apply (IH (i + 1) s4 g2 l2 o2 g3 Hinv4 ltac:(lia) ltac:(lia) E3)|].
  intros v s5 Hfill. pose proof Hfill as (-> & _). cbn [going]. apply wp_ret.
  exact (filled_cons s s3 s4 g g1 g2 g3 p1 p2 l2 o2 _ _ l2 s5 Hp1 Hn1 Hn2 Hl1 Hl2 ltac:(by rewrite Ho3, Ho2) Ho4 Hfill).
Qed.

Lemma release_spec l : forall s g g',
  inv s g -> Forall (fun p => 0 < p.1) l -> NoDup (blocks1 l) -> Forall (live g) (blocks1 l) -> abs_release l g = Some g' ->
  wp (test1_release cpu_count fuel cpu l) s (fun _ s' => os_out s' = os_out s /\ inv s' g' /\
    (forall b, live g' b <-> live g b /\ b ∉ blocks1 l)).
Proof.
  induction l as [|[p1 p2] l IH]; intros s g g' Hinv Hpos Hnd Hl; cbn [abs_release test1_release].
  { intros [= <-]. apply wp_ret. split; [done|]. split; [done|]. intros b. simpl. rewrite elem_of_nil. tauto. }
  destruct (abs_put g p1) as [g1|] eqn:E1; [cbn [mbind option_bind]|done]. destruct (abs_put g1 p2) as [g2|] eqn:E2; [cbn [mbind option_bind]|done]. intros E3.
  apply Forall_cons in Hpos as [Hp1 Hpos]. cbn [blocks1] in *. simpl in Hp1. apply Forall_cons in Hl as [Hb1 Hl]. apply Forall_cons in Hl as [Hb2 Hl].
  apply NoDup_cons in Hnd as [Hni1 Hnd]. apply NoDup_cons in Hnd as [Hni2 Hnd]. apply not_elem_of_cons in Hni1 as [Hne Hni1].
  apply wp_bind. eapply wp_mono; [apply (words_set s g [] p1 32 0 9876 Hinv Hb1); [done|lia|lia|done|constructor|constructor]|].
  intros _ s1 (Ho1 & Hinv1 & _). apply wp_bind, wp_assert; [done|].
  apply wp_bind. eapply wp_mono; [apply (words_set s1 g [] p1 32 20 114514 Hinv1 Hb1); [done|lia|lia|done|constructor|constructor]|].
  intros _ s2 (Ho2 & Hinv2 & _). apply wp_bind, wp_assert; [done|].
  destruct (put_spec s2 g p1 32 g1 Hinv2 Hb1 E1) as (Hw1 & Hl1).
  apply wp_bind. eapply wp_mono; [exact Hw1|]. intros _ s3 (Ho3 & Hinv3 & _).
  destruct (put_spec s3 g1 p2 64 g2 Hinv3 ltac:(apply Hl1; split; [done|by apply not_eq_sym]) E2) as (Hw2 & Hl2).
  apply wp_bind. eapply wp_mono; [exact Hw2|]. intros _ s4 (Ho4 & Hinv4 & _).
  eapply wp_mono; [apply (IH s4 g2 g' Hinv4 Hpos Hnd); [|exact E3]|].
  - rewrite Forall_forall in *. intros b Hin. apply Hl2. split; [apply Hl1; split; [by apply Hl|by intros ->]|by intros ->].
  - intros _ s5 (Ho5 & Hinv5 & Hl5). split; [by rewrite Ho5, Ho4, Ho3, Ho2, Ho1|]. split; [done|]. intros b.
    rewrite Hl5, Hl2, Hl1, !not_elem_of_cons. tauto.
Qed.

Lemma test1_spec s g o g' :
  inv s g -> add1_i_line ∈ ts -> add2_i_line ∈ ts -> abs_test1 cpu g = Some (o, g') ->
  wp (os_run_test1 lit cpu_count fuel cpu) s (passed s g o g').
Proof.
  intros Hinv Ht1 Ht2. unfold abs_test1, os_run_test1. destruct (abs_fill cpu 100 0 g) as [[[l o1] g1]|] eqn:E1; [|done].
  cbn [mbind option_bind]. destruct (abs_release l g1) as [g2|] eqn:E2; [cbn [mbind option_bind]|done]. intros [= <- <-].
  apply wp_bind. eapply wp_mono; [apply (fill_spec Ht1 Ht2 100 0 s g l o1 g1 Hinv ltac:(lia) ltac:(lia) E1)|].
  intros r s1 (-> & Ho1 & Hinv1 & Hl1 & Hnd & Hnew & Hpos). cbn [going].
  apply wp_bind. eapply wp_mono; [apply (release_spec l s1 g1 g2 Hinv1 Hpos Hnd); [|exact E2]|].
  { apply Forall_forall. intros b Hin. apply Hl1. by right. }
  intros _ s2 (Ho2 & Hinv2 & Hl2). apply wp_ret. split; [done|]. split; [by rewrite Ho2, Ho1|]. split; [done|].
  intros b. rewrite Hl2, Hl1. rewrite Forall_forall in Hnew. split; [tauto|]. intros Hb. split; [by left|]. intros Hin. by apply (Hnew b).
Qed.

(** The literals of the tests that pass. *)
Definition test_texts : list string := [add1_i_line; add2_i_line; add1_line; add2_line; add3_line; add_line].

(** C16: the kernel's own tests: whenever the abstract allocator can serve them, the tests run
    to their end on the code without a [halt] and with every assertion true (what was written
    to a block is there after other blocks are freed), they print the addresses the abstract
    allocator gives, and afterwards clients hold exactly the blocks they held before. *)
Theorem tests_pass s g o g' :
  inv s g -> test_texts ⊆ ts -> abs_tests cpu g = Some (o, g') ->
  wp (os_run_tests lit cpu_count fuel cpu) s (fun r s' =>
    r = Goes_on tt /\ os_out s' = os_out s ++ o /\ inv s' g' /\ (forall b, live g' b <-> live g b)).
Proof.
  intros Hinv Hts. assert (forall t, t ∈ test_texts -> t ∈ ts) as Ht by exact Hts. clear Hts. unfold abs_tests, os_run_tests.
  destruct (abs_test1 cpu g) as [[o1 g1]|] eqn:E1; [cbn [mbind option_bind]|done].
  destruct (abs_test2 cpu g1) as [[o2 g2]|] eqn:E2; [cbn [mbind option_bind]|done].
  destruct (abs_test3 cpu g2) as [[o3 g3]|] eqn:E3; [cbn [mbind option_bind]|done]. intros [= <- <-].
  apply wp_bind. eapply wp_mono; [apply (test1_spec s g o1 g1 Hinv); [apply Ht; by repeat constructor..|exact E1]|].
  intros r s1 (-> & Ho1 & Hinv1 & Hl1). cbn [going].
  apply wp_bind. eapply wp_mono; [apply (test2_spec s1 g1 o2 g2 Hinv1); [apply Ht; by repeat constructor..|exact E2]|].
  intros r s2 (-> & Ho2 & Hinv2 & Hl2). cbn [going].
  eapply wp_mono; [apply (test3_spec s2 g2 o3 g3 Hinv2); [apply Ht; by repeat constructor|exact E3]|].
  intros r s3 (-> & Ho3 & Hinv3 & Hl3). split; [done|]. split; [by rewrite Ho3, Ho2, Ho1, <- !app_assoc|]. split; [done|].
  intros b. by rewrite Hl3, Hl2, Hl1.
Qed.
End Spec.

(** ** A concrete run

    One processor, a heap of 1 MiB at 1 MiB, the literals below it. *)

Definition test_lo : Z := 1048576.
Definition test_hi : Z := 2097152.
Definition test_fuel : nat := Z.to_nat 70000.

#[export] Instance test_area : Area test_lo test_hi test_fuel.
Proof. unfold test_lo, test_hi, test_fuel. split; rewrite ?Z2Nat.id; lia. Qed.

Lemma test_fuel_enough : (128 < test_fuel)%nat.
Proof. unfold test_fuel. lia. Qed.

#[global] Opaque test_fuel.

Definition run_texts : list string := kernel_texts ++ test_texts.

(** The texts 256 bytes apart. *)
Definition test_lit (t : string) : Z := 4096 + 256 * default 0 (Z.of_nat ∘ fst <$> list_find (fun u => Is_true (String.eqb t u)) run_texts).

Definition test_mem : mem := foldr (fun t => place (test_lit t) (text t)) no_mem (reverse run_texts).

Lemma test_literals : Forall (literal test_lo test_hi test_lit test_mem) run_texts.
Proof.
  repeat (constructor; [split; [vm_compute; repeat split; intros ?; discriminate|vm_compute; reflexivity|left; vm_compute; intros ?; discriminate]|]).
  constructor.
Qed.

Lemma tests_pass_witness : exists s o g',
  os_inv test_lo test_hi test_lit 1 run_texts s (init_gstate test_lo test_hi) /\
  abs_tests 0 (init_gstate test_lo test_hi) = Some (o, g') /\
  wp (os_run_tests test_lit 1 test_fuel 0) s (fun r s' =>
    r = Goes_on tt /\ os_out s' = os_out s ++ o /\ os_inv test_lo test_hi test_lit 1 run_texts s' g' /\
    (forall b, live g' b <-> live (init_gstate test_lo test_hi) b)).
Proof.
  assert (sized (test_lo, test_hi - test_lo)) as Hs by (split; vm_compute; done).
  pose proof (pmm_init_spec test_lo test_hi test_fuel 1 ltac:(lia) test_mem 0 0 Hs) as H.
  destruct (proj1 (wp_done _ _ _) H) as (u & k & E & Hinv & Hu & Ho).
  assert (os_inv test_lo test_hi test_lit 1 run_texts (mk_os k []) (init_gstate test_lo test_hi)) as Hos.
  { split; [exact Hinv|exact Hu|]. eapply Forall_impl; [exact test_literals|]. intros t. apply literal_frame.
    eapply only_in_weaken; [exact Ho|]. intros x. unfold inr, test_lo, test_hi. lia. }
  destruct (abs_tests 0 (init_gstate test_lo test_hi)) as [[o g']|] eqn:Et; [|vm_compute in Et; discriminate].
  exists (mk_os k []), o, g'. split; [exact Hos|]. split; [reflexivity|].
  apply (tests_pass test_lo test_hi test_fuel test_fuel_enough test_lit 1 ltac:(lia) 0 ltac:(lia) run_texts (mk_os k [])
    (init_gstate test_lo test_hi) o g' Hos); [|exact Et].
  intros t Ht. apply elem_of_app. by right.
Defined.
