(* ===== verification/OsConc.v ===== *)
(** * The kernel on several processors at once

    [os->run] of kernel/src/os.c on every processor, interleaved at will: a step prints one
    character or is one critical section of the allocator (PmmConc.v). The characters of a
    line are those that the code of [printf] puts out for it when it starts; the texts lie
    outside of the heap, where no section writes. *)

From Stdlib Require Import Ascii String.
From stdpp Require Import prelude.
From S2P Require Import Prelude Mem KString KStdio FreeList Kernel Heap Pmm PageSpec PageAlloc PageFree PmmInv PmmAlloc PmmFree PmmSystem PmmSections PmmConc Os.

(** ** The system *)

(** What a processor still has to do in [os_run]: to print characters, then the sizes it will
    ask for; or it is in [kalloc]. With nothing left it is in the endless loop. *)
Inductive kproc : Type := KPrint (o sizes : list Z) | KCall (size : Z) (sizes : list Z).

(** The allocator with its processors, their programs, what [os_init] has printed, and each
    character since with the processor it came from. *)
Record kernel : Type := mk_kernel { k_conc : conc; k_procs : list kproc; k_banner : list Z; k_console : list (Z * Z) }.

Definition at_end (pr : kproc) : Prop := pr = KPrint [] [].

Section Kernel.
Context (lo hi : Z) (fuel : nat) `{!Area lo hi fuel} (Hf : (128 < fuel)%nat).
Context (lit : string -> Z) (cpu_count : Z) (Hcount : 0 <= cpu_count <= 16).

(** The characters of [os.c], lines 107-110, and of [printf("%x\n", r)]. *)
Definition greeting (cpu : Z) (s : kstate) : option (list Z) :=
  match hello_loop cpu fuel (lit hello_text) (mk_os s []) with Done _ s' => Some (os_out s') | Fault _ => None end.

Definition hex_text (s : kstate) (r : Z) : option (list Z) :=
  match print lit fuel hex_line [r] (mk_os s []) with Done _ s' => Some (os_out s') | Fault _ => None end.

Definition phase_size (ph : phase) : option Z :=
  match ph with Idle | Freeing _ _ => None | First sz | FirstGot sz _ | Again sz | Want sz | Got sz _ => Some sz end.

(** A step of processor [cpu]: a character; the call of [kalloc]; a section of it; its return,
    after which the line of the result is printed. *)
Inductive kernel_step (cpu : Z) : kernel -> kernel -> Prop :=
| k_putch c pr b con ch o sizes :
    pr !! Z.to_nat cpu = Some (KPrint (ch :: o) sizes) ->
    kernel_step cpu (mk_kernel c pr b con) (mk_kernel c (<[Z.to_nat cpu := KPrint o sizes]> pr) b (con ++ [(cpu, ch)]))
| k_call c c' pr b con size sizes ph :
    pr !! Z.to_nat cpu = Some (KPrint [] (size :: sizes)) -> section_step fuel cpu_count cpu Tau c c' ->
    in_phase (c_phases c) cpu Idle -> in_phase (c_phases c') cpu ph -> phase_size ph = Some (rounded size) ->
    kernel_step cpu (mk_kernel c pr b con) (mk_kernel c' (<[Z.to_nat cpu := KCall size sizes]> pr) b con)
| k_work c c' pr b con size sizes :
    pr !! Z.to_nat cpu = Some (KCall size sizes) -> section_step fuel cpu_count cpu Tau c c' ->
    kernel_step cpu (mk_kernel c pr b con) (mk_kernel c' pr b con)
| k_return c c' pr b con size sizes r n o :
    pr !! Z.to_nat cpu = Some (KCall size sizes) -> section_step fuel cpu_count cpu (Returns r n) c c' ->
    hex_text (c_state c') r = Some o ->
    kernel_step cpu (mk_kernel c pr b con) (mk_kernel c' (<[Z.to_nat cpu := KPrint o sizes]> pr) b con).

(** [main]: [os_init], then [os_run] starts on every processor. *)
Inductive kernel_reachable : kernel -> Prop :=
| kernel_boot m h hl s pr :
    sized (lo, hi - lo) -> Forall (literal lo hi lit m) kernel_texts ->
    os_init lit cpu_count fuel lo hi (mk_os (boot_state m h hl) []) = Done tt s ->
    length pr = Z.to_nat cpu_count ->
    (forall cpu, 0 <= cpu < cpu_count -> exists o, greeting cpu (os_k s) = Some o /\ pr !! Z.to_nat cpu = Some (KPrint o os_sizes)) ->
    kernel_reachable (mk_kernel (mk_conc (os_k s) (init_gstate lo hi) (replicate 16 Idle)) pr (os_out s) [])
| kernel_next cpu K K' :
    kernel_reachable K -> 0 <= cpu < cpu_count -> kernel_step cpu K K' -> kernel_reachable K'.

(** ** The texts *)

Lemma greeting_text cpu s :
  0 <= cpu < 16 -> literal lo hi lit (k_mem s) hello_text -> greeting cpu s = Some (hello_chars cpu).
Proof.
  intros Hcpu [Hc Hp _]. unfold greeting.
  assert (wp (hello_loop cpu fuel (lit hello_text)) (mk_os s []) (fun _ s' => s' = shown (mk_os s []) (hello_chars cpu))) as H.
  { apply (hello_loop_spec fuel Hf); [done|exact Hc|done|]. change (length (text hello_text)) with 24%nat. lia. }
  by apply wp_done in H as (a & s' & -> & ->).
Qed.

Lemma hex_text_line s r :
  0 <= r < 2 ^ 64 -> Forall (literal lo hi lit (k_mem s)) kernel_texts -> hex_text s r = Some (line r).
Proof.
  intros Hr Hl. unfold hex_text.
  assert (wp (print lit fuel hex_line [r]) (mk_os s []) (fun _ s' => s' = shown (mk_os s []) (line r))) as H.
  { pose proof (hex_chars_length r Hr) as Hw.
    eapply (print_spec lo hi fuel Hf lit kernel_texts (mk_os s []) hex_line [r] (line r)); [exact Hl|do 2 right; left|..].
    - change (text hex_line) with [37; 120; 10].
      rewrite <- (wrap_small 64 r) at 2 by lia. apply (prints_directive _ 120 10 [] [r] [] (hex_chars (u64 r)) [] 0);
        [apply (p_hex _ r [])|apply prints_end].
    - rewrite wrap_small by lia. lia.
    - change (length (text hex_line)) with 3%nat. lia.
    - unfold line. rewrite length_app. cbn [length]. lia. }
  by apply wp_done in H as (a & s' & -> & ->).
Qed.

(** ** Phases *)

Lemma step_phases cpu e c c' :
  section_step fuel cpu_count cpu e c c' -> exists ph, c_phases c' = go (c_phases c) cpu ph.
Proof. intros Hst. destruct Hst; cbn [c_phases]; eauto. Qed.

(** A section of a call is the next one of this call, or its last. *)
Lemma step_sizes cpu e c c' ph sz :
  section_step fuel cpu_count cpu e c c' -> in_phase (c_phases c) cpu ph -> phase_size ph = Some sz ->
  match e with
  | Tau => exists ph', in_phase (c_phases c') cpu ph' /\ phase_size ph' = Some sz
  | Returns _ n => n = sz /\ in_phase (c_phases c') cpu Idle
  | _ => False
  end.
Proof.
  intros Hst Hph Hsz. unfold in_phase in *.
  assert (forall ph', go (c_phases c) cpu ph' !! Z.to_nat cpu = Some ph') as Hgo by (intros ph'; by eapply in_go).
  destruct Hst; unfold in_phase in *; cbn [c_phases] in *; simplify_eq; cbn [phase_size] in Hsz; try discriminate Hsz;
    injection Hsz as ->; eauto.
Qed.

(** ** The invariant *)

(** The characters of a processor. *)
Definition output_of (cpu : Z) (con : list (Z * Z)) : list Z := snd <$> filter (fun x => x.1 = cpu) con.

Lemma output_app cpu con c : output_of cpu (con ++ [(cpu, c)]) = output_of cpu con ++ [c].
Proof. unfold output_of. rewrite filter_app, fmap_app. f_equal. by rewrite filter_cons_True. Qed.

Lemma output_other cpu cpu' con c : cpu <> cpu' -> output_of cpu (con ++ [(cpu', c)]) = output_of cpu con.
Proof.
  intros Hne. unfold output_of. rewrite filter_app, fmap_app. rewrite filter_cons_False by (intros E; by apply Hne). by rewrite app_nil_r.
Qed.

(** Where a processor is, with the results [ps] of its calls and the sizes of their blocks. *)
Definition proc_ok (phs : list phase) (cpu : Z) (pr : kproc) (out : list Z) (ps : list (Z * Z)) : Prop :=
  match pr with
  | KPrint o sizes => in_phase phs cpu Idle /\ out ++ o = os_text cpu (ps.*1) /\
      ps.*2 ++ (rounded <$> sizes) = rounded <$> os_sizes
  | KCall size sizes => (exists ph, in_phase phs cpu ph /\ phase_size ph = Some (rounded size)) /\ out = os_text cpu (ps.*1) /\
      ps.*2 ++ rounded size :: (rounded <$> sizes) = rounded <$> os_sizes
  end.

Definition apart (b b' : Z * Z) : Prop := b.1 <> 0 -> b'.1 <> 0 -> rdisj b b'.

#[local] Instance apart_sym : Symmetric apart.
Proof. intros b b' Hb H1 H2. symmetry. by apply Hb. Qed.

(** The results that are not NULL are blocks, apart from one another. *)
Definition blocks_ok (g : gstate) (l : list (Z * Z)) : Prop :=
  (forall b, b ∈ l -> b.1 <> 0 -> live g b) /\ pairwise apart l.

Lemma blocks_perm g l l' : l ≡ₚ l' -> blocks_ok g l -> blocks_ok g l'.
Proof. intros E [H1 H2]. split; [intros b; rewrite <- E; apply H1|]. by apply (pairwise_perm apart l). Qed.

Lemma blocks_live g g' l : (forall b, live g b -> live g' b) -> blocks_ok g l -> blocks_ok g' l.
Proof. intros H [H1 H2]. split; [|done]. intros b Hb Hn. by apply H, H1. Qed.

Record kernel_inv (K : kernel) (pss : list (list (Z * Z))) : Prop := mk_kernel_inv {
  ki_conc : conc_inv lo hi cpu_count (k_conc K);
  ki_text : Forall (literal lo hi lit (k_mem (c_state (k_conc K)))) kernel_texts;
  ki_banner : k_banner K = banner lo hi;
  ki_procs : length (k_procs K) = Z.to_nat cpu_count;
  ki_len : length pss = Z.to_nat cpu_count;
  ki_proc : forall cpu pr ps, 0 <= cpu < cpu_count -> k_procs K !! Z.to_nat cpu = Some pr -> pss !! Z.to_nat cpu = Some ps ->
    proc_ok (c_phases (k_conc K)) cpu pr (output_of cpu (k_console K)) ps;
  ki_blocks : blocks_ok (c_abs (k_conc K)) (concat pss);
}.

(** A new block is apart from those there are. *)
Lemma new_block s0 s0' g g' l r n :
  pmm_inv lo hi s0 g -> pmm_inv lo hi s0' g' -> blocks_ok g l ->
  (if r =? 0 then forall b, live g' b <-> live g b
   else (forall b, live g' b <-> live g b \/ b = (r, n)) /\ forall x, inr r n x -> ~ owned g x) ->
  blocks_ok g' ((r, n) :: l) /\ 0 <= r < 2 ^ 64.
Proof.
  intros Hinv Hinv' [H1 H2] Hr.
  pose proof (ar_lo (lo := lo) (hi := hi) (fuel := fuel)). pose proof (ar_hi (lo := lo) (hi := hi) (fuel := fuel)).
  destruct (Z.eqb_spec r 0) as [->|Hne].
  - split; [|lia]. split; [|split; [|done]].
    + intros b [->|Hb]%elem_of_cons Hn; [done|]. apply Hr. by apply H1.
    + apply Forall_forall. intros b _ Hn. done.
  - destruct Hr as [Hlive Hfresh]. assert (live g' (r, n)) as Hl by (apply Hlive; by right).
    destruct (live_bounds lo hi s0' g' (r, n) Hinv' Hl) as (Hb1 & Hb2 & Hb3). cbn [fst snd] in *. split; [|lia].
    split; [|split; [|done]].
    + intros b [->|Hb]%elem_of_cons Hn; [done|]. apply Hlive. left. by apply H1.
    + apply Forall_forall. intros b Hb _ Hn. specialize (H1 b Hb Hn).
      destruct (live_bounds lo hi s0 g b Hinv H1) as (Hc1 & Hc2 & Hc3).
      unfold rdisj. cbn [fst snd]. destruct (decide (r + n <= b.1)) as [|Hx]; [by left|]. destruct (decide (b.1 + b.2 <= r)) as [|Hy]; [by right|].
      exfalso. apply (Hfresh (Z.max r b.1)); [unfold inr; lia|]. exists b. split; [done|]. unfold inr. lia.
Qed.

(** Steps of the allocator leave the texts and the other processors alone. *)
Lemma conc_move cpu e c c' :
  0 <= cpu < cpu_count -> conc_inv lo hi cpu_count c -> section_step fuel cpu_count cpu e c c' ->
  Forall (literal lo hi lit (k_mem (c_state c))) kernel_texts ->
  conc_inv lo hi cpu_count c' /\ event_ok e c c' /\ Forall (literal lo hi lit (k_mem (c_state c'))) kernel_texts /\
  forall cpu' ph, 0 <= cpu' < cpu_count -> cpu' <> cpu -> in_phase (c_phases c) cpu' ph -> in_phase (c_phases c') cpu' ph.
Proof.
  intros Hcpu Hinv Hst Ht. destruct (section_step_ok lo hi fuel cpu_count Hcount cpu e c c' Hcpu Hinv Hst) as (Hinv' & He & Hh).
  split; [done|]. split; [done|]. split.
  - eapply Forall_impl; [exact Ht|]. intros t. by apply literal_frame.
  - intros cpu' ph Hcpu' Hne Hph. destruct (step_phases cpu e c c' Hst) as [ph' E]. unfold in_phase in *.
    rewrite E. unfold go. rewrite list_lookup_insert_ne by lia. done.
Qed.

(** The program of another processor. *)
Lemma proc_ok_other phs phs' cpu pr out ps :
  (forall ph, in_phase phs cpu ph -> in_phase phs' cpu ph) -> proc_ok phs cpu pr out ps -> proc_ok phs' cpu pr out ps.
Proof.
  intros Hph. destruct pr as [o sizes|size sizes]; cbn [proc_ok].
  - intros (H1 & H2 & H3). by split; [apply Hph|].
  - intros ((ph & H1 & H1') & H2 & H3). split; [exists ph; by split; [apply Hph|]|done].
Qed.

(** A step of the processor [cpu] that leads to the program [pr'] and the results [ps']. *)
Lemma kernel_move K pss cpu c' pr' con' ps ps' :
  kernel_inv K pss -> 0 <= cpu < cpu_count -> pss !! Z.to_nat cpu = Some ps ->
  conc_inv lo hi cpu_count c' -> Forall (literal lo hi lit (k_mem (c_state c'))) kernel_texts ->
  (forall cpu' ph, 0 <= cpu' < cpu_count -> cpu' <> cpu -> in_phase (c_phases (k_conc K)) cpu' ph -> in_phase (c_phases c') cpu' ph) ->
  (forall cpu', cpu' <> cpu -> output_of cpu' con' = output_of cpu' (k_console K)) ->
  proc_ok (c_phases c') cpu pr' (output_of cpu con') ps' ->
  blocks_ok (c_abs c') (concat (<[Z.to_nat cpu := ps']> pss)) ->
  kernel_inv (mk_kernel c' (<[Z.to_nat cpu := pr']> (k_procs K)) (k_banner K) con') (<[Z.to_nat cpu := ps']> pss).
Proof.
  intros [I1 I2 I3 I4 I5 I6 I7] Hcpu Hps Hc' Ht' Hph Hcon Hpr' Hb'. split; cbn [k_conc k_banner k_procs k_console]; try (done || by rewrite length_insert).
  intros cpu1 pr1 ps1 Hcpu1 Hpr1 Hps1. destruct (decide (cpu1 = cpu)) as [->|Hne].
  - rewrite list_lookup_insert_eq in Hpr1 by lia. rewrite list_lookup_insert_eq in Hps1 by lia. by simplify_eq.
  - rewrite list_lookup_insert_ne in Hpr1 by lia. rewrite list_lookup_insert_ne in Hps1 by lia.
    rewrite Hcon by done. eapply proc_ok_other; [|by apply I6]. intros ph. by apply Hph.
Qed.

Lemma inv_step K pss cpu K' :
  kernel_inv K pss -> 0 <= cpu < cpu_count -> kernel_step cpu K K' -> exists pss', kernel_inv K' pss'.
Proof.
  intros Hinv Hcpu Hst. pose proof Hinv as [I1 I2 I3 I4 I5 I6 I7].
  destruct (lookup_lt_is_Some_2 pss (Z.to_nat cpu)) as [ps Hps]; [lia|].
  destruct Hst as [c pr b con ch o sizes Hpr|c c' pr b con size sizes ph Hpr Hst Hid Hph Hsz|c c' pr b con size sizes Hpr Hst|
    c c' pr b con size sizes r n o Hpr Hst Ho]; cbn [k_conc k_banner k_procs k_console] in *;
    pose proof (I6 cpu _ _ Hcpu Hpr Hps) as Hok; cbn [proc_ok] in Hok.
  - destruct Hok as (P1 & P2 & P3). eexists.
    apply (kernel_move (mk_kernel c pr b con) pss cpu c _ _ ps ps Hinv Hcpu Hps); try done.
    + intros cpu' Hne. by apply output_other.
    + split; [done|]. split; [|done]. by rewrite output_app, <- app_assoc.
    + by rewrite list_insert_id.
  - destruct Hok as (P1 & P2 & P3). destruct (conc_move _ _ _ _ Hcpu I1 Hst I2) as (C1 & C2 & C3 & C4). eexists.
    apply (kernel_move (mk_kernel c pr b con) pss cpu c' _ _ ps ps Hinv Hcpu Hps); try done.
    + rewrite app_nil_r in P2. split; [by exists ph|]. by split.
    + rewrite list_insert_id by done. destruct C2 as [C2 _]. eapply blocks_live; [|exact I7]. intros x. by apply C2.
  - destruct Hok as ((ph & P1 & P1') & P2 & P3). destruct (conc_move _ _ _ _ Hcpu I1 Hst I2) as (C1 & C2 & C3 & C4).
    destruct (step_sizes cpu _ _ _ _ _ Hst P1 P1') as (ph' & S1 & S2). eexists.
    rewrite <- (list_insert_id pr (Z.to_nat cpu) (KCall size sizes)) by done.
    apply (kernel_move (mk_kernel c pr b con) pss cpu c' _ _ ps ps Hinv Hcpu Hps); try done.
    + split; [by exists ph'|]. by split.
    + rewrite list_insert_id by done. destruct C2 as [C2 _]. eapply blocks_live; [|exact I7]. intros x. by apply C2.
  - destruct Hok as ((ph & P1 & P1') & P2 & P3). destruct (conc_move _ _ _ _ Hcpu I1 Hst I2) as (C1 & C2 & C3 & C4).
    destruct (step_sizes cpu _ _ _ _ _ Hst P1 P1') as (-> & S1).
    destruct I1 as [(s0 & _ & J1) _ _ _ _ _]. pose proof C1 as [(s0' & _ & J2) _ _ _ _ _].
    destruct (new_block s0 s0' _ _ (concat pss) r (rounded size) J1 J2 I7) as [Hb Hr].
    { destruct C2 as [_ C2]. destruct (r =? 0); [done|]. by destruct C2 as (? & ? & _). }
    rewrite (hex_text_line _ _ Hr C3) in Ho. injection Ho as <-. eexists.
    apply (kernel_move (mk_kernel c pr b con) pss cpu c' _ _ ps (ps ++ [(r, rounded size)]) Hinv Hcpu Hps); try done.
    + split; [done|]. rewrite !fmap_app. split.
      * rewrite P2. unfold os_text. rewrite fmap_app, concat_app. cbn [fmap list_fmap concat fst]. by rewrite app_nil_r, <- app_assoc.
      * rewrite <- app_assoc. exact P3.
    + destruct (concat_insert pss _ _ Hps) as (rest & E & En). eapply blocks_perm; [|exact Hb].
      rewrite En, E. rewrite <- app_assoc. apply Permutation_middle.
Qed.

Lemma output_nil cpu : output_of cpu [] = [].
Proof. reflexivity. Qed.

Lemma kernel_reachable_inv K : kernel_reachable K -> exists pss, kernel_inv K pss.
Proof.
  induction 1 as [m h hl s pr Hs Hl Eb Hpr Hgreet|cpu K K' _ [pss IH] Hcpu Hst]; [|by eapply inv_step].
  pose proof (os_init_spec lo hi fuel Hf lit cpu_count Hcount m h hl [] Hs Hl) as Hb.
  apply wp_done in Hb as ([] & s1 & E1 & Ho & [Hinv Hu Ht]). rewrite Eb in E1. injection E1 as <-.
  exists (replicate (Z.to_nat cpu_count) []). split; cbn [k_conc k_banner k_procs k_console c_state c_abs c_phases].
  - by apply idle_inv.
  - exact Ht.
  - exact Ho.
  - exact Hpr.
  - by rewrite length_replicate.
  - intros cpu pr1 ps Hcpu Hp Hps. apply lookup_replicate in Hps as [-> _].
    destruct (Hgreet cpu Hcpu) as (o & Hgr & Hp'). rewrite Hp in Hp'. injection Hp' as ->.
    rewrite greeting_text in Hgr; [|lia|rewrite Forall_forall in Ht; apply Ht; by right; left]. injection Hgr as <-.
    rewrite output_nil. split; [apply lookup_replicate_2; lia|]. split; [|done]. unfold os_text. by rewrite app_nil_r.
  - assert (concat (replicate (Z.to_nat cpu_count) ([] : list (Z * Z))) = []) as ->.
    { generalize (Z.to_nat cpu_count). intros n. by induction n. }
    split; [|done]. intros b Hb. by apply elem_of_nil in Hb.
Qed.

(** ** What the kernel prints *)

(** C14: the kernel on several processors, in any interleaving of their steps, single characters
    included: what a processor has printed and is about to print is its greeting and a line for
    each of its calls of [alloc] so far, in order; a processor that is done has printed four.
    The results of all processors' calls, where they are not NULL, are blocks of the heap of
    the size asked for, rounded up, apart from one another. *)
Theorem interleaved_kernel K :
  kernel_reachable K ->
  k_banner K = banner lo hi /\
  exists pss, length pss = Z.to_nat cpu_count /\
    (forall cpu pr ps, 0 <= cpu < cpu_count -> k_procs K !! Z.to_nat cpu = Some pr -> pss !! Z.to_nat cpu = Some ps ->
      (exists todo, output_of cpu (k_console K) ++ todo = os_text cpu (ps.*1)) /\
      ps.*2 `prefix_of` (rounded <$> os_sizes) /\
      (at_end pr -> output_of cpu (k_console K) = os_text cpu (ps.*1) /\ ps.*2 = rounded <$> os_sizes)) /\
    (forall b, b ∈ concat pss -> b.1 <> 0 -> live (c_abs (k_conc K)) b /\ lo <= b.1 /\ b.1 + b.2 <= hi) /\
    pairwise apart (concat pss).
Proof.
  intros [pss [I1 I2 I3 I4 I5 I6 [I7 I8]]]%kernel_reachable_inv. split; [done|]. exists pss. split; [done|]. split; [|split; [|done]].
  - intros cpu pr ps Hcpu Hpr Hps. specialize (I6 cpu pr ps Hcpu Hpr Hps). destruct pr as [o sizes|size sizes].
    + destruct I6 as (_ & H1 & H2). split; [by exists o|]. split; [by eexists|]. intros [= -> ->].
      by rewrite !app_nil_r in *.
    + destruct I6 as (_ & H1 & H2). split; [exists []; by rewrite app_nil_r|]. split; [by eexists|]. intros [=].
  - intros b Hb Hn. specialize (I7 b Hb Hn). destruct I1 as [(s0 & _ & Hinv) _ _ _ _ _].
    destruct (live_bounds lo hi s0 _ b Hinv I7) as (? & ? & ?). split; [done|]. by split.
Qed.

(** ** Progress *)

(** How far a processor is from the end of its program. *)
Definition effort (phs : list phase) (cpu : Z) (pr : kproc) : nat :=
  match pr with
  | KPrint o sizes => length o + 100 * length sizes
  | KCall _ sizes => 100 * length sizes + 50 + match phs !! Z.to_nat cpu with Some ph => rank ph | None => 0 end
  end.

(** There was no memory for the first page of [cpu]: its next section fails an assertion. *)
Definition out_of_memory (K : kernel) (cpu : Z) : Prop := exists sz, in_phase (c_phases (k_conc K)) cpu (FirstGot sz 0).

Lemma os_sizes_blocks : Forall block_size (rounded <$> os_sizes).
Proof. repeat (constructor; [apply rounded_block; lia|]). constructor. Qed.

Lemma size_block (ps : list Z) size sizes : ps ++ (rounded <$> size :: sizes) = rounded <$> os_sizes -> block_size (rounded size).
Proof.
  intros E. pose proof os_sizes_blocks as H. rewrite <- E, Forall_app in H. destruct H as [_ H]. by apply Forall_cons in H as [H _].
Qed.

(** In a call the next section runs. *)
Lemma call_advances K pss cpu size sizes :
  kernel_inv K pss -> 0 <= cpu < cpu_count -> k_procs K !! Z.to_nat cpu = Some (KCall size sizes) -> ~ out_of_memory K cpu ->
  exists K' pr', kernel_step cpu K K' /\ k_procs K' !! Z.to_nat cpu = Some pr' /\
    (effort (c_phases (k_conc K')) cpu pr' < effort (c_phases (k_conc K)) cpu (KCall size sizes))%nat.
Proof.
  intros [I1 I2 I3 I4 I5 I6 I7] Hcpu Hpr Hmem. destruct (lookup_lt_is_Some_2 pss (Z.to_nat cpu)) as [ps Hps]; [lia|].
  destruct K as [c pr b con]. cbn [k_conc k_banner k_procs k_console] in *.
  destruct (I6 cpu _ _ Hcpu Hpr Hps) as ((ph & P1 & P1') & P2 & P3).
  assert (ph <> Idle) as Hid by (by intros ->).
  destruct (advances_one lo hi fuel cpu_count Hcount cpu Hcpu c ph I1 P1 Hid) as (e & c' & ph' & Hst & P4 & Hrank).
  { intros sz ->. apply Hmem. by exists sz. }
  pose proof (step_sizes cpu _ _ _ _ _ Hst P1 P1') as Hss.
  destruct e as [|r n| |]; try done.
  - exists (mk_kernel c' pr b con), (KCall size sizes). split; [by eapply k_work|]. split; [done|].
    cbn [effort k_conc]. unfold in_phase in *. rewrite P1, P4. lia.
  - destruct Hss as [-> Hidle]. destruct (conc_move _ _ _ _ Hcpu I1 Hst I2) as (C1 & C2 & C3 & _).
    destruct I1 as [(s0 & _ & J1) _ _ _ _ _]. pose proof C1 as [(s0' & _ & J2) _ _ _ _ _].
    destruct (new_block s0 s0' _ _ (concat pss) r (rounded size) J1 J2 I7) as [_ Hr].
    { destruct C2 as [_ C2]. destruct (r =? 0); [done|]. by destruct C2 as (? & ? & _). }
    eexists _, _. split; [eapply k_return; [exact Hpr|exact Hst|by apply hex_text_line]|]. cbn [k_procs k_conc]. split.
    + apply list_lookup_insert_eq. by eapply lookup_lt_Some.
    + cbn [effort]. unfold line. rewrite length_app. pose proof (hex_chars_length r Hr). cbn [length]. lia.
Qed.

Lemma cpu_advances K pss cpu pr :
  kernel_inv K pss -> 0 <= cpu < cpu_count -> k_procs K !! Z.to_nat cpu = Some pr -> ~ at_end pr -> ~ out_of_memory K cpu ->
  exists K' pr', kernel_step cpu K K' /\ k_procs K' !! Z.to_nat cpu = Some pr' /\
    (effort (c_phases (k_conc K')) cpu pr' < effort (c_phases (k_conc K)) cpu pr)%nat.
Proof.
  intros Hinv Hcpu Hpr Hd Hmem. destruct pr as [[|ch o] [|size sizes]|size sizes]; [by destruct Hd| | | |by eapply call_advances].
  - destruct Hinv as [I1 I2 I3 I4 I5 I6 I7]. destruct (lookup_lt_is_Some_2 pss (Z.to_nat cpu)) as [ps Hps]; [lia|].
    destruct K as [c prs b con]. cbn [k_conc k_banner k_procs k_console] in *.
    destruct (I6 cpu _ _ Hcpu Hpr Hps) as (P1 & P2 & P3).
    destruct (can_call lo hi fuel cpu_count Hcount cpu Hcpu c (rounded size) I1 P1 (size_block _ _ _ P3)) as (c' & ph & Hst & P4 & Hph).
    eexists _, _. split; [eapply (k_call cpu c c'); [exact Hpr|exact Hst|exact P1|exact P4|by destruct Hph as [->| ->]]|].
    cbn [k_procs k_conc]. split; [apply list_lookup_insert_eq; by eapply lookup_lt_Some|].
    cbn [effort length]. unfold in_phase in P4. rewrite P4. destruct Hph as [->| ->]; cbn [rank]; lia.
  - destruct K as [c prs b con]. eexists _, _. split; [by eapply k_putch|]. cbn [k_procs k_conc].
    split; [apply list_lookup_insert_eq; by eapply lookup_lt_Some|]. cbn [effort length]. lia.
  - destruct K as [c prs b con]. eexists _, _. split; [by eapply k_putch|]. cbn [k_procs k_conc].
    split; [apply list_lookup_insert_eq; by eapply lookup_lt_Some|]. cbn [effort length]. lia.
Qed.

(** The processor is done, or there was no memory for its first page. *)
Definition finished (K : kernel) (cpu : Z) : Prop := k_procs K !! Z.to_nat cpu = Some (KPrint [] []) \/ out_of_memory K cpu.

Lemma cpu_finishes n : forall K pss cpu pr,
  kernel_inv K pss -> 0 <= cpu < cpu_count -> k_procs K !! Z.to_nat cpu = Some pr -> (effort (c_phases (k_conc K)) cpu pr <= n)%nat ->
  exists K' pss', rtc (kernel_step cpu) K K' /\ kernel_inv K' pss' /\ finished K' cpu.
Proof.
  induction n as [|n IH]; intros K pss cpu pr Hinv Hcpu Hpr Hn.
  { exists K, pss. split; [done|]. split; [done|]. left. destruct pr as [[|] [|]|]; cbn [effort length] in Hn; (done || lia). }
  assert (at_end pr \/ ~ at_end pr) as [->|Hd] by (destruct pr as [[|] [|]|]; (by left) || (right; intros [=])).
  { exists K, pss. split; [done|]. split; [done|]. by left. }
  assert (out_of_memory K cpu \/ ~ out_of_memory K cpu) as [Hm|Hm].
  { unfold out_of_memory, in_phase. destruct (c_phases (k_conc K) !! Z.to_nat cpu) as [[| |sz p| | | |]|];
      try (right; intros [? [=]]; done). destruct (Z.eqb_spec p 0) as [->|Hp]; [left; by exists sz|right; intros [? [=]]; done]. }
  { exists K, pss. split; [done|]. split; [done|]. by right. }
  destruct (cpu_advances K pss cpu pr Hinv Hcpu Hpr Hd Hm) as (K1 & pr1 & Hst & Hpr1 & Hlt).
  destruct (inv_step K pss cpu K1 Hinv Hcpu Hst) as [pss1 Hinv1].
  destruct (IH K1 pss1 cpu pr1 Hinv1 Hcpu Hpr1 ltac:(lia)) as (K2 & pss2 & Hsteps & Hinv2 & Hfin).
  exists K2, pss2. split; [by eapply rtc_l|]. by split.
Qed.

(** A processor that is finished stays so while others run. *)
Lemma finished_other cpu cpu' K K' :
  0 <= cpu < cpu_count -> 0 <= cpu' < cpu_count -> cpu <> cpu' -> rtc (kernel_step cpu') K K' -> finished K cpu -> finished K' cpu.
Proof.
  intros Hcpu Hcpu' Hne Hsteps. induction Hsteps as [|K K1 K2 Hst _ IH]; [done|]. intros Hfin. apply IH.
  assert (k_procs K1 !! Z.to_nat cpu = k_procs K !! Z.to_nat cpu /\
    c_phases (k_conc K1) !! Z.to_nat cpu = c_phases (k_conc K) !! Z.to_nat cpu) as [E1 E2].
  { destruct Hst as [c pr b con ch o sizes Hpr|c c' pr b con size sizes ph Hpr Hst Hid Hph Hsz|c c' pr b con size sizes Hpr Hst|
      c c' pr b con size sizes r n o Hpr Hst Ho]; cbn [k_procs k_conc]; rewrite ?list_lookup_insert_ne by lia; (split; [done|]); [done|..];
      destruct (step_phases cpu' _ _ _ Hst) as [ph' ->]; unfold go; by rewrite list_lookup_insert_ne by lia. }
  unfold finished, out_of_memory, in_phase in *. by rewrite E1, E2.
Qed.

Definition any_step (K K' : kernel) : Prop := exists cpu, 0 <= cpu < cpu_count /\ kernel_step cpu K K'.

Lemma some_finish n : forall K pss,
  kernel_inv K pss -> 0 <= Z.of_nat n <= cpu_count ->
  exists K', rtc any_step K K' /\ (exists pss', kernel_inv K' pss') /\ forall cpu, 0 <= cpu < Z.of_nat n -> finished K' cpu.
Proof.
  induction n as [|n IH]; intros K pss Hinv Hn.
  { exists K. split; [done|]. split; [by exists pss|]. intros cpu Hcpu. lia. }
  destruct (IH K pss Hinv ltac:(lia)) as (K1 & Hs1 & [pss1 Hinv1] & Hfin1).
  destruct (lookup_lt_is_Some_2 (k_procs K1) (Z.to_nat (Z.of_nat n))) as [pr Hpr]; [rewrite (ki_procs _ _ Hinv1); lia|].
  destruct (cpu_finishes _ K1 pss1 (Z.of_nat n) pr Hinv1 ltac:(lia) Hpr (le_n _)) as (K2 & pss2 & Hs2 & Hinv2 & Hfin2).
  exists K2. split; [|split; [by exists pss2|]].
  - etransitivity; [exact Hs1|]. eapply rtc_subrel; [|exact Hs2]. intros a b Hab. exists (Z.of_nat n). split; [lia|done].
  - intros cpu Hcpu. destruct (decide (cpu = Z.of_nat n)) as [->|Hne]; [done|].
    eapply (finished_other cpu (Z.of_nat n)); [lia|lia|done|exact Hs2|]. apply Hfin1. lia.
Qed.

(** The kernel boots. *)
Lemma kernel_boots (m : mem) (h hl : Z) :
  sized (lo, hi - lo) -> Forall (literal lo hi lit m) kernel_texts -> exists K, kernel_reachable K.
Proof.
  intros Hs Hl. pose proof (os_init_spec lo hi fuel Hf lit cpu_count Hcount m h hl [] Hs Hl) as Hb.
  apply wp_done in Hb as ([] & s & E & _ & [_ _ Ht]).
  eexists. eapply (kernel_boot m h hl s ((fun cpu => KPrint (hello_chars cpu) os_sizes) <$> seqZ 0 cpu_count)); [done|done|exact E|..].
  - by rewrite length_fmap, length_seqZ.
  - intros cpu Hcpu. exists (hello_chars cpu). split.
    + apply greeting_text; [lia|]. rewrite Forall_forall in Ht. apply Ht. by right; left.
    + rewrite list_lookup_fmap, lookup_seqZ_lt by lia. simpl. do 3 f_equal. lia.
Qed.

(** C15: the kernel never hangs: from every state it can reach, any processor gets to its endless
    loop by its own steps alone, whatever the others are in the middle of, and all of them get
    there, except those that find no memory for their first page. *)
Theorem interleaved_progress K :
  kernel_reachable K ->
  (forall cpu, 0 <= cpu < cpu_count -> exists K', rtc (kernel_step cpu) K K' /\ finished K' cpu) /\
  exists K', rtc any_step K K' /\ forall cpu, 0 <= cpu < cpu_count -> finished K' cpu.
Proof.
  intros [pss Hinv]%kernel_reachable_inv. split.
  - intros cpu Hcpu. destruct (lookup_lt_is_Some_2 (k_procs K) (Z.to_nat cpu)) as [pr Hpr]; [rewrite (ki_procs _ _ Hinv); lia|].
    destruct (cpu_finishes _ K pss cpu pr Hinv Hcpu Hpr (le_n _)) as (K' & pss' & Hs & _ & Hfin). by exists K'.
  - destruct (some_finish (Z.to_nat cpu_count) K pss Hinv ltac:(lia)) as (K' & Hs & _ & Hfin). exists K'. split; [done|].
    intros cpu Hcpu. apply Hfin. lia.
Qed.
End Kernel.

(** ** Witnesses *)

(** The boot of Os.v. *)
Lemma demo_kernel : exists K, kernel_reachable boot_lo boot_hi boot_fuel boot_lit 2 K.
Proof.
  apply (kernel_boots boot_lo boot_hi boot_fuel boot_fuel_enough boot_lit 2 ltac:(lia) boot_mem 0 0); [split; vm_compute; done|exact boot_literals].
Qed.

Lemma interleaved_kernel_witness : exists K, kernel_reachable boot_lo boot_hi boot_fuel boot_lit 2 K /\ k_banner K = banner boot_lo boot_hi.
Proof.
  destruct demo_kernel as [K HK]. exists K. split; [exact HK|].
  exact (proj1 (interleaved_kernel boot_lo boot_hi boot_fuel boot_fuel_enough boot_lit 2 ltac:(lia) K HK)).
Defined.

Lemma interleaved_progress_witness : exists K, kernel_reachable boot_lo boot_hi boot_fuel boot_lit 2 K /\
  exists K', rtc (any_step boot_fuel boot_lit 2) K K' /\ forall cpu, 0 <= cpu < 2 -> finished K' cpu.
Proof.
  destruct demo_kernel as [K HK]. exists K. split; [exact HK|].
  exact (proj2 (interleaved_progress boot_lo boot_hi boot_fuel boot_fuel_enough boot_lit 2 ltac:(lia) K HK)).
Defined.
