(* ===== verification/X86.v ===== *)
(** * x86 descriptors and segments: am/src/x86/x86.h, am/src/x86/qemu/x86-qemu.h, trm.c

    Segment and gate descriptors are C structures of bit fields. [pack] lays the fields out
    from the least significant bit on, as the compiler does; [bits] is how the processor
    takes them apart. The model is the 64-bit variant ([__x86_64__]). *)

From stdpp Require Import prelude.
From S2P Require Import Prelude.

(** ** Bit fields *)

(** A field and its width; an assignment to a field keeps its low bits. *)
Definition pack (fs : list (Z * Z)) : Z := foldr (fun f acc => wrap f.1 f.2 + 2 ^ f.1 * acc) 0 fs.

Definition bits (x off w : Z) : Z := (x / 2 ^ off) mod 2 ^ w.

Definition widths (fs : list (Z * Z)) : Z := foldr (fun f acc => f.1 + acc) 0 fs.

Definition sized_fields (fs : list (Z * Z)) : Prop := Forall (fun f => 0 <= f.1) fs.

Lemma widths_nonneg fs : sized_fields fs -> 0 <= widths fs.
Proof. induction 1 as [|f fs Hf Hfs IH]; simpl; [done|lia]. Qed.

Lemma pack_range fs : sized_fields fs -> 0 <= pack fs < 2 ^ widths fs.
Proof.
  induction 1 as [|f fs Hf Hfs IH]; simpl; [lia|]. pose proof (wrap_range f.1 f.2 Hf).
  rewrite Z.pow_add_r by (done || by apply widths_nonneg). nia.
Qed.

Lemma pack_app fs gs : sized_fields fs -> pack (fs ++ gs) = pack fs + 2 ^ widths fs * pack gs.
Proof.
  induction 1 as [|f fs Hf Hfs IH]; simpl; [lia|]. rewrite IH.
  rewrite Z.pow_add_r by (done || by apply widths_nonneg). lia.
Qed.

(** The processor reads back the field that was written. *)
Lemma bits_pack fs w v gs :
  sized_fields fs -> 0 <= w -> bits (pack (fs ++ (w, v) :: gs)) (widths fs) w = wrap w v.
Proof.
  intros Hfs Hw. unfold bits. rewrite pack_app by done. pose proof (pack_range fs Hfs).
  pose proof (widths_nonneg fs Hfs). assert (0 < 2 ^ widths fs) by (apply Z.pow_pos_nonneg; lia).
  rewrite (Z.mul_comm (2 ^ widths fs)), Z.div_add, Z.div_small by lia. simpl.
  rewrite Z.add_0_l, (Z.mul_comm (2 ^ w)), Z_mod_plus_full. apply wrap_wrap.
Qed.

Lemma bits_field fs k w v off :
  sized_fields fs -> fs !! k = Some (w, v) -> widths (take k fs) = off -> bits (pack fs) off w = wrap w v.
Proof.
  intros Hs Hk <-. rewrite <- (take_drop_middle fs k (w, v) Hk) at 1. apply bits_pack; [by apply Forall_take|].
  unfold sized_fields in Hs. rewrite Forall_lookup in Hs. exact (Hs _ _ Hk).
Qed.

#[global] Arguments pack : simpl never.

(** ** Constants *)

Definition DPL_KERN : Z := 0.
Definition DPL_USER : Z := 3.
Definition STA_X : Z := 8.
Definition STA_W : Z := 2.
Definition STA_R : Z := 2.
Definition STS_T32A : Z := 9.
Definition STS_TG : Z := 15.
Definition SEG_KCODE : Z := 1.
Definition SEG_KDATA : Z := 2.
Definition SEG_UCODE : Z := 3.
Definition SEG_UDATA : Z := 4.
Definition SEG_TSS : Z := 5.
Definition NR_SEG : Z := 6.
Definition FL_IF : Z := 512.

Definition KSEL (seg : Z) : Z := Z.lor (Z.shiftl seg 3) DPL_KERN.
Definition USEL (seg : Z) : Z := Z.lor (Z.shiftl seg 3) DPL_USER.

(** ** Segment descriptors *)

Record SegDesc : Type := mk_seg {
  lim_15_0 : Z; base_15_0 : Z; base_23_16 : Z; seg_type : Z; seg_s : Z; seg_dpl : Z; seg_p : Z;
  lim_19_16 : Z; seg_avl : Z; seg_l : Z; seg_db : Z; seg_g : Z; base_31_24 : Z;
}.

(** The eight bytes of a descriptor. *)
Definition seg_fields (d : SegDesc) : list (Z * Z) :=
  [(16, lim_15_0 d); (16, base_15_0 d); (8, base_23_16 d); (4, seg_type d); (1, seg_s d); (2, seg_dpl d); (1, seg_p d);
   (4, lim_19_16 d); (1, seg_avl d); (1, seg_l d); (1, seg_db d); (1, seg_g d); (8, base_31_24 d)].

Definition SEG16 (type base lim dpl : Z) : SegDesc :=
  mk_seg (Z.land lim 0xffff) (Z.land base 0xffff) (Z.land (Z.shiftr base 16) 0xff) type 0 dpl 1
    (Z.shiftr lim 16) 0 0 1 0 (Z.shiftr base 24).

Definition SEG32 (type base lim dpl : Z) : SegDesc :=
  mk_seg (Z.land (Z.shiftr lim 12) 0xffff) (Z.land base 0xffff) (Z.land (Z.shiftr base 16) 0xff) type 1 dpl 1
    (Z.shiftr lim 28) 0 0 1 1 (Z.shiftr base 24).

Definition SEG64 (type dpl : Z) : SegDesc := mk_seg 0 0 0 type 1 dpl 1 0 0 1 0 0 0.

(** The processor's view. *)
Definition desc_base (x : Z) : Z := bits x 16 24 + 2 ^ 24 * bits x 56 8.
Definition desc_limit (x : Z) : Z := bits x 0 16 + 2 ^ 16 * bits x 48 4.
Definition desc_dpl (x : Z) : Z := bits x 45 2.
Definition desc_type (x : Z) : Z := bits x 40 4.

(** ** Gate descriptors *)

Record GateDesc64 : Type := mk_gate64 {
  off_15_0 : Z; gate_cs : Z; gate_isv : Z; zero1 : Z; gate_type : Z; zero2 : Z; gate_dpl : Z; gate_p : Z;
  off_31_16 : Z; off_63_32 : Z; gate_rsv : Z;
}.

Definition gate_fields (g : GateDesc64) : list (Z * Z) :=
  [(16, off_15_0 g); (16, gate_cs g); (3, gate_isv g); (5, zero1 g); (4, gate_type g); (1, zero2 g); (2, gate_dpl g);
   (1, gate_p g); (16, off_31_16 g); (32, off_63_32 g); (32, gate_rsv g)].

Definition GATE64 (type cs entry dpl : Z) : GateDesc64 :=
  mk_gate64 (Z.land (u64 entry) 0xffff) cs 0 0 type 0 dpl 1
    (Z.land (Z.shiftr (u64 entry) 16) 0xffff) (Z.shiftr (u64 entry) 32) 0.

(** What the processor does on an interrupt through the gate [x]: where it jumps, with which
    code segment, and who may use it by an [int] instruction. *)
Definition gate_offset (x : Z) : Z := bits x 0 16 + 2 ^ 16 * bits x 48 16 + 2 ^ 32 * bits x 64 32.
Definition gate_selector (x : Z) : Z := bits x 16 16.
Definition gate_kind (x : Z) : Z := bits x 40 4.
Definition gate_ring (x : Z) : Z := bits x 45 2.
Definition gate_present (x : Z) : bool := bits x 47 1 =? 1.

(** ** The global descriptor table of a processor (trm.c, [__am_percpu_initgdt]) *)

(** [sizeof(TSS64)]: 4 + 3 * 8 + 19 * 4. *)
Definition sizeof_TSS64 : Z := 104.

(** The table, [gdt], for a TSS at [tss]; entry 0 is the null descriptor [cpu_local] starts
    with. Fails when the TSS is beyond 4 GiB. *)
Definition __am_percpu_initgdt (tss : Z) (gdt : list SegDesc) : option (list SegDesc) :=
  let gdt := <[Z.to_nat SEG_KCODE := SEG64 (Z.lor STA_X STA_R) DPL_KERN]> gdt in
  let gdt := <[Z.to_nat SEG_KDATA := SEG64 STA_W DPL_KERN]> gdt in
  let gdt := <[Z.to_nat SEG_UCODE := SEG64 (Z.lor STA_X STA_R) DPL_USER]> gdt in
  let gdt := <[Z.to_nat SEG_UDATA := SEG64 STA_W DPL_USER]> gdt in
  let gdt := <[Z.to_nat SEG_TSS := SEG16 STS_T32A tss (sizeof_TSS64 - 1) DPL_KERN]> gdt in
  if negb (Z.shiftr tss 32 =? 0) then None else Some gdt.

(** ** Descriptors mean what they were made from *)

(** Read the [k]-th field of a descriptor, at [off]. *)
Ltac read_field k off :=
  erewrite (bits_field _ k _ _ off); [|by repeat constructor; simpl; lia|reflexivity|reflexivity].

Lemma mask16 x : Z.land x 0xffff = x mod 2 ^ 16.
Proof. exact (Z.land_ones x 16 ltac:(lia)). Qed.

Lemma mask8 x : Z.land x 0xff = x mod 2 ^ 8.
Proof. exact (Z.land_ones x 8 ltac:(lia)). Qed.

(** A number from its low part and the rest. *)
Lemma glue x k : 0 <= k -> x mod 2 ^ k + 2 ^ k * (x / 2 ^ k) = x.
Proof. intros Hk. pose proof (Z.div_mod x (2 ^ k)). pose proof (Z.pow_pos_nonneg 2 k). lia. Qed.

Lemma div_range x a b : 0 <= a -> 0 <= b -> 0 <= x < 2 ^ (a + b) -> 0 <= x / 2 ^ a < 2 ^ b.
Proof.
  intros Ha Hb Hx. rewrite Z.pow_add_r in Hx by done. assert (0 < 2 ^ a) by (apply Z.pow_pos_nonneg; lia).
  split; [apply Z.div_pos; lia|apply Z.div_lt_upper_bound; lia].
Qed.

(** Consecutive bit fields are one field. *)
Lemma bits_join x off v w : 0 <= off -> 0 <= v -> 0 <= w -> bits x off (v + w) = bits x off v + 2 ^ v * bits x (off + v) w.
Proof.
  intros Ho Hv Hw. unfold bits. rewrite Z.pow_add_r by done.
  assert (0 < 2 ^ off) by (apply Z.pow_pos_nonneg; lia). assert (0 < 2 ^ v) by (apply Z.pow_pos_nonneg; lia).
  assert (0 < 2 ^ w) by (apply Z.pow_pos_nonneg; lia).
  rewrite Z.rem_mul_r by lia. rewrite Z.div_div, <- Z.pow_add_r by lia. done.
Qed.

Lemma seg16_fields type base lim dpl (x := pack (seg_fields (SEG16 type base lim dpl))) :
  0 <= base < 2 ^ 32 -> 0 <= lim < 2 ^ 20 -> 0 <= type < 16 -> 0 <= dpl < 4 ->
  desc_base x = base /\ desc_limit x = lim /\ desc_dpl x = dpl /\ desc_type x = type.
Proof.
  intros Hb Hl Ht Hd. unfold desc_base, desc_limit, desc_dpl, desc_type, x.
  rewrite (bits_join _ 16 16 8) by lia. change (16 + 16) with 32.
  read_field 1%nat 16. read_field 2%nat 32. read_field 12%nat 56. read_field 0%nat 0. read_field 7%nat 48.
  read_field 5%nat 45. read_field 3%nat 40. simpl. rewrite !mask16, mask8, !Z.shiftr_div_pow2 by lia.
  rewrite !(wrap_small 16) by (apply Z.mod_pos_bound; lia). rewrite (wrap_small 8 (_ mod _)) by (apply Z.mod_pos_bound; lia).
  rewrite (wrap_small 8) by (apply (div_range _ 24 8); lia). rewrite (wrap_small 4 (_ / _)) by (apply (div_range _ 16 4); lia).
  rewrite (wrap_small 2), (wrap_small 4 type) by lia. split_and!; try done.
  - pose proof (glue base 16 ltac:(lia)). pose proof (glue (base / 2 ^ 16) 8 ltac:(lia)).
    rewrite Z.div_div in * by lia. change (2 ^ 16 * 2 ^ 8) with (2 ^ 24) in *. lia.
  - apply (glue lim 16). lia.
Qed.

Lemma gate64_fields type cs entry dpl (x := pack (gate_fields (GATE64 type cs entry dpl))) :
  0 <= entry < 2 ^ 64 -> 0 <= cs < 2 ^ 16 -> 0 <= type < 16 -> 0 <= dpl < 4 ->
  gate_offset x = entry /\ gate_selector x = cs /\ gate_kind x = type /\ gate_ring x = dpl /\ gate_present x = true.
Proof.
  intros He Hc Ht Hd. unfold gate_offset, gate_selector, gate_kind, gate_ring, gate_present, x.
  read_field 0%nat 0. read_field 1%nat 16. read_field 4%nat 40. read_field 6%nat 45. read_field 7%nat 47.
  read_field 8%nat 48. read_field 9%nat 64. simpl. rewrite (wrap_small 64 entry) by lia.
  rewrite !mask16, !Z.shiftr_div_pow2 by lia. rewrite !(wrap_small 16 (_ mod _)) by (apply Z.mod_pos_bound; lia).
  rewrite (wrap_small 32) by (apply (div_range _ 32 32); lia).
  rewrite (wrap_small 16 cs), (wrap_small 4), (wrap_small 2) by lia. split_and!; try done.
  pose proof (glue entry 16 ltac:(lia)). pose proof (glue (entry / 2 ^ 16) 16 ltac:(lia)).
  rewrite Z.div_div in * by lia. change (2 ^ 16 * 2 ^ 16) with (2 ^ 32) in *. lia.
Qed.

(** The descriptor table a processor loads. The kernel and user segments are present
    64-bit segments of their rings, code executable and data writable; the task segment
    describes exactly the bytes of the TSS; a TSS beyond 4 GiB is refused. *)
Theorem initgdt_spec tss gdt :
  0 <= tss < 2 ^ 64 -> length gdt = 7%nat ->
  if 2 ^ 32 <=? tss then __am_percpu_initgdt tss gdt = None
  else exists gdt', __am_percpu_initgdt tss gdt = Some gdt' /\ length gdt' = 7%nat /\ gdt' !! 0%nat = gdt !! 0%nat /\
    (pack ∘ seg_fields) <$> firstn 4 (skipn 1 gdt') =
      [0x00209a0000000000; 0x0020920000000000; 0x0020fa0000000000; 0x0020f20000000000] /\
    exists d, gdt' !! 5%nat = Some d /\ let x := pack (seg_fields d) in
      desc_base x = tss /\ desc_limit x = sizeof_TSS64 - 1 /\ desc_dpl x = DPL_KERN /\ desc_type x = STS_T32A.
Proof.
  intros Ht Hl. destruct gdt as [|d0 [|d1 [|d2 [|d3 [|d4 [|d5 [|d6 [|]]]]]]]]; try done.
  unfold __am_percpu_initgdt. rewrite Z.shiftr_div_pow2 by lia. destruct (Z.leb_spec (2 ^ 32) tss).
  - destruct (Z.eqb_spec (tss / 2 ^ 32) 0) as [E|]; [|done]. apply Z.div_small_iff in E; lia.
  - rewrite Z.div_small by lia. eexists. split; [reflexivity|]. split; [done|]. split; [done|]. split; [vm_compute; reflexivity|].
    eexists. split; [reflexivity|]. apply seg16_fields; unfold sizeof_TSS64, STS_T32A, DPL_KERN; lia.
Qed.

Lemma initgdt_spec_witness :
  exists gdt', __am_percpu_initgdt 0x123456 (replicate 7 (SEG64 0 0)) = Some gdt' /\ length gdt' = 7%nat /\
    gdt' !! 0%nat = Some (SEG64 0 0) /\
    (pack ∘ seg_fields) <$> firstn 4 (skipn 1 gdt') =
      [0x00209a0000000000; 0x0020920000000000; 0x0020fa0000000000; 0x0020f20000000000] /\
    exists d, gdt' !! 5%nat = Some d /\ let x := pack (seg_fields d) in
      desc_base x = 0x123456 /\ desc_limit x = sizeof_TSS64 - 1 /\ desc_dpl x = DPL_KERN /\ desc_type x = STS_T32A.
Proof. apply (initgdt_spec 0x123456 (replicate 7 (SEG64 0 0))); [lia|done]. Defined.
