(* ===== verification/Cte.v ===== *)
(** * Interrupts and contexts: am/src/x86/qemu/cte.c

    The part of a processor that interrupt handling reads and writes is [cte_state]; the
    handler that the client installs is a computation on it. The entry points [__am_irq<id>]
    and [__am_irqall] are addresses the linker chooses. *)

From stdpp Require Import prelude.
From S2P Require Import Prelude X86.

(** ** Data (am.h, arch/x86_64-qemu.h, x86-qemu.h) *)

Inductive event_kind : Type :=
| EVENT_NULL | EVENT_YIELD | EVENT_SYSCALL | EVENT_PAGEFAULT | EVENT_ERROR | EVENT_IRQ_TIMER | EVENT_IRQ_IODEV.

#[export] Instance event_kind_eq_dec : EqDecision event_kind.
Proof. solve_decision. Defined.

(** [msg] is a constant of each case and is left out. *)
Record Event : Type := mk_event { event : event_kind; cause : Z; ref : Z }.

Record Context : Type := mk_context {
  ctx_cr3 : Z;
  rax : Z; rbx : Z; rcx : Z; rdx : Z; rbp : Z; rsi : Z; rdi : Z;
  r8 : Z; r9 : Z; r10 : Z; r11 : Z; r12 : Z; r13 : Z; r14 : Z; r15 : Z;
  rip : Z; cs : Z; rflags : Z; rsp : Z; ss : Z; rsp0 : Z;
}.

Record trap_frame : Type := mk_tf {
  saved_context : Context;
  irq : Z; errcode : Z;
  tf_rip : Z; tf_cs : Z; tf_rflags : Z; tf_rsp : Z; tf_ss : Z;
}.

(** [CPU->tss.rsp0], the control registers, the interrupt table, whether [__am_lapic] is set,
    and how often the local APIC was told that an interrupt has ended. *)
Record cte_state : Type := mk_cte {
  tss_rsp0 : Z; cr2 : Z; cr3 : Z; idt : list GateDesc64; lapic : bool; eois : Z; efl : Z;
}.

Definition T_IRQ0 : Z := 32.
Definition EX_SYSCALL : Z := 0x80.
Definition EX_YIELD : Z := 0x81.
Definition MMAP_NONE : Z := 0.
Definition MMAP_READ : Z := 1.
Definition MMAP_WRITE : Z := 2.
Definition NR_IRQ : nat := 256.

(** x86.h, [IRQS]: number and ring. *)
Definition IRQS : list (Z * Z) :=
  ((fun id => (id, DPL_KERN)) <$>
    [0; 1; 2; 3; 4; 5; 6; 7; 8; 9; 10; 11; 12; 13; 14; 15; 16; 19; 31; 32; 33; 34; 35; 36; 37; 38; 39; 40; 41; 42;
     43; 44; 45; 46; 47]) ++ [(128, DPL_USER); (129, DPL_USER)].

(** ** The code *)

Definition set_cr3 (v : Z) : M cte_state unit :=
  modify (fun s => mk_cte (tss_rsp0 s) (cr2 s) v (idt s) (lapic s) (eois s) (efl s)).

Definition set_tss_rsp0 (v : Z) : M cte_state unit :=
  modify (fun s => mk_cte v (cr2 s) (cr3 s) (idt s) (lapic s) (eois s) (efl s)).

Definition set_idt_entry (id : nat) (g : GateDesc64) : M cte_state unit :=
  modify (fun s => mk_cte (tss_rsp0 s) (cr2 s) (cr3 s) (<[id := g]> (idt s)) (lapic s) (eois s) (efl s)).

(** ioe.c, lines 422-425. *)
Definition __am_lapic_eoi : M cte_state unit :=
  modify (fun s => mk_cte (tss_rsp0 s) (cr2 s) (cr3 s) (idt s) (lapic s)
    (if lapic s then eois s + 1 else eois s) (efl s)).

(** Lines 52-90: the event of an interrupt. *)
Definition irq_event (irq errcode fault_address : Z) : Event :=
  if irq =? T_IRQ0 + 0 then mk_event EVENT_IRQ_TIMER 0 0
  else if irq =? T_IRQ0 + 1 then mk_event EVENT_IRQ_IODEV 0 0
  else if irq =? T_IRQ0 + 4 then mk_event EVENT_IRQ_IODEV 0 0
  else if irq =? EX_SYSCALL then mk_event EVENT_SYSCALL 0 0
  else if irq =? EX_YIELD then mk_event EVENT_YIELD 0 0
  else if existsb (Z.eqb irq) [0; 6; 7; 8; 10; 11; 12; 13] then mk_event EVENT_ERROR 0 0
  else if irq =? 14 then
    let cause := if negb (Z.land errcode 1 =? 0) then Z.lor 0 MMAP_NONE else 0 in
    let cause := if negb (Z.land errcode 2 =? 0) then Z.lor cause MMAP_WRITE else Z.lor cause MMAP_READ in
    mk_event EVENT_PAGEFAULT cause fault_address
  else mk_event EVENT_ERROR errcode 0.

Section Handler.
(** [user_handler]; [None] is a NULL context. *)
Context (user_handler : Event -> Context -> M cte_state (option Context)).

(** Lines 27-43: the context that is saved. *)
Definition save_context (tf : trap_frame) (rsp0_ cr3_ : Z) : Context :=
  let c := saved_context tf in
  mk_context cr3_ (rax c) (rbx c) (rcx c) (rdx c) (rbp c) (rsi c) (rdi c)
    (r8 c) (r9 c) (r10 c) (r11 c) (r12 c) (r13 c) (r14 c) (r15 c)
    (tf_rip tf) (tf_cs tf) (tf_rflags tf) (tf_rsp tf) (tf_ss tf) rsp0_.

(** [__am_irq_handle]; the result is the context given to [__am_iret]. *)
Definition __am_irq_handle (tf : trap_frame) : M cte_state Context :=
  s ← get;
  let saved_ctx := save_context tf (tss_rsp0 s) (cr3 s) in
  _ ← (if (T_IRQ0 + 0 <=? irq tf) && (irq tf <? T_IRQ0 + 32) then __am_lapic_eoi else mret tt);
  let ev := irq_event (irq tf) (errcode tf) (cr2 s) in
  ret_ctx ← user_handler ev saved_ctx;
  match ret_ctx with
  | None => raise Panic
  | Some ret_ctx =>
      _ ← (if negb (ctx_cr3 ret_ctx =? 0) then
             _ ← set_cr3 (ctx_cr3 ret_ctx); set_tss_rsp0 (rsp0 ret_ctx)
           else mret tt);
      mret ret_ctx
  end.
End Handler.

Section Init.
(** The addresses of [__am_irq<id>], of [__am_irqall] and of [__am_kcontext_start]. *)
Context (am_irq : Z -> Z) (am_irqall am_kcontext_start : Z).

(** Lines 112-114, from entry [i] on. *)
Fixpoint idt_default (k : nat) (i : nat) : M cte_state unit :=
  match k with
  | O => mret tt
  | S k => _ ← set_idt_entry i (GATE64 STS_TG (KSEL SEG_KCODE) am_irqall DPL_KERN); idt_default k (S i)
  end.

(** Lines 115-117. *)
Fixpoint idt_entries (l : list (Z * Z)) : M cte_state unit :=
  match l with
  | [] => mret tt
  | (id, dpl) :: l =>
      _ ← set_idt_entry (Z.to_nat id) (GATE64 STS_TG (KSEL SEG_KCODE) (am_irq id) dpl); idt_entries l
  end.

(** [cte_init], on the processor [cpu_current]; [handler] says whether one is given. *)
Definition cte_init (cpu_current : Z) (handler : bool) : M cte_state bool :=
  if negb (cpu_current =? 0) then raise Panic
  else if negb handler then raise Panic
  else
    _ ← idt_default NR_IRQ 0;
    _ ← idt_entries IRQS;
    mret true.

#[global] Arguments idt_default : simpl never.
#[global] Arguments idt_entries : simpl never.

Definition zero_context : Context := mk_context 0 0 0 0 0 0 0 0 0 0 0 0 0 0 0 0 0 0 0 0 0 0.

(** The context [kcontext] puts below the end of the stack. *)
Definition kcontext (kstack_end entry arg : Z) : Context :=
  mk_context 0 0 0 0 0 0 entry arg 0 0 0 0 0 0 0 0 am_kcontext_start (KSEL SEG_KCODE) FL_IF kstack_end 0 0.
End Init.

Definition ienabled : M cte_state bool := s ← get; mret (negb (Z.land (efl s) FL_IF =? 0)).

(** [sti] and [cli]. *)
Definition iset (enable : bool) : M cte_state unit :=
  modify (fun s => mk_cte (tss_rsp0 s) (cr2 s) (cr3 s) (idt s) (lapic s) (eois s)
    (if enable then Z.lor (efl s) FL_IF else Z.land (efl s) (Z.lnot FL_IF))).

(** ** The interrupt table *)

Definition idt_of (l : list GateDesc64) (s : cte_state) : cte_state :=
  mk_cte (tss_rsp0 s) (cr2 s) (cr3 s) l (lapic s) (eois s) (efl s).

Section Table.
Context (am_irq : Z -> Z) (am_irqall : Z).

Definition default_gate : GateDesc64 := GATE64 STS_TG (KSEL SEG_KCODE) am_irqall DPL_KERN.

Lemma idt_default_spec k i s :
  (i + k <= length (idt s))%nat ->
  wp (idt_default am_irqall k i) s (fun _ s' => exists l, s' = idt_of l s /\ length l = length (idt s) /\
    forall j, l !! j = if decide (i <= j < i + k)%nat then Some default_gate else idt s !! j).
Proof.
  revert i s. induction k as [|k IH]; intros i s Hk; cbn [idt_default].
  - apply wp_ret. exists (idt s). split; [by destruct s|]. split; [done|]. intros j. destruct (decide _); [lia|done].
  - apply wp_bind. apply (wp_modify (S := cte_state)).
    eapply wp_mono; [apply IH; simpl; rewrite length_insert; lia|].
    intros [] s' (l & -> & Hl & Hlk). exists l. simpl in Hl, Hlk. rewrite length_insert in Hl. split; [done|]. split; [done|].
    intros j. rewrite Hlk. repeat case_decide; try lia; [done| |].
    + replace j with i by lia. rewrite list_lookup_insert_eq by lia. done.
    + apply list_lookup_insert_ne. lia.
Qed.

Lemma idt_entries_spec es s :
  NoDup (es.*1) -> Forall (fun e => 0 <= e.1 < Z.of_nat (length (idt s))) es ->
  wp (idt_entries am_irq es) s (fun _ s' => exists l, s' = idt_of l s /\ length l = length (idt s) /\
    (forall id dpl, (id, dpl) ∈ es ->
      l !! Z.to_nat id = Some (GATE64 STS_TG (KSEL SEG_KCODE) (am_irq id) dpl)) /\
    forall j, (forall id dpl, (id, dpl) ∈ es -> Z.to_nat id <> j) -> l !! j = idt s !! j).
Proof.
  revert s. induction es as [|[id dpl] es IH]; intros s Hnd Hr; cbn [idt_entries].
  - apply wp_ret. exists (idt s). split; [by destruct s|]. split; [done|]. split; [|done].
    intros ? ? H. by apply elem_of_nil in H.
  - apply NoDup_cons in Hnd as [Hnew Hnd]. apply Forall_cons in Hr as [Hid Hr]. simpl in Hid, Hnew.
    apply wp_bind. apply (wp_modify (S := cte_state)).
    eapply wp_mono; [apply IH; [done|]|].
    { eapply Forall_impl; [exact Hr|]. simpl. intros e. by rewrite length_insert. }
    intros [] s' (l & -> & Hl & Hin & Hout). simpl in Hl, Hout. rewrite length_insert in Hl.
    exists l. split; [done|]. split; [done|].
    assert (forall id' dpl', (id', dpl') ∈ es -> Z.to_nat id' <> Z.to_nat id) as Hne.
    { intros id' dpl' H' E. rewrite Forall_forall in Hr. specialize (Hr _ H'). simpl in Hr.
      apply Hnew. assert (id' = id) as <- by lia. by apply (list_elem_of_fmap_2 fst) in H'. }
    split.
    + intros id' dpl' [[= -> ->]|H']%elem_of_cons; [|by apply Hin].
      rewrite Hout by done. rewrite list_lookup_insert_eq by lia. done.
    + intros j Hj. rewrite Hout.
      * apply list_lookup_insert_ne. apply (Hj id dpl). by left.
      * intros id' dpl' H'. apply (Hj id' dpl'). by right.
Qed.

Lemma irqs_nodup : NoDup (IRQS.*1).
Proof. apply (bool_decide_unpack _). vm_compute. done. Qed.

Lemma irqs_range n : n = 256%nat -> Forall (fun e : Z * Z => (0 <= e.1 < Z.of_nat n) /\ (e.2 = DPL_KERN \/ e.2 = DPL_USER)) IRQS.
Proof. intros ->. repeat constructor; vm_compute; (done || (by left) || (by right)). Qed.

(** C37: after [cte_init] every one of the 256 interrupts goes through a present trap gate to
    the kernel's code segment: to its own entry point when it is listed, else to the common
    one; only the system call and the yield interrupt may be raised from user mode. *)
Theorem cte_init_spec s :
  length (idt s) = 256%nat -> (forall id, 0 <= am_irq id < 2 ^ 64) -> 0 <= am_irqall < 2 ^ 64 ->
  wp (cte_init am_irq am_irqall 0 true) s (fun r s' => r = true /\ length (idt s') = 256%nat /\
    forall id, (id < 256)%nat -> exists g, idt s' !! id = Some g /\ let x := pack (gate_fields g) in
      gate_offset x = (if bool_decide (Z.of_nat id ∈ IRQS.*1) then am_irq (Z.of_nat id) else am_irqall) /\
      gate_selector x = KSEL SEG_KCODE /\ gate_kind x = STS_TG /\ gate_present x = true /\
      gate_ring x = (if bool_decide (id = 128 \/ id = 129)%nat then DPL_USER else DPL_KERN)).
Proof.
  intros Hl Ha Hall. unfold cte_init. cbn [negb Z.eqb]. apply wp_bind.
  eapply wp_mono; [apply idt_default_spec; unfold NR_IRQ; lia|]. intros [] s1 (l1 & -> & Hl1 & Hlk1).
  apply wp_bind. eapply wp_mono; [apply idt_entries_spec; [apply irqs_nodup|]|].
  { eapply Forall_impl; [apply (irqs_range (length l1)); lia|]. simpl. tauto. }
  intros [] s2 (l2 & -> & Hl2 & Hin & Hout). apply wp_ret. simpl in *. split; [done|]. split; [lia|].
  intros id Hid. assert (0 <= KSEL SEG_KCODE < 2 ^ 16) as Hsel by (by vm_compute).
  destruct (decide (Z.of_nat id ∈ IRQS.*1)) as [Hmem|Hmem].
  - rewrite bool_decide_true by done. apply list_elem_of_fmap in Hmem as ([i dpl] & E & Hmem). simpl in E. subst i.
    pose proof (Hin _ _ Hmem) as Hg. rewrite Nat2Z.id in Hg. eexists. split; [exact Hg|]. cbv zeta.
    pose proof (irqs_range 256 eq_refl) as Hdpl. rewrite Forall_forall in Hdpl. specialize (Hdpl _ Hmem) as [_ Hdpl]. simpl in Hdpl.
    destruct (gate64_fields STS_TG (KSEL SEG_KCODE) (am_irq (Z.of_nat id)) dpl) as (-> & -> & -> & -> & ->);
      [by apply Ha|done|by vm_compute|destruct Hdpl as [->| ->]; by vm_compute|].
    split_and!; try done.
    assert (Forall (fun e : Z * Z => e.2 = if bool_decide (Z.to_nat e.1 = 128 \/ Z.to_nat e.1 = 129)%nat then DPL_USER else DPL_KERN) IRQS)
      as Huser by (repeat constructor).
    rewrite Forall_forall in Huser. specialize (Huser _ Hmem). simpl in Huser. by rewrite Nat2Z.id in Huser.
  - rewrite bool_decide_false by done. exists default_gate.
    rewrite Hout, Hlk1.
    2:{ intros i dpl Hi E. apply Hmem. pose proof (irqs_range 256 eq_refl) as Hr. rewrite Forall_forall in Hr.
        specialize (Hr _ Hi) as [Hr _]. simpl in Hr. apply (list_elem_of_fmap_2 fst) in Hi. simpl in Hi.
        by replace (Z.of_nat id) with i by lia. }
    rewrite decide_True by (unfold NR_IRQ; lia). split; [done|]. cbv zeta. unfold default_gate.
    destruct (gate64_fields STS_TG (KSEL SEG_KCODE) am_irqall DPL_KERN) as (-> & -> & -> & -> & ->); [done|done|by vm_compute..|].
    split_and!; try done. rewrite bool_decide_false; [done|]. intros [->| ->]; apply Hmem, (bool_decide_unpack _); by vm_compute.
Qed.
End Table.

(** ** Handling an interrupt *)

Section Handling.
Context (user_handler : Event -> Context -> M cte_state (option Context)).

(** The state the handler runs in. *)
Definition acked (tf : trap_frame) (s : cte_state) : cte_state :=
  if (32 <=? irq tf) && (irq tf <? 64) && lapic s
  then mk_cte (tss_rsp0 s) (cr2 s) (cr3 s) (idt s) (lapic s) (eois s + 1) (efl s) else s.

Lemma irq_handle_eq tf s :
  __am_irq_handle user_handler tf s =
  match user_handler (irq_event (irq tf) (errcode tf) (cr2 s)) (save_context tf (tss_rsp0 s) (cr3 s)) (acked tf s) with
  | Fault e => Fault e
  | Done None _ => Fault Panic
  | Done (Some c) k =>
      Done c (if ctx_cr3 c =? 0 then k else mk_cte (rsp0 c) (cr2 k) (ctx_cr3 c) (idt k) (lapic k) (eois k) (efl k))
  end.
Proof.
  unfold __am_irq_handle, mbind, M_bind, get.
  assert ((if (T_IRQ0 + 0 <=? irq tf) && (irq tf <? T_IRQ0 + 32) then __am_lapic_eoi else mret tt) s = Done tt (acked tf s)) as ->.
  { unfold acked, T_IRQ0, __am_lapic_eoi. change (32 + 0) with 32. change (32 + 32) with 64.
    destruct ((32 <=? irq tf) && (irq tf <? 64)), (lapic s) eqn:El; unfold modify; simpl; rewrite ?El; try done.
    rewrite <- El. by destruct s. }
  destruct (user_handler _ _ _) as [[c|] k|e]; [|done..]. by destruct (ctx_cr3 c =? 0).
Qed.

(** What an interrupt does. The local APIC is told of the end of a device interrupt once
    and of nothing else; the handler gets the event and the interrupted context; a NULL
    context is a panic; otherwise the processor goes on in the context the handler returns,
    in its address space and with its kernel stack when it has one. A handler that returns
    the context it was given resumes the interrupted program: instruction, flags, stack and
    registers are those of the trap frame. *)
Theorem irq_handle_spec tf s :
  exists saved,
    rip saved = tf_rip tf /\ rflags saved = tf_rflags tf /\ rsp saved = tf_rsp tf /\ cs saved = tf_cs tf /\
    ss saved = tf_ss tf /\ rax saved = rax (saved_context tf) /\ rdi saved = rdi (saved_context tf) /\
    r15 saved = r15 (saved_context tf) /\ ctx_cr3 saved = cr3 s /\ rsp0 saved = tss_rsp0 s /\
    match user_handler (irq_event (irq tf) (errcode tf) (cr2 s)) saved (acked tf s) with
    | Fault e => __am_irq_handle user_handler tf s = Fault e
    | Done None _ => __am_irq_handle user_handler tf s = Fault Panic
    | Done (Some next) s' => exists s'', __am_irq_handle user_handler tf s = Done next s'' /\
        cr3 s'' = (if ctx_cr3 next =? 0 then cr3 s' else ctx_cr3 next) /\
        tss_rsp0 s'' = (if ctx_cr3 next =? 0 then tss_rsp0 s' else rsp0 next) /\
        eois s'' = eois s' /\ idt s'' = idt s' /\
        (next = saved -> s' = acked tf s -> s'' = acked tf s)
    end.
Proof.
  exists (save_context tf (tss_rsp0 s) (cr3 s)). do 10 (split; [done|]).
  rewrite irq_handle_eq.
  destruct (user_handler _ _ _) as [[next|] s'|e]; [|done..].
  destruct (Z.eqb_spec (ctx_cr3 next) 0); simpl.
  - exists s'. split; [done|]. split_and!; try done.
  - eexists. split; [reflexivity|]. split_and!; try done. simpl. intros -> ->. simpl. unfold acked.
    by destruct ((32 <=? irq tf) && (irq tf <? 64) && lapic s), s.
Qed.
End Handling.

(** How interrupts are told apart: exactly one number each is the timer, a system call
    and a yield, two are devices, only 14 is a page fault, and everything else is an error.
    The cause of a page fault says whether it was a read or a write; that the page was
    present is never in it, MMAP_NONE being 0. *)
Theorem irq_event_table n err addr :
  (event (irq_event n err addr) = EVENT_IRQ_TIMER <-> n = 32) /\
  (event (irq_event n err addr) = EVENT_IRQ_IODEV <-> n = 33 \/ n = 36) /\
  (event (irq_event n err addr) = EVENT_SYSCALL <-> n = 128) /\
  (event (irq_event n err addr) = EVENT_YIELD <-> n = 129) /\
  (event (irq_event n err addr) = EVENT_PAGEFAULT <-> n = 14) /\
  event (irq_event n err addr) <> EVENT_NULL /\
  (n = 14 -> ref (irq_event n err addr) = addr /\
    cause (irq_event n err addr) = if Z.testbit err 1 then MMAP_WRITE else MMAP_READ).
Proof.
  unfold irq_event, T_IRQ0, EX_SYSCALL, EX_YIELD.
  assert (forall b, (if b : bool then Z.lor 0 MMAP_NONE else 0) = 0) as Hnone by (by intros []).
  assert ((Z.land err 2 =? 0) = negb (Z.testbit err 1)) as Hbit.
  { destruct (Z.testbit err 1) eqn:E; simpl.
    - apply Z.eqb_neq. intros H. apply (f_equal (fun z => Z.testbit z 1)) in H.
      rewrite Z.land_spec, E, Z.bits_0 in H. done.
    - apply Z.eqb_eq. apply Z.bits_inj'. intros i Hi. rewrite Z.land_spec, Z.bits_0.
      destruct (decide (i = 1)) as [->|]; [by rewrite E|].
      change 2 with (2 ^ 1). rewrite Z.pow2_bits_false by lia. apply andb_false_r. }
  rewrite Hbit, !Hnone. clear Hbit Hnone. set (b := Z.testbit err 1). clearbody b.
  assert (existsb (Z.eqb n) [0; 6; 7; 8; 10; 11; 12; 13] = true -> 0 <= n <= 13) as Hex.
  { intros (x & Hx & ->%Z.eqb_eq)%existsb_exists. simpl in Hx. lia. }
  destruct (existsb _ _); [specialize (Hex eq_refl)|clear Hex];
    repeat match goal with |- context [if ?a =? ?b then _ else _] => destruct (Z.eqb_spec a b); [subst; simpl|] end;
    simpl; (split_and!; [split; intros; (done || lia)..|done|]); intros; try lia; split; [done|by destruct b].
Qed.

Lemma cte_init_spec_witness :
  wp (cte_init (fun id => 0x100000 + 16 * (id mod 256)) 0x200000 0 true)
    (mk_cte 0 0 0 (replicate 256 (GATE64 0 0 0 0)) true 0 0) (fun r s' => r = true /\ length (idt s') = 256%nat /\
    forall id, (id < 256)%nat -> exists g, idt s' !! id = Some g /\ let x := pack (gate_fields g) in
      gate_offset x = (if bool_decide (Z.of_nat id ∈ IRQS.*1) then 0x100000 + 16 * (Z.of_nat id mod 256) else 0x200000) /\
      gate_selector x = KSEL SEG_KCODE /\ gate_kind x = STS_TG /\ gate_present x = true /\
      gate_ring x = (if bool_decide (id = 128 \/ id = 129)%nat then DPL_USER else DPL_KERN)).
Proof.
  apply (cte_init_spec (fun id => 0x100000 + 16 * (id mod 256)) 0x200000); [done| |lia].
  intros id. pose proof (Z.mod_pos_bound id 256 ltac:(lia)). lia.
Defined.
