(* ===== verification/Trap.v ===== *)
(** * The way of an interrupt: am/src/x86/qemu/trap64.S with cte.c

    Cte.v models [__am_irq_handle] on contexts as values. Here they are where the code has
    them, on stacks in memory: the processor pushes a frame and goes through a gate, the entry
    code of trap64.S saves the registers, [__am_irq_handle] completes the frame and calls the
    handler of the client with a pointer to it, and [__am_iret] loads the context that the
    handler points to. An instruction is a computation on [trap_state]; what the processor does
    by itself, the delivery and [iretq], follows its manual. *)

From stdpp Require Import prelude.
From S2P Require Import Prelude Mem X86 Cte.

(** ** The processor *)

(** Memory, the general registers in the order of [Context] (rax, rbx, rcx, rdx, rbp, rsi, rdi,
    r8 to r15), the others, and the state of Cte.v. *)
Record trap_state : Type := mk_ts {
  ts_mem : mem; gpr : list Z; ts_rsp : Z; ts_rip : Z; ts_cs : Z; ts_rflags : Z; ts_ss : Z; ts_ds : Z; ts_es : Z; ts_cte : cte_state;
}.

#[export] Instance trap_has_mem : HasMem trap_state := {|
  st_mem := ts_mem;
  st_upd := fun f s => mk_ts (f (ts_mem s)) (gpr s) (ts_rsp s) (ts_rip s) (ts_cs s) (ts_rflags s) (ts_ss s) (ts_ds s) (ts_es s) (ts_cte s);
  st_mem_upd := fun _ _ => eq_refl |}.

Definition set_gpr v s := mk_ts (ts_mem s) v (ts_rsp s) (ts_rip s) (ts_cs s) (ts_rflags s) (ts_ss s) (ts_ds s) (ts_es s) (ts_cte s).
Definition set_rsp v s := mk_ts (ts_mem s) (gpr s) v (ts_rip s) (ts_cs s) (ts_rflags s) (ts_ss s) (ts_ds s) (ts_es s) (ts_cte s).
Definition set_rip v s := mk_ts (ts_mem s) (gpr s) (ts_rsp s) v (ts_cs s) (ts_rflags s) (ts_ss s) (ts_ds s) (ts_es s) (ts_cte s).
Definition set_cs v s := mk_ts (ts_mem s) (gpr s) (ts_rsp s) (ts_rip s) v (ts_rflags s) (ts_ss s) (ts_ds s) (ts_es s) (ts_cte s).
Definition set_rflags v s := mk_ts (ts_mem s) (gpr s) (ts_rsp s) (ts_rip s) (ts_cs s) v (ts_ss s) (ts_ds s) (ts_es s) (ts_cte s).
Definition set_ss v s := mk_ts (ts_mem s) (gpr s) (ts_rsp s) (ts_rip s) (ts_cs s) (ts_rflags s) v (ts_ds s) (ts_es s) (ts_cte s).
Definition set_ds_es v s := mk_ts (ts_mem s) (gpr s) (ts_rsp s) (ts_rip s) (ts_cs s) (ts_rflags s) (ts_ss s) v v (ts_cte s).
Definition set_cte v s := mk_ts (ts_mem s) (gpr s) (ts_rsp s) (ts_rip s) (ts_cs s) (ts_rflags s) (ts_ss s) (ts_ds s) (ts_es s) v.

(** The indices of two general registers. *)
Definition RSI : nat := 5.
Definition RDI : nat := 6.

(** ** Instructions *)

Definition push (v : Z) : M trap_state unit :=
  modify (fun s => let sp := u64 (ts_rsp s - 8) in set_rsp sp (st_upd (fun m => store64 m sp v) s)).

Definition pop : M trap_state Z := fun s =>
  Done (load64 (ts_mem s) (ts_rsp s)) (set_rsp (u64 (ts_rsp s + 8)) s).

Fixpoint push_all (l : list Z) : M trap_state unit :=
  match l with [] => mret tt | v :: l => _ ← push v; push_all l end.

Fixpoint pop_all (n : nat) : M trap_state (list Z) :=
  match n with O => mret [] | S n => v ← pop; l ← pop_all n; mret (v :: l) end.

Definition trap_cli : M trap_state unit := modify (fun s => set_rflags (Z.land (ts_rflags s) (Z.lnot FL_IF)) s).

(** The flags TF, NT, RF and VM, which every delivery clears. *)
Definition FL_TRAP : Z := 0x34100.

(** Whether an interrupt through the gate [x] changes the privilege, and where its frame ends:
    on the kernel's stack when it does, aligned to 16 bytes. *)
Definition outer (x : Z) (s : trap_state) : bool := negb (Z.land (ts_cs s) 3 =? Z.land (gate_selector x) 3).

Definition frame_top (x : Z) (s : trap_state) : Z :=
  Z.land (if outer x s then tss_rsp0 (ts_cte s) else ts_rsp s) (Z.lnot 15).

(** The delivery of an interrupt in 64-bit mode through the gate [g], which is present and has
    no stack of its own: the frame, with an error code if there is one, and the entry of the
    gate. A trap gate leaves the interrupt flag. *)
Definition deliver (g : GateDesc64) (err : option Z) : M trap_state unit :=
  s ← get;
  let x := pack (gate_fields g) in
  _ ← modify (set_rsp (frame_top x s));
  _ ← push_all [ts_ss s; ts_rsp s; ts_rflags s; ts_cs s; ts_rip s];
  _ ← push_all (match err with Some e => [e] | None => [] end);
  let fl := Z.land (ts_rflags s) (Z.lnot FL_TRAP) in
  _ ← modify (set_rflags (if gate_kind x =? STS_TG then fl else Z.land fl (Z.lnot FL_IF)));
  _ ← modify (set_cs (gate_selector x));
  _ ← modify (set_ss (if outer x s then 0 else ts_ss s));
  modify (set_rip (gate_offset x)).

(** [iretq] *)
Definition iretq : M trap_state unit :=
  l ← pop_all 5;
  match l with
  | [rip; cs; rflags; rsp; ss] =>
      modify (fun s => set_ss (wrap 16 ss) (set_rsp rsp (set_rflags rflags (set_cs (wrap 16 cs) (set_rip rip s)))))
  | _ => raise Panic
  end.

(** ** Contexts in memory *)

(** The 22 words of a [Context], in the order of its members. *)
Definition ctx_words (c : Context) : list Z :=
  [ctx_cr3 c; rax c; rbx c; rcx c; rdx c; rbp c; rsi c; rdi c; r8 c; r9 c; r10 c; r11 c; r12 c; r13 c; r14 c; r15 c;
   rip c; cs c; rflags c; rsp c; ss c; rsp0 c].

Definition sizeof_Context : Z := 176.
Definition off_rdi : Z := 56.
Definition off_rsi : Z := 48.
Definition off_rip : Z := 128.
Definition off_cs : Z := 136.
Definition off_rflags : Z := 144.
Definition off_rsp : Z := 152.
Definition off_ss : Z := 160.
Definition off_rsp0 : Z := 168.

(** The members of [struct trap_frame] behind the context. *)
Definition tf_irq_off : Z := 176.
Definition tf_err_off : Z := 184.
Definition tf_rip_off : Z := 192.
Definition tf_cs_off : Z := 200.
Definition tf_rflags_off : Z := 208.
Definition tf_rsp_off : Z := 216.
Definition tf_ss_off : Z := 224.

(** A computation of Cte.v. *)
Definition on_cte {A} (m : M cte_state A) : M trap_state A := fun s =>
  match m (ts_cte s) with Done a c => Done a (set_cte c s) | Fault e => Fault e end.

(** cte.c, lines 93-103: what follows the handler. *)
Definition irq_finish (ret_ctx : Z) : M trap_state Z :=
  if ret_ctx =? 0 then raise Panic
  else
    v ← read_le 8 ret_ctx 0;
    _ ← (if negb (v =? 0) then
           _ ← on_cte (set_cr3 v);
           r ← read_le 8 ret_ctx off_rsp0;
           on_cte (set_tss_rsp0 r)
         else mret tt);
    mret ret_ctx.

Section Entry.
(** The handler of the client, on a pointer to a context; the address behind the call of
    [__am_irq_handle]. *)
Context (user_handler : Event -> Z -> M trap_state Z) (ret_addr : Z).

(** [__am_irq_handle], cte.c, lines 19-103. *)
Definition irq_handle (tf : Z) : M trap_state Z :=
  v ← read_le 8 tf tf_rip_off; _ ← write_le 8 tf off_rip v;
  v ← read_le 8 tf tf_cs_off; _ ← write_le 8 tf off_cs v;
  v ← read_le 8 tf tf_rflags_off; _ ← write_le 8 tf off_rflags v;
  v ← read_le 8 tf tf_rsp_off; _ ← write_le 8 tf off_rsp v;
  s ← get;
  _ ← write_le 8 tf off_rsp0 (tss_rsp0 (ts_cte s));
  v ← read_le 8 tf tf_ss_off; _ ← write_le 8 tf off_ss v;
  _ ← write_le 8 tf 0 (cr3 (ts_cte s));
  irq ← read_le 8 tf tf_irq_off;
  _ ← (if (T_IRQ0 + 0 <=? irq) && (irq <? T_IRQ0 + 32) then on_cte __am_lapic_eoi else mret tt);
  errcode ← read_le 8 tf tf_err_off;
  s ← get;
  ret_ctx ← user_handler (irq_event irq errcode (cr2 (ts_cte s))) tf;
  irq_finish ret_ctx.

(** trap64.S, lines 32-54. *)
Definition __am_iret (ctx : Z) : M trap_state unit :=
  _ ← modify (set_rsp ctx);
  _ ← modify (fun s => set_ds_es (wrap 16 (load64 (ts_mem s) (u64 (ts_rsp s + off_ss)))) s);
  _ ← modify (fun s => set_rsp (u64 (ts_rsp s + 8)) s);
  l ← pop_all 15;
  _ ← modify (set_gpr l);
  iretq.

(** trap64.S, lines 9-30: [trap], which calls [__am_irq_handle]; that ends in [__am_iret]. *)
Definition trap : M trap_state unit :=
  _ ← trap_cli;
  _ ← modify (fun s => set_rsp (u64 (ts_rsp s - 48)) s);
  s ← get;
  _ ← push_all (rev (gpr s));
  _ ← push 0;
  s ← get;
  _ ← modify (fun s => set_gpr (<[RDI := ts_rsp s]> (gpr s)) s);
  _ ← push ret_addr;
  ctx ← irq_handle (ts_rsp s);
  __am_iret ctx.

(** The entry points, lines 56-61: [err] says whether the processor has pushed an error code. *)
Definition am_irq_entry (id : Z) (err : bool) : M trap_state unit :=
  _ ← trap_cli;
  _ ← (if err then mret tt else push 0);
  _ ← push id;
  trap.

Definition am_irqall_entry : M trap_state unit :=
  _ ← trap_cli;
  _ ← push 0;
  _ ← push (u64 (-1));
  trap.

(** The third column of IRQS in x86.h. *)
Definition irq_err (id : Z) : bool := existsb (Z.eqb id) [8; 10; 11; 12; 13; 14].

(** The code at the entry point of interrupt [n]. *)
Definition irq_entry (n : Z) : M trap_state unit :=
  if existsb (fun e => e.1 =? n) IRQS then am_irq_entry n (irq_err n) else am_irqall_entry.

(** Interrupt [n] from its delivery to the end of its handling. *)
Definition interrupt (n : Z) (err : option Z) : M trap_state unit :=
  s ← get;
  match idt (ts_cte s) !! Z.to_nat n with
  | None => raise OutOfBounds
  | Some g => _ ← deliver g err; irq_entry n
  end.

(** cte.c, lines 123-125. *)
Definition yield : M trap_state unit := interrupt 0x81 None.
End Entry.

(** ** New contexts: cte.c, lines 138-159, and trap64.S, lines 3-7 *)

Fixpoint zero_words (k : nat) (p i : Z) : M trap_state unit :=
  match k with O => mret tt | S k => _ ← write_le 8 p (8 * i) 0; zero_words k p (i + 1) end.

Definition kcontext_at (am_kcontext_start kstack_end entry arg : Z) : M trap_state Z :=
  let ctx := kstack_end - sizeof_Context in
  _ ← zero_words 22 ctx 0;
  _ ← write_le 8 ctx off_cs (KSEL SEG_KCODE);
  _ ← write_le 8 ctx off_rip am_kcontext_start;
  _ ← write_le 8 ctx off_rflags FL_IF;
  _ ← write_le 8 ctx off_rsp kstack_end;
  _ ← write_le 8 ctx off_rdi arg;
  _ ← write_le 8 ctx off_rsi entry;
  mret ctx.

(** [__am_kcontext_start], with the address of [__am_panic_on_return]. *)
Definition kcontext_start (panic_on_return : Z) : M trap_state unit :=
  _ ← push panic_on_return;
  modify (fun s => set_rip (nth RSI (gpr s) 0) s).

(** ** Words in memory *)

(** The words [l] from address [p] on. *)
Fixpoint words (m : mem) (p : Z) (l : list Z) : Prop :=
  match l with [] => True | v :: l => load64 m p = v /\ words m (p + 8) l end.

Definition set_mem (m : mem) (s : trap_state) : trap_state := st_upd (fun _ => m) s.

Lemma words_app m p l1 l2 :
  words m p (l1 ++ l2) <-> words m p l1 /\ words m (p + 8 * Z.of_nat (length l1)) l2.
Proof.
  revert p. induction l1 as [|v l1 IH]; intros p.
  - change (length (@nil Z)) with 0%nat. rewrite Z.add_0_r. cbn [app words]. tauto.
  - cbn [app words length]. rewrite IH. replace (p + 8 + 8 * Z.of_nat (length l1)) with (p + 8 * Z.of_nat (S (length l1))) by lia. tauto.
Qed.

Lemma words_frame P m m' p l :
  only_in P m m' -> words m p l -> (forall x, p <= x < p + 8 * Z.of_nat (length l) -> ~ P x) -> words m' p l.
Proof.
  intros Hm. revert p. induction l as [|v l IH]; intros p; cbn [words length]; [done|]. intros [<- Hl] HP. split.
  - apply (only_in_load _ _ _ _ _ Hm). intros x Hx. apply HP. lia.
  - apply IH; [done|]. intros x Hx. apply HP. lia.
Qed.

Lemma words_lookup m p l i v : words m p l -> l !! i = Some v -> load64 m (p + 8 * Z.of_nat i) = v.
Proof.
  revert p i. induction l as [|w l IH]; intros p [|i]; [done..| |]; cbn [words].
  - intros [<- _] [= <-]. by rewrite Z.add_0_r.
  - intros [_ Hl] Hi. rewrite <- (IH _ _ Hl Hi). f_equal. lia.
Qed.

Lemma words_range m p l : words m p l -> Forall (fun v => 0 <= v < 2 ^ 64) l.
Proof.
  revert p. induction l as [|w l IH]; intros p; cbn [words]; constructor; [|by eapply IH, H].
  destruct H as [<- _]. apply (load_le_range 8).
Qed.

Lemma words_any m p k : exists l, length l = k /\ words m p l.
Proof.
  revert p. induction k as [|k IH]; intros p; [by exists []|].
  destruct (IH (p + 8)) as (l & Hl & Hw). exists (load64 m p :: l). cbn. by rewrite Hl.
Qed.

(** A word of the list is overwritten. *)
Lemma words_store m p l i v :
  words m p l -> (i < length l)%nat -> words (store_le 8 m (p + 8 * Z.of_nat i) v) p (<[i := u64 v]> l).
Proof.
  revert p i. induction l as [|w l IH]; intros p [|i]; cbn [words length]; [lia..| |].
  - rewrite Z.add_0_r. intros [_ Hl] _. cbn. split; [apply load_store_le|].
    eapply words_frame; [apply (only_in_store (inr p 8)); [apply only_in_refl|]|exact Hl|]; unfold inr; intros; lia.
  - intros [Hw Hl] Hi. change (<[S i := u64 v]> (w :: l)) with (w :: <[i := u64 v]> l). cbn [words]. split.
    + rewrite <- Hw. apply load_le_ext. intros. apply store_le_outside. lia.
    + replace (p + 8 * Z.of_nat (S i)) with (p + 8 + 8 * Z.of_nat i) by lia. apply IH; [done|lia].
Qed.

(** ** The stack *)

Lemma run_bind {S A B} (m : M S A) (f : A -> M S B) s a s' : m s = Done a s' -> (m ≫= f) s = f a s'.
Proof. unfold mbind, M_bind. by intros ->. Qed.

Lemma run_fault {S A B} (m : M S A) (f : A -> M S B) s e : m s = Fault e -> (m ≫= f) s = Fault e.
Proof. unfold mbind, M_bind. by intros ->. Qed.

Lemma run_assoc {S A B C} (m : M S B) (m1 : M S A) (f : A -> M S B) (g : B -> M S C) s s' :
  m s = (m1 ≫= f) s' -> (m ≫= g) s = (r ← m1; x ← f r; g x) s'.
Proof. unfold mbind, M_bind. intros ->. by destruct (m1 s'). Qed.

Lemma push_all_run l s :
  Forall (fun v => 0 <= v < 2 ^ 64) l -> 8 * Z.of_nat (length l) <= ts_rsp s < 2 ^ 64 ->
  exists m', push_all l s = Done tt (set_rsp (ts_rsp s - 8 * Z.of_nat (length l)) (set_mem m' s)) /\
    words m' (ts_rsp s - 8 * Z.of_nat (length l)) (rev l) /\
    only_in (inr (ts_rsp s - 8 * Z.of_nat (length l)) (8 * Z.of_nat (length l))) (ts_mem s) m'.
Proof.
  revert s. induction l as [|v l IH]; intros s Hl Hs; cbn [push_all].
  - exists (ts_mem s). change (Z.of_nat (length [])) with 0. change (8 * 0) with 0. rewrite Z.sub_0_r. destruct s. split_and!; done.
  - apply Forall_cons in Hl as [Hv Hl]. cbn [length] in Hs |- *. erewrite run_bind; [|reflexivity].
    set (s1 := set_rsp _ _). assert (ts_rsp s1 = ts_rsp s - 8) as E1 by (cbn; apply wrap_small; lia).
    destruct (IH s1 Hl) as (m' & -> & Hw & Ho); [lia|].
    replace (ts_rsp s1 - 8 * Z.of_nat (length l)) with (ts_rsp s - 8 * Z.of_nat (Datatypes.S (length l))) in * by lia.
    exists m'. split; [done|]. split.
    + cbn [rev]. apply words_app. split; [done|]. rewrite length_rev. split; [|done].
      rewrite (only_in_load _ 8 _ _ _ Ho) by (unfold inr; intros; lia).
      change (load64 (store64 (ts_mem s) (u64 (ts_rsp s - 8)) v) (ts_rsp s - 8 * Z.of_nat (Datatypes.S (length l)) + 8 * Z.of_nat (length l)) = v).
      change (u64 (ts_rsp s - 8) = ts_rsp s - 8) in E1. rewrite E1.
      replace (_ + _) with (ts_rsp s - 8) by lia. rewrite load64_store64. by apply wrap_small.
    + intros x Hx. rewrite Ho by (unfold inr in *; lia).
      change (load8 (store_le 8 (ts_mem s) (u64 (ts_rsp s - 8)) v) x = load8 (ts_mem s) x).
      change (u64 (ts_rsp s - 8) = ts_rsp s - 8) in E1. rewrite E1. apply store_le_outside. unfold inr in Hx. lia.
Qed.

Lemma pop_all_run l s :
  words (ts_mem s) (ts_rsp s) l -> 0 <= ts_rsp s -> ts_rsp s + 8 * Z.of_nat (length l) < 2 ^ 64 ->
  pop_all (length l) s = Done l (set_rsp (ts_rsp s + 8 * Z.of_nat (length l)) s).
Proof.
  revert s. induction l as [|v l IH]; intros s Hw H0 Hs; cbn [length pop_all].
  - change (8 * Z.of_nat 0) with 0. rewrite Z.add_0_r. by destruct s.
  - cbn [length words] in *. destruct Hw as [Hv Hw].
    assert (u64 (ts_rsp s + 8) = ts_rsp s + 8) as E by (apply wrap_small; lia).
    erewrite run_bind; [|unfold pop; rewrite E, Hv; reflexivity].
    erewrite run_bind; [|apply IH; cbn [set_rsp ts_rsp ts_mem]; [done|lia..]].
    cbn [set_rsp ts_rsp]. replace (ts_rsp s + 8 * Z.of_nat (S (length l))) with (ts_rsp s + 8 + 8 * Z.of_nat (length l)) by lia. reflexivity.
Qed.

Lemma push_run v s :
  0 <= v < 2 ^ 64 -> 8 <= ts_rsp s < 2 ^ 64 ->
  exists m', push v s = Done tt (set_rsp (ts_rsp s - 8) (set_mem m' s)) /\
    load64 m' (ts_rsp s - 8) = v /\ only_in (inr (ts_rsp s - 8) 8) (ts_mem s) m'.
Proof.
  intros Hv Hs. destruct (push_all_run [v] s) as (m' & E & [Hw _] & Ho); [constructor; [done|constructor]|cbn [length]; lia|].
  change (8 * Z.of_nat (length [v])) with 8 in *. exists m'. split_and!; [|done|done]. rewrite <- E. cbn [push_all]. unfold mbind, M_bind, push, modify. reflexivity.
Qed.

(** ** What the processor runs *)

(** The context the processor is in. *)
Definition context_of (s : trap_state) : Context :=
  let r i := nth i (gpr s) 0 in
  mk_context (cr3 (ts_cte s)) (r 0%nat) (r 1%nat) (r 2%nat) (r 3%nat) (r 4%nat) (r 5%nat) (r 6%nat) (r 7%nat) (r 8%nat)
    (r 9%nat) (r 10%nat) (r 11%nat) (r 12%nat) (r 13%nat) (r 14%nat)
    (ts_rip s) (ts_cs s) (ts_rflags s) (ts_rsp s) (ts_ss s) (tss_rsp0 (ts_cte s)).

(** The general registers of a context. *)
Definition ctx_gpr (c : Context) : list Z :=
  [rax c; rbx c; rcx c; rdx c; rbp c; rsi c; rdi c; r8 c; r9 c; r10 c; r11 c; r12 c; r13 c; r14 c; r15 c].

(** The processor in the context [c], with the memory of [s]; the address space and the kernel
    stack are those of [s] when the context has none. *)
Definition resume (c : Context) (s : trap_state) : trap_state :=
  let k := ts_cte s in
  mk_ts (ts_mem s) (ctx_gpr c) (rsp c) (rip c) (wrap 16 (cs c)) (rflags c) (wrap 16 (ss c)) (wrap 16 (ss c)) (wrap 16 (ss c))
    (if ctx_cr3 c =? 0 then k else mk_cte (rsp0 c) (cr2 k) (ctx_cr3 c) (idt k) (lapic k) (eois k) (efl k)).

Lemma read_le_run p off (s : trap_state) : p <> 0 -> read_le 8 p off s = Done (load64 (ts_mem s) (p + off)) s.
Proof. intros Hp. unfold read_le. by destruct (Z.eqb_spec p 0). Qed.

Lemma read_word p l i v (s : trap_state) :
  words (ts_mem s) p l -> l !! i = Some v -> 0 < p -> read_le 8 p (8 * Z.of_nat i) s = Done v s.
Proof. intros Hw Hi Hp. rewrite read_le_run by lia. by rewrite (words_lookup _ _ _ _ _ Hw Hi). Qed.

Lemma write_le_run p off v (s : trap_state) :
  p <> 0 -> write_le 8 p off v s = Done tt (set_mem (store_le 8 (ts_mem s) (p + off) v) s).
Proof. intros Hp. unfold write_le. by destruct (Z.eqb_spec p 0). Qed.

(** From the result of the handler to the context it points to. *)
Lemma finish_run r c s :
  words (ts_mem s) r (ctx_words c) -> 0 < r -> r + 176 < 2 ^ 64 ->
  (ctx ← irq_finish r; __am_iret ctx) s = Done tt (resume c s).
Proof.
  intros Hw Hr Hr'. unfold irq_finish.
  assert (load64 (ts_mem s) (r + 0) = ctx_cr3 c) as Hcr3 by exact (words_lookup _ _ _ 0 _ Hw eq_refl).
  assert (load64 (ts_mem s) (r + off_rsp0) = rsp0 c) as Hrsp0 by exact (words_lookup _ _ _ 21 _ Hw eq_refl).
  assert (load64 (ts_mem s) (r + off_ss) = ss c) as Hss by exact (words_lookup _ _ _ 20 _ Hw eq_refl).
  destruct (Z.eqb_spec r 0) as [|_]; [lia|].
  set (s1 := set_cte (ts_cte (resume c s)) s).
  erewrite run_bind with (a := r) (s' := s1).
  2:{ erewrite run_bind; [|by apply read_le_run; lia]. rewrite Hcr3. unfold s1, resume. cbn [ts_cte].
      destruct (ctx_cr3 c =? 0); cbn [negb].
      - by destruct s.
      - unfold mbind, M_bind, on_cte, set_cr3, set_tss_rsp0, modify. rewrite read_le_run by lia.
        cbn [set_cte ts_mem]. rewrite Hrsp0. reflexivity. }
  destruct Hw as [_ Hw]. change (words (ts_mem s) (r + 8) (ctx_gpr c ++ [rip c; cs c; rflags c; rsp c; ss c] ++ [rsp0 c])) in Hw.
  apply words_app in Hw as [Hg Hw]. apply words_app in Hw as [Hf _].
  change (length (ctx_gpr c)) with 15%nat in Hf. unfold __am_iret.
  do 2 (erewrite run_bind; [|reflexivity]). erewrite run_bind; [|unfold modify; reflexivity].
  cbn [set_rsp set_ds_es ts_rsp ts_mem].
  rewrite (wrap_small 64 (r + 8)), (wrap_small 64 (r + off_ss)) by (unfold off_ss; lia).
  set (s2 := set_rsp (r + 8) _).
  erewrite run_bind; [|apply (pop_all_run (ctx_gpr c) s2); [exact Hg|unfold s2; cbn [set_rsp ts_rsp ctx_gpr length]; lia..]].
  erewrite run_bind; [|unfold modify; reflexivity].
  set (s3 := set_gpr _ _). unfold iretq.
  erewrite run_bind; [|apply (pop_all_run [rip c; cs c; rflags c; rsp c; ss c] s3); [exact Hf|
    unfold s3, s2; cbn [set_gpr set_rsp ts_rsp ctx_gpr length]; lia..]].
  unfold modify, s3, s2, s1, resume.
  cbn [set_ss set_rsp set_rflags set_cs set_rip set_gpr set_ds_es set_cte ts_mem gpr ts_rsp ts_rip ts_cs ts_rflags ts_ss ts_ds ts_es ts_cte].
  by rewrite Hss.
Qed.

(** [m] goes on as [m'], after writes into the context at [p] that leave the words [l] there. *)
Definition saves {B} p (m m' : M trap_state B) (s : trap_state) (l : list Z) : Prop :=
  exists m1, m s = m' (set_mem m1 s) /\ words m1 p l /\ only_in (inr p sizeof_Context) (ts_mem s) m1.

Lemma saves_put {B} p l j v (K m' : M trap_state B) s l' :
  words (ts_mem s) p l -> 0 <= v < 2 ^ 64 -> 0 < p -> (j < 22)%nat -> (22 <= length l)%nat ->
  (forall m1, words m1 p (<[j := v]> l) -> saves p K m' (set_mem m1 s) l') ->
  saves p (_ ← write_le 8 p (8 * Z.of_nat j) v; K) m' s l'.
Proof.
  intros Hw Hv Hp Hj Hn HK.
  destruct (HK (store_le 8 (ts_mem s) (p + 8 * Z.of_nat j) v)) as (m1 & E & Hw1 & Ho).
  - rewrite <- (wrap_small 64 v) at 2 by done. apply words_store; [exact Hw|lia].
  - exists m1. split_and!; [|done|].
    + erewrite run_bind; [|apply write_le_run; lia]. exact E.
    + etransitivity; [|exact Ho]. apply only_in_store; [apply only_in_refl|]. unfold inr, sizeof_Context. intros. lia.
Qed.

Lemma saves_copy {B} p l i j v (K m' : M trap_state B) s l' :
  words (ts_mem s) p l -> l !! i = Some v -> 0 < p -> (j < 22)%nat -> (22 <= length l)%nat ->
  (forall m1, words m1 p (<[j := v]> l) -> saves p K m' (set_mem m1 s) l') ->
  saves p (v ← read_le 8 p (8 * Z.of_nat i); _ ← write_le 8 p (8 * Z.of_nat j) v; K) m' s l'.
Proof.
  intros Hw Hi Hp Hj Hn HK. unfold saves.
  rewrite (run_bind (read_le 8 p (8 * Z.of_nat i)) _ s v s) by (by apply (read_word p l)).
  apply (saves_put p l); [done| |done..]. pose proof (words_range _ _ _ Hw) as Hr. rewrite Forall_lookup in Hr. by apply (Hr i).
Qed.

(** The state the handler runs in. *)
Definition ack (n : Z) (k : cte_state) : cte_state := acked (mk_tf zero_context n 0 0 0 0 0 0) k.

Lemma ack_cr2 n k : cr2 (ack n k) = cr2 k.
Proof. unfold ack, acked. by destruct (_ && _ && _). Qed.

Lemma eoi_run n s :
  (if (T_IRQ0 + 0 <=? n) && (n <? T_IRQ0 + 32) then on_cte __am_lapic_eoi else mret tt) s = Done tt (set_cte (ack n (ts_cte s)) s).
Proof.
  unfold ack, acked, irq, T_IRQ0, __am_lapic_eoi. change (32 + 0) with 32. change (32 + 32) with 64.
  destruct ((32 <=? n) && (n <? 64)); [|by destruct s]. unfold on_cte, modify, andb.
  destruct (lapic (ts_cte s)) eqn:El; [done|]. do 2 f_equal. rewrite <- El. by destruct (ts_cte s).
Qed.

Lemma saves_step {B C} p (c : M trap_state C) (K : C -> M trap_state B) m' s a l :
  c s = Done a s -> saves p (K a) m' s l -> saves p (c ≫= K) m' s l.
Proof. intros E (m1 & HK & H). exists m1. split; [|done]. by erewrite run_bind. Qed.

(** One word is copied. *)
Ltac copy_word i j :=
  lazymatch goal with Hw : words _ _ _ |- saves ?p _ _ _ _ =>
    eapply (saves_copy p _ i j); [exact Hw|reflexivity|done|lia|cbn [length]; lia|];
    clear Hw; intros ? Hw; cbn [insert list_insert] in Hw end.

(** [s1] is [s] with the words [l] on its stack, which ended at [top], in the code segment
    [sel]; the flags, the other segments and the instruction pointer may differ. *)
Record stacked (s : trap_state) (sel top : Z) (l : list Z) (s1 : trap_state) : Prop := mk_stacked {
  stacked_words : words (ts_mem s1) (ts_rsp s1) l;
  stacked_rsp : ts_rsp s1 = top - 8 * Z.of_nat (length l);
  stacked_mem : only_in (inr (ts_rsp s1) (8 * Z.of_nat (length l))) (ts_mem s) (ts_mem s1);
  stacked_gpr : gpr s1 = gpr s;
  stacked_cte : ts_cte s1 = ts_cte s;
  stacked_cs : ts_cs s1 = sel;
}.

Lemma stacked_push_all s sel top l s1 l' :
  stacked s sel top l s1 -> Forall (fun v => 0 <= v < 2 ^ 64) l' -> 8 * Z.of_nat (length l') <= ts_rsp s1 < 2 ^ 64 ->
  exists s2, push_all l' s1 = Done tt s2 /\ stacked s sel top (rev l' ++ l) s2.
Proof.
  intros [Hw Hr Hm Hg Hc Hs] Hl' Hb. destruct (push_all_run l' s1 Hl' Hb) as (m' & -> & Hw' & Ho).
  eexists. split; [reflexivity|]. rewrite <- (length_rev l') in *. split; cbn; try done.
  - apply words_app. split; [done|]. rewrite Z.sub_add. eapply words_frame; [exact Ho|exact Hw|]. unfold inr. lia.
  - rewrite length_app. lia.
  - rewrite length_app. transitivity (ts_mem s1); eapply only_in_weaken; [exact Hm| |exact Ho|]; unfold inr; lia.
Qed.

Lemma stacked_push s sel top l s1 v :
  stacked s sel top l s1 -> 0 <= v < 2 ^ 64 -> 8 <= ts_rsp s1 < 2 ^ 64 ->
  exists s2, push v s1 = Done tt s2 /\ ts_rsp s2 = ts_rsp s1 - 8 /\ stacked s sel top (v :: l) s2.
Proof.
  intros Hs Hv Hb. destruct (stacked_push_all _ _ _ _ _ [v] Hs) as (s2 & E & Hs2).
  { constructor; [done|constructor]. }
  { cbn [length]. lia. }
  exists s2. split; [|split; [|exact Hs2]].
  - rewrite <- E. unfold push_all, mbind, M_bind, push, modify. reflexivity.
  - rewrite (stacked_rsp _ _ _ _ _ Hs), (stacked_rsp _ _ _ _ _ Hs2). cbn [rev app length]. lia.
Qed.

Lemma stacked_push2 s sel top l s1 v w :
  stacked s sel top l s1 -> 0 <= v < 2 ^ 64 -> 0 <= w < 2 ^ 64 -> 16 <= ts_rsp s1 < 2 ^ 64 ->
  exists s2 s3, push v s1 = Done tt s2 /\ push w s2 = Done tt s3 /\ stacked s sel top (w :: v :: l) s3.
Proof.
  intros Hs Hv Hw Hb. destruct (stacked_push _ _ _ _ _ v Hs) as (s2 & E2 & Hr2 & Hs2); [done|lia|].
  destruct (stacked_push _ _ _ _ _ w Hs2) as (s3 & E3 & _ & Hs3); [done|lia|]. eauto.
Qed.

(** The words a delivery pushes, from the lowest on. *)
Definition frame (err : option Z) (s : trap_state) : list Z :=
  match err with Some e => [e] | None => [] end ++ [ts_rip s; ts_cs s; ts_rflags s; ts_rsp s; ts_ss s].

(** The words an entry point pushes. *)
Definition entry_pushes (n : Z) : list Z :=
  if existsb (fun e : Z * Z => e.1 =? n) IRQS then n :: (if irq_err n then [] else [0]) else [u64 (-1); 0].

Definition u64s (l : list Z) : Prop := Forall (fun v => 0 <= v < 2 ^ 64) l.

Lemma deliver_run g err s :
  let x := pack (gate_fields g) in
  u64s (frame err s) -> 256 <= frame_top x s < 2 ^ 64 ->
  exists s1, deliver g err s = Done tt s1 /\ stacked s (gate_selector x) (frame_top x s) (frame err s) s1.
Proof.
  intros x Hf Ht. unfold frame in *. apply Forall_app in Hf as [He Hf]. unfold deliver.
  erewrite run_bind; [|reflexivity]. fold x. erewrite run_bind; [|unfold modify; reflexivity].
  set (s0 := set_rsp _ _).
  destruct (stacked_push_all s (ts_cs s) (frame_top x s) [] s0 [ts_ss s; ts_rsp s; ts_rflags s; ts_cs s; ts_rip s])
    as (s1 & E1 & Hs1).
  { split; try done; cbn; lia. }
  { by apply Forall_rev in Hf. }
  { cbn; lia. }
  erewrite run_bind; [|exact E1].
  destruct (stacked_push_all _ _ _ _ _ (match err with Some e => [e] | None => [] end) Hs1) as (s2 & E2 & Hs2).
  { done. }
  { destruct Hs1 as [_ -> _ _ _ _]. destruct err; cbn; lia. }
  erewrite run_bind; [|exact E2]. unfold modify, mbind, M_bind.
  eexists. split; [reflexivity|]. destruct Hs2 as [Hw Hr Hm Hg Hc _].
  replace (rev _ ++ _) with (frame err s) in * by (by destruct err).
  by split.
Qed.

Section Entering.
Context (user_handler : Event -> Z -> M trap_state Z).

(** Up to the call of the handler. *)
Lemma handle_saves p ws n err rip cs fl sp ss s :
  words (ts_mem s) p (ws ++ [n; err; rip; cs; fl; sp; ss]) -> length ws = 22%nat -> 0 < p ->
  0 <= cr3 (ts_cte s) < 2 ^ 64 -> 0 <= tss_rsp0 (ts_cte s) < 2 ^ 64 ->
  saves p (irq_handle user_handler p)
    (fun s => (r ← user_handler (irq_event n err (cr2 (ts_cte s))) p; irq_finish r) (set_cte (ack n (ts_cte s)) s)) s
    (cr3 (ts_cte s) :: take 15 (drop 1 ws) ++ [rip; cs; fl; sp; ss; tss_rsp0 (ts_cte s)]).
Proof.
  intros Hw Hl Hp Hcr3 Hrsp0.
  do 22 (destruct ws as [|? ws]; [discriminate Hl|]). destruct ws; [|discriminate Hl]. clear Hl. cbn [app] in Hw.
  unfold irq_handle. copy_word 24%nat 16%nat. copy_word 25%nat 17%nat. copy_word 26%nat 18%nat. copy_word 27%nat 19%nat.
  eapply saves_step; [reflexivity|].
  eapply (saves_put p _ 21); [exact Hw|exact Hrsp0|done|lia|cbn [length]; lia|].
  clear Hw. intros ? Hw. cbn [insert list_insert] in Hw. copy_word 28%nat 20%nat.
  eapply (saves_put p _ 0); [exact Hw|exact Hcr3|done|lia|cbn [length]; lia|].
  clear Hw. intros ? Hw. cbn [insert list_insert] in Hw.
  eapply saves_step; [eapply (read_word p _ 22); [exact Hw|reflexivity|done]|].
  match goal with |- saves _ _ _ ?s _ => set (sN := s) in * end.
  exists (ts_mem sN). split; [|split; [|done]].
  - erewrite run_bind; [|apply eoi_run].
    erewrite run_bind; [|eapply (read_word p _ 23); [exact Hw|reflexivity|done]].
    erewrite run_bind; [|reflexivity]. cbn [set_cte ts_cte]. by rewrite ack_cr2.
  - apply (words_app _ _ _ [n; err; rip; cs; fl; sp; ss]). exact Hw.
Qed.

Context (ret_addr : Z).

(** The state in which the handler is called: a context with the words [l] at [p], interrupts
    off, the code segment [sel], the memory of [s] but for [n] bytes from [low] on. *)
Record called (s : trap_state) (sel irq : Z) (p low n : Z) (l : list Z) (s1 : trap_state) : Prop := mk_called {
  called_words : words (ts_mem s1) p l;
  called_mem : only_in (inr low n) (ts_mem s) (ts_mem s1);
  called_cte : ts_cte s1 = ack irq (ts_cte s);
  called_off : Z.testbit (ts_rflags s1) 9 = false;
  called_cs : ts_cs s1 = sel;
}.

(** The handler and what follows it. *)
Definition handled (ev : Event) (p : Z) : M trap_state unit :=
  r ← user_handler ev p; ctx ← irq_finish r; __am_iret ctx.

(** The part of the state that interrupt handling needs. *)
Definition cte_sized (k : cte_state) : Prop := 0 <= cr3 k < 2 ^ 64 /\ 0 <= tss_rsp0 k < 2 ^ 64.

Lemma cli_off s : Z.testbit (Z.land (ts_rflags s) (Z.lnot FL_IF)) 9 = false.
Proof. rewrite Z.land_spec. change (Z.testbit (Z.lnot FL_IF) 9) with false. apply andb_false_r. Qed.

Lemma trap_run n err rip cs fl sp ss s :
  words (ts_mem s) (ts_rsp s) [n; err; rip; cs; fl; sp; ss] -> length (gpr s) = 15%nat ->
  Forall (fun v => 0 <= v < 2 ^ 64) (gpr s) -> 184 < ts_rsp s < 2 ^ 64 -> cte_sized (ts_cte s) -> 0 <= ret_addr < 2 ^ 64 ->
  exists s1, trap user_handler ret_addr s = handled (irq_event n err (cr2 (ts_cte s))) (ts_rsp s - 176) s1 /\
    called s (ts_cs s) n (ts_rsp s - 176) (ts_rsp s - 184) 184
      (cr3 (ts_cte s) :: gpr s ++ [rip; cs; fl; sp; ss; tss_rsp0 (ts_cte s)]) s1.
Proof.
  intros Hw Hl Hg Hs [Hcr3 Hrsp0] Hra. set (t := ts_rsp s) in *. unfold trap.
  erewrite run_bind; [|unfold trap_cli, modify; reflexivity].
  erewrite run_bind; [|unfold modify; reflexivity].
  erewrite run_bind; [|reflexivity]. cbn [set_rsp set_rflags ts_rsp]. fold t. rewrite (wrap_small 64 (t - 48)) by lia.
  set (s1 := set_rsp (t - 48) _).
  destruct (push_all_run (rev (gpr s)) s1) as (m1 & E1 & Hw1 & Ho1).
  { by apply Forall_rev. }
  { rewrite length_rev, Hl. cbn; lia. }
  rewrite length_rev, Hl, rev_involutive in *. change (8 * Z.of_nat 15) with 120 in *.
  replace (ts_rsp s1 - 120) with (t - 168) in * by (cbn; lia).
  change (gpr s1) with (gpr s) in *.
  erewrite run_bind; [|exact E1]. set (s2 := set_rsp (t - 168) _).
  destruct (push_run 0 s2) as (m2 & E2 & Hw2 & Ho2); [lia|cbn; lia|].
  replace (ts_rsp s2 - 8) with (t - 176) in * by (cbn; lia).
  erewrite run_bind; [|exact E2]. erewrite run_bind; [|reflexivity]. erewrite run_bind; [|unfold modify; reflexivity].
  set (s3 := set_gpr _ _).
  destruct (push_run ret_addr s3) as (m4 & E4 & _ & Ho4); [lia|cbn; lia|].
  replace (ts_rsp s3 - 8) with (t - 184) in * by (cbn; lia).
  erewrite run_bind; [|exact E4]. set (s4 := set_rsp (t - 184) _).
  assert (only_in (inr (t - 184) 184) (ts_mem s) (ts_mem s4)) as Ho.
  { transitivity m1; [|transitivity m2].
    - eapply only_in_weaken; [exact Ho1|]. unfold inr. lia.
    - eapply only_in_weaken; [exact Ho2|]. unfold inr. lia.
    - eapply only_in_weaken; [exact Ho4|]. unfold inr. lia. }
  destruct (words_any (ts_mem s4) (t - 48) 6) as (w & Hwl & Hww).
  assert (words (ts_mem s4) (t - 176) (((0 :: gpr s) ++ w) ++ [n; err; rip; cs; fl; sp; ss])) as Hall.
  { apply words_app. split; [apply words_app; split|].
    - cbn [words]. split.
      + rewrite <- Hw2. apply (only_in_load _ 8 _ _ _ Ho4). unfold inr. lia.
      + eapply words_frame; [exact Ho4| |unfold inr; rewrite Hl; lia].
        eapply words_frame; [exact Ho2| |unfold inr; rewrite Hl; lia].
        by replace (t - 176 + 8) with (t - 168) by lia.
    - cbn [length]. rewrite Hl. by replace (t - 176 + 8 * Z.of_nat 16) with (t - 48) by lia.
    - rewrite length_app. cbn [length]. rewrite Hl, Hwl. replace (t - 176 + 8 * Z.of_nat (16 + 6)) with t by lia.
      eapply words_frame; [exact Ho|exact Hw|]. unfold inr. intros. lia. }
  destruct (handle_saves (t - 176) _ n err rip cs fl sp ss s4 Hall) as (m5 & E5 & Hw5 & Ho5);
    [rewrite length_app; cbn [length]; rewrite Hl, Hwl; lia|lia|done..|].
  exists (set_cte (ack n (ts_cte s)) (set_mem m5 s4)). split; [|split].
  - exact (run_assoc _ _ _ _ _ _ E5).
  - replace (take 15 _) with (gpr s) in Hw5; [exact Hw5|].
    change (drop 1 ((0 :: gpr s) ++ w)) with (gpr s ++ w). by rewrite take_app_length'.
  - transitivity (ts_mem s4); [done|]. eapply only_in_weaken; [exact Ho5|]. unfold inr, sizeof_Context. lia.
  - done.
  - apply cli_off.
  - done.
Qed.

Lemma entry_run n s sel top l s1 :
  stacked s sel top l s1 -> 0 <= n < 256 -> 16 <= ts_rsp s1 < 2 ^ 64 ->
  exists s2, irq_entry user_handler ret_addr n s1 = trap user_handler ret_addr s2 /\ stacked s sel top (entry_pushes n ++ l) s2.
Proof.
  intros Hs Hn Hb. unfold irq_entry, entry_pushes.
  assert (exists s0, trap_cli s1 = Done tt s0 /\ ts_rsp s0 = ts_rsp s1 /\ stacked s sel top l s0) as (s0 & E0 & Hr0 & H).
  { eexists. split; [unfold trap_cli, modify; reflexivity|]. split; [done|]. by destruct Hs. }
  rewrite <- Hr0 in Hb. clear Hs Hr0.
  destruct (existsb _ IRQS); [unfold am_irq_entry|unfold am_irqall_entry]; (erewrite run_bind; [|exact E0]).
  - destruct (irq_err n).
    + erewrite run_bind; [|reflexivity].
      destruct (stacked_push _ _ _ _ _ n H) as (s2 & E2 & Hr2 & Hs2); [lia|lia|].
      erewrite run_bind; [|exact E2]. by exists s2.
    + destruct (stacked_push2 _ _ _ _ _ 0 n H) as (s2 & s3 & E2 & E3 & Hs3); [lia..|].
      erewrite run_bind; [|exact E2]. erewrite run_bind; [|exact E3]. by exists s3.
  - destruct (stacked_push2 _ _ _ _ _ 0 (u64 (-1)) H) as (s2 & s3 & E2 & E3 & Hs3); [lia|by vm_compute|lia|].
    erewrite run_bind; [|exact E2]. erewrite run_bind; [|exact E3]. by exists s3.
Qed.

(** Interrupt [n] up to the handler. The seven words that the entry code takes for the number,
    the error code and the frame are the first it finds on the stack. *)
Lemma interrupt_run n err g code e rip cs fl sp ss rest s :
  let x := pack (gate_fields g) in
  let all := entry_pushes n ++ frame err s in
  let p := frame_top x s - 8 * Z.of_nat (length all) - 176 in
  idt (ts_cte s) !! Z.to_nat n = Some g -> 0 <= n < 256 -> 256 <= frame_top x s < 2 ^ 64 ->
  length (gpr s) = 15%nat -> u64s (gpr s) -> u64s (frame err s) -> cte_sized (ts_cte s) -> 0 <= ret_addr < 2 ^ 64 ->
  all = [code; e; rip; cs; fl; sp; ss] ++ rest ->
  exists s1, interrupt user_handler ret_addr n err s = handled (irq_event code e (cr2 (ts_cte s))) p s1 /\
    called s (gate_selector x) code p (p - 8) (frame_top x s - p + 8)
      (cr3 (ts_cte s) :: gpr s ++ [rip; cs; fl; sp; ss; tss_rsp0 (ts_cte s)]) s1.
Proof.
  intros x all p Hg Hn Ht Hl Hgpr Hf Hc Hra Hall. unfold interrupt. erewrite run_bind; [|reflexivity]. rewrite Hg.
  destruct (deliver_run g err s Hf Ht) as (s1 & E1 & Hs1). erewrite run_bind; [|exact E1]. fold x in Hs1.
  assert (length (frame err s) <= 6)%nat as Hfl by (unfold frame; destruct err; cbn; lia).
  destruct (entry_run n _ _ _ _ _ Hs1 Hn) as (s2 & -> & [Hw Hr Hm Hg2 Hc2 Hcs]).
  { destruct Hs1 as [_ -> _ _ _ _]. lia. }
  fold all in Hw, Hr, Hm. assert (length all <= 8)%nat.
  { unfold all. rewrite length_app. unfold entry_pushes. destruct (existsb _ _), (irq_err n); cbn [length]; lia. }
  rewrite Hall in Hw. apply words_app in Hw as [Hw _].
  destruct (trap_run code e rip cs fl sp ss s2 Hw) as (s3 & E3 & [Hw3 Hm3 Hc3 Ho3 Hcs3]);
    rewrite ?Hg2, ?Hc2; try done; [lia|].
  rewrite Hr, Hc2, ?Hg2 in *. exists s3. split; [done|]. split; try done.
  - transitivity (ts_mem s2); eapply only_in_weaken; [exact Hm| |exact Hm3|]; unfold inr; lia.
  - by rewrite Hcs3.
Qed.
End Entering.

(** ** Interrupts as Cte.v describes them *)

(** The processor runs the context [c]. *)
Definition runs (c : Context) (s : trap_state) : Prop :=
  gpr s = ctx_gpr c /\ ts_rsp s = rsp c /\ ts_rip s = rip c /\ ts_cs s = wrap 16 (cs c) /\ ts_rflags s = rflags c /\
  ts_ss s = wrap 16 (ss c) /\ ts_ds s = wrap 16 (ss c) /\ ts_es s = wrap 16 (ss c).

(** The number that the entry point of interrupt [n] passes on. *)
Definition irq_number (n : Z) : Z := if existsb (fun e : Z * Z => e.1 =? n) IRQS then n else u64 (-1).

(** The frame of Cte.v for interrupt [n] of a processor in the state [s]. *)
Definition trap_frame_of (n : Z) (err : option Z) (s : trap_state) : trap_frame :=
  mk_tf (context_of s) (irq_number n) (default 0 err) (ts_rip s) (ts_cs s) (ts_rflags s) (ts_rsp s) (ts_ss s).

(** An error code comes with exactly the interrupts whose entry expects one. *)
Definition err_fits (n : Z) (err : option Z) : Prop :=
  match err with Some _ => irq_err n = true | None => irq_err n = false end.

(** The state in which interrupts are handled: a frame with room below its top, 64-bit registers. *)
Record ready (n : Z) (err : option Z) (g : GateDesc64) (s : trap_state) : Prop := mk_ready {
  ready_gate : idt (ts_cte s) !! Z.to_nat n = Some g;
  ready_n : 0 <= n < 256;
  ready_top : 256 <= frame_top (pack (gate_fields g)) s < 2 ^ 64;
  ready_len : length (gpr s) = 15%nat;
  ready_gpr : u64s (gpr s);
  ready_frame : u64s (frame err s);
  ready_cte : cte_sized (ts_cte s);
}.

Lemma irq_err_listed n : irq_err n = true -> existsb (fun e : Z * Z => e.1 =? n) IRQS = true.
Proof.
  unfold irq_err. rewrite existsb_exists. intros (x & Hx & ->%Z.eqb_eq).
  repeat (destruct Hx as [<-|Hx]; [reflexivity|]). destruct Hx.
Qed.

Lemma pushes_fit n err s : err_fits n err ->
  entry_pushes n ++ frame err s =
  [irq_number n; default 0 err; ts_rip s; ts_cs s; ts_rflags s; ts_rsp s; ts_ss s] ++ [].
Proof.
  unfold err_fits, entry_pushes, irq_number, frame. destruct err as [e|]; cbn [default].
  - intros E. by rewrite (irq_err_listed n E), E.
  - intros ->. by destruct (existsb _ _).
Qed.

Lemma context_words s :
  length (gpr s) = 15%nat ->
  ctx_words (context_of s) =
  cr3 (ts_cte s) :: gpr s ++ [ts_rip s; ts_cs s; ts_rflags s; ts_rsp s; ts_ss s; tss_rsp0 (ts_cte s)].
Proof.
  unfold context_of. destruct s as [m l]. cbn [gpr]. intros Hl.
  do 15 (destruct l as [|? l]; [discriminate Hl|]). by destruct l.
Qed.

Section Interrupts.
Context (user_handler : Event -> Z -> M trap_state Z) (ret_addr : Z).
Hypothesis ret_addr_range : 0 <= ret_addr < 2 ^ 64.

(** An interrupt whose error code fits reaches the handler with the interrupted context. *)
Lemma interrupt_called n err g s :
  ready n err g s -> err_fits n err ->
  let p := frame_top (pack (gate_fields g)) s - 232 in
  exists s1, interrupt user_handler ret_addr n err s =
      handled user_handler (irq_event (irq_number n) (default 0 err) (cr2 (ts_cte s))) p s1 /\
    called s (gate_selector (pack (gate_fields g))) (irq_number n) p (p - 8) 240 (ctx_words (context_of s)) s1.
Proof.
  intros [Hg Hn Ht Hl Hgpr Hf Hc] He p. pose proof (pushes_fit n err s He) as Hall.
  pose proof (interrupt_run user_handler ret_addr n err g _ _ _ _ _ _ _ _ s Hg Hn Ht Hl Hgpr Hf Hc ret_addr_range Hall) as H.
  rewrite Hall, app_nil_r in H. cbn [length] in H. rewrite context_words by done.
  change (8 * Z.of_nat 7) with 56 in H. replace (_ - 56 - 176) with p in H by (unfold p; lia).
  by replace (frame_top (pack (gate_fields g)) s - p + 8) with 240 in H by (unfold p; lia).
Qed.

(** The handler of the client does on memory what [H] does on contexts. *)
Definition implements (H : Event -> Context -> M cte_state (option Context)) : Prop :=
  forall ev p s c, words (ts_mem s) p (ctx_words c) -> 0 < p -> p + 176 < 2 ^ 64 ->
    match H ev c (ts_cte s) with
    | Fault e => user_handler ev p s = Fault e
    | Done None _ => exists s', user_handler ev p s = Done 0 s'
    | Done (Some c') k => exists r s', user_handler ev p s = Done r s' /\ ts_cte s' = k /\
        words (ts_mem s') r (ctx_words c') /\ 0 < r /\ r + 176 < 2 ^ 64
    end.

Lemma saved_is_context n err s : save_context (trap_frame_of n err s) (tss_rsp0 (ts_cte s)) (cr3 (ts_cte s)) = context_of s.
Proof. done. Qed.

(** C38: an interrupt, from its delivery over the entry code, [__am_irq_handle] and [iretq], is
    what Cte.v says of it on contexts: when the handler does on memory what [H] does on
    contexts, the processor ends in the context and the state that [__am_irq_handle] gives with
    [H] for the frame of the interrupted program, and a fault of one is the fault of the other. *)
Theorem interrupt_refines H n err g s :
  implements H -> ready n err g s -> err_fits n err ->
  match __am_irq_handle H (trap_frame_of n err s) (ts_cte s) with
  | Done c k => exists s', interrupt user_handler ret_addr n err s = Done tt s' /\ runs c s' /\ ts_cte s' = k
  | Fault e => interrupt user_handler ret_addr n err s = Fault e
  end.
Proof.
  intros HH Hr He. destruct (interrupt_called n err g s Hr He) as (s1 & -> & [Hw _ Hc _ _]).
  assert (ready_top' := ready_top _ _ _ _ Hr). rewrite irq_handle_eq.
  change (acked (trap_frame_of n err s) (ts_cte s)) with (ack (irq_number n) (ts_cte s)). rewrite saved_is_context, <- Hc.
  pose proof (HH (irq_event (irq_number n) (default 0 err) (cr2 (ts_cte s))) _ _ _ Hw) as Hu. change (irq (trap_frame_of n err s)) with (irq_number n).
  change (errcode (trap_frame_of n err s)) with (default 0 err). unfold handled.
  destruct (H _ _ _) as [[c|] k|e].
  - destruct Hu as (r & s2 & E & <- & Hw2 & Hr2 & Hr3); [lia..|]. rewrite (run_bind _ _ _ _ _ E).
    rewrite (finish_run r c s2) by done. eexists. split; [reflexivity|]. done.
  - destruct Hu as (s2 & E); [lia..|]. by rewrite (run_bind _ _ _ _ _ E).
  - rewrite (run_fault _ _ _ e); [done|]. apply Hu; lia.
Qed.

(** The handler gives back the context it gets and does not change it; [P] is the memory it
    works on. *)
Definition returns (P : Z -> Prop) : Prop :=
  forall ev p s l, words (ts_mem s) p l -> length l = 22%nat ->
    exists s', user_handler ev p s = Done p s' /\ ts_cte s' = ts_cte s /\ words (ts_mem s') p l /\ only_in P (ts_mem s) (ts_mem s').

(** C39: an interrupt whose error code is the one its entry point expects is invisible to the
    program it interrupts when the handler returns the context it was given: the general
    registers, the flags, the stack pointer, the code and the stack segment, the address space
    and the kernel stack are as before, and the data segments, which the context does not hold,
    are loaded with the stack segment. The local APIC has been told of the end of a device
    interrupt. The entry code changes 240 bytes below the top of the frame and no other memory;
    [P] is the memory that the handler works on, and the stack frames of the C functions, below
    these bytes, are not part of the model. *)
Theorem interrupt_transparent P n err g s :
  returns P -> ready n err g s -> err_fits n err -> 0 <= ts_cs s < 2 ^ 16 -> 0 <= ts_ss s < 2 ^ 16 ->
  exists s', interrupt user_handler ret_addr n err s = Done tt s' /\ context_of s' = context_of s /\
    ts_ds s' = ts_ss s /\ ts_es s' = ts_ss s /\ ts_cte s' = ack (irq_number n) (ts_cte s) /\
    only_in (fun x => P x \/ inr (frame_top (pack (gate_fields g)) s - 240) 240 x) (ts_mem s) (ts_mem s').
Proof.
  intros HP Hr He Hcs Hss. destruct (interrupt_called n err g s Hr He) as (s1 & -> & [Hw Hm Hc _ _]).
  destruct Hr as [_ _ Ht Hl _ _ _]. unfold handled.
  destruct (HP (irq_event (irq_number n) (default 0 err) (cr2 (ts_cte s))) _ _ _ Hw) as (s2 & E & Hc2 & Hw2 & Hm2); [done|].
  rewrite (run_bind _ _ _ _ _ E), (finish_run _ (context_of s) s2) by (done || lia).
  eexists. split; [reflexivity|].
  assert (ts_cte (resume (context_of s) s2) = ack (irq_number n) (ts_cte s)) as Hk.
  { unfold resume. cbn [ts_cte]. rewrite Hc2, Hc. cbn [context_of ctx_cr3 rsp0].
    destruct (_ =? 0); [done|]. unfold ack, acked. by destruct (_ && _ && _), (ts_cte s). }
  split; [|split; [|split; [|split]]].
  - assert (cr3 (ack (irq_number n) (ts_cte s)) = cr3 (ts_cte s) /\ tss_rsp0 (ack (irq_number n) (ts_cte s)) = tss_rsp0 (ts_cte s)) as [E1 E2]
      by (unfold ack, acked; by destruct (_ && _ && _)).
    unfold context_of at 1. rewrite Hk, E1, E2. unfold resume.
    cbn [gpr ts_rip ts_cs ts_rflags ts_rsp ts_ss]. cbn [context_of cs ss]. by rewrite !wrap_small.
  - by apply wrap_small.
  - by apply wrap_small.
  - exact Hk.
  - cbn [resume ts_mem]. transitivity (ts_mem s1).
    + eapply only_in_weaken; [exact Hm|]. unfold inr. lia.
    + eapply only_in_weaken; [exact Hm2|]. tauto.
Qed.

(** Vectors that are not in the table but push an error code, such as the alignment check
    (17), reach the handler with a frame that is shifted by one word: the event says nothing of
    the error code, and a handler that gives the context back makes the processor go on at the
    address that the error code is, with a code segment cut from the interrupted address. *)
Theorem unlisted_error_code P n e g s :
  returns P -> ready n (Some e) g s -> irq_number n <> n ->
  exists s', interrupt user_handler ret_addr n (Some e) s = Done tt s' /\
    ts_rip s' = e /\ ts_cs s' = wrap 16 (ts_rip s) /\ ts_rflags s' = ts_cs s /\ ts_rsp s' = ts_rflags s.
Proof.
  intros HP [Hg Hn Ht Hl Hgpr Hf Hc] Hun.
  assert (entry_pushes n ++ frame (Some e) s = [u64 (-1); 0; e; ts_rip s; ts_cs s; ts_rflags s; ts_rsp s] ++ [ts_ss s]) as Hall.
  { unfold entry_pushes, irq_number in *. by destruct (existsb _ _). }
  destruct (interrupt_run user_handler ret_addr n (Some e) g _ _ _ _ _ _ _ _ s Hg Hn Ht Hl Hgpr Hf Hc ret_addr_range Hall)
    as (s1 & -> & [Hw _ _ _ _]).
  rewrite Hall in *. cbn [length app] in *. unfold handled.
  match goal with |- context [user_handler ?ev ?p] => destruct (HP ev p _ _ Hw) as (s2 & E & Hc2 & Hw2 & Hm2);
    [cbn [length]; rewrite length_app, Hl; done|] end.
  rewrite (run_bind _ _ _ _ _ E).
  set (s0 := set_rip e (set_cs (ts_rip s) (set_rflags (ts_cs s) (set_rsp (ts_rflags s) (set_ss (ts_rsp s) s))))).
  rewrite (finish_run _ (context_of s0) s2); [|by rewrite context_words|lia..].
  eexists. split; [reflexivity|]. done.
Qed.
End Interrupts.

(** ** New threads *)

Lemma zero_words_run k p i s :
  0 < p -> exists m', zero_words k p i s = Done tt (set_mem m' s) /\ words m' (p + 8 * i) (replicate k 0) /\
    only_in (inr (p + 8 * i) (8 * Z.of_nat k)) (ts_mem s) m'.
Proof.
  intros Hp. revert i s. induction k as [|k IH]; intros i s; cbn [zero_words replicate].
  - exists (ts_mem s). split; [by destruct s|]. by split.
  - rewrite (run_bind _ _ _ _ _ (write_le_run p (8 * i) 0 s ltac:(lia))).
    destruct (IH (i + 1) (set_mem (store_le 8 (ts_mem s) (p + 8 * i) 0) s)) as (m' & -> & Hw & Ho).
    replace (p + 8 * (i + 1)) with (p + 8 * i + 8) in * by lia.
    exists m'. split; [done|]. split; [split; [|done]|].
    + rewrite (only_in_load _ 8 _ _ _ Ho) by (unfold inr; intros; lia). apply (load_store_le 8).
    + transitivity (store_le 8 (ts_mem s) (p + 8 * i) 0).
      * apply only_in_store; [apply only_in_refl|]. unfold inr. intros. lia.
      * eapply only_in_weaken; [exact Ho|]. unfold inr. intros. lia.
Qed.

(** One word is written. *)
Ltac put_word j :=
  lazymatch goal with Hw : words _ _ _ |- saves ?p _ _ _ _ =>
    eapply (saves_put p _ j); [exact Hw|(done || by vm_compute)|lia|lia|cbn [length]; lia|];
    clear Hw; intros ? Hw; cbn [insert list_insert] in Hw end.

(** [kcontext] leaves the context of Cte.v below the end of the stack. *)
Lemma kcontext_run start kend entry arg s :
  0 <= start < 2 ^ 64 -> 0 <= entry < 2 ^ 64 -> 0 <= arg < 2 ^ 64 -> 176 < kend < 2 ^ 64 ->
  exists m', kcontext_at start kend entry arg s = Done (kend - 176) (set_mem m' s) /\
    words m' (kend - 176) (ctx_words (kcontext start kend entry arg)) /\
    only_in (inr (kend - 176) 176) (ts_mem s) m'.
Proof.
  intros Hs He Ha Hk. unfold kcontext_at, sizeof_Context.
  destruct (zero_words_run 22 (kend - 176) 0 s) as (m1 & E1 & Hw & Ho1); [lia|].
  rewrite (run_bind _ _ _ _ _ E1). cbn [replicate] in Hw. rewrite Z.mul_0_r, Z.add_0_r in *.
  set (s1 := set_mem m1 s). change m1 with (ts_mem s1) in Hw.
  assert (0 <= kend < 2 ^ 64) as Hk' by lia.
  assert (saves (kend - 176)
    (_ ← write_le 8 (kend - 176) off_cs (KSEL SEG_KCODE); _ ← write_le 8 (kend - 176) off_rip start;
     _ ← write_le 8 (kend - 176) off_rflags FL_IF; _ ← write_le 8 (kend - 176) off_rsp kend;
     _ ← write_le 8 (kend - 176) off_rdi arg; _ ← write_le 8 (kend - 176) off_rsi entry; mret (kend - 176))
    (mret (kend - 176)) s1 (ctx_words (kcontext start kend entry arg))) as (m2 & E2 & Hw2 & Ho2).
  { put_word 17%nat. put_word 16%nat. put_word 18%nat. put_word 19%nat. put_word 7%nat. put_word 6%nat.
    eexists. split; [|split; [exact Hw|apply only_in_refl]]. by destruct s1. }
  exists m2. split; [exact E2|]. split; [done|]. by transitivity m1.
Qed.

Lemma words_same m m' p l : same_on (inr p (8 * Z.of_nat (length l))) m m' -> words m p l -> words m' p l.
Proof.
  intros H Hw. eapply (words_frame (fun x => load8 m' x <> load8 m x)); [|exact Hw|].
  - intros x Hx. by destruct (decide (load8 m' x = load8 m x)).
  - intros x Hx Hne. apply Hne, H, Hx.
Qed.

Section Threads.
Context (user_handler : Event -> Z -> M trap_state Z) (ret_addr : Z).

(** The handler switches to the context at [r] and works on the memory [P]. *)
Definition switches (P : Z -> Prop) (r : Z) : Prop :=
  forall ev p s, exists s', user_handler ev p s = Done r s' /\ ts_cte s' = ts_cte s /\ only_in P (ts_mem s) (ts_mem s').

(** C40: a thread made by [kcontext] starts when a handler returns its context: the processor
    goes to [__am_kcontext_start] in the kernel's code segment, and from there to the entry of
    the thread with its argument, on its own stack, with interrupts on, in the address space of
    before, and with the address of [__am_panic_on_return] where a return would take it. *)
Theorem new_thread_runs P start kend entry arg panic s0 s0' n err g s :
  0 <= ret_addr < 2 ^ 64 -> 0 <= start < 2 ^ 64 -> 0 <= entry < 2 ^ 64 -> 0 <= arg < 2 ^ 64 -> 0 <= panic < 2 ^ 64 ->
  176 < kend < 2 ^ 64 ->
  kcontext_at start kend entry arg s0 = Done (kend - 176) s0' ->
  same_on (inr (kend - 176) 176) (ts_mem s0') (ts_mem s) ->
  switches P (kend - 176) -> (forall x, P x -> ~ inr (kend - 176) 176 x) ->
  ready n err g s -> err_fits n err ->
  frame_top (pack (gate_fields g)) s <= kend - 176 \/ kend <= frame_top (pack (gate_fields g)) s - 240 ->
  exists s1, interrupt user_handler ret_addr n err s = Done tt s1 /\ ts_rip s1 = start /\ ts_cs s1 = KSEL SEG_KCODE /\
    exists s', kcontext_start panic s1 = Done tt s' /\
      ts_rip s' = entry /\ nth RDI (gpr s') 0 = arg /\ ts_rsp s' = kend - 8 /\ load64 (ts_mem s') (kend - 8) = panic /\
      Z.testbit (ts_rflags s') 9 = true /\ ts_cte s' = ack (irq_number n) (ts_cte s).
Proof.
  intros Hra Hst Hen Har Hpa Hk Hnew Hsame Hsw HP Hr He Hdisj.
  destruct (kcontext_run start kend entry arg s0 Hst Hen Har Hk) as (m' & E & Hw & _).
  rewrite Hnew in E. injection E as ->. cbn [set_mem st_upd ts_mem] in Hsame.
  destruct (interrupt_called user_handler ret_addr Hra n err g s Hr He) as (s1 & -> & [_ Hm Hc _ _]).
  unfold handled. destruct (Hsw (irq_event (irq_number n) (default 0 err) (cr2 (ts_cte s)))
    (frame_top (pack (gate_fields g)) s - 232) s1) as (s2 & E2 & Hc2 & Hm2).
  rewrite (run_bind _ _ _ _ _ E2), (finish_run (kend - 176) (kcontext start kend entry arg) s2).
  2:{ eapply words_frame; [exact Hm2| |intros x Hx HPx; apply (HP x HPx), Hx].
      eapply words_frame; [exact Hm| |unfold inr; cbn [length ctx_words]; lia].
      by eapply words_same. }
  2-3: lia.
  eexists. split; [reflexivity|]. split; [done|]. split; [done|].
  set (s3 := resume _ _). unfold kcontext_start.
  destruct (push_run panic s3) as (m4 & E4 & Hl4 & Ho4); [done|cbn; lia|].
  rewrite (run_bind _ _ _ _ _ E4). eexists. split; [unfold modify; reflexivity|].
  split; [done|]. split; [done|]. split; [done|]. split; [exact Hl4|]. split; [done|].
  cbn. by rewrite Hc2, Hc.
Qed.
End Threads.

(** ** Witnesses *)

(** A kernel in the middle of something, with its interrupt table. *)
Definition demo_gate : GateDesc64 := GATE64 STS_TG (KSEL SEG_KCODE) 0x100200 DPL_KERN.

Definition demo : trap_state :=
  mk_ts (fun _ => 0) (seqZ 1 15) 0x8000 0x100100 8 0x202 16 16 16 (mk_cte 0x7000 0 0x3000 (replicate 256 demo_gate) true 0 0).

(** A handler that changes nothing. *)
Definition same_context (ev : Event) (p : Z) : M trap_state Z := mret p.

Lemma demo_ready n err : 0 <= n < 256 -> match err with Some e => 0 <= e < 2 ^ 64 | None => True end -> ready n err demo_gate demo.
Proof.
  intros Hn He. split.
  - apply lookup_replicate_2. lia.
  - done.
  - by vm_compute.
  - done.
  - repeat (constructor; [by vm_compute|]). constructor.
  - apply Forall_app. split; [destruct err; repeat constructor; lia|].
    repeat (constructor; [by vm_compute|]). constructor.
  - by vm_compute.
Qed.

Lemma same_returns : returns same_context (fun _ => False).
Proof. intros ev p s l Hw _. exists s. split_and!; done. Qed.

Lemma interrupt_refines_witness :
  exists s', interrupt same_context 0x100300 33 None demo = Done tt s' /\ runs (context_of demo) s' /\
    ts_cte s' = mk_cte 0x7000 0 0x3000 (replicate 256 demo_gate) true 1 0.
Proof.
  apply (interrupt_refines same_context 0x100300 ltac:(lia) (fun _ c k => Done (Some c) k) 33 None demo_gate demo).
  - intros ev p s c Hw Hp Hp'. exists p, s. split_and!; done.
  - by apply demo_ready.
  - done.
Defined.

Lemma interrupt_transparent_witness :
  exists s', interrupt same_context 0x100300 13 (Some 5) demo = Done tt s' /\ context_of s' = context_of demo /\
    ts_ds s' = ts_ss demo /\ ts_es s' = ts_ss demo /\ ts_cte s' = ts_cte demo /\
    only_in (fun x => False \/ inr (0x8000 - 240) 240 x) (ts_mem demo) (ts_mem s').
Proof.
  apply (interrupt_transparent same_context 0x100300 ltac:(lia) (fun _ => False) 13 (Some 5) demo_gate demo same_returns).
  - by apply demo_ready.
  - done.
  - by vm_compute.
  - by vm_compute.
Defined.

Lemma unlisted_error_code_witness :
  exists s', interrupt same_context 0x100300 17 (Some 0) demo = Done tt s' /\
    ts_rip s' = 0 /\ ts_cs s' = 0x100 /\ ts_rflags s' = 8 /\ ts_rsp s' = 0x202.
Proof.
  apply (unlisted_error_code same_context 0x100300 ltac:(lia) (fun _ => False) 17 0 demo_gate demo same_returns).
  - by apply demo_ready.
  - by vm_compute.
Defined.

(** A thread with the entry 0x100500, the argument 42 and a stack that ends at 0x9000. *)
Definition demo_thread : trap_state :=
  match kcontext_at 0x100400 0x9000 0x100500 42 demo with Done _ s => s | Fault _ => demo end.

Lemma new_thread_runs_witness :
  exists s1, interrupt (fun _ _ => mret (0x9000 - 176)) 0x100300 0x81 None demo_thread = Done tt s1 /\
    ts_rip s1 = 0x100400 /\ ts_cs s1 = KSEL SEG_KCODE /\
    exists s', kcontext_start 0x100600 s1 = Done tt s' /\
      ts_rip s' = 0x100500 /\ nth RDI (gpr s') 0 = 42 /\ ts_rsp s' = 0x9000 - 8 /\ load64 (ts_mem s') (0x9000 - 8) = 0x100600 /\
      Z.testbit (ts_rflags s') 9 = true /\ ts_cte s' = ts_cte demo.
Proof.
  apply (new_thread_runs (fun _ _ => mret (0x9000 - 176)) 0x100300 (fun _ => False) 0x100400 0x9000 0x100500 42 0x100600
    demo demo_thread 0x81 None demo_gate demo_thread); try lia.
  - reflexivity.
  - intros x _. reflexivity.
  - intros ev p s. exists s. split_and!; done.
  - destruct (demo_ready 0x81 None) as [H1 H2 H3 H4 H5 H6 H7]; [lia|done|]. by split.
  - done.
  - left. by vm_compute.
Defined.
