(* ===== verification/Trm.v ===== *)
(** * Ports, and the start and the end of a run: am/src/x86/x86.h, am/src/x86/qemu/trm.c, mpe.c

    Devices are behind I/O ports: [Ports] is what a device state does on a port access, a
    parameter of everything that uses it. [machine] adds the memory. *)

From stdpp Require Import prelude.
From S2P Require Import Prelude Mem KString KStdlib KStdio.

(** ** Port instructions *)

(** The effect of a read and of a write of [w] bits at a port. *)
Class Ports (D : Type) : Type := {
  port_in : Z -> Z -> D -> Z * D;
  port_out : Z -> Z -> Z -> D -> D;
}.

Record machine (D : Type) : Type := mk_machine { mc_mem : mem; mc_dev : D }.
Arguments mk_machine {D} _ _.
Arguments mc_mem {D} _.
Arguments mc_dev {D} _.

#[export] Instance machine_has_mem D : HasMem (machine D) :=
  {| st_mem := mc_mem; st_upd := fun f s => mk_machine (f (mc_mem s)) (mc_dev s); st_mem_upd := fun _ _ => eq_refl |}.

Section Instructions.
Context {D : Type} `{Ports D}.

Definition in_port (w port : Z) : M (machine D) Z := fun s =>
  let '(v, d) := port_in w (wrap 16 port) (mc_dev s) in Done (wrap w v) (mk_machine (mc_mem s) d).

Definition out_port (w port data : Z) : M (machine D) unit :=
  modify (fun s => mk_machine (mc_mem s) (port_out w (wrap 16 port) (wrap w data) (mc_dev s))).

Definition inb : Z -> M (machine D) Z := in_port 8.
Definition inl : Z -> M (machine D) Z := in_port 32.
Definition outb : Z -> Z -> M (machine D) unit := out_port 8.
Definition outl : Z -> Z -> M (machine D) unit := out_port 32.

Lemma wp_in w port s (Q : Z -> machine D -> Prop) :
  Q (wrap w (port_in w (wrap 16 port) (mc_dev s)).1) (mk_machine (mc_mem s) (port_in w (wrap 16 port) (mc_dev s)).2) ->
  wp (in_port w port) s Q.
Proof.
  intros HQ. apply wp_done. unfold in_port. destruct (port_in _ _ _) as [v d]. eexists _, _. split; [done|exact HQ].
Qed.

Lemma wp_out w port data s (Q : unit -> machine D -> Prop) :
  Q tt (mk_machine (mc_mem s) (port_out w (wrap 16 port) (wrap w data) (mc_dev s))) -> wp (out_port w port data) s Q.
Proof. intros HQ. exact (wp_modify _ s Q HQ). Qed.
End Instructions.

(** ** The heap the machine offers *)

Section Heap.
Context {D : Type} `{Ports D}.

Definition ROUNDUP (a sz : Z) : Z := Z.land (u64 (u64 a + sz - 1)) (u64 (Z.lnot (sz - 1))).

(** [__am_heap_init]; [end_] is the end of the kernel's image. The result is the area. *)
Definition __am_heap_init (end_ : Z) : M (machine D) (Z * Z) :=
  _ ← outb 0x70 0x34;
  lo ← inb 0x71;
  _ ← outb 0x70 0x35;
  v ← inb 0x71;
  let hi := u32 (v + 1) in
  mret (ROUNDUP end_ (Z.shiftl 1 20), u32 (Z.shiftl (Z.lor lo (u32 (Z.shiftl hi 8))) 16)).

(** The non-volatile memory holds the memory above 16 MiB, in units of 64 KiB, in the bytes
    0x34 and 0x35: a read of port 0x71 gives the byte selected at port 0x70. *)
Definition cmos_memory (units : Z) : Prop :=
  forall d, 0 <= units < 65536 /\
    (port_in 8 0x71 (port_out 8 0x70 0x34 d)).1 = units mod 256 /\
    (port_in 8 0x71 (port_out 8 0x70 0x35 d)).1 = units / 256.
End Heap.

Lemma roundup_spec a k :
  0 <= k < 64 -> 0 <= a -> a + 2 ^ k <= 2 ^ 64 ->
  ROUNDUP a (2 ^ k) mod 2 ^ k = 0 /\ a <= ROUNDUP a (2 ^ k) < a + 2 ^ k.
Proof.
  intros Hk Ha Hb. assert (0 < 2 ^ k) as Hp by (apply Z.pow_pos_nonneg; lia). unfold ROUNDUP.
  rewrite (wrap_small 64 a) by lia. rewrite (wrap_small 64 (_ - 1)) by lia.
  assert (2 ^ k <= 2 ^ 64) as Hk64 by (apply Z.pow_le_mono_r; lia).
  replace (u64 (Z.lnot (2 ^ k - 1))) with (2 ^ 64 - 2 ^ k)
    by (unfold wrap, Z.lnot; apply (Z.mod_unique _ _ (-1)); lia).
  set (x := a + 2 ^ k - 1). rewrite land_mask by lia.
  pose proof (Z.div_mod x (2 ^ k) ltac:(lia)) as Hd. pose proof (Z.mod_pos_bound x (2 ^ k) Hp).
  split; [|lia]. replace (x - x mod 2 ^ k) with (x / 2 ^ k * 2 ^ k) by lia. apply Z_mod_mult.
Qed.

(** The heap starts at the first MiB boundary behind the kernel and ends with the
    machine's memory, as long as that is below 4 GiB. *)
Theorem heap_init_spec {D} `{Ports D} (end_ units : Z) (s : machine D) :
  cmos_memory units -> 0 <= end_ < 2 ^ 40 -> units + 256 < 65536 ->
  wp (__am_heap_init end_) s (fun r s' => mc_mem s' = mc_mem s /\
    r.1 mod 2 ^ 20 = 0 /\ end_ <= r.1 < end_ + 2 ^ 20 /\ r.2 = 16 * 2 ^ 20 + units * 65536).
Proof.
  intros Hc He Hu. unfold __am_heap_init.
  apply wp_bind, wp_out, wp_bind, wp_in, wp_bind, wp_out, wp_bind, wp_in, wp_ret. simpl mc_mem. simpl mc_dev.
  change (wrap 16 0x70) with 0x70. change (wrap 16 0x71) with 0x71. change (wrap 8 0x34) with 0x34. change (wrap 8 0x35) with 0x35.
  destruct (Hc (mc_dev s)) as (Hr & -> & _).
  set (d1 := (port_in 8 0x71 _).2). destruct (Hc d1) as (_ & _ & ->).
  destruct (roundup_spec end_ 20 ltac:(lia) ltac:(lia) ltac:(lia)) as [H1 H2].
  change (Z.shiftl 1 20) with (2 ^ 20). split; [done|]. split; [done|]. split; [done|]. simpl.
  pose proof (Z.mod_pos_bound units 256 ltac:(lia)) as Hm. pose proof (Z.div_mod units 256 ltac:(lia)) as Hdm.
  assert (0 <= units / 256 < 255) by lia.
  rewrite !(wrap_small 8) by lia. rewrite (wrap_small 32 (_ + 1)) by lia.
  rewrite (wrap_small 32 (Z.shiftl _ 8)) by (rewrite Z.shiftl_mul_pow2; lia).
  rewrite Z.lor_comm, lor_add by lia. rewrite Z.shiftl_mul_pow2, wrap_small; lia.
Qed.

(** A machine whose clock chip remembers the selected byte; 0x34 and 0x35 hold 0x07f0. *)
#[local] Instance demo_cmos : Ports Z :=
  {| port_in := fun w port sel =>
       if port =? 0x71 then (if sel =? 0x34 then (0xf0, sel) else if sel =? 0x35 then (0x07, sel) else (0, sel)) else (0, sel);
     port_out := fun w port v sel => if port =? 0x70 then v else sel |}.

Lemma heap_init_spec_witness :
  wp (__am_heap_init (D := Z) 0x123456) (mk_machine (fun _ => 0) 0) (fun r s' => mc_mem s' = (fun _ => 0) /\
    r.1 mod 2 ^ 20 = 0 /\ 0x123456 <= r.1 < 0x123456 + 2 ^ 20 /\ r.2 = 16 * 2 ^ 20 + 0x07f0 * 65536).
Proof.
  apply (heap_init_spec 0x123456 0x07f0 (mk_machine (fun _ => 0) 0)); [|lia|lia].
  intros d. split; [lia|]. split; reflexivity.
Defined.

(** ** The processors the firmware lists

    The multiprocessor table: a descriptor with the signature "_MP_" points to a header,
    which is followed by entries of 20 bytes for processors (type 0) and of 8 bytes for
    everything else. *)

Section Lapic.
Context {St : Type} `{HasMem St} (fuel : nat).

Definition MAX_CPU : Z := 8.

(** [sizeof(MPConf)], and the offsets of its [length] and [lapicaddr]. *)
Definition sizeof_MPConf : Z := 44.

(** Lines 76-82; the number of processors found so far is [ncpu]. *)
Fixpoint mp_entries (k : nat) (ptr stop ncpu : Z) : M St Z :=
  match k with
  | O => raise OutOfFuel
  | S k =>
      if ptr <? stop then
        c ← get8 ptr;
        if c =? 0 then
          let ptr := ptr + 12 in
          if MAX_CPU <? ncpu + 1 then raise Panic
          else mp_entries k (ptr + 8) stop (ncpu + 1)
        else mp_entries k (ptr + 8) stop ncpu
      else mret ncpu
  end.

(** Lines 71-85: [k] addresses are left from [st]. The result is [__am_lapic] and
    [__am_ncpu]. *)
Fixpoint mp_search (k : nat) (st ncpu : Z) : M St (Z * Z) :=
  match k with
  | O => raise Panic
  | S k =>
      magic ← read_le 4 st 0;
      if magic =? 0x5f504d5f then
        conf ← read_le 4 st 4;
        lapicaddr ← read_le 4 conf 36;
        length ← read_le 2 conf 4;
        ncpu ← mp_entries fuel (conf + sizeof_MPConf) (conf + length) ncpu;
        mret (lapicaddr, ncpu)
      else mp_search k (st + 1) ncpu
  end.

Definition __am_lapic_init (ncpu : Z) : M St (Z * Z) := mp_search (Z.to_nat (0xffffff - 0xf0000)) 0xf0000 ncpu.
End Lapic.

#[global] Arguments mp_search : simpl never.

(** The bytes an entry of type [t] takes. *)
Definition entry_size (t : Z) : Z := if t =? 0 then 20 else 8.

(** Entries of the types [ts] at [p]. *)
Fixpoint entries_at (m : mem) (p : Z) (ts : list Z) : Prop :=
  match ts with
  | [] => True
  | t :: ts => load8 m p = t /\ entries_at m (p + entry_size t) ts
  end.

Definition entries_size (ts : list Z) : Z := foldr (fun t n => entry_size t + n) 0 ts.

Definition processors (ts : list Z) : Z := Z.of_nat (length (filter (fun t => t = 0) ts)).

Section LapicSpec.
Context (fuel : nat).
Implicit Types (m : mem).

Lemma entries_size_pos ts : 0 <= entries_size ts.
Proof. induction ts as [|t ts IH]; simpl; [done|]. unfold entry_size. destruct (t =? 0); lia. Qed.

Lemma mp_entries_run k m p ncpu ts :
  entries_at m p ts -> 0 < p -> (length ts < k)%nat -> 0 <= ncpu <= MAX_CPU ->
  mp_entries k p (p + entries_size ts) ncpu m =
  if MAX_CPU <? ncpu + processors ts then Fault Panic else Done (ncpu + processors ts) m.
Proof.
  revert k p ncpu. induction ts as [|t ts IH]; intros k p ncpu Hts Hp Hk Hn; (destruct k as [|k]; simpl in Hk; [lia|]);
    cbn [mp_entries].
  - unfold processors. simpl. rewrite !Z.add_0_r, Z.ltb_irrefl.
    destruct (Z.ltb_spec MAX_CPU ncpu); [lia|done].
  - destruct Hts as [Ht Hts]. pose proof (entries_size_pos ts) as Hpos.
    assert (entries_size (t :: ts) = entry_size t + entries_size ts) as -> by done.
    unfold entry_size in *. set (n := entries_size ts) in *.
    destruct (Z.ltb_spec p (p + ((if t =? 0 then 20 else 8) + n))) as [_|]; [|destruct (t =? 0); lia].
    unfold mbind, M_bind at 1, get8. destruct (Z.eqb_spec p 0); [lia|]. unfold gets. cbn [st_mem mem_has_mem]. rewrite Ht.
    unfold processors. rewrite filter_cons. destruct (Z.eqb_spec t 0) as [->|Hne].
    + rewrite decide_True by done. simpl length. fold (processors ts).
      replace (Z.of_nat (S (length (filter (fun t => t = 0) ts)))) with (1 + processors ts) by (unfold processors; lia).
      assert (0 <= processors ts) by (unfold processors; lia).
      destruct (Z.ltb_spec MAX_CPU (ncpu + 1)).
      * destruct (Z.ltb_spec MAX_CPU (ncpu + (1 + processors ts))); [done|lia].
      * replace (p + 12 + 8) with (p + 20) by lia. replace (p + (20 + n)) with (p + 20 + n) by lia.
        rewrite IH by (done || lia). by replace (ncpu + 1 + processors ts) with (ncpu + (1 + processors ts)) by lia.
    + rewrite decide_False by done. fold (processors ts).
      replace (p + (8 + n)) with (p + 8 + n) by lia. apply IH; [done|lia..].
Qed.

Lemma mp_search_run k i m st ncpu r :
  0 < st -> (i < k)%nat ->
  (forall j, 0 <= j < Z.of_nat i -> load32 m (st + j) <> 0x5f504d5f) ->
  mp_search fuel (k - i) (st + Z.of_nat i) ncpu m = r -> mp_search fuel k st ncpu m = r.
Proof.
  revert k st. induction i as [|i IH]; intros k st Hst Hk Hno Hr.
  - by rewrite Nat.sub_0_r, Z.add_0_r in Hr.
  - destruct k as [|k]; [lia|]. change (mp_search fuel (S k) st ncpu m) with
      ((magic ← read_le 4 st 0; if magic =? 0x5f504d5f then
        conf ← read_le 4 st 4; lapicaddr ← read_le 4 conf 36; length ← read_le 2 conf 4;
        ncpu ← mp_entries fuel (conf + sizeof_MPConf) (conf + length) ncpu; mret (lapicaddr, ncpu)
      else mp_search fuel k (st + 1) ncpu) m).
    unfold mbind at 1, M_bind at 1, read_le at 1. destruct (Z.eqb_spec st 0); [lia|]. unfold gets. cbn [st_mem mem_has_mem].
    pose proof (Hno 0 ltac:(lia)) as H0. rewrite Z.add_0_r in *. unfold load32 in H0.
    destruct (Z.eqb_spec (load_le 4 m st) 0x5f504d5f); [done|].
    apply IH; [lia|lia| |].
    + intros j Hj. replace (st + 1 + j) with (st + (1 + j)) by lia. apply Hno. lia.
    + rewrite <- Hr. f_equal; lia.
Qed.

(** The processors are counted from the table of the firmware, wherever in the searched
    range it is: as many as there are entries of type 0, a panic when there are more than 8;
    without a table there is a panic as well. *)
Theorem lapic_init_spec m i conf ts :
  0 <= i < 0xffffff - 0xf0000 ->
  (forall j, 0 <= j < i -> load32 m (0xf0000 + j) <> 0x5f504d5f) ->
  load32 m (0xf0000 + i) = 0x5f504d5f -> load32 m (0xf0000 + i + 4) = conf -> 0 < conf ->
  entries_at m (conf + sizeof_MPConf) ts -> load_le 2 m (conf + 4) = sizeof_MPConf + entries_size ts ->
  (length ts < fuel)%nat ->
  __am_lapic_init fuel 0 m =
  if MAX_CPU <? processors ts then Fault Panic else Done (load32 m (conf + 36), processors ts) m.
Proof.
  intros Hi Hno Hmag Hconf Hcp Hts Hlen Hf. unfold __am_lapic_init.
  apply (mp_search_run _ (Z.to_nat i)); [lia|lia|intros j Hj; apply Hno; lia|]. rewrite Z2Nat.id by lia.
  destruct (Z.to_nat (0xffffff - 0xf0000) - Z.to_nat i)%nat as [|k] eqn:Ek; [lia|].
  set (st := 0xf0000 + i) in *.
  change (mp_search fuel (S k) st 0 m) with
      ((magic ← read_le 4 st 0; if magic =? 0x5f504d5f then
        conf ← read_le 4 st 4; lapicaddr ← read_le 4 conf 36; length ← read_le 2 conf 4;
        ncpu ← mp_entries fuel (conf + sizeof_MPConf) (conf + length) 0; mret (lapicaddr, ncpu)
      else mp_search fuel k (st + 1) 0) m).
  assert (read_le 4 st 0 m = Done 0x5f504d5f m) as E1.
  { unfold read_le. destruct (Z.eqb_spec st 0); [lia|]. unfold gets. cbn [st_mem mem_has_mem]. rewrite Z.add_0_r. by rewrite <- Hmag. }
  assert (read_le 4 st 4 m = Done conf m) as E2.
  { unfold read_le. destruct (Z.eqb_spec st 0); [lia|]. unfold gets. cbn [st_mem mem_has_mem]. by rewrite <- Hconf. }
  unfold mbind, M_bind. rewrite E1. cbv iota beta. change (0x5f504d5f =? 0x5f504d5f) with true. cbv iota beta. rewrite E2. cbv iota beta.
  unfold read_le, gets. cbn [st_mem mem_has_mem]. destruct (Z.eqb_spec conf 0); [lia|]. rewrite Hlen. rewrite Z.add_assoc.
  rewrite mp_entries_run by (done || (unfold MAX_CPU, sizeof_MPConf in *; lia)). rewrite Z.add_0_l.
  by destruct (MAX_CPU <? processors ts).
Qed.
End LapicSpec.

(** A table at 0xf0002 whose header at 0x100 lists two processors and one bus. *)
Definition demo_table : mem :=
  place 0xf0002 [0x5f; 0x4d; 0x50; 0x5f; 0x00; 0x01]
    (place 0x104 [92; 0] (place 0x124 [0x00; 0x00; 0xe0; 0xfe] (place (0x100 + 44 + 40) [1] (fun _ => 0)))).

Lemma lapic_init_spec_witness :
  __am_lapic_init 5 0 demo_table = if MAX_CPU <? processors [0; 0; 1] then Fault Panic
    else Done (load32 demo_table (0x100 + 36), processors [0; 0; 1]) demo_table.
Proof.
  apply (lapic_init_spec 5 demo_table 2 0x100 [0; 0; 1]); [lia| |reflexivity|reflexivity|lia| |reflexivity|simpl; lia].
  - intros j Hj. assert (j = 0 \/ j = 1) as [->| ->] by lia; vm_compute; discriminate.
  - repeat split; reflexivity.
Defined.

Example lapic_init_demo : __am_lapic_init 5 0 demo_table = Done (0xfee00000, 2) demo_table.
Proof. reflexivity. Qed.
