(* ===== verification/Pages.v ===== *)
(** * The page allocator virtual memory is given: the callbacks of [vme_init]

    vme.c gets [pgalloc] and [pgfree] from the kernel. [PageSource] is what it relies on:
    the pages handed out are aligned, distinct and left alone until they are given back. A
    bump allocator is an instance, so the hypotheses can hold. *)

From stdpp Require Import prelude.
From S2P Require Import Prelude Mem.

Definition pgsize : Z := 4096.

(** The addresses of the pages in [O]. *)
Definition in_pages (O : list Z) (x : Z) : Prop := exists p, p ∈ O /\ p <= x < p + pgsize.

(** The base of a page the processor can name: not NULL, aligned, of at most 52 bits. *)
Definition valid_page (p : Z) : Prop := 0 < p < 2 ^ 52 /\ p mod pgsize = 0.

Class PageSource (St : Type) `{HasMem St} : Type := {
  pgalloc : Z -> M St Z;
  pgfree : Z -> M St unit;
  (** The memory the allocator manages; how many pages it has. *)
  pg_arena : Z -> Prop;
  pg_capacity : nat;
  (** The allocator is in order and the pages in [O] are handed out. *)
  pg_inv : St -> list Z -> Prop;
  pg_perm : forall s O O', O ≡ₚ O' -> pg_inv s O -> pg_inv s O';
  pg_valid : forall s O, pg_inv s O -> Forall valid_page O /\ NoDup O /\ (forall x, in_pages O x -> pg_arena x);
  (** Memory outside the arena and handed out pages may be written. *)
  pg_write : forall s O f, pg_inv s O ->
    only_in (fun x => in_pages O x \/ ~ pg_arena x) (st_mem s) (f (st_mem s)) -> pg_inv (st_upd f s) O;
  pg_alloc_spec : forall s O, pg_inv s O ->
    wp (pgalloc pgsize) s (fun p s' =>
      same_on (fun x => in_pages O x \/ ~ pg_arena x) (st_mem s) (st_mem s') /\
      (if p =? 0 then pg_inv s' O else pg_inv s' (p :: O)) /\ ((length O < pg_capacity)%nat -> p <> 0));
  pg_free_spec : forall s O p, pg_inv s (p :: O) ->
    wp (pgfree p) s (fun _ s' =>
      same_on (fun x => in_pages O x \/ ~ pg_arena x) (st_mem s) (st_mem s') /\ pg_inv s' O);
}.

(** The memory a client of the allocator may use. *)
Abbreviation client O := (fun x => in_pages O x \/ ~ pg_arena x).

Lemma in_pages_sub O O' x : O ⊆ O' -> in_pages O x -> in_pages O' x.
Proof. intros HO (p & Hp & Hx). exists p. auto. Qed.

Lemma valid_page_disj p q x :
  valid_page p -> valid_page q -> p <= x < p + pgsize -> q <= x < q + pgsize -> p = q.
Proof. unfold valid_page, pgsize. intros [? Hp%Z.mod_divide] [? Hq%Z.mod_divide] ??; [|done..]. destruct Hp, Hq. lia. Qed.

Lemma in_pages_disj (O1 O2 : list Z) x :
  Forall valid_page O1 -> Forall valid_page O2 -> (forall p, p ∈ O1 -> p ∉ O2) ->
  in_pages O1 x -> ~ in_pages O2 x.
Proof.
  rewrite !Forall_forall. intros H1 H2 Hd (p & Hp & Hx) (q & Hq & Hx'). apply (Hd p Hp).
  rewrite (valid_page_disj p q x); auto.
Qed.

Section PageSource.
Context {St : Type} `{PageSource St}.

Lemma pg_write_le n p off v s O :
  pg_inv s O -> (forall x, p + off <= x < p + off + Z.of_nat n -> in_pages O x \/ ~ pg_arena x) ->
  pg_inv (st_upd (fun m => store_le n m (p + off) v) s) O.
Proof. intros Hinv Hx. apply pg_write; [done|]. apply only_in_store; [done|auto]. Qed.

Lemma pg_inv_valid s O p : pg_inv s O -> p ∈ O -> valid_page p.
Proof. intros (HF & _)%pg_valid Hp. by eapply Forall_forall in HF. Qed.
End PageSource.

(** ** A bump allocator *)

Section Bump.
Context (lo hi : Z).

(** Memory, the first page never handed out, and the pages given back. *)
Record bump : Type := mk_bump { bp_mem : mem; bp_next : Z; bp_free : list Z }.

#[export] Instance bump_has_mem : HasMem bump :=
  {| st_mem := bp_mem; st_upd := fun f s => mk_bump (f (bp_mem s)) (bp_next s) (bp_free s); st_mem_upd := fun _ _ => eq_refl |}.

Definition bump_alloc (size : Z) : M bump Z := fun s =>
  match bp_free s with
  | p :: l => Done p (mk_bump (bp_mem s) (bp_next s) l)
  | [] =>
      if bp_next s + size <=? hi then Done (bp_next s) (mk_bump (bp_mem s) (bp_next s + size) [])
      else Done 0 s
  end.

Definition bump_free (p : Z) : M bump unit := fun s => Done tt (mk_bump (bp_mem s) (bp_next s) (p :: bp_free s)).

Definition bump_inv (s : bump) (O : list Z) : Prop :=
  0 < lo /\ hi <= 2 ^ 52 /\ lo mod pgsize = 0 /\ hi mod pgsize = 0 /\
  bp_next s = lo + pgsize * Z.of_nat (length (O ++ bp_free s)) /\ bp_next s <= hi /\
  NoDup (O ++ bp_free s) /\ Forall (fun p => p mod pgsize = 0 /\ lo <= p < bp_next s) (O ++ bp_free s).

(** Only the pages handed out or given back matter, in any order. *)
Lemma bump_inv_moved s O m' O' l :
  bump_inv s O -> O ++ bp_free s ≡ₚ O' ++ l -> bump_inv (mk_bump m' (bp_next s) l) O'.
Proof.
  intros (? & ? & ? & ? & Hn & ? & HN & HF) HP. unfold bump_inv. simpl.
  by rewrite <- !HP.
Qed.

Lemma bump_inv_pages s O x : bump_inv s O -> in_pages O x -> lo <= x < hi.
Proof.
  intros (? & ? & Hlo & Hhi & Hn & ? & HN & HF) (p & Hp & Hx).
  rewrite Forall_forall in HF. destruct (HF p) as [Hm ?]; [apply elem_of_app; auto|].
  unfold pgsize in *. apply Z.mod_divide in Hlo as [b ->], Hm as [c ->]; lia.
Qed.

Lemma bump_alloc_spec s O :
  bump_inv s O ->
  wp (bump_alloc pgsize) s (fun p s' => bp_mem s' = bp_mem s /\
    (if p =? 0 then bump_inv s' O else bump_inv s' (p :: O)) /\
    ((length O < Z.to_nat ((hi - lo) / pgsize))%nat -> p <> 0)).
Proof.
  intros Hinv. pose proof Hinv as (? & ? & Hlo & Hhi & Hn & ? & HN & HF). apply wp_done. unfold bump_alloc.
  destruct (bp_free s) as [|p l] eqn:Ef.
  - rewrite app_nil_r in Hn, HN, HF. destruct (Z.leb_spec (bp_next s + pgsize) hi) as [Hle|Hle].
    + eexists _, _. split; [done|]. simpl. destruct (Z.eqb_spec (bp_next s) 0); [unfold pgsize in *; lia|].
      split; [done|]. split; [|done]. unfold bump_inv. simpl. rewrite app_nil_r. repeat split; try done.
      * rewrite Hn. unfold pgsize in *. lia.
      * apply NoDup_cons. split; [|done]. intros Hin. rewrite Forall_forall in HF. apply HF in Hin. lia.
      * apply Forall_cons. split.
        -- split; [|unfold pgsize in *; lia]. rewrite Hn. apply Z.mod_divide in Hlo as [b ->]; [|done].
           rewrite (Z.mul_comm pgsize), <- Z.mul_add_distr_r. apply Z_mod_mult.
        -- eapply Forall_impl; [exact HF|]. simpl. intros x [? ?]. split; [done|]. unfold pgsize. lia.
    + eexists _, _. split; [done|]. split; [done|]. split; [done|]. intros Hc. exfalso.
      unfold pgsize in *.
      apply Z.mod_divide in Hlo as [b ->], Hhi as [c ->]; [|done..].
      rewrite <- Z.mul_sub_distr_r, Z.div_mul in Hc by done. lia.
  - assert (p ∈ O ++ p :: l) as Hin by (apply elem_of_app; right; left).
    eexists _, _. split; [done|]. simpl. rewrite Forall_forall in HF. apply HF in Hin as [_ ?].
    destruct (Z.eqb_spec p 0); [lia|]. split; [done|]. split; [|done].
    apply (bump_inv_moved s O); [done|]. rewrite Ef. simpl. by rewrite Permutation_middle.
Qed.

#[export, refine] Instance bump_source : PageSource bump := {|
  pgalloc := bump_alloc; pgfree := bump_free; pg_arena := fun x => lo <= x < hi;
  pg_capacity := Z.to_nat ((hi - lo) / pgsize); pg_inv := bump_inv |}.
Proof.
  - intros [m n l] O O' HP Hinv. apply (bump_inv_moved _ O _ O' l Hinv). simpl. by rewrite HP.
  - intros s O Hinv. split; [|split; [|intros x Hx; by eapply bump_inv_pages]].
    + destruct Hinv as (? & ? & _ & _ & _ & ? & _ & HF). apply Forall_app in HF as [HF _].
      eapply Forall_impl; [exact HF|]. intros p [? ?]. split; [lia|done].
    + destruct Hinv as (_ & _ & _ & _ & _ & _ & HN & _). by apply NoDup_app in HN as [? _].
  - intros s O f Hinv _. by apply (bump_inv_moved s O).
  - intros s O Hinv. eapply wp_mono; [by apply bump_alloc_spec|]. intros p s' (E & ? & ?).
    split; [|done]. intros x _. simpl. by rewrite E.
  - intros s O p Hinv. apply wp_done. eexists _, _. split; [done|]. split; [done|].
    apply (bump_inv_moved s (p :: O)); [done|]. simpl. by rewrite Permutation_middle.
Defined.
End Bump.
