(* ===== verification/Vme.v ===== *)
(** * Virtual memory: am/src/x86/qemu/vme.c, the 64-bit build

    Page tables live in memory: a table is a page of 512 entries, an entry the address of
    the next table or page with its flags in the low bits. [as_] is the address of an
    [AddrSpace], whose field [ptr] plays the part of a table of one entry: level 0. *)

From stdpp Require Import prelude.
From S2P Require Import Prelude Mem X86 Cte Trm Pages.

(** x86.h, lines 19-26. *)
Definition CR0_PG : Z := 0x80000000.
Definition PTE_P : Z := 1.
Definition PTE_W : Z := 2.
Definition PTE_U : Z := 4.

(** [(e & flag) != 0]. *)
Definition has (flag e : Z) : bool := negb (Z.land e flag =? 0).

(** ** The configuration, lines 3-31 *)

Record ptinfo : Type := mk_ptinfo { pt_mask : Z; pt_shift : Z; pt_bits : Z }.

Definition pgtables : list ptinfo :=
  [ mk_ptinfo 0x000000000000 0 0; mk_ptinfo 0xff8000000000 39 9; mk_ptinfo 0x007fc0000000 30 9;
    mk_ptinfo 0x00003fe00000 21 9; mk_ptinfo 0x0000001ff000 12 9 ].

(** [RANGE(start, end), kernel]. *)
Definition vm_areas : list (Z * Z * bool) :=
  [ (0x100000000000, 0x108000000000, false); (0x000000000000, 0x008000000000, true) ].

Definition uvm_area : Z * Z := (0x100000000000, 0x108000000000).

Definition PML4_ADDR : Z := 0x1000.

(** [sizeof(AddrSpace)] is 32; the offsets of [pgsize], [area] and [ptr]. *)
Definition off_pgsize : Z := 0.
Definition off_area : Z := 8.
Definition off_ptr : Z := 24.

Definition indexof (addr : Z) (info : ptinfo) : Z := i32 (Z.shiftr (Z.land addr (pt_mask info)) (pt_shift info)).

Definition baseof (addr : Z) : Z := Z.land addr (u64 (Z.lnot (pgsize - 1))).

Definition ROUNDDOWN (a sz : Z) : Z := Z.land (u64 a) (u64 (Z.lnot (sz - 1))).

Section Vme.
Context {St : Type} `{PageSource St}.

(** ** Allocation *)

Fixpoint zero_entries (k : nat) (base i : Z) : M St unit :=
  match k with
  | O => mret tt
  | S k => _ ← write_le 8 base (8 * i) 0; zero_entries k base (i + 1)
  end.

Definition pgallocz : M St Z :=
  base ← pgalloc pgsize;
  if base =? 0 then raise Panic
  else
    _ ← zero_entries (Z.to_nat (pgsize / 8)) base 0;
    mret base.

(** ** The walk: the address of the last level's entry, tables being added on the way *)

Fixpoint ptwalk_from (levels : list ptinfo) (cur addr flags : Z) : M St Z :=
  match levels with
  | [] => raise Panic
  | info :: levels =>
      let index := indexof addr info in
      match levels with
      | [] => mret (cur + 8 * index)
      | _ :: _ =>
          pte ← read_le 8 cur (8 * index);
          next_page ← (if negb (has PTE_P pte) then
                         next_page ← pgallocz;
                         _ ← write_le 8 cur (8 * index) (Z.lor (Z.lor next_page PTE_P) flags);
                         mret next_page
                       else mret (baseof pte));
          ptwalk_from levels next_page addr flags
      end
  end.

Definition ptwalk (as_ addr flags : Z) : M St Z := ptwalk_from pgtables (as_ + off_ptr) addr flags.

(** ** Giving the tables back

    [levels] are the tables' descriptions from [level] on: no levels are left beyond
    [ptlevels]. [index] runs from [i] over [k] entries. *)

Fixpoint teardown_entries (next : Z -> M St unit) (k : nat) (pt index : Z) : M St unit :=
  match k with
  | O => mret tt
  | S k =>
      pte ← read_le 8 pt (8 * index);
      _ ← (if has PTE_P pte && has PTE_U pte then next (baseof pte) else mret tt);
      teardown_entries next k pt (index + 1)
  end.

Fixpoint teardown_from (levels : list ptinfo) (level : nat) (pt : Z) : M St unit :=
  match levels with
  | [] => mret tt
  | info :: levels =>
      _ ← teardown_entries (teardown_from levels (S level)) (Z.to_nat (Z.shiftl 1 (pt_bits info))) pt 0;
      if (1 <=? level)%nat then pgfree pt else mret tt
  end.

Definition unprotect (as_ : Z) : M St unit := teardown_from pgtables 0 (as_ + off_ptr).

(** ** The interface *)

(** The result is the kernel's page table, the new CR3 and the new CR0. *)
Definition vme_init (cpu_current cr0 : Z) : M St (Z * Z * Z) :=
  if negb (cpu_current =? 0) then raise Panic
  else mret (PML4_ADDR, PML4_ADDR, Z.lor cr0 CR0_PG).

(** Lines 124-129: [cur] runs over an area in steps of the span of a level-1 entry. *)
Fixpoint copy_kernel (k : nat) (kpt upt cur stop : Z) : M St unit :=
  match k with
  | O => raise OutOfFuel
  | S k =>
      if cur =? stop then mret tt
      else
        let info := nth 1 pgtables (mk_ptinfo 0 0 0) in
        let index := indexof cur info in
        pte ← read_le 8 kpt (8 * index);
        _ ← write_le 8 upt (8 * index) pte;
        copy_kernel k kpt upt (u64 (cur + Z.shiftl 1 (pt_shift info))) stop
  end.

Fixpoint copy_areas (fuel : nat) (areas : list (Z * Z * bool)) (kpt upt : Z) : M St unit :=
  match areas with
  | [] => mret tt
  | (start, stop, kernel) :: areas =>
      _ ← (if (kernel : bool) then copy_kernel fuel kpt upt start stop else mret tt);
      copy_areas fuel areas kpt upt
  end.

Definition protect (fuel : nat) (kpt as_ : Z) : M St unit :=
  upt ← pgallocz;
  _ ← copy_areas fuel vm_areas kpt upt;
  _ ← write_le 4 as_ off_pgsize pgsize;
  _ ← write_le 8 as_ off_area uvm_area.1;
  _ ← write_le 8 as_ (off_area + 8) uvm_area.2;
  write_le 8 as_ off_ptr (Z.lor (Z.lor upt PTE_P) PTE_U).

Definition map (as_ va pa prot : Z) : M St unit :=
  if negb ((uvm_area.1 <=? va) && (va <? uvm_area.2)) then raise Panic
  else if negb (va =? ROUNDDOWN va pgsize) || negb (pa =? ROUNDDOWN pa pgsize) then raise Panic
  else
    ptentry ← ptwalk as_ va (Z.lor PTE_W PTE_U);
    _ ← (if prot =? MMAP_NONE then
           pte ← read_le 8 ptentry 0;
           if negb (has PTE_P pte) then raise Panic
           else write_le 8 ptentry 0 0
         else
           pte ← read_le 8 ptentry 0;
           if has PTE_P pte then raise Panic
           else
             let pte := Z.lor (Z.lor (Z.lor pa PTE_P) PTE_U) (if has MMAP_WRITE prot then PTE_W else 0) in
             write_le 8 ptentry 0 pte);
    _ ← ptwalk as_ va (Z.lor PTE_W PTE_U);
    mret tt.
End Vme.

(** The user context put below the end of the kernel stack; [ptr] is the field of the
    address space. *)
Definition ucontext (ptr kstack_end entry : Z) : Context :=
  mk_context ptr 0 0 0 0 0 0 0 0 0 0 0 0 0 0 0 entry (USEL SEG_UCODE) FL_IF uvm_area.2 (USEL SEG_UDATA) kstack_end.

(** ** What the processor sees *)

(** The entry [i] of the table at [p]. *)
Definition entry (m : mem) (p i : Z) : Z := load64 m (p + 8 * i).

(** The index of an address in a table with [k] levels of tables below it. *)
Definition idx (k : nat) (va : Z) : Z := (va / 2 ^ (12 + 9 * Z.of_nat k)) mod 512.

(** Bits 12 to 51 of an entry. *)
Definition hw_base (e : Z) : Z := Z.land e 0xffffffffff000.

(** The translation of [va] by the table at [p]: the page, and if writes and accesses by
    the user are allowed, which every level must permit. *)
Fixpoint xlate (k : nat) (m : mem) (p va : Z) : option (Z * bool * bool) :=
  let e := entry m p (idx k va) in
  if negb (has PTE_P e) then None
  else
    match k with
    | O => Some (hw_base e, has PTE_W e, has PTE_U e)
    | S k =>
        '(pa, w, u) ← xlate k m (hw_base e) va;
        Some (pa, has PTE_W e && w, has PTE_U e && u)
    end.

(** The translation by the processor when CR3 holds [cr3]. *)
Definition hw_translate (m : mem) (cr3 va : Z) : option (Z * bool * bool) := xlate 3 m (hw_base cr3) va.
