(* ===== verification/VmeSpec.v ===== *)
(** * Page tables as trees, and the translations they give

    [tabs k m p] lists the tables of the tree at [p], [wf] is the shape [vme.c] keeps:
    entries of the user part lead to tables of their own and grant everything; what a page
    allows is decided by the last level. [grows] is what a walk does to a tree. *)

From stdpp Require Import prelude.
From S2P Require Import Prelude Mem X86 Cte Trm Pages Vme.

(** ** Entries: an aligned address and flags *)

Definition flag_ok (f : Z) : Prop := 0 <= f < pgsize.

Lemma page_lor p f : p mod pgsize = 0 -> flag_ok f -> Z.lor p f = p + f.
Proof.
  unfold flag_ok, pgsize. intros [q ->]%Z.mod_divide ?; [|done].
  replace (q * 4096) with (Z.shiftl q 12) by (rewrite Z.shiftl_mul_pow2; lia). rewrite (lor_add q f 12) by lia.
  rewrite Z.shiftl_mul_pow2; lia.
Qed.

Lemma has_low flag p f : p mod pgsize = 0 -> flag_ok f -> flag_ok flag -> has flag (p + f) = has flag f.
Proof.
  intros Hp Hf Hg. unfold has. rewrite <- page_lor, Z.land_lor_distr_l by done.
  assert (Z.land p flag = 0) as ->; [|by rewrite Z.lor_0_l].
  pose proof (page_lor p flag Hp Hg) as E. pose proof (Z.add_lor_land p flag). lia.
Qed.

Lemma baseof_eq e : 0 <= e < 2 ^ 64 -> baseof e = e - e mod pgsize.
Proof. intros He. unfold baseof. exact (land_mask e 12 64 ltac:(lia) He). Qed.

Lemma hw_base_eq e : 0 <= e < 2 ^ 52 -> hw_base e = e - e mod pgsize.
Proof. intros He. unfold hw_base. exact (land_mask e 12 52 ltac:(lia) He). Qed.

Lemma baseof_page p f : valid_page p -> flag_ok f -> baseof (p + f) = p.
Proof.
  unfold valid_page, flag_ok, pgsize. intros [? [q ->]%Z.mod_divide] ?; [|done]. rewrite baseof_eq; unfold pgsize; zdm.
Qed.

Lemma entry_range m p i : 0 <= entry m p i < 2 ^ 64.
Proof. unfold entry, load64. pose proof (load_le_range 8 m (p + 8 * i)). lia. Qed.

(** The processor and the code agree on where an entry leads to. *)
Lemma hw_base_baseof e : 0 <= e < 2 ^ 64 -> valid_page (baseof e) -> hw_base e = baseof e.
Proof.
  intros He [Hv Hm]. rewrite baseof_eq in * by done. rewrite hw_base_eq; [done|]. unfold pgsize in *.
  apply Z.mod_divide in Hm as [q Hq]; [|done]. zdm.
Qed.

Lemma hw_base_page p f : 0 <= p < 2 ^ 52 -> p mod pgsize = 0 -> flag_ok f -> hw_base (p + f) = p.
Proof. unfold flag_ok, pgsize. intros ? [q ->]%Z.mod_divide ?; [|done]. rewrite hw_base_eq; unfold pgsize; zdm. Qed.

(** ** The levels *)

Definition level_info (k : nat) : ptinfo := mk_ptinfo (Z.shiftl 511 (12 + 9 * Z.of_nat k)) (12 + 9 * Z.of_nat k) 9.

Fixpoint infos (k : nat) : list ptinfo :=
  level_info k :: match k with O => [] | S k => infos k end.

Lemma pgtables_infos : pgtables = mk_ptinfo 0 0 0 :: infos 3.
Proof. reflexivity. Qed.

Lemma indexof_idx k va : indexof va (level_info k) = idx k va.
Proof.
  unfold indexof, idx, level_info. simpl pt_mask. simpl pt_shift.
  rewrite Z.shiftr_land, Z.shiftr_shiftl_l, Z.sub_diag by lia. rewrite Z.shiftl_0_r.
  change 511 with (Z.ones 9). rewrite Z.land_ones, Z.shiftr_div_pow2 by lia. change (2 ^ 9) with 512.
  apply signed_small; [lia|]. pose proof (Z.mod_pos_bound (va / 2 ^ (12 + 9 * Z.of_nat k)) 512). lia.
Qed.

Lemma idx_range k va : 0 <= idx k va < 512.
Proof. apply Z.mod_pos_bound. lia. Qed.

(** ** The tables of a tree *)

Fixpoint tabs (k : nat) (m : mem) (p : Z) : list Z :=
  p :: match k with
       | O => []
       | S k =>
           concat ((fun i => if has PTE_P (entry m p i) && has PTE_U (entry m p i)
                             then tabs k m (baseof (entry m p i)) else []) <$> seqZ 0 512)
       end.

(** The tables below the entry [i], and below the others. *)
Definition sub (k : nat) (m : mem) (p i : Z) : list Z :=
  if has PTE_P (entry m p i) && has PTE_U (entry m p i) then tabs k m (baseof (entry m p i)) else [].

Definition others (k : nat) (m : mem) (p i : Z) : list Z :=
  concat (sub k m p <$> filter (fun j => j <> i) (seqZ 0 512)).

Lemma tabs_S k m p : tabs (S k) m p = p :: concat (sub k m p <$> seqZ 0 512).
Proof. done. Qed.

Lemma tabs_head k m p : p ∈ tabs k m p.
Proof. destruct k; left. Qed.

#[global] Arguments tabs : simpl never.

Lemma filter_ne_perm (i : Z) l : NoDup l -> i ∈ l -> l ≡ₚ i :: filter (fun j => j <> i) l.
Proof.
  induction 1 as [|x l Hx Hl IH]; intros Hi; [by apply elem_of_nil in Hi|]. rewrite filter_cons.
  destruct (decide (x <> i)) as [Hne|E%dec_stable]; [|subst x].
  - apply elem_of_cons in Hi as [->|Hi]; [done|]. rewrite (IH Hi) at 1. apply perm_swap.
  - f_equiv. symmetry. clear IH Hi Hl. induction l as [|y l IH]; [done|]. rewrite filter_cons.
    apply not_elem_of_cons in Hx as [Hne Hx]. rewrite decide_True by done. by rewrite IH.
Qed.

Lemma tabs_split k m p i : 0 <= i < 512 -> tabs (S k) m p ≡ₚ p :: sub k m p i ++ others k m p i.
Proof.
  intros Hi. rewrite tabs_S. f_equiv. unfold others.
  rewrite (filter_ne_perm i (seqZ 0 512)) at 1 by (apply NoDup_seqZ || (apply elem_of_seqZ; lia)). done.
Qed.

Lemma sub_incl k m p i : 0 <= i < 512 -> sub k m p i ⊆ tabs (S k) m p.
Proof. intros Hi x Hx. rewrite (tabs_split k m p i Hi). right. apply elem_of_app. by left. Qed.

Lemma others_sub k m p i x : x ∈ others k m p i <-> exists j, 0 <= j < 512 /\ j <> i /\ x ∈ sub k m p j.
Proof.
  unfold others. rewrite list_elem_of_In, in_concat. setoid_rewrite <- list_elem_of_In. split.
  - intros (l & (j & -> & Hj)%list_elem_of_fmap & Hx). apply list_elem_of_filter in Hj as [? Hj%elem_of_seqZ].
    exists j. split; [lia|done].
  - intros (j & Hj & Hne & Hx). exists (sub k m p j). split; [|done]. apply list_elem_of_fmap. exists j. split; [done|].
    apply list_elem_of_filter. split; [done|]. apply elem_of_seqZ. lia.
Qed.

(** ** The shape of a tree

    [kern] are the indices of the root that belong to the kernel: such an entry is not for
    the user, and its tables are not part of the tree. *)

Definition none : Z -> Prop := fun _ => False.

Fixpoint wf (kern : Z -> Prop) (k : nat) (m : mem) (p : Z) : Prop :=
  match k with
  | O => True
  | S k =>
      forall i, 0 <= i < 512 -> has PTE_P (entry m p i) = true ->
        if has PTE_U (entry m p i) then has PTE_W (entry m p i) = true /\ wf none k m (baseof (entry m p i)) else kern i
  end.

Record tree_ok (kern : Z -> Prop) (k : nat) (m : mem) (p : Z) (O : list Z) : Prop := {
  tree_wf : wf kern k m p;
  tree_nodup : NoDup (tabs k m p);
  tree_in : tabs k m p ⊆ O;
}.

Lemma tree_ok_mono kern k m p O O' : tree_ok kern k m p O -> O ⊆ O' -> tree_ok kern k m p O'.
Proof. intros [? ? ?] HO. split; try done. intros x Hx. auto. Qed.

(** *** Frames: a tree depends on the memory of its tables *)

Lemma entry_frame (P : Z -> Prop) m m' p i :
  same_on P m m' -> (forall x, p <= x < p + pgsize -> P x) -> 0 <= i < 512 -> entry m' p i = entry m p i.
Proof. intros Hs HP Hi. apply (same_on_load P); [done|]. intros x Hx. apply HP. unfold pgsize. lia. Qed.

Lemma in_page L p x : p ∈ L -> p <= x < p + pgsize -> in_pages L x.
Proof. intros. by exists p. Qed.

Section Frame.
Context (m m' : mem).

Lemma entry_frame_in L p i : same_on (in_pages L) m m' -> p ∈ L -> 0 <= i < 512 -> entry m' p i = entry m p i.
Proof. intros Hs Hp Hi. apply (entry_frame (in_pages L)); [done| |done]. intros x. by apply in_page. Qed.

Lemma same_on_incl L L' : same_on (in_pages L) m m' -> L' ⊆ L -> same_on (in_pages L') m m'.
Proof. intros Hs HL. eapply same_on_weaken; [exact Hs|]. intros x. by apply in_pages_sub. Qed.

Lemma tabs_frame k p : same_on (in_pages (tabs k m p)) m m' -> tabs k m' p = tabs k m p.
Proof.
  revert p. induction k as [|k IH]; intros p Hs; [done|]. rewrite !tabs_S. f_equal. f_equal.
  apply list_fmap_ext. intros n i Hi%list_elem_of_lookup_2%elem_of_seqZ. unfold sub.
  rewrite (entry_frame_in _ _ _ Hs) by (apply tabs_head || lia).
  destruct (has PTE_P _ && has PTE_U _) eqn:E; [|done]. apply IH. eapply same_on_incl; [exact Hs|].
  etrans; [|apply (sub_incl k m p i); lia]. unfold sub. by rewrite E.
Qed.

Lemma sub_frame k p i :
  entry m' p i = entry m p i -> same_on (in_pages (sub k m p i)) m m' -> sub k m' p i = sub k m p i.
Proof. unfold sub. intros ->. destruct (_ && _); [|done]. apply tabs_frame. Qed.

Lemma others_frame k p i :
  (forall j, 0 <= j < 512 -> j <> i -> entry m' p j = entry m p j) ->
  same_on (in_pages (others k m p i)) m m' -> others k m' p i = others k m p i.
Proof.
  intros He Hs. unfold others. f_equal. apply list_fmap_ext.
  intros n j [Hj Hr%elem_of_seqZ]%list_elem_of_lookup_2%list_elem_of_filter. apply sub_frame; [apply He; [lia|done]|].
  eapply same_on_incl; [exact Hs|]. intros x Hx. apply others_sub. exists j. split; [lia|done].
Qed.

Lemma wf_frame kern k p : same_on (in_pages (tabs k m p)) m m' -> wf kern k m p -> wf kern k m' p.
Proof.
  revert kern p. induction k as [|k IH]; intros kern p Hs Hwf; [done|]. intros i Hi.
  rewrite (entry_frame_in _ _ _ Hs) by (apply tabs_head || done). intros HP. specialize (Hwf i Hi HP).
  destruct (has PTE_U _) eqn:E; [|done]. destruct Hwf as [? Hwf]. split; [done|]. apply IH; [|done].
  eapply same_on_incl; [exact Hs|]. etrans; [|by apply (sub_incl k m p i)]. unfold sub. by rewrite HP, E.
Qed.

Lemma wf_child kern k p i :
  wf kern (S k) m p -> ~ kern i -> 0 <= i < 512 -> has PTE_P (entry m p i) = true ->
  has PTE_U (entry m p i) = true /\ has PTE_W (entry m p i) = true /\ wf none k m (baseof (entry m p i)) /\
  sub k m p i = tabs k m (baseof (entry m p i)).
Proof.
  intros Hwf Hk Hi HP. specialize (Hwf i Hi HP). unfold sub. rewrite HP. destruct (has PTE_U _); [|done].
  destruct Hwf. done.
Qed.

Lemma xlate_frame kern k p va :
  wf kern k m p -> ~ kern (idx k va) -> Forall valid_page (tabs k m p) ->
  same_on (in_pages (tabs k m p)) m m' -> xlate k m' p va = xlate k m p va.
Proof.
  revert kern p. induction k as [|k IH]; intros kern p Hwf Hk Hv Hs; cbn [xlate];
    rewrite (entry_frame_in _ _ _ Hs) by (apply tabs_head || apply idx_range); [done|].
  destruct (has PTE_P _) eqn:HP; [|done]. simpl negb. cbv iota.
  destruct (wf_child _ _ _ _ Hwf Hk (idx_range _ _) HP) as (HU & HW & Hwf' & Hsub).
  pose proof (sub_incl k m p _ (idx_range (S k) va)) as Hincl. rewrite Hsub in Hincl.
  assert (Forall valid_page (tabs k m (baseof (entry m p (idx (S k) va))))) as Hv'.
  { rewrite Forall_forall in *. auto. }
  rewrite hw_base_baseof; [|apply entry_range|by eapply Forall_forall in Hv'; [|apply tabs_head]].
  rewrite (IH none); [done|done|by intros []|done|]. eapply same_on_incl; done.
Qed.
End Frame.

Lemma sub_nodup kern k m p O i : tree_ok kern (S k) m p O -> 0 <= i < 512 -> NoDup (p :: sub k m p i ++ others k m p i).
Proof. intros [_ HN _] Hi. by rewrite <- (tabs_split k m p i Hi). Qed.

Lemma tree_child kern k m p O i :
  tree_ok kern (S k) m p O -> ~ kern i -> 0 <= i < 512 -> has PTE_P (entry m p i) = true ->
  tree_ok none k m (baseof (entry m p i)) O.
Proof.
  intros Ht Hk Hi HP. destruct (wf_child _ _ _ _ _ (tree_wf _ _ _ _ _ Ht) Hk Hi HP) as (_ & _ & Hwf & Hsub).
  pose proof (sub_nodup _ _ _ _ _ _ Ht Hi) as HN. rewrite Hsub in HN. split; [done| |].
  - by apply NoDup_cons in HN as [_ [? _]%NoDup_app].
  - rewrite <- Hsub. etrans; [by apply sub_incl|]. apply Ht.
Qed.

(** ** Growing a tree *)

Section Grow.
Context {St : Type} `{PageSource St}.

(** What the allocator guarantees about the pages handed out. *)
Definition good (L : list Z) : Prop := Forall valid_page L /\ NoDup L /\ (forall x, in_pages L x -> pg_arena x).

Lemma good_app new O : good (new ++ O) -> good O.
Proof.
  intros (HF & HN & Ha). apply Forall_app in HF as [_ HF]. apply NoDup_app in HN as (_ & _ & HN).
  split; [done|]. split; [done|]. intros x Hx. apply Ha. eapply in_pages_sub; [|exact Hx]. by apply list_subseteq_app_r.
Qed.

Lemma good_disj L L1 L2 x :
  good L -> L1 ⊆ L -> L2 ⊆ L -> (forall p, p ∈ L1 -> p ∉ L2) -> in_pages L1 x -> ~ in_pages L2 x.
Proof.
  intros (HF & _) H1 H2 Hd. rewrite Forall_forall in HF. apply in_pages_disj; [..|done]; apply Forall_forall; auto.
Qed.

(** Pages not handed out yet are not in use. *)
Lemma fresh_not_client new O x : good (new ++ O) -> client O x -> ~ in_pages new x.
Proof.
  intros Hg [Hx|Hx] Hn.
  - eapply (good_disj (new ++ O) O new); [done|by apply list_subseteq_app_r|by apply list_subseteq_app_l| |done|done].
    destruct Hg as (_ & (_ & Hd & _)%NoDup_app & _). intros p Hp Hp'. by apply (Hd p).
  - apply Hx. destruct Hg as (_ & _ & Ha). apply Ha. eapply in_pages_sub; [|exact Hn]. by apply list_subseteq_app_l.
Qed.

(** From [m] to [m'] the tree at [p] got the tables [new], everything else in use is as it
    was, and no translation changed. *)
Record grows (kern : Z -> Prop) (k : nat) (m : mem) (O : list Z) (p : Z) (m' : mem) (new : list Z) : Prop := {
  gr_tree : tree_ok kern k m' p (new ++ O);
  gr_tabs : tabs k m' p ≡ₚ new ++ tabs k m p;
  gr_frame : same_on (fun x => client O x /\ ~ in_pages (tabs k m p) x) m m';
  gr_xlate : forall va, ~ kern (idx k va) -> xlate k m' p va = xlate k m p va;
  gr_kern : forall j, kern j -> 0 <= j < 512 -> entry m' p j = entry m p j;
}.

Lemma grows_refl kern k m O p : tree_ok kern k m p O -> grows kern k m O p m [].
Proof. intros Ht. by split. Qed.

Lemma grows_trans kern k m O p m1 m2 new1 new2 :
  good (new2 ++ new1 ++ O) -> grows kern k m O p m1 new1 -> grows kern k m1 (new1 ++ O) p m2 new2 ->
  grows kern k m O p m2 (new2 ++ new1).
Proof.
  intros Hg [Ht1 Hp1 Hf1 Hx1 Hk1] [Ht2 Hp2 Hf2 Hx2 Hk2]. split.
  - by rewrite <- (assoc_L app).
  - by rewrite Hp2, Hp1, (assoc_L app).
  - intros x [Hc Hx]. rewrite Hf2; [apply Hf1; done|]. pose proof (good_app _ _ Hg) as Hg1. split.
    + destruct Hc as [Hc|]; [left|by right]. eapply in_pages_sub; [|exact Hc]. by apply list_subseteq_app_r.
    + intros (q & Hq & Hqx). rewrite Hp1 in Hq. apply elem_of_app in Hq as [Hq|Hq].
      * eapply fresh_not_client; [exact Hg1|exact Hc|by exists q].
      * apply Hx. by exists q.
  - intros va Hva. by rewrite Hx2, Hx1.
  - intros j Hj Hr. by rewrite Hk2, Hk1.
Qed.

(** A table is apart from the tables below its entry [i], and so are those below others. *)
Lemma child_apart kern k m p O i x :
  tree_ok kern (S k) m p O -> good O -> 0 <= i < 512 ->
  (in_pages (others k m p i) x -> ~ in_pages (p :: sub k m p i) x) /\ (in_pages [p] x -> ~ in_pages (sub k m p i) x).
Proof.
  intros Ht Hg Hi. pose proof (sub_nodup _ _ _ _ _ _ Ht Hi) as HN.
  assert (forall q, q ∈ p :: sub k m p i ++ others k m p i -> q ∈ O) as Hin.
  { intros q. rewrite <- (tabs_split k m p i Hi). apply Ht. }
  apply NoDup_cons in HN as [Hp (_ & Hd & _)%NoDup_app]. rewrite not_elem_of_app in Hp. destruct Hp as [Hp1 Hp2].
  split; apply (good_disj O); try done; intros q.
  - intros Hq. apply Hin. right. apply elem_of_app. by right.
  - intros [->|Hq]%elem_of_cons; apply Hin; [left|right; apply elem_of_app; by left].
  - intros Hq [->|Hq']%elem_of_cons; [done|]. by apply (Hd q).
  - intros ->%list_elem_of_singleton. apply Hin. left.
  - intros Hq. apply Hin. right. apply elem_of_app. by left.
  - by intros ->%list_elem_of_singleton.
Qed.

Lemma node_tree kern k m O p m' new i :
  tree_ok kern (S k) m p O -> good (new ++ O) -> ~ kern i -> 0 <= i < 512 ->
  same_on (fun x => client O x /\ ~ in_pages (p :: sub k m p i) x) m m' ->
  (forall j, 0 <= j < 512 -> j <> i -> entry m' p j = entry m p j) ->
  has PTE_P (entry m' p i) = true -> has PTE_U (entry m' p i) = true -> has PTE_W (entry m' p i) = true ->
  wf none k m' (baseof (entry m' p i)) -> tabs k m' (baseof (entry m' p i)) ≡ₚ new ++ sub k m p i ->
  tree_ok kern (S k) m' p (new ++ O) /\ tabs (S k) m' p ≡ₚ new ++ tabs (S k) m p /\
  forall va, ~ kern (idx (S k) va) -> idx (S k) va <> i -> xlate (S k) m' p va = xlate (S k) m p va.
Proof.
  intros Ht Hg Hk Hi Hs He HP HU HW Hwf Htabs. pose proof (good_app _ _ Hg) as HgO.
  assert (forall x, in_pages (others k m p i) x -> load8 m' x = load8 m x) as Hoth.
  { intros x Hin. apply Hs. split; [|by eapply child_apart in Hin].
    left. eapply in_pages_sub; [|exact Hin]. etrans; [|apply Ht]. intros q Hq. rewrite (tabs_split k m p i Hi).
    right. apply elem_of_app. by right. }
  assert (forall j, 0 <= j < 512 -> j <> i -> same_on (in_pages (sub k m p j)) m m') as Hsub.
  { intros j Hj Hne x Hin. apply Hoth. eapply in_pages_sub; [|exact Hin]. intros q Hq. apply others_sub. by exists j. }
  assert (tabs (S k) m' p ≡ₚ new ++ tabs (S k) m p) as Hperm.
  { rewrite (tabs_split k m' p i Hi), (tabs_split k m p i Hi). rewrite (others_frame m m' k p i He Hoth).
    unfold sub at 1. rewrite HP, HU. simpl andb. cbv iota. rewrite Htabs. solve_Permutation. }
  split; [|split; [done|]].
  - split.
    + intros j Hj HPj. destruct (decide (j = i)) as [->|Hne]; [by rewrite HU|]. rewrite He in * by done.
      pose proof (tree_wf _ _ _ _ _ Ht j Hj HPj) as Hw. destruct (has PTE_U (entry m p j)) eqn:E; [|done].
      destruct Hw as [? Hw]. split; [done|]. eapply wf_frame; [|exact Hw].
      specialize (Hsub j Hj Hne). unfold sub in Hsub. by rewrite HPj, E in Hsub.
    + rewrite Hperm. destruct Hg as (_ & (? & Hd & _)%NoDup_app & _). apply NoDup_app. split; [done|].
      split; [|apply Ht]. intros q Hq Hq'. apply (Hd q Hq). by apply Ht.
    + rewrite Hperm. apply list_subseteq_app_iff_l. split; [by apply list_subseteq_app_l|].
      etrans; [apply Ht|]. by apply list_subseteq_app_r.
  - intros va Hva Hne. cbn [xlate].
    pose proof (idx_range (S k) va) as Hr. rewrite He by done. set (j := idx (S k) va) in *.
    destruct (has PTE_P (entry m p j)) eqn:HPj; [|done]. simpl negb. cbv iota.
    destruct (wf_child _ _ _ _ _ (tree_wf _ _ _ _ _ Ht) Hva Hr HPj) as (_ & _ & Hwj & Esub).
    assert (Forall valid_page (tabs k m (baseof (entry m p j)))) as Hv.
    { destruct HgO as (HF & _). rewrite Forall_forall in *. intros q Hq. apply HF, Ht, (sub_incl k m p j Hr). by rewrite Esub. }
    rewrite hw_base_baseof; [|apply entry_range|by eapply Forall_forall in Hv; [|apply tabs_head]].
    rewrite (xlate_frame m m' none); [done|done|by intros []|done|]. rewrite <- Esub. by apply Hsub.
Qed.

Lemma node_grows kern k m O p m' new i :
  tree_ok kern (S k) m p O -> good (new ++ O) -> ~ kern i -> 0 <= i < 512 ->
  same_on (fun x => client O x /\ ~ in_pages (p :: sub k m p i) x) m m' ->
  (forall j, 0 <= j < 512 -> j <> i -> entry m' p j = entry m p j) ->
  has PTE_P (entry m' p i) = true -> has PTE_U (entry m' p i) = true -> has PTE_W (entry m' p i) = true ->
  wf none k m' (baseof (entry m' p i)) -> tabs k m' (baseof (entry m' p i)) ≡ₚ new ++ sub k m p i ->
  (forall va, idx (S k) va = i -> xlate (S k) m' p va = xlate (S k) m p va) ->
  grows kern (S k) m O p m' new.
Proof.
  intros Ht Hg Hk Hi Hs He HP HU HW Hwf Htabs Hx.
  destruct (node_tree kern k m O p m' new i) as (Ht' & Hperm & Hx'); try done. split; try done.
  - eapply same_on_weaken; [exact Hs|]. intros x [? Hn]. split; [done|]. intros Hin. apply Hn.
    eapply in_pages_sub; [|exact Hin]. intros q Hq. rewrite (tabs_split k m p i Hi).
    apply elem_of_cons in Hq as [->|Hq]; [left|right; apply elem_of_app; by left].
  - intros va Hva. destruct (decide (idx (S k) va = i)) as [|Hne]; [by apply Hx|by apply Hx'].
  - intros j Hj Hr. apply He; [done|]. by intros ->.
Qed.
End Grow.
