(* ===== verification/VmeWalk.v ===== *)
(** * The walk of vme.c: [pgallocz], [ptwalk] and the write of a last-level entry *)

From stdpp Require Import prelude.
From S2P Require Import Prelude Mem X86 Cte Trm Pages Vme VmeSpec.

(** ** Fresh tables *)

(** A table without entries for the user has no tables below it. *)
Lemma tabs_single k m q :
  (forall i, 0 <= i < 512 -> has PTE_P (entry m q i) && has PTE_U (entry m q i) = false) -> tabs k m q = [q].
Proof.
  intros He. destruct k as [|k]; [done|]. rewrite tabs_S. f_equal.
  assert (forall l, Forall (fun i => 0 <= i < 512) l -> concat (sub k m q <$> l) = []) as Hc.
  { induction 1 as [|i l Hi Hl IH]; [done|]. rewrite fmap_cons. simpl. rewrite IH, app_nil_r. unfold sub. by rewrite He. }
  apply Hc, Forall_forall. intros i Hi%elem_of_seqZ. lia.
Qed.

Lemma tabs_empty k m q : (forall i, 0 <= i < 512 -> entry m q i = 0) -> tabs k m q = [q].
Proof. intros He. apply tabs_single. intros i Hi. by rewrite He. Qed.

Lemma wf_empty kern k m q : (forall i, 0 <= i < 512 -> entry m q i = 0) -> wf kern k m q.
Proof. intros He. destruct k as [|k]; [done|]. intros i Hi. by rewrite He. Qed.

Lemma xlate_empty k m q va : (forall i, 0 <= i < 512 -> entry m q i = 0) -> xlate k m q va = None.
Proof. intros He. destruct k as [|k]; cbn [xlate]; by rewrite He by apply idx_range. Qed.

(** The last-level entry of an address, when all tables on the way are there. *)
Fixpoint leaf (k : nat) (m : mem) (p va : Z) : option Z :=
  match k with
  | O => Some (p + 8 * idx 0 va)
  | S j => let e := entry m p (idx k va) in if has PTE_P e then leaf j m (baseof e) va else None
  end.

(** The flags of the tables the code adds. *)
Definition table_flags : Z := 7.

Lemma table_entry q :
  valid_page q -> Z.lor (Z.lor q PTE_P) (Z.lor PTE_W PTE_U) = q + table_flags /\
  baseof (q + table_flags) = q /\ hw_base (q + table_flags) = q /\ has PTE_P (q + table_flags) = true /\
  has PTE_W (q + table_flags) = true /\ has PTE_U (q + table_flags) = true.
Proof.
  intros Hv. pose proof Hv as [? Hm]. assert (flag_ok table_flags) as Hf by done.
  rewrite <- Z.lor_assoc. change (Z.lor PTE_P (Z.lor PTE_W PTE_U)) with table_flags. rewrite page_lor by done.
  rewrite baseof_page, hw_base_page by (done || lia). rewrite !has_low by done. done.
Qed.

Lemma entry_store m p i v : entry (store_le 8 m (p + 8 * i) v) p i = u64 v.
Proof. unfold entry, load64. apply load_store_le. Qed.

Lemma entry_store_ne m p i q j v : p + 8 * i + 8 <= q + 8 * j \/ q + 8 * j + 8 <= p + 8 * i ->
  entry (store_le 8 m (p + 8 * i) v) q j = entry m q j.
Proof. intros. apply (load64_store64_ne m (p + 8 * i) (q + 8 * j)). done. Qed.

Section Walk.
Context {St : Type} `{PageSource St}.

Lemma pg_inv_good s L : pg_inv s L -> good L.
Proof. apply pg_valid. Qed.

(** The write of a whole entry of a table that is handed out. *)
Lemma write_entry s O p i v (Q : unit -> St -> Prop) :
  pg_inv s O -> p ∈ O -> 0 <= i < 512 ->
  (forall s', st_mem s' = store_le 8 (st_mem s) (p + 8 * i) v -> pg_inv s' O -> Q tt s') ->
  wp (write_le 8 p (8 * i) v) s Q.
Proof.
  intros Hinv Hp Hi HQ. pose proof (pg_inv_valid _ _ _ Hinv Hp) as [? _]. apply wp_write; [lia|]. apply HQ; [by rewrite st_mem_upd|].
  apply pg_write_le; [done|]. intros x Hx. left. exists p. split; [done|]. unfold pgsize. lia.
Qed.

Lemma zero_entries_spec k s O p i :
  pg_inv s O -> p ∈ O -> 0 <= i -> i + Z.of_nat k <= 512 ->
  wp (zero_entries k p i) s (fun _ s' => pg_inv s' O /\ only_in (inr p pgsize) (st_mem s) (st_mem s') /\
    (forall j, i <= j < i + Z.of_nat k -> entry (st_mem s') p j = 0) /\
    (forall j, 0 <= j < i -> entry (st_mem s') p j = entry (st_mem s) p j)).
Proof.
  intros Hinv Hp. revert s i Hinv. induction k as [|k IH]; intros s i Hinv Hi Hk; cbn [zero_entries].
  - apply wp_ret. split; [done|]. split; [done|]. split; [lia|done].
  - apply wp_bind, (write_entry s O); [done|done|lia|]. intros s1 Es1 Hinv1.
    eapply wp_mono; [apply (IH s1 (i + 1)); [done|lia|lia]|]. intros [] s' (Hinv' & Ho & Hz & Hsame).
    split; [done|]. split; [|split].
    + etrans; [|exact Ho]. rewrite Es1. apply only_in_store; [done|]. intros x Hx. unfold inr, pgsize. lia.
    + intros j Hj. destruct (decide (j = i)) as [->|]; [|apply Hz; lia]. rewrite Hsame by lia. rewrite Es1. apply entry_store.
    + intros j Hj. rewrite Hsame by lia. rewrite Es1. apply entry_store_ne. lia.
Qed.

Lemma pgallocz_spec s O :
  pg_inv s O -> (length O < pg_capacity)%nat ->
  wp pgallocz s (fun q s' => pg_inv s' (q :: O) /\ same_on (client O) (st_mem s) (st_mem s') /\
    forall i, 0 <= i < 512 -> entry (st_mem s') q i = 0).
Proof.
  intros Hinv Hc. unfold pgallocz. apply wp_bind. eapply wp_mono; [by apply pg_alloc_spec|].
  intros q s1 (Hs & Hq & Hne). destruct (Z.eqb_spec q 0) as [->|]; [by destruct Hne|].
  apply wp_bind. eapply wp_mono; [apply (zero_entries_spec _ s1 (q :: O)); [done|left|lia|reflexivity]|].
  intros [] s2 (Hinv2 & Ho & Hz & _). apply wp_ret. split; [done|]. split; [|exact Hz].
  intros x Hx. rewrite Ho; [by apply Hs|]. intros Hr. eapply (fresh_not_client [q] O);
    [by apply (pg_inv_good s1)|exact Hx|]. exists q. split; [left|done].
Qed.

(** A new table in an empty entry. *)
Lemma grow_table kern k m m1 O p i q :
  tree_ok kern (S k) m p O -> good (q :: O) -> ~ kern i -> 0 <= i < 512 -> has PTE_P (entry m p i) = false ->
  same_on (client O) m m1 -> (forall j, 0 <= j < 512 -> entry m1 q j = 0) ->
  let m2 := store_le 8 m1 (p + 8 * i) (q + table_flags) in
  grows kern (S k) m O p m2 [q] /\ has PTE_P (entry m2 p i) = true /\ baseof (entry m2 p i) = q.
Proof.
  intros Ht Hg Hk Hi HP Hs Hz m2.
  assert (valid_page q) as Hq by (destruct Hg as (HF & _); by apply Forall_cons in HF as [? _]).
  assert (p ∈ O) as HpO by (apply Ht, tabs_head).
  assert (valid_page p) as Hp by (destruct Hg as (HF & _); apply Forall_cons in HF as [_ HF]; by eapply Forall_forall in HF).
  destruct (table_entry q Hq) as (_ & Hbase & Hhw & HP' & HW & HU).
  assert (entry m2 p i = q + table_flags) as Ei.
  { unfold m2. rewrite entry_store. apply wrap_small. unfold table_flags. destruct Hq. lia. }
  assert (forall j, 0 <= j < 512 -> entry m2 q j = 0) as Hz2.
  { intros j Hj. unfold m2. rewrite entry_store_ne; [by apply Hz|].
    assert (q <> p) as Hne. { intros ->. by destruct Hg as (_ & [? _]%NoDup_cons & _). }
    destruct (decide (q < p)), Hq as [_ [a ->]%Z.mod_divide], Hp as [_ [b ->]%Z.mod_divide]; unfold pgsize in *; lia. }
  split; [|by rewrite Ei]. apply (node_grows _ _ _ _ _ _ _ i); rewrite ?Ei, ?Hbase; try done.
  - intros x [Hx Hn]. unfold m2. rewrite store_le_outside; [by apply Hs|]. intros Hr. apply Hn. exists p.
    split; [left|unfold pgsize; lia].
  - intros j Hj Hne. unfold m2. rewrite entry_store_ne by lia. apply (entry_frame (client O)); [done| |done].
    intros x Hx. left. by exists p.
  - by apply wf_empty.
  - rewrite tabs_empty by done. unfold sub. by rewrite HP.
  - intros va Hva. cbn [xlate]. rewrite Hva, Ei, HP, HP', Hhw. simpl. by rewrite xlate_empty.
Qed.

(** The tree grows with the tree below an entry. *)
Lemma grow_child kern k m m' O p i new :
  tree_ok kern (S k) m p O -> good (new ++ O) -> ~ kern i -> 0 <= i < 512 -> has PTE_P (entry m p i) = true ->
  grows none k m O (baseof (entry m p i)) m' new ->
  grows kern (S k) m O p m' new /\ forall j, 0 <= j < 512 -> entry m' p j = entry m p j.
Proof.
  intros Ht Hg Hk Hi HP [Htc Htabs Hf Hx _]. pose proof (good_app _ _ Hg) as HgO.
  destruct (wf_child _ _ _ _ _ (tree_wf _ _ _ _ _ Ht) Hk Hi HP) as (HU & HW & Hwf & Esub). rewrite <- Esub in *.
  assert (p ∈ O) as HpO by (apply Ht, tabs_head).
  assert (forall j, 0 <= j < 512 -> entry m' p j = entry m p j) as He.
  { intros j Hj. apply (entry_frame (in_pages [p])); [|intros x Hx'; exists p; split; [left|done]|done].
    intros x Hin. apply Hf. split; [left; destruct Hin as (? & ->%list_elem_of_singleton & ?); by exists p|].
    by eapply child_apart in Hin. }
  split; [|done]. apply (node_grows _ _ _ _ _ _ _ i); rewrite ?He by done; try done.
  - eapply same_on_weaken; [exact Hf|]. intros x [? Hn]. split; [done|]. intros Hin. apply Hn.
    eapply in_pages_sub; [|exact Hin]. by apply list_subseteq_cons.
  - intros j Hj _. by apply He.
  - apply Htc.
  - intros va Hva. cbn [xlate]. rewrite Hva, He, HP by done. simpl negb. cbv iota.
    assert (valid_page (baseof (entry m p i))) as Hv.
    { destruct HgO as (HF & _). rewrite Forall_forall in HF. apply HF, Ht, (sub_incl k m p i Hi). rewrite Esub. apply tabs_head. }
    rewrite hw_base_baseof by (done || apply entry_range). by rewrite Hx by intros [].
Qed.

(** ** The walk *)

Lemma ptwalk_infos_S k cur addr flags :
  ptwalk_from (infos (S k)) cur addr flags =
  (pte ← read_le 8 cur (8 * indexof addr (level_info (S k)));
   next_page ← (if negb (has PTE_P pte) then
                  next_page ← pgallocz;
                  _ ← write_le 8 cur (8 * indexof addr (level_info (S k))) (Z.lor (Z.lor next_page PTE_P) flags);
                  mret next_page
                else mret (baseof pte));
   ptwalk_from (infos k) next_page addr flags).
Proof. by destruct k. Qed.

Lemma wp_read_entry s p i (Q : Z -> St -> Prop) :
  valid_page p -> Q (entry (st_mem s) p i) s -> wp (read_le 8 p (8 * i)) s Q.
Proof. intros [? _] HQ. apply wp_read; [lia|exact HQ]. Qed.

Definition user_flags : Z := Z.lor PTE_W PTE_U.

(** The walk returns the address of the last-level entry and only adds tables. *)
Lemma ptwalk_spec k kern p va s O :
  pg_inv s O -> tree_ok kern k (st_mem s) p O -> ~ kern (idx k va) -> (length O + k <= pg_capacity)%nat ->
  wp (ptwalk_from (infos k) p va user_flags) s (fun r s' => exists new, pg_inv s' (new ++ O) /\
    (length new <= k)%nat /\ grows kern k (st_mem s) O p (st_mem s') new /\ leaf k (st_mem s') p va = Some r).
Proof.
  revert kern p s O. induction k as [|k IH]; intros kern p s O Hinv Ht Hk Hc.
  - simpl infos. cbn [ptwalk_from]. apply wp_ret. exists []. split; [done|]. split; [simpl; lia|]. split; [by apply grows_refl|].
    by rewrite indexof_idx.
  - rewrite ptwalk_infos_S, !indexof_idx. set (i := idx (S k) va) in *. pose proof (idx_range (S k) va) as Hi.
    change (idx (S k) va) with i in Hi. set (m := st_mem s) in *.
    assert (p ∈ O) as HpO by (apply Ht, tabs_head).
    apply wp_bind, wp_read_entry; [by eapply pg_inv_valid|]. fold m.
    (* the walk below a present entry *)
    assert (forall s1 O1, pg_inv s1 O1 -> tree_ok kern (S k) (st_mem s1) p O1 -> (length O1 + k <= pg_capacity)%nat ->
      has PTE_P (entry (st_mem s1) p i) = true ->
      wp (ptwalk_from (infos k) (baseof (entry (st_mem s1) p i)) va user_flags) s1 (fun r s' => exists new,
        pg_inv s' (new ++ O1) /\ (length new <= k)%nat /\ grows kern (S k) (st_mem s1) O1 p (st_mem s') new /\
        leaf (S k) (st_mem s') p va = Some r)) as Hdown.
    { intros s1 O1 Hinv1 Ht1 Hc1 HP. eapply wp_mono; [apply (IH none)|].
      - exact Hinv1.
      - by eapply tree_child.
      - intros [].
      - done.
      - intros r s' (new & Hinv' & Hl & Hg & Hleaf). exists new. split; [done|]. split; [done|].
        destruct (grow_child _ _ _ _ _ _ _ _ Ht1 (pg_inv_good _ _ Hinv') Hk Hi HP Hg) as [Hgr He]. split; [done|].
        cbn [leaf]. fold i. by rewrite He, HP by done. }
    destruct (has PTE_P (entry m p i)) eqn:HP; simpl negb; cbv iota.
    + apply wp_bind, wp_ret. eapply wp_mono; [apply (Hdown s O); [done|done|lia|done]|].
      intros r s' (new & ? & ? & ? & ?). exists new. split; [done|]. split; [lia|done].
    + apply wp_bind, wp_bind. eapply wp_mono; [apply (pgallocz_spec s O); [done|lia]|].
      intros q s1 (Hinv1 & Hs1 & Hz). pose proof (pg_inv_valid _ _ q Hinv1 ltac:(left)) as Hq.
      apply wp_bind. apply (write_entry s1 (q :: O)); [done|by right|done|]. intros s2 Em2 Hinv2. apply wp_ret.
      unfold user_flags in Em2. rewrite (proj1 (table_entry q Hq)) in Em2.
      destruct (grow_table kern k m (st_mem s1) O p i q Ht (pg_inv_good _ _ Hinv1) Hk Hi HP Hs1 Hz) as (Hg & HP2 & Hb).
      rewrite <- Em2 in *. rewrite <- Hb. eapply wp_mono; [apply (Hdown s2 (q :: O)); [done|apply Hg|simpl; lia|done]|].
      intros r s' (new & Hinv' & Hl & Hgr & Hleaf). exists (new ++ [q]). rewrite <- (assoc_L app). simpl.
      split; [done|]. split; [rewrite length_app; simpl; lia|]. split; [|done].
      apply (grows_trans _ _ _ _ _ (st_mem s2)); [by eapply pg_inv_good|done|done].
Qed.

(** Once the tables are there, the walk finds the entry again and changes nothing. *)
Lemma ptwalk_found k kern p va s O r :
  pg_inv s O -> tree_ok kern k (st_mem s) p O -> ~ kern (idx k va) -> leaf k (st_mem s) p va = Some r ->
  ptwalk_from (infos k) p va user_flags s = Done r s.
Proof.
  revert kern p. induction k as [|k IH]; intros kern p Hinv Ht Hk Hr.
  - simpl in Hr. injection Hr as <-. cbn [ptwalk_from infos]. by rewrite indexof_idx.
  - rewrite ptwalk_infos_S, !indexof_idx. cbn [leaf] in Hr. destruct (has PTE_P _) eqn:HP; [|done].
    assert (valid_page p) as [? _] by (eapply pg_inv_valid; [done|apply Ht, tabs_head]).
    unfold mbind, M_bind, read_le. destruct (Z.eqb_spec p 0); [lia|]. unfold gets. fold (entry (st_mem s) p (idx (S k) va)).
    fold (load64 (st_mem s) (p + 8 * idx (S k) va)). fold (entry (st_mem s) p (idx (S k) va)). rewrite HP. simpl negb. cbv iota.
    unfold mret, M_ret. apply (IH none); [done| |by intros []|done].
    eapply tree_child; [done|done|apply idx_range|done].
Qed.
End Walk.
