(* ===== verification/VmeMap.v ===== *)
(** * [map], [protect] and [unprotect] of vme.c against translations *)

From stdpp Require Import prelude.
From S2P Require Import Prelude Mem X86 Cte Trm Pages Vme VmeSpec VmeWalk.

(** ** Writing a last-level entry *)

(** The two addresses use the same entry of a tree of [k] levels. *)
Fixpoint same_path (k : nat) (va va' : Z) : bool :=
  (idx k va =? idx k va') && match k with O => true | S k => same_path k va va' end.

(** The translation a last-level entry gives. *)
Definition page_of (e : Z) : option (Z * bool * bool) :=
  if has PTE_P e then Some (hw_base e, has PTE_W e, has PTE_U e) else None.

Section SetLeaf.
Context {St : Type} `{PageSource St}.

Lemma leaf_table k kern m p va r O :
  tree_ok kern k m p O -> ~ kern (idx k va) -> leaf k m p va = Some r ->
  exists q, q ∈ tabs k m p /\ r = q + 8 * idx 0 va.
Proof.
  revert kern p. induction k as [|k IH]; intros kern p Ht Hk Hr.
  - injection Hr as <-. exists p. split; [apply tabs_head|done].
  - cbn [leaf] in Hr. destruct (has PTE_P _) eqn:HP; [|done]. pose proof (idx_range (S k) va) as Hi.
    destruct (wf_child _ _ _ _ _ (tree_wf _ _ _ _ _ Ht) Hk Hi HP) as (_ & _ & _ & Esub).
    destruct (IH none _ (tree_child _ _ _ _ _ _ Ht Hk Hi HP)) as (q & Hq & ->); [by intros []|done|].
    exists q. split; [|done]. apply (sub_incl k m p _ Hi). by rewrite Esub.
Qed.

Record leaf_set (kern : Z -> Prop) (k : nat) (m : mem) (p va r v : Z) (O : list Z) (m' : mem) : Prop := {
  ls_tree : tree_ok kern k m' p O;
  ls_tabs : tabs k m' p ≡ₚ tabs k m p;
  ls_leaf : leaf k m' p va = Some r;
  ls_kern : forall j, kern j -> 0 <= j < 512 -> entry m' p j = entry m p j;
  ls_xlate : forall va', ~ kern (idx k va') ->
    xlate k m' p va' = if same_path k va va' then page_of v else xlate k m p va';
}.

Lemma set_leaf k kern m p va r v O :
  tree_ok kern k m p O -> good O -> ~ kern (idx k va) -> leaf k m p va = Some r -> 0 <= v < 2 ^ 64 ->
  leaf_set kern k m p va r v O (store_le 8 m r v).
Proof.
  intros Ht Hg Hk Hr Hv. revert kern p Ht Hk Hr. induction k as [|k IH]; intros kern p Ht Hk Hr.
  - injection Hr as <-. split; [split; [done|by apply Ht..]|done|done| |].
    + intros j Hj Hjr. apply entry_store_ne. assert (j <> idx 0 va) by (by intros ->). lia.
    + intros va' _. cbn [xlate same_path]. rewrite andb_true_r. unfold page_of. destruct (Z.eqb_spec (idx 0 va) (idx 0 va')) as [<-|Hne].
      * rewrite entry_store. unfold wrap. rewrite (Z.mod_small v) by done. by destruct (has PTE_P v).
      * by rewrite entry_store_ne by lia.
  - pose proof (idx_range (S k) va) as Hi. destruct (leaf_table _ _ _ _ _ _ _ Ht Hk Hr) as (q & _ & Eq).
    cbn [leaf] in Hr. destruct (has PTE_P _) eqn:HP; [|done]. set (i := idx (S k) va) in *.
    destruct (wf_child _ _ _ _ _ (tree_wf _ _ _ _ _ Ht) Hk Hi HP) as (HU & HW & _ & Esub).
    pose proof (tree_child _ _ _ _ _ _ Ht Hk Hi HP) as Htc.
    destruct (leaf_table _ _ _ _ _ _ _ Htc ltac:(by intros []) Hr) as (q' & Hq' & ->). clear q Eq.
    destruct (IH none _ Htc ltac:(by intros []) Hr) as [Ht' Htabs Hleaf _ Hx]. set (m' := store_le 8 m _ v) in *.
    assert (forall x, ~ in_pages (sub k m p i) x -> load8 m' x = load8 m x) as Hout.
    { intros x Hx'. apply store_le_outside. intros Hr'. apply Hx'. rewrite Esub. exists q'. split; [done|].
      pose proof (idx_range 0 va). unfold pgsize. lia. }
    assert (forall j, 0 <= j < 512 -> entry m' p j = entry m p j) as He.
    { intros j Hj. apply (entry_frame (in_pages [p])); [|intros x Hx'; exists p; split; [left|done]|done].
      intros x Hin. apply Hout. eapply child_apart in Hin; [exact Hin|done|done|done]. }
    destruct (node_tree kern k m O p m' [] i) as (Ht1 & Hperm & Hx1); rewrite ?He by done; try done.
    + intros x [_ Hn]. apply Hout. intros Hin. apply Hn. eapply in_pages_sub; [|exact Hin]. by apply list_subseteq_cons.
    + intros j Hj _. by apply He.
    + apply Ht'.
    + by rewrite Esub.
    + split; [done|done| |by intros; apply He|].
      * cbn [leaf]. fold i. by rewrite He, HP by done.
      * intros va' Hva'. cbn [same_path]. fold i. destruct (Z.eqb_spec i (idx (S k) va')) as [Ei|Hne]; [|by apply Hx1].
        assert (valid_page (baseof (entry m p i))) as Hvb.
        { destruct Hg as (HF & _). rewrite Forall_forall in HF. apply HF, Ht, (sub_incl k m p i Hi). rewrite Esub. apply tabs_head. }
        simpl andb. cbn [xlate]. rewrite <- Ei, He, HP by done. simpl negb. cbv iota.
        rewrite hw_base_baseof by (done || apply entry_range). rewrite Hx by intros []. rewrite HU, HW.
        destruct (same_path k va va'); [|done]. unfold page_of. by destruct (has PTE_P v).
Qed.
End SetLeaf.

(** ** Address spaces *)

(** The last-level entry decides the translation, all others grant everything. *)
Lemma leaf_xlate k kern m p va r O :
  tree_ok kern k m p O -> Forall valid_page O -> ~ kern (idx k va) -> leaf k m p va = Some r ->
  xlate k m p va = page_of (load64 m r).
Proof.
  intros Ht Hv Hk Hr. revert kern p Ht Hk Hr. induction k as [|k IH]; intros kern p Ht Hk Hr.
  - injection Hr as <-. cbn [xlate]. unfold page_of. fold (entry m p (idx 0 va)). by destruct (has PTE_P _).
  - cbn [leaf] in Hr. destruct (has PTE_P _) eqn:HP; [|done]. pose proof (idx_range (S k) va) as Hi.
    destruct (wf_child _ _ _ _ _ (tree_wf _ _ _ _ _ Ht) Hk Hi HP) as (HU & HW & _ & Esub).
    pose proof (tree_child _ _ _ _ _ _ Ht Hk Hi HP) as Htc. cbn [xlate]. rewrite HP. simpl negb. cbv iota.
    rewrite hw_base_baseof; [|apply entry_range|]; [|rewrite Forall_forall in Hv; apply Hv, Htc, tabs_head].
    rewrite (IH none _ Htc ltac:(by intros []) Hr), HU, HW. unfold page_of. by destruct (has PTE_P (load64 m r)).
Qed.

(** The index of the kernel's entry of a root. *)
Definition kernel_entry : Z -> Prop := fun i => i = 0.

Definition in_user (va : Z) : Prop := uvm_area.1 <= va < uvm_area.2.

Lemma user_idx va : in_user va -> idx 3 va = 32.
Proof. unfold in_user, idx. simpl. intros ?. change (2 ^ (12 + 9 * 3)) with 549755813888. zdm. Qed.

Lemma user_not_kernel va : in_user va -> ~ kernel_entry (idx 3 va).
Proof. intros Hu. rewrite user_idx by done. done. Qed.

Lemma same_path_page va va' : in_user va -> in_user va' -> same_path 3 va va' = (va' / pgsize =? va / pgsize).
Proof.
  intros Hu Hu'. pose proof (user_idx va Hu) as H3. pose proof (user_idx va' Hu') as H3'. cbn [same_path]. rewrite H3, H3'.
  unfold in_user in *. simpl in Hu, Hu'. apply eq_bool_prop_intro. rewrite andb_True. unfold idx, pgsize in *.
  change (2 ^ (12 + 9 * Z.of_nat 3)) with 549755813888 in *. change (2 ^ (12 + 9 * Z.of_nat 2)) with 1073741824.
  change (2 ^ (12 + 9 * Z.of_nat 1)) with 2097152. change (2 ^ (12 + 9 * Z.of_nat 0)) with 4096.
  rewrite !andb_True, !Is_true_true, !Z.eqb_eq. split; [intros (_ & ? & ? & ? & _)|intros E].
  - zdm.
  - split; [done|]. assert (va / 1073741824 = va' / 1073741824) as -> by zdm.
    assert (va / 2097152 = va' / 2097152) as -> by zdm. by rewrite E.
Qed.

Section AddrSpace.
Context {St : Type} `{PageSource St}.

(** The address space at [as_]: its root, what its root says of the kernel, and the pages
    that are handed out. *)
Record as_ok (s : St) (as_ root kent : Z) (O : list Z) : Prop := {
  as_inv : pg_inv s O;
  as_pos : 0 < as_;
  as_apart : forall x, as_ + off_ptr <= x < as_ + off_ptr + 8 -> ~ pg_arena x;
  as_ptr : load64 (st_mem s) (as_ + off_ptr) = root + 5;
  as_tree : tree_ok kernel_entry 3 (st_mem s) root O;
  as_kent : entry (st_mem s) root 0 = kent;
}.

(** What the processor translates [va] to when the address space is active. *)
Definition utrans (s : St) (as_ va : Z) : option (Z * bool * bool) :=
  hw_translate (st_mem s) (load64 (st_mem s) (as_ + off_ptr)) va.

Lemma as_root s as_ root kent O : as_ok s as_ root kent O -> valid_page root.
Proof. intros Has. eapply pg_inv_valid; [apply Has|]. apply (as_tree _ _ _ _ _ Has), tabs_head. Qed.

Lemma utrans_xlate s as_ root kent O va : as_ok s as_ root kent O -> utrans s as_ va = xlate 3 (st_mem s) root va.
Proof.
  intros Has. unfold utrans, hw_translate. rewrite (as_ptr _ _ _ _ _ Has). destruct (as_root _ _ _ _ _ Has).
  rewrite hw_base_page; [done|lia|done|done].
Qed.

Lemma ptwalk_root s as_ root kent O va :
  as_ok s as_ root kent O -> ptwalk as_ va user_flags s = ptwalk_from (infos 3) root va user_flags s.
Proof.
  intros Has. pose proof (as_root _ _ _ _ _ Has) as Hr. unfold ptwalk. rewrite pgtables_infos.
  assert (forall c l, ptwalk_from (mk_ptinfo 0 0 0 :: infos 3) c va l = (pte ← read_le 8 c (8 * 0);
    next_page ← (if negb (has PTE_P pte) then
                   next_page ← pgallocz; _ ← write_le 8 c (8 * 0) (Z.lor (Z.lor next_page PTE_P) l); mret next_page
                 else mret (baseof pte));
    ptwalk_from (infos 3) next_page va l)) as ->.
  { intros c l. assert (indexof va (mk_ptinfo 0 0 0) = 0) as E by (unfold indexof; simpl; by rewrite Z.land_0_r).
    change (infos 3) with (level_info 3 :: infos 2). cbn [ptwalk_from]. by rewrite E. }
  pose proof (as_pos _ _ _ _ _ Has). pose proof (as_ptr _ _ _ _ _ Has) as Hp. unfold mbind, M_bind, read_le, gets.
  destruct (Z.eqb_spec (as_ + off_ptr) 0) as [E|]; [unfold off_ptr in E; lia|]. rewrite Z.add_0_r. unfold load64 in Hp.
  rewrite Hp. destruct Hr as [? Hm]. rewrite has_low by done. change (negb (has PTE_P 5)) with false. cbv iota.
  unfold mret, M_ret. by rewrite baseof_page by done.
Qed.

(** A change inside the tables leaves the address space in order. *)
Lemma as_ok_change s s' as_ root kent O O' :
  as_ok s as_ root kent O -> pg_inv s' O' -> tree_ok kernel_entry 3 (st_mem s') root O' ->
  entry (st_mem s') root 0 = kent -> same_on (fun x => ~ pg_arena x) (st_mem s) (st_mem s') ->
  as_ok s' as_ root kent O'.
Proof.
  intros [? ? Ha Hp ? ?] Hinv Ht Hk Hs. split; try done. rewrite <- Hp. eapply same_on_load; [exact Hs|].
  intros x Hx. apply Ha. lia.
Qed.
End AddrSpace.

(** ** [map] *)

(** What [map] does to the translations of user addresses; [None] is a panic. *)
Definition map_abs (T : Z -> option (Z * bool * bool)) (va pa prot : Z) : option (Z -> option (Z * bool * bool)) :=
  if negb ((uvm_area.1 <=? va) && (va <? uvm_area.2)) || negb (va mod pgsize =? 0) || negb (pa mod pgsize =? 0) then None
  else match prot =? MMAP_NONE, T va with
       | true, None | false, Some _ => None
       | true, Some _ => Some (fun va' => if va' / pgsize =? va / pgsize then None else T va')
       | false, None => Some (fun va' => if va' / pgsize =? va / pgsize then Some (pa, has MMAP_WRITE prot, true) else T va')
       end.

Lemma rounddown_aligned a : 0 <= a < 2 ^ 64 -> (a =? ROUNDDOWN a pgsize) = (a mod pgsize =? 0).
Proof.
  intros Ha. unfold ROUNDDOWN. rewrite (wrap_small 64 a) by done. fold (baseof a). rewrite baseof_eq by done.
  pose proof (Z.mod_pos_bound a pgsize ltac:(done)).
  destruct (Z.eqb_spec (a mod pgsize) 0); apply Z.eqb_eq || apply Z.eqb_neq; lia.
Qed.

Lemma map_entry pa prot :
  0 <= pa < 2 ^ 52 -> pa mod pgsize = 0 ->
  let e := Z.lor (Z.lor (Z.lor pa PTE_P) PTE_U) (if has MMAP_WRITE prot then PTE_W else 0) in
  0 <= e < 2 ^ 64 /\ page_of e = Some (pa, has MMAP_WRITE prot, true).
Proof.
  intros Hp Hm e. set (f := Z.lor (Z.lor PTE_P PTE_U) (if has MMAP_WRITE prot then PTE_W else 0)).
  assert (flag_ok f) as Hf by (unfold f; by destruct (has MMAP_WRITE prot)).
  assert (e = pa + f) as ->. { unfold e, f. by rewrite <- page_lor, !Z.lor_assoc by done. }
  split; [unfold flag_ok, pgsize in Hf; lia|]. unfold page_of. rewrite !has_low, hw_base_page by done.
  unfold f. by destruct (has MMAP_WRITE prot).
Qed.

Section Map.
Context {St : Type} `{PageSource St}.

(** Memory in use that is not in the tables of the tree at [root] stays as it is. *)
Definition apart_same (O : list Z) (root : Z) (s s' : St) : Prop :=
  same_on (fun x => client O x /\ ~ in_pages (tabs 3 (st_mem s) root) x) (st_mem s) (st_mem s').

(** A walk that adds the tables [new], and a change of these or of the older tables. *)
Lemma apart_same_only O root new s s1 s2 :
  good (new ++ O) -> tabs 3 (st_mem s1) root ≡ₚ new ++ tabs 3 (st_mem s) root -> apart_same O root s s1 ->
  only_in (in_pages (tabs 3 (st_mem s1) root)) (st_mem s1) (st_mem s2) -> apart_same O root s s2.
Proof.
  intros Hg Htabs Hs Ho x [Hc Hx]. rewrite Ho; [by apply Hs|]. intros (q & Hq & Hqx). rewrite Htabs in Hq.
  apply elem_of_app in Hq as [Hq|Hq]; [|apply Hx; by exists q]. eapply fresh_not_client; [exact Hg|exact Hc|by exists q].
Qed.

(** Line 144, and what follows once the entry is known. *)
Lemma map_walk s as_ root kent O va (Q : Z -> St -> Prop) :
  as_ok s as_ root kent O -> (length O + 3 <= pg_capacity)%nat -> in_user va ->
  (forall r s' new, as_ok s' as_ root kent (new ++ O) -> (length new <= 3)%nat -> leaf 3 (st_mem s') root va = Some r ->
    tabs 3 (st_mem s') root ≡ₚ new ++ tabs 3 (st_mem s) root ->
    (forall va', in_user va' -> utrans s' as_ va' = utrans s as_ va') -> apart_same O root s s' -> Q r s') ->
  wp (ptwalk as_ va user_flags) s Q.
Proof.
  intros Has Hc Hu HQ. pose proof (user_not_kernel va Hu) as Hk.
  apply wp_done. rewrite (ptwalk_root _ _ _ _ _ _ Has).
  pose proof (ptwalk_spec 3 kernel_entry root va s O (as_inv _ _ _ _ _ Has) (as_tree _ _ _ _ _ Has) Hk Hc) as Hw.
  apply wp_done in Hw as (r & s' & E & new & Hinv & Hl & [Ht Htabs Hf Hx Hke] & Hr).
  exists r, s'. split; [exact E|]. clear E.
  assert (as_ok s' as_ root kent (new ++ O)) as Has'.
  { apply (as_ok_change s _ _ _ _ O); try done.
    - rewrite Hke by done. apply Has.
    - intros x Hn. apply Hf. split; [by right|]. intros Hin. apply Hn. pose proof (pg_inv_good _ _ Hinv) as (_ & _ & Ha).
      apply Ha. eapply in_pages_sub; [|exact Hin]. etrans; [apply (as_tree _ _ _ _ _ Has)|]. by apply list_subseteq_app_r. }
  apply (HQ r s' new); [done..| |exact Hf]. intros va' Hu'.
  rewrite (utrans_xlate _ _ _ _ _ _ Has), (utrans_xlate _ _ _ _ _ _ Has'). by apply Hx, user_not_kernel.
Qed.

(** The write of the entry [v] at [r], and the walk after it. *)
Lemma map_write s as_ root kent O va r v (Q : unit -> St -> Prop) :
  as_ok s as_ root kent O -> in_user va -> leaf 3 (st_mem s) root va = Some r -> 0 <= v < 2 ^ 64 ->
  (forall s', as_ok s' as_ root kent O -> tabs 3 (st_mem s') root ≡ₚ tabs 3 (st_mem s) root ->
    (forall va', in_user va' -> utrans s' as_ va' = if va' / pgsize =? va / pgsize then page_of v else utrans s as_ va') ->
    only_in (in_pages (tabs 3 (st_mem s) root)) (st_mem s) (st_mem s') -> Q tt s') ->
  wp (_ ← write_le 8 r 0 v; _ ← ptwalk as_ va user_flags; mret tt) s Q.
Proof.
  intros Has Hu Hr Hv HQ. pose proof (user_not_kernel va Hu) as Hk. pose proof (as_tree _ _ _ _ _ Has) as Ht.
  pose proof (pg_inv_good _ _ (as_inv _ _ _ _ _ Has)) as Hg.
  destruct (leaf_table _ _ _ _ _ _ _ Ht Hk Hr) as (q & Hqt & Er). pose proof (tree_in _ _ _ _ _ Ht q Hqt) as Hq.
  assert (valid_page q) as [? _] by (eapply pg_inv_valid; [apply Has|done]). pose proof (idx_range 0 va) as Hi.
  apply wp_bind, wp_write; [lia|]. set (s1 := st_upd _ s).
  assert (st_mem s1 = store_le 8 (st_mem s) r v) as Em by (unfold s1; rewrite st_mem_upd; by rewrite Z.add_0_r).
  destruct (set_leaf 3 kernel_entry (st_mem s) root va r v O Ht Hg Hk Hr Hv) as [Ht1 Htabs Hl1 Hke Hx]. rewrite <- Em in *.
  assert (pg_inv s1 O) as Hinv1.
  { apply pg_write_le; [apply Has|]. intros x Hx'. left. exists q. split; [done|]. unfold pgsize. lia. }
  assert (as_ok s1 as_ root kent O) as Has1.
  { apply (as_ok_change s _ _ _ _ O); try done; [rewrite Hke by done; apply Has|]. intros x Hn. rewrite Em.
    apply store_le_outside. intros Hx'. apply Hn. destruct Hg as (_ & _ & Ha). apply Ha. exists q. split; [done|].
    unfold pgsize. lia. }
  apply wp_bind. eapply wp_eq; [rewrite (ptwalk_root _ _ _ _ _ _ Has1); by eapply ptwalk_found|]. apply wp_ret, HQ; [done|done| |].
  - intros va' Hu'. rewrite (utrans_xlate _ _ _ _ _ _ Has1), (utrans_xlate _ _ _ _ _ _ Has), Hx by (by apply user_not_kernel).
    by rewrite same_path_page.
  - intros x Hx'. rewrite Em. apply store_le_outside. intros Hin. apply Hx'. exists q. split; [done|]. unfold pgsize. lia.
Qed.
End Map.

Section MapSpec.
Context {St : Type} `{PageSource St}.

Lemma map_rejects as_ va pa prot (s : St) T :
  0 <= va < 2 ^ 64 -> 0 <= pa < 2 ^ 64 ->
  negb ((uvm_area.1 <=? va) && (va <? uvm_area.2)) || negb (va mod pgsize =? 0) || negb (pa mod pgsize =? 0) = true ->
  map_abs T va pa prot = None /\ map as_ va pa prot s = Fault Panic.
Proof.
  intros Hva Hpa Hbad. unfold map_abs, map. rewrite Hbad, !rounddown_aligned by done. split; [done|].
  destruct (negb ((uvm_area.1 <=? va) && _)); [done|]. simpl in Hbad. by rewrite Hbad.
Qed.

(** The entry found by the walk tells if the page is mapped. *)
Lemma map_present s as_ root kent O va r :
  as_ok s as_ root kent O -> in_user va -> leaf 3 (st_mem s) root va = Some r ->
  read_le 8 r 0 s = Done (load64 (st_mem s) r) s /\ utrans s as_ va = page_of (load64 (st_mem s) r).
Proof.
  intros Has Hu Hr. pose proof (user_not_kernel va Hu) as Hk. pose proof (as_tree _ _ _ _ _ Has) as Ht.
  destruct (leaf_table _ _ _ _ _ _ _ Ht Hk Hr) as (q & Hq%Ht & Er).
  assert (valid_page q) as [? _] by (eapply pg_inv_valid; [apply Has|done]). pose proof (idx_range 0 va) as Hi. split.
  - unfold read_le. destruct (Z.eqb_spec r 0); [lia|]. unfold gets. by rewrite Z.add_0_r.
  - rewrite (utrans_xlate _ _ _ _ _ _ Has). eapply leaf_xlate; [exact Ht| |exact Hk|exact Hr].
    by destruct (pg_inv_good _ _ (as_inv _ _ _ _ _ Has)) as (? & _).
Qed.

Lemma page_of_present e : has PTE_P e = match page_of e with Some _ => true | None => false end.
Proof. unfold page_of. by destruct (has PTE_P e). Qed.

(** The walk and the read of the entry it finds. *)
Lemma map_found s as_ root kent O va (Q : Z -> St -> Prop) :
  as_ok s as_ root kent O -> (length O + 3 <= pg_capacity)%nat -> in_user va ->
  (forall r e s' new, as_ok s' as_ root kent (new ++ O) -> (length new <= 3)%nat -> leaf 3 (st_mem s') root va = Some r ->
    read_le 8 r 0 s' = Done e s' -> utrans s as_ va = page_of e ->
    tabs 3 (st_mem s') root ≡ₚ new ++ tabs 3 (st_mem s) root ->
    (forall va', in_user va' -> utrans s' as_ va' = utrans s as_ va') -> apart_same O root s s' -> Q r s') ->
  wp (ptwalk as_ va user_flags) s Q.
Proof.
  intros Has Hc Hu HQ. apply (map_walk s as_ root kent O va); try done. intros r s1 new Has1 Hl Hr Htabs Htr Hf.
  destruct (map_present _ _ _ _ _ _ _ Has1 Hu Hr) as [Hread Hpg]. eapply HQ; [done|exact Hl|done|done| |done|done|done]. by rewrite <- Htr.
Qed.

(** C19: [map] does to the translations of user addresses what [map_abs] says, and keeps the
    address space in order, as long as three pages are left for tables: a page becomes
    mapped to the frame it is given, writable if asked for and open to the user, or
    unmapped, and no other page changes. The memory of other pages in use and outside the
    allocator's stays as it is. Everything else is a panic: addresses outside the
    user area or not aligned, mapping what is mapped, unmapping what is not. *)
Theorem map_refines s as_ root kent O va pa prot :
  as_ok s as_ root kent O -> (length O + 3 <= pg_capacity)%nat -> 0 <= va < 2 ^ 64 -> 0 <= pa < 2 ^ 52 ->
  match map_abs (utrans s as_) va pa prot with
  | None => map as_ va pa prot s = Fault Panic
  | Some T => wp (map as_ va pa prot) s (fun _ s' => exists new, as_ok s' as_ root kent (new ++ O) /\ (length new <= 3)%nat /\
      tabs 3 (st_mem s') root ≡ₚ new ++ tabs 3 (st_mem s) root /\ apart_same O root s s' /\
      forall va', in_user va' -> utrans s' as_ va' = T va')
  end.
Proof.
  intros Has Hc Hva Hpa.
  destruct (negb ((uvm_area.1 <=? va) && (va <? uvm_area.2)) || negb (va mod pgsize =? 0) || negb (pa mod pgsize =? 0)) eqn:Hbad.
  { destruct (map_rejects as_ va pa prot s (utrans s as_) Hva ltac:(lia) Hbad) as [-> ?]. done. }
  unfold map_abs, map. rewrite Hbad, !rounddown_aligned by lia. apply orb_false_iff in Hbad as [[Hin Hma]%orb_false_iff Hmp].
  rewrite Hin, Hma, Hmp. simpl orb. cbv iota.
  apply negb_false_iff, andb_true_iff in Hin as [?%Z.leb_le ?%Z.ltb_lt]. assert (in_user va) as Hu by done.
  apply negb_false_iff, Z.eqb_eq in Hmp.
  destruct (prot =? MMAP_NONE) eqn:Ep; destruct (utrans s as_ va) as [t|] eqn:ET.
  - apply wp_bind, (map_found s as_ root kent O va); try done. intros r e s1 new Has1 Hlen Hr Hread Hpg Htabs Htr Hf.
    apply wp_bind, wp_bind. eapply wp_eq; [exact Hread|]. rewrite (page_of_present e), <- Hpg, ET. simpl negb. cbv iota.
    apply wp_bind_inv, (map_write s1 as_ root kent (new ++ O) va r 0); try done. intros s2 Has2 Htabs2 Htr2 Ho.
    exists new. split; [done|]. split; [exact Hlen|]. split; [by rewrite Htabs2|].
    split; [by apply (apart_same_only O root new s s1 s2); [apply pg_inv_good with s1, Has1|..]|]. intros va' Hu'. rewrite Htr2, Htr by done. done.
  - eapply (fault_bind _ _ _ (fun r s1 => exists e, read_le 8 r 0 s1 = Done e s1 /\ utrans s as_ va = page_of e)).
    + apply (map_found s as_ root kent O va); try done. eauto.
    + intros r s1 (e & Hread & Hpg). unfold mbind, M_bind. by rewrite Hread, (page_of_present e), <- Hpg, ET.
  - eapply (fault_bind _ _ _ (fun r s1 => exists e, read_le 8 r 0 s1 = Done e s1 /\ utrans s as_ va = page_of e)).
    + apply (map_found s as_ root kent O va); try done. eauto.
    + intros r s1 (e & Hread & Hpg). unfold mbind, M_bind. by rewrite Hread, (page_of_present e), <- Hpg, ET.
  - apply wp_bind, (map_found s as_ root kent O va); try done. intros r e s1 new Has1 Hlen Hr Hread Hpg Htabs Htr Hf.
    apply wp_bind, wp_bind. eapply wp_eq; [exact Hread|]. rewrite (page_of_present e), <- Hpg, ET. cbv iota.
    destruct (map_entry pa prot Hpa Hmp) as [Hv Hpage]. rewrite <- Hpage.
    apply wp_bind_inv, (map_write s1 as_ root kent (new ++ O) va r); try done. intros s2 Has2 Htabs2 Htr2 Ho.
    exists new. split; [done|]. split; [exact Hlen|]. split; [by rewrite Htabs2|].
    split; [by apply (apart_same_only O root new s s1 s2); [apply pg_inv_good with s1, Has1|..]|]. intros va' Hu'. rewrite Htr2, Htr by done. done.
Qed.
End MapSpec.
