(* ===== verification/VmeSpace.v ===== *)
(** * The life of an address space: [protect], [unprotect], [ucontext] *)

From stdpp Require Import prelude.
From S2P Require Import Prelude Mem X86 Cte Trm Pages Vme VmeSpec VmeWalk VmeMap.

(** ** [unprotect] *)

Section Teardown.
Context {St : Type} `{PageSource St}.

(** The tables below the entries from [i] on. *)
Definition subs (k : nat) (m : mem) (p i : Z) (n : nat) : list Z := concat (sub k m p <$> seqZ i (Z.of_nat n)).

Lemma subs_S k m p i n : subs k m p i (S n) = sub k m p i ++ subs k m p (i + 1) n.
Proof.
  unfold subs. rewrite seqZ_cons by lia. rewrite fmap_cons. simpl. f_equal. f_equal. f_equal.
  by rewrite <- Z.add_1_r, Z.add_0_r || (f_equal; lia).
Qed.

Lemma subs_frame k m m' p i n :
  same_on (in_pages (p :: subs k m p i n)) m m' -> 0 <= i -> i + Z.of_nat n <= 512 ->
  subs k m' p i n = subs k m p i n.
Proof.
  revert i. induction n as [|n IH]; intros i Hs Hi Hn; [done|]. rewrite !subs_S in *. rewrite IH; [|..|lia|lia].
  - f_equal. apply sub_frame; [apply (entry_frame_in m m' _ _ _ Hs); [left|lia]|].
    eapply same_on_incl; [exact Hs|]. intros q Hq. right. apply elem_of_app. by left.
  - eapply same_on_incl; [exact Hs|]. intros q [->|Hq]%elem_of_cons; [left|right; apply elem_of_app; by right].
Qed.

(** What the loop does when [next] gives back the tables of a subtree. *)
Lemma teardown_entries_spec k p rest next n s i :
  (forall q s rest, pg_inv s (tabs k (st_mem s) q ++ rest) ->
    wp (next q) s (fun _ s' => pg_inv s' rest /\ same_on (client rest) (st_mem s) (st_mem s'))) ->
  pg_inv s (p :: subs k (st_mem s) p i n ++ rest) -> 0 <= i -> i + Z.of_nat n <= 512 ->
  wp (teardown_entries next n p i) s (fun _ s' => pg_inv s' (p :: rest) /\ same_on (client (p :: rest)) (st_mem s) (st_mem s')).
Proof.
  intros Hnext. revert s i. induction n as [|n IH]; intros s i Hinv Hi Hn; cbn [teardown_entries].
  - apply wp_ret. unfold subs in Hinv. simpl in Hinv. done.
  - rewrite subs_S, <- (assoc_L app) in Hinv.
    apply wp_bind, wp_read_entry; [by eapply pg_inv_valid; [|left]|].
    set (m := st_mem s) in *. apply wp_bind.
    eapply (wp_mono _ _ (fun _ s1 => pg_inv s1 (p :: subs k m p (i + 1) n ++ rest) /\
      same_on (client (p :: subs k m p (i + 1) n ++ rest)) m (st_mem s1))).
    + unfold sub in Hinv at 1. destruct (has PTE_P (entry m p i) && has PTE_U (entry m p i)); [|by apply wp_ret].
      apply Hnext. eapply pg_perm; [|exact Hinv]. by rewrite Permutation_middle.
    + intros [] s1 [Hinv1 Hs1]. eapply wp_mono; [apply (IH s1 (i + 1)); [|lia|lia]|].
      * rewrite (subs_frame k m); [done| |lia|lia]. eapply same_on_weaken; [exact Hs1|]. intros x Hx. left.
        eapply in_pages_sub; [|exact Hx]. intros q [->|Hq]%elem_of_cons; [left|right; apply elem_of_app; by left].
      * intros [] s2 [Hinv2 Hs2]. split; [done|]. intros x Hx. rewrite Hs2 by done. apply Hs1.
        destruct Hx as [Hx|]; [left|by right]. eapply in_pages_sub; [|exact Hx].
        intros q [->|Hq]%elem_of_cons; [left|right; apply elem_of_app; by right].
Qed.

(** At the last level the loop reads the entries and leaves the pages they lead to alone. *)
Lemma teardown_leaf_spec p L s n i :
  pg_inv s (p :: L) -> 0 <= i -> i + Z.of_nat n <= 512 ->
  wp (teardown_entries (fun _ => mret tt) n p i) s (fun _ s' => s' = s).
Proof.
  revert i. induction n as [|n IH]; intros i Hinv Hi Hn; cbn [teardown_entries]; [by apply wp_ret|].
  apply wp_bind, wp_read_entry; [by eapply pg_inv_valid; [|left]|]. apply wp_bind.
  eapply (wp_mono _ _ (fun _ s' => s' = s)); [by destruct (has PTE_P _ && _); apply wp_ret|]. intros [] s' ->. apply IH; [done|lia|lia].
Qed.

Lemma teardown_spec k lvl p s rest :
  pg_inv s (tabs k (st_mem s) p ++ rest) ->
  wp (teardown_from (infos k) (S lvl) p) s (fun _ s' => pg_inv s' rest /\ same_on (client rest) (st_mem s) (st_mem s')).
Proof.
  revert lvl p s rest. induction k as [|k IH]; intros lvl p s rest Hinv.
  - cbn [infos teardown_from]. simpl pt_bits. change (Z.to_nat (Z.shiftl 1 9)) with 512%nat. apply wp_bind.
    eapply wp_mono; [apply (teardown_leaf_spec p rest); [exact Hinv|lia|lia]|]. intros [] s' ->. simpl Nat.leb. cbv iota.
    eapply wp_mono; [exact (pg_free_spec _ rest p Hinv)|]. intros [] s' [? ?]. done.
  - cbn [infos teardown_from]. simpl pt_bits. change (Z.to_nat (Z.shiftl 1 9)) with 512%nat. apply wp_bind.
    eapply wp_mono; [apply (teardown_entries_spec k p rest); [intros; by apply IH|exact Hinv|lia|lia]|].
    intros [] s1 [Hinv1 Hs1]. simpl Nat.leb. cbv iota.
    eapply wp_mono; [exact (pg_free_spec _ rest p Hinv1)|]. intros [] s2 [Hs2 ?]. split; [done|]. intros x Hx. rewrite Hs2 by done. apply Hs1.
    destruct Hx as [Hx|]; [left|by right]. eapply in_pages_sub; [|exact Hx]. by apply list_subseteq_cons.
Qed.

(** [unprotect] gives back exactly the tables of the address space, the root included,
    and changes no byte of any other page in use nor of memory outside the allocator's. *)
Theorem unprotect_spec s as_ root kent O rest :
  as_ok s as_ root kent O -> O ≡ₚ tabs 3 (st_mem s) root ++ rest ->
  wp (unprotect as_) s (fun _ s' => pg_inv s' rest /\ same_on (client rest) (st_mem s) (st_mem s')).
Proof.
  intros Has HO. unfold unprotect. rewrite pgtables_infos. pose proof (as_root _ _ _ _ _ Has) as Hr.
  assert (forall next pt, teardown_entries (St := St) next (Z.to_nat (Z.shiftl 1 0)) pt 0 =
    (pte ← read_le 8 pt (8 * 0); _ ← (if has PTE_P pte && has PTE_U pte then next (baseof pte) else mret tt); mret tt)) as Hone by done.
  change (infos 3) with (infos 3). cbn [teardown_from]. simpl pt_bits. rewrite Hone. apply wp_bind, wp_bind.
  pose proof (as_pos _ _ _ _ _ Has). apply wp_read; [unfold off_ptr; lia|]. rewrite Z.add_0_r.
  fold (load64 (st_mem s) (as_ + off_ptr)). rewrite (as_ptr _ _ _ _ _ Has). pose proof Hr as [_ Hm]. rewrite !has_low by done.
  simpl andb. cbv iota. rewrite baseof_page by done. apply wp_bind.
  eapply wp_mono; [apply (teardown_spec 3 0 root s rest); eapply pg_perm; [exact HO|apply Has]|].
  intros [] s' ?. apply wp_ret. by apply wp_ret.
Qed.
End Teardown.

(** ** [protect] *)

Section Protect.
Context {St : Type} `{PageSource St}.

(** A write to memory the allocator does not manage. *)
Lemma write_outside s O n p off v (Q : unit -> St -> Prop) :
  pg_inv s O -> p <> 0 -> (forall x, p + off <= x < p + off + Z.of_nat n -> ~ pg_arena x) ->
  (forall s', st_mem s' = store_le n (st_mem s) (p + off) v -> pg_inv s' O -> Q tt s') -> wp (write_le n p off v) s Q.
Proof.
  intros Hinv Hp Ha HQ. apply wp_write; [done|]. apply HQ; [by rewrite st_mem_upd|]. apply pg_write_le; [done|].
  intros x Hx. right. by apply Ha.
Qed.

(** The new root: the kernel's entry is copied, nothing is mapped for the user. *)
Lemma fresh_root m root kent O :
  0 <= kent -> has PTE_U kent = false -> root ∈ O -> entry m root 0 = kent -> (forall i, 0 < i < 512 -> entry m root i = 0) ->
  tree_ok kernel_entry 3 m root O /\ tabs 3 m root = [root] /\ forall va, in_user va -> xlate 3 m root va = None.
Proof.
  intros Hpos Hk Hroot Hz Hi.
  assert (tabs 3 m root = [root]) as Ht.
  { apply tabs_single. intros i Hr. destruct (decide (i = 0)) as [->|]; [by rewrite Hz, Hk, andb_false_r|]. by rewrite Hi by lia. }
  split; [|split; [done|]].
  - split; rewrite ?Ht; [|apply NoDup_singleton|by intros q ->%list_elem_of_singleton].
    intros i Hr. destruct (decide (i = 0)) as [->|]; [by rewrite Hz, Hk|]. by rewrite Hi by lia.
  - intros va Hu. cbn [xlate]. rewrite user_idx by done. by rewrite Hi by lia.
Qed.

Lemma copy_kernel_once fuel kpt upt s O (Q : unit -> St -> Prop) :
  (2 <= fuel)%nat -> pg_inv s O -> upt ∈ O -> kpt <> 0 ->
  (forall s', st_mem s' = store_le 8 (st_mem s) (upt + 8 * 0) (entry (st_mem s) kpt 0) -> pg_inv s' O -> Q tt s') ->
  wp (copy_areas fuel vm_areas kpt upt) s Q.
Proof.
  intros Hf Hinv Hu Hk HQ. destruct fuel as [|[|fuel]]; [lia..|]. unfold vm_areas. cbn [copy_areas].
  apply wp_bind, wp_ret, wp_bind. cbn [copy_kernel]. simpl (_ =? _). cbv iota. cbv zeta.
  change (indexof 0 (nth 1 pgtables (mk_ptinfo 0 0 0))) with 0.
  apply wp_bind, wp_read; [done|]. apply wp_bind, (write_entry s O); [done|done|lia|]. intros s1 Em Hinv1.
  change (u64 (0 + Z.shiftl 1 (pt_shift (nth 1 pgtables (mk_ptinfo 0 0 0))))) with 549755813888. simpl (_ =? _). cbv iota.
  apply wp_ret, wp_ret, HQ; done.
Qed.

(** [protect] makes an address space with a root of its own, in which the kernel is where
    the kernel's table has it and no user address is translated. Only the new page and the
    [AddrSpace] are written. *)
Theorem protect_spec fuel kpt as_ s O :
  pg_inv s O -> (length O < pg_capacity)%nat -> (2 <= fuel)%nat -> 0 < as_ -> 0 < kpt ->
  (forall x, as_ <= x < as_ + 32 \/ kpt <= x < kpt + pgsize -> ~ pg_arena x) ->
  has PTE_U (entry (st_mem s) kpt 0) = false ->
  wp (protect fuel kpt as_) s (fun _ s' => exists root, as_ok s' as_ root (entry (st_mem s) kpt 0) (root :: O) /\
    tabs 3 (st_mem s') root = [root] /\ (forall va, in_user va -> utrans s' as_ va = None) /\
    load32 (st_mem s') (as_ + off_pgsize) = pgsize /\ load64 (st_mem s') (as_ + off_area) = uvm_area.1 /\
    load64 (st_mem s') (as_ + off_area + 8) = uvm_area.2 /\
    same_on (fun x => client O x /\ ~ inr as_ 32 x) (st_mem s) (st_mem s')).
Proof.
  intros Hinv Hc Hf Has Hkpt Hout Hku. unfold protect. apply wp_bind. eapply wp_mono; [by apply pgallocz_spec|].
  intros root s1 (Hinv1 & Hs1 & Hz1). pose proof (pg_inv_valid _ _ root Hinv1 ltac:(left)) as Hroot.
  assert (forall x, root <= x < root + pgsize -> pg_arena x) as Harena.
  { intros x Hx. destruct (pg_inv_good _ _ Hinv1) as (_ & _ & Ha). apply Ha. exists root. split; [left|done]. }
  assert (entry (st_mem s1) kpt 0 = entry (st_mem s) kpt 0) as Ek.
  { apply (entry_frame (client O)); [done| |lia]. intros x Hx. right. apply Hout. by right. }
  apply wp_bind, (copy_kernel_once fuel kpt root s1 (root :: O)); [done|done|left|lia|]. rewrite Ek. intros s2 Em2 Hinv2.
  apply wp_bind, (write_outside _ (root :: O)); [done|lia|intros x Hx; apply Hout; unfold off_pgsize in Hx; lia|]. intros s3 Em3 Hinv3.
  apply wp_bind, (write_outside _ (root :: O)); [done|lia|intros x Hx; apply Hout; unfold off_area in Hx; lia|]. intros s4 Em4 Hinv4.
  apply wp_bind, (write_outside _ (root :: O)); [done|lia|intros x Hx; apply Hout; unfold off_area in Hx; lia|]. intros s5 Em5 Hinv5.
  apply (write_outside _ (root :: O)); [done|lia|intros x Hx; apply Hout; unfold off_ptr in Hx; lia|]. intros s6 Em6 Hinv6.
  assert (only_in (inr as_ 32) (st_mem s2) (st_mem s6)) as Ho.
  { rewrite Em6, Em5, Em4, Em3. repeat (apply only_in_store; [|unfold inr, off_pgsize, off_area, off_ptr; lia]). done. }
  assert (forall i, 0 <= i < 512 -> entry (st_mem s6) root i = entry (st_mem s2) root i) as He6.
  { intros i Hi. apply (only_in_load _ 8 _ _ _ Ho). intros x Hx Hx'. apply (Hout x); [left; exact Hx'|].
    apply Harena. unfold pgsize. lia. }
  assert (entry (st_mem s6) root 0 = entry (st_mem s) kpt 0) as E0.
  { rewrite He6, Em2, entry_store by lia. apply wrap_small, entry_range. }
  assert (forall i, 0 < i < 512 -> entry (st_mem s6) root i = 0) as Ei.
  { intros i Hi. rewrite He6, Em2, entry_store_ne by lia. apply Hz1. lia. }
  pose proof (proj1 (entry_range (st_mem s) kpt 0)) as Hpos.
  destruct (fresh_root (st_mem s6) root _ (root :: O) Hpos Hku ltac:(left) E0 Ei) as (Ht & Htabs & Hx).
  assert (as_ok s6 as_ root (entry (st_mem s) kpt 0) (root :: O)) as Has6.
  { split; try done.
    - intros x Hx'. apply Hout. unfold off_ptr in Hx'. lia.
    - rewrite Em6. unfold load64. rewrite load_store_le. destruct Hroot as [? Hm]. rewrite <- Z.lor_assoc.
      change (Z.lor PTE_P PTE_U) with 5. rewrite page_lor by done. rewrite Z.mod_small; [done|lia]. }
  exists root. split; [done|]. split; [done|]. split; [intros va Hu; by rewrite (utrans_xlate _ _ _ _ _ _ Has6), Hx|].
  split; [|split; [|split]].
  - rewrite Em6, Em5, Em4, Em3. change (store_le 8) with store64. change (store_le 4) with store32.
    unfold off_pgsize, off_area, off_ptr. by mem_simpl.
  - rewrite Em6, Em5, Em4. change (store_le 8) with store64. unfold off_area, off_ptr. by mem_simpl.
  - rewrite Em6, Em5. change (store_le 8) with store64. rewrite Z.add_assoc. unfold off_area, off_ptr. by mem_simpl.
  - intros x [Hc' Hx']. rewrite Ho by done. rewrite Em2, store_le_outside; [by apply Hs1|]. intros Hr.
    eapply (fresh_not_client [root] O); [by apply (pg_inv_good s1)|exact Hc'|]. exists root. split; [left|unfold pgsize; lia].
Qed.
End Protect.

(** ** A machine with sixteen pages *)

#[local] Instance demo_pages : PageSource bump := bump_source 0x100000 0x110000.

(** Nothing in memory but an [AddrSpace] at 0x2000 with its root in the first page. *)
Definition demo_space : bump := mk_bump (store64 (fun _ => 0) (0x2000 + off_ptr) (0x100000 + 5)) 0x101000 [].

Definition demo_empty : bump := mk_bump (fun _ => 0) 0x100000 [].

Lemma demo_zero x : load8 (fun _ => 0) x = 0.
Proof. reflexivity. Qed.

Lemma demo_space_entry i : 0 <= i < 512 -> entry (st_mem demo_space) 0x100000 i = 0.
Proof.
  intros Hi. unfold entry. simpl st_mem. rewrite load64_store64_ne; [reflexivity|]. unfold off_ptr. lia.
Qed.

Lemma demo_bump_inv m O : O = [] \/ O = [0x100000] -> pg_inv (mk_bump m (0x100000 + 4096 * Z.of_nat (length O)) []) O.
Proof.
  intros HO. simpl. unfold bump_inv. simpl. rewrite app_nil_r. destruct HO as [-> | ->]; repeat split; try done; try lia.
  - apply NoDup_nil. done.
  - apply NoDup_singleton.
  - apply Forall_singleton. split; [done|]. simpl. lia.
Qed.

Lemma demo_space_ok : as_ok demo_space 0x2000 0x100000 0 [0x100000].
Proof.
  split; [exact (demo_bump_inv _ [0x100000] (or_intror eq_refl))|lia|intros x Hx; simpl; unfold off_ptr in Hx; lia|reflexivity|..].
  - apply (fresh_root (st_mem demo_space) 0x100000 0); [lia|reflexivity|left|apply demo_space_entry; lia|].
    intros i Hi. apply demo_space_entry. lia.
  - apply demo_space_entry. lia.
Qed.

Lemma map_refines_witness :
  match map_abs (utrans demo_space 0x2000) 0x100000003000 0x7000 MMAP_WRITE with
  | None => False
  | Some T => wp (map 0x2000 0x100000003000 0x7000 MMAP_WRITE) demo_space (fun _ s' =>
      exists new, as_ok s' 0x2000 0x100000 0 (new ++ [0x100000]) /\ (length new <= 3)%nat /\
      tabs 3 (st_mem s') 0x100000 ≡ₚ new ++ tabs 3 (st_mem demo_space) 0x100000 /\
      apart_same [0x100000] 0x100000 demo_space s' /\
      forall va', in_user va' -> utrans s' 0x2000 va' = T va')
  end.
Proof.
  exact (map_refines demo_space 0x2000 0x100000 0 [0x100000] 0x100000003000 0x7000 MMAP_WRITE
    demo_space_ok ltac:(vm_compute; lia) ltac:(lia) ltac:(lia)).
Defined.

Lemma unprotect_spec_witness :
  wp (unprotect 0x2000) demo_space (fun _ s' => pg_inv s' [] /\ same_on (client []) (st_mem demo_space) (st_mem s')).
Proof.
  apply (unprotect_spec demo_space 0x2000 0x100000 0 [0x100000] [] demo_space_ok).
  rewrite app_nil_r, tabs_empty; [done|exact demo_space_entry].
Defined.

Lemma protect_spec_witness :
  wp (protect 2 0x1000 0x2000) demo_empty (fun _ s' => exists root, as_ok s' 0x2000 root (entry (st_mem demo_empty) 0x1000 0) [root] /\
    tabs 3 (st_mem s') root = [root] /\ (forall va, in_user va -> utrans s' 0x2000 va = None) /\
    load32 (st_mem s') (0x2000 + off_pgsize) = pgsize /\ load64 (st_mem s') (0x2000 + off_area) = uvm_area.1 /\
    load64 (st_mem s') (0x2000 + off_area + 8) = uvm_area.2 /\
    same_on (fun x => client [] x /\ ~ inr 0x2000 32 x) (st_mem demo_empty) (st_mem s')).
Proof.
  apply (protect_spec 2 0x1000 0x2000 demo_empty []);
    [exact (demo_bump_inv _ [] (or_introl eq_refl))|vm_compute; lia|lia|lia|lia| |reflexivity].
  intros x Hx. unfold pgsize in Hx. simpl. lia.
Defined.

(** What the processor sees of the page, and of the one behind it, after [protect] and [map]. *)
Example map_demo :
  match (_ ← protect 2 0x1000 0x2000; map 0x2000 0x100000003000 0x7000 MMAP_WRITE) demo_empty with
  | Done _ s => (utrans s 0x2000 0x100000003abc, utrans s 0x2000 0x100000004000, bp_next s)
  | Fault _ => (None, None, 0)
  end = (Some (0x7000, true, true), None, 0x104000).
Proof. vm_compute. reflexivity. Qed.
