(* ===== verification/VmeSystem.v ===== *)
(** * Several address spaces: sequences of [protect], [map] and [unprotect] of vme.c

    The abstract machine keeps a translation per address space; an operation changes the one it
    names. The code refines it: spaces do not disturb one another, their tables are apart, all
    pages taken from the allocator are tables of live spaces, and an operation panics exactly
    when the abstract one has no result. *)

From stdpp Require Import prelude gmap.
From S2P Require Import Prelude Mem X86 Cte Trm Pages Vme VmeSpec VmeWalk VmeMap VmeSpace.

(** ** The abstract machine *)

Abbreviation translation := (Z -> option (Z * bool * bool)).

(** The translations of the live spaces, by the address of their [AddrSpace]. *)
Abbreviation vspaces := (gmap Z translation).

Inductive vm_op : Type :=
| VProtect (as_ : Z)
| VMap (as_ va pa prot : Z)
| VUnprotect (as_ : Z).

(** [None] is a panic. *)
Definition abs_op (a : vspaces) (op : vm_op) : option vspaces :=
  match op with
  | VProtect as_ => Some (<[as_ := fun _ => None]> a)
  | VMap as_ va pa prot =>
      match a !! as_ with
      | Some T => match map_abs T va pa prot with Some T' => Some (<[as_ := T']> a) | None => None end
      | None => None
      end
  | VUnprotect as_ => Some (delete as_ a)
  end.

Fixpoint abs_ops (a : vspaces) (ops : list vm_op) : option vspaces :=
  match ops with [] => Some a | op :: ops => a ← abs_op a op; abs_ops a ops end.

(** What the client keeps to: an [AddrSpace] is one of [slots], a space is made where there is
    none, and only live spaces are used; physical addresses have at most 52 bits. *)
Definition op_legal (slots : list Z) (a : vspaces) (op : vm_op) : Prop :=
  match op with
  | VProtect as_ => as_ ∈ slots /\ a !! as_ = None
  | VMap as_ va pa _ => is_Some (a !! as_) /\ 0 <= va < 2 ^ 64 /\ 0 <= pa < 2 ^ 52
  | VUnprotect as_ => is_Some (a !! as_)
  end.

Fixpoint ops_legal (slots : list Z) (a : vspaces) (ops : list vm_op) : Prop :=
  match ops with
  | [] => True
  | op :: ops => op_legal slots a op /\ match abs_op a op with Some a => ops_legal slots a ops | None => True end
  end.

(** Translations of user addresses are compared. *)
Definition same_user (T1 T2 : translation) : Prop := forall va, in_user va -> T1 va = T2 va.

Lemma map_abs_same T1 T2 va pa prot :
  same_user T1 T2 ->
  match map_abs T1 va pa prot, map_abs T2 va pa prot with
  | None, None => True
  | Some T1', Some T2' => same_user T1' T2'
  | _, _ => False
  end.
Proof.
  intros Hs. unfold map_abs. destruct (negb ((uvm_area.1 <=? va) && (va <? uvm_area.2)) || _ || _) eqn:Hb; [done|].
  apply orb_false_iff in Hb as [[Hin _]%orb_false_iff _]. apply negb_false_iff, andb_true_iff in Hin as [?%Z.leb_le ?%Z.ltb_lt].
  rewrite (Hs va) by done. destruct (prot =? MMAP_NONE), (T2 va); try done;
    intros va' Hu; destruct (va' / pgsize =? va / pgsize); [done|by apply Hs|done|by apply Hs].
Qed.

#[local] Opaque tabs xlate idx.

Section System.
Context {St : Type} `{PageSource St}.

(** The kernel's page table, its entry for the kernel, fuel for the loop that copies it. *)
Context (kpt kent : Z) (fuel : nat) (slots : list Z).

(** ** The code *)

Definition vm_step (op : vm_op) : M St unit :=
  match op with
  | VProtect as_ => protect fuel kpt as_
  | VMap as_ va pa prot => map as_ va pa prot
  | VUnprotect as_ => unprotect as_
  end.

Fixpoint vm_run (ops : list vm_op) : M St unit :=
  match ops with [] => mret tt | op :: ops => _ ← vm_step op; vm_run ops end.

(** ** The invariant *)

(** [L] are the live spaces with their roots, [O] the pages that are handed out. *)
Record vrep (s : St) (L : list (Z * Z)) (a : vspaces) (O : list Z) : Prop := {
  v_inv : pg_inv s O;
  v_tabs : O ≡ₚ concat ((fun x => tabs 3 (st_mem s) x.2) <$> L);
  v_nodup : NoDup L.*1;
  v_slots : L.*1 ⊆ slots;
  v_dom : forall as_, is_Some (a !! as_) <-> as_ ∈ L.*1;
  v_space : forall as_ root, (as_, root) ∈ L -> as_ok s as_ root kent O /\
    forall T, a !! as_ = Some T -> same_user (utrans s as_) T;
  v_kent : entry (st_mem s) kpt 0 = kent;
}.

Context (Hfuel : (2 <= fuel)%nat) (Hkpt : 0 < kpt) (Hkent : has PTE_U kent = false).
Context (Hkpage : forall x, kpt <= x < kpt + pgsize -> ~ pg_arena x).
Context (Hslots : forall as_ x, as_ ∈ slots -> 0 < as_ /\ (inr as_ 32 x -> ~ pg_arena x /\ ~ kpt <= x < kpt + pgsize)).
Context (Hdisj : forall as1 as2 x, as1 ∈ slots -> as2 ∈ slots -> as1 <> as2 -> inr as1 32 x -> ~ inr as2 32 x).

Lemma vrep_perm s L L' a O : L ≡ₚ L' -> vrep s L a O -> vrep s L' a O.
Proof.
  intros HL [? Ht ? ? ? ? ?]. split; rewrite <- ?HL; try done; [|].
  - by setoid_rewrite <- HL.
  - intros as_ root. rewrite <- HL. auto.
Qed.

(** A live space can be taken first. *)
Lemma vrep_focus s L a O as_ : vrep s L a O -> is_Some (a !! as_) -> exists root L', vrep s ((as_, root) :: L') a O.
Proof.
  intros Hr Ha%(v_dom _ _ _ _ Hr). apply list_elem_of_fmap in Ha as ([as' root] & -> & Hin).
  apply elem_of_Permutation in Hin as [L' HL]. exists root, L'. by eapply vrep_perm.
Qed.

(** A space whose tables and [AddrSpace] are left alone. *)
Lemma space_frame s s' as_ root O O' :
  as_ok s as_ root kent O -> pg_inv s' O' -> tabs 3 (st_mem s) root ⊆ O' ->
  same_on (in_pages (tabs 3 (st_mem s) root)) (st_mem s) (st_mem s') -> same_on (inr as_ 32) (st_mem s) (st_mem s') ->
  as_ok s' as_ root kent O' /\ tabs 3 (st_mem s') root = tabs 3 (st_mem s) root /\ same_user (utrans s' as_) (utrans s as_).
Proof.
  intros Has Hinv HO Hs Hp. pose proof Has as [_ Hpos Ha Eptr [Hwf HN HO0] Hk].
  pose proof (tabs_frame _ _ _ _ Hs) as Et.
  assert (as_ok s' as_ root kent O') as Has'.
  { split; [exact Hinv|exact Hpos|exact Ha| | |].
    - rewrite <- Eptr. apply (same_on_load _ 8 _ _ _ Hp). intros x Hx. unfold inr, off_ptr in *. lia.
    - split; rewrite ?Et; [by eapply wf_frame|exact HN|exact HO].
    - rewrite <- Hk. eapply entry_frame_in; [exact Hs|apply tabs_head|lia]. }
  split; [done|]. split; [done|]. intros va Hu. rewrite (utrans_xlate _ _ _ _ _ _ Has), (utrans_xlate _ _ _ _ _ _ Has').
  eapply xlate_frame; [exact Hwf|by apply user_not_kernel| |exact Hs].
  destruct (pg_inv_good _ _ (as_inv _ _ _ _ _ Has)) as (HF & _). rewrite Forall_forall in *. auto.
Qed.

Definition tables (s : St) (L : list (Z * Z)) : list Z := concat ((fun x => tabs 3 (st_mem s) x.2) <$> L).

Lemma tables_in s L as_ root : (as_, root) ∈ L -> tabs 3 (st_mem s) root ⊆ tables s L.
Proof.
  intros Hin p Hp. apply list_elem_of_In, in_concat. exists (tabs 3 (st_mem s) root). rewrite <- !list_elem_of_In. split; [|exact Hp].
  apply list_elem_of_fmap. by exists (as_, root).
Qed.

Lemma tables_cons s as_ root L : tables s ((as_, root) :: L) = tabs 3 (st_mem s) root ++ tables s L.
Proof. reflexivity. Qed.

Lemma tables_frame s s' L :
  (forall as_ root, (as_, root) ∈ L -> tabs 3 (st_mem s') root = tabs 3 (st_mem s) root) -> tables s' L = tables s L.
Proof.
  intros HL. unfold tables.
  assert ((fun x => tabs 3 (st_mem s') x.2) <$> L = (fun x => tabs 3 (st_mem s) x.2) <$> L) as ->; [|reflexivity].
  apply list_fmap_ext. intros i [as_ root] Hi%list_elem_of_lookup_2. exact (HL as_ root Hi).
Qed.

(** What an operation on the space [as_] does to the spaces [L] it leaves alone. *)
Lemma vrep_others s s' as_ L0 L a O O' :
  vrep s L0 a O -> L ⊆ L0 -> as_ ∈ slots -> as_ ∉ L.*1 -> pg_inv s' O' -> tables s L ⊆ O' ->
  same_on (in_pages (tables s L)) (st_mem s) (st_mem s') ->
  same_on (fun x => ~ pg_arena x /\ ~ inr as_ 32 x) (st_mem s) (st_mem s') ->
  (forall as' root', (as', root') ∈ L -> as_ok s' as' root' kent O' /\ same_user (utrans s' as') (utrans s as')) /\
  tables s' L = tables s L /\ entry (st_mem s') kpt 0 = kent.
Proof.
  intros Hr HL Hsl0 Hni Hinv HO Hs Hout.
  assert (forall as' root', (as', root') ∈ L -> as_ok s' as' root' kent O' /\ tabs 3 (st_mem s') root' = tabs 3 (st_mem s) root' /\
    same_user (utrans s' as') (utrans s as')) as Hsp.
  { intros as' root' Hin. pose proof (tables_in s L as' root' Hin) as Hsub.
    destruct (v_space _ _ _ _ Hr as' root' (HL _ Hin)) as [Has' _].
    apply (space_frame s s' as' root' O O'); [exact Has'|exact Hinv|by etrans|by eapply same_on_incl|].
    assert (as' ∈ L.*1) as Hin1 by (apply list_elem_of_fmap; exists (as', root'); split; [reflexivity|exact Hin]).
    assert (as' ∈ slots) as Hsl by (apply (v_slots _ _ _ _ Hr), list_elem_of_fmap; exists (as', root'); split; [done|exact (HL _ Hin)]).
    intros x Hx. apply Hout. split; [by destruct (Hslots as' x Hsl) as [_ []]|]. apply (Hdisj as'); [exact Hsl|exact Hsl0|by intros ->|exact Hx]. }
  split; [|split].
  - intros as' root' Hin. destruct (Hsp as' root' Hin) as (H1 & _ & H2). split; [exact H1|exact H2].
  - apply tables_frame. intros as' root' Hin. destruct (Hsp as' root' Hin) as (_ & E & _). exact E.
  - rewrite <- (v_kent _ _ _ _ Hr). apply (entry_frame _ _ _ _ _ Hout); [|lia]. intros x Hx. split; [by apply Hkpage|].
    intros Hin. destruct (Hslots as_ x Hsl0) as [_ [_ Hk]]; [exact Hin|by apply Hk].
Qed.

(** The tables of the first space and of the others are apart. *)
Lemma tables_apart s as_ root L a O :
  vrep s ((as_, root) :: L) a O -> NoDup (tabs 3 (st_mem s) root ++ tables s L) /\ tables s L ⊆ O.
Proof.
  intros Hr. pose proof (v_tabs _ _ _ _ Hr) as HO. change (concat _) with (tables s ((as_, root) :: L)) in HO. rewrite tables_cons in HO.
  destruct (pg_inv_good _ _ (v_inv _ _ _ _ Hr)) as (_ & HN & _). rewrite HO in HN. split; [exact HN|].
  intros p Hp. rewrite HO. apply elem_of_app. by right.
Qed.

(** ** The operations *)

Lemma protect_step s L a O as_ :
  vrep s L a O -> (length O < pg_capacity)%nat -> as_ ∈ slots -> a !! as_ = None ->
  wp (protect fuel kpt as_) s (fun _ s' => exists root, vrep s' ((as_, root) :: L) (<[as_ := fun _ => None]> a) (root :: O)).
Proof.
  intros Hr Hc Hsl Hn. assert (as_ ∉ L.*1) as Hni by (rewrite <- (v_dom _ _ _ _ Hr), Hn; by intros []).
  pose proof (protect_spec fuel kpt as_ s O (v_inv _ _ _ _ Hr) Hc Hfuel) as Hp. rewrite (v_kent _ _ _ _ Hr) in Hp.
  eapply wp_mono; [apply Hp|].
  - by apply (Hslots as_ 0).
  - exact Hkpt.
  - intros x [Hx|Hx]; [|by apply Hkpage]. by destruct (Hslots as_ x Hsl) as [_ []].
  - exact Hkent.
  - intros _ s' (root & Has & Htabs & Hx & _ & _ & _ & Hs). exists root.
    assert (tables s L ⊆ root :: O) as HO by (intros p Hp'; right; rewrite (v_tabs _ _ _ _ Hr); exact Hp').
    destruct (vrep_others s s' as_ L L a O (root :: O) Hr ltac:(done) Hsl Hni (as_inv _ _ _ _ _ Has) HO) as (Hsp & Ht & Hk).
    { intros x Hx'. apply Hs. split.
      - left. eapply in_pages_sub; [|exact Hx']. intros p Hp'. rewrite (v_tabs _ _ _ _ Hr). exact Hp'.
      - intros Hin. destruct (Hslots as_ x Hsl) as [_ [Hna _]]; [exact Hin|]. apply Hna.
        destruct (pg_inv_good _ _ (v_inv _ _ _ _ Hr)) as (_ & _ & Ha). apply Ha. eapply in_pages_sub; [|exact Hx'].
        intros p Hp'. rewrite (v_tabs _ _ _ _ Hr). exact Hp'. }
    { intros x [Ha Hx']. apply Hs. split; [by right|exact Hx']. }
    split.
    + apply Has.
    + change (concat _) with (tables s' ((as_, root) :: L)). rewrite tables_cons, Htabs, Ht. simpl. f_equiv. apply Hr.
    + rewrite fmap_cons. constructor; [exact Hni|apply Hr].
    + rewrite fmap_cons. intros p [->|Hp']%elem_of_cons; [exact Hsl|by apply (v_slots _ _ _ _ Hr)].
    + intros as'. rewrite fmap_cons, elem_of_cons, <- (v_dom _ _ _ _ Hr). destruct (decide (as_ = as')) as [<-|Hne].
      * rewrite lookup_insert_eq. split; eauto.
      * rewrite lookup_insert_ne by done. split; [by right|]. intros [E|]; [by destruct Hne|done].
    + intros as' root' [E|Hin]%elem_of_cons.
      * injection E as -> ->. split; [exact Has|]. rewrite lookup_insert_eq. intros T [= <-] va Hu. by apply Hx.
      * destruct (Hsp as' root' Hin) as [H1 H2]. split; [exact H1|]. intros T. rewrite lookup_insert_ne.
        -- intros HT va Hu. rewrite (H2 va Hu). destruct (v_space _ _ _ _ Hr as' root' Hin) as [_ Hv]. exact (Hv T HT va Hu).
        -- intros <-. apply Hni, list_elem_of_fmap. exists (as_, root'). split; [reflexivity|exact Hin].
    + exact Hk.
Qed.

Lemma map_step s L a O as_ (T : translation) va pa prot :
  vrep s L a O -> (length O + 3 <= pg_capacity)%nat -> a !! as_ = Some T -> 0 <= va < 2 ^ 64 -> 0 <= pa < 2 ^ 52 ->
  match map_abs T va pa prot with
  | None => map as_ va pa prot s = Fault Panic
  | Some T' => wp (map as_ va pa prot) s (fun _ s' => exists L' new, vrep s' L' (<[as_ := T']> a) (new ++ O) /\ (length new <= 3)%nat)
  end.
Proof.
  intros Hr0 Hc Ha Hva Hpa. destruct (vrep_focus s L a O as_ Hr0) as (root & L' & Hr); [by eauto|]. clear Hr0 L.
  destruct (v_space _ _ _ _ Hr as_ root ltac:(left)) as [Has HT]. pose proof (map_abs_same _ _ va pa prot (HT T Ha)) as Hsame.
  pose proof (map_refines s as_ root kent O va pa prot Has Hc Hva Hpa) as Hm.
  destruct (map_abs (utrans s as_) va pa prot) as [T1|], (map_abs T va pa prot) as [T'|]; try done.
  eapply wp_mono; [exact Hm|]. intros _ s' (new & Has' & Hlen & Htabs & Hap & Htr). exists ((as_, root) :: L'), new.
  destruct (tables_apart _ _ _ _ _ _ Hr) as [HN Hsub]. pose proof (v_nodup _ _ _ _ Hr) as [Hni HL]%NoDup_cons.
  assert (as_ ∈ slots) as Hsl by (apply (v_slots _ _ _ _ Hr); left).
  pose proof (pg_inv_good _ _ (v_inv _ _ _ _ Hr)) as Hg.
  destruct (vrep_others s s' as_ ((as_, root) :: L') L' a O (new ++ O) Hr) as (Hsp & Ht & Hk).
  - intros x Hx. by right.
  - exact Hsl.
  - exact Hni.
  - apply Has'.
  - etrans; [exact Hsub|]. apply list_subseteq_app_r. done.
  - intros x Hx. apply Hap. split; [left; by eapply in_pages_sub|].
    apply NoDup_app in HN as (_ & Hd & _). apply (good_disj O _ (tabs 3 (st_mem s) root)) with (x := x) in Hx; [done|exact Hg|exact Hsub|apply Has|].
    intros p Hp Hp'. by apply (Hd p).
  - intros x [Hna _]. apply Hap. split; [by right|]. intros Hin. apply Hna. destruct Hg as (_ & _ & Harena). apply Harena.
    eapply in_pages_sub; [|exact Hin]. apply Has.
  - split.
    + split.
      * apply Has'.
      * change (concat _) with (tables s' ((as_, root) :: L')). rewrite tables_cons, Ht, Htabs, (v_tabs _ _ _ _ Hr).
        change (concat _) with (tables s ((as_, root) :: L')). rewrite tables_cons. by rewrite (assoc_L (++)).
      * by constructor.
      * apply Hr.
      * intros as'. rewrite <- (v_dom _ _ _ _ Hr). destruct (decide (as_ = as')) as [<-|Hne].
        -- rewrite lookup_insert_eq, Ha. split; eauto.
        -- by rewrite lookup_insert_ne.
      * intros as' root' [E|Hin]%elem_of_cons.
        -- injection E as -> ->. split; [exact Has'|]. rewrite lookup_insert_eq. intros T2 [= <-] va' Hu. rewrite (Htr va' Hu). by apply Hsame.
        -- destruct (Hsp as' root' Hin) as [H1 H2]. split; [exact H1|]. intros T2. rewrite lookup_insert_ne.
           ++ intros HT2 va' Hu. rewrite (H2 va' Hu). destruct (v_space _ _ _ _ Hr as' root') as [_ Hv]; [by right|]. exact (Hv T2 HT2 va' Hu).
           ++ intros <-. apply Hni, list_elem_of_fmap. exists (as_, root'). split; [reflexivity|exact Hin].
      * exact Hk.
    + exact Hlen.
Qed.

Lemma unprotect_step s L a O as_ :
  vrep s L a O -> is_Some (a !! as_) ->
  wp (unprotect as_) s (fun _ s' => exists L' O', vrep s' L' (delete as_ a) O' /\ (length O' <= length O)%nat).
Proof.
  intros Hr0 Ha. destruct (vrep_focus s L a O as_ Hr0 Ha) as (root & L' & Hr). clear Hr0 L.
  destruct (v_space _ _ _ _ Hr as_ root ltac:(left)) as [Has _]. pose proof (v_nodup _ _ _ _ Hr) as [Hni HL]%NoDup_cons.
  assert (as_ ∈ slots) as Hsl by (apply (v_slots _ _ _ _ Hr); left).
  eapply wp_mono; [apply (unprotect_spec s as_ root kent O (tables s L') Has), Hr|]. intros _ s' [Hinv Hs]. exists L', (tables s L').
  destruct (vrep_others s s' as_ ((as_, root) :: L') L' a O (tables s L') Hr) as (Hsp & Ht & Hk).
  - intros x Hx. by right.
  - exact Hsl.
  - exact Hni.
  - exact Hinv.
  - done.
  - intros x Hx. apply Hs. by left.
  - intros x [Hna _]. apply Hs. by right.
  - split.
    + split.
      * exact Hinv.
      * change (concat _) with (tables s' L'). by rewrite Ht.
      * exact HL.
      * etrans; [|apply Hr]. intros p Hp. by right.
      * intros as'. destruct (decide (as_ = as')) as [<-|Hne].
        -- rewrite lookup_delete_eq. split; [by intros []|intros Hin; exfalso; exact (Hni Hin)].
        -- rewrite lookup_delete_ne by exact Hne. split.
           ++ intros Hin%(v_dom _ _ _ _ Hr). rewrite fmap_cons in Hin. apply elem_of_cons in Hin as [E|Hin]; [by destruct Hne|exact Hin].
           ++ intros Hin. apply (v_dom _ _ _ _ Hr). rewrite fmap_cons. right. exact Hin.
      * intros as' root' Hin. destruct (Hsp as' root' Hin) as [H1 H2]. split; [exact H1|]. intros T. rewrite lookup_delete_ne.
        -- intros HT va Hu. rewrite (H2 va Hu). destruct (v_space _ _ _ _ Hr as' root') as [_ Hv]; [by right|]. exact (Hv T HT va Hu).
        -- intros <-. apply Hni, list_elem_of_fmap. exists (as_, root'). split; [reflexivity|exact Hin].
      * exact Hk.
    + rewrite (v_tabs _ _ _ _ Hr). change (concat _) with (tables s ((as_, root) :: L')). rewrite tables_cons, length_app. lia.
Qed.

(** ** Runs *)

Lemma step_refines s L a O op :
  vrep s L a O -> (length O + 3 <= pg_capacity)%nat -> op_legal slots a op ->
  match abs_op a op with
  | None => vm_step op s = Fault Panic
  | Some a' => wp (vm_step op) s (fun _ s' => exists L' O', vrep s' L' a' O' /\ (length O' <= length O + 3)%nat)
  end.
Proof.
  intros Hr Hc Hop. destruct op as [as_|as_ va pa prot|as_]; cbn [op_legal abs_op vm_step] in *.
  - destruct Hop as [Hsl Hn]. eapply wp_mono; [apply (protect_step s L a O as_ Hr); [lia|exact Hsl|exact Hn]|].
    intros _ s' (root & Hr'). exists ((as_, root) :: L), (root :: O). split; [exact Hr'|]. simpl. lia.
  - destruct Hop as ([T HT] & Hva & Hpa). pose proof (map_step s L a O as_ T va pa prot Hr Hc HT Hva Hpa) as Hm.
    rewrite HT. destruct (map_abs T va pa prot) as [T'|]; [|exact Hm].
    eapply wp_mono; [exact Hm|]. intros _ s' (L' & new & Hr' & Hlen). exists L', (new ++ O). split; [exact Hr'|]. rewrite length_app. lia.
  - eapply wp_mono; [by apply (unprotect_step s L a O as_)|]. intros _ s' (L' & O' & Hr' & Hlen). exists L', O'. split; [exact Hr'|]. lia.
Qed.

Lemma vm_run_refines ops s L a O :
  vrep s L a O -> (length O + 3 * length ops <= pg_capacity)%nat -> ops_legal slots a ops ->
  match abs_ops a ops with
  | None => vm_run ops s = Fault Panic
  | Some a' => wp (vm_run ops) s (fun _ s' => exists L' O', vrep s' L' a' O')
  end.
Proof.
  revert s L a O. induction ops as [|op ops IH]; intros s L a O Hr Hc Hops; cbn [abs_ops vm_run length] in *.
  - apply wp_ret. by exists L, O.
  - destruct Hops as [Hop Hops]. pose proof (step_refines s L a O op Hr ltac:(lia) Hop) as Hs.
    destruct (abs_op a op) as [a1|]; cbn [mbind option_bind].
    + assert (forall s1 L1 O1, vrep s1 L1 a1 O1 -> (length O1 <= length O + 3)%nat ->
        match abs_ops a1 ops with None => vm_run ops s1 = Fault Panic
        | Some a' => wp (vm_run ops) s1 (fun _ s' => exists L' O', vrep s' L' a' O') end) as IH'.
      { intros s1 L1 O1 Hr1 Hl1. apply (IH s1 L1 a1 O1 Hr1); [lia|exact Hops]. }
      destruct (abs_ops a1 ops).
      * apply wp_bind. eapply wp_mono; [exact Hs|]. intros _ s1 (L1 & O1 & Hr1 & Hl1). by apply (IH' s1 L1 O1).
      * eapply fault_bind; [exact Hs|]. intros _ s1 (L1 & O1 & Hr1 & Hl1). by apply (IH' s1 L1 O1).
    + unfold mbind, M_bind. by rewrite Hs.
Qed.

Lemma vrep_start s : pg_inv s [] -> entry (st_mem s) kpt 0 = kent -> vrep s [] ∅ [].
Proof.
  intros Hinv Hk. split; [exact Hinv|done|constructor|intros p Hp; by apply elem_of_nil in Hp| |intros as_ root Hin; by apply elem_of_nil in Hin|exact Hk].
  intros as_. rewrite lookup_empty. split; [by intros []|]. intros Hin. by apply elem_of_nil in Hin.
Qed.

(** C17: any sequence of [protect], [map] and [unprotect] on any number of address spaces panics
    exactly where the abstract machine has no result; otherwise it ends with every live space
    translating every user address as the abstract machine says: an operation on one space does
    not show in another. When all spaces are given back, so are all pages. *)
Theorem spaces_refine ops s :
  pg_inv s [] -> entry (st_mem s) kpt 0 = kent -> (3 * length ops <= pg_capacity)%nat -> ops_legal slots ∅ ops ->
  match abs_ops ∅ ops with
  | None => vm_run ops s = Fault Panic
  | Some a => wp (vm_run ops) s (fun _ s' =>
      (forall as_ T, a !! as_ = Some T -> same_user (utrans s' as_) T) /\ (a = ∅ -> pg_inv s' []))
  end.
Proof.
  intros Hinv Hk Hc Hops. pose proof (vm_run_refines ops s [] ∅ [] (vrep_start s Hinv Hk) Hc Hops) as Hrun.
  destruct (abs_ops ∅ ops) as [a|]; [|exact Hrun]. eapply wp_mono; [exact Hrun|]. intros _ s' (L & O & Hr). split.
  - intros as_ T HT. assert (as_ ∈ L.*1) as Hin by (rewrite <- (v_dom _ _ _ _ Hr), HT; eauto).
    apply list_elem_of_fmap in Hin as ([as' root] & -> & Hin). destruct (v_space _ _ _ _ Hr as' root Hin) as [_ Hv]. exact (Hv T HT).
  - intros ->. assert (L = []) as ->.
    { destruct L as [|[as_ root] L]; [done|]. exfalso. assert (is_Some ((∅ : vspaces) !! as_)) as [T HT].
      { rewrite (v_dom _ _ _ _ Hr). left. }
      by rewrite lookup_empty in HT. }
    pose proof (v_tabs _ _ _ _ Hr) as Ht. apply Permutation_nil_r in Ht as ->. apply Hr.
Qed.

(** C18: the invariant of the page tables: after any sequence that does not panic, the table of
    every live space is a well-formed tree of pages from the allocator, with the kernel where
    the kernel's table has it; the trees of different spaces share no page, and every page that
    is handed out belongs to one of them. *)
Theorem spaces_wellformed ops s a :
  pg_inv s [] -> entry (st_mem s) kpt 0 = kent -> (3 * length ops <= pg_capacity)%nat -> ops_legal slots ∅ ops ->
  abs_ops ∅ ops = Some a ->
  wp (vm_run ops) s (fun _ s' => exists (L : list (Z * Z)) (O : list Z),
    (forall as_, is_Some (a !! as_) <-> as_ ∈ L.*1) /\ pg_inv s' O /\
    (forall as_ root, (as_, root) ∈ L -> load64 (st_mem s') (as_ + off_ptr) = root + 5 /\ valid_page root /\
      wf kernel_entry 3 (st_mem s') root /\ entry (st_mem s') root 0 = kent) /\
    O ≡ₚ tables s' L /\ NoDup (tables s' L)).
Proof.
  intros Hinv Hk Hc Hops Ha. pose proof (vm_run_refines ops s [] ∅ [] (vrep_start s Hinv Hk) Hc Hops) as Hrun. rewrite Ha in Hrun.
  eapply wp_mono; [exact Hrun|]. intros _ s' (L & O & Hr). exists L, O. split; [apply Hr|]. split; [apply Hr|]. split.
  - intros as_ root Hin. destruct (v_space _ _ _ _ Hr as_ root Hin) as [Has _]. split; [apply Has|]. split; [by eapply as_root|].
    split; [apply (as_tree _ _ _ _ _ Has)|apply Has].
  - pose proof (v_tabs _ _ _ _ Hr) as Ht. change (concat _) with (tables s' L) in Ht. split; [exact Ht|]. rewrite <- Ht.
    apply (pg_inv_good s' O). apply Hr.
Qed.
End System.

(** ** A machine with sixteen pages and room for two spaces *)

#[local] Existing Instance demo_pages.

Definition demo_slots : list Z := [0x2000; 0x2020].

(** The same page is mapped in two spaces, and one of them is given back. *)
Definition demo_vm_ops : list vm_op :=
  [VProtect 0x2000; VMap 0x2000 0x100000003000 0x7000 MMAP_WRITE; VProtect 0x2020; VMap 0x2020 0x100000003000 0x8000 MMAP_READ;
   VUnprotect 0x2000].

Lemma demo_slots_ok as_ x :
  as_ ∈ demo_slots -> 0 < as_ /\ (inr as_ 32 x -> ~ pg_arena (St := bump) x /\ ~ 0x1000 <= x < 0x1000 + pgsize).
Proof.
  unfold demo_slots, inr, pgsize. intros Has. simpl. rewrite !elem_of_cons in Has.
  destruct Has as [->|[->|Has]]; [lia|lia|by apply elem_of_nil in Has].
Qed.

Lemma demo_slots_apart as1 as2 x :
  as1 ∈ demo_slots -> as2 ∈ demo_slots -> as1 <> as2 -> inr as1 32 x -> ~ inr as2 32 x.
Proof.
  unfold demo_slots, inr. intros H1 H2. rewrite !elem_of_cons, elem_of_nil in H1, H2.
  destruct H1 as [->|[->|[]]], H2 as [->|[->|[]]]; lia.
Qed.

Lemma demo_kernel_page x : 0x1000 <= x < 0x1000 + pgsize -> ~ pg_arena (St := bump) x.
Proof. unfold pgsize. simpl. lia. Qed.

Lemma demo_vm_legal : ops_legal demo_slots ∅ demo_vm_ops.
Proof.
  unfold demo_vm_ops, demo_slots. split; [split; [left|done]|]. vm_compute abs_op.
  split; [split; [by eexists|lia]|]. vm_compute abs_op. split; [split; [right; left|done]|]. vm_compute abs_op.
  split; [split; [by eexists|lia]|]. vm_compute abs_op. split; [by eexists|]. done.
Qed.

Lemma demo_vm_start : pg_inv demo_empty [] /\ entry (st_mem demo_empty) 0x1000 0 = 0.
Proof. split; [exact (demo_bump_inv _ [] (or_introl eq_refl))|reflexivity]. Qed.

Definition demo_vm_end : vspaces := default ∅ (abs_ops ∅ demo_vm_ops).

Lemma demo_vm_runs : abs_ops ∅ demo_vm_ops = Some demo_vm_end.
Proof. reflexivity. Qed.

Lemma spaces_refine_witness :
  demo_vm_end !! 0x2000 = None /\ (T ← demo_vm_end !! 0x2020; T 0x100000003abc) = Some (0x8000, false, true) /\
  wp (vm_run 0x1000 2 demo_vm_ops) demo_empty (fun _ s' =>
    (forall as_ T, demo_vm_end !! as_ = Some T -> same_user (utrans s' as_) T) /\ (demo_vm_end = ∅ -> pg_inv s' [])).
Proof.
  split; [vm_compute; reflexivity|]. split; [vm_compute; reflexivity|]. destruct demo_vm_start as [H1 H2].
  pose proof (spaces_refine 0x1000 0 2 demo_slots ltac:(lia) ltac:(lia) ltac:(done) demo_kernel_page demo_slots_ok demo_slots_apart
    demo_vm_ops demo_empty H1 H2 ltac:(vm_compute; lia) demo_vm_legal) as H. rewrite demo_vm_runs in H. exact H.
Defined.

Lemma spaces_wellformed_witness :
  wp (vm_run 0x1000 2 demo_vm_ops) demo_empty (fun _ s' => exists (L : list (Z * Z)) (O : list Z),
    (forall as_, is_Some (demo_vm_end !! as_) <-> as_ ∈ L.*1) /\ pg_inv s' O /\
    (forall as_ root, (as_, root) ∈ L -> load64 (st_mem s') (as_ + off_ptr) = root + 5 /\ valid_page root /\
      wf kernel_entry 3 (st_mem s') root /\ entry (st_mem s') root 0 = 0) /\
    O ≡ₚ tables s' L /\ NoDup (tables s' L)).
Proof.
  destruct demo_vm_start as [H1 H2].
  exact (spaces_wellformed 0x1000 0 2 demo_slots ltac:(lia) ltac:(lia) ltac:(done) demo_kernel_page demo_slots_ok demo_slots_apart
    demo_vm_ops demo_empty demo_vm_end H1 H2 ltac:(vm_compute; lia) demo_vm_legal demo_vm_runs).
Defined.
