(* ===== verification/Disk.v ===== *)
(** * The disk: am/src/x86/qemu/ioe.c, lines 261-301

    [AtaDisk] is what the driver relies on: the protocol of an ATA drive for commands on one
    sector, in LBA mode, the data going through port 0x1f0 as 32-bit words. The request is
    a structure in memory that the driver reads again for every block. *)

From stdpp Require Import prelude.
From S2P Require Import Prelude Mem Trm.

(** ** The drive *)

Inductive ata_phase : Type := Idle | Reading (lba word : Z) | Writing (lba word : Z).

(** Contents by 32-bit words, the registers behind the ports 0x1f2 to 0x1f6, what the drive
    is doing, and how many reads of the status it stays busy for. *)
Record ata : Type := mk_ata { a_disk : Z -> Z; a_reg : Z -> Z; a_phase : ata_phase; a_busy : nat }.

Definition words_per_sector : Z := 128.

Definition ata_lba (r : Z -> Z) : Z := r 0x1f3 + 2 ^ 8 * r 0x1f4 + 2 ^ 16 * r 0x1f5 + 2 ^ 24 * (r 0x1f6 mod 16).

Definition ata_status_read (a : ata) : ata := mk_ata (a_disk a) (a_reg a) (a_phase a) (pred (a_busy a)).

Definition ata_set_reg (port v : Z) (a : ata) : ata :=
  mk_ata (a_disk a) (fun p => if p =? port then v else a_reg a p) (a_phase a) (a_busy a).

Definition ata_start (write : bool) (n : nat) (a : ata) : ata :=
  mk_ata (a_disk a) (a_reg a) (if write then Writing (ata_lba (a_reg a)) 0 else Reading (ata_lba (a_reg a)) 0) n.

Definition ata_next (p : Z -> Z -> ata_phase) (lba word : Z) : ata_phase :=
  if word + 1 =? words_per_sector then Idle else p lba (word + 1).

Definition ata_fetched (lba word : Z) (a : ata) : ata :=
  mk_ata (a_disk a) (a_reg a) (ata_next Reading lba word) (a_busy a).

Definition ata_stored (lba word v : Z) (n : nat) (a : ata) : ata :=
  mk_ata (fun i => if i =? lba * words_per_sector + word then v else a_disk a i) (a_reg a) (ata_next Writing lba word) n.

Definition ata_idle (a : ata) : Prop := a_phase a = Idle.

Class AtaDisk (D : Type) `{Ports D} : Type := {
  ata_view : D -> ata;
  ata_latency : nat;
  ata_status_spec : forall d,
    (Z.land (u8 (port_in 8 0x1f7 d).1) 0xc0 = 0x40 <-> a_busy (ata_view d) = 0%nat) /\
    ata_view (port_in 8 0x1f7 d).2 = ata_status_read (ata_view d);
  ata_reg_spec : forall d port v, 0x1f2 <= port <= 0x1f6 -> a_busy (ata_view d) = 0%nat -> ata_idle (ata_view d) ->
    ata_view (port_out 8 port v d) = ata_set_reg port v (ata_view d);
  ata_command_spec : forall d (write : bool), a_busy (ata_view d) = 0%nat -> ata_idle (ata_view d) ->
    a_reg (ata_view d) 0x1f2 = 1 -> Z.land (a_reg (ata_view d) 0x1f6) 0xe0 = 0xe0 ->
    exists n, (n <= ata_latency)%nat /\
      ata_view (port_out 8 0x1f7 (if write then 0x30 else 0x20) d) = ata_start write n (ata_view d);
  ata_in_spec : forall d lba word, a_busy (ata_view d) = 0%nat -> a_phase (ata_view d) = Reading lba word ->
    (port_in 32 0x1f0 d).1 = a_disk (ata_view d) (lba * words_per_sector + word) /\
    ata_view (port_in 32 0x1f0 d).2 = ata_fetched lba word (ata_view d);
  ata_out_spec : forall d lba word v, a_busy (ata_view d) = 0%nat -> a_phase (ata_view d) = Writing lba word ->
    exists n, (n <= if (word + 1 =? words_per_sector)%Z then ata_latency else 0)%nat /\
      ata_view (port_out 32 0x1f0 v d) = ata_stored lba word v n (ata_view d);
}.

(** ** The driver *)

Definition BLKSZ : Z := 512.

Section Driver.
Context {D : Type} `{Ports D} (fuel : nat).

Fixpoint wait_disk (k : nat) : M (machine D) unit :=
  match k with
  | O => raise OutOfFuel
  | S k => v ← inb 0x1f7; if negb (Z.land v 0xc0 =? 0x40) then wait_disk k else mret tt
  end.

(** Lines 293-299: [n] words; the result is the pointer behind them. *)
Fixpoint in_words (n : nat) (ptr : Z) : M (machine D) Z :=
  match n with
  | O => mret ptr
  | S n => v ← inl 0x1f0; _ ← write_le 4 ptr 0 v; in_words n (ptr + 4)
  end.

Fixpoint out_words (n : nat) (ptr : Z) : M (machine D) Z :=
  match n with
  | O => mret ptr
  | S n => v ← read_le 4 ptr 0; _ ← outl 0x1f0 v; out_words n (ptr + 4)
  end.

(** Lines 285-290: the drive is told the sector. *)
Definition select_sector (blkno : Z) : M (machine D) unit :=
  _ ← wait_disk fuel;
  _ ← outb 0x1f2 1;
  _ ← outb 0x1f3 blkno;
  _ ← outb 0x1f4 (Z.shiftr blkno 8);
  _ ← outb 0x1f5 (Z.shiftr blkno 16);
  outb 0x1f6 (Z.lor (Z.shiftr blkno 24) 0xe0).

(** Lines 291-292: the command, and the wait for the drive. *)
Definition start_command (command : Z) : M (machine D) unit :=
  _ ← outb 0x1f7 command;
  wait_disk fuel.

(** [bio->write], read from the request wherever the code reads it. *)
Definition bio_write (bio : Z) : M (machine D) bool := v ← read_le 1 bio 0; mret (negb (v =? 0)).

(** Lines 284-300, for the request at [bio]: [remain] blocks are left. *)
Fixpoint disk_blocks (bio : Z) (remain : nat) (blkno ptr : Z) : M (machine D) unit :=
  match remain with
  | O => mret tt
  | S remain =>
      _ ← select_sector blkno;
      write ← bio_write bio;
      _ ← start_command (if write : bool then 0x30 else 0x20);
      write ← bio_write bio;
      ptr ← (if write : bool then out_words (Z.to_nat (BLKSZ / 4)) ptr else in_words (Z.to_nat (BLKSZ / 4)) ptr);
      disk_blocks bio remain (u32 (blkno + 1)) ptr
  end.

(** [disk_blkio] of the request at [bio]: whether it writes, the buffer, the first block and
    the number of blocks are at the offsets 0, 8, 16 and 20 of AM_DISK_BLKIO_T. *)
Definition disk_blkio (bio : Z) : M (machine D) unit :=
  blkno ← read_le 4 bio 16;
  _ ← read_le 4 bio 20;
  ptr ← read_le 8 bio 8;
  remain ← read_le 4 bio 20;
  disk_blocks bio (Z.to_nat remain) blkno ptr.
End Driver.

(** ** Bytes of a drive, and of memory after words were stored *)

Definition disk_byte (a : ata) (x : Z) : Z := (a_disk a (x / 4) / 256 ^ (x mod 4)) mod 256.

(** ** The driver against the drive *)

Section DriverSpec.
Context {D : Type} `{AtaDisk D}.
Implicit Types (s : machine D).

Definition drive s : ata := ata_view (mc_dev s).

(** Between two requests. *)
Definition drive_ok s : Prop := ata_idle (drive s) /\ (a_busy (drive s) <= ata_latency)%nat.

Lemma wait_disk_spec k s :
  (a_busy (drive s) < k)%nat ->
  wp (wait_disk k) s (fun _ s' => mc_mem s' = mc_mem s /\
    drive s' = mk_ata (a_disk (drive s)) (a_reg (drive s)) (a_phase (drive s)) 0).
Proof.
  revert s. induction k as [|k IH]; intros s Hk; [lia|]. cbn [wait_disk]. apply wp_bind, wp_in.
  change (wrap 16 0x1f7) with 0x1f7. destruct (ata_status_spec (mc_dev s)) as [Hst Hv]. fold (drive s) in Hst, Hv.
  change (wrap 8 (wrap 8 ?x)) with (u8 x). set (s1 := mk_machine _ _).
  assert (drive s1 = ata_status_read (drive s)) as Hd by exact Hv.
  destruct (Z.eqb_spec (Z.land (u8 (port_in 8 0x1f7 (mc_dev s)).1) 0xc0) 0x40) as [E|Hne].
  - simpl negb. cbv iota. apply wp_ret. split; [done|]. rewrite Hd. unfold ata_status_read. by rewrite (proj1 Hst E).
  - simpl negb. cbv iota. destruct (a_busy (drive s)) as [|n] eqn:En; [by destruct Hne; apply Hst|].
    eapply wp_mono; [apply (IH s1); rewrite Hd; simpl; rewrite En; simpl; lia|]. intros [] s' [Hm Hd']. split; [done|].
    by rewrite Hd', Hd.
Qed.

(** Setting a register of a drive that waits for a command. *)
Lemma wp_set_reg port v s (Q : unit -> machine D -> Prop) :
  0x1f2 <= port <= 0x1f6 -> a_busy (drive s) = 0%nat -> ata_idle (drive s) ->
  (forall s', mc_mem s' = mc_mem s -> drive s' = ata_set_reg port (u8 v) (drive s) -> Q tt s') -> wp (outb port v) s Q.
Proof.
  intros Hp Hb Hi HQ. apply wp_out. rewrite (wrap_small 16) by lia. apply HQ; [done|].
  unfold drive in *. simpl mc_dev. by apply ata_reg_spec.
Qed.

Lemma drive_select blkno :
  0 <= blkno < 2 ^ 28 ->
  let r6 := u8 (Z.lor (Z.shiftr blkno 24) 0xe0) in
  Z.land r6 0xe0 = 0xe0 /\
  u8 blkno + 2 ^ 8 * u8 (Z.shiftr blkno 8) + 2 ^ 16 * u8 (Z.shiftr blkno 16) + 2 ^ 24 * (r6 mod 16) = blkno.
Proof.
  intros Hb r6. assert (0 <= Z.shiftr blkno 24 < 2 ^ 4) as Hh by (rewrite Z.shiftr_div_pow2 by lia; change (2 ^ 24) with 16777216; zdm).
  assert (r6 = 0xe0 + Z.shiftr blkno 24) as ->.
  { unfold r6. rewrite Z.lor_comm. change 0xe0 with (Z.shiftl 14 4). rewrite lor_add by lia. by rewrite wrap_small by lia. }
  rewrite !Z.shiftr_div_pow2 in * by lia. unfold wrap. change (2 ^ 8) with 256 in *. change (2 ^ 16) with 65536. change (2 ^ 24) with 16777216 in *.
  split; [|zdm]. set (h := blkno / 16777216) in *.
  assert (h = 0 \/ h = 1 \/ h = 2 \/ h = 3 \/ h = 4 \/ h = 5 \/ h = 6 \/ h = 7 \/ h = 8 \/ h = 9 \/ h = 10 \/ h = 11 \/
    h = 12 \/ h = 13 \/ h = 14 \/ h = 15) as Hc by lia.
  by repeat destruct Hc as [->|Hc]; [..|subst h; rewrite Hc].
Qed.

(** *** The words of a sector: [n] are left *)

Definition words_left (p : Z -> Z -> ata_phase) (lba : Z) (n : nat) : ata_phase :=
  if (n =? 0)%nat then Idle else p lba (words_per_sector - Z.of_nat n).

Lemma words_next p lba n : ata_next p lba (words_per_sector - Z.of_nat (S n)) = words_left p lba n.
Proof.
  unfold ata_next, words_left, words_per_sector. destruct (Nat.eqb_spec n 0) as [->|]; [done|].
  destruct (Z.eqb_spec (128 - Z.of_nat (S n) + 1) 128); [lia|]. f_equal. lia.
Qed.

Lemma word_byte v k : 0 <= k < 4 -> (wrap 32 v / 256 ^ k) mod 256 = (v / 256 ^ k) mod 256.
Proof.
  intros Hk. unfold wrap. change (2 ^ 32) with 4294967296.
  assert (k = 0 \/ k = 1 \/ k = 2 \/ k = 3) as [->|[->|[->| ->]]] by lia;
    [change (256 ^ 0) with 1|change (256 ^ 1) with 256|change (256 ^ 2) with 65536|change (256 ^ 3) with 16777216]; zdm.
Qed.

Lemma in_words_spec n ptr s lba :
  (n <= 128)%nat -> a_busy (drive s) = 0%nat -> a_phase (drive s) = words_left Reading lba n -> 0 < ptr ->
  wp (in_words n ptr) s (fun r s' => r = ptr + 4 * Z.of_nat n /\ a_disk (drive s') = a_disk (drive s) /\
    a_busy (drive s') = 0%nat /\ ata_idle (drive s') /\ only_in (inr ptr (4 * Z.of_nat n)) (mc_mem s) (mc_mem s') /\
    forall j, 0 <= j < 4 * Z.of_nat n ->
      load8 (mc_mem s') (ptr + j) = disk_byte (drive s) (BLKSZ * lba + (BLKSZ - 4 * Z.of_nat n) + j)).
Proof.
  revert ptr s. induction n as [|n IH]; intros ptr s Hn Hb Hp Hptr; cbn [in_words].
  - apply wp_ret. split; [lia|]. split; [done|]. split; [done|]. split; [done|]. split; [done|lia].
  - unfold words_left in Hp. simpl in Hp. set (w := words_per_sector - Z.of_nat (S n)) in *.
    apply wp_bind, wp_in. change (wrap 16 0x1f0) with 0x1f0.
    destruct (ata_in_spec (mc_dev s) lba w) as [Hv Hd]; [done|done|]. fold (drive s) in Hv, Hd. rewrite Hv.
    set (v := wrap 32 _). apply wp_bind, wp_write; [lia|]. rewrite Z.add_0_r. set (s1 := st_upd _ _).
    assert (drive s1 = ata_fetched lba w (drive s)) as Hd1 by exact Hd.
    assert (mc_mem s1 = store_le 4 (mc_mem s) ptr v) as Hm1 by done.
    eapply wp_mono; [apply (IH (ptr + 4) s1); [lia|by rewrite Hd1|rewrite Hd1; apply words_next|lia]|].
    intros r s' (-> & Hdisk & Hb' & Hi & Ho & Hbytes). split; [lia|]. split; [by rewrite Hdisk, Hd1|]. split; [done|]. split; [done|].
    split.
    + etrans; [|eapply only_in_weaken; [exact Ho|unfold inr; lia]]. rewrite Hm1. apply only_in_store; [done|]. unfold inr. lia.
    + intros j Hj. destruct (decide (j < 4)) as [Hlt|].
      * rewrite (Ho (ptr + j)) by (unfold inr; lia). rewrite Hm1, load8_store_le.
        destruct (Z.leb_spec ptr (ptr + j)), (Z.ltb_spec (ptr + j) (ptr + Z.of_nat 4)); [|lia..]. simpl andb. cbv iota.
        replace (ptr + j - ptr) with j by lia. unfold v. rewrite word_byte by lia. unfold disk_byte.
        unfold w, words_per_sector, BLKSZ. set (x := 512 * lba + _ + j).
        assert (x / 4 = lba * 128 + (128 - Z.of_nat (S n)) /\ x mod 4 = j) as [-> ->] by (subst x; zdm). done.
      * replace (ptr + j) with (ptr + 4 + (j - 4)) by lia. rewrite Hbytes by lia. rewrite Hd1. unfold disk_byte. simpl a_disk.
        by replace (BLKSZ * lba + (BLKSZ - 4 * Z.of_nat n) + (j - 4)) with (BLKSZ * lba + (BLKSZ - 4 * Z.of_nat (S n)) + j) by lia.
Qed.

(** The contents of a drive after the words at [ptr] were stored from the word [i0] on. *)
Definition words_stored (m : mem) (ptr i0 n : Z) (f f' : Z -> Z) : Prop :=
  forall i, f' i = if (i0 <=? i) && (i <? i0 + n) then load32 m (ptr + 4 * (i - i0)) else f i.

Lemma words_stored_app m ptr i0 n1 n2 f f1 f2 :
  0 <= n1 -> 0 <= n2 -> words_stored m ptr i0 n1 f f1 -> words_stored m (ptr + 4 * n1) (i0 + n1) n2 f1 f2 ->
  words_stored m ptr i0 (n1 + n2) f f2.
Proof.
  intros ?? H1 H2 i. rewrite H2, H1.
  destruct (Z.leb_spec (i0 + n1) i), (Z.leb_spec i0 i), (Z.ltb_spec i (i0 + n1 + n2)), (Z.ltb_spec i (i0 + (n1 + n2))),
    (Z.ltb_spec i (i0 + n1)); simpl; try lia; try done. f_equal. lia.
Qed.

Lemma out_words_spec n ptr s lba :
  (n <= 128)%nat -> (a_busy (drive s) <= if (n =? 0)%nat then ata_latency else 0)%nat ->
  a_phase (drive s) = words_left Writing lba n -> 0 < ptr ->
  wp (out_words n ptr) s (fun r s' => r = ptr + 4 * Z.of_nat n /\ mc_mem s' = mc_mem s /\ drive_ok s' /\
    words_stored (mc_mem s) ptr (lba * words_per_sector + (words_per_sector - Z.of_nat n)) (Z.of_nat n)
      (a_disk (drive s)) (a_disk (drive s'))).
Proof.
  revert ptr s. induction n as [|n IH]; intros ptr s Hn Hb Hp Hptr; cbn [out_words].
  - apply wp_ret. split; [lia|]. split; [done|]. split; [by split|]. intros i.
    destruct (Z.leb_spec (lba * words_per_sector + (words_per_sector - Z.of_nat 0)) i), (Z.ltb_spec i
      (lba * words_per_sector + (words_per_sector - Z.of_nat 0) + Z.of_nat 0)); simpl; lia || done.
  - unfold words_left in Hp. simpl in Hp, Hb. set (w := words_per_sector - Z.of_nat (S n)) in *.
    apply wp_bind, wp_read; [lia|]. rewrite Z.add_0_r. fold (load32 (mc_mem s) ptr). apply wp_bind, wp_out.
    change (wrap 16 0x1f0) with 0x1f0. set (v := wrap 32 _). set (s1 := mk_machine _ _).
    assert (v = load32 (mc_mem s) ptr) as Ev by (apply wrap_small; apply (load_le_range 4)).
    destruct (ata_out_spec (mc_dev s) lba w v) as (k & Hk & Hd); [fold (drive s); lia|done|]. fold (drive s) in Hd.
    assert (drive s1 = ata_stored lba w v k (drive s)) as Hd1 by exact Hd.
    assert (mc_mem s1 = mc_mem s) as Hm1 by done.
    eapply wp_mono; [apply (IH (ptr + 4) s1); [lia| |rewrite Hd1; apply words_next|lia]|].
    { rewrite Hd1. simpl a_busy. etrans; [exact Hk|]. unfold w, words_per_sector.
      destruct (Z.eqb_spec (128 - Z.of_nat (S n) + 1) 128), (Nat.eqb_spec n 0); lia. }
    intros r s' (-> & Hm & Hok & Hst). split; [lia|]. split; [by rewrite Hm|]. split; [done|].
    replace (Z.of_nat (S n)) with (1 + Z.of_nat n) by lia. rewrite Hm1, Hd1 in Hst.
    apply (words_stored_app _ _ _ _ _ _ (a_disk (ata_stored lba w v k (drive s)))); [lia|lia| |].
    + intros i. simpl a_disk. rewrite Ev. unfold w.
      set (i0 := lba * words_per_sector + _).
      destruct (Z.eqb_spec i i0) as [->|]; [|destruct (Z.leb_spec i0 i), (Z.ltb_spec i (i0 + 1)); simpl; lia || done].
      rewrite Z.leb_refl. destruct (Z.ltb_spec i0 (i0 + 1)); [|lia]. simpl. by rewrite Z.sub_diag, Z.add_0_r.
    + replace (lba * words_per_sector + w + 1) with (lba * words_per_sector + (words_per_sector - Z.of_nat n)) by lia.
      by replace (ptr + 4 * 1) with (ptr + 4) by lia.
Qed.

End DriverSpec.

Section Requests.
Context {D : Type} `{AtaDisk D} (fuel : nat) (Hfuel : (ata_latency < fuel)%nat).
Implicit Types (s : machine D).

(** The registers of a drive that waits for the command for the sector [blkno]. *)
Definition selected (s : machine D) (blkno : Z) : Prop :=
  a_busy (drive s) = 0%nat /\ ata_idle (drive s) /\ a_reg (drive s) 0x1f2 = 1 /\
  Z.land (a_reg (drive s) 0x1f6) 0xe0 = 0xe0 /\ ata_lba (a_reg (drive s)) = blkno.

Lemma select_spec blkno s :
  drive_ok s -> 0 <= blkno < 2 ^ 28 ->
  wp (select_sector fuel blkno) s (fun _ s' => mc_mem s' = mc_mem s /\
    a_disk (drive s') = a_disk (drive s) /\ selected s' blkno).
Proof.
  intros [Hi Hb] Hblk. unfold select_sector. apply wp_bind. eapply wp_mono; [apply wait_disk_spec; lia|].
  intros [] s0 [Hm0 Hd0]. assert (ata_idle (drive s0)) as Hi0 by (by rewrite Hd0). assert (a_busy (drive s0) = 0%nat) as Hb0 by (by rewrite Hd0).
  apply wp_bind, wp_set_reg; [lia|done|done|]. intros s1 Hm1 Hd1.
  apply wp_bind, wp_set_reg; [lia|by rewrite Hd1|by rewrite Hd1|]. intros s2 Hm2 Hd2.
  apply wp_bind, wp_set_reg; [lia|by rewrite Hd2, Hd1|by rewrite Hd2, Hd1|]. intros s3 Hm3 Hd3.
  apply wp_bind, wp_set_reg; [lia|by rewrite Hd3, Hd2, Hd1|by rewrite Hd3, Hd2, Hd1|]. intros s4 Hm4 Hd4.
  apply wp_set_reg; [lia|by rewrite Hd4, Hd3, Hd2, Hd1|by rewrite Hd4, Hd3, Hd2, Hd1|]. intros s5 Hm5 Hd5.
  rewrite Hd4, Hd3, Hd2, Hd1 in Hd5. destruct (drive_select blkno Hblk) as [Hsel Hlba].
  split; [congruence|]. unfold selected. rewrite Hd5. split; [by rewrite Hd0|]. by split_and!.
Qed.

Lemma start_spec (write : bool) blkno s :
  selected s blkno ->
  wp (start_command fuel (if write then 0x30 else 0x20)) s (fun _ s' => mc_mem s' = mc_mem s /\
    a_disk (drive s') = a_disk (drive s) /\ a_busy (drive s') = 0%nat /\
    a_phase (drive s') = if write then Writing blkno 0 else Reading blkno 0).
Proof.
  intros (Hb & Hi & Hr & Hsel & Hlba). unfold start_command. apply wp_bind, wp_out. change (wrap 16 0x1f7) with 0x1f7.
  replace (wrap 8 (if write then 0x30 else 0x20)) with (if write then 0x30 else 0x20) by (by destruct write).
  destruct (ata_command_spec (mc_dev s) write) as (n & Hn & Hv); fold (drive s) in *; [done..|].
  set (s6 := mk_machine _ _). assert (drive s6 = ata_start write n (drive s)) as Hd6 by exact Hv.
  eapply wp_mono; [apply (wait_disk_spec fuel s6); rewrite Hd6; simpl; lia|]. intros [] s7 [Hm7 Hd7].
  rewrite Hd7, Hd6. simpl a_busy. simpl a_disk. split; [by rewrite Hm7|]. split; [done|]. split; [done|].
  simpl a_phase. by rewrite Hlba.
Qed.

Lemma wp_bio_write bio (write : bool) s (Q : bool -> machine D -> Prop) :
  0 < bio -> load_le 1 (mc_mem s) bio = (if write then 1 else 0) -> Q write s -> wp (bio_write bio) s Q.
Proof.
  intros Hp Hw HQ. unfold bio_write. apply wp_bind, wp_read; [lia|]. cbn [st_mem machine_has_mem]. rewrite Z.add_0_r, Hw.
  apply wp_ret. by destruct write.
Qed.

(** A block up to the data: the drive waits for them to be moved. *)
Lemma wp_block bio (write : bool) n blkno ptr s (Q : unit -> machine D -> Prop) :
  drive_ok s -> 0 <= blkno < 2 ^ 28 -> 0 < bio -> load_le 1 (mc_mem s) bio = (if write then 1 else 0) ->
  (forall s', mc_mem s' = mc_mem s -> a_disk (drive s') = a_disk (drive s) -> a_busy (drive s') = 0%nat ->
    a_phase (drive s') = (if write then Writing blkno 0 else Reading blkno 0) ->
    wp (ptr ← (if write then out_words 128 ptr else in_words 128 ptr); disk_blocks fuel bio n (u32 (blkno + 1)) ptr) s' Q) ->
  wp (disk_blocks fuel bio (S n) blkno ptr) s Q.
Proof.
  intros Hok Hb Hp Hw HQ. cbn [disk_blocks]. apply wp_bind. eapply wp_mono; [by apply select_spec|].
  intros [] s1 (Hm1 & Hd1 & Hsel). apply wp_bind, (wp_bio_write bio write); [done|by rewrite Hm1|].
  apply wp_bind. eapply wp_mono; [by apply start_spec|]. intros [] s2 (Hm2 & Hd2 & Hb2 & Hp2).
  apply wp_bind, (wp_bio_write bio write); [done|by rewrite Hm2, Hm1|]. apply HQ; [congruence..|done|done].
Qed.

(** *** Blocks *)

Lemma disk_read_blocks bio n blkno ptr s :
  drive_ok s -> 0 <= blkno -> blkno + Z.of_nat n <= 2 ^ 28 -> 0 < ptr ->
  0 < bio -> load_le 1 (mc_mem s) bio = 0 -> ~ inr ptr (BLKSZ * Z.of_nat n) bio ->
  wp (disk_blocks fuel bio n blkno ptr) s (fun _ s' => drive_ok s' /\ a_disk (drive s') = a_disk (drive s) /\
    only_in (inr ptr (BLKSZ * Z.of_nat n)) (mc_mem s) (mc_mem s') /\
    forall j, 0 <= j < BLKSZ * Z.of_nat n -> load8 (mc_mem s') (ptr + j) = disk_byte (drive s) (BLKSZ * blkno + j)).
Proof.
  unfold BLKSZ. revert blkno ptr s. induction n as [|n IH]; intros blkno ptr s Hok Hb Hn Hp Hbio Hw Hout.
  - cbn [disk_blocks]. apply wp_ret. split; [done|]. split; [done|]. split; [done|lia].
  - apply (wp_block bio false); [done|lia|done|done|]. intros s1 Hm1 Hd1 Hb1 Hp1. apply wp_bind.
    eapply wp_mono; [apply (in_words_spec 128 ptr s1 blkno); [lia|done|exact Hp1|lia]|].
    intros r s2 (-> & Hd2 & Hb2 & Hi2 & Ho2 & Hbytes2). rewrite (wrap_small 32) by lia.
    rewrite Hm1 in Ho2. unfold inr in Hout.
    eapply wp_mono; [apply (IH (blkno + 1) (ptr + 4 * Z.of_nat 128) s2);
      [split; [done|lia]|lia|lia|lia|done| |unfold inr; lia]|].
    { rewrite <- Hw. eapply only_in_load; [exact Ho2|]. intros x Hx. unfold inr. simpl in Hx. lia. }
    intros [] s3 (Hok3 & Hd3 & Ho3 & Hbytes3). split; [done|]. split; [congruence|]. split.
    + etrans; [eapply only_in_weaken; [exact Ho2|]|eapply only_in_weaken; [exact Ho3|]]; unfold inr; lia.
    + intros j Hj. destruct (decide (j < 512)).
      * rewrite (Ho3 (ptr + j)) by (unfold inr; lia). rewrite Hbytes2 by lia. unfold disk_byte, BLKSZ. rewrite Hd1.
        by replace (512 * blkno + (512 - 4 * Z.of_nat 128) + j) with (512 * blkno + j) by lia.
      * replace (ptr + j) with (ptr + 4 * Z.of_nat 128 + (j - 512)) by lia. rewrite Hbytes3 by lia. unfold disk_byte.
        rewrite Hd2, Hd1. by replace (512 * (blkno + 1) + (j - 512)) with (512 * blkno + j) by lia.
Qed.

Lemma disk_write_blocks bio n blkno ptr s :
  drive_ok s -> 0 <= blkno -> blkno + Z.of_nat n <= 2 ^ 28 -> 0 < ptr ->
  0 < bio -> load_le 1 (mc_mem s) bio = 1 ->
  wp (disk_blocks fuel bio n blkno ptr) s (fun _ s' => drive_ok s' /\ mc_mem s' = mc_mem s /\
    words_stored (mc_mem s) ptr (blkno * words_per_sector) (words_per_sector * Z.of_nat n) (a_disk (drive s)) (a_disk (drive s'))).
Proof.
  unfold words_per_sector. revert blkno ptr s. induction n as [|n IH]; intros blkno ptr s Hok Hb Hn Hp Hbio Hw.
  - cbn [disk_blocks]. apply wp_ret. split; [done|]. split; [done|]. intros i.
    destruct (Z.leb_spec (blkno * 128) i), (Z.ltb_spec i (blkno * 128 + 128 * Z.of_nat 0)); simpl; lia || done.
  - apply (wp_block bio true); [done|lia|done|done|]. intros s1 Hm1 Hd1 Hb1 Hp1. apply wp_bind.
    eapply wp_mono; [apply (out_words_spec 128 ptr s1 blkno); [lia|simpl; lia|exact Hp1|lia]|].
    intros r s2 (-> & Hm2 & Hok2 & Hst2). rewrite (wrap_small 32) by lia.
    eapply wp_mono; [apply (IH (blkno + 1) (ptr + 4 * Z.of_nat 128) s2); [done|lia|lia|lia|done|by rewrite Hm2, Hm1]|].
    intros [] s3 (Hok3 & Hm3 & Hst3). split; [done|]. split; [congruence|]. rewrite Hm2, Hm1 in *. rewrite Hd1 in Hst2.
    replace (128 * Z.of_nat (S n)) with (128 + 128 * Z.of_nat n) by lia.
    apply (words_stored_app _ _ _ _ _ _ (a_disk (drive s2))); [lia|lia| |].
    + unfold words_per_sector in Hst2. by replace (blkno * 128) with (blkno * 128 + (128 - Z.of_nat 128)) by lia.
    + by replace (blkno * 128 + 128) with ((blkno + 1) * 128) by lia.
Qed.
End Requests.

Section DiskSpec.
Context {D : Type} `{AtaDisk D} (fuel : nat) (Hfuel : (ata_latency < fuel)%nat).
Implicit Types (s : machine D).

(** A request for the transfer of [blkcnt] blocks. *)
Definition blkio_request (m : mem) (req : Z) (write : bool) (data blkno blkcnt : Z) : Prop :=
  0 < req /\ load_le 1 m req = (if write then 1 else 0) /\ load64 m (req + 8) = data /\
  load32 m (req + 16) = blkno /\ load32 m (req + 20) = blkcnt.

Lemma wp_blkio bio write buf blkno blkcnt s (Q : unit -> machine D -> Prop) :
  blkio_request (mc_mem s) bio write buf blkno blkcnt ->
  wp (disk_blocks fuel bio (Z.to_nat blkcnt) blkno buf) s Q -> wp (disk_blkio fuel bio) s Q.
Proof.
  intros (Hp & Hw & Hd & Hn & Hc) HQ. unfold disk_blkio. do 4 (apply wp_bind, wp_read; [lia|]). cbn [st_mem machine_has_mem].
  unfold load64, load32 in *. by rewrite Hd, Hn, Hc.
Qed.

(** [disk_blkio] moves whole blocks between the drive and memory, in order, and changes
    nothing else: on a read, byte [j] of the buffer is byte [j] of the drive from the block
    on and no other byte of memory changes; on a write, the words of the drive from the block
    on are those of the buffer, all others stay, and memory does too. The buffer of a read must
    not cover the byte of its request that says that it is one. *)
Theorem disk_blkio_spec bio (write : bool) buf blkno blkcnt s :
  drive_ok s -> blkio_request (mc_mem s) bio write buf blkno blkcnt ->
  0 < buf -> 0 <= blkno -> 0 <= blkcnt -> blkno + blkcnt <= 2 ^ 28 ->
  (write = false -> ~ inr buf (BLKSZ * blkcnt) bio) ->
  wp (disk_blkio fuel bio) s (fun _ s' => drive_ok s' /\
    if write then
      mc_mem s' = mc_mem s /\
      words_stored (mc_mem s) buf (blkno * words_per_sector) (words_per_sector * blkcnt) (a_disk (drive s)) (a_disk (drive s'))
    else
      a_disk (drive s') = a_disk (drive s) /\ only_in (inr buf (BLKSZ * blkcnt)) (mc_mem s) (mc_mem s') /\
      forall j, 0 <= j < BLKSZ * blkcnt -> load8 (mc_mem s') (buf + j) = disk_byte (drive s) (BLKSZ * blkno + j)).
Proof.
  intros Hok Hreq Hbuf Hno Hcnt Hmax Hout. eapply wp_blkio; [exact Hreq|]. destruct Hreq as (Hp & Hw & _).
  replace blkcnt with (Z.of_nat (Z.to_nat blkcnt)) in Hmax, Hout |- * by lia. rewrite Nat2Z.id. destruct write.
  - by apply disk_write_blocks.
  - apply disk_read_blocks; try done. by apply Hout.
Qed.

(** Writing blocks leaves memory as it is, and reading them back gives what was written. *)
Lemma disk_write_keeps wreq rreq buf1 buf2 blkno blkcnt s :
  drive_ok s -> blkio_request (mc_mem s) wreq true buf1 blkno blkcnt -> blkio_request (mc_mem s) rreq false buf2 blkno blkcnt ->
  0 < buf1 -> 0 < buf2 -> 0 <= blkno -> 0 <= blkcnt -> blkno + blkcnt <= 2 ^ 28 -> ~ inr buf2 (BLKSZ * blkcnt) rreq ->
  wp (disk_blkio fuel wreq) s (fun _ s1 => mc_mem s1 = mc_mem s /\
    wp (disk_blkio fuel rreq) s1 (fun _ s' =>
      forall j, 0 <= j < BLKSZ * blkcnt -> load8 (mc_mem s') (buf2 + j) = load8 (mc_mem s) (buf1 + j))).
Proof.
  intros Hok Hw Hr Hb1 Hb2 Hno Hcnt Hmax Hout. eapply wp_blkio; [exact Hw|]. destruct Hw as (Hwp & Hww & _).
  pose proof Hr as (Hrp & Hrw & _). set (n := Z.to_nat blkcnt).
  assert (blkcnt = Z.of_nat n) as En by (unfold n; lia). rewrite En in Hmax, Hout.
  eapply wp_mono; [by apply disk_write_blocks|]. intros [] s1 (Hok1 & Hm1 & Hst). split; [done|].
  eapply wp_blkio; [by rewrite Hm1|]. fold n.
  eapply wp_mono; [apply disk_read_blocks; try done; by rewrite Hm1|]. intros [] s2 (_ & _ & _ & Hbytes) j Hj. rewrite En in Hj.
  rewrite Hbytes by done.
  unfold disk_byte, BLKSZ in *. rewrite Hst. unfold words_per_sector.
  assert (blkno * 128 <= (512 * blkno + j) / 4 < blkno * 128 + 128 * Z.of_nat n) as Hrg by zdm.
  destruct (Z.leb_spec (blkno * 128) ((512 * blkno + j) / 4)), (Z.ltb_spec ((512 * blkno + j) / 4) (blkno * 128 + 128 * Z.of_nat n)); [|lia..].
  simpl andb. cbv iota. rewrite load32_byte by zdm. f_equal. zdm.
Qed.
End DiskSpec.

(** ** A drive *)

#[export] Instance ata_ports : Ports ata := {|
  port_in := fun w port a =>
    if port =? 0x1f7 then ((if (a_busy a =? 0)%nat then 0x40 else 0x80), ata_status_read a)
    else match a_phase a with
         | Reading lba word => if port =? 0x1f0 then (a_disk a (lba * words_per_sector + word), ata_fetched lba word a) else (0, a)
         | _ => (0, a)
         end;
  port_out := fun w port v a =>
    if port =? 0x1f7 then (if v =? 0x30 then ata_start true 2 a else ata_start false 2 a)
    else match a_phase a with
         | Writing lba word =>
             if port =? 0x1f0 then ata_stored lba word v (if word + 1 =? words_per_sector then 2%nat else 0%nat) a else a
         | _ => ata_set_reg port v a
         end |}.

#[export, refine] Instance ata_drive : AtaDisk ata := {| ata_view := fun a => a; ata_latency := 2 |}.
Proof.
  - intros d. split; [|done]. simpl. destruct (Nat.eqb_spec (a_busy d) 0); by split.
  - intros d port v Hp Hb Hi. simpl. destruct (Z.eqb_spec port 0x1f7); [lia|]. by rewrite Hi.
  - intros d [] Hb Hi _ _; exists 2%nat; split; done || lia.
  - intros d lba word Hb Hp. simpl. by rewrite Hp.
  - intros d lba word v Hb Hp. eexists. split; [|simpl; rewrite Hp; reflexivity]. by destruct (word + 1 =? words_per_sector).
Defined.

(** An idle drive whose byte [x] is [x mod 251]. *)
Definition demo_ata : ata :=
  mk_ata (fun i => (4 * i) mod 251 + 256 * ((4 * i + 1) mod 251) + 65536 * ((4 * i + 2) mod 251) + 16777216 * ((4 * i + 3) mod 251))
    (fun _ => 0) Idle 0.

(** A request at 0x100 for blocks from block 5 on, into a buffer. *)
Definition disk_request (m : mem) (req w buf n : Z) : mem :=
  store_le 4 (store_le 4 (store64 (store8 m req w) (req + 8) buf) (req + 16) 5) (req + 20) n.

Definition demo_disk (buf n : Z) : machine ata := mk_machine (disk_request (fun x => x) 0x100 0 buf n) demo_ata.

Lemma demo_disk_ok buf n : drive_ok (demo_disk buf n).
Proof. split; [done|simpl; lia]. Qed.

Lemma disk_blkio_spec_witness :
  wp (disk_blkio 3 0x100) (demo_disk 0x1000 2) (fun _ s' => drive_ok s' /\
    a_disk (drive s') = a_disk demo_ata /\ only_in (inr 0x1000 (BLKSZ * 2)) (mc_mem (demo_disk 0x1000 2)) (mc_mem s') /\
    forall j, 0 <= j < BLKSZ * 2 -> load8 (mc_mem s') (0x1000 + j) = disk_byte demo_ata (BLKSZ * 5 + j)).
Proof.
  assert (ata_latency < 3)%nat as Hf by (simpl; lia).
  apply (disk_blkio_spec 3 Hf 0x100 false 0x1000 5 2 (demo_disk 0x1000 2) (demo_disk_ok 0x1000 2)); try lia.
  - split; [lia|]. vm_compute. auto.
  - intros _. unfold inr, BLKSZ. lia.
Defined.

Example disk_read_demo :
  match disk_blkio 3 0x100 (demo_disk 0x1000 1) with
  | Done _ s => (load8 (mc_mem s) 0x1000, load8 (mc_mem s) 0x11ff, load8 (mc_mem s) 0x1200)
  | Fault _ => (0, 0, 0)
  end = ((5 * 512) mod 251, (5 * 512 + 511) mod 251, 0).
Proof. vm_compute. reflexivity. Qed.

(** A read of three blocks into a buffer that covers the request: the first block overwrites
    the byte that says that it is a read, and the code goes on writing, from the memory behind
    the buffer to the drive. *)
Example disk_read_turns :
  match disk_blkio 3 0x100 (demo_disk 0xa0 3) with
  | Done _ s => (load8 (mc_mem s) 0xa0, load8 (mc_mem s) 0x29f, disk_byte (drive s) (512 * 5), disk_byte (drive s) (512 * 6))
  | Fault _ => (0, 0, 0, 0)
  end = ((5 * 512) mod 251, (5 * 512 + 511) mod 251, (5 * 512) mod 251, 0xa0).
Proof. vm_compute. reflexivity. Qed.
