(* ===== verification/Boot.v ===== *)
(** * The boot loader: am/src/x86/qemu/boot/main.c

    The image on the disk is a boot sector, 1024 bytes of arguments and an ELF file. The
    loader reads whole sectors to where the program headers want them and clears what is
    behind the file's part of a segment. *)

From stdpp Require Import prelude.
From S2P Require Import Prelude Mem Trm Disk.

Definition SECTSIZE : Z := 512.
Definition ARGSIZE : Z := 1024.
Definition BOOTREC_ADDR : Z := 0x07000.
Definition MAINARG_ADDR : Z := 0x10000.

(** [EM_X86_64] of elf.h, and where its structures have the fields the loader reads. *)
Definition EM_X86_64 : Z := 62.

Section Loader.
Context {D : Type} `{Ports D} (fuel : nat).

(** The commands are those of the disk driver. *)
Definition read_disk (buf sect : Z) : M (machine D) unit :=
  _ ← select_sector fuel sect;
  _ ← start_command fuel 0x20;
  _ ← in_words (Z.to_nat (SECTSIZE / 4)) buf;
  mret tt.

Fixpoint copy_sectors (k : nat) (cur ed sect : Z) : M (machine D) unit :=
  match k with
  | O => raise OutOfFuel
  | S k =>
      if cur <? ed then
        _ ← read_disk cur (i32 sect);
        copy_sectors k (u32 (cur + SECTSIZE)) ed (u32 (sect + 1))
      else mret tt
  end.

Definition copy_from_disk (buf nbytes disk_offset : Z) : M (machine D) unit :=
  let cur := Z.land (u32 buf) (u32 (Z.lnot (SECTSIZE - 1))) in
  let ed := u32 (u32 buf + nbytes) in
  let sect := u32 (Z.quot disk_offset SECTSIZE + Z.quot ARGSIZE SECTSIZE + 1) in
  copy_sectors fuel cur ed sect.

(** Lines 37-39. *)
Fixpoint clear_bss (k : nat) (bss i memsz : Z) : M (machine D) unit :=
  match k with
  | O => raise OutOfFuel
  | S k =>
      if i =? memsz then mret tt
      else _ ← write_le 1 bss 0 0; clear_bss k (bss + 1) (u32 (i + 1)) memsz
  end.

Definition load_program (filesz memsz paddr offset : Z) : M (machine D) unit :=
  _ ← copy_from_disk paddr (i32 filesz) (i32 offset);
  clear_bss fuel (u32 (paddr + filesz)) filesz memsz.

(** Lines 44-51: [ph] is the [i]th program header. *)
Fixpoint load_elf64_loop (k : nat) (elf ph i : Z) : M (machine D) unit :=
  match k with
  | O => raise OutOfFuel
  | S k =>
      e_phnum ← read_le 2 elf 56;
      if i <? e_phnum then
        p_filesz ← read_le 8 ph 32;
        p_memsz ← read_le 8 ph 40;
        p_paddr ← read_le 8 ph 24;
        p_offset ← read_le 8 ph 8;
        _ ← load_program (u32 p_filesz) (u32 p_memsz) (u32 p_paddr) (u32 p_offset);
        load_elf64_loop k elf (ph + 56) (i + 1)
      else mret tt
  end.

Definition load_elf64 (elf : Z) : M (machine D) unit :=
  e_phoff ← read_le 8 elf 32;
  load_elf64_loop fuel elf (u32 (elf + e_phoff)) 0.

Fixpoint load_elf32_loop (k : nat) (elf ph i : Z) : M (machine D) unit :=
  match k with
  | O => raise OutOfFuel
  | S k =>
      e_phnum ← read_le 2 elf 44;
      if i <? e_phnum then
        p_filesz ← read_le 4 ph 16;
        p_memsz ← read_le 4 ph 20;
        p_paddr ← read_le 4 ph 12;
        p_offset ← read_le 4 ph 4;
        _ ← load_program p_filesz p_memsz p_paddr p_offset;
        load_elf32_loop k elf (ph + 32) (i + 1)
      else mret tt
  end.

Definition load_elf32 (elf : Z) : M (machine D) unit :=
  e_phoff ← read_le 4 elf 28;
  load_elf32_loop fuel elf (u32 (elf + e_phoff)) 0.

(** The result is the address the loader jumps to. *)
Definition load_kernel : M (machine D) Z :=
  let elf := 0x8000 in
  is_ap ← read_le 4 BOOTREC_ADDR 4;
  _ ← (if is_ap =? 0 then
         _ ← copy_from_disk MAINARG_ADDR 1024 (-1024);
         _ ← copy_from_disk elf 4096 0;
         e_machine ← read_le 2 elf 18;
         if e_machine =? EM_X86_64 then load_elf64 elf else load_elf32 elf
       else mret tt);
  e_machine ← read_le 2 elf 18;
  if e_machine =? EM_X86_64 then e_entry ← read_le 8 elf 24; mret (u32 e_entry)
  else read_le 4 elf 24.
End Loader.

(** ** Segments *)

Record segment : Type := mk_seg { sg_filesz : Z; sg_memsz : Z; sg_paddr : Z; sg_offset : Z }.

(** The file starts behind the boot sector and the arguments. *)
Definition file_start : Z := SECTSIZE + ARGSIZE.

(** A segment the loader can load: the positions in the file and in memory agree modulo the
    size of a sector, and sizes and positions are in the range of [int] and of the first 4 GiB.
    The size of the drive is not part of the model: it has a word at every place. *)
Definition seg_ok (g : segment) : Prop :=
  0 <= sg_offset g < 2 ^ 31 /\ 0 <= sg_filesz g <= sg_memsz g /\ sg_memsz g < 2 ^ 31 /\
  SECTSIZE <= sg_paddr g /\ sg_paddr g + sg_memsz g + SECTSIZE < 2 ^ 32 /\
  sg_paddr g mod SECTSIZE = sg_offset g mod SECTSIZE.

(** The sectors that are read, where they go, and the memory that may change. *)
Definition seg_start (g : segment) : Z := sg_paddr g - sg_paddr g mod SECTSIZE.
Definition seg_sectors (g : segment) : Z := (sg_paddr g + sg_filesz g - seg_start g + (SECTSIZE - 1)) / SECTSIZE.

Definition seg_written (g : segment) (x : Z) : Prop :=
  inr (seg_start g) (SECTSIZE * seg_sectors g) x \/ inr (sg_paddr g) (sg_memsz g) x.

(** The segment is in memory: the bytes of the file, then zeros. *)
Definition seg_loaded (a : ata) (m : mem) (g : segment) : Prop :=
  (forall j, 0 <= j < sg_filesz g -> load8 m (sg_paddr g + j) = disk_byte a (file_start + sg_offset g + j)) /\
  (forall j, sg_filesz g <= j < sg_memsz g -> load8 m (sg_paddr g + j) = 0).

Section LoaderSpec.
Context {D : Type} `{AtaDisk D} (fuel : nat) (Hfuel : (ata_latency < fuel)%nat).
Implicit Types (s : machine D).

Lemma read_disk_spec buf sect s :
  drive_ok s -> 0 <= sect < 2 ^ 28 -> 0 < buf ->
  wp (read_disk fuel buf sect) s (fun _ s' => drive_ok s' /\ a_disk (drive s') = a_disk (drive s) /\
    only_in (inr buf SECTSIZE) (mc_mem s) (mc_mem s') /\
    forall j, 0 <= j < SECTSIZE -> load8 (mc_mem s') (buf + j) = disk_byte (drive s) (SECTSIZE * sect + j)).
Proof.
  intros Hok Hs Hb. unfold read_disk. apply wp_bind. eapply wp_mono; [by apply (select_spec fuel Hfuel)|].
  intros [] s0 (Hm0 & Hd0 & Hsel). apply wp_bind. eapply wp_mono; [by apply (start_spec fuel Hfuel false)|].
  intros [] s1 (Hm1 & Hd1 & Hb1 & Hp1). rewrite Hm0 in Hm1. rewrite Hd0 in Hd1. apply wp_bind. change (Z.to_nat (SECTSIZE / 4)) with 128%nat.
  eapply wp_mono; [apply (in_words_spec 128 buf s1 sect); [lia|done|exact Hp1|done]|].
  intros r s2 (_ & Hd2 & Hb2 & Hi2 & Ho2 & Hbytes). apply wp_ret. rewrite Hm1 in Ho2. split; [split; [done|lia]|].
  split; [congruence|]. split; [exact Ho2|]. intros j Hj. unfold SECTSIZE in *. rewrite Hbytes by lia. unfold disk_byte, BLKSZ.
  rewrite Hd1. by replace (512 * sect + (512 - 4 * Z.of_nat 128) + j) with (512 * sect + j) by lia.
Qed.

Lemma copy_sectors_spec k n cur ed sect s :
  drive_ok s -> (n < k)%nat -> 0 < cur -> cur + SECTSIZE * Z.of_nat n < 2 ^ 32 -> 0 <= sect -> sect + Z.of_nat n <= 2 ^ 28 ->
  ed <= cur + SECTSIZE * Z.of_nat n -> cur + SECTSIZE * (Z.of_nat n - 1) < ed \/ n = 0%nat ->
  wp (copy_sectors fuel k cur ed sect) s (fun _ s' => drive_ok s' /\ a_disk (drive s') = a_disk (drive s) /\
    only_in (inr cur (SECTSIZE * Z.of_nat n)) (mc_mem s) (mc_mem s') /\
    forall j, 0 <= j < SECTSIZE * Z.of_nat n -> load8 (mc_mem s') (cur + j) = disk_byte (drive s) (SECTSIZE * sect + j)).
Proof.
  unfold SECTSIZE. revert n cur sect s. induction k as [|k IH]; intros n cur sect s Hok Hk Hc Hmax Hs Hsm Hed Hlast; [lia|].
  cbn [copy_sectors]. unfold SECTSIZE. destruct (Z.ltb_spec cur ed) as [Hlt|Hge].
  - destruct n as [|n]; [lia|]. apply wp_bind.
    eapply wp_mono; [apply (read_disk_spec cur (i32 sect)); [done|rewrite signed_small by lia; lia|done]|].
    intros [] s1 (Hok1 & Hd1 & Ho1 & Hb1). unfold SECTSIZE in *. rewrite signed_small in Hb1 by lia. rewrite !(wrap_small 32) by lia.
    eapply wp_mono; [apply (IH n (cur + 512) (sect + 1) s1); [done|lia|lia|lia|lia|lia|lia|destruct Hlast; [destruct n; [by right|left]|]; lia]|].
    intros [] s2 (Hok2 & Hd2 & Ho2 & Hb2). split; [done|]. split; [congruence|]. split.
    + etrans; [eapply only_in_weaken; [exact Ho1|]|eapply only_in_weaken; [exact Ho2|]]; unfold inr; lia.
    + intros j Hj. destruct (decide (j < 512)).
      * rewrite (Ho2 (cur + j)) by (unfold inr; lia). apply Hb1. lia.
      * replace (cur + j) with (cur + 512 + (j - 512)) by lia. rewrite Hb2 by lia. unfold disk_byte. rewrite Hd1.
        by replace (512 * (sect + 1) + (j - 512)) with (512 * sect + j) by lia.
  - destruct n as [|n]; [|lia]. apply wp_ret. split; [done|]. split; [done|]. split; [done|lia].
Qed.

Lemma clear_bss_spec k bss i memsz s :
  0 < bss -> 0 <= i <= memsz -> memsz < 2 ^ 31 -> (Z.to_nat (memsz - i) < k)%nat ->
  wp (clear_bss k bss i memsz) s (fun _ s' => mc_dev s' = mc_dev s /\ only_in (inr bss (memsz - i)) (mc_mem s) (mc_mem s') /\
    forall j, 0 <= j < memsz - i -> load8 (mc_mem s') (bss + j) = 0).
Proof.
  revert bss i s. induction k as [|k IH]; intros bss i s Hb Hi Hm Hk; [lia|]. cbn [clear_bss].
  destruct (Z.eqb_spec i memsz) as [->|Hne].
  - apply wp_ret. split; [done|]. split; [done|lia].
  - apply wp_bind, wp_write; [lia|]. rewrite Z.add_0_r. set (s1 := st_upd _ s). rewrite (wrap_small 32) by lia.
    eapply wp_mono; [apply (IH (bss + 1) (i + 1) s1); lia|]. intros [] s2 (Hd & Ho & Hz). split; [by rewrite Hd|]. split.
    + etrans; [|eapply only_in_weaken; [exact Ho|unfold inr; lia]]. apply only_in_store; [done|]. unfold inr. lia.
    + intros j Hj. destruct (decide (j = 0)) as [->|].
      * rewrite (Ho (bss + 0)) by (unfold inr; lia). simpl mc_mem. rewrite load8_store_le.
        destruct (Z.leb_spec bss (bss + 0)), (Z.ltb_spec (bss + 0) (bss + Z.of_nat 1)); [done|lia..].
      * replace (bss + j) with (bss + 1 + (j - 1)) by lia. apply Hz. lia.
Qed.

(** Rounds of the loops a segment takes. *)
Definition seg_fuel (g : segment) : nat :=
  S (Nat.max (Z.to_nat (seg_sectors g)) (Z.to_nat (sg_memsz g - sg_filesz g))).

Lemma sector_of_paddr p : 0 <= p < 2 ^ 32 -> Z.land (u32 p) (u32 (Z.lnot (SECTSIZE - 1))) = p - p mod SECTSIZE.
Proof. intros Hp. rewrite (wrap_small 32 p) by done. exact (land_mask p 9 32 ltac:(lia) Hp). Qed.

Lemma load_program_spec g s :
  drive_ok s -> seg_ok g -> (seg_fuel g <= fuel)%nat ->
  wp (load_program fuel (sg_filesz g) (sg_memsz g) (sg_paddr g) (sg_offset g)) s (fun _ s' => drive_ok s' /\
    a_disk (drive s') = a_disk (drive s) /\ only_in (seg_written g) (mc_mem s) (mc_mem s') /\ seg_loaded (drive s) (mc_mem s') g).
Proof.
  unfold seg_ok, seg_fuel, seg_written, seg_loaded, file_start, load_program, copy_from_disk.
  destruct g as [fs ms p o]. simpl. intros Hok (Ho & Hf & Hm & Hp & Hpm & Hmod) Hfu.
  set (g := mk_seg fs ms p o) in *. set (n := seg_sectors g) in *. set (st := seg_start g) in *.
  assert (st = p - p mod 512) as Est by done. assert (n = (p + fs - st + 511) / 512) as En by done.
  assert (file_start = 1536) as Efile by done. unfold SECTSIZE, ARGSIZE in *.
  assert (0 <= st <= p /\ p < st + 512 /\ 512 <= st) as (? & ? & ?) by zdm.
  assert (0 <= n /\ p + fs <= st + 512 * n /\ st + 512 * (n - 1) < p + fs) as (? & ? & ?) by zdm.
  pose proof (sector_of_paddr p ltac:(lia)) as Eland. unfold SECTSIZE in Eland. rewrite Eland, <- Est.
  rewrite !(signed_small 32) by lia.
  rewrite (wrap_small 32 p) by lia. rewrite (wrap_small 32 (p + fs)) by lia. change (Z.quot 1024 512) with 2.
  rewrite Z.quot_div_nonneg by lia. assert (0 <= o / 512 < 2 ^ 22) as Hsec by (change (2 ^ 31) with 2147483648 in *; change (2 ^ 22) with 4194304; zdm).
  rewrite (wrap_small 32 (o / 512 + 2 + 1)) by lia.
  apply wp_bind. eapply wp_mono; [apply (copy_sectors_spec fuel (Z.to_nat n)); unfold SECTSIZE; try done; try lia|].
  unfold SECTSIZE. rewrite Z2Nat.id by lia. intros [] s1 (Hok1 & Hd1 & Ho1 & Hb1).
  eapply wp_mono; [apply (clear_bss_spec fuel (p + fs) fs ms s1); lia|]. intros [] s2 (Hd2 & Ho2 & Hz2).
  assert (drive s2 = drive s1) as Ed by (unfold drive; by rewrite Hd2).
  split; [by unfold drive_ok; rewrite Ed|]. split; [by rewrite Ed|]. split; [|split].
  - etrans; [eapply only_in_weaken; [exact Ho1|]|eapply only_in_weaken; [exact Ho2|]]; unfold inr; simpl; lia.
  - intros j Hj. rewrite Ho2 by (unfold inr; lia). replace (p + j) with (st + (p mod 512 + j)) by lia.
    rewrite Hb1 by zdm. unfold disk_byte. replace (512 * (o / 512 + 2 + 1) + (p mod 512 + j)) with (1536 + o + j) by zdm. done.
  - intros j Hj. replace (p + j) with (p + fs + (j - fs)) by lia. apply Hz2. lia.
Qed.

(** ** ELF files *)

Definition phdr64_at (m : mem) (ph : Z) (g : segment) : Prop :=
  u32 (load64 m (ph + 8)) = sg_offset g /\ u32 (load64 m (ph + 24)) = sg_paddr g /\
  u32 (load64 m (ph + 32)) = sg_filesz g /\ u32 (load64 m (ph + 40)) = sg_memsz g.

Fixpoint phdrs64_at (m : mem) (ph : Z) (gs : list segment) : Prop :=
  match gs with
  | [] => True
  | g :: gs => phdr64_at m ph g /\ phdrs64_at m (ph + 56) gs
  end.

(** Loading a later segment leaves an earlier one alone. *)
Definition spares (g g' : segment) : Prop := forall x, seg_written g' x -> ~ inr (sg_paddr g) (sg_memsz g) x.

Definition written (gs : list segment) (x : Z) : Prop := exists g, g ∈ gs /\ seg_written g x.

Lemma phdrs64_frame (R : Z -> Prop) m m' ph gs :
  only_in R m m' -> (forall x, ph <= x < ph + 56 * Z.of_nat (length gs) -> ~ R x) -> phdrs64_at m ph gs -> phdrs64_at m' ph gs.
Proof.
  intros Ho. revert ph. induction gs as [|g gs IH]; intros ph HR; [done|]. simpl in HR. intros [Hg Hgs]. split.
  - unfold phdr64_at, load64 in *. rewrite !(only_in_load R 8 m m') by (try done; intros x Hx; apply HR; lia). done.
  - apply IH; [|done]. intros x Hx. apply HR. lia.
Qed.

Lemma seg_loaded_frame (R : Z -> Prop) a m m' g :
  only_in R m m' -> (forall x, inr (sg_paddr g) (sg_memsz g) x -> ~ R x) -> 0 <= sg_filesz g <= sg_memsz g ->
  seg_loaded a m g -> seg_loaded a m' g.
Proof.
  intros Ho HR Hf [H1 H2]. split; intros j Hj; rewrite Ho by (apply HR; unfold inr; lia); auto.
Qed.

Lemma load_elf64_loop_spec k elf ph i gs s :
  drive_ok s -> 0 < elf -> 0 < ph -> (length gs < k)%nat -> load_le 2 (mc_mem s) (elf + 56) = i + Z.of_nat (length gs) ->
  phdrs64_at (mc_mem s) ph gs -> Forall seg_ok gs -> Forall (fun g => (seg_fuel g <= fuel)%nat) gs -> pairwise spares gs ->
  (forall x, inr elf 64 x \/ inr ph (56 * Z.of_nat (length gs)) x -> ~ written gs x) ->
  wp (load_elf64_loop fuel k elf ph i) s (fun _ s' => drive_ok s' /\ a_disk (drive s') = a_disk (drive s) /\
    only_in (written gs) (mc_mem s) (mc_mem s') /\ Forall (seg_loaded (drive s) (mc_mem s')) gs).
Proof.
  revert ph i gs s. induction k as [|k IH]; intros ph i gs s Hok He Hph Hk Hnum Hat Hsok Hsf Hsp Hap; [lia|].
  cbn [load_elf64_loop]. apply wp_bind, wp_read; [lia|]. simpl st_mem. rewrite Hnum. destruct gs as [|g gs].
  - destruct (Z.ltb_spec i (i + Z.of_nat (length (@nil segment)))); [simpl in *; lia|]. apply wp_ret. done.
  - destruct (Z.ltb_spec i (i + Z.of_nat (length (g :: gs)))); [|simpl in *; lia].
    destruct Hat as [(Eo & Ep & Ef & Em) Hat]. unfold load64 in *.
    do 4 (apply wp_bind, wp_read; [lia|]). simpl st_mem. rewrite Eo, Ep, Ef, Em.
    apply Forall_cons in Hsok as [Hg Hsok]. apply Forall_cons in Hsf as [Hgf Hsf]. destruct Hsp as [Hsp1 Hsp].
    apply wp_bind. eapply wp_mono; [by apply load_program_spec|]. intros [] s1 (Hok1 & Hd1 & Ho1 & Hl1).
    assert (forall x, inr elf 64 x \/ inr ph (56 * Z.of_nat (length (g :: gs))) x -> ~ seg_written g x) as Hapg.
    { intros x Hx Hw. apply (Hap x Hx). exists g. split; [left|done]. }
    eapply wp_mono; [apply (IH (ph + 56) (i + 1) gs s1); try done; try lia|].
    + simpl in Hk. lia.
    + rewrite (only_in_load (seg_written g) 2 (mc_mem s)); [|done|intros x Hx; apply Hapg; left; unfold inr; lia]. rewrite Hnum. simpl. lia.
    + eapply phdrs64_frame; [exact Ho1| |exact Hat]. intros x Hx. apply Hapg. right. unfold inr. simpl. lia.
    + intros x Hx (g' & Hg' & Hw). apply (Hap x); [|exists g'; split; [by right|done]].
      destruct Hx as [Hx|Hx]; [by left|right]. unfold inr in *. simpl. lia.
    + intros [] s2 (Hok2 & Hd2 & Ho2 & Hl2). split; [done|]. split; [congruence|]. split.
      * etrans; [eapply only_in_weaken; [exact Ho1|]|eapply only_in_weaken; [exact Ho2|]]; intros x.
        -- intros Hw. exists g. split; [left|done].
        -- intros (g' & Hg' & Hw). exists g'. split; [by right|done].
      * apply Forall_cons. split.
        -- eapply seg_loaded_frame; [exact Ho2| |by destruct Hg as (_ & ? & _)|done]. intros x Hx (g' & Hg' & Hw).
           rewrite Forall_forall in Hsp1. by apply (Hsp1 g' Hg' x).
        -- eapply Forall_impl; [exact Hl2|]. intros g'. unfold seg_loaded, disk_byte. by rewrite Hd1.
Qed.

(** C26: all segments of an ELF file are in memory, each byte from its place in the file and
    the rest cleared, and only the whole sectors that hold them are written. The conditions:
    the physical address of a segment is its file offset modulo 512 and addresses and offsets
    are in range ([seg_ok]); no segment's sectors cover the memory of an earlier segment
    ([spares]) or the ELF header and the program headers. *)
Theorem load_elf64_spec elf phoff gs s :
  drive_ok s -> 0 < elf -> 0 <= phoff -> elf + phoff + 56 * Z.of_nat (length gs) < 2 ^ 32 -> (length gs < fuel)%nat ->
  load64 (mc_mem s) (elf + 32) = phoff -> load_le 2 (mc_mem s) (elf + 56) = Z.of_nat (length gs) ->
  phdrs64_at (mc_mem s) (elf + phoff) gs -> Forall seg_ok gs -> Forall (fun g => (seg_fuel g <= fuel)%nat) gs ->
  pairwise spares gs ->
  (forall x, inr elf 64 x \/ inr (elf + phoff) (56 * Z.of_nat (length gs)) x -> ~ written gs x) ->
  wp (load_elf64 fuel elf) s (fun _ s' => drive_ok s' /\ a_disk (drive s') = a_disk (drive s) /\
    only_in (written gs) (mc_mem s) (mc_mem s') /\ Forall (seg_loaded (drive s) (mc_mem s')) gs).
Proof.
  intros Hok He Hpo Hmax Hf Eoff Enum Hat Hsok Hsf Hsp Hap. unfold load_elf64. apply wp_bind, wp_read; [lia|]. simpl st_mem.
  unfold load64 in Eoff. rewrite Eoff, wrap_small by lia. by apply load_elf64_loop_spec; try lia.
Qed.
End LoaderSpec.

(** ** An ELF header with one segment of 700 bytes, 1000 in memory *)

Definition demo_seg : segment := mk_seg 700 1000 0x100000 0x1000.

Definition demo_elf : mem :=
  store64 (store64 (store64 (store64 (store_le 2 (store64 (fun _ => 0) (0x8000 + 32) 64) (0x8000 + 56) 1)
    (0x8040 + 8) 0x1000) (0x8040 + 24) 0x100000) (0x8040 + 32) 700) (0x8040 + 40) 1000.

Lemma load_elf64_spec_witness :
  wp (load_elf64 400 0x8000) (mk_machine demo_elf demo_ata) (fun _ s' => drive_ok s' /\
    a_disk (drive s') = a_disk demo_ata /\ only_in (written [demo_seg]) demo_elf (mc_mem s') /\
    Forall (seg_loaded demo_ata (mc_mem s')) [demo_seg]).
Proof.
  assert (ata_latency < 400)%nat as Hf by (simpl; lia).
  apply (load_elf64_spec 400 Hf 0x8000 64 [demo_seg] (mk_machine demo_elf demo_ata)).
  - split; [done|simpl; lia].
  - lia.
  - lia.
  - simpl. lia.
  - simpl. lia.
  - reflexivity.
  - reflexivity.
  - repeat split.
  - apply Forall_singleton. unfold seg_ok, SECTSIZE. simpl. repeat split; try lia; reflexivity.
  - apply Forall_singleton. vm_compute. lia.
  - repeat split. apply Forall_nil. done.
  - intros x Hx (g & ->%list_elem_of_singleton & Hw). unfold seg_written in Hw.
    change (seg_start demo_seg) with 0x100000 in Hw. change (SECTSIZE * seg_sectors demo_seg) with 1024 in Hw.
    unfold inr in *. simpl in *. lia.
Defined.

(** Another processor jumps to the entry point without loading anything. *)
Example load_kernel_other_cpu :
  match load_kernel 400 (mk_machine (store_le 2 (store32 (store64 (fun _ => 0) (0x8000 + 24) 0x100020) (BOOTREC_ADDR + 4) 1)
    (0x8000 + 18) EM_X86_64) demo_ata) with
  | Done e s => e
  | Fault _ => 0
  end = 0x100020.
Proof. reflexivity. Qed.
