(* ===== verification/Clock.v ===== *)
(** * The console and the clock: am/src/x86/qemu/ioe.c, lines 4-100

    The order in which the compiler reads the registers of a date is a parameter; the clock
    chip goes on counting while it is read. *)

From stdpp Require Import prelude functions.
From S2P Require Import Prelude Mem Trm.

(** ** The serial line *)

Definition COM1 : Z := 0x3f8.

Section Uart.
Context {D : Type} `{Ports D}.

Definition uart_init : M (machine D) Z :=
  _ ← outb (COM1 + 2) 0;
  _ ← outb (COM1 + 3) 0x80;
  _ ← outb (COM1 + 0) (115200 / 9600);
  _ ← outb (COM1 + 1) 0;
  _ ← outb (COM1 + 3) 0x03;
  _ ← outb (COM1 + 4) 0;
  _ ← outb (COM1 + 1) 0x01;
  _ ← inb (COM1 + 2);
  _ ← inb (COM1 + 0);
  mret 0.

Definition uart_tx (data : Z) : M (machine D) unit := outb COM1 data.

(** The byte as a [char]; -1 when there is none. *)
Definition uart_rx : M (machine D) Z :=
  st ← inb (COM1 + 5);
  if negb (Z.land st 0x1 =? 0) then v ← inb COM1; mret (signed 8 v) else mret (-1).
End Uart.

(** ** The clock *)

Record AM_TIMER_RTC_T : Type := mk_rtc { year : Z; month : Z; day : Z; hour : Z; minute : Z; second : Z }.

(** The time stamp counter of the processor. *)
Class Tsc (D : Type) : Type := { tsc_read : D -> Z * D }.

Section Timer.
Context {D : Type} `{Ports D} `{Tsc D} (order : list Z).

Definition read_rtc (reg : Z) : M (machine D) Z :=
  _ ← outb 0x70 reg;
  ret ← inb 0x71;
  mret (Z.land ret 0xf + Z.shiftr ret 4 * 10).

(** The registers in turn, as a function from a register to what was read. *)
Fixpoint read_regs (regs : list Z) : M (machine D) (Z -> Z) :=
  match regs with
  | [] => mret (fun _ => 0)
  | reg :: regs => v ← read_rtc reg; f ← read_regs regs; mret (<[reg := v]> f)
  end.

(** The members of the initialiser of lines 49-56 are evaluated in an order that the language
    leaves open: [order] lists their registers as the compiler chose it. *)
Definition read_rtc_async : M (machine D) AM_TIMER_RTC_T :=
  r ← read_regs order;
  mret (mk_rtc (r 9 + 2000) (r 8) (r 7) (r 4) (r 2) (r 0)).

Fixpoint timer_rtc (k : nat) : M (machine D) AM_TIMER_RTC_T :=
  match k with
  | O => raise OutOfFuel
  | S k =>
      rtc ← read_rtc_async;
      tmp ← read_rtc 0;
      if negb (tmp =? second rtc) then timer_rtc k else mret rtc
  end.

(** The empty delay loop of line 63 has no effect. *)
Fixpoint wait_sec (k : nat) : M (machine D) AM_TIMER_RTC_T :=
  match k with
  | O => raise OutOfFuel
  | S k =>
      t0 ← read_rtc_async;
      t1 ← read_rtc_async;
      if negb (second t0 =? second t1) then mret t1 else wait_sec k
  end.

Definition rdtsc : M (machine D) Z := fun s =>
  let '(v, d) := tsc_read (mc_dev s) in Done (u64 v) (mk_machine (mc_mem s) d).

Fixpoint estimate_freq (fuel k : nat) : M (machine D) Z :=
  match k with
  | O => raise OutOfFuel
  | S k =>
      rtc1 ← wait_sec fuel;
      tsc1 ← rdtsc;
      let t1 := u64 (minute rtc1 * 60 + second rtc1) in
      rtc2 ← wait_sec fuel;
      tsc2 ← rdtsc;
      let t2 := u64 (minute rtc2 * 60 + second rtc2) in
      if t2 <=? t1 then estimate_freq fuel k
      else mret (u32 (Z.shiftr (u64 (tsc2 - tsc1)) 20 / u64 (t2 - t1)))
  end.

(** [freq_mhz], [boot_date] and [uptsc]. *)
Definition timer_init (fuel : nat) : M (machine D) (Z * AM_TIMER_RTC_T * Z) :=
  freq_mhz ← estimate_freq fuel fuel;
  boot_date ← timer_rtc fuel;
  uptsc ← rdtsc;
  mret (freq_mhz, boot_date, uptsc).

Definition timer_uptime (uptsc freq_mhz : Z) : M (machine D) Z :=
  now ← rdtsc;
  if freq_mhz =? 0 then raise DivByZero else mret (u64 (now - uptsc) / freq_mhz).
End Timer.

(** The registers that [read_rtc_async] reads, as the source lists them. *)
Definition rtc_regs : list Z := [0; 2; 4; 7; 8; 9].

(** ** A clock chip

    The chip counts seconds; its registers hold fields of the second it counts, in BCD. Time
    goes on while it is accessed: [clock_now] is in ticks, [clock_hz] of them are a second,
    and an access takes at most [clock_delay]. *)

Definition to_bcd (v : Z) : Z := v mod 10 + 16 * (v / 10).

Class CmosClock (D : Type) `{Ports D} : Type := {
  clock_now : D -> Z;
  clock_sel : D -> Z;
  clock_hz : Z;
  clock_delay : Z;
  (** The field behind a register in a second. *)
  clock_field : Z -> Z -> Z;
  clock_hz_pos : 0 < clock_hz;
  clock_field_range : forall reg t, 0 <= clock_field reg t < 100;
  clock_seconds : forall t, clock_field 0 t = t mod 60;
  clock_select_spec : forall d reg, 0 <= reg < 256 ->
    clock_sel (port_out 8 0x70 reg d) = reg /\ clock_now d <= clock_now (port_out 8 0x70 reg d) <= clock_now d + clock_delay;
  clock_read_spec : forall d,
    let r := port_in 8 0x71 d in
    r.1 = to_bcd (clock_field (clock_sel d) (clock_now r.2 / clock_hz)) /\
    clock_now d <= clock_now r.2 <= clock_now d + clock_delay;
}.

Lemma bcd_decode v : 0 <= v < 100 -> Z.land (to_bcd v) 0xf + Z.shiftr (to_bcd v) 4 * 10 = v /\ 0 <= to_bcd v < 256.
Proof.
  intros Hv. unfold to_bcd. change 0xf with (Z.ones 4). rewrite Z.land_ones, Z.shiftr_div_pow2 by lia.
  change (2 ^ 4) with 16. split; zdm.
Qed.

Section ClockSpec.
Context {D : Type} `{CmosClock D} (order : list Z) (Horder : order ≡ₚ rtc_regs).
Implicit Types (s : machine D).

(** Ticks and seconds on the clock. *)
Definition now s : Z := clock_now (mc_dev s).
Definition sec s : Z := now s / clock_hz.

Definition date_of (t : Z) : AM_TIMER_RTC_T :=
  mk_rtc (clock_field 9 t + 2000) (clock_field 8 t) (clock_field 7 t) (clock_field 4 t) (clock_field 2 t) (clock_field 0 t).

(** The date of a second, but the registers [old] still show the second before. *)
Definition torn_date (old : list Z) (t : Z) : AM_TIMER_RTC_T :=
  let f reg := clock_field reg (if decide (reg ∈ old) then t - 1 else t) in mk_rtc (f 9 + 2000) (f 8) (f 7) (f 4) (f 2) (f 0).

Lemma torn_date_nil t : torn_date [] t = date_of t.
Proof. done. Qed.

(** A register is read as of the end of the access. *)
Lemma read_rtc_spec reg s (Q : Z -> machine D -> Prop) :
  0 <= reg < 256 ->
  (forall s', mc_mem s' = mc_mem s -> now s <= now s' <= now s + 2 * clock_delay -> Q (clock_field reg (sec s')) s') ->
  wp (read_rtc reg) s Q.
Proof.
  intros Hreg HQ. unfold read_rtc. apply wp_bind, wp_out. change (wrap 16 0x70) with 0x70. rewrite (wrap_small 8) by lia.
  destruct (clock_select_spec (mc_dev s) reg Hreg) as [Hsel Hnow]. simpl mc_mem. set (s1 := mk_machine _ _).
  apply wp_bind, wp_in. change (wrap 16 0x71) with 0x71. destruct (clock_read_spec (mc_dev s1)) as [Hv Hnow2].
  assert (clock_sel (mc_dev s1) = reg) as Hsel1 by exact Hsel. set (s2 := mk_machine _ _). rewrite Hv, Hsel1.
  set (v := clock_field reg _). destruct (bcd_decode v (clock_field_range _ _)) as [Hdec Hr]. rewrite wrap_small by done.
  apply wp_ret. rewrite Hdec. apply (HQ s2); [done|]. unfold now, s2. simpl mc_dev. unfold s1 in *. simpl mc_dev in *. lia.
Qed.

Lemma sec_mono s s' : now s <= now s' -> sec s <= sec s'.
Proof. intros Hn. apply Z.div_le_mono; [apply clock_hz_pos|done]. Qed.

(** If at most one second ends while registers are read, those read first are of the second
    before the reading and the others of the second after it. *)
Lemma read_regs_spec regs s :
  NoDup regs -> Forall (fun reg => 0 <= reg < 256) regs -> 0 <= clock_delay ->
  wp (read_regs regs) s (fun f s' => mc_mem s' = mc_mem s /\
    now s <= now s' <= now s + 2 * Z.of_nat (length regs) * clock_delay /\
    (sec s' <= sec s + 1 -> exists old new, regs = old ++ new /\
      (forall reg, reg ∈ old -> f reg = clock_field reg (sec s)) /\
      (forall reg, reg ∈ new -> f reg = clock_field reg (sec s')))).
Proof.
  intros Hnd Hr Hdel. revert s. induction Hnd as [|reg regs Hnin Hnd IH]; intros s; cbn [read_regs].
  - apply wp_ret. split; [done|]. split; [simpl; lia|]. intros _. exists [], [].
    by split_and!; [|intros ? []%elem_of_nil..].
  - apply Forall_cons_1 in Hr as [Hreg Hr]. apply wp_bind, read_rtc_spec; [done|]. intros s1 Hm1 Hn1.
    apply wp_bind. eapply wp_mono; [by apply IH|]. intros f s' (Hm & Hn & Hf). apply wp_ret.
    split; [congruence|]. split; [simpl length; lia|]. intros Hle.
    pose proof (sec_mono s s1 ltac:(lia)). pose proof (sec_mono s1 s' ltac:(lia)).
    destruct (Hf ltac:(lia)) as (old & new & E & Hold & Hnew).
    assert (forall g : Z -> Z, (forall r, r ∈ regs -> f r = g r) -> <[reg := clock_field reg (sec s1)]> f reg = clock_field reg (sec s1) /\
      forall r, r ∈ regs -> <[reg := clock_field reg (sec s1)]> f r = g r) as Hins.
    { intros g Hg. split; [by rewrite fn_lookup_insert|]. intros r Hin. rewrite fn_lookup_insert_ne by congruence. by apply Hg. }
    destruct (decide (sec s1 = sec s)) as [Es|Hne].
    + exists (reg :: old), new. split; [by rewrite E|].
      destruct (Hins f ltac:(done)) as [Hx Hy]. subst regs. split.
      * intros r [->|Hin]%elem_of_cons; [by rewrite Hx, Es|]. rewrite Hy by (apply elem_of_app; auto). rewrite <- Es. by apply Hold.
      * intros r Hin. rewrite Hy by (apply elem_of_app; auto). by apply Hnew.
    + exists [], (reg :: regs). split; [done|]. split; [by intros ? ?%elem_of_nil|]. replace (sec s1) with (sec s') in * by lia.
      destruct (Hins (fun r => clock_field r (sec s'))) as [Hx Hy].
      { subst regs. intros r [Hin|Hin]%elem_of_app; auto. }
      intros r [->|Hin]%elem_of_cons; auto.
Qed.

Lemma order_facts : NoDup order /\ Forall (fun reg => 0 <= reg < 256) order /\ length order = 6%nat /\
  forall reg, reg ∈ order <-> reg ∈ rtc_regs.
Proof.
  split; [rewrite Horder; apply (bool_decide_unpack _); vm_compute; exact I|].
  split; [rewrite Horder; unfold rtc_regs; repeat constructor; lia|].
  split; [by rewrite Horder|]. intros reg. by rewrite Horder.
Qed.

(** One reading of all registers, and of the seconds again: if the seconds agree, the fields
    read before them may be of the second before, and all others are of the same second. *)
Lemma read_twice_spec s :
  0 <= clock_delay ->
  wp (rtc ← read_rtc_async order; tmp ← read_rtc 0; mret (rtc, tmp)) s (fun r s' => mc_mem s' = mc_mem s /\
    now s <= now s' <= now s + 14 * clock_delay /\ (sec s' <= sec s + 1 ->
      (r.2 = second r.1 -> exists t old, sec s <= t <= sec s' /\ prefix old order /\ (0 ∉ old) /\
        (old <> [] -> sec s < t) /\ r.1 = torn_date old t) /\
      (r.2 <> second r.1 -> sec s' = sec s + 1))).
Proof.
  intros Hdel. destruct order_facts as (Hnd & Hreg & Hlen & Hin). unfold read_rtc_async. apply wp_bind, wp_bind.
  eapply wp_mono; [by apply read_regs_spec|]. intros f s1 (Hm1 & Hn1 & Hf). apply wp_ret. rewrite Hlen in Hn1.
  apply wp_bind, read_rtc_spec; [lia|]. intros s2 Hm2 Hn2. apply wp_ret. cbn [fst snd second].
  split; [congruence|]. split; [lia|]. intros Hle.
  pose proof (sec_mono s s1 ltac:(lia)). pose proof (sec_mono s1 s2 ltac:(lia)). rewrite clock_seconds.
  destruct (Hf ltac:(lia)) as (old & new & E & Hold & Hnew).
  assert (forall t l, (forall reg, reg ∈ rtc_regs -> f reg = clock_field reg (if decide (reg ∈ l) then t - 1 else t)) ->
    mk_rtc (f 9 + 2000) (f 8) (f 7) (f 4) (f 2) (f 0) = torn_date l t) as Hdate.
  { intros t l Hl. unfold torn_date. by rewrite !Hl by (apply (bool_decide_unpack _); exact I). }
  assert (sec s1 = sec s -> forall reg, reg ∈ rtc_regs -> f reg = clock_field reg (sec s)) as Hsame.
  { intros Es reg [Ho|Ho]%Hin%(eq_ind_r (fun l => reg ∈ l) (fun x => x) E)%elem_of_app; [auto|]. rewrite <- Es. auto. }
  assert (0 ∈ rtc_regs) as Hz by (apply (bool_decide_unpack _); exact I).
  destruct (decide (sec s1 = sec s)) as [Es|Hne].
  - pose proof (Hsame Es 0 Hz) as Ef. rewrite clock_seconds in Ef. split.
    + intros _. exists (sec s), []. split; [lia|]. split; [apply prefix_nil|]. split; [by intros ?%elem_of_nil|]. split; [done|].
      apply Hdate. intros reg Hr. destruct (decide (reg ∈ [])) as [[]%elem_of_nil|_]. by apply Hsame.
    + intros Hneq. destruct (decide (sec s2 = sec s)) as [E2|]; [by rewrite E2, Ef in Hneq|lia].
  - split; [|lia]. intros Hsec. assert (0 ∈ old -> False) as H0n.
    { intros Ho. rewrite (Hold 0 Ho), clock_seconds in Hsec. zdm. }
    exists (sec s1), old. split; [lia|]. split; [by exists new|]. split; [done|]. split; [lia|].
    apply Hdate. intros reg Hr%Hin. destruct (decide (reg ∈ old)) as [Ho|Ho].
    + rewrite (Hold reg Ho). f_equal. lia.
    + apply Hnew. rewrite E in Hr. by apply elem_of_app in Hr as [?|?].
Qed.

Lemma timer_rtc_unfold k s :
  timer_rtc order (S k) s = (r ← (rtc ← read_rtc_async order; tmp ← read_rtc 0; mret (rtc, tmp));
    if negb (r.2 =? second r.1) then timer_rtc order k else mret r.1) s.
Proof.
  cbn [timer_rtc]. unfold mbind, M_bind, mret, M_ret. destruct (read_rtc_async order s) as [rtc s1|]; [|done].
  by destruct (read_rtc 0 s1).
Qed.

(** C28: the date that [timer_rtc] returns carries the seconds of a second [t] of the clock
    between the call and the return, and every other field is of [t] too, except that the fields
    which the compiler has read before the seconds, up to some point of its order, may be of the
    second before: the comparison of the seconds does not notice that a second ended before it
    read them first. If the compiler reads the seconds first, as the source lists them, the date
    is that of [t]. Two readings are enough on a clock on which 28 accesses take less than
    a second. *)
Theorem timer_rtc_spec k s :
  0 <= clock_delay -> 28 * clock_delay < clock_hz -> (2 <= k)%nat ->
  wp (timer_rtc order k) s (fun r s' => mc_mem s' = mc_mem s /\ exists t old,
    sec s <= t <= sec s' /\ prefix old order /\ (0 ∉ old) /\ (old <> [] -> sec s < t) /\ r = torn_date old t /\
    (head order = Some 0 -> r = date_of t)).
Proof.
  intros Hdel Hq Hk. pose proof clock_hz_pos as Hhz.
  assert (forall a b, now a <= now b <= now a + 28 * clock_delay -> sec a <= sec b <= sec a + 1) as Hstep.
  { intros a b Hn. unfold sec. split; [apply Z.div_le_mono; lia|]. apply Z.lt_succ_r, Z.div_lt_upper_bound; [done|].
    pose proof (Z.div_mod (now a) clock_hz) as Hd. specialize (Hd ltac:(lia)). pose proof (Z.mod_pos_bound (now a) clock_hz Hhz). nia. }
  assert (forall old t, old `prefix_of` order -> 0 ∉ old -> head order = Some 0 -> torn_date old t = date_of t) as Hfirst.
  { intros old t [new E] Hz Hh. destruct old as [|x old]; [done|]. rewrite E in Hh. simpl in Hh. destruct Hz. injection Hh as ->. by left. }
  destruct k as [|[|k]]; [lia..|]. apply wp_done. rewrite timer_rtc_unfold. apply wp_done, wp_bind.
  eapply wp_mono; [by apply read_twice_spec|]. intros [rtc tmp] s1 (Hm1 & Hn1 & H1). cbn [fst snd] in *.
  destruct (Hstep s s1 ltac:(lia)) as [_ Hle]. destruct (H1 Hle) as [Hok Hno].
  destruct (Z.eqb_spec tmp (second rtc)) as [E|Hne]; simpl negb; cbv iota.
  - apply wp_ret. split; [done|]. destruct (Hok E) as (t & old & Ht & Hpre & Hz & Hold & ->). exists t, old. split_and!; auto; lia.
  - (* a second ended during the first reading, so none ends during the next *)
    specialize (Hno Hne). apply wp_done. rewrite timer_rtc_unfold. apply wp_done, wp_bind.
    eapply wp_mono; [by apply read_twice_spec|]. intros [rtc2 tmp2] s2 (Hm2 & Hn2 & H2). cbn [fst snd] in *.
    destruct (Hstep s s2 ltac:(lia)) as [_ Hle2]. destruct (H2 ltac:(lia)) as [Hok2 Hno2].
    destruct (Z.eqb_spec tmp2 (second rtc2)) as [E2|Hne2]; simpl negb; cbv iota; [|specialize (Hno2 Hne2); lia].
    apply wp_ret. split; [congruence|]. destruct (Hok2 E2) as (t & old & Ht & Hpre & Hz & Hold & ->).
    exists t, old. split_and!; auto; lia.
Qed.
End ClockSpec.

(** ** A clock of 1000 ticks a second, one of which every access takes *)

#[local] Instance demo_clock_ports : Ports (Z * Z) := {|
  port_in := fun w port d =>
    let t := (d.1 + 1) / 1000 in
    let f := if d.2 =? 0 then t mod 60 else if d.2 =? 2 then (t / 60) mod 60 else if d.2 =? 4 then (t / 3600) mod 24 else 1 in
    (to_bcd f, (d.1 + 1, d.2));
  port_out := fun w port v d => (d.1 + 1, v) |}.

#[local, refine] Instance demo_clock : CmosClock (Z * Z) := {|
  clock_now := fst; clock_sel := snd; clock_hz := 1000; clock_delay := 1;
  clock_field := fun reg t =>
    if reg =? 0 then t mod 60 else if reg =? 2 then (t / 60) mod 60 else if reg =? 4 then (t / 3600) mod 24 else 1 |}.
Proof.
  - lia.
  - intros reg t. destruct (reg =? 0); [zdm|]. destruct (reg =? 2); [zdm|]. destruct (reg =? 4); [zdm|lia].
  - done.
  - intros d reg _. simpl. lia.
  - intros d. simpl. split; [done|lia].
Defined.

(** The members in the order of the structure's fields, as gcc evaluates them. *)
Definition field_order : list Z := [9; 8; 7; 4; 2; 0].

Lemma field_order_regs : field_order ≡ₚ rtc_regs.
Proof. apply (bool_decide_unpack _). vm_compute. exact I. Qed.

Lemma timer_rtc_spec_witness :
  let s := mk_machine (fun _ => 0) (45296999, 0) in
  wp (timer_rtc field_order 2) s (fun r s' => mc_mem s' = mc_mem s /\ exists t old,
    sec s <= t <= sec s' /\ prefix old field_order /\ (0 ∉ old) /\ (old <> [] -> sec s < t) /\ r = torn_date old t /\
    (head field_order = Some 0 -> r = date_of t)).
Proof. intros s. apply (timer_rtc_spec field_order field_order_regs 2 s); simpl; lia. Defined.

(** A moment before 12:35:00, with the seconds read first: the first reading is torn, the
    seconds differ, and the second reading is returned. *)
Example timer_rtc_demo :
  match timer_rtc rtc_regs 2 (mk_machine (fun _ => 0) (45299997, 0)) with
  | Done r _ => (hour r, minute r, second r)
  | Fault _ => (0, 0, 0)
  end = (12, 35, 0).
Proof. vm_compute. reflexivity. Qed.

(** With the seconds read last the minute is the old one and the seconds are the new ones:
    the date is a minute behind, and the comparison of the seconds lets it through. *)
Example timer_rtc_torn :
  match timer_rtc field_order 2 (mk_machine (fun _ => 0) (45299989, 0)) with
  | Done r _ => (hour r, minute r, second r)
  | Fault _ => (0, 0, 0)
  end = (12, 34, 0).
Proof. vm_compute. reflexivity. Qed.
