(* ===== verification/Keyboard.v ===== *)
(** * The keyboard: am/src/x86/qemu/ioe.c, lines 102-146, and the keys of amdev.h *)

From stdpp Require Import prelude strings.
From S2P Require Import Prelude Mem Trm.

Local Open Scope string_scope.
#[local] Open Scope Z_scope.

(** ** Keys: amdev.h, lines 37-50

    The code of a key is its place in the list, [AM_KEY_NONE] being 0. *)

Definition AM_KEYS : list string :=
  ["ESCAPE"; "F1"; "F2"; "F3"; "F4"; "F5"; "F6"; "F7"; "F8"; "F9"; "F10"; "F11"; "F12";
   "GRAVE"; "1"; "2"; "3"; "4"; "5"; "6"; "7"; "8"; "9"; "0"; "MINUS"; "EQUALS"; "BACKSPACE";
   "TAB"; "Q"; "W"; "E"; "R"; "T"; "Y"; "U"; "I"; "O"; "P"; "LEFTBRACKET"; "RIGHTBRACKET"; "BACKSLASH";
   "CAPSLOCK"; "A"; "S"; "D"; "F"; "G"; "H"; "J"; "K"; "L"; "SEMICOLON"; "APOSTROPHE"; "RETURN";
   "LSHIFT"; "Z"; "X"; "C"; "V"; "B"; "N"; "M"; "COMMA"; "PERIOD"; "SLASH"; "RSHIFT";
   "LCTRL"; "APPLICATION"; "LALT"; "SPACE"; "RALT"; "RCTRL";
   "UP"; "DOWN"; "LEFT"; "RIGHT"; "INSERT"; "DELETE"; "HOME"; "END"; "PAGEUP"; "PAGEDOWN"].

Fixpoint index_of (name : string) (l : list string) (i : Z) : Z :=
  match l with
  | [] => 0
  | x :: l => if String.eqb x name then i else index_of name l (i + 1)
  end.

Definition AM_KEY (name : string) : Z := index_of name AM_KEYS 1.

(** The initialiser of [keylut]; of two for the same element the later one counts. *)
Definition keylut_init : list (Z * string) :=
  [(0x01, "ESCAPE"); (0x02, "1"); (0x03, "2"); (0x04, "3"); (0x05, "4"); (0x06, "5"); (0x07, "6"); (0x08, "7"); (0x09, "8");
   (0x0a, "9"); (0x0b, "0"); (0x0c, "MINUS"); (0x0d, "EQUALS"); (0x0e, "BACKSPACE"); (0x0f, "TAB");
   (0x10, "Q"); (0x11, "W"); (0x12, "E"); (0x13, "R"); (0x14, "T"); (0x15, "Y"); (0x16, "U"); (0x17, "I");
   (0x18, "O"); (0x19, "P"); (0x1a, "LEFTBRACKET"); (0x1b, "RIGHTBRACKET"); (0x1c, "RETURN");
   (0x1d, "LCTRL"); (0x1e, "A"); (0x1f, "S"); (0x20, "D"); (0x21, "F"); (0x22, "G"); (0x23, "H");
   (0x24, "J"); (0x25, "K"); (0x26, "L"); (0x27, "SEMICOLON"); (0x28, "APOSTROPHE");
   (0x29, "GRAVE"); (0x2a, "LSHIFT"); (0x2b, "BACKSLASH"); (0x2c, "Z"); (0x2d, "X");
   (0x2e, "C"); (0x2f, "V"); (0x30, "B"); (0x31, "N"); (0x32, "M"); (0x33, "COMMA"); (0x34, "PERIOD");
   (0x35, "SLASH"); (0x36, "RSHIFT"); (0x38, "LALT");
   (0x38, "RALT"); (0x39, "SPACE"); (0x3a, "CAPSLOCK");
   (0x3b, "F1"); (0x3c, "F2"); (0x3d, "F3");
   (0x3e, "F4"); (0x3f, "F5"); (0x40, "F6"); (0x41, "F7"); (0x42, "F8"); (0x43, "F9");
   (0x44, "F10"); (0x48, "INSERT"); (0x4b, "HOME"); (0x4d, "END"); (0x50, "DELETE");
   (0x57, "F11"); (0x58, "F12"); (0x5b, "APPLICATION")].

Definition keylut : list Z :=
  foldl (fun lut e => <[Z.to_nat e.1 := AM_KEY e.2]> lut) (replicate 128 0) keylut_init.

Section Keyboard.
Context {D : Type} `{Ports D}.

(** [keydown] and [keycode]. *)
Definition input_keybrd : M (machine D) (bool * Z) :=
  st ← inb 0x64;
  if negb (Z.land st 0x1 =? 0) then
    c ← inb 0x60;
    let code := Z.land c 0xff in
    match keylut !! Z.to_nat (Z.land code 0x7f) with
    | Some key => mret (code <? 128, key)
    | None => raise OutOfBounds
    end
  else mret (false, 0).
End Keyboard.

(** ** The controller: a queue of the codes of keys pressed (make codes, below 128) and
    released (break codes, 128 more) *)

Class KeyboardController (D : Type) `{Ports D} : Type := {
  kbd_queue : D -> list Z;
  kbd_status_spec : forall d,
    (Z.testbit (port_in 8 0x64 d).1 0 = true <-> kbd_queue d <> []) /\ kbd_queue (port_in 8 0x64 d).2 = kbd_queue d;
  kbd_data_spec : forall d c q, kbd_queue d = c :: q -> (port_in 8 0x60 d).1 = c /\ kbd_queue (port_in 8 0x60 d).2 = q;
}.

(** The code a key sends when it is pressed. *)
Definition make_code (key : Z) : option Z :=
  match filter (fun c => keylut !! Z.to_nat c = Some key) (seqZ 0 128) with [c] => Some c | _ => None end.

(** The keys no code stands for. *)
Definition unreachable_keys : list string := ["LALT"; "RCTRL"; "UP"; "DOWN"; "LEFT"; "RIGHT"; "PAGEUP"; "PAGEDOWN"].

Definition key_event (c : Z) : bool * Z := (c <? 128, default 0 (keylut !! Z.to_nat (c mod 128))).

Definition key_table_ok (name : string) : bool :=
  match make_code (AM_KEY name) with
  | Some c => bool_decide (key_event c = (true, AM_KEY name)) && bool_decide (key_event (c + 128) = (false, AM_KEY name)) &&
              negb (bool_decide (name ∈ unreachable_keys))
  | None => bool_decide (name ∈ unreachable_keys) && forallb (fun e => negb (e =? AM_KEY name)) keylut
  end.

Lemma key_table_checked : Forall key_table_ok AM_KEYS.
Proof. apply forallb_True. vm_compute. exact I. Qed.

Section KeyboardSpec.
Context {D : Type} `{KeyboardController D}.
Implicit Types (s : machine D).

Definition queue s : list Z := kbd_queue (mc_dev s).

Lemma keylut_length : length keylut = 128%nat.
Proof. reflexivity. Qed.

Lemma land_bit0 v : Z.land (wrap 8 v) 0x1 = if Z.testbit v 0 then 1 else 0.
Proof.
  rewrite Z.bit0_odd. change 0x1 with (Z.ones 1). rewrite Z.land_ones by lia. unfold wrap. change (2 ^ 8) with 256. change (2 ^ 1) with 2.
  rewrite Zmod_odd. assert (Z.odd (v mod 256) = Z.odd v) as ->; [|done].
  rewrite (Z.div_mod v 256) at 2 by lia. rewrite Z.odd_add, Z.odd_mul. simpl. by destruct (Z.odd _).
Qed.

(** One code is taken from the queue, or [AM_KEY_NONE] is returned. *)
Lemma input_keybrd_spec s :
  Forall (fun c => 0 <= c < 256) (queue s) ->
  wp input_keybrd s (fun r s' => mc_mem s' = mc_mem s /\
    match queue s with
    | [] => r = (false, 0) /\ queue s' = []
    | c :: q => r = key_event c /\ queue s' = q
    end).
Proof.
  intros Hb. unfold input_keybrd. apply wp_bind, wp_in. change (wrap 16 0x64) with 0x64.
  destruct (kbd_status_spec (mc_dev s)) as [Hst Hq]. fold (queue s) in *. rewrite land_bit0. set (s1 := mk_machine _ _).
  assert (queue s1 = queue s) as Hq1 by exact Hq. destruct (queue s) as [|c q] eqn:Eq.
  - destruct (Z.testbit _ 0) eqn:E; [by destruct (proj1 Hst eq_refl)|]. simpl negb. cbv iota. by apply wp_ret.
  - assert (Z.testbit (port_in 8 0x64 (mc_dev s)).1 0 = true) as -> by (by apply Hst). simpl negb. cbv iota.
    apply wp_bind, wp_in. change (wrap 16 0x60) with 0x60. destruct (kbd_data_spec (mc_dev s1) c q Hq1) as [-> Hq2].
    apply Forall_cons in Hb as [Hc _]. rewrite wrap_small by done. change 0xff with (Z.ones 8). change 0x7f with (Z.ones 7).
    rewrite !Z.land_ones by lia. change (2 ^ 8) with 256. change (2 ^ 7) with 128. rewrite (Z.mod_small c 256) by done.
    destruct (lookup_lt_is_Some_2 keylut (Z.to_nat (c mod 128))) as [key Hkey]; [rewrite keylut_length; zdm|].
    rewrite Hkey. apply wp_ret. split; [done|]. split; [|done]. unfold key_event. by rewrite Hkey.
Qed.

Lemma key_reachable name :
  name ∈ AM_KEYS -> name ∉ unreachable_keys ->
  exists c, 0 <= c < 128 /\ key_event c = (true, AM_KEY name) /\ key_event (c + 128) = (false, AM_KEY name).
Proof.
  intros Hn Hr. pose proof key_table_checked as Ht. rewrite Forall_forall in Ht.
  specialize (Ht name Hn). unfold key_table_ok in Ht. destruct (make_code (AM_KEY name)) as [c|] eqn:Ec.
  - rewrite !andb_True in Ht. destruct Ht as [[H1%bool_decide_unpack H2%bool_decide_unpack] _]. exists c. split; [|done].
    unfold make_code in Ec. destruct (filter _ _) as [|c' [|]] eqn:Ef; simplify_eq.
    assert (c ∈ filter (fun c => keylut !! Z.to_nat c = Some (AM_KEY name)) (seqZ 0 128)) as Hc by (rewrite Ef; left).
    apply list_elem_of_filter in Hc as [_ Hc%elem_of_seqZ]. lia.
  - rewrite andb_True in Ht. destruct Ht as [Ht%bool_decide_unpack _]. done.
Qed.

Lemma key_unreachable name c :
  name ∈ unreachable_keys -> 0 <= c < 256 -> (key_event c).2 <> AM_KEY name.
Proof.
  intros Hu Hc. assert (Forall (fun n => n ∈ AM_KEYS) unreachable_keys) as Hall by (apply (bool_decide_unpack _); vm_compute; exact I).
  rewrite Forall_forall in Hall. pose proof (Hall name Hu) as Hn.
  pose proof key_table_checked as Ht. rewrite Forall_forall in Ht. specialize (Ht name Hn).
  unfold key_table_ok in Ht. destruct (make_code _).
  - rewrite !andb_True in Ht. destruct Ht as [_ Ht]. by rewrite bool_decide_eq_true_2 in Ht.
  - rewrite andb_True in Ht. destruct Ht as [_ Ht]. rewrite forallb_True, Forall_forall in Ht.
    unfold key_event. simpl. destruct (lookup_lt_is_Some_2 keylut (Z.to_nat (c mod 128))) as [key Hkey]; [rewrite keylut_length; zdm|].
    rewrite Hkey. simpl. intros ->. specialize (Ht _ (list_elem_of_lookup_2 _ _ _ Hkey)). by rewrite Z.eqb_refl in Ht.
Qed.

(** Pressing and releasing a key is reported as such, with the key's code, for each key
    but eight; those are never reported: no scan code stands for the arrows, page up and
    down and the right control key, and that of the left alt key is given to the right one. *)
Theorem keyboard_keys name :
  name ∈ AM_KEYS ->
  if decide (name ∈ unreachable_keys) then
    forall s, Forall (fun c => 0 <= c < 256) (queue s) -> wp input_keybrd s (fun r _ => r.2 <> AM_KEY name)
  else
    exists c, 0 <= c < 128 /\ forall s q, Forall (fun c => 0 <= c < 256) q ->
      (queue s = c :: q -> wp input_keybrd s (fun r s' => r = (true, AM_KEY name) /\ queue s' = q)) /\
      (queue s = (c + 128) :: q -> wp input_keybrd s (fun r s' => r = (false, AM_KEY name) /\ queue s' = q)).
Proof.
  intros Hn. destruct (decide (name ∈ unreachable_keys)) as [Hu|Hu].
  - intros s Hb. eapply wp_mono; [by apply input_keybrd_spec|]. intros r s' [_ Hr]. destruct (queue s) as [|c q].
    + destruct Hr as [-> _]. simpl. intros E. symmetry in E. revert E. apply (bool_decide_unpack (AM_KEY name <> 0)).
      assert (Forall (fun n => bool_decide (AM_KEY n <> 0)) AM_KEYS) as Ha by (apply forallb_True; vm_compute; exact I).
      rewrite Forall_forall in Ha. by apply Ha.
    + apply Forall_cons in Hb as [Hc _]. destruct Hr as [-> _]. by apply key_unreachable.
  - destruct (key_reachable name Hn Hu) as (c & Hc & H1 & H2). exists c. split; [done|]. intros s q Hq. split; intros Eq.
    + eapply wp_mono; [apply input_keybrd_spec; rewrite Eq; apply Forall_cons; split; [lia|done]|].
      intros r s' [_ Hr]. rewrite Eq in Hr. by rewrite <- H1.
    + eapply wp_mono; [apply input_keybrd_spec; rewrite Eq; apply Forall_cons; split; [lia|done]|].
      intros r s' [_ Hr]. rewrite Eq in Hr. by rewrite <- H2.
Qed.
End KeyboardSpec.

(** ** A controller that is a list of codes *)

#[local] Instance demo_kbd_ports : Ports (list Z) := {|
  port_in := fun w port d =>
    if port =? 0x64 then ((match d with [] => 0 | _ => 1 end), d) else match d with [] => (0, []) | c :: q => (c, q) end;
  port_out := fun w port v d => d |}.

#[local, refine] Instance demo_kbd : KeyboardController (list Z) := {| kbd_queue := fun d => d |}.
Proof.
  - intros [|c q]; by split.
  - intros d c q ->. done.
Defined.

Lemma keyboard_keys_witness :
  exists c, 0 <= c < 128 /\ forall (s : machine (list Z)) q, Forall (fun c => 0 <= c < 256) q ->
    (queue s = c :: q -> wp input_keybrd s (fun r s' => r = (true, AM_KEY "Q") /\ queue s' = q)) /\
    (queue s = (c + 128) :: q -> wp input_keybrd s (fun r s' => r = (false, AM_KEY "Q") /\ queue s' = q)).
Proof.
  apply (keyboard_keys (D := list Z) "Q"). apply (bool_decide_unpack _). vm_compute. exact I.
Defined.

(** The scan code of the left alt key. *)
Example left_alt_is_right_alt : key_event 0x38 = (true, AM_KEY "RALT").
Proof. reflexivity. Qed.
