(* ===== verification/Gpu.v ===== *)
(** * Graphics: am/src/x86/qemu/ioe.c, lines 148-259

    The frame buffer is an array of pixels of three bytes, blue first. *)

From stdpp Require Import prelude.
From S2P Require Import Prelude Mem KString.

Definition VMEM_SIZE : Z := Z.shiftl 512 10.
Definition AM_GPU_TEXTURE : Z := 1.
Definition AM_GPU_SUBTREE : Z := 2.
Definition AM_GPU_NULL : Z := 0xffffffff.

Definition R (p : Z) : Z := u8 (Z.shiftr p 16).
Definition G (p : Z) : Z := u8 (Z.shiftr p 8).
Definition B (p : Z) : Z := u8 p.

(** [sizeof(struct pixel)]. *)
Definition sizeof_pixel : Z := 3.

(** [vmem + ptr], or NULL; [vmem] is the address of that array. *)
Definition to_host (vmem ptr : Z) : Z := if ptr =? AM_GPU_NULL then 0 else vmem + ptr.

Section Gpu.
Context {St : Type} `{HasMem St}.

(** The fields of [struct vbe_info] at 0x4000: width, height and frame buffer. *)
Definition gpu_init : M St (Z * Z * Z) :=
  w ← read_le 2 0x4000 18;
  h ← read_le 2 0x4000 20;
  fb ← read_le 4 0x4000 40;
  mret (w, h, fb).

(** ** [gpu_fbdraw] *)

Definition put_pixel (px p : Z) : M St unit :=
  _ ← write_le 1 px 0 (B p);
  _ ← write_le 1 px 1 (G p);
  write_le 1 px 2 (R p).

Fixpoint draw_row (k : nat) (pixels px : Z) : M St unit :=
  match k with
  | O => mret tt
  | S k =>
      p ← read_le 4 pixels 0;
      _ ← put_pixel px p;
      draw_row k (pixels + 4) (px + sizeof_pixel)
  end.

(** [k] rows are left, [j] is the next. *)
Fixpoint draw_rows (k : nat) (fb W H x y w len j pixels : Z) : M St unit :=
  match k with
  | O => mret tt
  | S k =>
      _ ← (if i32 (y + j) <? H
           then draw_row (Z.to_nat len) pixels (fb + sizeof_pixel * i32 (x + i32 (i32 (j + y) * W)))
           else mret tt);
      draw_rows k fb W H x y w len (j + 1) (pixels + 4 * w)
  end.

Definition gpu_fbdraw (fb W H x y pixels w h : Z) : M St unit :=
  let len := if W <=? i32 (x + w) then i32 (W - x) else w in
  draw_rows (Z.to_nat h) fb W H x y w len 0 pixels.

(** ** Video memory *)

(** The request: [dest], [src] at 8, [size] at 16. The size is read again in every round. *)
Fixpoint memcpy_rounds (k : nat) (params dst src i : Z) : M St unit :=
  match k with
  | O => raise OutOfFuel
  | S k =>
      size ← read_le 4 params 16;
      if i <? i32 size then
        c ← get8 (src + i);
        _ ← put8 (dst + i) c;
        memcpy_rounds k params dst src (i + 1)
      else mret tt
  end.

Definition gpu_memcpy (fuel : nat) (vmem params : Z) : M St unit :=
  src ← read_le 8 params 8;
  dest ← read_le 4 params 0;
  memcpy_rounds fuel params (to_host vmem dest) src 0.

(** The buffer for subtrees: [head] is its first free byte. The result is the block and the
    new head. *)
Fixpoint clear_bytes (k : nat) (p : Z) : M St unit :=
  match k with
  | O => mret tt
  | S k => _ ← put8 p 0; clear_bytes k (p + 1)
  end.

Definition vbuf_alloc (vbuf head size : Z) : M St (Z * Z) :=
  let ret := head in
  let head := head + size in
  if vbuf + VMEM_SIZE <? head then raise Panic
  else
    _ ← clear_bytes (Z.to_nat size) ret;
    mret (ret, head).

(** ** [render]

    The members of [struct gpu_canvas], at their packed offsets; those of a texture share
    the bytes behind [child]. *)

Definition sizeof_canvas : Z := 26.

(** A bound of the loops over 16-bit sizes. *)
Definition blit_fuel : nat := Z.to_nat 65537.

Definition cv_type (cv : Z) : M St Z := read_le 2 cv 0.
Definition cv_w (cv : Z) : M St Z := read_le 2 cv 2.
Definition cv_h (cv : Z) : M St Z := read_le 2 cv 4.
Definition cv_x1 (cv : Z) : M St Z := read_le 2 cv 6.
Definition cv_y1 (cv : Z) : M St Z := read_le 2 cv 8.
Definition cv_w1 (cv : Z) : M St Z := read_le 2 cv 10.
Definition cv_h1 (cv : Z) : M St Z := read_le 2 cv 12.
Definition cv_sibling (cv : Z) : M St Z := read_le 4 cv 14.
Definition cv_child (cv : Z) : M St Z := read_le 4 cv 18.
Definition tex_w (cv : Z) : M St Z := read_le 2 cv 18.
Definition tex_h (cv : Z) : M St Z := read_le 2 cv 20.
Definition tex_pixels (cv : Z) : M St Z := read_le 4 cv 22.

(** A structure assignment: three bytes. *)
Definition copy_pixel (dst src : Z) : M St unit :=
  b ← read_le 1 src 0;
  g ← read_le 1 src 1;
  r ← read_le 1 src 2;
  _ ← write_le 1 dst 0 b;
  _ ← write_le 1 dst 1 g;
  write_le 1 dst 2 r.

(** The inner loop of lines 249-252 in column [i]: [k] rows are left, [j] is the next. A
    canvas is read again at every access, since the pixels may be anywhere; the divisors are
    the bounds of the loops, so they are not 0. Sizes are 16 bits, so that the products of
    [int]s are written with their wrap-around and the quotients truncate. *)
Fixpoint blit_column (k : nat) (cv px px_local W w h i j : Z) : M St unit :=
  match k with
  | O => raise OutOfFuel
  | S k =>
      h1 ← cv_h1 cv;
      if j <? h1 then
        x1 ← cv_x1 cv;
        y1 ← cv_y1 cv;
        w1 ← cv_w1 cv;
        if w1 =? 0 then raise DivByZero
        else
          let x := x1 + i in
          let y := y1 + j in
          let from := i32 (i32 (w * Z.quot (i32 (j * h)) h1) + Z.quot (i32 (i * w)) w1) in
          _ ← copy_pixel (px + sizeof_pixel * i32 (i32 (W * y) + x)) (px_local + sizeof_pixel * from);
          blit_column k cv px px_local W w h i (j + 1)
      else mret tt
  end.

Fixpoint blit (k : nat) (cv px px_local W w h i : Z) : M St unit :=
  match k with
  | O => raise OutOfFuel
  | S k' =>
      w1 ← cv_w1 cv;
      if i <? w1 then
        _ ← blit_column blit_fuel cv px px_local W w h i 0;
        blit k' cv px px_local W w h (i + 1)
      else mret tt
  end.

(** The walk over the children of a subtree, [draw] being the recursive call; the head of
    the buffer is passed through. *)
Fixpoint render_children (draw : Z -> Z -> M St Z) (k : nat) (vmem ch head : Z) : M St Z :=
  match k with
  | O => raise OutOfFuel
  | S k =>
      if ch =? 0 then mret head
      else
        head ← draw ch head;
        next ← cv_sibling ch;
        render_children draw k vmem (to_host vmem next) head
  end.

(** [W] is the width of the parent; the result is the new head of the buffer. *)
Fixpoint render (fuel : nat) (vmem vbuf : Z) (W cv px head : Z) : M St Z :=
  match fuel with
  | O => raise OutOfFuel
  | S fuel =>
      type ← cv_type cv;
      if type =? AM_GPU_TEXTURE then
        w ← tex_w cv;
        h ← tex_h cv;
        pixels ← tex_pixels cv;
        _ ← blit blit_fuel cv px (to_host vmem pixels) W w h 0;
        mret head
      else if type =? AM_GPU_SUBTREE then
        w ← cv_w cv;
        h ← cv_h cv;
        r ← vbuf_alloc vbuf head (i32 (i32 (w * h) * sizeof_pixel));
        let '(px_local, head) := r in
        child ← cv_child cv;
        head ← render_children (fun ch head => w' ← cv_w cv; render fuel vmem vbuf w' ch px_local head)
                 fuel vmem (to_host vmem child) head;
        _ ← blit blit_fuel cv px px_local W w h 0;
        mret head
      else raise Panic
  end.

Definition gpu_render (fuel : nat) (vmem vbuf fb W root : Z) : M St unit :=
  _ ← render fuel vmem vbuf W (to_host vmem root) fb vbuf;
  mret tt.
End Gpu.

(** ** What is drawn *)

Section Draw.
Implicit Types (m : mem).

(** The address of a pixel of an image of width [w]. *)
Definition pixel_addr (fb W X Y : Z) : Z := fb + sizeof_pixel * (X + Y * W).

Lemma put_pixel_spec m px q :
  0 < px -> wp (put_pixel px (load32 m q)) m (fun _ m' => only_in (inr px sizeof_pixel) m m' /\
    forall c, 0 <= c < sizeof_pixel -> load8 m' (px + c) = load8 m (q + c)).
Proof.
  intros Hp. unfold put_pixel, sizeof_pixel. do 2 (apply wp_bind, wp_write; [lia|]). apply wp_write; [lia|]. cbn [st_upd st_mem mem_has_mem].
  split.
  - repeat (apply only_in_store; [|unfold inr; lia]). done.
  - intros c Hc. rewrite <- (load32_byte m q c) by lia. set (p := load32 m q). rewrite !load8_store_le. unfold B, G, R, wrap.
    rewrite !Z.shiftr_div_pow2 by lia. change (2 ^ 8) with 256. change (2 ^ 16) with 65536.
    assert (c = 0 \/ c = 1 \/ c = 2) as [->|[->| ->]] by lia;
      [change (256 ^ 0) with 1|change (256 ^ 1) with 256|change (256 ^ 2) with 65536].
    + destruct (Z.leb_spec (px + 2) (px + 0)), (Z.leb_spec (px + 1) (px + 0)), (Z.leb_spec (px + 0) (px + 0)),
        (Z.ltb_spec (px + 0) (px + 0 + Z.of_nat 1)); try lia. cbn [andb]. rewrite Z.sub_diag. zdm.
    + destruct (Z.leb_spec (px + 2) (px + 1)), (Z.leb_spec (px + 1) (px + 1)),
        (Z.ltb_spec (px + 1) (px + 1 + Z.of_nat 1)); try lia. cbn [andb]. rewrite Z.sub_diag. zdm.
    + destruct (Z.leb_spec (px + 2) (px + 2)), (Z.ltb_spec (px + 2) (px + 2 + Z.of_nat 1)); try lia. cbn [andb].
      rewrite Z.sub_diag. zdm.
Qed.

Lemma draw_row_spec k m pixels px :
  0 < px -> 0 < pixels -> (forall x, inr px (sizeof_pixel * Z.of_nat k) x -> ~ inr pixels (4 * Z.of_nat k) x) ->
  wp (draw_row k pixels px) m (fun _ m' => only_in (inr px (sizeof_pixel * Z.of_nat k)) m m' /\
    forall i c, 0 <= i < Z.of_nat k -> 0 <= c < sizeof_pixel ->
      load8 m' (px + sizeof_pixel * i + c) = load8 m (pixels + 4 * i + c)).
Proof.
  unfold sizeof_pixel. revert m pixels px. induction k as [|k IH]; intros m pixels px Hp Hq Hd; cbn [draw_row].
  - apply wp_ret. split; [done|lia].
  - apply wp_bind, wp_read; [lia|]. rewrite Z.add_0_r. fold (load32 (st_mem m) pixels). apply wp_bind.
    eapply wp_mono; [by apply put_pixel_spec|]. intros [] m1 [Ho1 Hb1]. unfold sizeof_pixel in *.
    eapply wp_mono; [apply (IH m1 (pixels + 4) (px + 3)); [lia|lia|]|].
    { intros x Hx Hx'. apply (Hd x); unfold inr in *; lia. }
    intros [] m2 [Ho2 Hb2]. split.
    + etrans; [eapply only_in_weaken; [exact Ho1|]|eapply only_in_weaken; [exact Ho2|]]; unfold inr; lia.
    + intros i c Hi Hc. destruct (decide (i = 0)) as [->|].
      * replace (px + 3 * 0 + c) with (px + c) by lia. replace (pixels + 4 * 0 + c) with (pixels + c) by lia.
        rewrite Ho2 by (unfold inr; lia). by apply Hb1.
      * replace (px + 3 * i + c) with (px + 3 + 3 * (i - 1) + c) by lia. rewrite Hb2 by lia.
        replace (pixels + 4 + 4 * (i - 1) + c) with (pixels + 4 * i + c) by lia.
        apply Ho1. intros Hx. apply (Hd (pixels + 4 * i + c)); unfold inr in *; lia.
Qed.

Lemma pixel_addr_inj fb W X Y X' Y' c c' :
  0 <= X < W -> 0 <= X' < W -> 0 <= c < sizeof_pixel -> 0 <= c' < sizeof_pixel ->
  pixel_addr fb W X Y + c = pixel_addr fb W X' Y' + c' -> X = X' /\ Y = Y' /\ c = c'.
Proof.
  unfold pixel_addr, sizeof_pixel. intros HX HX' Hc Hc' E.
  assert (c = c' /\ X + Y * W = X' + Y' * W) as [-> E2] by lia.
  assert (Y = Y') as ->; [|lia].
  destruct (Z.lt_trichotomy Y Y') as [Hlt|[->|Hlt]]; [|done|]; nia.
Qed.

(** A pixel lies in the frame buffer. *)
Lemma pixel_addr_range fb W H X Y c :
  0 <= X < W -> 0 <= Y < H -> 0 <= c < sizeof_pixel -> inr fb (sizeof_pixel * (W * H)) (pixel_addr fb W X Y + c).
Proof.
  unfold inr, pixel_addr, sizeof_pixel. intros HX HY Hc.
  assert (0 <= Y * W /\ X + Y * W + 1 <= W * H) by nia. lia.
Qed.

Definition in_rect (x y w h X Y : Z) : bool := (x <=? X) && (X <? x + w) && (y <=? Y) && (Y <? y + h).

Section Fbdraw.
Context (fb W H x y w h pixels : Z).
Hypotheses (Hfb : 0 < fb) (HW : 0 <= W) (HH : 0 <= H) (HWH : W * H < 2 ^ 31) (Hx : 0 <= x) (Hy : 0 <= y).
Hypotheses (Hw : 0 <= w) (Hh : 0 <= h) (Hxw : x + w < 2 ^ 31) (Hyh : y + h < 2 ^ 31) (Hpix : 0 < pixels).

(** The frame buffer, the image, and where the two do not overlap. *)
Definition in_fb : Z -> Prop := inr fb (sizeof_pixel * (W * H)).
Definition in_image : Z -> Prop := inr pixels (4 * (w * h)).
Hypothesis Hdisj : forall a, in_image a -> ~ in_fb a.

(** Columns that are drawn. *)
Definition visible : Z := if W <=? x + w then W - x else w.

Definition rows_drawn (j0 j1 : Z) (m m' : mem) : Prop :=
  only_in in_fb m m' /\ forall X Y c, 0 <= X < W -> 0 <= Y < H -> 0 <= c < sizeof_pixel ->
    load8 m' (pixel_addr fb W X Y + c) =
    if in_rect x (y + j0) w (j1 - j0) X Y then load8 m (pixels + 4 * (X - x + (Y - y) * w) + c)
    else load8 m (pixel_addr fb W X Y + c).

Lemma rows_drawn_refl j m : rows_drawn j j m m.
Proof.
  split; [done|]. intros X Y c _ _ _. unfold in_rect.
  destruct (Z.leb_spec (y + j) Y), (Z.ltb_spec Y (y + j + (j - j))); try lia; by rewrite ?andb_false_r.
Qed.

Lemma image_addr X Y c : x <= X < x + w -> y <= Y < y + h -> 0 <= c < 4 ->
  in_image (pixels + 4 * (X - x + (Y - y) * w) + c).
Proof. unfold in_image, inr. intros. assert (0 <= (Y - y) * w /\ X - x + (Y - y) * w + 1 <= w * h) by nia. lia. Qed.

Lemma rows_drawn_trans j0 j1 j2 m m1 m2 :
  0 <= j0 <= j1 -> j1 <= j2 <= h -> rows_drawn j0 j1 m m1 -> rows_drawn j1 j2 m1 m2 -> rows_drawn j0 j2 m m2.
Proof.
  intros H01 H12 [Ho1 Hd1] [Ho2 Hd2]. split; [by etrans|]. intros X Y c HX HY Hc.
  rewrite Hd2 by done. rewrite Hd1 by done. unfold in_rect.
  destruct (Z.leb_spec x X), (Z.ltb_spec X (x + w)); cbn [andb]; try done.
  destruct (Z.leb_spec (y + j0) Y), (Z.leb_spec (y + j1) Y), (Z.ltb_spec Y (y + j1 + (j2 - j1))),
    (Z.ltb_spec Y (y + j0 + (j1 - j0))), (Z.ltb_spec Y (y + j0 + (j2 - j0))); cbn [andb]; try lia; try done.
  apply Ho1. apply Hdisj, image_addr; unfold sizeof_pixel in *; lia.
Qed.

(** One visible row. *)
Lemma row_drawn j m :
  0 <= j < h -> y + j < H ->
  wp (draw_row (Z.to_nat visible) (pixels + 4 * (j * w)) (pixel_addr fb W x (y + j))) m
    (fun _ m' => rows_drawn j (j + 1) m m').
Proof.
  intros Hj HyH. unfold visible. set (len := if W <=? x + w then W - x else w).
  assert (len <= w /\ x + len <= W) as [Hlen HlenW] by (unfold len; destruct (Z.leb_spec W (x + w)); lia).
  assert (forall X, 0 <= X < W -> (x <= X < x + len <-> x <= X < x + w)) as Hvis
    by (unfold len; destruct (Z.leb_spec W (x + w)); lia).
  assert (forall a, inr (pixel_addr fb W x (y + j)) (sizeof_pixel * Z.of_nat (Z.to_nat len)) a ->
            exists i c, 0 <= i < len /\ 0 <= c < sizeof_pixel /\ a = pixel_addr fb W (x + i) (y + j) + c) as Hrow.
  { intros a Ha. unfold inr, sizeof_pixel in *. set (b := a - pixel_addr fb W x (y + j)).
    exists (b / 3), (b mod 3). assert (0 <= b < 3 * len) by lia. split; [|split]; [zdm|zdm|].
    unfold pixel_addr, sizeof_pixel in *. zdm. }
  assert (0 <= j * w /\ 0 <= W * (y + j)) as [Hjw HWy] by nia.
  eapply wp_mono; [apply draw_row_spec; [unfold pixel_addr, sizeof_pixel; lia|lia|]|].
  { intros a Ha Ha'. destruct (Hrow a Ha) as (i & c & Hi & Hc & ->). apply (Hdisj (pixel_addr fb W (x + i) (y + j) + c)).
    - unfold in_image, inr in *. assert ((j + 1) * w <= w * h) by nia. lia.
    - apply pixel_addr_range; [lia|lia|done]. }
  intros [] m' [Ho Hb]. split.
  - eapply only_in_weaken; [exact Ho|]. intros a Ha. destruct (Hrow a Ha) as (i & c & Hi & Hc & ->).
    apply pixel_addr_range; [lia|lia|done].
  - intros X Y c HX HY Hc. unfold in_rect.
    destruct (decide (x <= X < x + w /\ Y = y + j)) as [[HXw ->]|Hout].
    + apply Hvis in HXw as HXl; [|done].
      destruct (Z.leb_spec x X), (Z.ltb_spec X (x + w)), (Z.leb_spec (y + j) (y + j)), (Z.ltb_spec (y + j) (y + j + (j + 1 - j)));
        try lia; cbn [andb].
      replace (pixel_addr fb W X (y + j) + c) with (pixel_addr fb W x (y + j) + sizeof_pixel * (X - x) + c)
        by (unfold pixel_addr; lia).
      rewrite Hb by (done || lia). f_equal. lia.
    + assert ((x <=? X) && (X <? x + w) && (y + j <=? Y) && (Y <? y + j + (j + 1 - j)) = false) as ->.
      { destruct (Z.leb_spec x X), (Z.ltb_spec X (x + w)), (Z.leb_spec (y + j) Y), (Z.ltb_spec Y (y + j + (j + 1 - j)));
          try reflexivity. destruct Hout. lia. }
      apply Ho. intros Ha. destruct (Hrow _ Ha) as (i & c' & Hi & Hc' & E).
      apply pixel_addr_inj in E as (-> & -> & _); [|lia..]. apply Hout. lia.
Qed.

Lemma draw_rows_spec k j m :
  0 <= j -> j + Z.of_nat k = h ->
  wp (draw_rows k fb W H x y w visible j (pixels + 4 * (j * w))) m (fun _ m' => rows_drawn j h m m').
Proof.
  revert j m. induction k as [|k IH]; intros j m Hj Hk; cbn [draw_rows].
  { apply wp_ret. replace h with j by lia. apply rows_drawn_refl. }
  rewrite (signed_small 32 (y + j)) by lia. apply wp_bind.
  assert (wp (if y + j <? H then draw_row (Z.to_nat visible) (pixels + 4 * (j * w))
            (fb + sizeof_pixel * i32 (x + i32 (i32 (j + y) * W))) else mret tt) m (fun _ m' => rows_drawn j (j + 1) m m')) as Hone.
  { destruct (Z.ltb_spec (y + j) H) as [Hlt|Hge].
    - rewrite (signed_small 32 (j + y)) by lia. assert (0 <= (j + y) * W /\ (j + y) * W + W <= W * H) as [H1 H2] by nia.
      rewrite (signed_small 32 ((j + y) * W)) by lia.
      destruct (decide (x < W)) as [HxW|HxW].
      + rewrite (signed_small 32 (x + _)) by lia. replace (fb + sizeof_pixel * (x + (j + y) * W)) with (pixel_addr fb W x (y + j))
          by (unfold pixel_addr; lia). apply row_drawn; lia.
      + assert (visible <= 0) as Hv by (unfold visible; destruct (Z.leb_spec W (x + w)); lia).
        replace (Z.to_nat visible) with 0%nat by lia. apply wp_ret. split; [done|]. intros X Y c HX HY Hc. unfold in_rect.
        destruct (Z.leb_spec x X); [lia|done].
    - apply wp_ret. split; [done|]. intros X Y c HX HY Hc. unfold in_rect.
      destruct (Z.leb_spec (y + j) Y); [lia|]. by rewrite andb_false_r. }
  eapply wp_mono; [exact Hone|]. intros [] m1 H1. replace (pixels + 4 * (j * w) + 4 * w) with (pixels + 4 * ((j + 1) * w)) by lia.
  eapply wp_mono; [apply IH; lia|]. intros [] m2 H2. eapply rows_drawn_trans; [| |exact H1|exact H2]; lia.
Qed.
End Fbdraw.

(** [gpu_fbdraw] copies exactly the part of the image that lies on the screen, pixel by
    pixel in blue, green, red order, and changes no other byte; columns and rows beyond the
    right and the lower edge are dropped, not wrapped onto the next line. *)
Theorem fbdraw_spec m fb W H x y pixels w h :
  0 < fb -> 0 <= W -> 0 <= H -> W * H < 2 ^ 31 -> 0 <= x -> 0 <= y -> 0 <= w -> 0 <= h ->
  x + w < 2 ^ 31 -> y + h < 2 ^ 31 -> W < 2 ^ 31 -> 0 < pixels ->
  (forall a, in_image w h pixels a -> ~ in_fb fb W H a) ->
  wp (gpu_fbdraw fb W H x y pixels w h) m (fun _ m' =>
    only_in (in_fb fb W H) m m' /\
    forall X Y c, 0 <= X < W -> 0 <= Y < H -> 0 <= c < sizeof_pixel ->
      load8 m' (pixel_addr fb W X Y + c) =
      if in_rect x y w h X Y then load8 m (pixels + 4 * (X - x + (Y - y) * w) + c)
      else load8 m (pixel_addr fb W X Y + c)).
Proof.
  intros Hfb HW HH HWH Hx Hy Hw Hh Hxw Hyh HW31 Hpix Hdisj. unfold gpu_fbdraw.
  rewrite !signed_small by lia. fold (visible W x w).
  assert (wp (draw_rows (Z.to_nat h) fb W H x y w (visible W x w) 0 (pixels + 4 * (0 * w))) m
    (fun _ m' => rows_drawn fb W H x y w pixels 0 h m m')) as Hrows by (eapply draw_rows_spec; eauto; lia).
  rewrite Z.mul_0_l, Z.mul_0_r, Z.add_0_r in Hrows. eapply wp_mono; [exact Hrows|].
  intros [] m' [Ho Hd]. split; [done|]. intros X Y c HX HY Hc. rewrite Hd by done. by rewrite Z.add_0_r, Z.sub_0_r.
Qed.
End Draw.

(** An image of 2 * 2 pixels on the corner of a screen of 3 * 3. *)
Lemma fbdraw_spec_witness :
  wp (gpu_fbdraw 1000 3 3 2 2 4000 2 2) (fun a => a) (fun _ m' =>
    only_in (in_fb 1000 3 3) (fun a => a) m' /\
    forall X Y c, 0 <= X < 3 -> 0 <= Y < 3 -> 0 <= c < sizeof_pixel ->
      load8 m' (pixel_addr 1000 3 X Y + c) =
      if in_rect 2 2 2 2 X Y then load8 (fun a => a) (4000 + 4 * (X - 2 + (Y - 2) * 2) + c)
      else load8 (fun a => a) (pixel_addr 1000 3 X Y + c)).
Proof.
  apply (fbdraw_spec (fun a => a) 1000 3 3 2 2 4000 2 2); try lia.
  unfold in_image, in_fb, inr, sizeof_pixel. lia.
Defined.
