(* ===== verification/Render.v ===== *)
(** * Drawing a scene: [render] of am/src/x86/qemu/ioe.c, lines 216-259

    Video memory holds a tree of canvases. Its meaning is a picture: every canvas is drawn,
    scaled, onto the canvas of its parent, over what its elder siblings have drawn.
    [gpu_render_spec] shows that the code draws this picture. *)

From stdpp Require Import prelude.
From S2P Require Import Prelude Mem KString Gpu.

#[global] Opaque blit_fuel.

(** ** Scenes and pictures *)

(** The rectangle of the parent that a canvas covers: its corner and its size. *)
Record rect : Type := mk_rect { r_x : Z; r_y : Z; r_w : Z; r_h : Z }.

(** A texture with its pixels at an address, or a subtree with the size of its own picture. *)
Inductive scene : Type :=
| Texture (r : rect) (w h pixels : Z)
| Subtree (r : rect) (w h : Z) (children : scenes)
with scenes : Type :=
| Done_children
| Child (n : scene) (rest : scenes).

Scheme scene_mut := Induction for scene Sort Prop
with scenes_mut := Induction for scenes Sort Prop.
Combined Scheme scene_scenes_ind from scene_mut, scenes_mut.

(** The byte [c] of the pixel in a column and a row. *)
Definition picture : Type := Z -> Z -> Z -> Z.

Definition black : picture := fun _ _ _ => 0.

(** The bytes of the image of width [w] at [p]. *)
Definition image (m : mem) (p w : Z) : picture := fun X Y c => load8 m (pixel_addr p w X Y + c).

Definition covers_pixel (r : rect) (X Y : Z) : bool := in_rect (r_x r) (r_y r) (r_w r) (r_h r) X Y.

(** [pic], of [w * h] pixels, drawn into the rectangle [r] over [bg]. *)
Definition stretch (r : rect) (w h : Z) (pic bg : picture) : picture := fun X Y c =>
  if covers_pixel r X Y then pic ((X - r_x r) * w / r_w r) ((Y - r_y r) * h / r_h r) c else bg X Y c.

Definition scene_dest (n : scene) : rect := match n with Texture r _ _ _ | Subtree r _ _ _ => r end.
Definition scene_w (n : scene) : Z := match n with Texture _ w _ _ | Subtree _ w _ _ => w end.
Definition scene_h (n : scene) : Z := match n with Texture _ _ h _ | Subtree _ _ h _ => h end.

(** What a canvas shows, and the children drawn in order over [bg]. *)
Fixpoint content (m : mem) (n : scene) : picture :=
  match n with
  | Texture _ w _ pixels => image m pixels w
  | Subtree _ _ _ children => paint_all m children black
  end
with paint_all (m : mem) (l : scenes) (bg : picture) : picture :=
  match l with
  | Done_children => bg
  | Child n rest => paint_all m rest (stretch (scene_dest n) (scene_w n) (scene_h n) (content m n) bg)
  end.

Definition paint (m : mem) (n : scene) (bg : picture) : picture :=
  stretch (scene_dest n) (scene_w n) (scene_h n) (content m n) bg.

(** The bytes of buffer a scene needs, and a bound of the rounds of the walk over it. *)
Fixpoint need (n : scene) : Z :=
  match n with Texture _ _ _ _ => 0 | Subtree _ w h children => sizeof_pixel * (w * h) + needs children end
with needs (l : scenes) : Z :=
  match l with Done_children => 0 | Child n rest => need n + needs rest end.

Fixpoint weight (n : scene) : nat :=
  match n with Texture _ _ _ _ => 1 | Subtree _ _ _ children => S (weights children) end
with weights (l : scenes) : nat :=
  match l with Done_children => 1 | Child n rest => weight n + weights rest end.

(** Every rectangle lies inside its parent of [W * H] pixels, and the sizes can be computed
    with in 32 bits. *)
Record fits (W H : Z) (r : rect) (w h : Z) : Prop := {
  fit_x : r_x r + r_w r <= W;
  fit_y : r_y r + r_h r <= H;
  fit_w : 0 < w;
  fit_h : 0 < h;
  fit_sw : r_w r * w < 2 ^ 31;
  fit_sh : r_h r * h < 2 ^ 31;
  fit_size : sizeof_pixel * (w * h) < 2 ^ 31;
}.

Fixpoint drawable (W H : Z) (n : scene) : Prop :=
  fits W H (scene_dest n) (scene_w n) (scene_h n) /\
  match n with Texture _ _ _ _ => True | Subtree _ w h children => drawable_all w h children end
with drawable_all (W H : Z) (l : scenes) : Prop :=
  match l with Done_children => True | Child n rest => drawable W H n /\ drawable_all W H rest end.

Section Memory.
Context (vmem : Z).

Definition in_vmem : Z -> Prop := inr vmem VMEM_SIZE.

(** The canvas at [cv] has the type [type] and covers [r]. *)
Record canvas_at (m : mem) (cv type : Z) (r : rect) : Prop := {
  ca_in : forall x, inr cv sizeof_canvas x -> in_vmem x;
  ca_type : load_le 2 m cv = type;
  ca_x : load_le 2 m (cv + 6) = r_x r;
  ca_y : load_le 2 m (cv + 8) = r_y r;
  ca_w : load_le 2 m (cv + 10) = r_w r;
  ca_h : load_le 2 m (cv + 12) = r_h r;
}.

(** The tree of canvases at [cv] is the scene [n]. *)
Fixpoint scene_at (m : mem) (cv : Z) (n : scene) : Prop :=
  match n with
  | Texture r w h pixels =>
      canvas_at m cv AM_GPU_TEXTURE r /\ load_le 2 m (cv + 18) = w /\ load_le 2 m (cv + 20) = h /\
      to_host vmem (load_le 4 m (cv + 22)) = pixels /\ 0 < pixels /\
      (forall x, inr pixels (sizeof_pixel * (w * h)) x -> in_vmem x)
  | Subtree r w h children =>
      canvas_at m cv AM_GPU_SUBTREE r /\ load_le 2 m (cv + 2) = w /\ load_le 2 m (cv + 4) = h /\
      scenes_at m (to_host vmem (load_le 4 m (cv + 18))) children
  end
with scenes_at (m : mem) (ch : Z) (l : scenes) : Prop :=
  match l with
  | Done_children => ch = 0
  | Child n rest => 0 < ch /\ scene_at m ch n /\ scenes_at m (to_host vmem (load_le 4 m (ch + 14))) rest
  end.
End Memory.

Lemma canvas_at_frame vmem P m m' cv type r :
  only_in P m m' -> (forall x, in_vmem vmem x -> ~ P x) -> canvas_at vmem m cv type r -> canvas_at vmem m' cv type r.
Proof.
  intros Ho Hv [Hin Ht Hx Hy Hw Hh].
  assert (forall off, 0 <= off <= 24 -> load_le 2 m' (cv + off) = load_le 2 m (cv + off)) as Hl.
  { intros off Hoff. eapply only_in_load; [exact Ho|]. intros x Hx'. apply Hv, Hin. unfold inr, sizeof_canvas. lia. }
  pose proof (Hl 0) as Hl0. rewrite !Z.add_0_r in Hl0. split; rewrite ?Hl, ?Hl0 by lia; done.
Qed.

(** ** A canvas on its parent *)

Lemma copy_pixel_spec m dst src :
  0 < dst -> 0 < src ->
  wp (copy_pixel dst src) m (fun _ m' => only_in (inr dst sizeof_pixel) m m' /\
    forall c, 0 <= c < sizeof_pixel -> load8 m' (dst + c) = load8 m (src + c)).
Proof.
  intros Hd Hs. unfold copy_pixel, sizeof_pixel. do 3 (apply wp_bind, wp_read; [lia|]).
  do 2 (apply wp_bind, wp_write; [lia|]). apply wp_write; [lia|]. cbn [st_upd st_mem mem_has_mem]. split.
  - repeat (apply only_in_store; [|unfold inr; lia]). done.
  - assert (forall a, load_le 1 m a = load8 m a) as E1.
    { intros a. unfold load_le. lia. }
    intros c Hc. rewrite !load8_store_le, !E1. change (Z.of_nat 1) with 1.
    assert (forall a, load8 m a mod 256 = load8 m a) as Eb by (intros; apply Z.mod_small, load8_range).
    assert (c = 0 \/ c = 1 \/ c = 2) as [->|[->| ->]] by lia.
    + destruct (Z.leb_spec (dst + 2) (dst + 0)), (Z.leb_spec (dst + 1) (dst + 0)), (Z.leb_spec (dst + 0) (dst + 0)),
        (Z.ltb_spec (dst + 0) (dst + 0 + 1)); try lia. cbn [andb]. by rewrite Z.sub_diag, Z.div_1_r.
    + destruct (Z.leb_spec (dst + 2) (dst + 1)), (Z.leb_spec (dst + 1) (dst + 1)), (Z.ltb_spec (dst + 1) (dst + 1 + 1)); try lia.
      cbn [andb]. by rewrite Z.sub_diag, Z.div_1_r.
    + destruct (Z.leb_spec (dst + 2) (dst + 2)), (Z.ltb_spec (dst + 2) (dst + 2 + 1)); try lia. cbn [andb].
      by rewrite Z.sub_diag, Z.div_1_r.
Qed.

Lemma in_rect_true x y w h X Y : in_rect x y w h X Y = true <-> x <= X < x + w /\ y <= Y < y + h.
Proof. unfold in_rect. rewrite !andb_true_iff, !Z.leb_le, !Z.ltb_lt. lia. Qed.

(** The pixel of the source for a pixel of the rectangle lies in the source. *)
Lemma scaled i w1 w : 0 <= i < w1 -> 0 < w -> 0 <= i * w / w1 < w.
Proof. intros Hi Hw. split; [apply Z.div_pos; nia|]. apply Z.div_lt_upper_bound; nia. Qed.

Section Blit.
Context (vmem W H px pl w h cv type : Z) (r : rect).

Definition target : Z -> Prop := inr px (sizeof_pixel * (W * H)).
Definition source : Z -> Prop := inr pl (sizeof_pixel * (w * h)).

Context (Hpx : 0 < px) (Hpl : 0 < pl) (Hcv : 0 < cv) (HWH : W * H < 2 ^ 31).
Context (Hrx : 0 <= r_x r) (Hry : 0 <= r_y r) (Hfits : fits W H r w h).
Context (Hcanvas : forall x, in_vmem vmem x -> ~ target x) (Hsource : forall x, source x -> ~ target x).

(** The pixel that a pixel of the rectangle shows. *)
Definition seen (m : mem) : picture := fun X Y c => image m pl w ((X - r_x r) * w / r_w r) ((Y - r_y r) * h / r_h r) c.

(** The pixels in [S] are drawn, no other byte is changed. *)
Definition blitted (S : Z -> Z -> bool) (m m' : mem) : Prop :=
  only_in target m m' /\ forall X Y c, 0 <= X < W -> 0 <= Y < H -> 0 <= c < sizeof_pixel ->
    load8 m' (pixel_addr px W X Y + c) = if S X Y then seen m X Y c else load8 m (pixel_addr px W X Y + c).

Lemma seen_keep m m' X Y c :
  only_in target m m' -> covers_pixel r X Y = true -> 0 <= c < sizeof_pixel -> seen m' X Y c = seen m X Y c.
Proof.
  intros Ho HC%in_rect_true Hc. destruct Hfits as [_ _ Hw Hh _ _ _]. unfold seen, image. apply Ho.
  intros Ht. eapply Hsource; [|exact Ht]. apply (pixel_addr_range pl w h); [apply scaled; lia|apply scaled; lia|done].
Qed.

Lemma blitted_none S m : (forall X Y, S X Y = false) -> blitted S m m.
Proof. intros HS. split; [done|]. intros X Y c _ _ _. by rewrite HS. Qed.

Lemma blitted_trans S S1 S2 m m1 m2 :
  blitted S1 m m1 -> blitted S2 m1 m2 -> (forall X Y, S2 X Y = true -> covers_pixel r X Y = true) ->
  (forall X Y, S X Y = S1 X Y || S2 X Y) -> blitted S m m2.
Proof.
  intros [Ho1 Hd1] [Ho2 Hd2] HS2 HS. split; [by etrans|]. intros X Y c HX HY Hc. rewrite Hd2, HS by done.
  destruct (S2 X Y) eqn:E2; [|by rewrite orb_false_r, Hd1]. rewrite orb_true_r. apply seen_keep; auto.
Qed.

(** One pixel. *)
Lemma blit_pixel m i j :
  0 <= i < r_w r -> 0 <= j < r_h r ->
  wp (copy_pixel (px + sizeof_pixel * i32 (i32 (W * (r_y r + j)) + (r_x r + i)))
        (pl + sizeof_pixel * i32 (i32 (w * Z.quot (i32 (j * h)) (r_h r)) + Z.quot (i32 (i * w)) (r_w r)))) m
    (fun _ m' => blitted (fun X Y => (X =? r_x r + i) && (Y =? r_y r + j)) m m').
Proof.
  intros Hi Hj. pose proof Hfits as [Hfx Hfy Hw Hh Hsw Hsh Hsize]. unfold sizeof_pixel in Hsize.
  assert (0 <= i * w /\ i * w < 2 ^ 31 /\ 0 <= j * h /\ j * h < 2 ^ 31) as (? & ? & ? & ?) by nia.
  rewrite (signed_small 32 (j * h)), (signed_small 32 (i * w)) by lia. rewrite !Z.quot_div_nonneg by lia.
  pose proof (scaled i (r_w r) w Hi Hw). pose proof (scaled j (r_h r) h Hj Hh).
  set (fx := i * w / r_w r) in *. set (fy := j * h / r_h r) in *.
  assert (0 <= w * fy /\ w * fy + fx < w * h) as [? ?] by nia.
  assert (0 <= W * (r_y r + j) /\ W * (r_y r + j) + (r_x r + i) < W * H) as [? ?] by nia.
  rewrite (signed_small 32 (w * fy)), (signed_small 32 (W * _)) by lia. rewrite !signed_small by lia.
  eapply wp_mono; [apply copy_pixel_spec; unfold sizeof_pixel; lia|]. intros [] m' [Ho Hd].
  replace (px + sizeof_pixel * (W * (r_y r + j) + (r_x r + i))) with (pixel_addr px W (r_x r + i) (r_y r + j)) in *
    by (unfold pixel_addr; lia).
  replace (pl + sizeof_pixel * (w * fy + fx)) with (pixel_addr pl w fx fy) in * by (unfold pixel_addr; lia).
  split.
  - eapply only_in_weaken; [exact Ho|]. intros x Hx. unfold inr in Hx.
    replace x with (pixel_addr px W (r_x r + i) (r_y r + j) + (x - pixel_addr px W (r_x r + i) (r_y r + j))) by lia.
    apply pixel_addr_range; lia.
  - intros X Y c HX HY Hc. destruct (Z.eqb_spec X (r_x r + i)) as [->|Hne]; cbn [andb].
    + destruct (Z.eqb_spec Y (r_y r + j)) as [->|Hne].
      * rewrite Hd by done. unfold seen, image. rewrite !Z.add_simpl_l. done.
      * apply Ho. intros Hx. unfold inr in Hx. apply Hne.
        eapply (pixel_addr_inj px W (r_x r + i) Y (r_x r + i) (r_y r + j) c
          (pixel_addr px W (r_x r + i) Y + c - pixel_addr px W (r_x r + i) (r_y r + j))); lia.
    + apply Ho. intros Hx. unfold inr in Hx. apply Hne.
      eapply (pixel_addr_inj px W X Y (r_x r + i) (r_y r + j) c
        (pixel_addr px W X Y + c - pixel_addr px W (r_x r + i) (r_y r + j))); lia.
Qed.

(** The rest of a column from row [j] on. *)
Lemma blit_column_spec i k : forall j m,
  0 <= i < r_w r -> 0 <= j <= r_h r -> r_h r - j < Z.of_nat k -> canvas_at vmem m cv type r ->
  wp (blit_column k cv px pl W w h i j) m (fun _ m' =>
    blitted (fun X Y => (X =? r_x r + i) && (r_y r + j <=? Y) && (Y <? r_y r + r_h r)) m m').
Proof.
  induction k as [|k IH]; intros j m Hi Hj Hk Hca; [lia|]. cbn [blit_column]. unfold cv_h1, cv_x1, cv_y1, cv_w1.
  apply wp_bind, wp_read; [lia|]. cbn [st_mem mem_has_mem]. rewrite (ca_h _ _ _ _ _ Hca). destruct (Z.ltb_spec j (r_h r)) as [Hlt|Hge].
  2:{ apply wp_ret, blitted_none. intros X Y. destruct (Z.leb_spec (r_y r + j) Y), (Z.ltb_spec Y (r_y r + r_h r)); try lia;
      by rewrite ?andb_false_r. }
  do 3 (apply wp_bind, wp_read; [lia|]). cbn [st_mem mem_has_mem]. rewrite (ca_x _ _ _ _ _ Hca), (ca_y _ _ _ _ _ Hca), (ca_w _ _ _ _ _ Hca).
  destruct (Z.eqb_spec (r_w r) 0); [lia|]. apply wp_bind. eapply wp_mono; [apply blit_pixel; lia|]. intros [] m1 Hb1.
  eapply wp_mono; [apply IH; [done|lia|lia|]|].
  { eapply canvas_at_frame; [exact (proj1 Hb1)|exact Hcanvas|done]. }
  intros [] m2 Hb2. eapply blitted_trans; [exact Hb1|exact Hb2|..].
  - intros X Y [[->%Z.eqb_eq ?%Z.leb_le]%andb_true_iff ?%Z.ltb_lt]%andb_true_iff. apply in_rect_true. lia.
  - intros X Y. destruct (Z.eqb_spec X (r_x r + i)), (Z.leb_spec (r_y r + j) Y), (Z.leb_spec (r_y r + (j + 1)) Y),
      (Z.ltb_spec Y (r_y r + r_h r)), (Z.eqb_spec Y (r_y r + j)); cbn; done || lia.
Qed.

(** The rest of the rectangle from column [i] on. *)
Lemma blit_from k : forall i m,
  0 <= i <= r_w r -> r_w r - i < Z.of_nat k -> r_h r < Z.of_nat blit_fuel -> canvas_at vmem m cv type r -> 0 <= r_h r ->
  wp (blit k cv px pl W w h i) m (fun _ m' =>
    blitted (fun X Y => (r_x r + i <=? X) && (X <? r_x r + r_w r) && (r_y r <=? Y) && (Y <? r_y r + r_h r)) m m').
Proof.
  induction k as [|k IH]; intros i m Hi Hk Hf Hca Hh0; [lia|]. cbn [blit]. unfold cv_w1.
  apply wp_bind, wp_read; [lia|]. cbn [st_mem mem_has_mem]. rewrite (ca_w _ _ _ _ _ Hca). destruct (Z.ltb_spec i (r_w r)) as [Hlt|Hge].
  2:{ apply wp_ret, blitted_none. intros X Y. destruct (Z.leb_spec (r_x r + i) X), (Z.ltb_spec X (r_x r + r_w r)); try lia; done. }
  apply wp_bind. eapply wp_mono; [apply blit_column_spec; [lia|lia|lia|done]|]. intros [] m1 Hb1.
  eapply wp_mono; [apply IH; [lia|lia|done| |done]|].
  { eapply canvas_at_frame; [exact (proj1 Hb1)|exact Hcanvas|done]. }
  intros [] m2 Hb2. eapply blitted_trans; [exact Hb1|exact Hb2|..].
  - intros X Y [[[?%Z.leb_le ?%Z.ltb_lt]%andb_true_iff ?%Z.leb_le]%andb_true_iff ?%Z.ltb_lt]%andb_true_iff. apply in_rect_true. lia.
  - intros X Y. destruct (Z.eqb_spec X (r_x r + i)), (Z.leb_spec (r_x r + i) X), (Z.leb_spec (r_x r + (i + 1)) X),
      (Z.ltb_spec X (r_x r + r_w r)), (Z.leb_spec (r_y r + 0) Y), (Z.leb_spec (r_y r) Y), (Z.ltb_spec Y (r_y r + r_h r));
      cbn; done || lia.
Qed.

(** The whole canvas. *)
Lemma blit_spec m :
  canvas_at vmem m cv type r ->
  wp (blit blit_fuel cv px pl W w h 0) m (fun _ m' => only_in target m m' /\
    forall X Y c, 0 <= X < W -> 0 <= Y < H -> 0 <= c < sizeof_pixel ->
      image m' px W X Y c = stretch r w h (image m pl w) (image m px W) X Y c).
Proof.
  intros Hca. assert (forall a, 0 <= load_le 2 m a < 65536) as Hl by (intros a; exact (load_le_range 2 m a)).
  assert (Z.of_nat blit_fuel = 65537) as Hf.
  { Transparent blit_fuel. unfold blit_fuel. rewrite Z2Nat.id; lia. Opaque blit_fuel. }
  pose proof (Hl (cv + 10)) as Hw1. pose proof (Hl (cv + 12)) as Hh1. rewrite (ca_w _ _ _ _ _ Hca) in Hw1. rewrite (ca_h _ _ _ _ _ Hca) in Hh1.
  eapply wp_mono; [apply blit_from; [lia|lia|lia|done|lia]|]. intros [] m' [Ho Hd]. split; [done|].
  intros X Y c HX HY Hc. unfold image at 1. rewrite Hd by done. unfold stretch, covers_pixel, in_rect, seen. by rewrite Z.add_0_r.
Qed.
End Blit.

(** ** The buffer *)

Lemma clear_bytes_spec k : forall p m,
  0 < p -> wp (clear_bytes k p) m (fun _ m' => only_in (inr p (Z.of_nat k)) m m' /\
    forall x, inr p (Z.of_nat k) x -> load8 m' x = 0).
Proof.
  induction k as [|k IH]; intros p m Hp; cbn [clear_bytes].
  - apply wp_ret. split; [done|unfold inr; lia].
  - apply wp_bind, wp_put8; [lia|]. cbn [st_upd mem_has_mem]. eapply wp_mono; [apply IH; lia|]. intros [] m' [Ho Hz]. split.
    + intros x Hx. rewrite Ho by (unfold inr in *; lia). rewrite load8_store8. destruct (Z.eqb_spec x p); [unfold inr in Hx; lia|done].
    + intros x Hx. destruct (decide (x = p)) as [->|].
      * rewrite Ho by (unfold inr; lia). by rewrite load8_store8, Z.eqb_refl.
      * apply Hz. unfold inr in *. lia.
Qed.

Lemma vbuf_alloc_spec vbuf head size m :
  0 < head -> 0 <= size -> head + size <= vbuf + VMEM_SIZE ->
  wp (vbuf_alloc vbuf head size) m (fun r m' => r = (head, head + size) /\ only_in (inr head size) m m' /\
    forall x, inr head size x -> load8 m' x = 0).
Proof.
  intros Hh Hs Hroom. unfold vbuf_alloc. destruct (Z.ltb_spec (vbuf + VMEM_SIZE) (head + size)); [lia|].
  apply wp_bind. eapply wp_mono; [by apply clear_bytes_spec|]. rewrite Z2Nat.id by done. intros [] m' Hm. by apply wp_ret.
Qed.

(** ** The walk *)

Lemma stretch_ext r W H w h pic pic' (bg bg' : picture) X Y c :
  fits W H r w h -> (forall X Y, 0 <= X < w -> 0 <= Y < h -> pic X Y c = pic' X Y c) -> bg X Y c = bg' X Y c ->
  stretch r w h pic bg X Y c = stretch r w h pic' bg' X Y c.
Proof.
  intros [_ _ Hw Hh _ _ _] Hp Hb. unfold stretch. destruct (covers_pixel r X Y) eqn:E; [|done].
  apply in_rect_true in E. apply Hp; apply scaled; lia.
Qed.

Lemma paint_all_ext m l X Y c : forall bg bg' : picture,
  bg X Y c = bg' X Y c -> paint_all m l bg X Y c = paint_all m l bg' X Y c.
Proof.
  induction l as [|n rest IH]; intros bg bg' E; cbn [paint_all]; [done|]. apply IH. unfold stretch. by rewrite E.
Qed.

Lemma need_nonneg :
  (forall n W H, drawable W H n -> 0 <= need n) /\ (forall l W H, drawable_all W H l -> 0 <= needs l).
Proof.
  apply scene_scenes_ind; cbn [need needs drawable drawable_all scene_w scene_h].
  - lia.
  - intros r w h children IH W H [[_ _ Hw Hh _ _ _] Hc]. apply IH in Hc. unfold sizeof_pixel. nia.
  - lia.
  - intros n IHn rest IHr W H [Hn Hr]. apply IHn in Hn. apply IHr in Hr. lia.
Qed.

Lemma weights_pos l : (1 <= weights l)%nat.
Proof. induction l; cbn [weights]; lia. Qed.

Section Walk.
Context (vmem vbuf : Z) (m0 : mem).
Context (Hvmem : 0 < vmem) (Hvbuf : 0 < vbuf) (Hapart : forall x, inr vbuf VMEM_SIZE x -> ~ in_vmem vmem x).

(** The bytes of a canvas of [W * H] pixels at [px] and of [n] bytes of the buffer. *)
Definition touched (px W H head n : Z) (x : Z) : Prop := inr px (sizeof_pixel * (W * H)) x \/ inr head n x.

(** Video memory is as it was. *)
Definition kept (m : mem) : Prop := same_on (in_vmem vmem) m0 m.

Lemma kept_only m m' P : kept m -> only_in P m m' -> (forall x, P x -> ~ in_vmem vmem x) -> kept m'.
Proof. intros Hk Ho HP x Hx. rewrite Ho; [by apply Hk|]. intros Hx'. by apply (HP x). Qed.

Lemma kept_load n m p : kept m -> (forall x, inr p (Z.of_nat n) x -> in_vmem vmem x) -> load_le n m p = load_le n m0 p.
Proof. intros Hk Hin. eapply same_on_load; [exact Hk|]. intros x Hx. by apply Hin. Qed.

Lemma kept_canvas m cv type r : kept m -> canvas_at vmem m0 cv type r -> canvas_at vmem m cv type r.
Proof.
  intros Hk. apply (canvas_at_frame vmem (fun x => ~ in_vmem vmem x)).
  - intros x Hx. apply Hk. unfold in_vmem, inr in *. lia.
  - auto.
Qed.

(** The place of a canvas: a target of its parent that is apart from video memory and from the
    buffer it needs, which is free. *)
Record place (px W H head n : Z) : Prop := {
  pl_pos : 0 < px;
  pl_size : W * H < 2 ^ 31;
  pl_vmem : forall x, inr px (sizeof_pixel * (W * H)) x -> ~ in_vmem vmem x;
  pl_buffer : forall x, inr px (sizeof_pixel * (W * H)) x -> ~ inr head n x;
  pl_head : vbuf <= head;
  pl_room : head + n <= vbuf + VMEM_SIZE;
}.

Lemma touched_vmem px W H head n x : place px W H head n -> touched px W H head n x -> ~ in_vmem vmem x.
Proof. intros [_ _ Hv _ Hh Hr] [Hx|Hx]; [by apply Hv|]. apply Hapart. unfold inr in *. lia. Qed.

(** What a part of the walk does: it takes [n] bytes of the buffer and turns the target into
    the picture [pic] of what was there. *)
Definition draws (px W H head n : Z) (pic : picture -> picture) (m : mem) (head' : Z) (m' : mem) : Prop :=
  head' = head + n /\ only_in (touched px W H head n) m m' /\
  forall X Y c, 0 <= X < W -> 0 <= Y < H -> 0 <= c < sizeof_pixel ->
    image m' px W X Y c = pic (image m px W) X Y c.

Definition scene_drawn (n : scene) : Prop := forall fuel W H cv px head m,
  (weight n <= fuel)%nat -> scene_at vmem m0 cv n -> drawable W H n -> 0 < cv -> kept m -> place px W H head (need n) ->
  wp (render fuel vmem vbuf W cv px head) m (draws px W H head (need n) (paint m0 n) m).

Definition scenes_drawn (l : scenes) : Prop := forall fuel k W H par ch px head m,
  (weights l <= fuel)%nat -> (weights l <= k)%nat -> scenes_at vmem m0 ch l -> drawable_all W H l ->
  0 < par -> (forall x, inr par sizeof_canvas x -> in_vmem vmem x) -> load_le 2 m0 (par + 2) = W ->
  kept m -> place px W H head (needs l) ->
  wp (render_children (fun ch head => w' ← cv_w par; render fuel vmem vbuf w' ch px head) k vmem ch head) m
    (draws px W H head (needs l) (paint_all m0 l) m).

(** The fields of a canvas, in memory as it is. *)
Lemma canvas_load n m cv off :
  (forall x, inr cv sizeof_canvas x -> in_vmem vmem x) -> kept m -> 0 <= off -> off + Z.of_nat n <= sizeof_canvas ->
  load_le n m (cv + off) = load_le n m0 (cv + off).
Proof. intros Hin Hk Ho Hn. apply kept_load; [done|]. intros x Hx. apply Hin. unfold inr in *. lia. Qed.

Lemma corner_nonneg m cv type r : canvas_at vmem m cv type r -> 0 <= r_x r /\ 0 <= r_y r.
Proof.
  intros [_ _ <- <- _ _]. split; [exact (proj1 (load_le_range 2 m _))|exact (proj1 (load_le_range 2 m _))].
Qed.

(** The last step of both kinds of canvas. *)
Lemma blit_drawn fuel W H px pl n cv type m :
  canvas_at vmem m0 cv type (scene_dest n) -> fits W H (scene_dest n) (scene_w n) (scene_h n) ->
  0 < cv -> 0 < px -> 0 < pl -> W * H < 2 ^ 31 -> kept m -> fuel = blit_fuel ->
  (forall x, inr px (sizeof_pixel * (W * H)) x -> ~ in_vmem vmem x) ->
  (forall x, inr pl (sizeof_pixel * (scene_w n * scene_h n)) x -> ~ inr px (sizeof_pixel * (W * H)) x) ->
  (forall X Y c, 0 <= X < scene_w n -> 0 <= Y < scene_h n -> 0 <= c < sizeof_pixel ->
     image m pl (scene_w n) X Y c = content m0 n X Y c) ->
  wp (blit fuel cv px pl W (scene_w n) (scene_h n) 0) m (fun _ m' => only_in (inr px (sizeof_pixel * (W * H))) m m' /\
    forall X Y c, 0 <= X < W -> 0 <= Y < H -> 0 <= c < sizeof_pixel -> image m' px W X Y c = paint m0 n (image m px W) X Y c).
Proof.
  intros Hca Hfit Hcv Hpx Hpl HWH Hk -> Hv Hsrc Hpic. pose proof (corner_nonneg _ _ _ _ Hca) as [Hx0 Hy0].
  eapply wp_mono; [eapply (blit_spec vmem W H px pl _ _ cv type (scene_dest n)); try done|].
  - intros x Hx Hx'. by eapply Hv.
  - by apply kept_canvas.
  - intros _ m' [Ho Hd]. split; [exact Ho|]. intros X Y c HX HY Hc. rewrite Hd by done. unfold paint.
    eapply stretch_ext; [exact Hfit| |done]. intros. by apply Hpic.
Qed.

Lemma texture_drawn r w h pixels : scene_drawn (Texture r w h pixels).
Proof.
  intros fuel W H cv px head m Hf Hat [Hfit _] Hcv Hk [Hpx HWH Hv Hbuf Hhead Hroom].
  destruct Hat as (Hca & Hw & Hh & Hp & Hp0 & Himg). destruct fuel as [|fuel]; [simpl in Hf; lia|]. cbn [render].
  pose proof (ca_in _ _ _ _ _ Hca) as Hin. unfold cv_type, tex_w, tex_h, tex_pixels.
  assert (load_le 2 m cv = AM_GPU_TEXTURE) as Et.
  { rewrite <- (ca_type _ _ _ _ _ Hca). pose proof (canvas_load 2 m cv 0 Hin Hk) as E. rewrite !Z.add_0_r in E. apply E; unfold sizeof_canvas; lia. }
  apply wp_bind, wp_read; [lia|]. rewrite Z.add_0_r. cbn [st_mem mem_has_mem]. rewrite Et. cbn [Z.eqb Pos.eqb AM_GPU_TEXTURE].
  do 3 (apply wp_bind, wp_read; [lia|]). cbn [st_mem mem_has_mem]. rewrite !(canvas_load _ m) by (done || unfold sizeof_canvas; lia).
  rewrite Hw, Hh, Hp. apply wp_bind.
  eapply wp_mono; [apply (blit_drawn blit_fuel W H px pixels (Texture r w h pixels) cv AM_GPU_TEXTURE); try done|].
  - intros x Hx Hx'. eapply Hv; [exact Hx'|by apply Himg].
  - cbn [scene_w scene_h content]. intros X Y c HX HY Hc. unfold image. apply Hk, Himg. by apply pixel_addr_range.
  - intros _ m' [Ho Hd]. apply wp_ret. cbn [need]. split; [lia|]. split; [|done].
    eapply only_in_weaken; [exact Ho|]. intros x Hx. by left.
Qed.

Lemma nil_drawn : scenes_drawn Done_children.
Proof.
  intros fuel k W H par ch px head m _ Hk -> _ _ _ _ _ _. destruct k as [|k]; [simpl in Hk; lia|]. cbn [render_children Z.eqb].
  apply wp_ret. split; [cbn [needs]; lia|]. by split.
Qed.

Lemma child_drawn n rest : scene_drawn n -> scenes_drawn rest -> scenes_drawn (Child n rest).
Proof.
  intros IHn IHr fuel k W H par ch px head m Hf Hk (Hch & Hat & Hrest) [Hdn Hdr] Hpar Hpin HW Hkept [Hpx HWH Hv Hbuf Hhead Hroom].
  pose proof (weights_pos rest). pose proof (proj1 need_nonneg n W H Hdn). pose proof (proj2 need_nonneg rest W H Hdr).
  assert (1 <= weight n)%nat by (destruct n; cbn [weight]; lia). cbn [weights needs] in *.
  destruct k as [|k]; [lia|]. cbn [render_children]. destruct (Z.eqb_spec ch 0); [lia|]. apply wp_bind, wp_bind. unfold cv_w at 1.
  apply wp_read; [lia|]. cbn [st_mem mem_has_mem]. rewrite canvas_load by (done || unfold sizeof_canvas; lia). rewrite HW.
  assert (place px W H head (need n)) as Hpl1.
  { split; try done; [|lia]. intros x Hx Hx'. eapply Hbuf; [exact Hx|]. unfold inr in *. lia. }
  eapply wp_mono; [apply (IHn fuel W H ch px head m); try done; lia|]. intros head1 m1 (-> & Ho1 & Hd1).
  assert (kept m1) as Hk1 by (eapply kept_only; [exact Hkept|exact Ho1|]; intros x; by apply touched_vmem).
  assert (place px W H (head + need n) (needs rest)) as Hpl2.
  { split; try done; [|lia|lia]. intros x Hx Hx'. eapply Hbuf; [exact Hx|]. unfold inr in *. lia. }
  apply wp_bind. unfold cv_sibling. apply wp_read; [lia|]. cbn [st_mem mem_has_mem].
  assert (forall x, inr ch sizeof_canvas x -> in_vmem vmem x) as Hcin by (destruct n; apply (ca_in _ _ _ _ _ (proj1 Hat))).
  rewrite canvas_load by (done || unfold sizeof_canvas; lia).
  eapply wp_mono; [apply (IHr fuel k W H par); try done; lia|]. intros head2 m2 (-> & Ho2 & Hd2). split; [lia|]. split.
  - etrans; eapply only_in_weaken; [exact Ho1| |exact Ho2|]; intros x [Hx|Hx]; unfold touched, inr in *; lia.
  - intros X Y c HX HY Hc. rewrite Hd2 by done. cbn [paint_all]. apply paint_all_ext. by rewrite Hd1.
Qed.

Lemma subtree_drawn r w h children : scenes_drawn children -> scene_drawn (Subtree r w h children).
Proof.
  intros IH fuel W H cv px head m Hf (Hca & Hw & Hh & Hch) [Hfit Hdc] Hcv Hk [Hpx HWH Hv Hbuf Hhead Hroom].
  cbn [weight need scene_w scene_h scene_dest] in *. pose proof (proj2 need_nonneg children w h Hdc) as Hn0.
  pose proof Hfit as [_ _ Hw0 Hh0 _ _ Hsize]. unfold sizeof_pixel in Hsize.
  destruct fuel as [|fuel]; [lia|]. cbn [render]. pose proof (ca_in _ _ _ _ _ Hca) as Hin. unfold cv_type.
  assert (load_le 2 m cv = AM_GPU_SUBTREE) as Et.
  { rewrite <- (ca_type _ _ _ _ _ Hca). pose proof (canvas_load 2 m cv 0 Hin Hk) as E. rewrite !Z.add_0_r in E. apply E; unfold sizeof_canvas; lia. }
  apply wp_bind, wp_read; [lia|]. rewrite Z.add_0_r. cbn [st_mem mem_has_mem]. rewrite Et. cbn [Z.eqb Pos.eqb AM_GPU_SUBTREE AM_GPU_TEXTURE].
  apply wp_bind, wp_read; [lia|]. apply wp_bind, wp_read; [lia|]. cbn [st_mem mem_has_mem].
  rewrite !(canvas_load _ m) by (done || unfold sizeof_canvas; lia). rewrite Hw, Hh. unfold sizeof_pixel at 1.
  assert (0 < w * h) by nia. rewrite (signed_small 32 (w * h)), signed_small by lia.
  set (size := w * h * 3). assert (sizeof_pixel * (w * h) = size) as Esz by (unfold sizeof_pixel; lia). rewrite Esz in *.
  apply wp_bind. eapply wp_mono; [apply vbuf_alloc_spec; lia|]. intros _ m1 (-> & Ho1 & Hz1).
  assert (forall x, inr head (size + needs children) x -> ~ in_vmem vmem x) as Hbv by (intros x Hx; apply Hapart; unfold inr in *; lia).
  assert (kept m1) as Hk1 by (eapply kept_only; [exact Hk|exact Ho1|]; intros x Hx; apply Hbv; unfold inr in *; lia).
  apply wp_bind. unfold cv_child. apply wp_read; [lia|]. cbn [st_mem mem_has_mem]. rewrite (canvas_load _ m1) by (done || unfold sizeof_canvas; lia).
  apply wp_bind. eapply wp_mono; [apply (IH fuel fuel w h cv); try done; [lia|lia|]|].
  { split; try lia; rewrite ?Esz; [intros x Hx; apply Hbv; unfold inr in *; lia|unfold inr; lia]. }
  intros head2 m2 (-> & Ho2 & Hd2).
  assert (only_in (inr head (size + needs children)) m m2) as Ho.
  { etrans; eapply only_in_weaken; [exact Ho1| |exact Ho2|]; intros x Hx; unfold touched, inr in *; rewrite ?Esz in Hx; lia. }
  assert (kept m2) as Hk2 by (eapply kept_only; [exact Hk|exact Ho|exact Hbv]).
  apply wp_bind.
  eapply wp_mono; [apply (blit_drawn blit_fuel W H px head (Subtree r w h children) cv AM_GPU_SUBTREE); cbn [scene_w scene_h scene_dest]; try done; try lia|].
  - rewrite Esz. intros x Hx Hx'. eapply Hbuf; [exact Hx'|]. unfold inr in *. lia.
  - cbn [content]. intros X Y c HX HY Hc. rewrite Hd2 by done. apply paint_all_ext. unfold image. apply Hz1. rewrite <- Esz.
    by apply pixel_addr_range.
  - intros _ m3 [Ho3 Hd3]. apply wp_ret. split; [lia|]. split.
    + etrans; eapply only_in_weaken; [exact Ho| |exact Ho3|]; intros x Hx; unfold touched; [by right|by left].
    + intros X Y c HX HY Hc. rewrite Hd3 by done. unfold paint. eapply stretch_ext; [exact Hfit|done|]. unfold image. apply Ho.
      apply Hbuf. by apply pixel_addr_range.
Qed.

Lemma walk_drawn : (forall n, scene_drawn n) /\ (forall l, scenes_drawn l).
Proof. apply scene_scenes_ind; auto using texture_drawn, subtree_drawn, nil_drawn, child_drawn. Qed.
End Walk.

(** C29: a tree of canvases in video memory, whose rectangles lie inside of one another and whose
    pictures fit into the buffer, is drawn on the screen as its picture: every canvas scaled
    into its rectangle over what was drawn before. No byte outside of the frame buffer and the
    part of the buffer that is needed changes. *)
Theorem gpu_render_spec fuel vmem vbuf fb W H root n m :
  (weight n <= fuel)%nat -> 0 < vmem -> 0 < vbuf -> 0 < to_host vmem root ->
  scene_at vmem m (to_host vmem root) n -> drawable W H n -> need n <= VMEM_SIZE -> W * H < 2 ^ 31 -> 0 < fb ->
  (forall x, inr vbuf VMEM_SIZE x -> ~ inr vmem VMEM_SIZE x) ->
  (forall x, inr fb (sizeof_pixel * (W * H)) x -> ~ inr vmem VMEM_SIZE x /\ ~ inr vbuf VMEM_SIZE x) ->
  wp (gpu_render fuel vmem vbuf fb W root) m (fun _ m' =>
    only_in (touched fb W H vbuf (need n)) m m' /\
    forall X Y c, 0 <= X < W -> 0 <= Y < H -> 0 <= c < sizeof_pixel ->
      image m' fb W X Y c = paint m n (image m fb W) X Y c).
Proof.
  intros Hf Hvm Hvb Hroot Hat Hd Hneed HWH Hfb Hap Hfbap. unfold gpu_render. apply wp_bind.
  eapply wp_mono; [apply (proj1 (walk_drawn vmem vbuf m Hvb Hap) n fuel W H); try done|].
  - split; try done; try lia; intros x Hx; destruct (Hfbap x Hx) as [Hv Hb]; [exact Hv|].
    intros Hx'. apply Hb. unfold inr in *. lia.
  - intros head' m' (_ & Ho & Hp). by apply wp_ret.
Qed.

(** A picture of 2 by 2 pixels with a texture of one pixel on its right half, drawn on a screen
    of 4 by 4. *)
Definition demo_scene : scene :=
  Subtree (mk_rect 0 0 4 4) 2 2 (Child (Texture (mk_rect 1 0 1 2) 1 1 0x100040) Done_children).

(** Video memory at 0x100000 with the canvas at its start, the texture at 32, the pixel at 64. *)
Definition demo_canvases : mem :=
  let set16 m p v := store_le 2 m p v in
  let canvas m p type w h x y w1 h1 := set16 (set16 (set16 (set16 (set16 (set16 (set16 m p type) (p + 2) w) (p + 4) h) (p + 6) x) (p + 8) y) (p + 10) w1) (p + 12) h1 in
  let m := canvas (fun _ => 0) 0x100000 AM_GPU_SUBTREE 2 2 0 0 4 4 in
  let m := store_le 4 (store_le 4 m 0x10000e AM_GPU_NULL) 0x100012 32 in
  let m := canvas m 0x100020 AM_GPU_TEXTURE 0 0 1 0 1 2 in
  let m := store_le 4 m 0x10002e AM_GPU_NULL in
  let m := store_le 4 (set16 (set16 m 0x100032 1) 0x100034 1) 0x100036 64 in
  store_le 2 (store8 m 0x100040 7) 0x100041 0x0908.

Lemma gpu_render_spec_witness :
  wp (gpu_render 3 0x100000 0x200000 0x300000 4 0) demo_canvases (fun _ m' =>
    only_in (touched 0x300000 4 4 0x200000 (need demo_scene)) demo_canvases m' /\
    forall X Y c, 0 <= X < 4 -> 0 <= Y < 4 -> 0 <= c < sizeof_pixel ->
      image m' 0x300000 4 X Y c = paint demo_canvases demo_scene (image demo_canvases 0x300000 4) X Y c).
Proof.
  apply (gpu_render_spec 3 0x100000 0x200000 0x300000 4 4 0 demo_scene demo_canvases); try (cbn; lia);
    change VMEM_SIZE with 0x80000; try (unfold inr, sizeof_pixel; lia).
  - cbn [scene_at demo_scene scenes_at]. split; [|split; [vm_compute; reflexivity|split; [vm_compute; reflexivity|]]].
    + split; [unfold in_vmem, inr, sizeof_canvas; change VMEM_SIZE with 0x80000; cbn; lia|vm_compute; reflexivity..].
    + split; [vm_compute; reflexivity|]. split; [|vm_compute; reflexivity].
      split; [|split; [vm_compute; reflexivity|split; [vm_compute; reflexivity|split; [vm_compute; reflexivity|split; [lia|]]]]].
      * replace (to_host 0x100000 (load_le 4 demo_canvases (to_host 0x100000 0 + 18))) with 0x100020 by (vm_compute; reflexivity).
        split; [unfold in_vmem, inr, sizeof_canvas; change VMEM_SIZE with 0x80000; lia|vm_compute; reflexivity..].
      * unfold in_vmem, inr, sizeof_pixel. change VMEM_SIZE with 0x80000. lia.
  - cbn. split; [split; unfold sizeof_pixel; cbn; lia|]. split; [|done]. split; [split; unfold sizeof_pixel; cbn; lia|done].
  - by vm_compute.
Defined.

(** The right half of the screen has the colour of the texture, the left half is black. *)
Example demo_render :
  match gpu_render 3 0x100000 0x200000 0x300000 4 0 demo_canvases with
  | Done _ m => (image m 0x300000 4 2 0 0, image m 0x300000 4 3 3 2, image m 0x300000 4 1 2 0) = (7, 9, 0)
  | Fault _ => False
  end.
Proof. vm_compute. reflexivity. Qed.
