(* ===== verification/Ioe.v ===== *)
(** * The device registers: am/src/x86/qemu/ioe.c, lines 303-346, and amdev.h

    [ioe_read] and [ioe_write] look a handler up by the number of a register and run it on
    the request in memory. The requests are laid out as the AM_DEVREG structures of amdev.h. *)

From stdpp Require Import prelude.
From S2P Require Import Prelude Mem KString Trm Disk Clock Keyboard Gpu.

(** ** Registers: amdev.h, lines 10-33 *)

Definition AM_UART_CONFIG : Z := 1.
Definition AM_UART_TX : Z := 2.
Definition AM_UART_RX : Z := 3.
Definition AM_TIMER_CONFIG : Z := 4.
Definition AM_TIMER_RTC : Z := 5.
Definition AM_TIMER_UPTIME : Z := 6.
Definition AM_INPUT_CONFIG : Z := 7.
Definition AM_INPUT_KEYBRD : Z := 8.
Definition AM_GPU_CONFIG : Z := 9.
Definition AM_GPU_STATUS : Z := 10.
Definition AM_GPU_FBDRAW : Z := 11.
Definition AM_GPU_MEMCPY : Z := 12.
Definition AM_GPU_RENDER : Z := 13.
Definition AM_AUDIO_CONFIG : Z := 14.
Definition AM_DISK_CONFIG : Z := 18.
Definition AM_DISK_STATUS : Z := 19.
Definition AM_DISK_BLKIO : Z := 20.
Definition AM_NET_CONFIG : Z := 21.

(** The functions the table points to. *)
Inductive handler : Type :=
| uart_config | h_uart_tx | h_uart_rx | timer_config | h_timer_rtc | h_timer_uptime | input_config | h_input_keybrd
| gpu_config | h_gpu_fbdraw | gpu_status | h_gpu_memcpy | h_gpu_render | audio_config | disk_config | disk_status
| h_disk_blkio | net_config | fail.

#[export] Instance handler_eq_dec : EqDecision handler.
Proof. solve_decision. Defined.

Definition lut_init : list (Z * handler) :=
  [(AM_UART_CONFIG, uart_config); (AM_UART_TX, h_uart_tx); (AM_UART_RX, h_uart_rx);
   (AM_TIMER_CONFIG, timer_config); (AM_TIMER_RTC, h_timer_rtc); (AM_TIMER_UPTIME, h_timer_uptime);
   (AM_INPUT_CONFIG, input_config); (AM_INPUT_KEYBRD, h_input_keybrd);
   (AM_GPU_CONFIG, gpu_config); (AM_GPU_FBDRAW, h_gpu_fbdraw); (AM_GPU_STATUS, gpu_status);
   (AM_GPU_MEMCPY, h_gpu_memcpy); (AM_GPU_RENDER, h_gpu_render);
   (AM_AUDIO_CONFIG, audio_config);
   (AM_DISK_CONFIG, disk_config); (AM_DISK_STATUS, disk_status); (AM_DISK_BLKIO, h_disk_blkio);
   (AM_NET_CONFIG, net_config)].

(** The table as it is linked, with null pointers, and after lines 335-336. *)
Definition lut0 : list (option handler) :=
  foldl (fun lut e => <[Z.to_nat e.1 := Some e.2]> lut) (replicate 128 None) lut_init.

Definition lut_filled : list handler := default fail <$> lut0.

(** The variables of the driver that initialisation sets, and the addresses of its arrays. *)
Record ioe_vars : Type := mk_ioe_vars { v_freq_mhz : Z; v_boot_date : AM_TIMER_RTC_T; v_uptsc : Z; v_w : Z; v_h : Z; v_fb : Z }.

Definition DISKSZ : Z := Z.shiftl 64 20.

Section Ioe.
Context {D : Type} `{Ports D} `{Tsc D} (order : list Z) (fuel : nat) (vmem vbuf : Z).

(** ** Initialisation *)

Definition ioe_init (cpu_current : Z) : M (machine D) ioe_vars :=
  if negb (cpu_current =? 0) then raise Panic
  else
    _ ← uart_init;
    t ← timer_init order fuel;
    let '(freq_mhz, boot_date, uptsc) := t in
    g ← gpu_init;
    let '(w, h, fb) := g in
    mret (mk_ioe_vars freq_mhz boot_date uptsc w h fb).

(** ** Handlers, on the request at [buf] *)

Definition put_bool (buf off : Z) (b : bool) : M (machine D) unit := write_le 1 buf off (if b then 1 else 0).

Definition run_timer_rtc (buf : Z) : M (machine D) unit :=
  rtc ← timer_rtc order fuel;
  _ ← write_le 4 buf 0 (year rtc);
  _ ← write_le 4 buf 4 (month rtc);
  _ ← write_le 4 buf 8 (day rtc);
  _ ← write_le 4 buf 12 (hour rtc);
  _ ← write_le 4 buf 16 (minute rtc);
  write_le 4 buf 20 (second rtc).

Definition run_input_keybrd (buf : Z) : M (machine D) unit :=
  ev ← input_keybrd;
  _ ← put_bool buf 0 ev.1;
  write_le 4 buf 4 ev.2.

Definition run_gpu_config (v : ioe_vars) (buf : Z) : M (machine D) unit :=
  _ ← put_bool buf 0 true;
  _ ← put_bool buf 1 false;
  _ ← write_le 4 buf 4 (v_w v);
  _ ← write_le 4 buf 8 (v_h v);
  write_le 4 buf 12 VMEM_SIZE.

Definition run_gpu_fbdraw (v : ioe_vars) (buf : Z) : M (machine D) unit :=
  x ← read_le 4 buf 0;
  y ← read_le 4 buf 4;
  w ← read_le 4 buf 16;
  h ← read_le 4 buf 20;
  pixels ← read_le 8 buf 8;
  gpu_fbdraw (v_fb v) (v_w v) (v_h v) (i32 x) (i32 y) pixels (i32 w) (i32 h).

Definition run_disk_config (buf : Z) : M (machine D) unit :=
  _ ← put_bool buf 0 true;
  _ ← write_le 4 buf 4 BLKSZ;
  write_le 4 buf 8 (DISKSZ / BLKSZ).

(** The handlers that only fill their structure in, and the one that panics. *)
Definition run_uart_config (buf : Z) : M (machine D) unit := put_bool buf 0 true.
Definition run_timer_config (buf : Z) : M (machine D) unit := _ ← put_bool buf 1 true; put_bool buf 0 true.
Definition run_input_config (buf : Z) : M (machine D) unit := put_bool buf 0 true.
Definition run_gpu_status (buf : Z) : M (machine D) unit := put_bool buf 0 true.
Definition run_disk_status (buf : Z) : M (machine D) unit := put_bool buf 0 true.
Definition run_audio_config (buf : Z) : M (machine D) unit := put_bool buf 0 false.
Definition run_net_config (buf : Z) : M (machine D) unit := put_bool buf 0 false.
Definition run_fail (buf : Z) : M (machine D) unit := raise Panic.

Definition run (v : ioe_vars) (h : handler) (buf : Z) : M (machine D) unit :=
  match h with
  | uart_config => run_uart_config buf
  | h_uart_tx => data ← read_le 1 buf 0; uart_tx data
  | h_uart_rx => data ← uart_rx; write_le 1 buf 0 data
  | timer_config => run_timer_config buf
  | h_timer_rtc => run_timer_rtc buf
  | h_timer_uptime => us ← timer_uptime (v_uptsc v) (v_freq_mhz v); write_le 8 buf 0 us
  | input_config => run_input_config buf
  | h_input_keybrd => run_input_keybrd buf
  | gpu_config => run_gpu_config v buf
  | h_gpu_fbdraw => run_gpu_fbdraw v buf
  | gpu_status => run_gpu_status buf
  | h_gpu_memcpy => gpu_memcpy fuel vmem buf
  | h_gpu_render => root ← read_le 4 buf 0; gpu_render fuel vmem vbuf (v_fb v) (v_w v) root
  | audio_config => run_audio_config buf
  | disk_config => run_disk_config buf
  | disk_status => run_disk_status buf
  | h_disk_blkio => disk_blkio fuel buf
  | net_config => run_net_config buf
  | fail => run_fail buf
  end.

Definition ioe_access (v : ioe_vars) (reg buf : Z) : M (machine D) unit :=
  match (if reg <? 0 then None else lut_filled !! Z.to_nat reg) with
  | Some h => run v h buf
  | None => raise OutOfBounds
  end.

Definition ioe_read (v : ioe_vars) (reg buf : Z) : M (machine D) unit := ioe_access v reg buf.
Definition ioe_write (v : ioe_vars) (reg buf : Z) : M (machine D) unit := ioe_access v reg buf.
End Ioe.

Lemma lut_filled_init : Forall (fun e => 0 <= e.1 < 128 /\ lut_filled !! Z.to_nat e.1 = Some e.2) lut_init.
Proof. apply (bool_decide_unpack _). vm_compute. exact I. Qed.

Lemma lut_filled_other : Forall (fun reg => reg ∈ lut_init.*1 \/ lut_filled !! Z.to_nat reg = Some fail) (seqZ 0 128).
Proof. apply (bool_decide_unpack _). vm_compute. exact I. Qed.

Section Dispatch.
Context {D : Type} `{Ports D} `{Tsc D} (order : list Z) (fuel : nat) (vmem vbuf : Z) (v : ioe_vars).

Lemma ioe_access_run reg h buf :
  (reg, h) ∈ lut_init -> ioe_access order fuel vmem vbuf v reg buf = run order fuel vmem vbuf v h buf.
Proof.
  intros Hin. pose proof lut_filled_init as Hl. rewrite Forall_forall in Hl. destruct (Hl _ Hin) as [Hr Hh]. cbn [fst snd] in *.
  unfold ioe_access. destruct (Z.ltb_spec reg 0); [lia|]. by rewrite Hh.
Qed.

(** Of the 128 registers the 18 of the table run their handlers, on a read and on a write
    alike; an access to any other panics, and beyond the table there is none. *)
Theorem ioe_registers reg buf (s : machine D) :
  (forall h, (reg, h) ∈ lut_init ->
    ioe_read order fuel vmem vbuf v reg buf s = run order fuel vmem vbuf v h buf s /\
    ioe_write order fuel vmem vbuf v reg buf s = run order fuel vmem vbuf v h buf s) /\
  (reg ∉ lut_init.*1 ->
    ioe_read order fuel vmem vbuf v reg buf s = Fault (if (0 <=? reg) && (reg <? 128) then Panic else OutOfBounds)).
Proof.
  split.
  - intros h Hin. unfold ioe_read, ioe_write. by rewrite (ioe_access_run _ _ _ Hin).
  - intros Hout. unfold ioe_read, ioe_access. destruct (Z.leb_spec 0 reg), (Z.ltb_spec reg 0); try lia; simpl andb; [|done].
    destruct (Z.ltb_spec reg 128).
    + pose proof lut_filled_other as Hl. rewrite Forall_forall in Hl.
      destruct (Hl reg) as [Hin|Hf]; [apply elem_of_seqZ; lia|done|]. by rewrite Hf.
    + rewrite lookup_ge_None_2; [done|]. change (length lut_filled) with 128%nat. lia.
Qed.
End Dispatch.

(** ** The disk behind its register *)

Section DiskRegister.
Context {D : Type} `{AtaDisk D} `{Tsc D} (order : list Z) (fuel : nat) (vmem vbuf : Z) (v : ioe_vars).
Context (Hfuel : (ata_latency < fuel)%nat).
Implicit Types (s : machine D).

Lemma ioe_blkio s req (Q : unit -> machine D -> Prop) :
  wp (disk_blkio fuel req) s Q -> wp (ioe_write order fuel vmem vbuf v AM_DISK_BLKIO req) s Q.
Proof.
  intros HQ. unfold ioe_write.
  by rewrite (ioe_access_run _ _ _ _ _ AM_DISK_BLKIO h_disk_blkio) by (apply (bool_decide_unpack _); vm_compute; exact I).
Qed.

(** C27: blocks written through the register and read back through it, into any buffer, are
    the same bytes. Requests, buffers and blocks may lie anywhere, except that the buffer of
    the read must not cover the byte of its own request that says that it is a read: the
    driver looks at it again for every block. *)
Theorem ioe_disk_roundtrip wreq rreq buf1 buf2 blkno blkcnt s :
  drive_ok s -> blkio_request (mc_mem s) wreq true buf1 blkno blkcnt ->
  blkio_request (mc_mem s) rreq false buf2 blkno blkcnt ->
  0 < buf1 -> 0 < buf2 -> 0 <= blkno -> 0 <= blkcnt -> blkno + blkcnt <= 2 ^ 28 -> ~ inr buf2 (BLKSZ * blkcnt) rreq ->
  wp (_ ← ioe_write order fuel vmem vbuf v AM_DISK_BLKIO wreq; ioe_write order fuel vmem vbuf v AM_DISK_BLKIO rreq) s
    (fun _ s' => forall j, 0 <= j < BLKSZ * blkcnt -> load8 (mc_mem s') (buf2 + j) = load8 (mc_mem s) (buf1 + j)).
Proof.
  intros Hok Hwr Hrd Hb1 Hb2 Hno Hcnt Hmax Hout. apply wp_bind, ioe_blkio.
  eapply wp_mono; [by apply (disk_write_keeps fuel Hfuel wreq rreq buf1 buf2 blkno blkcnt)|].
  intros [] s1 [Hm Hback]. by apply ioe_blkio.
Qed.
End DiskRegister.

#[local] Instance demo_tsc : Tsc ata := {| tsc_read := fun d => (0, d) |}.

(** Two requests for two blocks from block 5. *)
Definition demo_requests : machine ata :=
  let req m p w buf := store_le 4 (store_le 4 (store64 (store8 m p w) (p + 8) buf) (p + 16) 5) (p + 20) 2 in
  mk_machine (req (req (fun x => x) 0x100 1 0x1000) 0x200 0 0x9000) demo_ata.

Lemma ioe_disk_roundtrip_witness :
  let v := mk_ioe_vars 1 (mk_rtc 0 0 0 0 0 0) 0 0 0 0 in
  wp (_ ← ioe_write rtc_regs 3 0 0 v AM_DISK_BLKIO 0x100; ioe_write rtc_regs 3 0 0 v AM_DISK_BLKIO 0x200) demo_requests
    (fun _ s' => forall j, 0 <= j < BLKSZ * 2 -> load8 (mc_mem s') (0x9000 + j) = load8 (mc_mem demo_requests) (0x1000 + j)).
Proof.
  intros v. assert (ata_latency < 3)%nat as Hf by (simpl; lia).
  apply (ioe_disk_roundtrip rtc_regs 3 0 0 v Hf 0x100 0x200 0x1000 0x9000 5 2); try lia.
  - split; [done|simpl; lia].
  - split; [lia|]. vm_compute. auto.
  - split; [lia|]. vm_compute. auto.
  - unfold inr, BLKSZ. lia.
Defined.
