(* ===== verification/Apic.v ===== *)
(** * Interrupt controllers: am/src/x86/qemu/ioe.c, lines 348-471

    The local APIC of a processor and the I/O APIC are memory-mapped: [Mmio] is what a device
    state does on a 32-bit access to an address. *)

From stdpp Require Import prelude.
From S2P Require Import Prelude Mem Trm Cte.

Class Mmio (D : Type) : Type := {
  mmio_in : Z -> D -> Z * D;
  mmio_out : Z -> Z -> D -> D;
}.

(** Indices of the registers of the local APIC, and bits in them. *)
Definition ID : Z := 0x0020 / 4.
Definition VER : Z := 0x0030 / 4.
Definition TPR : Z := 0x0080 / 4.
Definition EOI : Z := 0x00B0 / 4.
Definition SVR : Z := 0x00F0 / 4.
Definition ENABLE : Z := 0x00000100.
Definition ESR : Z := 0x0280 / 4.
Definition ICRLO : Z := 0x0300 / 4.
Definition INIT : Z := 0x00000500.
Definition STARTUP : Z := 0x00000600.
Definition DELIVS : Z := 0x00001000.
Definition ASSERT : Z := 0x00004000.
Definition LEVEL : Z := 0x00008000.
Definition BCAST : Z := 0x00080000.
Definition ICRHI : Z := 0x0310 / 4.
Definition TIMER : Z := 0x0320 / 4.
Definition X1 : Z := 0x0000000B.
Definition PERIODIC : Z := 0x00020000.
Definition PCINT : Z := 0x0340 / 4.
Definition LINT0 : Z := 0x0350 / 4.
Definition LINT1 : Z := 0x0360 / 4.
Definition ERROR : Z := 0x0370 / 4.
Definition MASKED : Z := 0x00010000.
Definition TICR : Z := 0x0380 / 4.
Definition TDCR : Z := 0x03E0 / 4.

Definition IOAPIC_ADDR : Z := 0xFEC00000.
Definition REG_VER : Z := 0x01.
Definition REG_TABLE : Z := 0x10.
Definition INT_DISABLED : Z := 0x00010000.

Definition IRQ_TIMER : Z := 0.
Definition IRQ_KBD : Z := 1.
Definition IRQ_COM1 : Z := 4.
Definition IRQ_ERROR : Z := 19.
Definition IRQ_SPURIOUS : Z := 31.

Section Controllers.
Context {D : Type} `{Mmio D}.

Definition in32 (a : Z) : M (machine D) Z := fun s =>
  let '(v, d) := mmio_in a (mc_dev s) in Done (u32 v) (mk_machine (mc_mem s) d).

Definition out32 (a v : Z) : M (machine D) unit :=
  modify (fun s => mk_machine (mc_mem s) (mmio_out a (u32 v) (mc_dev s))).

Lemma wp_in32 a s (Q : Z -> machine D -> Prop) :
  Q (u32 (mmio_in a (mc_dev s)).1) (mk_machine (mc_mem s) (mmio_in a (mc_dev s)).2) -> wp (in32 a) s Q.
Proof. intros HQ. apply wp_done. unfold in32. destruct (mmio_in _ _) as [v d]. eexists _, _. split; [done|exact HQ]. Qed.

(** ** The local APIC at [lapic] *)

Section Local.
Context (lapic : Z).

(** The read of the ID waits for the write to finish. *)
Definition lapicw (index value : Z) : M (machine D) unit :=
  _ ← out32 (lapic + 4 * index) value;
  _ ← in32 (lapic + 4 * ID);
  mret tt.

Fixpoint wait_delivery (k : nat) : M (machine D) unit :=
  match k with
  | O => raise OutOfFuel
  | S k =>
      v ← in32 (lapic + 4 * ICRLO);
      if negb (Z.land v DELIVS =? 0) then wait_delivery k else mret tt
  end.

Definition __am_percpu_initlapic (fuel : nat) : M (machine D) unit :=
  _ ← lapicw SVR (Z.lor ENABLE (T_IRQ0 + IRQ_SPURIOUS));
  _ ← lapicw TDCR X1;
  _ ← lapicw TIMER (Z.lor PERIODIC (T_IRQ0 + IRQ_TIMER));
  _ ← lapicw TICR 10000000;
  _ ← lapicw LINT0 MASKED;
  _ ← lapicw LINT1 MASKED;
  v ← in32 (lapic + 4 * VER);
  _ ← (if 4 <=? Z.land (Z.shiftr v 16) 0xFF then lapicw PCINT MASKED else mret tt);
  _ ← lapicw ERROR (T_IRQ0 + IRQ_ERROR);
  _ ← lapicw ESR 0;
  _ ← lapicw ESR 0;
  _ ← lapicw EOI 0;
  _ ← lapicw ICRHI 0;
  _ ← lapicw ICRLO (Z.lor (Z.lor BCAST INIT) LEVEL);
  _ ← wait_delivery fuel;
  lapicw TPR 0.

(** Starting processor [apicid] at [addr]: the warm reset vector, then the interrupts INIT
    and, twice, STARTUP. The port writes are those of [Ports]. *)
Definition __am_lapic_bootap `{!Ports D} (apicid addr : Z) : M (machine D) unit :=
  _ ← outb 0x70 0xF;
  _ ← outb 0x71 0x0A;
  let wrv := Z.lor (Z.shiftl 0x40 4) 0x67 in
  _ ← write_le 2 wrv 0 0;
  _ ← write_le 2 wrv 2 (Z.shiftr addr 4);
  _ ← lapicw ICRHI (Z.shiftl apicid 24);
  _ ← lapicw ICRLO (Z.lor (Z.lor INIT LEVEL) ASSERT);
  _ ← lapicw ICRLO (Z.lor INIT LEVEL);
  _ ← lapicw ICRHI (Z.shiftl apicid 24);
  _ ← lapicw ICRLO (Z.lor STARTUP (Z.shiftr addr 12));
  _ ← lapicw ICRHI (Z.shiftl apicid 24);
  lapicw ICRLO (Z.lor STARTUP (Z.shiftr addr 12)).
End Local.

(** ** The I/O APIC *)

Definition ioapicread (reg : Z) : M (machine D) Z :=
  _ ← out32 IOAPIC_ADDR reg;
  in32 (IOAPIC_ADDR + 16).

Definition ioapicwrite (reg data : Z) : M (machine D) unit :=
  _ ← out32 IOAPIC_ADDR reg;
  out32 (IOAPIC_ADDR + 16) data.

Fixpoint ioapic_mask_all (k : nat) (i : Z) : M (machine D) unit :=
  match k with
  | O => mret tt
  | S k =>
      _ ← ioapicwrite (REG_TABLE + 2 * i) (Z.lor INT_DISABLED (T_IRQ0 + i));
      _ ← ioapicwrite (REG_TABLE + 2 * i + 1) 0;
      ioapic_mask_all k (i + 1)
  end.

Definition __am_ioapic_init : M (machine D) unit :=
  v ← ioapicread REG_VER;
  let maxintr := Z.land (Z.shiftr v 16) 0xFF in
  ioapic_mask_all (Z.to_nat (maxintr + 1)) 0.

Definition __am_ioapic_enable (irq cpunum : Z) : M (machine D) unit :=
  _ ← ioapicwrite (REG_TABLE + 2 * irq) (T_IRQ0 + irq);
  ioapicwrite (REG_TABLE + 2 * irq + 1) (Z.shiftl cpunum 24).

(** cte.c, lines 162-163: what [__am_percpu_initirq] does before it loads the interrupt
    table. *)
Definition enable_irqs : M (machine D) unit :=
  _ ← __am_ioapic_enable IRQ_KBD 0;
  __am_ioapic_enable IRQ_COM1 0.
End Controllers.

(** ** What the code relies on *)

(** The register behind the data window is the one selected. Two registers describe an
    interrupt: where it goes to, and the vector with the mask. *)
Class IoApicDevice (D : Type) `{Mmio D} : Type := {
  ioapic_sel : D -> Z;
  ioapic_reg : D -> Z -> Z;
  ioapic_last : Z;
  ioapic_last_range : 0 <= ioapic_last < 0x70;
  ioapic_version : forall d, Z.land (Z.shiftr (u32 (ioapic_reg d REG_VER)) 16) 0xFF = ioapic_last;
  ioapic_select_spec : forall d reg, 0 <= reg < 256 ->
    ioapic_sel (mmio_out IOAPIC_ADDR reg d) = reg /\ ioapic_reg (mmio_out IOAPIC_ADDR reg d) = ioapic_reg d;
  ioapic_read_spec : forall d, (mmio_in (IOAPIC_ADDR + 16) d).1 = ioapic_reg d (ioapic_sel d) /\
    ioapic_reg (mmio_in (IOAPIC_ADDR + 16) d).2 = ioapic_reg d;
  ioapic_write_spec : forall d v, REG_TABLE <= ioapic_sel d <= REG_TABLE + 2 * ioapic_last + 1 ->
    forall r, ioapic_reg (mmio_out (IOAPIC_ADDR + 16) v d) r = if r =? ioapic_sel d then v else ioapic_reg d r;
}.

Section IoApicSpec.
Context {D : Type} `{IoApicDevice D}.
Implicit Types (s : machine D).

Definition ioreg s (r : Z) : Z := ioapic_reg (mc_dev s) r.

(** The redirection entry [i]. *)
Definition int_masked s (i : Z) : bool := Z.testbit (ioreg s (REG_TABLE + 2 * i)) 16.
Definition int_vector s (i : Z) : Z := ioreg s (REG_TABLE + 2 * i) mod 256.
Definition int_cpu s (i : Z) : Z := ioreg s (REG_TABLE + 2 * i + 1) / 2 ^ 24.

Lemma ioapicwrite_spec reg data s (Q : unit -> machine D -> Prop) :
  REG_TABLE <= reg <= REG_TABLE + 2 * ioapic_last + 1 -> 0 <= data < 2 ^ 32 ->
  (forall s', mc_mem s' = mc_mem s -> (forall r, ioreg s' r = if r =? reg then data else ioreg s r) -> Q tt s') ->
  wp (ioapicwrite reg data) s Q.
Proof.
  intros Hr Hd HQ. pose proof ioapic_last_range. unfold REG_TABLE in *. unfold ioapicwrite. apply wp_bind, wp_modify.
  rewrite (wrap_small 32 reg) by lia. destruct (ioapic_select_spec (mc_dev s) reg) as [Hs1 Hs2]; [lia|].
  apply wp_modify. rewrite (wrap_small 32 data) by done. apply HQ; [done|]. intros r. unfold ioreg. cbn [mc_dev mc_mem].
  rewrite ioapic_write_spec by (rewrite Hs1; done). by rewrite Hs1, Hs2.
Qed.

Lemma ioapic_mask_all_spec k i s :
  0 <= i -> i + Z.of_nat k <= ioapic_last + 1 ->
  wp (ioapic_mask_all k i) s (fun _ s' => mc_mem s' = mc_mem s /\
    (forall r, r < REG_TABLE + 2 * i \/ REG_TABLE + 2 * (i + Z.of_nat k) <= r -> ioreg s' r = ioreg s r) /\
    forall j, i <= j < i + Z.of_nat k ->
      ioreg s' (REG_TABLE + 2 * j) = Z.lor INT_DISABLED (T_IRQ0 + j) /\ ioreg s' (REG_TABLE + 2 * j + 1) = 0).
Proof.
  pose proof ioapic_last_range. unfold REG_TABLE, T_IRQ0. revert i s. induction k as [|k IH]; intros i s Hi Hk; cbn [ioapic_mask_all].
  - apply wp_ret. split; [done|]. split; [done|lia].
  - assert (0 <= Z.lor INT_DISABLED (T_IRQ0 + i) < 2 ^ 32) as Hv.
    { unfold INT_DISABLED, T_IRQ0. change 0x10000 with (Z.shiftl 1 16). rewrite lor_add by lia. lia. }
    apply wp_bind, ioapicwrite_spec; [unfold REG_TABLE; lia|done|]. intros s1 Hm1 Hr1.
    apply wp_bind, ioapicwrite_spec; [unfold REG_TABLE; lia|lia|]. intros s2 Hm2 Hr2. unfold REG_TABLE, T_IRQ0 in *.
    eapply wp_mono; [apply (IH (i + 1) s2); lia|]. intros [] s3 (Hm3 & Hout & Hin). split; [congruence|]. split.
    + intros r Hr. rewrite Hout by lia. rewrite Hr2, Hr1. destruct (Z.eqb_spec r (16 + 2 * i + 1)), (Z.eqb_spec r (16 + 2 * i)); lia.
    + intros j Hj. destruct (decide (j = i)) as [->|]; [|apply Hin; lia]. rewrite !Hout by lia. rewrite !Hr2, !Hr1.
      destruct (Z.eqb_spec (16 + 2 * i) (16 + 2 * i + 1)), (Z.eqb_spec (16 + 2 * i) (16 + 2 * i)),
        (Z.eqb_spec (16 + 2 * i + 1) (16 + 2 * i + 1)); lia || done.
Qed.

Lemma entry_enabled s s' irq cpunum :
  0 <= irq -> 0 <= cpunum < 256 ->
  (forall r, ioreg s' r = if r =? REG_TABLE + 2 * irq + 1 then Z.shiftl cpunum 24 else
    if r =? REG_TABLE + 2 * irq then T_IRQ0 + irq else ioreg s r) ->
  forall i, 0 <= i -> ioreg s' (REG_TABLE + 2 * i) = (if i =? irq then T_IRQ0 + irq else ioreg s (REG_TABLE + 2 * i)) /\
    ioreg s' (REG_TABLE + 2 * i + 1) = (if i =? irq then Z.shiftl cpunum 24 else ioreg s (REG_TABLE + 2 * i + 1)).
Proof.
  intros Hq Hc Hr i Hi. rewrite !Hr.
  destruct (Z.eqb_spec i irq) as [Ei|Hne], (Z.eqb_spec (REG_TABLE + 2 * i) (REG_TABLE + 2 * irq + 1)),
    (Z.eqb_spec (REG_TABLE + 2 * i) (REG_TABLE + 2 * irq)), (Z.eqb_spec (REG_TABLE + 2 * i + 1) (REG_TABLE + 2 * irq + 1)),
    (Z.eqb_spec (REG_TABLE + 2 * i + 1) (REG_TABLE + 2 * irq)); try lia; done.
Qed.

Lemma ioapic_enable_spec irq cpunum s :
  0 <= irq <= ioapic_last -> 0 <= cpunum < 256 ->
  wp (__am_ioapic_enable irq cpunum) s (fun _ s' => mc_mem s' = mc_mem s /\ forall i, 0 <= i ->
    ioreg s' (REG_TABLE + 2 * i) = (if i =? irq then T_IRQ0 + irq else ioreg s (REG_TABLE + 2 * i)) /\
    ioreg s' (REG_TABLE + 2 * i + 1) = (if i =? irq then Z.shiftl cpunum 24 else ioreg s (REG_TABLE + 2 * i + 1))).
Proof.
  intros Hq Hc. pose proof ioapic_last_range. unfold __am_ioapic_enable.
  apply wp_bind, ioapicwrite_spec; [lia|unfold T_IRQ0; lia|]. intros s1 Hm1 Hr1.
  apply ioapicwrite_spec; [lia|rewrite Z.shiftl_mul_pow2; lia|]. intros s2 Hm2 Hr2. split; [congruence|].
  apply (entry_enabled s s2 irq cpunum); [lia|done|]. intros r. by rewrite Hr2, Hr1.
Qed.

Lemma masked_entry i : 0 <= i < 0x70 ->
  Z.testbit (Z.lor INT_DISABLED (T_IRQ0 + i)) 16 = true /\ Z.lor INT_DISABLED (T_IRQ0 + i) mod 256 = T_IRQ0 + i /\
  Z.testbit (T_IRQ0 + i) 16 = false /\ (T_IRQ0 + i) mod 256 = T_IRQ0 + i.
Proof.
  intros Hi. unfold INT_DISABLED, T_IRQ0. rewrite Z.lor_spec. split; [done|].
  change 0x10000 with (Z.shiftl 1 16). rewrite lor_add by lia. split; [change (2 ^ 16) with 65536; zdm|].
  split; [apply (high_bits _ 16); lia|apply Z.mod_small; lia].
Qed.

(** Every interrupt is masked, with its vector. *)
Definition all_masked s : Prop := forall i, 0 <= i <= ioapic_last ->
  ioreg s (REG_TABLE + 2 * i) = Z.lor INT_DISABLED (T_IRQ0 + i) /\ ioreg s (REG_TABLE + 2 * i + 1) = 0.

(** Only the keyboard and the serial line interrupt, and they interrupt processor 0. *)
Definition irqs_ready s : Prop := forall i, 0 <= i <= ioapic_last ->
  int_vector s i = T_IRQ0 + i /\ int_cpu s i = 0 /\ int_masked s i = negb ((i =? IRQ_KBD) || (i =? IRQ_COM1)).

Lemma ioapic_init_spec s : wp __am_ioapic_init s (fun _ s' => mc_mem s' = mc_mem s /\ all_masked s').
Proof.
  pose proof ioapic_last_range as Hr. unfold __am_ioapic_init, ioapicread.
  apply wp_bind, wp_bind, wp_modify. change (u32 REG_VER) with REG_VER. set (s1 := mk_machine _ _).
  destruct (ioapic_select_spec (mc_dev s) REG_VER) as [Hsel Hreg]; [unfold REG_VER; lia|].
  assert (ioapic_sel (mc_dev s1) = REG_VER) as Hsel1 by exact Hsel.
  destruct (ioapic_read_spec (mc_dev s1)) as [Hv Hreg1]. pose proof (ioapic_version (mc_dev s1)) as Hver. rewrite <- Hsel1, <- Hv in Hver.
  apply wp_in32. rewrite Hver.
  eapply wp_mono; [apply ioapic_mask_all_spec; lia|]. intros [] s3 (Hm3 & _ & Hall3). rewrite Z2Nat.id in Hall3 by lia.
  split; [by rewrite Hm3|]. intros i Hi. apply Hall3. lia.
Qed.

Lemma initirq_spec s :
  4 <= ioapic_last -> all_masked s -> wp enable_irqs s (fun _ s' => mc_mem s' = mc_mem s /\ irqs_ready s').
Proof.
  intros Hlast Hall. pose proof ioapic_last_range as Hr. unfold enable_irqs.
  apply wp_bind. eapply wp_mono; [apply (ioapic_enable_spec IRQ_KBD 0); unfold IRQ_KBD; lia|]. intros [] s4 [Hm4 He4].
  eapply wp_mono; [apply (ioapic_enable_spec IRQ_COM1 0); unfold IRQ_COM1; lia|]. intros [] s5 [Hm5 He5].
  split; [by rewrite Hm5, Hm4|]. intros i Hi. destruct (Hall i Hi) as [Hlo Hhi].
  destruct (He4 i ltac:(lia)) as [Hlo4 Hhi4], (He5 i ltac:(lia)) as [Hlo5 Hhi5].
  destruct (masked_entry i ltac:(lia)) as (Hb1 & Hb2 & Hb3 & Hb4).
  unfold int_vector, int_cpu, int_masked. rewrite Hlo5, Hhi5, Hlo4, Hhi4, Hlo, Hhi.
  destruct (Z.eqb_spec i IRQ_COM1) as [->|]; [done|]. destruct (Z.eqb_spec i IRQ_KBD) as [->|]; [done|].
  by rewrite Hb1, Hb2.
Qed.

(** After the I/O APIC is set up and a processor enables its interrupts, the keyboard and the
    serial line interrupt processor 0, all other interrupts are masked, and every interrupt
    [i] has the vector [32 + i]. *)
Theorem ioapic_spec s :
  4 <= ioapic_last ->
  wp (_ ← __am_ioapic_init; enable_irqs) s (fun _ s' => mc_mem s' = mc_mem s /\ irqs_ready s').
Proof.
  intros Hlast. apply wp_bind. eapply wp_mono; [apply ioapic_init_spec|]. intros [] s1 [M1 H1].
  eapply wp_mono; [by apply initirq_spec|]. intros [] s2 [M2 H2]. split; [congruence|done].
Qed.
End IoApicSpec.

(** ** An I/O APIC with 24 interrupts *)

Definition demo_ioapic_reg (d : Z * (Z -> Z)) (r : Z) : Z := if r =? REG_VER then 0x170011 else d.2 r.

#[local] Instance demo_mmio : Mmio (Z * (Z -> Z)) := {|
  mmio_in := fun a d => (demo_ioapic_reg d d.1, d);
  mmio_out := fun a v d => if a =? IOAPIC_ADDR then (v, d.2) else (d.1, fun r => if r =? d.1 then v else d.2 r) |}.

#[local, refine] Instance demo_ioapic : IoApicDevice (Z * (Z -> Z)) := {|
  ioapic_sel := fst; ioapic_reg := demo_ioapic_reg; ioapic_last := 23 |}.
Proof.
  - lia.
  - done.
  - done.
  - done.
  - intros [sel f] v Hs r. unfold demo_ioapic_reg, REG_TABLE, REG_VER in *. simpl in *.
    destruct (Z.eqb_spec r 1), (Z.eqb_spec r sel); done || lia.
Defined.

Definition demo_apics : machine (Z * (Z -> Z)) := mk_machine (fun _ => 0) (0, fun _ : Z => 0x12345).

Lemma ioapic_spec_witness :
  wp (_ ← __am_ioapic_init; enable_irqs) demo_apics (fun _ s' => mc_mem s' = mc_mem demo_apics /\ irqs_ready s').
Proof. apply (ioapic_spec demo_apics). simpl. lia. Defined.
