(* ===== verification/SpinLock.v ===== *)
(** * Spin locks under concurrency: kernel/src/pmm.c, lines 8-26

    Kernel.v runs [lock] and [unlock] on one processor at a time. Here any number of
    processors take steps in any order; a step is one access to the lock word, and an atomic
    exchange is one step. *)

From stdpp Require Import prelude.
From S2P Require Import Prelude Mem Kernel.

(** Where a processor is: outside, in the loop of [lock], at its assertion, in the critical
    section, or halted by the assertion. *)
Inductive lock_pc : Type := Outside | Spinning | Asserting | Critical | Halted.

#[export] Instance lock_pc_eq_dec : EqDecision lock_pc.
Proof. solve_decision. Defined.

(** The lock word, and a place for each processor. *)
Record lock_state : Type := mk_lock_state { lk_word : Z; lk_pcs : list lock_pc }.

Definition at_pc (s : lock_state) (i : nat) (pc : lock_pc) : Prop := lk_pcs s !! i = Some pc.

Definition go (s : lock_state) (i : nat) (pc : lock_pc) (word : Z) : lock_state :=
  mk_lock_state word (<[i := pc]> (lk_pcs s)).

(** The step of processor [i]: it calls [lock], exchanges the word, runs the assertion, or
    calls [unlock]. *)
Inductive lock_step (i : nat) : lock_state -> lock_state -> Prop :=
| step_call s : at_pc s i Outside -> lock_step i s (go s i Spinning (lk_word s))
| step_xchg_spin s : at_pc s i Spinning -> lk_word s <> 0 -> lock_step i s (go s i Spinning NOPE)
| step_xchg_exit s : at_pc s i Spinning -> lk_word s = 0 -> lock_step i s (go s i Asserting NOPE)
| step_assert_ok s : at_pc s i Asserting -> lk_word s = NOPE -> lock_step i s (go s i Critical (lk_word s))
| step_assert_fail s : at_pc s i Asserting -> lk_word s <> NOPE -> lock_step i s (go s i Halted (lk_word s))
| step_unlock s : at_pc s i Critical -> lock_step i s (go s i Outside YES).

Definition lock_steps : lock_state -> lock_state -> Prop := rtc (fun s s' => exists i, lock_step i s s').

(** [lockinit]: the lock is free and nobody uses it. *)
Definition lock_init (n : nat) : lock_state := mk_lock_state YES (replicate n Outside).

(** A processor that holds the lock, and one that does not. *)
Definition holds (pc : lock_pc) : Prop := pc = Asserting \/ pc = Critical.
Definition quiet (pc : lock_pc) : Prop := pc = Outside \/ pc = Spinning.

(** The lock is free and nobody holds it, or it is taken and exactly one processor does. *)
Definition lock_inv (s : lock_state) : Prop :=
  (lk_word s = YES /\ forall j pc, at_pc s j pc -> quiet pc) \/
  (lk_word s = NOPE /\ exists i pc, at_pc s i pc /\ holds pc /\ forall j pc', j <> i -> at_pc s j pc' -> quiet pc').

Lemma at_go_eq s i pc0 pc w : at_pc s i pc0 -> at_pc (go s i pc w) i pc.
Proof. unfold at_pc, go. simpl. intros Hi. apply list_lookup_insert_eq. by eapply lookup_lt_Some. Qed.

Lemma at_go_ne s i j pc w pc' : j <> i -> at_pc (go s i pc w) j pc' <-> at_pc s j pc'.
Proof. intros Hne. unfold at_pc, go. simpl. by rewrite list_lookup_insert_ne by done. Qed.

Lemma at_go_inv s i pc0 pc w j pc' :
  at_pc s i pc0 -> at_pc (go s i pc w) j pc' -> (j = i /\ pc' = pc) \/ (j <> i /\ at_pc s j pc').
Proof.
  intros Hi Hj. destruct (decide (j = i)) as [->|Hne]; [|right; by rewrite at_go_ne in Hj].
  left. pose proof (at_go_eq s i pc0 pc w Hi) as Hp. unfold at_pc in *. naive_solver.
Qed.

Lemma at_pc_eq s i pc pc' : at_pc s i pc -> at_pc s i pc' -> pc = pc'.
Proof. unfold at_pc. naive_solver. Qed.

Lemma lock_inv_init n : lock_inv (lock_init n).
Proof. left. split; [done|]. intros j pc Hj. apply lookup_replicate in Hj as [-> _]. by left. Qed.

(** A step of a quiet processor that leaves it quiet and the word as it is. *)
Lemma lock_inv_quiet s i pc0 pc :
  lock_inv s -> at_pc s i pc0 -> quiet pc0 -> quiet pc -> lock_inv (go s i pc (lk_word s)).
Proof.
  intros [[Hw Hq]|(Hw & k & pk & Hk & Hh & Hq)] Hi H0 Hp.
  - left. split; [done|]. intros j pc' [[-> ->]|[? Hj]]%(at_go_inv _ _ pc0); [done|by eapply Hq|done].
  - right. split; [done|]. exists k, pk. destruct (decide (k = i)) as [->|Hne].
    { rewrite (at_pc_eq _ _ _ _ Hi Hk) in H0. by destruct Hh as [-> | ->], H0. }
    split; [by apply at_go_ne|]. split; [done|]. intros j pc' Hj [[-> ->]|[? Hj']]%(at_go_inv _ _ pc0); [done|by eapply Hq|done].
Qed.

(** A processor at the assertion or in the critical section is the one that holds the lock. *)
Lemma lock_inv_holder s i pc :
  lock_inv s -> at_pc s i pc -> holds pc -> lk_word s = NOPE /\ forall j pc', j <> i -> at_pc s j pc' -> quiet pc'.
Proof.
  intros [[Hw Hq]|(Hw & k & pk & Hk & Hh & Hq)] Hi Hp.
  - apply Hq in Hi. by destruct Hp as [-> | ->], Hi.
  - destruct (decide (i = k)) as [->|Hne]; [done|]. apply Hq in Hi; [|done]. by destruct Hp as [-> | ->], Hi.
Qed.

Lemma lock_inv_step i s s' : lock_inv s -> lock_step i s s' -> lock_inv s'.
Proof.
  intros Hinv Hstep. revert Hinv. destruct Hstep as [s0 Hi|s0 Hi Hne|s0 Hi Hz|s0 Hi Ha|s0 Hi Ha|s0 Hi]; intros Hinv.
  - apply (lock_inv_quiet _ _ Outside); [done|done|by left|by right].
  - assert (lk_word s0 = NOPE) as <-. { destruct Hinv as [[Hw _]|[Hw _]]; [by rewrite Hw in Hne|done]. }
    apply (lock_inv_quiet _ _ Spinning); [done|done|by right|by right].
  - destruct Hinv as [[_ Hq]|[Hw _]]; [|by rewrite Hw in Hz]. right. split; [done|]. exists i, Asserting.
    split; [by eapply at_go_eq|]. split; [by left|]. intros j pc' Hj Hj'. apply at_go_ne in Hj'; [|done]. by eapply Hq.
  - destruct (lock_inv_holder _ _ _ Hinv Hi) as [Hw Hq]; [by left|]. right. split; [done|]. exists i, Critical.
    split; [by eapply at_go_eq|]. split; [by right|]. intros j pc' Hj Hj'. apply at_go_ne in Hj'; [|done]. by eapply Hq.
  - destruct (lock_inv_holder _ _ _ Hinv Hi) as [Hw _]; [by left|done].
  - destruct (lock_inv_holder _ _ _ Hinv Hi) as [_ Hq]; [by right|]. left. split; [done|].
    intros j pc' [[-> ->]|[? Hj]]%(at_go_inv _ _ Critical); [by left|by eapply Hq|done].
Qed.

Lemma lock_inv_reachable n s : lock_steps (lock_init n) s -> lock_inv s.
Proof.
  intros Hs. pose proof (lock_inv_init n) as Hinv. induction Hs as [|s1 s2 s3 [i Hstep] _ IH]; [done|].
  apply IH. by eapply lock_inv_step.
Qed.

(** C21: mutual exclusion. In every state any number of processors can reach from a fresh
    lock, at most one is inside its critical section, and the assertion of [lock] has never
    failed on any of them. *)
Theorem lock_mutual_exclusion n s :
  lock_steps (lock_init n) s ->
  (forall i j, at_pc s i Critical -> at_pc s j Critical -> i = j) /\ (forall i, ~ at_pc s i Halted).
Proof.
  intros Hinv%lock_inv_reachable. split.
  - intros i j Hi Hj. destruct (lock_inv_holder _ _ _ Hinv Hi) as [_ Hq]; [by right|].
    destruct (decide (i = j)) as [|Hne]; [done|]. destruct (Hq j Critical) as [|]; done.
  - intros i Hi. destruct Hinv as [[_ Hq]|(_ & k & pk & Hk & Hh & Hq)].
    + by destruct (Hq _ _ Hi).
    + destruct (decide (i = k)) as [->|Hne]; [|by destruct (Hq _ _ Hne Hi)].
      rewrite (at_pc_eq _ _ _ _ Hk Hi) in Hh. by destruct Hh.
Qed.

(** Steps of one processor. *)
Lemma lock_steps_one i s s' s'' : lock_step i s s' -> lock_steps s' s'' -> lock_steps s s''.
Proof. intros H1 H2. eapply rtc_l; [by exists i|done]. Qed.

(** A free lock can be taken. *)
Lemma lock_takes s i : at_pc s i Spinning -> lk_word s = YES ->
  exists s', lock_steps s s' /\ at_pc s' i Critical.
Proof.
  intros Hi Hw. set (s1 := go s i Asserting NOPE). assert (at_pc s1 i Asserting) as H1 by (by eapply at_go_eq).
  exists (go s1 i Critical NOPE). split; [|by eapply at_go_eq].
  eapply lock_steps_one; [by apply step_xchg_exit|]. eapply lock_steps_one; [by apply (step_assert_ok i s1)|done].
Qed.

(** C22: no deadlock. From every reachable state in which a processor waits for the lock there
    are steps after which it has it: the holder, if there is one, can always leave. *)
Theorem lock_available n s i :
  lock_steps (lock_init n) s -> at_pc s i Spinning -> exists s', lock_steps s s' /\ at_pc s' i Critical.
Proof.
  intros [[Hw _]|(Hw & k & pk & Hk & Hh & _)]%lock_inv_reachable Hi; [by apply lock_takes|].
  assert (k <> i) as Hne. { intros ->. rewrite (at_pc_eq _ _ _ _ Hk Hi) in Hh. by destruct Hh. }
  assert (exists s1, lock_steps s s1 /\ at_pc s1 i Spinning /\ at_pc s1 k Critical) as (s1 & Hs1 & Hi1 & Hk1).
  { destruct Hh as [-> | ->]; [|by exists s]. exists (go s k Critical (lk_word s)). split; [|split].
    - eapply lock_steps_one; [by apply step_assert_ok|done].
    - by apply at_go_ne.
    - by eapply at_go_eq. }
  set (s2 := go s1 k Outside YES). destruct (lock_takes s2 i) as (s3 & Hs3 & Hi3); [by apply at_go_ne|done|].
  exists s3. split; [|done]. etrans; [exact Hs1|]. eapply lock_steps_one; [by apply step_unlock|done].
Qed.

(** ** Two processors *)

Definition demo_waiting : lock_state := mk_lock_state NOPE [Critical; Spinning].

Lemma demo_waiting_reachable : lock_steps (lock_init 2) demo_waiting.
Proof.
  eapply lock_steps_one; [by apply (step_call 0)|]. eapply lock_steps_one; [by apply (step_xchg_exit 0)|].
  eapply lock_steps_one; [by apply (step_assert_ok 0)|]. eapply lock_steps_one; [by apply (step_call 1)|]. done.
Qed.

Lemma lock_mutual_exclusion_witness :
  (forall i j, at_pc demo_waiting i Critical -> at_pc demo_waiting j Critical -> i = j) /\
  (forall i, ~ at_pc demo_waiting i Halted).
Proof. exact (lock_mutual_exclusion 2 demo_waiting demo_waiting_reachable). Defined.

Lemma lock_available_witness : exists s', lock_steps demo_waiting s' /\ at_pc s' 1 Critical.
Proof. exact (lock_available 2 demo_waiting 1 demo_waiting_reachable eq_refl). Defined.
