(* ===== verification/MpStart.v ===== *)
(** * Starting the other processors: am/src/x86/qemu/mpe.c, lines 3-34

    Processor 0 runs [mpe_init]; the others, started one after the other, run
    [othercpu_entry]. They meet at [ap_ready], which both sides access by atomic exchanges
    only, so a step is one exchange or the code between two of them. *)

From stdpp Require Import prelude.
From S2P Require Import Prelude Mem.

(** Where processor 0 is: at the head of the loop for [cpu], about to start it, waiting for
    it, or in the user's entry function. *)
Inductive bsp_pc : Type := BspLoop (cpu : nat) | BspStart (cpu : nat) | BspWait (cpu : nat) | BspUser.

(** Another processor: not running, initialising itself, about to report, or in the user's
    entry function. *)
Inductive ap_pc : Type := ApOff | ApInit | ApReport | ApUser.

#[export] Instance ap_pc_eq_dec : EqDecision ap_pc.
Proof. solve_decision. Defined.

(** [ap_ready], the [is_ap] of the boot record, and the processors. *)
Record mp_state : Type := mk_mp { ap_ready : Z; is_ap : Z; mp_bsp : bsp_pc; mp_aps : nat -> ap_pc }.

Definition set_ap (f : nat -> ap_pc) (i : nat) (pc : ap_pc) : nat -> ap_pc :=
  fun j => if decide (j = i) then pc else f j.

Section Start.
Context (ncpu : nat).

(** The interrupt of [__am_lapic_bootap] starts the processor it is sent to if that is not
    running; it then runs the boot code, which jumps to [othercpu_entry] as [is_ap] is set. *)
Definition started (s : mp_state) (i : nat) : nat -> ap_pc :=
  if decide (mp_aps s i = ApOff /\ is_ap s = 1) then set_ap (mp_aps s) i ApInit else mp_aps s.

Inductive mp_step : mp_state -> mp_state -> Prop :=
| bsp_loop s cpu : mp_bsp s = BspLoop cpu -> (cpu < ncpu)%nat ->
    mp_step s (mk_mp (ap_ready s) 1 (BspStart cpu) (mp_aps s))
| bsp_bootap s cpu : mp_bsp s = BspStart cpu ->
    mp_step s (mk_mp (ap_ready s) (is_ap s) (BspWait cpu) (started s cpu))
| bsp_spin s cpu : mp_bsp s = BspWait cpu -> ap_ready s <> 1 ->
    mp_step s (mk_mp 0 (is_ap s) (BspWait cpu) (mp_aps s))
| bsp_next s cpu : mp_bsp s = BspWait cpu -> ap_ready s = 1 ->
    mp_step s (mk_mp 0 (is_ap s) (BspLoop (cpu + 1)) (mp_aps s))
| bsp_user s cpu : mp_bsp s = BspLoop cpu -> (ncpu <= cpu)%nat ->
    mp_step s (mk_mp (ap_ready s) (is_ap s) BspUser (mp_aps s))
| ap_percpu_init s i : mp_aps s i = ApInit ->
    mp_step s (mk_mp (ap_ready s) (is_ap s) (mp_bsp s) (set_ap (mp_aps s) i ApReport))
| ap_report s i : mp_aps s i = ApReport ->
    mp_step s (mk_mp 1 (is_ap s) (mp_bsp s) (set_ap (mp_aps s) i ApUser)).

Definition mp_steps : mp_state -> mp_state -> Prop := rtc mp_step.

(** At the call of [mpe_init]. *)
Definition mp_init : mp_state := mk_mp 0 0 (BspLoop 1) (fun _ => ApOff).

Definition starting (pc : ap_pc) : Prop := pc = ApInit \/ pc = ApReport.

(** Processors below [cpu] are in user code, those above and not below [n] are off. *)
Definition up_to (f : nat -> ap_pc) (cpu n : nat) : Prop :=
  (forall i, (1 <= i < cpu)%nat -> f i = ApUser) /\ (forall i, (n <= i)%nat -> f i = ApOff) /\ f 0%nat = ApOff.

Definition mp_inv (s : mp_state) : Prop :=
  match mp_bsp s with
  | BspLoop cpu => (1 <= cpu)%nat /\ (cpu <= Nat.max 1 ncpu)%nat /\ ap_ready s = 0 /\ up_to (mp_aps s) cpu cpu
  | BspStart cpu => (1 <= cpu < ncpu)%nat /\ is_ap s = 1 /\ ap_ready s = 0 /\ up_to (mp_aps s) cpu cpu
  | BspWait cpu => (1 <= cpu < ncpu)%nat /\ up_to (mp_aps s) cpu (cpu + 1) /\
      ((ap_ready s = 0 /\ starting (mp_aps s cpu)) \/ (ap_ready s = 1 /\ mp_aps s cpu = ApUser))
  | BspUser => up_to (mp_aps s) (Nat.max 1 ncpu) (Nat.max 1 ncpu)
  end.

Lemma set_ap_eq f i pc : set_ap f i pc i = pc.
Proof. unfold set_ap. by destruct (decide (i = i)). Qed.

Lemma set_ap_ne f i j pc : j <> i -> set_ap f i pc j = f j.
Proof. unfold set_ap. intros. by destruct (decide (j = i)). Qed.

Lemma up_to_set f cpu pc : (1 <= cpu)%nat -> up_to f cpu (cpu + 1) -> up_to (set_ap f cpu pc) cpu (cpu + 1).
Proof.
  intros Hc (Hlo & Hhi & H0). split; [|split].
  - intros i Hi. rewrite set_ap_ne by lia. by apply Hlo.
  - intros i Hi. rewrite set_ap_ne by lia. by apply Hhi.
  - by rewrite set_ap_ne by lia.
Qed.

(** Only the processor that processor 0 waits for can be starting. *)
Lemma starting_is_awaited s i : mp_inv s -> starting (mp_aps s i) -> mp_bsp s = BspWait i.
Proof.
  unfold mp_inv. intros Hinv Hi. destruct (mp_bsp s) as [cpu|cpu|cpu|].
  1,2: exfalso; destruct Hinv as (? & ? & ? & Hlo & Hhi & H0).
  3: destruct Hinv as (Hc & (Hlo & Hhi & H0) & _); destruct (decide (i = cpu)) as [->|]; [done|exfalso].
  4: exfalso; destruct Hinv as (Hlo & Hhi & H0).
  all: destruct (decide (i = 0%nat)) as [->|]; [rewrite H0 in Hi; by destruct Hi|].
  1,2: destruct (decide (i < cpu)%nat); [rewrite Hlo in Hi by lia|rewrite Hhi in Hi by lia]; by destruct Hi.
  - destruct (decide (i < cpu)%nat); [rewrite Hlo in Hi by lia|rewrite Hhi in Hi by lia]; by destruct Hi.
  - destruct (decide (i < Nat.max 1 ncpu)%nat); [rewrite Hlo in Hi by lia|rewrite Hhi in Hi by lia]; by destruct Hi.
Qed.

Lemma mp_inv_step s s' : mp_inv s -> mp_step s s' -> mp_inv s'.
Proof.
  intros Hinv Hstep. revert Hinv.
  destruct Hstep as [s cpu Hb Hlt|s cpu Hb|s cpu Hb Hne|s cpu Hb Hr|s cpu Hb Hge|s i Hi|s i Hi]; intros Hinv.
  1-5: unfold mp_inv in Hinv |- *; rewrite Hb in Hinv; cbn [mp_bsp ap_ready is_ap mp_aps].
  - destruct Hinv as (H1 & _ & Hr & Hup). split; [lia|done].
  - destruct Hinv as (Hc & Hap & Hr & Hlo & Hhi & H0). split; [done|]. unfold started.
    assert (mp_aps s cpu = ApOff) as Hoff by (by apply Hhi). destruct (decide _) as [_|[]]; [|done].
    split; [apply up_to_set; [lia|]; split; [done|split; [intros; apply Hhi; lia|done]]|].
    left. split; [done|]. rewrite set_ap_eq. by left.
  - destruct Hinv as (Hc & Hup & [[_ Hst]|[Hr _]]); [|done]. split; [done|]. split; [done|]. by left.
  - destruct Hinv as (Hc & (Hlo & Hhi & H0) & [[Hz _]|[_ Hu]]); [congruence|]. split; [lia|]. split; [lia|]. split; [done|].
    split; [|done]. intros i Hi. destruct (decide (i = cpu)) as [->|]; [done|apply Hlo; lia].
  - destruct Hinv as (H1 & Hle & _ & Hup). by replace (Nat.max 1 ncpu) with cpu by lia.
  - assert (mp_bsp s = BspWait i) as Hb by (apply starting_is_awaited; [done|by left]).
    unfold mp_inv in Hinv |- *. rewrite Hb in Hinv. cbn [mp_bsp ap_ready is_ap mp_aps]. rewrite Hb.
    destruct Hinv as (Hc & Hup & Hor). split; [done|]. split; [apply up_to_set; [lia|done]|]. left. rewrite set_ap_eq.
    split; [|by right]. destruct Hor as [[Hz _]|[_ Hu]]; [done|congruence].
  - assert (mp_bsp s = BspWait i) as Hb by (apply starting_is_awaited; [done|by right]).
    unfold mp_inv in Hinv |- *. rewrite Hb in Hinv. cbn [mp_bsp ap_ready is_ap mp_aps]. rewrite Hb.
    destruct Hinv as (Hc & Hup & Hor). split; [done|]. split; [apply up_to_set; [lia|done]|]. right. by rewrite set_ap_eq.
Qed.

Lemma mp_inv_init : mp_inv mp_init.
Proof. split; [done|]. split; [simpl; lia|]. split; [done|]. split; [lia|]. split; done. Qed.

Lemma mp_inv_reachable s : mp_steps mp_init s -> mp_inv s.
Proof.
  intros Hs. pose proof mp_inv_init as Hinv. induction Hs as [|s1 s2 s3 Hstep _ IH]; [done|].
  apply IH. by eapply mp_inv_step.
Qed.

(** C23: processors start one at a time and in order: at most one is between its start and its
    report, when one runs user code all those before it do, and processor 0 enters user code
    only when all others have. *)
Theorem mpe_start_order s :
  mp_steps mp_init s ->
  (forall i j, starting (mp_aps s i) -> starting (mp_aps s j) -> i = j) /\
  (forall i j, (1 <= i < j)%nat -> mp_aps s j <> ApOff -> mp_aps s i = ApUser) /\
  (mp_bsp s = BspUser -> forall i, (1 <= i < ncpu)%nat -> mp_aps s i = ApUser).
Proof.
  intros Hinv%mp_inv_reachable. split; [|split].
  - intros i j Hi%starting_is_awaited Hj%starting_is_awaited; [congruence|done..].
  - intros i j Hij Hj. unfold mp_inv in Hinv. destruct (mp_bsp s) as [cpu|cpu|cpu|].
    + destruct Hinv as (_ & _ & _ & Hlo & Hhi & _). apply Hlo. destruct (decide (cpu <= j)%nat); [by destruct Hj; apply Hhi|lia].
    + destruct Hinv as (_ & _ & _ & Hlo & Hhi & _). apply Hlo. destruct (decide (cpu <= j)%nat); [by destruct Hj; apply Hhi|lia].
    + destruct Hinv as (_ & (Hlo & Hhi & _) & _). apply Hlo. destruct (decide (cpu + 1 <= j)%nat); [by destruct Hj; apply Hhi|lia].
    + destruct Hinv as (Hlo & Hhi & _). apply Hlo. destruct (decide (Nat.max 1 ncpu <= j)%nat); [by destruct Hj; apply Hhi|lia].
  - intros Hb i Hi. unfold mp_inv in Hinv. rewrite Hb in Hinv. apply Hinv. lia.
Qed.

(** ** Progress *)

Lemma mp_inv_steps s s' : mp_inv s -> mp_steps s s' -> mp_inv s'.
Proof. intros Hinv Hs. induction Hs as [|s1 s2 s3 Hstep _ IH]; [done|]. apply IH. by eapply mp_inv_step. Qed.

Lemma report_leaves s cpu :
  mp_bsp s = BspWait cpu -> mp_aps s cpu = ApReport -> exists s', mp_steps s s' /\ mp_bsp s' = BspLoop (cpu + 1).
Proof.
  intros Hb Ha. pose proof (ap_report s cpu Ha) as S1. set (s1 := mk_mp _ _ _ _) in S1.
  pose proof (bsp_next s1 cpu Hb eq_refl) as S2. eexists. split; [eapply rtc_l; [exact S1|by apply rtc_once]|done].
Qed.

Lemma wait_leaves s cpu : mp_inv s -> mp_bsp s = BspWait cpu -> exists s', mp_steps s s' /\ mp_bsp s' = BspLoop (cpu + 1).
Proof.
  intros Hinv Hb. unfold mp_inv in Hinv. rewrite Hb in Hinv. destruct Hinv as (_ & _ & [[_ [Hi|Hr]]|[Hready _]]).
  - pose proof (ap_percpu_init s cpu Hi) as S1. set (s1 := mk_mp _ _ _ _) in S1.
    destruct (report_leaves s1 cpu Hb (set_ap_eq _ _ _)) as (s2 & Hs2 & Hb2). exists s2. split; [by eapply rtc_l|done].
  - by apply report_leaves.
  - pose proof (bsp_next s cpu Hb Hready) as S1. eexists. split; [by apply rtc_once|done].
Qed.

Lemma start_leaves s cpu : mp_inv s -> mp_bsp s = BspStart cpu -> exists s', mp_steps s s' /\ mp_bsp s' = BspLoop (cpu + 1).
Proof.
  intros Hinv Hb. pose proof (bsp_bootap s cpu Hb) as S1. pose proof (mp_inv_step _ _ Hinv S1) as Hinv1.
  destruct (wait_leaves _ cpu Hinv1 eq_refl) as (s2 & Hs2 & Hb2). exists s2. split; [by eapply rtc_l|done].
Qed.

Lemma loop_finishes k s cpu :
  mp_inv s -> mp_bsp s = BspLoop cpu -> (ncpu - cpu <= k)%nat -> exists s', mp_steps s s' /\ mp_bsp s' = BspUser.
Proof.
  revert s cpu. induction k as [|k IH]; intros s cpu Hinv Hb Hk; destruct (decide (ncpu <= cpu)%nat) as [Hge|Hlt]; try lia.
  1,2: eexists; split; [apply rtc_once, (bsp_user s cpu); done|done].
  pose proof (bsp_loop s cpu Hb ltac:(lia)) as S1. pose proof (mp_inv_step _ _ Hinv S1) as Hinv1.
  destruct (start_leaves _ cpu Hinv1 eq_refl) as (s2 & Hs2 & Hb2).
  destruct (IH s2 (cpu + 1)%nat) as (s3 & Hs3 & Hb3); [by eapply mp_inv_steps|done|lia|].
  exists s3. split; [|done]. eapply rtc_l; [exact S1|]. by etrans.
Qed.

(** The start cannot get stuck: from every state it can reach there are steps to one in
    which all processors run user code. *)
Theorem mpe_all_start s :
  mp_steps mp_init s ->
  exists s', mp_steps s s' /\ mp_bsp s' = BspUser /\ forall i, (1 <= i < ncpu)%nat -> mp_aps s' i = ApUser.
Proof.
  intros Hinv%mp_inv_reachable.
  assert (exists s', mp_steps s s' /\ mp_bsp s' = BspUser) as (s' & Hs' & Hb').
  { assert (forall cpu, (exists s1, mp_steps s s1 /\ mp_bsp s1 = BspLoop cpu) -> exists s', mp_steps s s' /\ mp_bsp s' = BspUser) as Hloop.
    { intros cpu (s1 & Hs1 & Hb1). destruct (loop_finishes _ s1 cpu (mp_inv_steps _ _ Hinv Hs1) Hb1 (Nat.le_refl _)) as (s2 & Hs2 & Hb2).
      exists s2. split; [by etrans|done]. }
    destruct (mp_bsp s) as [cpu|cpu|cpu|] eqn:Hb.
    - apply (Hloop cpu). by exists s.
    - by eapply Hloop, start_leaves.
    - by eapply Hloop, wait_leaves.
    - by exists s. }
  exists s'. split; [done|]. split; [done|]. pose proof (mp_inv_steps _ _ Hinv Hs') as Hinv'.
  unfold mp_inv in Hinv'. rewrite Hb' in Hinv'. intros i Hi. apply Hinv'. lia.
Qed.
End Start.

(** ** Two processors, one of them initialising *)

Definition demo_starting : mp_state := mk_mp 0 1 (BspWait 1) (started (mk_mp 0 1 (BspStart 1) (fun _ => ApOff)) 1).

Lemma demo_starting_reachable : mp_steps 2 mp_init demo_starting.
Proof.
  eapply rtc_l; [apply (bsp_loop 2 mp_init 1); [done|lia]|]. apply rtc_once. by apply (bsp_bootap 2 (mk_mp 0 1 (BspStart 1) (fun _ => ApOff)) 1).
Qed.

Lemma mpe_start_order_witness :
  (forall i j, starting (mp_aps demo_starting i) -> starting (mp_aps demo_starting j) -> i = j) /\
  (forall i j, (1 <= i < j)%nat -> mp_aps demo_starting j <> ApOff -> mp_aps demo_starting i = ApUser) /\
  (mp_bsp demo_starting = BspUser -> forall i, (1 <= i < 2)%nat -> mp_aps demo_starting i = ApUser).
Proof. exact (mpe_start_order 2 demo_starting demo_starting_reachable). Defined.

Lemma mpe_all_start_witness :
  exists s', mp_steps 2 demo_starting s' /\ mp_bsp s' = BspUser /\ forall i, (1 <= i < 2)%nat -> mp_aps s' i = ApUser.
Proof. exact (mpe_all_start 2 demo_starting demo_starting_reachable). Defined.
