(* ===== verification/NatInput.v ===== *)
(** * The keyboard queue of the native port: am/src/native/ioe/input.c

    The event thread puts key codes into a ring of 1024 elements, [__am_input_keybrd] takes
    them out; both do so under a mutex, so an operation is one step. The table that translates
    scan codes is a parameter, since its indices are constants of the library that delivers the
    events. Not modelled: the signal that follows each event ([__am_send_kbd_intr]). *)

From stdpp Require Import prelude.
From S2P Require Import Prelude.

Definition KEYDOWN_MASK : Z := 0x8000.
Definition KEY_QUEUE_LEN : Z := 1024.

Record key_state : Type := mk_keys { key_queue : list Z; key_f : Z; key_r : Z }.

Definition key_init : key_state := mk_keys (replicate 1024 0) 0 0.

(** Lines 25-35. [keymap] is the table of 256 elements whose indices are the scan codes of
    the library that delivers the events; [None] is an access outside of it, for a scan code
    from 256 up. *)
Definition event_key (keymap : list Z) (scancode : Z) (keydown : bool) (s : key_state) : option key_state :=
  if scancode <? 0 then None else
  match keymap !! Z.to_nat scancode with
  | None => None
  | Some k =>
      if negb (k =? 0) then
        let am_code := Z.lor k (if keydown then KEYDOWN_MASK else 0) in
        Some (mk_keys (<[Z.to_nat (key_r s) := am_code]> (key_queue s)) (key_f s) (Z.rem (key_r s + 1) KEY_QUEUE_LEN))
      else Some s
  end.

(** Lines 51-63: [keydown] and [keycode]. *)
Definition __am_input_keybrd (s : key_state) : (bool * Z) * key_state :=
  let '(k, s') :=
    if negb (key_f s =? key_r s) then
      (default 0 (key_queue s !! Z.to_nat (key_f s)), mk_keys (key_queue s) (Z.rem (key_f s + 1) KEY_QUEUE_LEN) (key_r s))
    else (0, s) in
  ((negb (Z.land k KEYDOWN_MASK =? 0), Z.land k (Z.lnot KEYDOWN_MASK)), s').

(** ** The queue it implements *)

(** An event: a key and whether it went down. *)
Definition key_event : Type := Z * bool.

Definition code_of (e : key_event) : Z := Z.lor e.1 (if e.2 then KEYDOWN_MASK else 0).

(** Keys have numbers below the flag. *)
Definition is_key (e : key_event) : Prop := 0 < e.1 < KEYDOWN_MASK.

(** The ring holds the events [q], the oldest at [key_f]. *)
Record ring (s : key_state) (q : list key_event) : Prop := {
  ring_len : length (key_queue s) = 1024%nat;
  ring_f : 0 <= key_f s < 1024;
  ring_r : key_r s = (key_f s + Z.of_nat (length q)) mod 1024;
  ring_few : (length q < 1024)%nat;
  ring_elem : forall i e, q !! i = Some e -> key_queue s !! Z.to_nat ((key_f s + Z.of_nat i) mod 1024) = Some (code_of e);
}.

Lemma ring_init : ring key_init [].
Proof. split; simpl; [reflexivity|lia|done|lia|done]. Qed.

Lemma code_flag e : is_key e -> Z.land (code_of e) KEYDOWN_MASK = (if e.2 then KEYDOWN_MASK else 0) /\
  Z.land (code_of e) (Z.lnot KEYDOWN_MASK) = e.1.
Proof.
  unfold is_key, code_of, KEYDOWN_MASK. destruct e as [k d]. cbn [fst snd]. intros Hk.
  assert (Z.land k 0x8000 = 0) as Hbit.
  { apply Z.bits_inj'. intros i Hi. rewrite Z.land_spec, Z.bits_0. change 0x8000 with (2 ^ 15). rewrite Z.pow2_bits_eqb by lia.
    destruct (Z.eqb_spec 15 i) as [<-|]; [|apply andb_false_r]. by rewrite (high_bits k 15 15) by lia. }
  rewrite !Z.land_lor_distr_l, Hbit. assert (Z.land k (Z.lnot 0x8000) = k) as ->.
  { rewrite <- Z.ldiff_land. apply Z.bits_inj'. intros i Hi. rewrite Z.ldiff_spec.
    assert (Z.testbit (Z.land k 0x8000) i = false) as E by (by rewrite Hbit, Z.bits_0). rewrite Z.land_spec in E.
    destruct (Z.testbit k i), (Z.testbit 0x8000 i); done. }
  destruct d; by rewrite ?Z.lor_0_r.
Qed.

Lemma rem_next x : 0 <= x -> Z.rem (x + 1) KEY_QUEUE_LEN = (x + 1) mod 1024.
Proof. intros Hx. unfold KEY_QUEUE_LEN. apply Z.rem_mod_nonneg; lia. Qed.

(** The state after a key of the table. *)
Definition stored (e : key_event) (s : key_state) : key_state :=
  mk_keys (<[Z.to_nat (key_r s) := code_of e]> (key_queue s)) (key_f s) (Z.rem (key_r s + 1) KEY_QUEUE_LEN).

Lemma ring_put s q e : ring s q -> (length q < 1023)%nat -> ring (stored e s) (q ++ [e]).
Proof.
  intros [Hl Hf Hr Hfew Hel] Hq. unfold stored.
  assert (0 <= key_r s < 1024) as Hr0 by (rewrite Hr; zdm). split; cbn [key_queue key_f key_r].
  - by rewrite length_insert.
  - done.
  - rewrite rem_next by lia. rewrite length_app, Hr. simpl. zdm.
  - rewrite length_app. simpl. lia.
  - intros i e' Hi. rewrite lookup_app in Hi. destruct (q !! i) as [e0|] eqn:Ei.
    + injection Hi as <-. pose proof (lookup_lt_Some _ _ _ Ei). rewrite list_lookup_insert_ne; [by apply Hel|]. rewrite Hr. zdm.
    + apply list_lookup_singleton_Some in Hi as [Hi <-]. apply lookup_ge_None in Ei. replace i with (length q) by lia.
      rewrite <- Hr. apply list_lookup_insert_eq. lia.
Qed.

Lemma ring_take s e q : ring s (e :: q) -> is_key e ->
  exists s', __am_input_keybrd s = ((e.2, e.1), s') /\ ring s' q.
Proof.
  intros [Hl Hf Hr Hfew Hel] Hk. unfold __am_input_keybrd. cbn [length] in *.
  destruct (Z.eqb_spec (key_f s) (key_r s)) as [E|_]; [exfalso; rewrite Hr in E; revert E; zdm|]. cbn [negb].
  pose proof (Hel 0%nat e eq_refl) as H0. rewrite Z.add_0_r, Z.mod_small in H0 by done. rewrite H0. cbn [from_option id].
  destruct (code_flag e Hk) as [-> ->]. eexists. split; [by destruct (e.2)|]. split; cbn [key_queue key_f key_r].
  - done.
  - rewrite rem_next by lia. zdm.
  - rewrite rem_next by lia. rewrite Hr. zdm.
  - lia.
  - intros i e' Hi. rewrite rem_next by lia. rewrite <- (Hel (S i) e' Hi). f_equal. f_equal. zdm.
Qed.

Lemma ring_empty s : ring s [] -> __am_input_keybrd s = ((false, 0), s).
Proof.
  intros [Hl Hf Hr _ _]. unfold __am_input_keybrd. cbn [length] in Hr. rewrite Z.add_0_r, Z.mod_small in Hr by done.
  rewrite Hr, Z.eqb_refl. done.
Qed.

(** The 1024th event that waits makes the ring look empty: all of them are lost. *)
Lemma ring_overflow s q e : ring s q -> length q = 1023%nat -> ring (stored e s) [].
Proof.
  intros [Hl Hf Hr Hfew Hel] Hq. unfold stored.
  assert (0 <= key_r s < 1024) as Hr0 by (rewrite Hr; zdm). split; cbn [key_queue key_f key_r length].
  - by rewrite length_insert.
  - done.
  - rewrite rem_next by lia. rewrite Hr, Hq. zdm.
  - lia.
  - done.
Qed.

(** ** Runs *)

(** What happens to the ring, in the order in which the mutex is taken: the library reports a
    scan code that went down or up, or the program reads. *)
Inductive key_op : Type := Stroke (scancode : Z) (down : bool) | Read.

Definition answer : Type := bool * Z.

Section Runs.
Variable keymap : list Z.
Hypothesis keymap_len : length keymap = 256%nat.
Hypothesis keymap_keys : Forall (fun k => 0 <= k < KEYDOWN_MASK) keymap.

Fixpoint run_code (s : key_state) (ops : list key_op) : option (list answer) :=
  match ops with
  | [] => Some []
  | Stroke c d :: ops => s' ← event_key keymap c d s; run_code s' ops
  | Read :: ops => let '(a, s') := __am_input_keybrd s in cons a <$> run_code s' ops
  end.

(** The queue: strokes of keys without a number are dropped, and so is everything that waits
    when it would become 1024 events. *)
Definition enqueue (c : Z) (d : bool) (q : list key_event) : list key_event :=
  let k := default 0 (keymap !! Z.to_nat c) in
  if k =? 0 then q else if Nat.ltb (length q) 1023 then q ++ [(k, d)] else [].

Fixpoint run_queue (q : list key_event) (ops : list key_op) : list answer :=
  match ops with
  | [] => []
  | Stroke c d :: ops => run_queue (enqueue c d q) ops
  | Read :: ops => match q with [] => (false, 0) :: run_queue [] ops | e :: q => (e.2, e.1) :: run_queue q ops end
  end.

Definition in_table (op : key_op) : Prop := match op with Stroke c _ => 0 <= c < 256 | Read => True end.

Lemma event_ring s q c d :
  ring s q -> Forall is_key q -> 0 <= c < 256 ->
  exists s', event_key keymap c d s = Some s' /\ ring s' (enqueue c d q) /\ Forall is_key (enqueue c d q).
Proof using keymap_len keymap_keys.
  intros Hr Hq Hc. unfold event_key, enqueue. destruct (Z.ltb_spec c 0); [lia|].
  destruct (lookup_lt_is_Some_2 keymap (Z.to_nat c)) as [k Hk]; [lia|]. rewrite Hk. cbn [from_option id].
  rewrite Forall_lookup in keymap_keys. specialize (keymap_keys _ _ Hk).
  destruct (Z.eqb_spec k 0) as [->|Hk0]; [by exists s|]. cbn [negb]. eexists. split; [reflexivity|].
  change (mk_keys _ _ _) with (stored (k, d) s). destruct (Nat.ltb_spec (length q) 1023) as [Hlt|Hge].
  - split; [by apply ring_put|]. apply Forall_app. split; [done|]. apply Forall_singleton. unfold is_key. simpl. lia.
  - split; [|constructor]. apply (ring_overflow s q); [done|]. pose proof (ring_few s q Hr). lia.
Qed.

Lemma run_refines s q ops :
  ring s q -> Forall is_key q -> Forall in_table ops -> run_code s ops = Some (run_queue q ops).
Proof using keymap_len keymap_keys.
  revert s q. induction ops as [|op ops IH]; intros s q Hr Hq Hops; [done|].
  apply Forall_cons in Hops as [Hop Hops]. destruct op as [c d|]; cbn [run_code run_queue].
  - destruct (event_ring s q c d Hr Hq Hop) as (s' & -> & Hr' & Hq'). by apply IH.
  - destruct q as [|e q].
    + rewrite (ring_empty s Hr), (IH s []) by done. done.
    + apply Forall_cons in Hq as [He Hq]. destruct (ring_take s e q Hr He) as (s' & -> & Hr').
      rewrite (IH s' q) by done. done.
Qed.

(** C33: the ring is a first-in first-out queue: whatever the order of key strokes and reads, each
    read gives the oldest event that was not read, key and direction, and [AM_KEY_NONE] when
    none waits. Strokes of keys without a number leave no event; the 1024th event that waits
    empties the queue. With scan codes below 256 no access leaves the table or the ring. *)
Theorem key_queue_fifo ops :
  Forall in_table ops -> run_code key_init ops = Some (run_queue [] ops).
Proof using keymap_len keymap_keys. intros Hops. apply run_refines; [apply ring_init|constructor|done]. Qed.

(** A scan code of 256 or more, which the library has, is read outside of the table. *)
Lemma event_outside s c d : 256 <= c -> event_key keymap c d s = None.
Proof using keymap_len.
  clear keymap_keys. intros Hc. unfold event_key. destruct (Z.ltb_spec c 0); [done|]. by rewrite lookup_ge_None_2 by lia.
Qed.
End Runs.

(** A table with key 7 at scan code 4; reads before, between and after the strokes. *)
Definition demo_keymap : list Z := <[4%nat := 7]> (replicate 256 0).
Definition demo_ops : list key_op := [Read; Stroke 4 true; Stroke 5 true; Stroke 4 false; Read; Read; Read].

Lemma key_queue_fifo_witness :
  run_code demo_keymap key_init demo_ops = Some (run_queue demo_keymap [] demo_ops) /\
  run_queue demo_keymap [] demo_ops = [(false, 0); (true, 7); (false, 7); (false, 0)].
Proof.
  split; [|vm_compute; reflexivity].
  apply (key_queue_fifo demo_keymap); [vm_compute; reflexivity| |].
  - apply (bool_decide_unpack _). vm_compute. exact I.
  - unfold demo_ops. repeat constructor; simpl; lia.
Defined.

(** 1024 strokes without a read: nothing is left to read. *)
Example key_queue_full :
  run_code demo_keymap key_init (replicate 1024 (Stroke 4 true) ++ [Read]) = Some [(false, 0)].
Proof. vm_compute. reflexivity. Qed.
