(* ===== verification/NatVme.v ===== *)
(** * Virtual memory of the native port: am/src/native/vme.c

    On Linux the page table of a process is the host's own. An address space here is a list of
    the pages that were mapped in it; [map] adds one, [__am_switch] takes the pages of the old
    space away from the host and gives it those of the new one. Modelled with the two functions
    of platform.c that call the host. This file holds the operations and their loops;
    NatSpace.v what runs of them do. *)

From stdpp Require Import prelude gmap.
From S2P Require Import Prelude Mem KStdio Cte.

(** The flags of mmap. *)
Definition PROT_READ : Z := 1.
Definition PROT_WRITE : Z := 2.
Definition PROT_EXEC : Z := 4.

(** platform.c, line 12. *)
Definition PMEM_START : Z := 0x1000000.

(** Line 5. *)
Definition USER_START : Z := 0x40000000.
Definition USER_END : Z := 0xc0000000.
Definition in_user (p : Z) : bool := (USER_START <=? p) && (p <? USER_END).

(** ** State *)

(** A node of the list, lines 7-14. *)
Record PageMap : Type := mk_pm {
  pm_va : Z; pm_pa : Z; pm_next : Z; pm_prot : Z; pm_is_mapped : bool; pm_key : list Z;
}.

(** The head of an address space, lines 16-20. The table of the host's [hsearch_r] is a finite
    map from keys to nodes with the number of entries it was created for. *)
Record VMHead : Type := mk_head { vm_list : Z; vm_hash : gmap (list Z) Z; vm_nel : Z; vm_nr_page : Z }.

(** The memory that holds nodes and heads, by address; the pages the allocator will give, in
    order; [thiscpu->vm_head]; the host's mappings of user pages: offset into the physical
    memory and protection; [vme_enable]. *)
Record nvm : Type := mk_nvm {
  nv_nodes : gmap Z PageMap;
  nv_heads : gmap Z VMHead;
  nv_pool : list Z;
  nv_cur : Z;
  nv_host : gmap Z (Z * Z);
  nv_enabled : bool;
}.

Definition upd_nodes (f : gmap Z PageMap -> gmap Z PageMap) (s : nvm) : nvm :=
  mk_nvm (f (nv_nodes s)) (nv_heads s) (nv_pool s) (nv_cur s) (nv_host s) (nv_enabled s).
Definition upd_heads (f : gmap Z VMHead -> gmap Z VMHead) (s : nvm) : nvm :=
  mk_nvm (nv_nodes s) (f (nv_heads s)) (nv_pool s) (nv_cur s) (nv_host s) (nv_enabled s).
Definition set_cur (h : Z) (s : nvm) : nvm :=
  mk_nvm (nv_nodes s) (nv_heads s) (nv_pool s) h (nv_host s) (nv_enabled s).
Definition upd_host (f : gmap Z (Z * Z) -> gmap Z (Z * Z)) (s : nvm) : nvm :=
  mk_nvm (nv_nodes s) (nv_heads s) (nv_pool s) (nv_cur s) (f (nv_host s)) (nv_enabled s).

(** The callback given to [vme_init]: the next page, or NULL when there is none. *)
Definition pgalloc : M nvm Z := fun s =>
  match nv_pool s with
  | [] => Done 0 s
  | p :: pool => Done p (mk_nvm (nv_nodes s) (nv_heads s) pool (nv_cur s) (nv_host s) (nv_enabled s))
  end.

(** Access through a pointer to a node or a head. *)
Definition node_at (p : Z) : M nvm PageMap := fun s =>
  match nv_nodes s !! p with Some n => Done n s | None => Fault NullDeref end.
Definition head_at (h : Z) : M nvm VMHead := fun s =>
  match nv_heads s !! h with Some hd => Done hd s | None => Fault NullDeref end.
Definition put_node (p : Z) (n : PageMap) : M nvm unit :=
  if p =? 0 then raise NullDeref else modify (upd_nodes (<[p := n]>)).
Definition put_head (h : Z) (hd : VMHead) : M nvm unit := modify (upd_heads (<[h := hd]>)).

Definition set_mapped (b : bool) (n : PageMap) : PageMap :=
  mk_pm (pm_va n) (pm_pa n) (pm_next n) (pm_prot n) b (pm_key n).

(** Line 94: the key of a page is its address as [%x] prints it, the low 32 bits in lower case. *)
Definition hex_digit (d : Z) : Z := if d <=? 9 then 48 + d else 87 + d.
Definition page_key (va : Z) : list Z := let n := u32 va in hex_digit <$> digits (width 16 n) 16 n.

Section NatVme.
(** The size of a page of the machine and of the host, and the loops' fuel. *)
Context (__am_pgsize sys_pgsz : Z) (fuel : nat).

(** The host's [mmap] of a page of the physical memory: it refuses offsets that are negative
    and addresses and offsets that are not multiples of its page size. *)
Definition host_mmap (va prot off : Z) : M nvm bool :=
  if (off <? 0) || negb (va mod sys_pgsz =? 0) || negb (off mod sys_pgsz =? 0) then mret false
  else modify (upd_host (<[va := (off, prot)]>));; mret true.

Definition host_munmap (va : Z) : M nvm bool :=
  if negb (va mod sys_pgsz =? 0) then mret false else modify (upd_host (delete va));; mret true.

(** platform.c, lines 180-195. *)
Definition mmap_prot (prot : Z) : Z :=
  let p := if negb (Z.land prot MMAP_READ =? 0) then Z.lor 0 (Z.lor PROT_READ PROT_EXEC) else 0 in
  if negb (Z.land prot MMAP_WRITE =? 0) then Z.lor p PROT_WRITE else p.

Definition __am_pmem_map (va pa prot : Z) : M nvm unit :=
  ret ← host_mmap va (mmap_prot prot) (pa - PMEM_START);
  c_assert ret.

Definition __am_pmem_unmap (va : Z) : M nvm unit := ret ← host_munmap va; c_assert ret.

(** Lines 30-35. *)
Definition vme_init : M nvm unit :=
  modify (fun s => mk_nvm (nv_nodes s) (nv_heads s) (nv_pool s) (nv_cur s) (nv_host s) true).

Definition max_pg : Z := Z.quot (USER_END - USER_START) __am_pgsize.

(** Lines 37-49, for an address space structure that exists: the result is [as->ptr]. *)
Definition protect : M nvm Z :=
  h ← pgalloc;
  c_assert (negb (h =? 0));;
  put_head h (mk_head 0 ∅ max_pg 0);;
  mret h.

(** Lines 63-69: the loop of [list_foreach] that takes the pages away. *)
Fixpoint unmap_loop (fuel : nat) (pp : Z) : M nvm unit :=
  match fuel with
  | O => raise OutOfFuel
  | S fuel =>
      if pp =? 0 then mret tt else
      n ← node_at pp;
      (if pm_is_mapped n then __am_pmem_unmap (pm_va n);; put_node pp (set_mapped false n) else mret tt);;
      n ← node_at pp;
      unmap_loop fuel (pm_next n)
  end.

(** Lines 73-78: the loop that gives them. *)
Fixpoint map_loop (fuel : nat) (pp : Z) : M nvm unit :=
  match fuel with
  | O => raise OutOfFuel
  | S fuel =>
      if pp =? 0 then mret tt else
      n ← node_at pp;
      c_assert (in_user (pm_va n));;
      __am_pmem_map (pm_va n) (pm_pa n) (pm_prot n);;
      put_node pp (set_mapped true n);;
      n ← node_at pp;
      map_loop fuel (pm_next n)
  end.

(** Lines 54-83, for the [vm_head] of the context. *)
Definition __am_switch (head : Z) : M nvm unit :=
  s ← get;
  if negb (nv_enabled s) then mret tt else
  let now_head := nv_cur s in
  (if head =? now_head then mret tt else
    (if negb (now_head =? 0) then hd ← head_at now_head; unmap_loop fuel (vm_list hd) else mret tt);;
    (if negb (head =? 0) then hd ← head_at head; map_loop fuel (vm_list hd) else mret tt));;
  modify (set_cur head).

(** [hsearch_r] with [FIND] and with [ENTER]: the latter fails when the table is full. *)
Definition hsearch_enter (hd : VMHead) (key : list Z) (data : Z) : bool * VMHead :=
  if Z.of_nat (size (vm_hash hd)) <? vm_nel hd
  then (true, mk_head (vm_list hd) (<[key := data]> (vm_hash hd)) (vm_nel hd) (vm_nr_page hd))
  else (false, hd).

(** Lines 98-108: the node of a page, a new one if the table has none. *)
Definition page_node (vm_head va : Z) : M nvm Z :=
  hd ← head_at vm_head;
  match vm_hash hd !! page_key va with
  | Some pp => mret pp
  | None =>
      pp ← pgalloc;
      put_node pp (mk_pm 0 0 0 0 false (page_key va));;
      let '(ret, hd) := hsearch_enter hd (page_key va) pp in
      c_assert ret;;
      put_head vm_head (mk_head (vm_list hd) (vm_hash hd) (vm_nel hd) (vm_nr_page hd + 1));;
      mret pp
  end.

(** Lines 109-120: the node is filled in and put at the head of the list. *)
Definition link_page (vm_head pp va pa prot : Z) : M nvm unit :=
  hd ← head_at vm_head;
  n ← node_at pp;
  put_node pp (mk_pm va pa (vm_list hd) prot false (pm_key n));;
  put_head vm_head (mk_head pp (vm_hash hd) (vm_nel hd) (vm_nr_page hd));;
  s ← get;
  if vm_head =? nv_cur s then
    __am_pmem_map va pa prot;;
    n ← node_at pp;
    put_node pp (set_mapped true n)
  else mret tt.

(** Lines 85-121, for an address space structure whose [ptr] is [vm_head]. *)
Definition map (vm_head va pa prot : Z) : M nvm unit :=
  c_assert (in_user va);;
  c_assert (va mod __am_pgsize =? 0);;
  c_assert (pa mod __am_pgsize =? 0);;
  c_assert (negb (vm_head =? 0));;
  pp ← page_node vm_head va;
  link_page vm_head pp va pa prot.

(** Lines 139-141. *)
Definition __am_in_userspace (addr : Z) (s : nvm) : bool :=
  nv_enabled s && negb (nv_cur s =? 0) && in_user addr.
End NatVme.

(** ** Keys *)

Definition un_hex (c : Z) : Z := if c <=? 57 then c - 48 else c - 87.

Lemma page_key_inj va va' : in_user va -> in_user va' -> page_key va = page_key va' -> va = va'.
Proof.
  unfold in_user, USER_START, USER_END. intros H1 H2 E. rewrite Is_true_true in H1, H2.
  assert (forall x, 0 <= x < 2 ^ 32 -> horner 16 (un_hex <$> page_key x) = x) as Hinv.
  { intros x Hx. unfold page_key. rewrite wrap_small by done.
    destruct (width_bounds 16 ltac:(lia) x) as (_ & Hw & _); [lia|].
    assert (un_hex <$> (hex_digit <$> digits (width 16 x) 16 x) = digits (width 16 x) 16 x) as ->.
    { rewrite <- list_fmap_compose. transitivity (id <$> digits (width 16 x) 16 x); [|by rewrite list_fmap_id].
      apply list_fmap_ext. intros i d Hd.
      pose proof (digits_range 16 ltac:(lia) (width 16 x) x ltac:(lia)) as HF. rewrite Forall_lookup in HF. apply HF in Hd.
      unfold compose, un_hex, hex_digit, id. destruct (Z.leb_spec d 9).
      - destruct (Z.leb_spec (48 + d) 57); lia.
      - destruct (Z.leb_spec (87 + d) 57); lia. }
    apply digits_horner; lia. }
  rewrite <- (Hinv va), <- (Hinv va') by lia. by rewrite E.
Qed.

(** ** Lists of pages *)

(** A page in the list of a space: its node, and what it maps. *)
Record entry : Type := mk_entry { e_node : Z; e_va : Z; e_pa : Z; e_prot : Z }.

(** The list from [hd], all of whose nodes have the flag [b]. *)
Fixpoint chain (nodes : gmap Z PageMap) (b : bool) (hd : Z) (l : list entry) : Prop :=
  match l with
  | [] => hd = 0
  | e :: l => hd = e_node e /\ hd <> 0 /\ exists next,
      nodes !! hd = Some (mk_pm (e_va e) (e_pa e) next (e_prot e) b (page_key (e_va e))) /\ chain nodes b next l
  end.

Lemma chain_frame nodes nodes' b hd l :
  (forall p, p ∈ e_node <$> l -> nodes' !! p = nodes !! p) -> chain nodes b hd l -> chain nodes' b hd l.
Proof.
  revert hd. induction l as [|e l IH]; intros hd Hf Hc; [done|]. destruct Hc as (-> & Hn & next & He & Hc).
  split; [done|]. split; [done|]. exists next. rewrite Hf by (rewrite fmap_cons; left). split; [done|].
  apply IH; [|done]. intros p Hp. apply Hf. rewrite fmap_cons. by right.
Qed.

(** The host's view of the pages of a list. *)
Definition host_page (pa_prot : Z * Z) : Z * Z := (pa_prot.1 - PMEM_START, mmap_prot pa_prot.2).
Definition pages (l : list entry) : gmap Z (Z * Z) := list_to_map ((fun e => (e_va e, (e_pa e, e_prot e))) <$> l).
Definition host_view (l : list entry) : gmap Z (Z * Z) := host_page <$> pages l.

Section Loops.
Context (__am_pgsize sys_pgsz : Z).
Context (Hsys : 0 < sys_pgsz) (Hdiv : (sys_pgsz | __am_pgsize)) (Hpmem : (sys_pgsz | PMEM_START)).

(** Pages that [map] accepts and that lie in the physical memory. *)
Definition page_ok (va pa : Z) : Prop :=
  in_user va = true /\ va mod __am_pgsize = 0 /\ pa mod __am_pgsize = 0 /\ PMEM_START <= pa.

Definition entries_ok (l : list entry) : Prop := Forall (fun e => page_ok (e_va e) (e_pa e)) l.

Lemma sys_aligned x : x mod __am_pgsize = 0 -> x mod sys_pgsz = 0.
Proof using Hsys Hdiv.
  intros Hx. destruct (Z.eq_dec __am_pgsize 0) as [E|Hne].
  - rewrite E, Z.mod_0_r in Hx. rewrite Hx. apply Z.mod_0_l. lia.
  - apply Z.mod_divide; [lia|]. apply Z.mod_divide in Hx; [|done]. by transitivity __am_pgsize.
Qed.

Lemma pmem_map_spec s va pa prot :
  page_ok va pa ->
  wp (__am_pmem_map sys_pgsz va pa prot) s (fun _ s' => s' = upd_host (<[va := host_page (pa, prot)]>) s).
Proof using Hsys Hdiv Hpmem.
  intros (_ & Hva & Hpa & Hge). unfold __am_pmem_map, host_mmap.
  destruct (Z.ltb_spec (pa - PMEM_START) 0); [lia|]. rewrite (sys_aligned va Hva).
  assert ((pa - PMEM_START) mod sys_pgsz = 0) as ->.
  { apply Z.mod_divide; [lia|]. apply Z.divide_sub_r; [|done]. apply Z.mod_divide; [lia|]. by apply sys_aligned. }
  by wp_steps.
Qed.

Lemma pmem_unmap_spec s va :
  va mod __am_pgsize = 0 -> wp (__am_pmem_unmap sys_pgsz va) s (fun _ s' => s' = upd_host (delete va) s).
Proof using Hsys Hdiv.
  intros Hva. unfold __am_pmem_unmap, host_munmap. rewrite (sys_aligned va Hva). by wp_steps.
Qed.

Lemma put_node_spec s p n : p <> 0 -> wp (put_node p n) s (fun _ s' => s' = upd_nodes (<[p := n]>) s).
Proof. intros Hp. unfold put_node. destruct (Z.eqb_spec p 0); [done|]. by apply wp_modify. Qed.

Lemma node_at_spec s p n : nv_nodes s !! p = Some n -> wp (node_at p) s (fun r s' => r = n /\ s' = s).
Proof. intros Hn. eapply wp_eq; [unfold node_at; by rewrite Hn|done]. Qed.

Lemma head_at_spec s p hd : nv_heads s !! p = Some hd -> wp (head_at p) s (fun r s' => r = hd /\ s' = s).
Proof. intros Hn. eapply wp_eq; [unfold head_at; by rewrite Hn|done]. Qed.

(** What both loops leave alone, and what they leave of the nodes. *)
Definition only_nodes (l : list entry) (b : bool) (hd : Z) (s s' : nvm) : Prop :=
  nv_heads s' = nv_heads s /\ nv_pool s' = nv_pool s /\ nv_cur s' = nv_cur s /\ nv_enabled s' = nv_enabled s /\
  chain (nv_nodes s') b hd l /\ forall p, p ∉ e_node <$> l -> nv_nodes s' !! p = nv_nodes s !! p.

(** The first node done, the rest done by the loop. *)
Lemma only_nodes_cons e l b c next host s s' :
  nv_nodes s !! e_node e = Some (mk_pm (e_va e) (e_pa e) next (e_prot e) c (page_key (e_va e))) ->
  e_node e <> 0 -> e_node e ∉ e_node <$> l ->
  only_nodes l b next (upd_nodes (<[e_node e := mk_pm (e_va e) (e_pa e) next (e_prot e) b (page_key (e_va e))]>) (upd_host host s)) s' ->
  only_nodes (e :: l) b (e_node e) s s'.
Proof.
  intros He Hn Hni (H1 & H2 & H3 & H4 & Hc & Hf). simpl in *. repeat (split; [done|]). split.
  - split; [done|]. split; [done|]. exists next. rewrite Hf by done. by rewrite lookup_insert_eq.
  - intros p Hp. rewrite fmap_cons, not_elem_of_cons in Hp. destruct Hp as [Hne Hp]. rewrite Hf by done.
    by rewrite lookup_insert_ne by congruence.
Qed.

Lemma unmap_loop_spec fuel l hd s :
  (length l < fuel)%nat -> chain (nv_nodes s) true hd l -> NoDup (e_node <$> l) -> entries_ok l ->
  wp (unmap_loop sys_pgsz fuel hd) s (fun _ s' =>
    only_nodes l false hd s s' /\ nv_host s' = foldl (fun h e => delete (e_va e) h) (nv_host s) l).
Proof using Hsys Hdiv.
  revert hd s l. induction fuel as [|fuel IH]; intros hd s l Hl Hc Hnd Hok; [lia|].
  destruct l as [|e l]; cbn [unmap_loop chain length] in *.
  { subst hd. apply wp_ret. done. }
  destruct Hc as (-> & Hn & next & He & Hc). destruct (Z.eqb_spec (e_node e) 0); [done|].
  apply NoDup_cons in Hnd as [Hni Hnd]. apply Forall_cons in Hok as [Hoke Hok].
  apply wp_bind. eapply wp_mono; [by apply node_at_spec|]. intros ? ? [-> ->]. cbn [pm_is_mapped pm_va].
  apply wp_bind, wp_bind. eapply wp_mono; [by apply pmem_unmap_spec, Hoke|]. intros _ s1 ->.
  eapply wp_mono; [by apply put_node_spec|]. intros _ s2 ->.
  apply wp_bind. eapply wp_mono; [apply node_at_spec; apply lookup_insert_eq|]. intros ? ? [-> ->]. cbn [pm_next set_mapped].
  eapply wp_mono; [apply (IH next _ l); [lia| |done|done]|].
  - cbn. eapply chain_frame; [|exact Hc]. intros p Hp. apply lookup_insert_ne. by intros <-.
  - intros _ s' [Hon Hh]. split; [|exact Hh]. eapply only_nodes_cons; done.
Qed.

Lemma map_loop_spec fuel l hd b s :
  (length l < fuel)%nat -> chain (nv_nodes s) b hd l -> NoDup (e_node <$> l) -> entries_ok l ->
  wp (map_loop sys_pgsz fuel hd) s (fun _ s' =>
    only_nodes l true hd s s' /\ nv_host s' = foldl (fun h e => <[e_va e := host_page (e_pa e, e_prot e)]> h) (nv_host s) l).
Proof using Hsys Hdiv Hpmem.
  revert hd s l. induction fuel as [|fuel IH]; intros hd s l Hl Hc Hnd Hok; [lia|].
  destruct l as [|e l]; cbn [map_loop chain length] in *.
  { subst hd. apply wp_ret. done. }
  destruct Hc as (-> & Hn & next & He & Hc). destruct (Z.eqb_spec (e_node e) 0); [done|].
  apply NoDup_cons in Hnd as [Hni Hnd]. apply Forall_cons in Hok as [Hoke Hok].
  apply wp_bind. eapply wp_mono; [by apply node_at_spec|]. intros ? ? [-> ->]. cbn [pm_pa pm_va pm_prot].
  apply wp_bind, wp_assert; [apply Hoke|].
  apply wp_bind. eapply wp_mono; [by apply pmem_map_spec|]. intros _ s1 ->.
  apply wp_bind. eapply wp_mono; [by apply put_node_spec|]. intros _ s2 ->.
  apply wp_bind. eapply wp_mono; [apply node_at_spec; apply lookup_insert_eq|]. intros ? ? [-> ->]. cbn [pm_next set_mapped].
  eapply wp_mono; [apply (IH next _ l); [lia| |done|done]|].
  - cbn. eapply chain_frame; [|exact Hc]. intros p Hp. apply lookup_insert_ne. by intros <-.
  - intros _ s' [Hon Hh]. split; [|exact Hh]. eapply only_nodes_cons; done.
Qed.

(** [link_page] makes the node the first of the list, mapped if the space is current. *)
Lemma link_page_spec s h p hd k nel nr n va pa prot :
  nv_heads s !! h = Some (mk_head hd k nel nr) -> nv_nodes s !! p = Some n -> p <> 0 -> page_ok va pa ->
  wp (link_page sys_pgsz h p va pa prot) s (fun _ s' =>
    s' = mk_nvm (<[p := mk_pm va pa hd prot (h =? nv_cur s) (pm_key n)]> (nv_nodes s))
           (<[h := mk_head p k nel nr]> (nv_heads s)) (nv_pool s) (nv_cur s)
           (if h =? nv_cur s then <[va := host_page (pa, prot)]> (nv_host s) else nv_host s) (nv_enabled s)).
Proof using Hsys Hdiv Hpmem.
  intros Hh Hp Hp0 Hok. unfold link_page.
  apply wp_bind. eapply wp_mono; [by apply head_at_spec|]. intros ? ? [-> ->].
  apply wp_bind. eapply wp_mono; [by apply node_at_spec|]. intros ? ? [-> ->].
  apply wp_bind. eapply wp_mono; [by apply put_node_spec|]. intros _ s1 ->.
  apply wp_bind, wp_modify, wp_bind, wp_get. cbn. destruct (h =? nv_cur s); [|by apply wp_ret].
  apply wp_bind. eapply wp_mono; [by apply pmem_map_spec|]. intros _ s2 ->.
  apply wp_bind. eapply wp_mono; [apply node_at_spec; apply lookup_insert_eq|]. intros ? ? [-> ->].
  eapply wp_mono; [by apply put_node_spec|]. intros _ s3 ->.
  unfold upd_nodes, upd_heads, upd_host. cbn. by rewrite insert_insert_eq.
Qed.
End Loops.

(** ** What the loops do to the host's mappings *)

Lemma delete_all (l : list entry) (h : gmap Z (Z * Z)) va :
  foldl (fun h e => delete (e_va e) h) h l !! va = if decide (va ∈ e_va <$> l) then None else h !! va.
Proof.
  revert h. induction l as [|e l IH]; intros h; [done|]. cbn [foldl]. rewrite IH, fmap_cons.
  destruct (decide (va ∈ e_va <$> l)) as [Hin|Hni].
  - rewrite decide_True; [done|]. by right.
  - destruct (decide (va = e_va e)) as [->|Hne].
    + rewrite lookup_delete_eq. by rewrite decide_True by left.
    + rewrite lookup_delete_ne by congruence. rewrite decide_False; [done|]. rewrite not_elem_of_cons. done.
Qed.

Lemma pages_lookup l va : pages l !! va = None <-> va ∉ e_va <$> l.
Proof. unfold pages. rewrite <- not_elem_of_list_to_map. by rewrite <- list_fmap_compose. Qed.

Lemma unmap_view l : foldl (fun h e => delete (e_va e) h) (host_view l) l = ∅.
Proof.
  apply map_eq. intros va. rewrite delete_all, lookup_empty. case_decide as Hin; [done|].
  unfold host_view. by rewrite lookup_fmap, (proj2 (pages_lookup l va) Hin).
Qed.

Lemma map_view_gen l (h : gmap Z (Z * Z)) :
  NoDup (e_va <$> l) ->
  foldl (fun h e => <[e_va e := host_page (e_pa e, e_prot e)]> h) h l = host_view l ∪ h.
Proof.
  revert h. induction l as [|e l IH]; intros h Hnd.
  - cbn [foldl]. unfold host_view, pages. simpl. by rewrite fmap_empty, (left_id_L ∅ (∪)).
  - apply NoDup_cons in Hnd as [Hni Hnd]. cbn [foldl]. rewrite IH by done.
    assert (host_view (e :: l) = <[e_va e := host_page (e_pa e, e_prot e)]> (host_view l)) as ->.
    { unfold host_view, pages. simpl. by rewrite fmap_insert. }
    rewrite <- insert_union_l. symmetry. rewrite insert_union_r; [done|].
    unfold host_view. by rewrite lookup_fmap, (proj2 (pages_lookup l _) Hni).
Qed.

Lemma map_view l :
  NoDup (e_va <$> l) ->
  foldl (fun h e => <[e_va e := host_page (e_pa e, e_prot e)]> h) ∅ l = host_view l.
Proof. intros Hnd. rewrite map_view_gen by done. apply (right_id_L ∅ (∪)). Qed.
