(* ===== verification/NatSpace.v ===== *)
(** * Address spaces of the native port: what sequences of operations do

    An abstract machine keeps, for each address space, the pages mapped in it, and which space
    is current. The code of NatVme.v refines it as long as no page is mapped twice in the same
    space: the host's mappings are those of the current space. After a page is mapped a second
    time the list of the space is a cycle, and the next switch to the space does not end. *)

From stdpp Require Import prelude gmap.
From S2P Require Import Prelude Mem KStdio Cte NatVme.

(** ** The abstract machine *)

(** Spaces are numbered in the order in which they are made. *)
Record spaces : Type := mk_spaces { sp_maps : list (gmap Z (Z * Z)); sp_cur : option nat }.

Inductive space_op : Type :=
| Protect
| Map (i : nat) (va pa prot : Z)
| Switch (i : option nat).

Definition space_step (a : spaces) (op : space_op) : spaces :=
  match op with
  | Protect => mk_spaces (sp_maps a ++ [∅]) (sp_cur a)
  | Map i va pa prot => mk_spaces (alter (<[va := (pa, prot)]>) i (sp_maps a)) (sp_cur a)
  | Switch i => mk_spaces (sp_maps a) i
  end.

Definition space_run (a : spaces) (ops : list space_op) : spaces := foldl space_step a ops.

Definition no_spaces : spaces := mk_spaces [] None.

(** What the host must show: the pages of the current space. *)
Definition visible_pages (a : spaces) : gmap Z (Z * Z) :=
  match sp_cur a ≫= fun i => sp_maps a !! i with Some m => host_page <$> m | None => ∅ end.

Section Runs.
Context (__am_pgsize sys_pgsz : Z) (fuel : nat).

(** The code, for a program that keeps the pointers of its spaces. *)
Definition code_step (ptrs : list Z) (op : space_op) : M nvm (list Z) :=
  match op with
  | Protect => h ← protect __am_pgsize; mret (ptrs ++ [h])
  | Map i va pa prot => map __am_pgsize sys_pgsz (default 0 (ptrs !! i)) va pa prot;; mret ptrs
  | Switch i => __am_switch sys_pgsz fuel (default 0 (i ≫= fun i => ptrs !! i));; mret ptrs
  end.

Fixpoint code_run (ptrs : list Z) (ops : list space_op) : M nvm (list Z) :=
  match ops with
  | [] => mret ptrs
  | op :: ops => ptrs ← code_step ptrs op; code_run ptrs ops
  end.

(** The operation is in order: its space exists, its page can be mapped and is not. *)
Definition page_fits (va pa : Z) : bool :=
  in_user va && (va mod __am_pgsize =? 0) && (pa mod __am_pgsize =? 0) && (PMEM_START <=? pa).

Definition op_ok (a : spaces) (op : space_op) : bool :=
  match op with
  | Protect => true
  | Map i va pa _ => page_fits va pa && match sp_maps a !! i with Some m => bool_decide (m !! va = None) | None => false end
  | Switch i => match i with Some i => bool_decide (i < length (sp_maps a))%nat | None => true end
  end.

Fixpoint ops_ok (a : spaces) (ops : list space_op) : bool :=
  match ops with [] => true | op :: ops => op_ok a op && ops_ok (space_step a op) ops end.
End Runs.

(** The state after [vme_init], with the pages the allocator will give. *)
Definition nv_init (pool : list Z) : nvm := mk_nvm ∅ ∅ pool 0 ∅ true.

(** ** The invariant *)

Lemma concat_intro {A} (x : A) (l : list A) ll : x ∈ l -> l ∈ ll -> x ∈ concat ll.
Proof. intros Hx Hl. apply list_elem_of_In, in_concat. exists l. by rewrite <- !list_elem_of_In. Qed.

Section Invariant.
Context (__am_pgsize sys_pgsz : Z).
Context (Hsys : 0 < sys_pgsz) (Hdiv : (sys_pgsz | __am_pgsize)) (Hpmem : (sys_pgsz | PMEM_START)).
Context (Hpg : 0 < __am_pgsize) (Hspace : (__am_pgsize | USER_START)).

Definition keys (l : list entry) : gmap (list Z) Z := list_to_map ((fun e => (page_key (e_va e), e_node e)) <$> l).

(** The list of a space: its pages are sound and distinct. *)
Record list_ok (l : list entry) : Prop := {
  lo_pages : entries_ok __am_pgsize l;
  lo_va : NoDup (e_va <$> l);
  lo_node : NoDup (e_node <$> l);
}.

(** The space at [h] has the list [l]; the flags say that it is current or not. *)
Record space_ok (s : nvm) (h : Z) (l : list entry) : Prop := {
  so_ptr : h <> 0;
  so_list : list_ok l;
  so_head : exists hd nr, nv_heads s !! h = Some (mk_head hd (keys l) (max_pg __am_pgsize) nr) /\
    chain (nv_nodes s) (bool_decide (h = nv_cur s)) hd l;
}.

(** Pages in use: heads and nodes. *)
Definition in_use (ptrs : list Z) (ls : list (list entry)) : list Z := ptrs ++ (e_node <$> concat ls).

(** The code's state [s] with the pointers [ptrs] has the lists [ls]. *)
Record rep (s : nvm) (ptrs : list Z) (ls : list (list entry)) (cur : option nat) : Prop := {
  r_enabled : nv_enabled s = true;
  r_len : length ptrs = length ls;
  r_space : forall i h l, ptrs !! i = Some h -> ls !! i = Some l -> space_ok s h l;
  r_fresh : NoDup (nv_pool s ++ in_use ptrs ls);
  r_pool : Forall (fun p => p <> 0) (nv_pool s);
  r_cur : nv_cur s = default 0 (cur ≫= fun i => ptrs !! i);
  r_cur_ok : match cur with Some i => is_Some (ptrs !! i) | None => True end;
  r_host : nv_host s = match cur ≫= fun i => ls !! i with Some l => host_view l | None => ∅ end;
}.

Definition abs_spaces (ls : list (list entry)) (cur : option nat) : spaces := mk_spaces (pages <$> ls) cur.

Lemma rep_init pool : NoDup pool -> Forall (fun p => p <> 0) pool -> rep (nv_init pool) [] [] None.
Proof. intros Hnd Hp. split; simpl; rewrite ?app_nil_r; done. Qed.

Lemma visible_abs_spaces s ptrs ls cur : rep s ptrs ls cur -> nv_host s = visible_pages (abs_spaces ls cur).
Proof.
  intros Hr. rewrite (r_host _ _ _ _ Hr). unfold visible_pages, abs_spaces. simpl. destruct cur as [i|]; [|done]. simpl.
  rewrite list_lookup_fmap. by destruct (ls !! i).
Qed.

(** ** Room in the table *)

Lemma keys_lookup l va : entries_ok __am_pgsize l -> in_user va = true -> va ∉ e_va <$> l -> keys l !! page_key va = None.
Proof.
  intros Hok Hva Hni. apply not_elem_of_list_to_map. rewrite <- list_fmap_compose. intros (e & E & He)%list_elem_of_fmap.
  apply Hni, list_elem_of_fmap. exists e. split; [|done]. unfold entries_ok in Hok. rewrite Forall_forall in Hok.
  simpl in E. apply page_key_inj; [by rewrite Hva| |done]. destruct (Hok e He) as [-> _]. done.
Qed.

Lemma keys_hit l e : list_ok l -> e ∈ l -> keys l !! page_key (e_va e) = Some (e_node e).
Proof.
  intros [Hok Hva _] He. apply elem_of_list_to_map_1; [|apply list_elem_of_fmap; eauto].
  rewrite <- list_fmap_compose. clear e He. induction l as [|e l IH]; [constructor|].
  apply Forall_cons in Hok as [Hoke Hok]. apply NoDup_cons in Hva as [Hni Hva]. rewrite fmap_cons. constructor; [|by apply IH].
  intros (e' & E & He')%list_elem_of_fmap. apply Hni, list_elem_of_fmap. exists e'. split; [|done]. simpl in E.
  unfold entries_ok in Hok. rewrite Forall_forall in Hok. apply page_key_inj; [by destruct Hoke as [-> _]|by destruct (Hok e' He') as [-> _]|done].
Qed.

Lemma keys_size l : (size (keys l) <= length l)%nat.
Proof.
  induction l as [|e l IH]; [done|]. unfold keys. rewrite fmap_cons. simpl list_to_map. cbn [length].
  rewrite map_size_insert. change (list_to_map _) with (keys l). destruct (keys l !! _); unfold id; lia.
Qed.

(** A space has at most [max_pg] pages. *)
Lemma pages_bound (vas : list Z) :
  NoDup vas -> Forall (fun va => in_user va = true /\ va mod __am_pgsize = 0) vas ->
  Z.of_nat (length vas) <= max_pg __am_pgsize.
Proof.
  intros Hnd Hok. unfold max_pg. set (n := Z.quot _ _). assert (0 <= n) by (apply Z.quot_pos; unfold USER_END, USER_START; lia).
  assert (length vas <= length ((fun i => USER_START + i * __am_pgsize)%Z <$> seqZ 0 n))%nat as Hle.
  { apply NoDup_incl_length; [by apply NoDup_ListNoDup|]. intros va Hin%list_elem_of_In. rewrite Forall_forall in Hok.
    destruct (Hok va Hin) as [Hu Ha]. apply list_elem_of_In, list_elem_of_fmap. exists ((va - USER_START) / __am_pgsize).
    assert (USER_START <= va < USER_END) as Hr by (unfold in_user in Hu; lia). destruct Hspace as [k Hk]. apply Z.mod_divide in Ha as [j Hj]; [|lia].
    assert ((va - USER_START) / __am_pgsize = j - k) as -> by (rewrite Hj, Hk, <- Z.mul_sub_distr_r; apply Z.div_mul; lia).
    split; [lia|]. apply elem_of_seqZ. unfold n. rewrite Z.quot_div_nonneg by (unfold USER_END, USER_START in *; lia).
    rewrite Z.add_0_l. split.
    - assert (k <= j) by (apply (Z.mul_le_mono_pos_r k j __am_pgsize); lia). lia.
    - apply Z.lt_le_trans with (j - k + 1); [lia|]. apply Z.div_le_lower_bound; [lia|].
      assert (USER_END = 3 * k * __am_pgsize) as HE by (unfold USER_END, USER_START in *; lia).
      assert (j < 3 * k) by (apply (Z.mul_lt_mono_pos_r __am_pgsize j (3 * k)); lia). rewrite HE, Hk. nia. }
  rewrite length_fmap, length_seqZ in Hle. lia.
Qed.

(** ** Frames *)

Lemma in_use_apart (pool ptrs : list Z) ls i j l l' p :
  NoDup (pool ++ in_use ptrs ls) -> ls !! i = Some l -> ls !! j = Some l' -> i <> j ->
  p ∈ e_node <$> l -> p ∉ e_node <$> l'.
Proof.
  intros (_ & _ & (_ & _ & Hnd)%NoDup_app)%NoDup_app Hi Hj Hne Hp Hp'.
  apply delete_Permutation in Hi as Hperm. rewrite Hperm in Hnd. simpl in Hnd. rewrite fmap_app in Hnd.
  apply NoDup_app in Hnd as (_ & Hd & _). apply (Hd p Hp). apply list_elem_of_fmap in Hp' as (e & -> & He).
  apply list_elem_of_fmap. exists e. split; [done|]. apply (concat_intro _ l'); [done|]. destruct (decide (j < i)%nat).
  - apply list_elem_of_lookup. exists j. by rewrite list_lookup_delete_lt.
  - apply list_elem_of_lookup. exists (pred j). rewrite list_lookup_delete_ge by lia. by replace (S (pred j)) with j by lia.
Qed.

Lemma in_use_node (ptrs : list Z) ls i l p : ls !! i = Some l -> p ∈ e_node <$> l -> p ∈ in_use ptrs ls.
Proof.
  intros Hi (e & -> & He)%list_elem_of_fmap. apply elem_of_app. right. apply list_elem_of_fmap. exists e. split; [done|].
  apply (concat_intro _ l); [done|]. by eapply list_elem_of_lookup_2.
Qed.

Lemma space_ok_frame s s' h l :
  nv_heads s' !! h = nv_heads s !! h -> (forall p, p ∈ e_node <$> l -> nv_nodes s' !! p = nv_nodes s !! p) ->
  (h = nv_cur s' <-> h = nv_cur s) -> space_ok s h l -> space_ok s' h l.
Proof.
  intros Hh Hn Hc [Hp Hl (hd & nr & E & Hch)]. split; [done|done|]. exists hd, nr. rewrite Hh. split; [done|].
  rewrite (bool_decide_ext _ (h = nv_cur s)) by done. by eapply chain_frame.
Qed.

Lemma r_list s ptrs ls cur i h : rep s ptrs ls cur -> ptrs !! i = Some h -> exists l, (ls !! i = Some l) /\ space_ok s h l.
Proof.
  intros Hr Hi. destruct (lookup_lt_is_Some_2 ls i) as [l Hl].
  { rewrite <- (r_len _ _ _ _ Hr). by eapply lookup_lt_Some. }
  exists l. split; [done|]. by eapply r_space.
Qed.

Lemma r_ptr_unique s ptrs ls cur i j h : rep s ptrs ls cur -> ptrs !! i = Some h -> ptrs !! j = Some h -> i = j.
Proof.
  intros Hr Hi Hj. pose proof (r_fresh _ _ _ _ Hr) as (_ & _ & (Hnd & _ & _)%NoDup_app)%NoDup_app. by eapply NoDup_lookup.
Qed.

Lemma r_pool_fresh s ptrs ls cur p pool :
  rep s ptrs ls cur -> nv_pool s = p :: pool -> p <> 0 /\ (p ∉ pool) /\ (p ∉ in_use ptrs ls) /\ NoDup (pool ++ in_use ptrs ls).
Proof.
  intros Hr Hp. pose proof (r_fresh _ _ _ _ Hr) as Hf. pose proof (r_pool _ _ _ _ Hr) as H0. rewrite Hp in Hf, H0.
  apply Forall_cons in H0 as [H0 _]. cbn [app] in Hf. apply NoDup_cons in Hf as [Hni Hnd].
  apply not_elem_of_app in Hni as [??]. done.
Qed.

Lemma r_cur_ptr s ptrs ls cur h : rep s ptrs ls cur -> h ∉ ptrs -> h <> 0 -> h <> nv_cur s.
Proof.
  intros Hr Hni Hn E0. rewrite (r_cur _ _ _ _ Hr) in E0. destruct cur as [i|]; [|done]. simpl in E0.
  destruct (ptrs !! i) as [h'|] eqn:E; [|done]. simpl in E0. subst h'. by apply Hni, (list_elem_of_lookup_2 _ i).
Qed.

(** The pointer of space [i] is current exactly if the space is. *)
Lemma r_cur_iff s ptrs ls cur i h : rep s ptrs ls cur -> ptrs !! i = Some h -> (h = nv_cur s <-> cur = Some i).
Proof.
  intros Hr Hi. destruct (r_list _ _ _ _ _ _ Hr Hi) as (l & _ & [Hn _ _]).
  rewrite (r_cur _ _ _ _ Hr). pose proof (r_cur_ok _ _ _ _ Hr) as Hok. split.
  - destruct cur as [j|]; [|done]. simpl. destruct Hok as [h' E]. rewrite E. simpl. intros <-. f_equal. by eapply r_ptr_unique.
  - intros ->. simpl. by rewrite Hi.
Qed.

(** ** [protect] *)

Lemma protect_ok s ptrs ls cur p pool :
  rep s ptrs ls cur -> nv_pool s = p :: pool ->
  wp (protect __am_pgsize) s (fun h s' => rep s' (ptrs ++ [h]) (ls ++ [[]]) cur /\ nv_pool s' = pool).
Proof.
  intros Hr Hp. destruct (r_pool_fresh _ _ _ _ _ _ Hr Hp) as (Hp0 & Hpp & Hpu & Hnd).
  assert (p ∉ ptrs) as Hpt by (intros ?; apply Hpu, elem_of_app; by left).
  unfold protect. apply wp_bind. eapply wp_eq; [unfold pgalloc; by rewrite Hp|].
  apply wp_bind, wp_assert; [by destruct (Z.eqb_spec p 0)|]. apply wp_bind, wp_modify, wp_ret.
  split; [|done]. split; cbn.
  - apply Hr.
  - rewrite !length_app, (r_len _ _ _ _ Hr). done.
  - intros i h l Hi Hl. apply lookup_app_Some in Hi as [Hi|[Hge Hi]].
    + rewrite lookup_app_l in Hl by (rewrite <- (r_len _ _ _ _ Hr); by eapply lookup_lt_Some).
      apply (space_ok_frame s); cbn; [|done|done|by apply (r_space _ _ _ _ Hr i)].
      apply lookup_insert_ne. intros ->. by apply Hpt, (list_elem_of_lookup_2 _ i).
    + apply list_lookup_singleton_Some in Hi as [Hi <-]. rewrite lookup_app_r, <- (r_len _ _ _ _ Hr), Hi in Hl
        by (rewrite <- (r_len _ _ _ _ Hr); lia). injection Hl as <-.
      split; [done|by split; constructor|]. exists 0, 0. cbn. rewrite lookup_insert_eq. done.
  - assert (pool ++ in_use (ptrs ++ [p]) (ls ++ [[]]) ≡ₚ p :: pool ++ in_use ptrs ls) as ->.
    { unfold in_use. rewrite concat_app. simpl. rewrite app_nil_r. solve_Permutation. }
    rewrite NoDup_cons, not_elem_of_app. done.
  - pose proof (r_pool _ _ _ _ Hr) as H0. rewrite Hp in H0. by apply Forall_cons in H0 as [_ H0].
  - rewrite (r_cur _ _ _ _ Hr). pose proof (r_cur_ok _ _ _ _ Hr) as Hok. destruct cur as [i|]; [|done]. simpl.
    destruct Hok as [h Hi]. by rewrite (lookup_app_l_Some _ _ _ _ Hi), Hi.
  - pose proof (r_cur_ok _ _ _ _ Hr) as Hok. destruct cur as [i|]; [|done]. destruct Hok as [h Hi].
    exists h. by apply lookup_app_l_Some.
  - rewrite (r_host _ _ _ _ Hr). pose proof (r_cur_ok _ _ _ _ Hr) as Hok. destruct cur as [i|]; [|done]. simpl.
    destruct Hok as [h Hi]. destruct (r_list _ _ _ _ _ _ Hr Hi) as (l & Hl & _). by rewrite (lookup_app_l_Some _ _ _ _ Hl), Hl.
Qed.

(** ** [map] *)

Lemma page_node_new s ptrs ls cur i h l p pool va :
  rep s ptrs ls cur -> nv_pool s = p :: pool -> ptrs !! i = Some h -> ls !! i = Some l ->
  in_user va = true -> va mod __am_pgsize = 0 -> va ∉ e_va <$> l ->
  wp (page_node h va) s (fun pp s' => pp = p /\ exists hd nr,
    nv_heads s !! h = Some (mk_head hd (keys l) (max_pg __am_pgsize) nr) /\
    s' = mk_nvm (<[p := mk_pm 0 0 0 0 false (page_key va)]> (nv_nodes s))
           (<[h := mk_head hd (<[page_key va := p]> (keys l)) (max_pg __am_pgsize) (nr + 1)]> (nv_heads s))
           pool (nv_cur s) (nv_host s) (nv_enabled s)).
Proof using Hpg Hspace.
  intros Hr Hp Hi Hl Hu Ha Hni. destruct (r_pool_fresh _ _ _ _ _ _ Hr Hp) as (Hp0 & _).
  destruct (r_space _ _ _ _ Hr _ _ _ Hi Hl) as [_ [Hok Hva _] (hd & nr & E & _)]. unfold page_node.
  apply wp_bind. eapply wp_mono; [by apply head_at_spec|]. intros ? ? [-> ->]. cbn [vm_hash].
  rewrite (keys_lookup _ _ Hok Hu Hni). apply wp_bind. eapply wp_eq; [unfold pgalloc; by rewrite Hp|].
  apply wp_bind. eapply wp_mono; [by apply put_node_spec|]. intros _ s1 ->.
  unfold hsearch_enter. cbn [vm_hash vm_nel vm_list vm_nr_page].
  assert (Z.of_nat (length (va :: (e_va <$> l))) <= max_pg __am_pgsize) as Hroom.
  { apply pages_bound; [by constructor|]. constructor; [done|]. apply Forall_fmap. eapply Forall_impl; [exact Hok|].
    intros e He. split; apply He. }
  pose proof (keys_size l). cbn [length] in Hroom. rewrite length_fmap in Hroom.
  destruct (Z.ltb_spec (Z.of_nat (size (keys l))) (max_pg __am_pgsize)); [|lia].
  apply wp_bind, wp_assert; [done|]. apply wp_bind, wp_modify, wp_ret. split; [done|]. exists hd, nr. done.
Qed.

Lemma pages_cons e l : pages (e :: l) = <[e_va e := (e_pa e, e_prot e)]> (pages l).
Proof. done. Qed.

(** The state after a page is added to the list of space [i]. *)
Lemma rep_grow s ptrs ls cur i h l hd nr nr' p pool va pa prot :
  rep s ptrs ls cur -> nv_pool s = p :: pool -> ptrs !! i = Some h -> ls !! i = Some l ->
  page_ok __am_pgsize va pa -> va ∉ e_va <$> l ->
  nv_heads s !! h = Some (mk_head hd (keys l) (max_pg __am_pgsize) nr) ->
  rep (mk_nvm (<[p := mk_pm va pa hd prot (h =? nv_cur s) (page_key va)]> (nv_nodes s))
         (<[h := mk_head p (<[page_key va := p]> (keys l)) (max_pg __am_pgsize) nr']> (nv_heads s)) pool (nv_cur s)
         (if h =? nv_cur s then <[va := host_page (pa, prot)]> (nv_host s) else nv_host s) (nv_enabled s))
    ptrs (<[i := mk_entry p va pa prot :: l]> ls) cur.
Proof.
  intros Hr Hp Hi Hl Hok Hni Eh. destruct (r_pool_fresh _ _ _ _ _ _ Hr Hp) as (Hp0 & Hpp & Hpu & Hnd).
  pose proof (lookup_lt_Some _ _ _ Hl) as Hlt. pose proof (r_cur_iff _ _ _ _ _ _ Hr Hi) as Hcur.
  split; cbn.
  - apply Hr.
  - rewrite length_insert. apply Hr.
  - intros j h' l' Hj Hl'. destruct (decide (i = j)) as [<-|Hne].
    + rewrite list_lookup_insert_eq in Hl' by done. injection Hl' as <-. rewrite Hi in Hj. injection Hj as <-.
      destruct (r_space _ _ _ _ Hr _ _ _ Hi Hl) as [Hh0 [Lo Lv Ln] (hd' & nr0 & E & Hch)].
      rewrite Eh in E. injection E as <- _. assert (p ∉ e_node <$> l) as Hpl by (intros ?; by eapply Hpu, in_use_node).
      split; [done| |].
      * split; [by constructor|by rewrite fmap_cons; constructor|by rewrite fmap_cons; constructor].
      * exists p, nr'. cbn. rewrite lookup_insert_eq. split; [done|]. split; [done|]. split; [done|]. exists hd.
        rewrite lookup_insert_eq. split.
        -- repeat f_equal. destruct (Z.eqb_spec h (nv_cur s)); [by rewrite bool_decide_true|by rewrite bool_decide_false].
        -- eapply chain_frame; [|exact Hch]. intros q Hq. apply lookup_insert_ne. by intros <-.
    + rewrite list_lookup_insert_ne in Hl' by done. apply (space_ok_frame s); cbn; [| |done|by apply (r_space _ _ _ _ Hr j)].
      * apply lookup_insert_ne. intros <-. apply Hne. by eapply r_ptr_unique.
      * intros q Hq. apply lookup_insert_ne. intros <-. by eapply Hpu, in_use_node.
  - destruct (concat_insert ls i l Hl) as (rest & E1 & E2).
    assert (pool ++ in_use ptrs (<[i := mk_entry p va pa prot :: l]> ls) ≡ₚ p :: pool ++ in_use ptrs ls) as ->.
    { unfold in_use. rewrite E2, E1. simpl. solve_Permutation. }
    rewrite NoDup_cons, not_elem_of_app. by split_and!.
  - pose proof (r_pool _ _ _ _ Hr) as H0. rewrite Hp in H0. by apply Forall_cons in H0 as [_ H0].
  - apply Hr.
  - apply Hr.
  - rewrite (r_host _ _ _ _ Hr). destruct (Z.eqb_spec h (nv_cur s)) as [E|E].
    + apply Hcur in E as ->. simpl. rewrite list_lookup_insert_eq by done. rewrite Hl. unfold host_view. rewrite pages_cons.
      by rewrite fmap_insert.
    + destruct cur as [j|]; [|done]. simpl. rewrite list_lookup_insert_ne; [done|]. intros <-. by apply E, Hcur.
Qed.

Lemma map_ok s ptrs ls cur i h l p pool va pa prot :
  rep s ptrs ls cur -> nv_pool s = p :: pool -> ptrs !! i = Some h -> ls !! i = Some l ->
  page_ok __am_pgsize va pa -> va ∉ e_va <$> l ->
  wp (map __am_pgsize sys_pgsz h va pa prot) s (fun _ s' =>
    rep s' ptrs (<[i := mk_entry p va pa prot :: l]> ls) cur /\ nv_pool s' = pool).
Proof using Hsys Hdiv Hpmem Hpg Hspace.
  intros Hr Hp Hi Hl Hok Hni. pose proof Hok as (Hu & Ha & Hpa & _).
  destruct (r_space _ _ _ _ Hr _ _ _ Hi Hl) as [Hh0 _ _].
  unfold map. apply wp_bind, wp_assert; [done|]. apply wp_bind, wp_assert; [by rewrite Ha|].
  apply wp_bind, wp_assert; [by rewrite Hpa|]. apply wp_bind, wp_assert; [by destruct (Z.eqb_spec h 0)|].
  apply wp_bind. eapply wp_mono; [by eapply page_node_new|]. intros ? s1 [-> (hd & nr & E & ->)].
  destruct (r_pool_fresh _ _ _ _ _ _ Hr Hp) as (Hp0 & Hpp & Hpu & Hnd).
  eapply wp_mono; [eapply (link_page_spec _ _ Hsys Hdiv Hpmem); [apply lookup_insert_eq|apply lookup_insert_eq|done|exact Hok]|]. intros _ s2 ->.
  cbn. rewrite !insert_insert_eq. split; [|done].
  by apply (rep_grow s ptrs ls cur i h l hd nr).
Qed.

(** ** [__am_switch] *)

(** The loops turn the flags of one list; no other list has its flags up. *)
Lemma reflag s s' ptrs ls cur i h l hd nr b :
  rep s ptrs ls cur -> ptrs !! i = Some h -> ls !! i = Some l -> cur = None \/ cur = Some i ->
  nv_heads s !! h = Some (mk_head hd (keys l) (max_pg __am_pgsize) nr) -> only_nodes l b hd s s' ->
  nv_host s' = (if b then host_view l else ∅) ->
  rep (set_cur (if b then h else 0) s') ptrs ls (if b then Some i else None).
Proof.
  intros Hr Hi Hl Hc Eh (H1 & H2 & _ & H4 & Hch & Hf) Hhost.
  destruct (r_space _ _ _ _ Hr _ _ _ Hi Hl) as [Hh0 Lo _]. split; cbn.
  - rewrite H4. apply Hr.
  - apply Hr.
  - intros j h' l' Hj Hl'. destruct (decide (j = i)) as [->|Hne].
    + rewrite Hi in Hj. injection Hj as <-. rewrite Hl in Hl'. injection Hl' as <-. split; [done|done|].
      exists hd, nr. cbn. rewrite H1. split; [done|]. destruct b; by rewrite ?bool_decide_true, ?bool_decide_false by done.
    + pose proof (r_space _ _ _ _ Hr _ _ _ Hj Hl') as Hs. pose proof (so_ptr _ _ _ Hs) as Hh'0.
      apply (space_ok_frame s); cbn; [by rewrite H1| | |done].
      * intros q Hq. apply Hf. intros Hq'. by apply (in_use_apart _ _ _ _ _ _ _ q (r_fresh _ _ _ _ Hr) Hl' Hl Hne).
      * rewrite (r_cur_iff _ _ _ _ _ _ Hr Hj). split; [|by destruct Hc; naive_solver].
        destruct b; [|done]. intros ->. destruct Hne. by eapply r_ptr_unique.
  - rewrite H2. apply Hr.
  - rewrite H2. apply Hr.
  - destruct b; [|done]. simpl. by rewrite Hi.
  - destruct b; [|done]. eauto.
  - rewrite Hhost. destruct b; [|done]. simpl. by rewrite Hl.
Qed.

Section Switch.
Context (fuel : nat).

Lemma detach s ptrs ls i h :
  rep s ptrs ls (Some i) -> ptrs !! i = Some h -> Forall (fun l => length l < fuel)%nat ls ->
  wp (hd ← head_at h; unmap_loop sys_pgsz fuel (vm_list hd)) s (fun _ s' =>
    rep (set_cur 0 s') ptrs ls None /\ nv_pool s' = nv_pool s /\ nv_cur s' = nv_cur s).
Proof using Hsys Hdiv.
  intros Hr Hi Hfuel. destruct (r_list _ _ _ _ _ _ Hr Hi) as (l & Hl & [_ [Lo Lv Ln] (hd & nr & E & Hch)]).
  apply wp_bind. eapply wp_mono; [by apply head_at_spec|]. intros ? ? [-> ->]. cbn [vm_list].
  rewrite bool_decide_true in Hch by (by rewrite (r_cur_iff _ _ _ _ _ _ Hr Hi)).
  eapply wp_mono; [apply (unmap_loop_spec _ _ Hsys Hdiv fuel l); [exact (Forall_lookup_1 _ _ _ _ Hfuel Hl)|done..]|].
  intros _ s' [Hon Hhost]. split; [|split; apply Hon].
  eapply (reflag s s' ptrs ls (Some i) i h l hd nr false); try done; [by right|].
  rewrite Hhost, (r_host _ _ _ _ Hr). simpl. rewrite Hl. apply unmap_view.
Qed.

Lemma attach s ptrs ls i h :
  rep (set_cur 0 s) ptrs ls None -> ptrs !! i = Some h -> Forall (fun l => length l < fuel)%nat ls ->
  wp (hd ← head_at h; map_loop sys_pgsz fuel (vm_list hd)) s (fun _ s' =>
    rep (set_cur h s') ptrs ls (Some i) /\ nv_pool s' = nv_pool s).
Proof using Hsys Hdiv Hpmem.
  intros Hr Hi Hfuel. destruct (r_list _ _ _ _ _ _ Hr Hi) as (l & Hl & [_ [Lo Lv Ln] (hd & nr & E & Hch)]).
  apply wp_bind. eapply wp_mono; [by apply head_at_spec|]. intros ? ? [-> ->]. cbn [vm_list].
  eapply wp_mono; [apply (map_loop_spec _ _ Hsys Hdiv Hpmem fuel l hd (bool_decide (h = 0)) s); [exact (Forall_lookup_1 _ _ _ _ Hfuel Hl)|exact Hch|done..]|].
  intros _ s' [Hon Hhost]. split; [|apply Hon].
  apply (reflag (set_cur 0 s) (set_cur 0 s') ptrs ls None i h l hd nr true); try done; [by left| |].
  - destruct Hon as (? & ? & ? & ? & ? & ?). done.
  - cbn. rewrite Hhost. pose proof (r_host _ _ _ _ Hr) as H0. cbn in H0. rewrite H0. by apply map_view.
Qed.

Lemma rep_set_cur s ptrs ls cur : rep s ptrs ls cur -> rep (set_cur (nv_cur s) s) ptrs ls cur.
Proof. by destruct s. Qed.

Lemma switch_ok s ptrs ls cur i :
  rep s ptrs ls cur -> match i with Some i => is_Some (ptrs !! i) | None => True end ->
  Forall (fun l => length l < fuel)%nat ls ->
  wp (__am_switch sys_pgsz fuel (default 0 (i ≫= fun i => ptrs !! i))) s (fun _ s' => rep s' ptrs ls i /\ nv_pool s' = nv_pool s).
Proof using Hsys Hdiv Hpmem.
  intros Hr Hi Hfuel. set (head := default 0 _). unfold __am_switch. apply wp_bind, wp_get.
  rewrite (r_enabled _ _ _ _ Hr). cbn [negb]. apply wp_bind. destruct (Z.eqb_spec head (nv_cur s)) as [E|Hne].
  { apply wp_ret, wp_modify. split; [|done]. rewrite E. assert (i = cur) as ->; [|by apply rep_set_cur].
    unfold head in E. destruct i as [i|]; simpl in E.
    - destruct Hi as [h Hi]. rewrite Hi in E. simpl in E. by apply (r_cur_iff _ _ _ _ _ _ Hr Hi) in E as ->.
    - destruct cur as [j|]; [|done]. destruct (r_cur_ok _ _ _ _ Hr) as [h Hj].
      pose proof (proj2 (r_cur_iff _ _ _ _ _ _ Hr Hj) eq_refl) as Ej.
      destruct (r_list _ _ _ _ _ _ Hr Hj) as (? & _ & [Hh0 _ _]). congruence. }
  apply wp_bind, wp_mono with (Q := fun _ s' => rep (set_cur 0 s') ptrs ls None /\ nv_pool s' = nv_pool s).
  - rewrite (r_cur _ _ _ _ Hr). destruct cur as [j|]; simpl.
    + destruct (r_cur_ok _ _ _ _ Hr) as [h Hj]. destruct (r_list _ _ _ _ _ _ Hr Hj) as (? & _ & [Hh0 _ _]).
      rewrite Hj. cbn [from_option id]. destruct (Z.eqb_spec h 0); [done|].
      eapply wp_mono; [by apply (detach _ ptrs ls j)|]. intros _ s1 (? & ? & _). done.
    + apply wp_ret. split; [|done]. pose proof (r_cur _ _ _ _ Hr) as E. simpl in E. rewrite <- E. by apply rep_set_cur.
  - intros _ s1 [Hr1 Hp1]. destruct i as [i|]; unfold head; simpl.
    + destruct Hi as [h Hi]. rewrite Hi. cbn [from_option id].
      destruct (r_list _ _ _ _ _ _ Hr Hi) as (? & _ & [Hh0 _ _]). destruct (Z.eqb_spec h 0); [done|].
      eapply wp_mono; [by apply (attach _ ptrs ls i)|]. intros _ s2 [Hr2 Hp2]. apply wp_modify. split; [done|]. cbn. congruence.
    + apply wp_ret, wp_modify. done.
Qed.

(** ** Runs *)

Lemma page_fits_ok va pa : page_fits __am_pgsize va pa = true -> page_ok __am_pgsize va pa.
Proof. unfold page_fits, page_ok. rewrite !andb_true_iff, !Z.eqb_eq, Z.leb_le. by intros [[[? ?] ?] ?]. Qed.

Lemma abs_spaces_lookup ls cur i m : sp_maps (abs_spaces ls cur) !! i = Some m -> exists l, ls !! i = Some l /\ m = pages l.
Proof. cbn. rewrite list_lookup_fmap. destruct (ls !! i); naive_solver. Qed.

Lemma step_ok s ptrs ls cur op n :
  rep s ptrs ls cur -> op_ok __am_pgsize (abs_spaces ls cur) op = true -> nv_pool s <> [] ->
  Forall (fun l => length l <= n)%nat ls -> (n < fuel)%nat ->
  wp (code_step __am_pgsize sys_pgsz fuel ptrs op) s (fun ptrs' s' => exists ls' cur',
    rep s' ptrs' ls' cur' /\ abs_spaces ls' cur' = space_step (abs_spaces ls cur) op /\
    (length (nv_pool s) <= S (length (nv_pool s')))%nat /\ Forall (fun l => length l <= S n)%nat ls').
Proof using Hsys Hdiv Hpmem Hpg Hspace.
  intros Hr Hop Hpool Hn Hfuel. destruct (nv_pool s) as [|p pool] eqn:Hp; [done|].
  assert (Forall (fun l => length l <= S n)%nat ls) as HSn by (eapply Forall_impl; [exact Hn|]; simpl; lia).
  destruct op as [|i va pa prot|i]; cbn [code_step op_ok] in *.
  - apply wp_bind. eapply wp_mono; [by apply (protect_ok _ ptrs ls cur p pool)|]. intros h s' [Hr' Hp']. apply wp_ret. exists (ls ++ [[]]), cur.
    split; [done|]. split; [|rewrite Hp'; split; [simpl; lia|]].
    + unfold abs_spaces. by rewrite fmap_app.
    + apply Forall_app. split; [done|]. apply Forall_singleton. simpl. lia.
  - apply andb_true_iff in Hop as [Hfit Hm]. destruct (sp_maps (abs_spaces ls cur) !! i) as [m|] eqn:Ei; [|done].
    apply bool_decide_eq_true_1 in Hm. apply abs_spaces_lookup in Ei as (l & Hl & ->).
    destruct (lookup_lt_is_Some_2 ptrs i) as [h Hi]; [rewrite (r_len _ _ _ _ Hr); by eapply lookup_lt_Some|].
    rewrite Hi. apply wp_bind.
    eapply wp_mono; [by eapply map_ok, pages_lookup; [..|apply page_fits_ok|]|]. intros _ s' [Hr' Hp']. apply wp_ret.
    exists (<[i := mk_entry p va pa prot :: l]> ls), cur.
    split; [done|]. split; [|rewrite Hp'; split; [simpl; lia|]].
    + unfold abs_spaces. cbn. rewrite list_fmap_insert, pages_cons. f_equal. apply list_eq. intros j. rewrite list_lookup_alter.
      destruct (decide (i = j)) as [<-|Hne]; [|by rewrite list_lookup_insert_ne].
      rewrite list_lookup_insert_eq by (rewrite length_fmap; by eapply lookup_lt_Some). by rewrite list_lookup_fmap, Hl.
    + apply Forall_insert; [done|]. pose proof (Forall_lookup_1 _ _ _ _ Hn Hl). simpl in *. lia.
  - apply wp_bind. eapply wp_mono; [apply (switch_ok _ _ _ _ i Hr)|].
    + destruct i as [i|]; [|done]. apply bool_decide_eq_true_1 in Hop. cbn in Hop. rewrite length_fmap in Hop.
      apply lookup_lt_is_Some_2. rewrite (r_len _ _ _ _ Hr). done.
    + eapply Forall_impl; [exact Hn|]. simpl. lia.
    + intros _ s' [Hr' Hp']. apply wp_ret. exists ls, i. rewrite Hp', Hp. split; [done|]. split; [done|]. split; [simpl; lia|done].
Qed.

Lemma run_ok ops s ptrs ls cur n :
  rep s ptrs ls cur -> ops_ok __am_pgsize (abs_spaces ls cur) ops = true -> (length ops <= length (nv_pool s))%nat ->
  Forall (fun l => length l <= n)%nat ls -> (n + length ops < fuel)%nat ->
  wp (code_run __am_pgsize sys_pgsz fuel ptrs ops) s (fun ptrs' s' => exists ls' cur',
    rep s' ptrs' ls' cur' /\ abs_spaces ls' cur' = space_run (abs_spaces ls cur) ops /\ Forall (fun l => length l < fuel)%nat ls').
Proof using Hsys Hdiv Hpmem Hpg Hspace.
  revert s ptrs ls cur n. induction ops as [|op ops IH]; intros s ptrs ls cur n Hr Hops Hpool Hn Hfuel; cbn [code_run ops_ok length] in *.
  { apply wp_ret. exists ls, cur. split; [done|]. split; [done|]. eapply Forall_impl; [exact Hn|]. simpl. lia. }
  apply andb_true_iff in Hops as [Hop Hops]. apply wp_bind.
  eapply wp_mono; [apply (step_ok _ _ _ _ _ n Hr Hop); [by destruct (nv_pool s); simpl in *; [lia|]|done|lia]|].
  intros ptrs' s' (ls' & cur' & Hr' & Ea & Hp' & Hn'). rewrite <- Ea in Hops.
  eapply wp_mono; [apply (IH _ _ _ _ (S n) Hr' Hops); [lia|done|lia]|]. cbn beta. intros ptrs2 s2 (ls2 & cur2 & ? & E2 & ?).
  exists ls2, cur2. split; [done|]. split; [|done]. rewrite E2, Ea. done.
Qed.

(** C30: as long as no page is mapped twice in a space and the allocator has pages, any sequence of
    [protect], [map] and [__am_switch] runs to its end without a failed assertion, and then
    the host's mappings are exactly the pages of the current space with their protections. *)
Theorem native_spaces ops pool :
  NoDup pool -> Forall (fun p => p <> 0) pool -> (length ops <= length pool)%nat -> (length ops < fuel)%nat ->
  ops_ok __am_pgsize no_spaces ops = true ->
  wp (code_run __am_pgsize sys_pgsz fuel [] ops) (nv_init pool) (fun _ s' =>
    nv_host s' = visible_pages (space_run no_spaces ops)).
Proof using Hsys Hdiv Hpmem Hpg Hspace.
  intros Hnd H0 Hlen Hfuel Hops.
  eapply wp_mono; [apply (run_ok ops _ [] [] None 0 (rep_init pool Hnd H0)); [done|done|by constructor|done]|].
  intros ptrs s' (ls & cur & Hr & Ea & _). by rewrite (visible_abs_spaces _ _ _ _ Hr), Ea.
Qed.

(** ** A page mapped twice *)

(** From every node in [C] the list goes on to a node in [C]. *)
Definition cyclic (nodes : gmap Z PageMap) (C : list Z) : Prop :=
  forall p, p ∈ C -> p <> 0 /\ exists n, nodes !! p = Some n /\ pm_next n ∈ C /\ page_ok __am_pgsize (pm_va n) (pm_pa n).

Lemma cyclic_flag nodes C p n b :
  nodes !! p = Some n -> cyclic nodes C -> cyclic (<[p := set_mapped b n]> nodes) C.
Proof.
  intros Hp Hc q Hq. destruct (Hc q Hq) as (H0 & n' & Hn' & Hx). split; [done|]. destruct (decide (p = q)) as [<-|Hne].
  - rewrite Hp in Hn'. injection Hn' as <-. exists (set_mapped b n). by rewrite lookup_insert_eq.
  - exists n'. by rewrite lookup_insert_ne.
Qed.

Lemma map_loop_cycle k C p s :
  cyclic (nv_nodes s) C -> p ∈ C -> map_loop sys_pgsz k p s = Fault OutOfFuel.
Proof using Hsys Hdiv Hpmem.
  revert p s. induction k as [|k IH]; intros p s Hc Hp; [done|]. cbn [map_loop].
  destruct (Hc p Hp) as (H0 & n & Hn & Hx & Hok). destruct (Z.eqb_spec p 0); [done|].
  eapply fault_bind; [by apply node_at_spec|]. intros ? ? [-> ->].
  apply (fault_bind _ _ _ (fun _ s' => s' = s)); [apply wp_assert; [apply Hok|done]|]. intros _ ? ->.
  eapply fault_bind; [by apply (pmem_map_spec _ _ Hsys Hdiv Hpmem)|]. intros _ ? ->.
  eapply fault_bind; [by apply put_node_spec|]. intros _ ? ->.
  eapply fault_bind; [apply node_at_spec, lookup_insert_eq|]. intros ? ? [-> ->].
  apply IH; [|done]. by apply (cyclic_flag (nv_nodes s)).
Qed.

(** In the list [l1 ++ e :: l2] the nodes before [e] lead to [e]. *)
Lemma chain_prefix nodes b hd l1 e l2 :
  chain nodes b hd (l1 ++ e :: l2) ->
  hd ∈ e_node <$> (l1 ++ [e]) /\
  (forall e', e' ∈ l1 -> e_node e' <> 0 /\ exists next,
    nodes !! e_node e' = Some (mk_pm (e_va e') (e_pa e') next (e_prot e') b (page_key (e_va e'))) /\ next ∈ e_node <$> (l1 ++ [e])) /\
  e_node e <> 0 /\ exists next, nodes !! e_node e = Some (mk_pm (e_va e) (e_pa e) next (e_prot e) b (page_key (e_va e))).
Proof.
  revert hd. induction l1 as [|e1 l1 IH]; intros hd Hc; cbn [app chain] in Hc; destruct Hc as (-> & H0 & next & He & Hc).
  - split; [by left|]. split; [by intros e' ?%not_elem_of_nil|]. eauto.
  - destruct (IH _ Hc) as (Hx & Hall & Hlast). rewrite <- app_comm_cons, fmap_cons. split; [by left|]. split; [|done].
    intros e' [->|He']%elem_of_cons; [split; [done|]; exists next; split; [done|by right]|].
    destruct (Hall e' He') as (? & n' & ? & ?). split; [done|]. exists n'. split; [done|by right].
Qed.

(** The list of [h] runs into a cycle of its own nodes; the other spaces are in order. *)
Definition broken (s : nvm) (ptrs : list Z) (ls : list (list entry)) (i : nat) (h : Z) (l : list entry) : Prop :=
  exists C hd, (vm_list <$> nv_heads s !! h = Some hd) /\ (hd ∈ C) /\ C ⊆ e_node <$> l /\ cyclic (nv_nodes s) C /\
  forall j h' l', j <> i -> ptrs !! j = Some h' -> ls !! j = Some l' -> space_ok s h' l'.

(** [map] of a page of the list makes it a cycle. *)
Lemma map_again s ptrs ls cur i h l e pa prot :
  rep s ptrs ls cur -> ptrs !! i = Some h -> ls !! i = Some l -> e ∈ l -> page_ok __am_pgsize (e_va e) pa ->
  wp (map __am_pgsize sys_pgsz h (e_va e) pa prot) s (fun _ s' =>
    broken s' ptrs ls i h l /\ nv_cur s' = nv_cur s /\ nv_enabled s' = true).
Proof using Hsys Hdiv Hpmem.
  intros Hr Hi Hl He Hok. pose proof Hok as (Hu & Ha & Hpa & _).
  destruct (r_space _ _ _ _ Hr _ _ _ Hi Hl) as [Hh0 Lo (hd & nr & E & Hch)].
  pose proof (keys_hit l e Lo He) as Hkey. destruct (list_elem_of_split _ _ He) as (l1 & l2 & El). rewrite El in Hch.
  destruct (chain_prefix _ _ _ _ _ _ Hch) as (Hhd & Hbefore & He0 & next & Hne).
  unfold map. apply wp_bind, wp_assert; [done|]. apply wp_bind, wp_assert; [by rewrite Ha|].
  apply wp_bind, wp_assert; [by rewrite Hpa|]. apply wp_bind, wp_assert; [by destruct (Z.eqb_spec h 0)|].
  apply wp_bind, wp_mono with (Q := fun pp s' => pp = e_node e /\ s' = s).
  { unfold page_node. apply wp_bind. eapply wp_mono; [by apply head_at_spec|]. intros ? ? [-> ->]. cbn [vm_hash].
    rewrite Hkey. by apply wp_ret. }
  intros ? ? [-> ->]. eapply wp_mono; [by eapply (link_page_spec _ _ Hsys Hdiv Hpmem)|]. intros _ s' ->. cbn [pm_key].
  split; [|split; [done|apply Hr]]. exists (e_node <$> (l1 ++ [e])), (e_node e). cbn.
  assert (forall e', e' ∈ l1 -> e_node e <> e_node e') as Hdist.
  { pose proof (lo_node _ Lo) as Hnd. rewrite El, fmap_app, fmap_cons in Hnd. intros e' He' Eq.
    apply NoDup_app in Hnd as (_ & Hd & _). apply (Hd (e_node e')); [by apply list_elem_of_fmap_2|rewrite <- Eq; by left]. }
  assert (forall e', e' ∈ l1 ++ [e] -> e' ∈ l) as Hsub.
  { intros e' [He'|He']%elem_of_app; [|by apply list_elem_of_singleton in He' as ->]. rewrite El. apply elem_of_app. by left. }
  split; [by rewrite lookup_insert_eq|]. split; [rewrite fmap_app; apply elem_of_app; right; by left|]. split; [|split].
  - intros p (e' & -> & He')%list_elem_of_fmap. by apply list_elem_of_fmap_2, Hsub.
  - intros p (e' & -> & He')%list_elem_of_fmap. apply elem_of_app in He' as [He'|He']; [|apply list_elem_of_singleton in He' as ->].
    + destruct (Hbefore e' He') as (H0 & n' & Hn' & Hx). split; [done|]. rewrite lookup_insert_ne by (by apply Hdist).
      eexists. split; [exact Hn'|]. split; [done|]. pose proof (lo_pages _ Lo) as HF. unfold entries_ok in HF.
      rewrite Forall_forall in HF. apply (HF e'), Hsub, elem_of_app. by left.
    + split; [done|]. rewrite lookup_insert_eq. eexists. done.
  - intros j h' l' Hj Hh' Hl'. apply (space_ok_frame s); cbn; [| |done|by apply (r_space _ _ _ _ Hr j)].
    + apply lookup_insert_ne. intros <-. apply Hj. by eapply r_ptr_unique.
    + intros q Hq. apply lookup_insert_ne. intros <-.
      apply (in_use_apart _ _ _ _ _ _ _ (e_node e) (r_fresh _ _ _ _ Hr) Hl' Hl Hj Hq). by apply list_elem_of_fmap_2.
Qed.

(** The switch to a broken space, from another one. *)
Lemma switch_hangs s0 s ptrs ls cur i h l :
  rep s0 ptrs ls cur -> ptrs !! i = Some h -> ls !! i = Some l -> cur <> Some i -> Forall (fun l => length l < fuel)%nat ls ->
  broken s ptrs ls i h l -> nv_cur s = nv_cur s0 -> nv_enabled s = true ->
  __am_switch sys_pgsz fuel h s = Fault OutOfFuel.
Proof using Hsys Hdiv Hpmem.
  intros Hr Hi Hl Hcur Hfuel (C & hd & Ehd & Hhd & HC & Hcyc & Hothers) Ecur Een.
  destruct (r_space _ _ _ _ Hr _ _ _ Hi Hl) as [Hh0 _ _]. unfold __am_switch.
  apply (fault_bind _ _ _ (fun r s' => r = s /\ s' = s)); [by apply wp_get|]. intros ? ? [-> ->]. rewrite Een. cbn [negb].
  assert (h <> nv_cur s) as Hne by (rewrite Ecur, (r_cur_iff _ _ _ _ _ _ Hr Hi); done).
  destruct (Z.eqb_spec h (nv_cur s)) as [|_]; [done|]. unfold mbind at 1, M_bind.
  assert (forall A (m : M nvm A) B (k : A -> M nvm B), m s = Fault OutOfFuel ->
    match m s with Done a s' => k a s' | Fault e => Fault e end = Fault OutOfFuel) as Hfst by (by intros ???? ->).
  apply Hfst. clear Hfst.
  apply (fault_bind _ _ _ (fun _ s' => nv_heads s' = nv_heads s /\ forall q, q ∈ C -> nv_nodes s' !! q = nv_nodes s !! q)).
  - rewrite Ecur, (r_cur _ _ _ _ Hr). pose proof (r_cur_ok _ _ _ _ Hr) as Hok. destruct cur as [j|]; [|by apply wp_ret].
    simpl. destruct Hok as [h' Hj]. destruct (r_list _ _ _ _ _ _ Hr Hj) as (l' & Hl' & _).
    assert (j <> i) as Hji by congruence. pose proof (Hothers j h' l' Hji Hj Hl') as [Hh'0 [Lo Lv Ln] (hd' & nr & E & Hch)].
    rewrite Hj. cbn [from_option id]. destruct (Z.eqb_spec h' 0); [done|].
    apply wp_bind. eapply wp_mono; [by apply head_at_spec|]. intros ? ? [-> ->]. cbn [vm_list].
    rewrite bool_decide_true in Hch by (by rewrite Ecur, (r_cur_iff _ _ _ _ _ _ Hr Hj)).
    eapply wp_mono; [apply (unmap_loop_spec _ _ Hsys Hdiv fuel l'); [exact (Forall_lookup_1 _ _ _ _ Hfuel Hl')|done..]|].
    intros _ s' [(H1 & _ & _ & _ & _ & Hf) _]. split; [done|]. intros q Hq. apply Hf. intros Hq'.
    apply (in_use_apart _ _ _ _ _ _ _ q (r_fresh _ _ _ _ Hr) Hl' Hl Hji Hq'). by apply HC.
  - intros _ s' [EH EN]. destruct (Z.eqb_spec h 0); [done|]. destruct (nv_heads s !! h) as [hd0|] eqn:E0; [|done].
    injection Ehd as <-. rewrite <- EH in E0.
    eapply fault_bind; [by apply head_at_spec|]. intros ? ? [-> ->]. apply (map_loop_cycle _ C); [|done].
    intros p Hp. rewrite EN by done. by apply Hcyc.
Qed.

Lemma code_run_app ops1 ops2 ptrs s :
  code_run __am_pgsize sys_pgsz fuel ptrs (ops1 ++ ops2) s =
  (ptrs' ← code_run __am_pgsize sys_pgsz fuel ptrs ops1; code_run __am_pgsize sys_pgsz fuel ptrs' ops2) s.
Proof.
  revert ptrs s. induction ops1 as [|op ops1 IH]; intros ptrs s; [done|]. cbn [app code_run]. unfold mbind, M_bind in *.
  destruct (code_step _ _ _ ptrs op s); [apply IH|done].
Qed.

(** C31: [map] of a page that is mapped already in a space that is not current succeeds, but the list
    of the space is a cycle from then on: whatever happened before and however long it may
    run, the next [__am_switch] to the space does not end. *)
Theorem remap_hangs ops pool i m va pa prot :
  NoDup pool -> Forall (fun p => p <> 0) pool -> (length ops <= length pool)%nat -> (length ops < fuel)%nat ->
  ops_ok __am_pgsize no_spaces ops = true -> sp_maps (space_run no_spaces ops) !! i = Some m ->
  is_Some (m !! va) -> page_fits __am_pgsize va pa = true -> sp_cur (space_run no_spaces ops) <> Some i ->
  wp (code_run __am_pgsize sys_pgsz fuel [] (ops ++ [Map i va pa prot])) (nv_init pool) (fun _ _ => True) /\
  code_run __am_pgsize sys_pgsz fuel [] (ops ++ [Map i va pa prot; Switch (Some i)]) (nv_init pool) = Fault OutOfFuel.
Proof using Hsys Hdiv Hpmem Hpg Hspace.
  intros Hnd H0 Hlen Hfuel Hops Hm Hva Hfit Hcur. rewrite code_run_app. pose proof (page_fits_ok _ _ Hfit) as Hok.
  pose proof (run_ok ops _ [] [] None 0 (rep_init pool Hnd H0) Hops Hlen ltac:(by constructor) Hfuel) as Hrun.
  assert (forall ptrs s ls cur, rep s ptrs ls cur -> abs_spaces ls cur = space_run no_spaces ops -> exists h l e,
    ptrs !! i = Some h /\ ls !! i = Some l /\ e ∈ l /\ e_va e = va /\ cur <> Some i) as Hfind.
  { intros ptrs s ls cur Hr Ea. rewrite <- Ea in Hm, Hcur. apply abs_spaces_lookup in Hm as (l & Hl & ->).
    destruct (lookup_lt_is_Some_2 ptrs i) as [h Hi]; [rewrite (r_len _ _ _ _ Hr); by eapply lookup_lt_Some|].
    destruct (decide (va ∈ e_va <$> l)) as [(e & -> & He)%list_elem_of_fmap|Hni]; [by exists h, l, e|].
    apply pages_lookup in Hni. rewrite Hni in Hva. by destruct Hva. }
  split.
  - apply wp_done. rewrite code_run_app. apply wp_done, wp_bind. eapply wp_mono; [exact Hrun|].
    intros ptrs s (ls & cur & Hr & Ea & _). destruct (Hfind _ _ _ _ Hr Ea) as (h & l & e & Hi & Hl & He & <- & _).
    cbn [code_run code_step]. rewrite Hi. apply wp_bind, wp_bind. eapply wp_mono; [by apply (map_again s ptrs ls cur i h l)|].
    intros _ s' _. by do 2 apply wp_ret.
  - eapply fault_bind; [exact Hrun|]. intros ptrs s (ls & cur & Hr & Ea & Hls).
    destruct (Hfind _ _ _ _ Hr Ea) as (h & l & e & Hi & Hl & He & <- & Hci). cbn [code_run code_step]. rewrite Hi. cbn [from_option id].
    apply (fault_bind _ _ _ (fun ptrs' s' => ptrs' = ptrs /\ broken s' ptrs ls i h l /\ nv_cur s' = nv_cur s /\ nv_enabled s' = true)).
    + apply wp_bind. eapply wp_mono; [by apply (map_again s ptrs ls cur i h l)|]. intros ? s' Hs'. by apply wp_ret.
    + intros ? s' (-> & Hb & Ec & Een). cbn [mbind option_bind]. rewrite Hi. cbn [from_option id].
      unfold mbind, M_bind. by rewrite (switch_hangs s s' ptrs ls cur i h l) by done.
Qed.
End Switch.
End Invariant.

(** ** A program with two spaces *)

Definition demo_pool : list Z := [0x2000000; 0x2001000; 0x2002000; 0x2003000; 0x2004000; 0x2005000; 0x2006000; 0x2007000].

(** Two spaces with the same page at different places, and switches between them and the kernel. *)
Definition demo_space_ops : list space_op :=
  [Protect; Map 0 0x40000000 0x1000000 MMAP_READ; Protect; Switch (Some 0%nat); Map 1 0x40000000 0x1001000 MMAP_WRITE;
   Map 0 0x40001000 0x1002000 3; Switch None; Switch (Some 1%nat)].

Lemma page_sizes : (4096 | 4096) /\ (4096 | PMEM_START) /\ (4096 | USER_START).
Proof. split; [by exists 1|]. split; [by exists 4096|by exists 262144]. Qed.

Lemma demo_pool_ok : NoDup demo_pool /\ Forall (fun p => p <> 0) demo_pool.
Proof. split; [apply (bool_decide_unpack _); vm_compute; exact I|repeat constructor; done]. Qed.

Lemma native_spaces_witness :
  wp (code_run 4096 4096 20 [] demo_space_ops) (nv_init demo_pool) (fun _ s' =>
    nv_host s' = visible_pages (space_run no_spaces demo_space_ops)) /\
  visible_pages (space_run no_spaces demo_space_ops) = {[ 0x40000000 := (0x1000, 2) ]}.
Proof.
  split; [|vm_compute; reflexivity]. destruct page_sizes as (H1 & H2 & H3). destruct demo_pool_ok as [H4 H5].
  apply (native_spaces 4096 4096); [done|exact H1|exact H2|done|exact H3|exact H4|exact H5|simpl; lia|simpl; lia|reflexivity].
Defined.

(** The page of the first space is mapped again while the second is current. *)
Lemma remap_hangs_witness :
  wp (code_run 4096 4096 20 [] (demo_space_ops ++ [Map 0 0x40001000 0x1003000 3])) (nv_init demo_pool) (fun _ _ => True) /\
  code_run 4096 4096 20 [] (demo_space_ops ++ [Map 0 0x40001000 0x1003000 3; Switch (Some 0%nat)]) (nv_init demo_pool) = Fault OutOfFuel.
Proof.
  destruct page_sizes as (H1 & H2 & H3). destruct demo_pool_ok as [H4 H5].
  apply (remap_hangs 4096 4096 ltac:(done) H1 H2 ltac:(done) H3 20 demo_space_ops demo_pool 0 (<[0x40001000 := (0x1002000, 3)]> {[0x40000000 := (0x1000000, 1)]}));
    [exact H4|exact H5|simpl; lia|simpl; lia|reflexivity|vm_compute; reflexivity|by eexists|reflexivity|done].
Defined.

Example demo_spaces_run :
  exists ptrs s, code_run 4096 4096 20 [] demo_space_ops (nv_init demo_pool) = Done ptrs s /\ map_to_list (nv_host s) = [(0x40000000, (0x1000, 2))].
Proof. eexists _, _. split; [vm_compute; reflexivity|vm_compute; reflexivity]. Qed.
