(* ===== verification/NatCte.v ===== *)
(** * Interrupts of the native port: am/src/native/cte.c

    Signals stand for interrupts and exceptions. The handler of a signal saves the interrupted
    context on a stack and returns into [irq_handle], which calls the client and ends in a call
    of an address that cannot be executed: the signal this raises restores a context. The host
    is what delivers a signal with the registers of the interrupted code and goes on with the
    registers the handler leaves ([trap]). *)

From stdpp Require Import prelude gmap.
From S2P Require Import Prelude Mem X86 Cte KStdio NatVme NatSpace.

(** ** Data *)

(** The registers and the signal mask the host saves, a [ucontext_t]; [uc_rest] is what the code
    only copies. *)
Record ucontext_t : Type := mk_uc { uc_rip : Z; uc_rsp : Z; uc_rdi : Z; uc_rsi : Z; uc_sigmask : gset Z; uc_rest : list Z }.

(** arch/native.h, lines 10-16, up to the red zone. *)
Record NContext : Type := mk_nctx { nx_ksp : Z; nx_vm_head : Z; nx_uc : ucontext_t }.

(** platform.h, lines 18-24, with the memory of virtual memory and the saved contexts by
    address; [vm_head] is in [nc_vm]. *)
Record native_cpu : Type := mk_ncpu { nc_vm : nvm; nc_ksp : Z; nc_ev : Event; nc_ctx : gmap Z NContext }.

(** Signals and codes of the host. *)
Definition SIGUSR1 : Z := 10.
Definition SIGSEGV : Z := 11.
Definition SIGUSR2 : Z := 12.
Definition SIGVTALRM : Z := 26.
Definition SEGV_MAPERR : Z := 1.
Definition SEGV_ACCERR : Z := 2.

(** platform.c, lines 137-142 and 205-207. *)
Definition __am_intr_sigmask : gset Z := {[ SIGVTALRM; SIGUSR1 ]}.
Definition __am_is_sigmask_sti (mask : gset Z) : bool := negb (bool_decide (SIGVTALRM ∈ mask)).

(** Lines 187-199, on the mask of the process. *)
Definition ienabled (mask : gset Z) : bool := __am_is_sigmask_sti mask.
Definition iset (enable : bool) (mask : gset Z) : gset Z :=
  if enable then mask ∖ __am_intr_sigmask else mask ∪ __am_intr_sigmask.

Definition SYSCALL_INSTR_LEN : Z := 7.
Definition TRAP_SYSCALL : Z := 0x100000.
Definition TRAP_IRET : Z := 0x100008.

Definition set_rip (rip : Z) (uc : ucontext_t) : ucontext_t :=
  mk_uc rip (uc_rsp uc) (uc_rdi uc) (uc_rsi uc) (uc_sigmask uc) (uc_rest uc).

Definition set_ev (ev : Event) : M native_cpu unit := modify (fun s => mk_ncpu (nc_vm s) (nc_ksp s) ev (nc_ctx s)).
Definition set_ksp (ksp : Z) : M native_cpu unit := modify (fun s => mk_ncpu (nc_vm s) ksp (nc_ev s) (nc_ctx s)).
Definition put_ctx (p : Z) (c : NContext) : M native_cpu unit :=
  modify (fun s => mk_ncpu (nc_vm s) (nc_ksp s) (nc_ev s) (<[p := c]> (nc_ctx s))).
Definition ctx_at (p : Z) : M native_cpu NContext := fun s =>
  match nc_ctx s !! p with Some c => Done c s | None => Fault NullDeref end.

(** Memory holds something before a context is put there. *)
Definition blank : NContext := mk_nctx 0 0 (mk_uc 0 0 0 0 ∅ []).

(** An operation of vme.c. *)
Definition on_vm {A} (m : M nvm A) : M native_cpu A := fun s =>
  match m (nc_vm s) with
  | Done a vm => Done a (mk_ncpu vm (nc_ksp s) (nc_ev s) (nc_ctx s))
  | Fault e => Fault e
  end.

Section NatCte.
(** The program's text, the host's [sigprocmask], the addresses of [irq_handle] and
    [__am_kcontext_start], the size of a context and the template of contexts. *)
Context (_start _etext sigprocmask irq_handle_ __am_kcontext_start sizeof_Context : Z) (uc_example : ucontext_t).
Context (sys_pgsz : Z) (fuel : nat).
(** [user_handler]: the event and the saved context give the context to run. *)
Context (user_handler : Event -> Z -> M native_cpu Z).

Definition is_irq (e : event_kind) : bool := bool_decide (e = EVENT_IRQ_IODEV) || bool_decide (e = EVENT_IRQ_TIMER).

(** Lines 40-46. *)
Definition signal_safe (rip : Z) (trap_from_user : bool) : bool :=
  ((_start <=? rip) && (rip <? _etext)) || trap_from_user || (rip =? sigprocmask + 13).

(** Lines 66-70: where the context is saved. *)
Definition context_place (rsp : Z) : Z :=
  let rsp := u64 (rsp - sizeof_Context) in
  if negb (u64 (rsp + 8) mod 16 =? 0) then u64 (rsp - 8) else rsp.

(** Lines 39-82; the result is what [uc] becomes. *)
Definition setup_stack (event : event_kind) (uc : ucontext_t) : M native_cpu ucontext_t :=
  s ← get;
  let rip := uc_rip uc in
  let trap_from_user := __am_in_userspace rip (nc_vm s) in
  if is_irq event && negb (signal_safe rip trap_from_user) then mret uc else
  let rip := if bool_decide (event = EVENT_SYSCALL) then rip + SYSCALL_INSTR_LEN else rip in
  let uc := set_rip rip uc in
  let c := context_place (if trap_from_user then nc_ksp s else uc_rsp uc) in
  let old := default blank (nc_ctx s !! c) in
  put_ctx c (mk_nctx (nx_ksp old) (nx_vm_head old) uc);;
  mret (mk_uc irq_handle_ c c (uc_rsi uc) __am_intr_sigmask (uc_rest uc)).

(** Lines 84-90: [*uc] becomes the context whose address is in [rdi]. *)
Definition iret (uc : ucontext_t) : M native_cpu ucontext_t :=
  c ← ctx_at (uc_rdi uc);
  set_ksp (nx_ksp c);;
  mret (nx_uc c).

(** Lines 99-117, but for the restoring of a context: the event of a SIGSEGV. *)
Definition segv_event (si_code si_addr : Z) (in_userspace : bool) : M native_cpu Event :=
  let ev := if (si_code =? SEGV_ACCERR) && (si_addr =? TRAP_SYSCALL)
    then mk_event EVENT_SYSCALL 0 0 else mk_event EVENT_ERROR 0 0 in
  if in_userspace then
    c_assert (bool_decide (event ev = EVENT_ERROR));;
    if si_code =? SEGV_MAPERR then mret (mk_event EVENT_PAGEFAULT MMAP_READ si_addr)
    else if si_code =? SEGV_ACCERR then mret (mk_event EVENT_PAGEFAULT MMAP_WRITE si_addr)
    else raise AssertFail
  else mret ev.

(** Lines 92-126. *)
Definition sig_handler (sig si_code si_addr : Z) (uc : ucontext_t) : M native_cpu ucontext_t :=
  s ← get;
  if (sig =? SIGSEGV) && (si_code =? SEGV_ACCERR) && (si_addr =? TRAP_IRET) then
    set_ev (mk_event EVENT_ERROR 0 0);; iret uc
  else
    ev ← (if sig =? SIGUSR1 then mret (mk_event EVENT_IRQ_IODEV 0 0)
          else if sig =? SIGUSR2 then mret (mk_event EVENT_YIELD 0 0)
          else if sig =? SIGVTALRM then mret (mk_event EVENT_IRQ_TIMER 0 0)
          else if sig =? SIGSEGV then segv_event si_code si_addr (__am_in_userspace si_addr (nc_vm s))
          else mret (mk_event EVENT_ERROR 0 0));
    let ev := if bool_decide (event ev = EVENT_ERROR) then mk_event EVENT_ERROR si_code si_addr else ev in
    set_ev ev;;
    setup_stack (event ev) uc.

(** Lines 18-32; the result is the context that line 35 passes on. *)
Definition irq_handle (c : Z) : M native_cpu Z :=
  s ← get;
  cx ← ctx_at c;
  put_ctx c (mk_nctx (nc_ksp s) (nv_cur (nc_vm s)) (nx_uc cx));;
  c_assert (negb (bool_decide (event (nc_ev s) = EVENT_ERROR)));;
  c ← user_handler (nc_ev s) c;
  c_assert (negb (c =? 0));;
  cx ← ctx_at c;
  on_vm (__am_switch sys_pgsz fuel (nx_vm_head cx));;
  mret c.

(** The host: a signal that interrupts [uc], and the call of lines 34-35 at the end of
    [irq_handle]. The result is what runs next. *)
Definition trap (sig si_code si_addr : Z) (uc : ucontext_t) : M native_cpu ucontext_t :=
  uc ← sig_handler sig si_code si_addr uc;
  if uc_rip uc =? irq_handle_ then
    c ← irq_handle (uc_rdi uc);
    sig_handler SIGSEGV SEGV_ACCERR TRAP_IRET (mk_uc TRAP_IRET (uc_rsp uc) c (uc_rsi uc) (uc_sigmask uc) (uc_rest uc))
  else mret uc.

(** Lines 166-181. *)
Definition kcontext (kstack_end entry arg : Z) : M native_cpu Z :=
  s ← get;
  let c := kstack_end - sizeof_Context in
  let old := default blank (nc_ctx s !! c) in
  put_ctx c (mk_nctx (nx_ksp old) 0 (mk_uc __am_kcontext_start kstack_end arg entry ∅ (uc_rest uc_example)));;
  mret c.

(** vme.c, lines 123-137, for the [ptr] of the address space. *)
Definition ucontext (as_ptr kstack_end entry : Z) : M native_cpu Z :=
  let c := kstack_end - sizeof_Context in
  put_ctx c (mk_nctx kstack_end as_ptr (mk_uc entry USER_END (uc_rdi uc_example) (uc_rsi uc_example) ∅ (uc_rest uc_example)));;
  mret c.
End NatCte.

(** ** What a signal means *)

(** The events of the signals the program expects, by signal, code and address. *)
Inductive delivers (vm : nvm) : Z -> Z -> Z -> Event -> Prop :=
| deliver_iodev code addr : delivers vm SIGUSR1 code addr (mk_event EVENT_IRQ_IODEV 0 0)
| deliver_timer code addr : delivers vm SIGVTALRM code addr (mk_event EVENT_IRQ_TIMER 0 0)
| deliver_yield code addr : delivers vm SIGUSR2 code addr (mk_event EVENT_YIELD 0 0)
| deliver_syscall : delivers vm SIGSEGV SEGV_ACCERR TRAP_SYSCALL (mk_event EVENT_SYSCALL 0 0)
| deliver_unmapped addr : __am_in_userspace addr vm = true ->
    delivers vm SIGSEGV SEGV_MAPERR addr (mk_event EVENT_PAGEFAULT MMAP_READ addr)
| deliver_denied addr : __am_in_userspace addr vm = true ->
    delivers vm SIGSEGV SEGV_ACCERR addr (mk_event EVENT_PAGEFAULT MMAP_WRITE addr).

(** The interrupted registers as they are saved: behind the instruction of a system call. *)
Definition advance (ev : Event) (uc : ucontext_t) : ucontext_t :=
  set_rip (if bool_decide (event ev = EVENT_SYSCALL) then uc_rip uc + SYSCALL_INSTR_LEN else uc_rip uc) uc.

Lemma in_userspace_in_user addr vm : __am_in_userspace addr vm = true -> in_user addr = true.
Proof. unfold __am_in_userspace. by rewrite !andb_true_iff; intros [_ ?]. Qed.

Lemma trap_page_kernel vm : __am_in_userspace TRAP_SYSCALL vm = false.
Proof. unfold __am_in_userspace. replace (in_user TRAP_SYSCALL) with false by done. apply andb_false_r. Qed.

Section Proofs.
Context (_start _etext sigprocmask irq_handle_ __am_kcontext_start sizeof_Context : Z) (uc_example : ucontext_t).
Context (sys_pgsz : Z) (fuel : nat) (user_handler : Event -> Z -> M native_cpu Z).

Abbreviation sig_handler := (sig_handler _start _etext sigprocmask irq_handle_ sizeof_Context).
Abbreviation setup_stack := (setup_stack _start _etext sigprocmask irq_handle_ sizeof_Context).
Abbreviation trap := (trap _start _etext sigprocmask irq_handle_ sizeof_Context sys_pgsz fuel user_handler).
Abbreviation context_place := (context_place sizeof_Context).

Definition with_ev (ev : Event) (s : native_cpu) : native_cpu := mk_ncpu (nc_vm s) (nc_ksp s) ev (nc_ctx s).

Lemma sig_handler_event s sig code addr ev uc Q :
  delivers (nc_vm s) sig code addr ev ->
  wp (setup_stack (event ev) uc) (with_ev ev s) Q -> wp (sig_handler sig code addr uc) s Q.
Proof.
  intros Hd HQ. unfold NatCte.sig_handler. apply wp_bind, wp_get.
  destruct Hd as [| | | |addr Hu|addr Hu]; try (cbn; apply wp_bind, wp_ret, wp_bind, wp_modify; exact HQ).
  - cbn. unfold segv_event. rewrite trap_page_kernel. apply wp_bind, wp_ret, wp_bind, wp_modify. exact HQ.
  - cbn. unfold segv_event. rewrite Hu. apply wp_bind, wp_bind, wp_assert; [done|]. apply wp_ret, wp_bind, wp_modify. exact HQ.
  - pose proof (in_userspace_in_user _ _ Hu) as Hin. unfold in_user, USER_START in Hin. cbn. unfold segv_event. rewrite Hu.
    unfold TRAP_IRET, TRAP_SYSCALL. destruct (Z.eqb_spec addr 0x100008) as [|]; [lia|]. destruct (Z.eqb_spec addr 0x100000) as [|]; [lia|].
    apply wp_bind, wp_bind, wp_assert; [done|]. apply wp_ret, wp_bind, wp_modify. exact HQ.
Qed.

(** Interrupts are refused in code of libraries. *)
Definition refused (ev : Event) (uc : ucontext_t) (s : native_cpu) : bool :=
  is_irq (event ev) && negb (signal_safe _start _etext sigprocmask (uc_rip uc) (__am_in_userspace (uc_rip uc) (nc_vm s))).

(** The stack the context goes to, and its place there. *)
Definition trap_stack (uc : ucontext_t) (s : native_cpu) : Z :=
  if __am_in_userspace (uc_rip uc) (nc_vm s) then nc_ksp s else uc_rsp uc.

(** The state in which the client's handler runs. *)
Definition trapped (ev : Event) (uc : ucontext_t) (s : native_cpu) : native_cpu :=
  mk_ncpu (nc_vm s) (nc_ksp s) ev
    (<[context_place (trap_stack uc s) := mk_nctx (nc_ksp s) (nv_cur (nc_vm s)) (advance ev uc)]> (nc_ctx s)).

(** A signal whose event is handled: the handler runs with the interrupted context saved, and
    the context it gives is what goes on, in its own address space. *)
Lemma trap_spec s sig code addr ev uc Q :
  delivers (nc_vm s) sig code addr ev -> refused ev uc s = false ->
  wp (user_handler ev (context_place (trap_stack uc s))) (trapped ev uc s) (fun c s2 =>
    c <> 0 /\ exists cx, nc_ctx s2 !! c = Some cx /\
    wp (__am_switch sys_pgsz fuel (nx_vm_head cx)) (nc_vm s2) (fun _ vm =>
      Q (nx_uc cx) (mk_ncpu vm (nx_ksp cx) (mk_event EVENT_ERROR 0 0) (nc_ctx s2)))) ->
  wp (trap sig code addr uc) s Q.
Proof.
  intros Hd Href Hh. unfold NatCte.trap. apply wp_bind. eapply sig_handler_event; [exact Hd|].
  unfold NatCte.setup_stack. apply wp_bind, wp_get. unfold refused in Href. cbn [nc_vm with_ev]. rewrite Href.
  apply wp_bind, wp_modify, wp_ret. cbn [uc_rip uc_rdi]. rewrite Z.eqb_refl. apply wp_bind. unfold irq_handle.
  apply wp_bind, wp_get, wp_bind.
  eapply wp_eq; [unfold ctx_at; cbn; by rewrite lookup_insert_eq|]. apply wp_bind, wp_modify, wp_bind, wp_assert.
  { cbn. by destruct Hd. }
  cbn [nc_vm nc_ksp nc_ev nc_ctx nx_uc with_ev]. rewrite insert_insert_eq. apply wp_bind. eapply wp_mono; [exact Hh|].
  intros c s2 (Hc & cx & Hcx & Hsw). apply wp_bind, wp_assert; [by destruct (Z.eqb_spec c 0)|].
  apply wp_bind. eapply wp_eq; [unfold ctx_at; by rewrite Hcx|]. apply wp_bind.
  apply wp_done in Hsw as ([] & vm & Esw & HQ). eapply wp_eq; [unfold on_vm; by rewrite Esw|]. apply wp_ret.
  unfold NatCte.sig_handler. apply wp_bind, wp_get. cbn. apply wp_bind, wp_modify. unfold iret. apply wp_bind.
  eapply wp_eq; [unfold ctx_at; cbn; by rewrite Hcx|]. apply wp_bind, wp_modify, wp_ret. exact HQ.
Qed.

Lemma trap_refused s sig code addr ev uc :
  delivers (nc_vm s) sig code addr ev -> refused ev uc s = true -> irq_handle_ <> uc_rip uc ->
  wp (trap sig code addr uc) s (fun uc' s' => uc' = uc /\ s' = with_ev ev s).
Proof.
  intros Hd Href Hne. unfold NatCte.trap. apply wp_bind. eapply sig_handler_event; [exact Hd|].
  unfold NatCte.setup_stack. apply wp_bind, wp_get. unfold refused in Href. cbn [nc_vm with_ev]. rewrite Href.
  apply wp_ret. destruct (Z.eqb_spec (uc_rip uc) irq_handle_); [congruence|]. by apply wp_ret.
Qed.

(** The place of a context: aligned for the call of [irq_handle], and with its red zone below
    the stack pointer. *)
Lemma context_layout stack :
  0 < sizeof_Context -> sizeof_Context mod 8 = 0 -> stack mod 8 = 0 -> sizeof_Context + 8 <= stack < 2 ^ 64 - 8 ->
  let c := context_place stack in (c + 8) mod 16 = 0 /\ c + sizeof_Context <= stack /\ stack - sizeof_Context - 8 <= c.
Proof.
  intros H0 H8 Hs Hr. unfold NatCte.context_place. rewrite (wrap_small 64 (stack - sizeof_Context)) by lia.
  rewrite (wrap_small 64 (stack - sizeof_Context + 8)) by lia.
  destruct (Z.eqb_spec ((stack - sizeof_Context + 8) mod 16) 0) as [E|E]; cbn [negb]; cbv zeta.
  - repeat split; [exact E|lia|lia].
  - rewrite wrap_small by lia. repeat split; [revert E; zdm|lia|lia].
Qed.

Lemma switch_same vm : wp (__am_switch sys_pgsz fuel (nv_cur vm)) vm (fun _ vm' => vm' = vm).
Proof.
  unfold __am_switch. apply wp_bind, wp_get. destruct (nv_enabled vm); cbn [negb]; [|by apply wp_ret].
  rewrite Z.eqb_refl. apply wp_bind, wp_ret, wp_modify. by destruct vm.
Qed.

(** C32: interrupts are transparent: when the client's handler gives back the context it got, the
    interrupted code goes on with the registers and the signal mask it had, behind the
    instruction of a system call, whether the interrupt was handled or refused; the address
    space and the kernel stack pointer are as before. The context is saved below the stack
    pointer with its red zone, at an address aligned for the call, and no other saved
    context is touched. *)
Theorem native_trap_transparent s sig code addr ev uc :
  delivers (nc_vm s) sig code addr ev -> irq_handle_ <> uc_rip uc ->
  0 < sizeof_Context -> sizeof_Context mod 8 = 0 -> trap_stack uc s mod 8 = 0 -> sizeof_Context + 8 < trap_stack uc s < 2 ^ 64 - 8 ->
  (forall c s, user_handler ev c s = Done c s) ->
  wp (trap sig code addr uc) s (fun uc' s' =>
    uc' = advance ev uc /\ nc_vm s' = nc_vm s /\ nc_ksp s' = nc_ksp s /\
    exists c, (c + 8) mod 16 = 0 /\ c + sizeof_Context <= trap_stack uc s /\ (forall p, p <> c -> nc_ctx s' !! p = nc_ctx s !! p)).
Proof.
  intros Hd Hne H0 H8 Hs8 Hs Hh.
  destruct (context_layout (trap_stack uc s) H0 H8 Hs8 ltac:(lia)) as (Ha & Hlo & Hhi).
  destruct (refused ev uc s) eqn:Href.
  - eapply wp_mono; [by apply trap_refused|]. intros uc' s' [-> ->]. cbn. split; [|eauto 6].
    unfold refused in Href. apply andb_true_iff in Href as [Hirq _]. unfold advance.
    destruct Hd; try done; by destruct uc.
  - apply (trap_spec s sig code addr ev); [done|done|]. eapply wp_eq; [by apply Hh|]. split; [lia|]. cbn [nc_ctx trapped].
    eexists. split; [apply lookup_insert_eq|]. cbn [nc_vm nx_vm_head nx_uc nx_ksp]. eapply wp_mono; [apply switch_same|]. intros _ vm ->.
    cbn. repeat (split; [done|]). eexists. split; [exact Ha|]. split; [exact Hlo|]. intros p Hp. by apply lookup_insert_ne.
Qed.

(** A context switch: when the handler gives another context, that one's registers, signal mask
    and kernel stack pointer are what goes on, and the host's mappings are those of its
    address space. *)
Theorem native_context_switch __am_pgsize s sig code addr ev uc c cx ptrs ls cur i :
  0 < sys_pgsz -> (sys_pgsz | __am_pgsize) -> (sys_pgsz | PMEM_START) ->
  delivers (nc_vm s) sig code addr ev -> refused ev uc s = false ->
  rep __am_pgsize (nc_vm s) ptrs ls cur -> Forall (fun l => length l < fuel)%nat ls ->
  match i with Some i => is_Some (ptrs !! i) | None => True end -> nx_vm_head cx = default 0 (i ≫= fun i => ptrs !! i) -> c <> 0 ->
  wp (user_handler ev (context_place (trap_stack uc s))) (trapped ev uc s) (fun c' s' =>
    c' = c /\ nc_ctx s' !! c = Some cx /\ nc_vm s' = nc_vm s) ->
  wp (trap sig code addr uc) s (fun uc' s' =>
    uc' = nx_uc cx /\ nc_ksp s' = nx_ksp cx /\ nv_cur (nc_vm s') = nx_vm_head cx /\
    nv_host (nc_vm s') = match i ≫= fun i => ls !! i with Some l => host_view l | None => ∅ end).
Proof.
  intros Hsys Hdiv Hpmem Hd Href Hr Hfuel Hi Hhead Hc Hh. apply (trap_spec s sig code addr ev); [done|done|].
  eapply wp_mono; [exact Hh|]. intros c' s2 (-> & Hcx & Evm). split; [done|]. exists cx. split; [done|]. rewrite Evm, Hhead.
  eapply wp_mono; [by apply (switch_ok _ _ Hsys Hdiv Hpmem fuel _ ptrs ls cur i)|]. intros _ vm [Hr' _].
  cbn. split; [done|]. split; [done|]. rewrite (r_cur _ _ _ _ _ Hr'), (r_host _ _ _ _ _ Hr'). done.
Qed.

(** A signal that means nothing ends in the assertion of [irq_handle]. *)
Lemma trap_unknown s sig code addr uc :
  sig ∉ [SIGUSR1; SIGUSR2; SIGVTALRM; SIGSEGV] -> trap sig code addr uc s = Fault AssertFail.
Proof.
  intros Hsig. rewrite !not_elem_of_cons in Hsig. destruct Hsig as (H1 & H2 & H3 & H4 & _).
  eapply (fault_bind _ _ _ (fun uc' s' => uc_rip uc' = irq_handle_ /\ nc_ev s' = mk_event EVENT_ERROR code addr /\ is_Some (nc_ctx s' !! uc_rdi uc'))).
  - unfold NatCte.sig_handler. apply wp_bind, wp_get. apply Z.eqb_neq in H1, H2, H3, H4. rewrite H1, H2, H3, H4. cbn [andb].
    apply wp_bind, wp_ret, wp_bind, wp_modify. unfold NatCte.setup_stack. cbn. apply wp_bind, wp_get, wp_bind, wp_modify, wp_ret.
    split; [done|]. split; [done|]. cbn. by rewrite lookup_insert_eq.
  - intros uc' s' (-> & Hev & [cx Hcx]). rewrite Z.eqb_refl. unfold mbind at 1, M_bind.
    assert (irq_handle sys_pgsz fuel user_handler (uc_rdi uc') s' = Fault AssertFail) as ->; [|done]. unfold irq_handle.
    apply (fault_bind _ _ _ (fun r s2 => r = s' /\ s2 = s')); [by apply wp_get|]. intros ? ? [-> ->].
    apply (fault_bind _ _ _ (fun r s2 => s2 = s')); [eapply wp_eq; [unfold ctx_at; by rewrite Hcx|done]|]. intros ? ? ->.
    eapply (fault_bind _ _ _ (fun _ _ => True)); [by apply wp_modify|]. intros _ s2 _. by rewrite Hev.
Qed.
End Proofs.

(** ** Two processes *)

(** The text of the program, at addresses as a linker may choose them; a context of 1112 bytes. *)
Abbreviation demo_trap := (trap 0x5000000 0x5100000 0x7000000000 0x5000100 1112 4096 4).

(** A process at 0x40000000, current, with its pages given to the host; the kernel's stack ends at
    0x1100000. *)
Definition demo_cpu : native_cpu :=
  mk_ncpu (mk_nvm {[ 0x2001000 := mk_pm 0x40000000 0x1000000 0 3 true (page_key 0x40000000) ]}
             {[ 0x2000000 := mk_head 0x2001000 {[ page_key 0x40000000 := 0x2001000 ]} 524288 1 ]} [] 0x2000000
             {[ 0x40000000 := (0, 7) ]} true) 0x1100000 (mk_event EVENT_NULL 0 0) ∅.

Definition demo_uc : ucontext_t := mk_uc 0x40000123 0xbffffff0 1 2 ∅ [3; 4].

Lemma native_trap_transparent_witness :
  wp (demo_trap (fun _ c => mret c) SIGSEGV SEGV_ACCERR TRAP_SYSCALL demo_uc) demo_cpu (fun uc' s' =>
    uc' = set_rip 0x4000012a demo_uc /\ nc_vm s' = nc_vm demo_cpu /\ nc_ksp s' = 0x1100000 /\
    exists c, (c + 8) mod 16 = 0 /\ c + 1112 <= 0x1100000 /\ (forall p, p <> c -> nc_ctx s' !! p = None)).
Proof.
  apply (native_trap_transparent 0x5000000 0x5100000 0x7000000000 0x5000100 1112 4096 4 (fun _ c => mret c) demo_cpu
    SIGSEGV SEGV_ACCERR TRAP_SYSCALL (mk_event EVENT_SYSCALL 0 0) demo_uc); try done; apply deliver_syscall.
Defined.

Lemma demo_rep : rep 4096 (nc_vm demo_cpu) [0x2000000] [[mk_entry 0x2001000 0x40000000 0x1000000 3]] (Some 0%nat).
Proof.
  split; try done.
  - intros i h l Hi Hl. apply list_lookup_singleton_Some in Hi as [-> <-]. injection Hl as <-.
    split; [done| |].
    + split; [|apply NoDup_singleton|apply NoDup_singleton]. repeat constructor; done.
    + eexists _, _. split; [vm_compute; reflexivity|]. repeat (split; [done|]). eexists. split; [vm_compute; reflexivity|done].
  - apply (bool_decide_unpack _). vm_compute. exact I.
Qed.

(** The kernel's thread, as [kcontext] makes it. *)
Definition demo_thread : NContext := mk_nctx 0 0 (mk_uc 0x5000200 0x1200000 5 0x5000300 ∅ []).

(** On a timer interrupt the handler gives the thread: the process's page is taken away. *)
Lemma native_context_switch_witness :
  wp (demo_trap (fun _ c => put_ctx 0x11ff000 demo_thread;; mret 0x11ff000) SIGVTALRM 0 0 demo_uc) demo_cpu (fun uc' s' =>
    uc' = nx_uc demo_thread /\ nc_ksp s' = 0 /\ nv_cur (nc_vm s') = 0 /\ nv_host (nc_vm s') = ∅).
Proof.
  apply (native_context_switch 0x5000000 0x5100000 0x7000000000 0x5000100 1112 4096 4
    (fun _ c => put_ctx 0x11ff000 demo_thread;; mret 0x11ff000) 4096 demo_cpu SIGVTALRM 0 0 (mk_event EVENT_IRQ_TIMER 0 0) demo_uc
    0x11ff000 demo_thread [0x2000000] [[mk_entry 0x2001000 0x40000000 0x1000000 3]] (Some 0%nat) None).
  - done.
  - reflexivity.
  - by exists 4096.
  - apply deliver_timer.
  - vm_compute. reflexivity.
  - exact demo_rep.
  - repeat constructor.
  - done.
  - done.
  - done.
  - vm_compute. done.
Defined.
