(* ===== verification/NatMpe.v ===== *)
(** * Starting the processors of the native port: am/src/native/mpe.c, lines 8-38

    Processors are processes: [mpe_init] forks them, each child waits for a byte in a pipe, the
    parent sets the devices up and then writes a byte for each. Any interleaving of their steps
    is covered; a step is one call of the host. *)

From stdpp Require Import prelude.
From S2P Require Import Prelude.

(** The parent: in the loop of forks for [i], before the devices are set up, in the loop of
    writes for [i], in [entry]. *)
Inductive parent_pc : Type := Forking (i : nat) | Devices | Waking (i : nat) | ParentUser.

(** A child: not there, in [read], in [entry]. *)
Inductive child_pc : Type := NotForked | InRead | ChildUser.

#[export] Instance child_pc_eq_dec : EqDecision child_pc.
Proof. solve_decision. Defined.

(** The bytes in the pipe, whether the devices are set up, and the processes; child [i] is at
    [i - 1]. *)
Record nmp_state : Type := mk_nmp { nm_pipe : nat; nm_ioe : bool; nm_parent : parent_pc; nm_children : list child_pc }.

(** How many children run user code. *)
Fixpoint awake (l : list child_pc) : nat :=
  match l with [] => 0 | c :: l => (if decide (c = ChildUser) then 1 else 0) + awake l end.

Section Start.
(** [cpu_count()] and [__am_has_ioe]. *)
Context (ncpu : nat) (Hncpu : (0 < ncpu)%nat) (has_ioe : bool).

Inductive nmp_step : nmp_state -> nmp_state -> Prop :=
| do_fork s i : nm_parent s = Forking i -> (i < ncpu)%nat ->
    nmp_step s (mk_nmp (nm_pipe s) (nm_ioe s) (Forking (i + 1)) (<[pred i := InRead]> (nm_children s)))
| forks_done s i : nm_parent s = Forking i -> (ncpu <= i)%nat ->
    nmp_step s (mk_nmp (nm_pipe s) (nm_ioe s) Devices (nm_children s))
| set_up s : nm_parent s = Devices ->
    nmp_step s (mk_nmp (nm_pipe s) has_ioe (Waking 1) (nm_children s))
| do_write s i : nm_parent s = Waking i -> (i < ncpu)%nat ->
    nmp_step s (mk_nmp (S (nm_pipe s)) (nm_ioe s) (Waking (i + 1)) (nm_children s))
| writes_done s i : nm_parent s = Waking i -> (ncpu <= i)%nat ->
    nmp_step s (mk_nmp (nm_pipe s) (nm_ioe s) ParentUser (nm_children s))
| do_read s j n : nm_children s !! j = Some InRead -> nm_pipe s = S n ->
    nmp_step s (mk_nmp n (nm_ioe s) (nm_parent s) (<[j := ChildUser]> (nm_children s))).

Definition nmp_init : nmp_state := mk_nmp 0 false (Forking 1) (replicate (pred ncpu) NotForked).

Definition nmp_reachable : nmp_state -> Prop := rtc nmp_step nmp_init.

(** All processors are in user code. *)
Definition all_user (s : nmp_state) : Prop := nm_parent s = ParentUser /\ Forall (eq ChildUser) (nm_children s).

Definition somebody_user (s : nmp_state) : Prop := nm_parent s = ParentUser \/ ChildUser ∈ nm_children s.

(** ** The invariant *)

Definition before (s : nmp_state) (i : nat) : Prop :=
  nm_pipe s = 0%nat /\ forall j c, nm_children s !! j = Some c -> c = if decide (j < pred i)%nat then InRead else NotForked.

(** [k] bytes were written. *)
Definition after (s : nmp_state) (k : nat) : Prop :=
  nm_ioe s = has_ioe /\ (nm_pipe s + awake (nm_children s) = k)%nat /\ Forall (fun c => c <> NotForked) (nm_children s).

Definition nmp_inv (s : nmp_state) : Prop :=
  length (nm_children s) = pred ncpu /\
  match nm_parent s with
  | Forking i => (1 <= i <= ncpu)%nat /\ before s i
  | Devices => before s ncpu
  | Waking i => (1 <= i <= ncpu)%nat /\ after s (pred i)
  | ParentUser => after s (pred ncpu)
  end.

Lemma awake_insert l j c c' :
  l !! j = Some c ->
  (awake (<[j := c']> l) + (if decide (c = ChildUser) then 1 else 0) = awake l + (if decide (c' = ChildUser) then 1 else 0))%nat.
Proof.
  revert j. induction l as [|x l IH]; intros [|j] Hj; simpl in *; [done|done| |].
  - injection Hj as ->. repeat case_decide; lia.
  - specialize (IH j Hj). lia.
Qed.

Lemma awake_none l : Forall (fun c => c <> ChildUser) l -> awake l = 0%nat.
Proof. induction 1 as [|c l Hc _ IH]; [done|]. simpl. by rewrite decide_False. Qed.

Lemma awake_le l : (awake l <= length l)%nat /\ (awake l = length l -> Forall (eq ChildUser) l).
Proof.
  induction l as [|c l [IH1 IH2]]; simpl; [split; [lia|constructor]|]. case_decide as E; (split; [lia|]); intros Hl; [|lia].
  constructor; [done|]. apply IH2. lia.
Qed.

Lemma nmp_inv_init : nmp_inv nmp_init.
Proof using Hncpu.
  split; [apply length_replicate|]. split; [lia|]. split; [done|]. intros j c [-> _]%lookup_replicate. by rewrite decide_False by lia.
Qed.

Lemma nmp_inv_step s s' : nmp_inv s -> nmp_step s s' -> nmp_inv s'.
Proof using Hncpu.
  intros [Hl Hinv] Hs. destruct Hs as [s i Hp Hi|s i Hp Hi|s Hp|s i Hp Hi|s i Hp Hi|s j n Hj Hn];
    (split; [cbn; by rewrite ?length_insert|]); rewrite ?Hp in Hinv; cbn [nm_parent].
  - destruct Hinv as (Hr & H0 & Hc). split; [lia|]. split; [done|]. cbn. intros j c Hj.
    destruct (decide (j = pred i)) as [->|Hne].
    + rewrite list_lookup_insert_eq in Hj by lia. injection Hj as <-. by rewrite decide_True by lia.
    + rewrite list_lookup_insert_ne in Hj by done. rewrite (Hc j c Hj). repeat case_decide; (done || lia).
  - destruct Hinv as (Hr & Hb). by replace ncpu with i by lia.
  - destruct Hinv as [H0 Hc]. split; [lia|]. split; [done|]. cbn. rewrite H0. split.
    + rewrite awake_none; [done|]. apply Forall_lookup. intros j c Hj. rewrite (Hc j c Hj). by case_decide.
    + apply Forall_lookup. intros j c Hj. pose proof (lookup_lt_Some _ _ _ Hj). rewrite (Hc j c Hj). by rewrite decide_True by lia.
  - destruct Hinv as (Hr & H1 & H2 & H3). split; [lia|]. split; [done|]. cbn. split; [lia|done].
  - destruct Hinv as (Hr & Ha). by replace ncpu with i by lia.
  - pose proof (awake_insert _ _ _ ChildUser Hj) as Ha. rewrite decide_False, decide_True in Ha by done.
    assert (forall k, after s k -> after (mk_nmp n (nm_ioe s) (nm_parent s) (<[j := ChildUser]> (nm_children s))) k) as Haft.
    { intros k (H1 & H2 & H3). split; [done|]. cbn. split; [lia|]. by apply Forall_insert. }
    assert (forall i, ~ before s i) as Hbef by (intros i [H0 _]; lia).
    destruct (nm_parent s); [destruct Hinv as [_ Hb]; by apply Hbef in Hb|by apply Hbef in Hinv| |by apply Haft].
    destruct Hinv as [Hr Hb]. split; [done|by apply Haft].
Qed.

Lemma nmp_inv_reachable s : nmp_reachable s -> nmp_inv s.
Proof using Hncpu.
  apply (rtc_ind_r (R := nmp_step) nmp_inv nmp_init); [apply nmp_inv_init|].
  intros s1 s2 _ Hs Hi. by apply (nmp_inv_step s1).
Qed.

(** Steps that are left at most. *)
Definition remaining (s : nmp_state) : nat :=
  (match nm_parent s with
   | Forking i => (ncpu - i) + ncpu + 2
   | Devices => ncpu + 1
   | Waking i => ncpu - i + 1
   | ParentUser => 0
   end + (length (nm_children s) - awake (nm_children s)))%nat.

Lemma remaining_decreases s s' : nmp_inv s -> nmp_step s s' -> (remaining s' < remaining s)%nat.
Proof using Hncpu.
  intros [Hl Hinv] Hs. unfold remaining. pose proof (awake_le (nm_children s)) as [Hle _].
  destruct Hs as [s i Hp Hi|s i Hp Hi|s Hp|s i Hp Hi|s i Hp Hi|s j n Hj Hn]; cbn; rewrite ?Hp, ?length_insert in *; try lia.
  - destruct Hinv as (Hr & H0 & Hc). destruct (lookup_lt_is_Some_2 (nm_children s) (pred i)) as [c Ec]; [lia|].
    pose proof (Hc _ _ Ec) as Ec'. rewrite decide_False in Ec' by lia. subst c.
    pose proof (awake_insert _ _ _ InRead Ec) as Ha. rewrite !decide_False in Ha by done. lia.
  - pose proof (awake_insert _ _ _ ChildUser Hj) as Ha. rewrite decide_False, decide_True in Ha by done. pose proof (awake_le (<[j := ChildUser]> (nm_children s))) as [Hle' _].
    rewrite length_insert in Hle'. destruct (nm_parent s); lia.
Qed.

Lemma nmp_progress s : nmp_inv s -> all_user s \/ exists s', nmp_step s s'.
Proof using Hncpu.
  intros [Hl Hinv]. destruct (nm_parent s) as [i| |i|] eqn:Hp.
  - right. destruct (decide (i < ncpu)%nat); eexists; [by eapply do_fork|eapply forks_done; [done|lia]].
  - right. eexists. by apply set_up.
  - right. destruct (decide (i < ncpu)%nat); eexists; [by eapply do_write|eapply writes_done; [done|lia]].
  - destruct Hinv as (_ & Hsum & Hnf). destruct (nm_pipe s) as [|n] eqn:En.
    + left. split; [done|]. apply awake_le. lia.
    + right. assert (exists j, nm_children s !! j = Some InRead) as [j Hj]; [|eexists; by eapply do_read].
      destruct (decide (Exists (eq InRead) (nm_children s))) as [(c & Hc & <-)%Exists_exists|Hno].
      * by apply list_elem_of_lookup in Hc.
      * exfalso. apply not_Exists_Forall in Hno; [|intros ?; apply _]. assert (awake (nm_children s) = length (nm_children s)) as E; [|lia].
        revert Hno Hnf. clear. induction (nm_children s) as [|c l IH]; [done|]. intros [H1 H2]%Forall_cons [H3 H4]%Forall_cons.
        simpl. rewrite IH by done. destruct c; [done|done|]. by rewrite decide_True.
Qed.

(** In every interleaving, user code runs on a processor of the native port only when all of
    them are forked and, if the program wants devices, they are set up; every step brings the
    start closer to its end, and it can stop only when all processors run user code. *)
Theorem native_mpe_start s :
  nmp_reachable s ->
  (somebody_user s -> nm_ioe s = has_ioe /\ Forall (fun c => c <> NotForked) (nm_children s)) /\
  (forall s', nmp_step s s' -> (remaining s' < remaining s)%nat) /\
  (all_user s \/ exists s', nmp_step s s').
Proof using Hncpu.
  intros Hr%nmp_inv_reachable. split; [|split; [intros s2; by apply remaining_decreases|by apply nmp_progress]].
  destruct Hr as [Hl Hinv]. assert (forall i, before s i -> somebody_user s -> nm_parent s = ParentUser) as Hb.
  { intros i [_ Hc] [Hu|[j Hj]%list_elem_of_lookup]; [done|]. specialize (Hc _ _ Hj). by case_decide. }
  unfold after in Hinv. destruct (nm_parent s) as [i| |i|] eqn:Hp; [..|by intros _; split; apply Hinv].
  - intros Hu. by discriminate (Hb i (proj2 Hinv) Hu).
  - intros Hu. by discriminate (Hb ncpu Hinv Hu).
  - intros _. split; apply Hinv.
Qed.
End Start.

(** Two processors, in the state after the first fork. *)
Lemma native_mpe_start_witness :
  let s := mk_nmp 0 false (Forking 2) [InRead] in
  nmp_reachable 2 true s /\ (remaining 2 (mk_nmp 0 false Devices [InRead]) < remaining 2 s)%nat.
Proof.
  assert (nmp_reachable 2 true (mk_nmp 0 false (Forking 2) [InRead])) as Hr.
  { eapply rtc_once. exact (do_fork 2 true (nmp_init 2) 1 eq_refl ltac:(lia)). }
  split; [exact Hr|]. destruct (native_mpe_start 2 ltac:(lia) true _ Hr) as (_ & Hdec & _). apply Hdec.
  exact (forks_done 2 true (mk_nmp 0 false (Forking 2) [InRead]) 2 eq_refl ltac:(lia)).
Defined.
