(* ===== verification/NatDev.v ===== *)
(** * Devices of the native port: am/src/native/trm.c, ioe/disk.c, ioe/audio.c, ioe/timer.c

    The console prints a code when the program halts; the disk is a file, the sound card a
    pipe to another thread, the clock the host's. The host's file functions are modelled as the
    C standard describes them. *)

From stdpp Require Import prelude.
From S2P Require Import Prelude Mem.

(** ** [halt]: trm.c, lines 16-28 *)

(** "Exit code = 40h" and a line feed. *)
Definition halt_fmt : list Z := [69; 120; 105; 116; 32; 99; 111; 100; 101; 32; 61; 32; 52; 48; 104; 10].
Definition hex_table : list Z := [48; 49; 50; 51; 52; 53; 54; 55; 56; 57; 97; 98; 99; 100; 101; 102].

(** Lines 20-22: [None] is an index outside of the table. *)
Definition halt_char (code ch : Z) : option Z :=
  if (ch =? 48) || (ch =? 52) then hex_table !! Z.to_nat (Z.land (Z.shiftr code (ch - 48)) 0xf) else Some ch.

Definition halt_text (code : Z) : option (list Z) := mapM (halt_char code) halt_fmt.

Definition nibble (d : Z) : Z := if d <=? 9 then 48 + d else 87 + d.

Lemma hex_table_nibble d : 0 <= d < 16 -> hex_table !! Z.to_nat d = Some (nibble d).
Proof.
  intros Hd. assert (d ∈ seqZ 0 16) as Hin by (apply elem_of_seqZ; lia).
  assert (Forall (fun d => hex_table !! Z.to_nat d = Some (nibble d)) (seqZ 0 16)) as HF by (by repeat constructor).
  rewrite Forall_forall in HF. by apply HF.
Qed.

(** Whatever the code, the last byte of it is printed in two digits: no index is outside. *)
Lemma halt_text_spec code :
  halt_text code = Some ([69; 120; 105; 116; 32; 99; 111; 100; 101; 32; 61; 32] ++
    [nibble ((code / 16) mod 16); nibble (code mod 16)] ++ [104; 10]).
Proof.
  assert (forall x, Z.land x 0xf = x mod 16) as Hl by (intros x; apply (Z.land_ones x 4); lia).
  unfold halt_text, halt_fmt, halt_char. cbn [mapM Z.eqb Pos.eqb orb Z.sub Z.opp Z.add Z.pos_sub Pos.sub].
  assert (hex_table !! Z.to_nat (Z.land (Z.shiftr code 4) 0xf) = Some (nibble ((code / 16) mod 16))) as E4.
  { rewrite Hl, Z.shiftr_div_pow2 by lia. apply hex_table_nibble. apply Z.mod_pos_bound. lia. }
  assert (hex_table !! Z.to_nat (Z.land (Z.shiftr code 0) 0xf) = Some (nibble (code mod 16))) as E0.
  { rewrite Hl, Z.shiftr_0_r. apply hex_table_nibble. apply Z.mod_pos_bound. lia. }
  change (52 - 48) with 4. change (48 - 48) with 0. rewrite E4. cbn [mbind option_bind]. rewrite E0. reflexivity.
Qed.

(** ** The disk: ioe/disk.c *)

Definition BLKSZ : Z := 512.

(** Memory; whether the file is open, its bytes, size and position; [disk_size]. *)
Record nat_disk : Type := mk_nd {
  nd_mem : mem; nd_open : bool; nd_file : Z -> Z; nd_len : Z; nd_pos : Z; nd_size : Z;
}.

(** [fseek] from the start: a negative offset is an error and changes nothing. *)
Definition fseek (off : Z) : M nat_disk unit :=
  modify (fun s => if off <? 0 then s else mk_nd (nd_mem s) (nd_open s) (nd_file s) (nd_len s) off (nd_size s)).

(** [fread] of one element: what the file has left of it is stored; 1 if that is all of it. *)
Definition fread (buf size : Z) : M nat_disk Z := fun s =>
  let n := Z.min size (Z.max 0 (nd_len s - nd_pos s)) in
  Done (if (size =? 0) || (n <? size) then 0 else 1)
    (mk_nd (fun x => if (buf <=? x) && (x <? buf + n) then nd_file s (nd_pos s + (x - buf)) else nd_mem s x)
       (nd_open s) (nd_file s) (nd_len s) (nd_pos s + n) (nd_size s)).

(** [fwrite] of one element, with room on the host's disk. *)
Definition fwrite (buf size : Z) : M nat_disk Z := fun s =>
  Done (if size =? 0 then 0 else 1)
    (mk_nd (nd_mem s) (nd_open s)
       (fun x => if (nd_pos s <=? x) && (x <? nd_pos s + size) then load8 (nd_mem s) (buf + (x - nd_pos s)) else nd_file s x)
       (Z.max (nd_len s) (nd_pos s + size)) (nd_pos s + size) (nd_size s)).

(** Lines 11-21, for the file that the environment names, if it can be opened. *)
Definition disk_init (file : option ((Z -> Z) * Z)) (m : mem) : nat_disk :=
  match file with
  | Some (bytes, len) => mk_nd m true bytes len 0 (i32 ((len + 511) / 512))
  | None => mk_nd m false (fun _ => 0) 0 0 0
  end.

(** Lines 23-27: present, block size, number of blocks. *)
Definition disk_config (s : nat_disk) : bool * Z * Z := (nd_open s, BLKSZ, nd_size s).

(** Lines 33-41. *)
Definition native_blkio (write : bool) (buf blkno blkcnt : Z) : M nat_disk unit :=
  s ← get;
  if nd_open s then
    fseek (i32 (blkno * BLKSZ));;
    ret ← (if write then fwrite buf (u64 (i32 (blkcnt * BLKSZ))) else fread buf (u64 (i32 (blkcnt * BLKSZ))));
    c_assert (ret =? 1)
  else mret tt.

(** The blocks lie in the file, at offsets an [int] can hold. *)
Definition blocks_in (s : nat_disk) (blkno blkcnt : Z) : Prop :=
  nd_open s = true /\ 0 <= blkno /\ 0 < blkcnt /\ (blkno + blkcnt) * 512 < 2 ^ 31 /\ (blkno + blkcnt) * 512 <= nd_len s.

Lemma blk_offset x : 0 <= x -> x * 512 < 2 ^ 31 -> i32 (x * BLKSZ) = x * 512 /\ u64 (i32 (x * BLKSZ)) = x * 512.
Proof. intros. unfold BLKSZ. rewrite signed_small by lia. split; [done|]. apply wrap_small. lia. Qed.

Lemma native_read_spec s buf blkno blkcnt :
  blocks_in s blkno blkcnt ->
  wp (native_blkio false buf blkno blkcnt) s (fun _ s' =>
    nd_file s' = nd_file s /\ nd_len s' = nd_len s /\ nd_open s' = true /\
    (forall k, 0 <= k < blkcnt * 512 -> nd_mem s' (buf + k) = nd_file s (blkno * 512 + k)) /\
    (forall x, ~ inr buf (blkcnt * 512) x -> nd_mem s' x = nd_mem s x)).
Proof.
  intros (Ho & H0 & Hc & Hi & Hl). unfold native_blkio. apply wp_bind, wp_get. rewrite Ho.
  destruct (blk_offset blkno) as [-> _]; [lia..|]. destruct (blk_offset blkcnt) as [_ ->]; [lia..|].
  apply wp_bind, wp_modify. destruct (Z.ltb_spec (blkno * 512) 0); [lia|].
  apply wp_bind. eapply wp_eq; [reflexivity|]. cbn [nd_len nd_pos nd_file nd_mem nd_open].
  rewrite Z.max_r, Z.min_l by lia. destruct (Z.eqb_spec (blkcnt * 512) 0); [lia|]. rewrite Z.ltb_irrefl. apply wp_assert; [done|].
  cbn. split; [done|]. split; [done|]. split; [done|]. split.
  - intros k Hk. destruct (Z.leb_spec buf (buf + k)); [|lia]. destruct (Z.ltb_spec (buf + k) (buf + blkcnt * 512)); [|lia].
    cbn [andb]. f_equal. lia.
  - intros x Hx. unfold inr in Hx. destruct (Z.leb_spec buf x); [|done]. destruct (Z.ltb_spec x (buf + blkcnt * 512)); [lia|done].
Qed.

Lemma native_write_spec s buf blkno blkcnt :
  blocks_in s blkno blkcnt ->
  wp (native_blkio true buf blkno blkcnt) s (fun _ s' =>
    nd_mem s' = nd_mem s /\ nd_len s' = nd_len s /\ nd_open s' = true /\
    (forall k, 0 <= k < blkcnt * 512 -> nd_file s' (blkno * 512 + k) = load8 (nd_mem s) (buf + k)) /\
    (forall x, ~ inr (blkno * 512) (blkcnt * 512) x -> nd_file s' x = nd_file s x)).
Proof.
  intros (Ho & H0 & Hc & Hi & Hl). unfold native_blkio. apply wp_bind, wp_get. rewrite Ho.
  destruct (blk_offset blkno) as [-> _]; [lia..|]. destruct (blk_offset blkcnt) as [_ ->]; [lia..|].
  apply wp_bind, wp_modify. destruct (Z.ltb_spec (blkno * 512) 0); [lia|].
  apply wp_bind. eapply wp_eq; [reflexivity|]. cbn [nd_len nd_pos nd_file nd_mem nd_open].
  destruct (Z.eqb_spec (blkcnt * 512) 0); [lia|]. apply wp_assert; [done|].
  cbn. split; [done|]. split; [lia|]. split; [done|]. split.
  - intros k Hk. destruct (Z.leb_spec (blkno * 512) (blkno * 512 + k)); [|lia].
    destruct (Z.ltb_spec (blkno * 512 + k) (blkno * 512 + blkcnt * 512)); [|lia]. cbn [andb]. f_equal. lia.
  - intros x Hx. unfold inr in Hx. destruct (Z.leb_spec (blkno * 512) x); [|done].
    destruct (Z.ltb_spec x (blkno * 512 + blkcnt * 512)); [lia|done].
Qed.

(** Blocks written are read back, into any other buffer. *)
Lemma native_disk_roundtrip s buf buf' blkno blkcnt :
  blocks_in s blkno blkcnt ->
  wp (native_blkio true buf blkno blkcnt;; native_blkio false buf' blkno blkcnt) s (fun _ s' =>
    forall k, 0 <= k < blkcnt * 512 -> nd_mem s' (buf' + k) = load8 (nd_mem s) (buf + k)).
Proof.
  intros Hb. apply wp_bind. eapply wp_mono; [by apply native_write_spec|]. intros _ s1 (_ & El & Eo & Hw & _).
  eapply wp_mono; [apply native_read_spec|].
  - destruct Hb as (_ & H0 & Hc & Hi & Hl). rewrite <- El in Hl. done.
  - intros _ s2 (_ & _ & _ & Hr & _) k Hk. rewrite Hr by done. by apply Hw.
Qed.

(** The disk reports a block for the bytes behind the last whole block of the file, but reading
    that block fails the assertion of the driver. *)
Theorem native_disk_tail bytes len m buf :
  0 <= len < 2 ^ 31 - 512 -> len mod 512 <> 0 ->
  let s := disk_init (Some (bytes, len)) m in
  let '(present, blksz, blkcnt) := disk_config s in
  present = true /\ 0 < blkcnt /\ (blkcnt - 1) * blksz < len /\ native_blkio false buf (blkcnt - 1) 1 s = Fault AssertFail.
Proof.
  intros Hl Hm s. unfold s, disk_init, disk_config. cbn [nd_open nd_size].
  assert (0 < (len + 511) / 512 /\ ((len + 511) / 512 - 1) * 512 < len /\ len < (len + 511) / 512 * 512) as (H0 & Hlt & Hgt)
    by (revert Hm; zdm).
  set (n := (len + 511) / 512) in *. rewrite signed_small by lia. unfold BLKSZ at 1. split; [done|]. split; [done|]. split; [done|].
  unfold native_blkio. unfold mbind at 1, M_bind, get. cbn [nd_open].
  destruct (blk_offset (n - 1)) as [-> _]; [lia..|]. destruct (blk_offset 1) as [_ ->]; [lia..|].
  unfold mbind, M_bind, fseek, modify, fread. destruct (Z.ltb_spec ((n - 1) * 512) 0); [lia|]. cbn [nd_len nd_pos].
  rewrite Z.max_r, Z.min_r by lia. destruct (Z.eqb_spec (1 * 512) 0); [lia|]. destruct (Z.ltb_spec (len - (n - 1) * 512) (1 * 512)); [|lia].
  reflexivity.
Qed.

(** A file of 700 bytes: two blocks are reported. *)
Lemma native_disk_tail_witness :
  700 mod 512 <> 0 /\ native_blkio false 0x1000 1 1 (disk_init (Some (fun _ => 1, 700)) (fun _ => 0)) = Fault AssertFail.
Proof.
  split; [done|]. destruct (native_disk_tail (fun _ => 1) 700 (fun _ => 0) 0x1000) as (_ & _ & _ & H); [lia|done|exact H].
Defined.

(** A request of no blocks fails it as well. *)
Lemma native_disk_none s write buf blkno :
  nd_open s = true -> 0 <= blkno -> blkno * 512 < 2 ^ 31 -> native_blkio write buf blkno 0 s = Fault AssertFail.
Proof.
  intros Ho H0 Hi. unfold native_blkio, mbind, M_bind, get. rewrite Ho. by destruct write.
Qed.

(** ** Sound: ioe/audio.c *)

(** The bytes in the pipe and [count]. *)
Record nat_audio : Type := mk_na { na_pipe : list Z; na_count : Z }.

(** Lines 33-41. [accept] lists what [write] answers: how many bytes the pipe takes, 0 when it is
    full and the answer is -1; a loop that outlives the list is out of fuel. *)
Fixpoint audio_write (accept : list nat) (buf : list Z) (nwrite : Z) : M nat_audio unit :=
  if nwrite <? Z.of_nat (length buf) then
    match accept with
    | [] => raise OutOfFuel
    | a :: accept =>
        let n := (a `min` length buf)%nat in
        modify (fun s => mk_na (na_pipe s ++ take n buf) (na_count s + Z.of_nat n));;
        audio_write accept buf (nwrite + Z.of_nat n)
    end
  else mret tt.

(** Lines 64-67. *)
Definition __am_audio_play (accept : list nat) (buf : list Z) : M nat_audio unit := audio_write accept buf 0.

(** A pipe that takes the whole buffer at once, after any number of refusals, gets it. *)
Lemma audio_write_whole k buf s :
  buf <> [] ->
  wp (__am_audio_play (replicate k 0%nat ++ [length buf]) buf) s (fun _ s' =>
    s' = mk_na (na_pipe s ++ buf) (na_count s + Z.of_nat (length buf))).
Proof.
  intros Hb. assert (0 < Z.of_nat (length buf)) by (destruct buf; [done|simpl; lia]). unfold __am_audio_play.
  revert s. induction k as [|k IH]; intros s; cbn [replicate app audio_write]; (destruct (Z.ltb_spec 0 (Z.of_nat (length buf))); [|lia]).
  - rewrite Nat.min_id, firstn_all. apply wp_bind, wp_modify. destruct (Z.ltb_spec (0 + Z.of_nat (length buf)) (Z.of_nat (length buf))); [lia|].
    by apply wp_ret.
  - rewrite Nat.min_0_l. apply wp_bind, wp_modify. cbn [take]. eapply wp_mono; [apply IH|].
    intros _ s' ->. cbn. by rewrite app_nil_r, Z.add_0_r.
Qed.

(** A pipe that takes a part of the buffer gets that part twice: the second [write] starts from
    the beginning of the buffer again. *)
Lemma audio_write_partial n buf s :
  (0 < n < length buf)%nat ->
  wp (__am_audio_play [n; length buf] buf) s (fun _ s' =>
    s' = mk_na (na_pipe s ++ take n buf ++ buf) (na_count s + Z.of_nat n + Z.of_nat (length buf))).
Proof.
  intros Hn. unfold __am_audio_play. cbn [audio_write]. destruct (Z.ltb_spec 0 (Z.of_nat (length buf))); [|lia].
  rewrite (Nat.min_l n) by lia. apply wp_bind, wp_modify. destruct (Z.ltb_spec (0 + Z.of_nat n) (Z.of_nat (length buf))); [|lia].
  rewrite Nat.min_id, firstn_all. apply wp_bind, wp_modify.
  destruct (Z.ltb_spec (0 + Z.of_nat n + Z.of_nat (length buf)) (Z.of_nat (length buf))); [lia|]. apply wp_ret. cbn.
  by rewrite (assoc_L (++)).
Qed.

(** ** The clock: ioe/timer.c *)

(** Lines 22-28, for the host's times in seconds and microseconds. *)
Definition timer_uptime (boot now : Z * Z) : Z :=
  let seconds := now.1 - boot.1 in
  let useconds := now.2 - boot.2 in
  seconds * 1000000 + (useconds + 500).

(** The time since the start and 500 microseconds, also when the microseconds wrap. *)
Lemma timer_uptime_spec boot now :
  timer_uptime boot now = (now.1 * 1000000 + now.2) - (boot.1 * 1000000 + boot.2) + 500.
Proof. unfold timer_uptime. lia. Qed.
