(* ===== verification/Host.v ===== *)
(** * The host of the native port

    The native port is a Linux process. What it asks of the host when it starts, mappings of
    memory and signals, is a class here: [HostOps] has the calls, [HostLaws] what their manuals
    say. A concrete host at the end of the file satisfies the laws; the theorems about the
    program are proved for every host that does. *)

From stdpp Require Import prelude gmap.
From S2P Require Import Prelude Mem NatCte.

(** ** Data of the calls *)

(** Flags of [mmap]. *)
Definition MAP_SHARED : Z := 1.
Definition MAP_PRIVATE : Z := 2.
Definition MAP_FIXED : Z := 0x10.
Definition MAP_ANONYMOUS : Z := 0x20.

(** What a byte of the address space is backed by: memory of its own, or the byte [off] of a
    file; and whether a child process shares it. *)
Inductive backing : Type := Anon (shared : bool) | FileMap (shared : bool) (fd off : Z).

Record mapping : Type := mk_mapping { mp_prot : Z; mp_back : backing }.

(** The action of a signal: the address of a handler, or [None] for [SIG_DFL]. *)
Record sigact : Type := mk_sigact { sa_handler : option Z; sa_flags : Z; sa_mask : gset Z }.

(** [mmap] rounds a length up to pages. *)
Definition page_up (pg n : Z) : Z := (n + pg - 1) / pg * pg.

(** What [mmap] leaves at the byte [x] of a mapping that starts at [a]. *)
Definition new_mapping (prot fl fd off a x : Z) : mapping :=
  mk_mapping prot (if Z.testbit fl 5 then Anon (Z.testbit fl 0) else FileMap (Z.testbit fl 0) fd (off + (x - a))).

(** ** The interface *)

(** [mmap_low] is the lowest address the host chooses by itself; [sys_pgsz] its page size. *)

Class HostOps (H : Type) `{HasMem H} := {
  h_map : H -> Z -> option mapping;
  h_mask : H -> gset Z;
  h_action : H -> Z -> sigact;
  h_altstack : H -> Z * Z;
  h_timer : H -> Z;
  sys_pgsz : Z;
  mmap_low : Z;
  sys_mmap : forall (addr len prot fl fd off : Z), H -> Z * H;
  sys_munmap : forall (addr len : Z), H -> Z * H;
  sys_memfd_create : H -> Z * H;
  sys_ftruncate : forall (fd len : Z), H -> Z * H;
  sys_sigaction : forall (sig : Z) (act : sigact), H -> Z * H;
  sys_sigprocmask : forall (block : bool) (set : gset Z), H -> Z * H;
  sys_sigaltstack : forall (sp size : Z), H -> Z * H;
  sys_setitimer : forall (usec : Z), H -> Z * H;
}.

Section Laws.
Context {H : Type} `{HostOps H}.

(** The signals and the timer of [h'] are those of [h]. *)
Definition same_signals (h h' : H) : Prop :=
  h_mask h' = h_mask h /\ h_action h' = h_action h /\ h_altstack h' = h_altstack h /\ h_timer h' = h_timer h.

Definition same_space (h h' : H) : Prop := h_map h' = h_map h /\ st_mem h' = st_mem h.

(** Outside of [n] bytes from [a] on the address space of [h'] is that of [h]. *)
Definition space_outside (a n : Z) (h h' : H) : Prop :=
  (forall x, ~ inr a n x -> h_map h' x = h_map h x) /\ only_in (inr a n) (st_mem h) (st_mem h').

#[export] Instance same_signals_preorder : PreOrder same_signals.
Proof.
  split; [done|]. intros h1 h2 h3 (E1 & E2 & E3 & E4) (F1 & F2 & F3 & F4). split_and!; congruence.
Qed.

#[export] Instance same_space_preorder : PreOrder same_space.
Proof. split; [done|]. intros h1 h2 h3 [E1 E2] [F1 F2]. split; congruence. Qed.

Class HostLaws : Prop := {
  pgsz_pos : 0 < sys_pgsz (H := H);
  upd_frame h f : h_map (st_upd f h) = h_map h /\ same_signals h (st_upd f h);
  mmap_fixed addr len prot fl fd off h r h' :
    sys_mmap addr len prot fl fd off h = (r, h') -> r <> -1 -> Z.testbit fl 4 = true ->
    r = addr /\ same_signals h h' /\ space_outside addr (page_up sys_pgsz len) h h' /\
    (forall x, inr addr (page_up sys_pgsz len) x -> h_map h' x = Some (new_mapping prot fl fd off addr x)) /\
    (Z.testbit fl 5 = true -> forall x, inr addr (page_up sys_pgsz len) x -> load8 (st_mem h') x = 0);
  mmap_anywhere len prot fl fd off h r h' :
    sys_mmap 0 len prot fl fd off h = (r, h') -> r <> -1 -> Z.testbit fl 4 = false ->
    mmap_low (H := H) <= r /\ r <> 0 /\ same_signals h h' /\ space_outside r (page_up sys_pgsz len) h h' /\
    (forall x, inr r (page_up sys_pgsz len) x -> h_map h x = None /\ h_map h' x = Some (new_mapping prot fl fd off r x)) /\
    (Z.testbit fl 5 = true -> forall x, inr r (page_up sys_pgsz len) x -> load8 (st_mem h') x = 0);
  munmap_law addr len h h' :
    sys_munmap addr len h = (0, h') ->
    same_signals h h' /\ space_outside addr (page_up sys_pgsz len) h h' /\
    (forall x, inr addr (page_up sys_pgsz len) x -> h_map h' x = None);
  memfd_law h r h' : sys_memfd_create h = (r, h') -> same_space h h' /\ same_signals h h';
  ftruncate_law fd len h r h' : sys_ftruncate fd len h = (r, h') -> same_space h h' /\ same_signals h h';
  sigaction_law sig act h h' :
    sys_sigaction sig act h = (0, h') ->
    same_space h h' /\ h_mask h' = h_mask h /\ h_altstack h' = h_altstack h /\ h_timer h' = h_timer h /\
    forall n, h_action h' n = if n =? sig then act else h_action h n;
  sigprocmask_law (block : bool) set h h' :
    sys_sigprocmask block set h = (0, h') ->
    same_space h h' /\ h_action h' = h_action h /\ h_altstack h' = h_altstack h /\ h_timer h' = h_timer h /\
    h_mask h' = if block then h_mask h ∪ set else h_mask h ∖ set;
  sigaltstack_law sp size h h' :
    sys_sigaltstack sp size h = (0, h') ->
    same_space h h' /\ h_mask h' = h_mask h /\ h_action h' = h_action h /\ h_timer h' = h_timer h /\ h_altstack h' = (sp, size);
  setitimer_law usec h h' :
    sys_setitimer usec h = (0, h') ->
    same_space h h' /\ h_mask h' = h_mask h /\ h_action h' = h_action h /\ h_altstack h' = h_altstack h /\ h_timer h' = usec;
}.
End Laws.

#[global] Arguments HostLaws H {_ _}.

(** ** A host *)

(** New mappings are put one behind the other from [lh_next] on. *)
Record lhost : Type := mk_lhost {
  lh_mem : mem; lh_map : Z -> option mapping; lh_next : Z;
  lh_mask : gset Z; lh_action : Z -> sigact; lh_alt : Z * Z; lh_timer : Z;
}.

#[export] Instance lhost_has_mem : HasMem lhost := {|
  st_mem := lh_mem;
  st_upd := fun f h => mk_lhost (f (lh_mem h)) (lh_map h) (lh_next h) (lh_mask h) (lh_action h) (lh_alt h) (lh_timer h);
  st_mem_upd := fun _ _ => eq_refl |}.

Definition in_range (a n x : Z) : bool := (a <=? x) && (x <? a + n).

Definition lh_place (a n prot fl fd off next : Z) (h : lhost) : lhost :=
  mk_lhost (fun x => if in_range a n x then 0 else lh_mem h x)
    (fun x => if in_range a n x then Some (new_mapping prot fl fd off a x) else lh_map h x)
    next (lh_mask h) (lh_action h) (lh_alt h) (lh_timer h).

(** Nothing is mapped at the [k] addresses from [a] on. *)
Fixpoint free_from (mp : Z -> option mapping) (k : nat) (a : Z) : bool :=
  match k with O => true | S k => match mp a with None => free_from mp k (a + 1) | Some _ => false end end.

Lemma free_from_spec mp k a x : free_from mp k a = true -> a <= x < a + Z.of_nat k -> mp x = None.
Proof.
  revert a. induction k as [|k IH]; intros a; cbn [free_from]; [lia|]. destruct (mp a) eqn:E; [done|].
  intros Hf Hx. destruct (decide (x = a)) as [->|]; [done|]. apply (IH (a + 1)); [done|lia].
Qed.

Definition lh_mmap (addr len prot fl fd off : Z) (h : lhost) : Z * lhost :=
  let n := page_up 4096 len in
  if Z.testbit fl 4 then
    if (addr =? -1) || negb (addr mod 4096 =? 0) then (-1, h) else (addr, lh_place addr n prot fl fd off (lh_next h) h)
  else
    let a := lh_next h in
    if (a <? 0x10000000) || negb (free_from (lh_map h) (Z.to_nat n) a) then (-1, h)
    else (a, lh_place a n prot fl fd off (a + n) h).

Definition lh_munmap (addr len : Z) (h : lhost) : Z * lhost :=
  if negb (addr mod 4096 =? 0) then (-1, h)
  else (0, mk_lhost (lh_mem h) (fun x => if in_range addr (page_up 4096 len) x then None else lh_map h x)
    (lh_next h) (lh_mask h) (lh_action h) (lh_alt h) (lh_timer h)).

#[export] Instance lhost_ops : HostOps lhost := {|
  h_map := lh_map; h_mask := lh_mask; h_action := lh_action; h_altstack := lh_alt; h_timer := lh_timer;
  sys_pgsz := 4096;
  mmap_low := 0x10000000;
  sys_mmap := lh_mmap; sys_munmap := lh_munmap;
  sys_memfd_create := fun h => (3, h);
  sys_ftruncate := fun _ _ h => (0, h);
  sys_sigaction := fun sig act h => (0, mk_lhost (lh_mem h) (lh_map h) (lh_next h) (lh_mask h)
    (fun n => if n =? sig then act else lh_action h n) (lh_alt h) (lh_timer h));
  sys_sigprocmask := fun block set h => (0, mk_lhost (lh_mem h) (lh_map h) (lh_next h)
    (if block : bool then lh_mask h ∪ set else lh_mask h ∖ set) (lh_action h) (lh_alt h) (lh_timer h));
  sys_sigaltstack := fun sp size h => (0, mk_lhost (lh_mem h) (lh_map h) (lh_next h) (lh_mask h) (lh_action h) (sp, size) (lh_timer h));
  sys_setitimer := fun usec h => (0, mk_lhost (lh_mem h) (lh_map h) (lh_next h) (lh_mask h) (lh_action h) (lh_alt h) usec);
|}.

Lemma in_range_spec a n x : in_range a n x = true <-> inr a n x.
Proof. unfold in_range, inr. lia. Qed.

Lemma in_range_not a n x : ~ inr a n x -> in_range a n x = false.
Proof. intros Hx. apply not_true_is_false. by rewrite in_range_spec. Qed.

Lemma lh_place_spec a n prot fl fd off next h (h' := lh_place a n prot fl fd off next h) :
  same_signals h h' /\ space_outside a n h h' /\
  (forall x, inr a n x -> h_map h' x = Some (new_mapping prot fl fd off a x)) /\
  (forall x, inr a n x -> load8 (st_mem h') x = 0).
Proof.
  split; [done|]. split; [split|split].
  - intros x Hx. cbn. by rewrite in_range_not.
  - intros x Hx. unfold load8. cbn. by rewrite in_range_not.
  - intros x Hx%in_range_spec. cbn. by rewrite Hx.
  - intros x Hx%in_range_spec. unfold load8. cbn. by rewrite Hx.
Qed.

#[export] Instance lhost_laws : HostLaws lhost.
Proof.
  split.
  - done.
  - done.
  - intros * E Hr Hf. cbn in E. unfold lh_mmap in E. rewrite Hf in E.
    destruct (_ || _); injection E as <- <-; [done|].
    destruct (lh_place_spec addr (page_up 4096 len) prot fl fd off (lh_next h) h) as (H1 & H2 & H3 & H4). split_and!; auto.
  - intros * E Hr Hf. cbn in E. unfold lh_mmap in E. rewrite Hf in E.
    destruct ((lh_next h <? 0x10000000) || _) eqn:Ec; injection E as <- <-; [done|].
    apply orb_false_iff in Ec as [Ea Ex].
    destruct (lh_place_spec (lh_next h) (page_up 4096 len) prot fl fd off (lh_next h + page_up 4096 len) h) as (H1 & H2 & H3 & H4).
    split; [cbn; lia|]. split; [lia|]. split; [done|]. split; [done|]. split; [|done].
    intros x Hx. split; [|by apply H3]. cbn.
    apply negb_false_iff in Ex. apply (free_from_spec _ _ _ _ Ex).
    change (inr (lh_next h) (page_up 4096 len) x) in Hx. unfold inr in Hx. lia.
  - intros * E. cbn in E. unfold lh_munmap in E. destruct (negb _); [discriminate E|]. injection E as <-.
    split; [done|]. split; [split|].
    + intros x Hx. cbn. by rewrite in_range_not.
    + done.
    + intros x Hx%in_range_spec. change (in_range addr (page_up 4096 len) x = true) in Hx. cbn. by rewrite Hx.
  - intros * E. by injection E as <- <-.
  - intros * E. by injection E as <- <-.
  - intros * E. injection E as <-. by split_and!.
  - intros * E. injection E as <-. by split_and!.
  - intros * E. injection E as <-. by split_and!.
  - intros * E. injection E as <-. by split_and!.
Qed.
