(* ===== verification/NatPlatform.v ===== *)
(** * The native platform: am/src/native/platform.c, with cte.c, lines 128-164, and trm.c

    A program of the native port is a Linux process whose constructor [init_platform] builds the
    machine: a file is its physical memory, a private page its processor, signals its
    interrupts. The section with its global data is replaced in place by memory that child
    processes share, while the table through which library functions are called lies in it:
    a call through the table faults when its page is not mapped. *)

From stdpp Require Import prelude gmap.
From S2P Require Import Prelude Mem NatVme NatCte NatDev Host.

(** ** State *)

(** How the process ends: [exit], or [kill] of its whole group. *)
Inductive ending : Type := Running | Exited (code : Z) | GroupKilled.

(** The host and the variables of platform.c, trm.c and mpe.c. [uc_example] is in two parts:
    what NatCte.v uses of it and the pointer to the floating-point state. The rest of the
    memory is the host's. *)
Record nplat (H : Type) : Type := mk_np {
  np_host : H; pmem_fd : Z; pmem : Z; thiscpu : Z; memcpy_libc : Z; heap : Z * Z; intr_sigmask : gset Z;
  uc_example : ucontext_t; uc_fpregs : Z; ncpu : Z; pgsize : Z; user_handler : Z; mpe_started : bool;
  np_out : list Z; np_end : ending;
}.
#[global] Arguments mk_np {H}. #[global] Arguments np_host {H}. #[global] Arguments pmem_fd {H}. #[global] Arguments pmem {H}.
#[global] Arguments thiscpu {H}. #[global] Arguments memcpy_libc {H}. #[global] Arguments heap {H}.
#[global] Arguments intr_sigmask {H}. #[global] Arguments uc_example {H}. #[global] Arguments uc_fpregs {H}.
#[global] Arguments ncpu {H}. #[global] Arguments pgsize {H}. #[global] Arguments user_handler {H}.
#[global] Arguments mpe_started {H}. #[global] Arguments np_out {H}. #[global] Arguments np_end {H}.

Definition PMEM_SIZE : Z := 128 * 1024 * 1024.
Definition TRAP_PAGE_START : Z := 0x100000.
Definition MAX_CPU : Z := 16.

(** Constants of the host, and [TIMER_HZ] of cte.c, line 5. *)
Definition PROT_NONE : Z := 0.
Definition PT_LOAD : Z := 1.
Definition PF_W : Z := 2.
Definition SA_SIGINFO : Z := 4.
Definition SA_ONSTACK : Z := 0x8000000.
Definition SA_RESTART : Z := 0x10000000.
Definition TIMER_HZ : Z := 100.

(** A program header: [p_type], [p_flags], [p_memsz]. *)
Record Elf64_Phdr : Type := mk_phdr { p_type : Z; p_flags : Z; p_memsz : Z }.

(** Offsets in [__am_cpu_t], platform.h, lines 18-24. *)
Definition off_vm_head : Z := 0.
Definition off_cpuid : Z := 16.
Definition off_sigstack : Z := 56.

Lemma sigmask_built : {[ SIGUSR1 ]} ∪ ({[ SIGVTALRM ]} ∪ ∅) = __am_intr_sigmask.
Proof. set_solver. Qed.

Lemma sigmask_members : (SIGUSR2 ∉ __am_intr_sigmask) /\ (SIGUSR1 ∈ __am_intr_sigmask).
Proof. by split; apply (bool_decide_unpack _); vm_compute. Qed.

(** A signal waits, is handled at an address, or does what it does by default. *)
Inductive signal_fate : Type := Pending | ToHandler (f : Z) | ByDefault.

Section Platform.
Context {H : Type} `{HostOps H}.

Definition set_host h (s : nplat H) : nplat H := mk_np h (pmem_fd s) (pmem s) (thiscpu s) (memcpy_libc s) (heap s) (intr_sigmask s) (uc_example s) (uc_fpregs s) (ncpu s) (pgsize s) (user_handler s) (mpe_started s) (np_out s) (np_end s).
Definition set_pmem_fd v (s : nplat H) : nplat H := mk_np (np_host s) v (pmem s) (thiscpu s) (memcpy_libc s) (heap s) (intr_sigmask s) (uc_example s) (uc_fpregs s) (ncpu s) (pgsize s) (user_handler s) (mpe_started s) (np_out s) (np_end s).
Definition set_pmem v (s : nplat H) : nplat H := mk_np (np_host s) (pmem_fd s) v (thiscpu s) (memcpy_libc s) (heap s) (intr_sigmask s) (uc_example s) (uc_fpregs s) (ncpu s) (pgsize s) (user_handler s) (mpe_started s) (np_out s) (np_end s).
Definition set_thiscpu v (s : nplat H) : nplat H := mk_np (np_host s) (pmem_fd s) (pmem s) v (memcpy_libc s) (heap s) (intr_sigmask s) (uc_example s) (uc_fpregs s) (ncpu s) (pgsize s) (user_handler s) (mpe_started s) (np_out s) (np_end s).
Definition set_memcpy v (s : nplat H) : nplat H := mk_np (np_host s) (pmem_fd s) (pmem s) (thiscpu s) v (heap s) (intr_sigmask s) (uc_example s) (uc_fpregs s) (ncpu s) (pgsize s) (user_handler s) (mpe_started s) (np_out s) (np_end s).
Definition set_heap v (s : nplat H) : nplat H := mk_np (np_host s) (pmem_fd s) (pmem s) (thiscpu s) (memcpy_libc s) v (intr_sigmask s) (uc_example s) (uc_fpregs s) (ncpu s) (pgsize s) (user_handler s) (mpe_started s) (np_out s) (np_end s).
Definition set_intr_sigmask v (s : nplat H) : nplat H := mk_np (np_host s) (pmem_fd s) (pmem s) (thiscpu s) (memcpy_libc s) (heap s) v (uc_example s) (uc_fpregs s) (ncpu s) (pgsize s) (user_handler s) (mpe_started s) (np_out s) (np_end s).
Definition set_uc v fp (s : nplat H) : nplat H := mk_np (np_host s) (pmem_fd s) (pmem s) (thiscpu s) (memcpy_libc s) (heap s) (intr_sigmask s) v fp (ncpu s) (pgsize s) (user_handler s) (mpe_started s) (np_out s) (np_end s).
Definition set_ncpu v (s : nplat H) : nplat H := mk_np (np_host s) (pmem_fd s) (pmem s) (thiscpu s) (memcpy_libc s) (heap s) (intr_sigmask s) (uc_example s) (uc_fpregs s) v (pgsize s) (user_handler s) (mpe_started s) (np_out s) (np_end s).
Definition set_pgsize v (s : nplat H) : nplat H := mk_np (np_host s) (pmem_fd s) (pmem s) (thiscpu s) (memcpy_libc s) (heap s) (intr_sigmask s) (uc_example s) (uc_fpregs s) (ncpu s) v (user_handler s) (mpe_started s) (np_out s) (np_end s).
Definition set_user_handler v (s : nplat H) : nplat H := mk_np (np_host s) (pmem_fd s) (pmem s) (thiscpu s) (memcpy_libc s) (heap s) (intr_sigmask s) (uc_example s) (uc_fpregs s) (ncpu s) (pgsize s) v (mpe_started s) (np_out s) (np_end s).
Definition set_out v (s : nplat H) : nplat H := mk_np (np_host s) (pmem_fd s) (pmem s) (thiscpu s) (memcpy_libc s) (heap s) (intr_sigmask s) (uc_example s) (uc_fpregs s) (ncpu s) (pgsize s) (user_handler s) (mpe_started s) v (np_end s).
Definition set_end v (s : nplat H) : nplat H := mk_np (np_host s) (pmem_fd s) (pmem s) (thiscpu s) (memcpy_libc s) (heap s) (intr_sigmask s) (uc_example s) (uc_fpregs s) (ncpu s) (pgsize s) (user_handler s) (mpe_started s) (np_out s) v.

#[global] Program Instance nplat_has_mem : HasMem (nplat H) := {|
  st_mem := fun s => st_mem (np_host s); st_upd := fun f s => set_host (st_upd f (np_host s)) s |}.
Next Obligation. intros f s. apply st_mem_upd. Qed.

(** ** Calls *)

(** The address of the table of library functions, which is in the data section, the end of
    that section (the symbol [end]), the program headers, the environment, [atoi], the addresses
    of functions, [SIGSTKSZ], and the context the host saves when a signal is handled. *)
Context (got data_end : Z) (phdrs : list Elf64_Phdr) (env_smp env_pgsize mainargs : option (list Z)) (atoi : list Z -> Z).
Context (libc_memcpy libc_mmap save_context_handler sig_handler_ SIGSTKSZ : Z) (saved_uc : H -> ucontext_t * Z).

Definition sys (f : H -> Z * H) : M (nplat H) Z := fun s => let '(r, h) := f (np_host s) in Done r (set_host h s).

Definition allowed (bit : Z) (h : H) (x : Z) : bool :=
  match h_map h x with Some m => Z.testbit (mp_prot m) bit | None => false end.

(** A use of the table. *)
Definition use_got : M (nplat H) unit := s ← get; if allowed 0 (np_host s) got then mret tt else raise OutOfBounds.

(** A library function called by name. *)
Definition plt (f : H -> Z * H) : M (nplat H) Z := _ ← use_got; sys f.

(** [memcpy] of the C library: every byte must be there. *)
Definition copy_bytes (dst src n : Z) (m : mem) : mem := fun x => if in_range dst n x then load8 m (src + (x - dst)) else m x.

Definition c_memcpy (dst src n : Z) : M (nplat H) unit :=
  s ← get;
  if forallb (allowed 0 (np_host s)) (seqZ src n) && forallb (allowed 1 (np_host s)) (seqZ dst n)
  then modify (st_upd (copy_bytes dst src n)) else raise OutOfBounds.

(** ** Building the machine *)

(** Lines 63-70. *)
Definition map_pmem : M (nplat H) unit :=
  fd ← plt sys_memfd_create;
  _ ← modify (set_pmem_fd fd);
  _ ← c_assert (negb (fd =? -1));
  r ← plt (sys_ftruncate fd PMEM_SIZE);
  _ ← c_assert (0 =? r);
  p ← plt (sys_mmap PMEM_START PMEM_SIZE (Z.lor (Z.lor PROT_READ PROT_WRITE) PROT_EXEC) (Z.lor MAP_SHARED MAP_FIXED) fd 0);
  _ ← modify (set_pmem p);
  c_assert (negb (p =? -1)).

(** Lines 72-77. *)
Definition alloc_cpu : M (nplat H) unit :=
  p ← plt (sys_mmap 0 (off_sigstack + SIGSTKSZ) (Z.lor PROT_READ PROT_WRITE) (Z.lor MAP_PRIVATE MAP_ANONYMOUS) (-1) 0);
  _ ← modify (set_thiscpu p);
  _ ← c_assert (negb (p =? -1));
  _ ← write_le 4 p off_cpuid 0;
  write_le 8 p off_vm_head 0.

(** Lines 79-83. *)
Definition map_trap_page : M (nplat H) unit :=
  r ← plt (sys_mmap TRAP_PAGE_START (sys_pgsz (H := H)) PROT_NONE (Z.lor (Z.lor MAP_SHARED MAP_ANONYMOUS) MAP_FIXED) (-1) 0);
  c_assert (negb (r =? -1)).

(** Lines 95-131: one section of data is saved, unmapped, mapped to be shared and restored. The
    second [mmap] and the second [memcpy] are called through pointers on the stack. *)
Definition remap_segment (memsz : Z) : M (nplat H) unit :=
  let vaddr := data_end - memsz in
  let pad := Z.land vaddr 0xfff in
  let vaddr_align := vaddr - pad in
  let size := memsz + pad in
  temp_mem ← plt (sys_mmap 0 size (Z.lor PROT_READ PROT_WRITE) (Z.lor MAP_PRIVATE MAP_ANONYMOUS) (-1) 0);
  _ ← c_assert (negb (temp_mem =? -1));
  _ ← use_got;
  _ ← c_memcpy temp_mem vaddr_align size;
  _ ← use_got;
  _ ← c_assert (negb (libc_mmap =? 0));
  _ ← use_got;
  ret2 ← plt (sys_munmap vaddr_align size);
  _ ← c_assert (ret2 =? 0);
  ret ← sys (sys_mmap vaddr_align size (Z.lor (Z.lor PROT_READ PROT_WRITE) PROT_EXEC)
    (Z.lor (Z.lor MAP_SHARED MAP_FIXED) MAP_ANONYMOUS) (-1) 0);
  _ ← c_assert (ret =? vaddr_align);
  _ ← c_memcpy vaddr_align temp_mem size;
  ret2 ← plt (sys_munmap temp_mem size);
  c_assert (ret2 =? 0).

(** Lines 94-132. *)
Fixpoint remap_loop (l : list Elf64_Phdr) : M (nplat H) unit :=
  match l with
  | [] => mret tt
  | ph :: l =>
      _ ← (if (p_type ph =? PT_LOAD) && negb (Z.land (p_flags ph) PF_W =? 0) then remap_segment (p_memsz ph) else mret tt);
      remap_loop l
  end.

(** Lines 137-143. *)
Definition init_sigmask : M (nplat H) unit :=
  _ ← modify (set_intr_sigmask ∅);
  _ ← modify (fun s => set_intr_sigmask ({[ SIGVTALRM ]} ∪ intr_sigmask s) s);
  modify (fun s => set_intr_sigmask ({[ SIGUSR1 ]} ∪ intr_sigmask s) s).

(** Lines 50-57. *)
Definition setup_sigaltstack : M (nplat H) unit :=
  s ← get;
  ret ← plt (sys_sigaltstack (thiscpu s + off_sigstack) SIGSTKSZ);
  c_assert (ret =? 0).

(** What becomes of a signal the process sends to itself: a blocked one stays pending. *)
Definition delivery (sig : Z) (h : H) : signal_fate :=
  if bool_decide (sig ∈ h_mask h) then Pending
  else match sa_handler (h_action h sig) with Some f => ToHandler f | None => ByDefault end.

(** [raise(SIGUSR1)] with the handler of lines 24-26. *)
Definition raise_usr1 : M (nplat H) unit :=
  s ← get;
  match delivery SIGUSR1 (np_host s) with
  | Pending => mret tt
  | ToHandler f =>
      if f =? save_context_handler then modify (fun s => set_uc (saved_uc (np_host s)).1 (saved_uc (np_host s)).2 s)
      else raise Panic
  | ByDefault => raise Panic
  end.

(** Lines 28-48. *)
Definition save_example_context : M (nplat H) unit :=
  ret ← plt (sys_sigaction SIGUSR1 (mk_sigact (Some save_context_handler) SA_SIGINFO ∅));
  _ ← c_assert (ret =? 0);
  _ ← raise_usr1;
  ret ← plt (sys_sigaction SIGUSR1 (mk_sigact None 0 ∅));
  c_assert (ret =? 0).

(** Lines 150-151. *)
Definition finish_template : M (nplat H) unit :=
  modify (fun s => let uc := uc_example s in
    set_uc (mk_uc (uc_rip uc) (uc_rsp uc) (uc_rdi uc) (uc_rsi uc) (intr_sigmask s) (uc_rest uc)) 0 s).

(** cte.c, lines 194-199, with [__am_intr_sigmask]. *)
Definition np_iset (enable : bool) : M (nplat H) unit :=
  s ← get;
  ret ← plt (sys_sigprocmask (negb enable) (intr_sigmask s));
  c_assert (ret =? 0).

(** Lines 156-164. *)
Definition set_sizes : M (nplat H) unit :=
  let n := match env_smp with Some v => atoi v | None => 1 end in
  _ ← modify (set_ncpu n);
  _ ← c_assert ((0 <? n) && (n <=? MAX_CPU));
  let pg := match env_pgsize with Some v => atoi v | None => sys_pgsz (H := H) end in
  _ ← modify (set_pgsize pg);
  c_assert ((pg >? 0) && (Z.rem pg (sys_pgsz (H := H)) =? 0)).

(** [init_platform] up to the call of [main]; the result is the argument of it. *)
Definition init_platform : M (nplat H) (list Z) :=
  _ ← map_pmem;
  _ ← alloc_cpu;
  _ ← map_trap_page;
  _ ← use_got;
  _ ← modify (set_memcpy libc_memcpy);
  _ ← c_assert (negb (libc_memcpy =? 0));
  _ ← remap_loop phdrs;
  _ ← modify (fun s => set_heap (pmem s, pmem s + PMEM_SIZE) s);
  _ ← init_sigmask;
  _ ← setup_sigaltstack;
  _ ← save_example_context;
  _ ← finish_template;
  _ ← np_iset false;
  _ ← set_sizes;
  mret (default [] mainargs).

(** ** The way out *)

(** Lines 173-178. *)
Definition __am_exit_platform (code : Z) : M (nplat H) unit :=
  modify (fun s => set_end (if mpe_started s && (ncpu s >? 1) then GroupKilled else Exited code) s).

(** trm.c, lines 16-25; the characters are those of NatDev.v. *)
Definition np_halt (code : Z) : M (nplat H) unit :=
  match halt_text code with
  | None => raise OutOfBounds
  | Some l => _ ← modify (fun s => set_out (np_out s ++ l) s); __am_exit_platform code
  end.

(** The whole of [init_platform]: line 170 calls [main]. *)
Definition constructor_run (main : list Z -> M (nplat H) Z) : M (nplat H) unit :=
  args ← init_platform;
  code ← main args;
  np_halt code.

(** ** Interrupts: cte.c, lines 128-164 *)

Definition install_signal_handler : M (nplat H) unit :=
  s ← get;
  let act := mk_sigact (Some sig_handler_) (Z.lor (Z.lor SA_SIGINFO SA_RESTART) SA_ONSTACK) (intr_sigmask s) in
  ret ← plt (sys_sigaction SIGVTALRM act); _ ← c_assert (ret =? 0);
  ret ← plt (sys_sigaction SIGUSR1 act); _ ← c_assert (ret =? 0);
  ret ← plt (sys_sigaction SIGUSR2 act); _ ← c_assert (ret =? 0);
  ret ← plt (sys_sigaction SIGSEGV act); _ ← c_assert (ret =? 0);
  mret tt.

Definition __am_init_timer_irq : M (nplat H) unit :=
  _ ← np_iset false;
  ret ← plt (sys_setitimer (Z.quot 1000000 TIMER_HZ));
  c_assert (ret =? 0).

Definition np_cte_init (handler : Z) : M (nplat H) bool :=
  _ ← modify (set_user_handler handler);
  _ ← install_signal_handler;
  _ ← __am_init_timer_irq;
  mret true.

(** cte.c, lines 183-185, and platform.c, lines 209-211: where the signal goes. *)
Definition np_yield : M (nplat H) signal_fate := s ← get; mret (delivery SIGUSR2 (np_host s)).
Definition __am_send_kbd_intr : M (nplat H) signal_fate := s ← get; mret (delivery SIGUSR1 (np_host s)).

(** platform.c, lines 197-199. *)
Definition __am_get_example_uc : M (nplat H) (ucontext_t * Z) := gets (fun s => (uc_example s, uc_fpregs s)).

(** ** Processors: mpe.c, lines 40-51 *)

Definition np_cpu_count : M (nplat H) Z := gets ncpu.
Definition np_cpu_current : M (nplat H) Z := s ← get; read_le 4 (thiscpu s) off_cpuid.
Definition np_atomic_xchg (addr newval : Z) : M (nplat H) Z :=
  v ← read_le 4 addr 0; _ ← write_le 4 addr 0 newval; mret (i32 v).

(** ** Runs that at most fail an assertion *)

(** Either [m] ends with [Q], or a call of the host has failed and an assertion with it. *)
Definition awp {A} (m : M (nplat H) A) (s : nplat H) (Q : A -> nplat H -> Prop) : Prop :=
  match m s with Done a s' => Q a s' | Fault e => e = AssertFail end.

Lemma awp_bind {A B} (m : M (nplat H) A) (f : A -> M (nplat H) B) s Q :
  awp m s (fun a s' => awp (f a) s' Q) -> awp (m ≫= f) s Q.
Proof. unfold awp, mbind, M_bind. by destruct (m s). Qed.

Lemma awp_mono {A} (m : M (nplat H) A) s (Q Q' : A -> nplat H -> Prop) :
  awp m s Q -> (forall a s', Q a s' -> Q' a s') -> awp m s Q'.
Proof. unfold awp. destruct (m s); auto. Qed.

Lemma awp_ret {A} (a : A) s (Q : A -> nplat H -> Prop) : Q a s -> awp (mret a) s Q.
Proof. done. Qed.

Lemma awp_modify f s (Q : unit -> nplat H -> Prop) : Q tt (f s) -> awp (modify f) s Q.
Proof. done. Qed.

Lemma awp_get s (Q : nplat H -> nplat H -> Prop) : Q s s -> awp get s Q.
Proof. done. Qed.

Lemma awp_assert c s (Q : unit -> nplat H -> Prop) : (c = true -> Q tt s) -> awp (c_assert c) s Q.
Proof. destruct c; [|done]. intros HQ. by apply HQ. Qed.

Lemma awp_got s (Q : unit -> nplat H -> Prop) : allowed 0 (np_host s) got = true -> Q tt s -> awp use_got s Q.
Proof. intros Hg HQ. unfold awp, use_got, mbind, M_bind, get. by rewrite Hg. Qed.

Lemma awp_sys f s (Q : Z -> nplat H -> Prop) :
  (forall r h, f (np_host s) = (r, h) -> Q r (set_host h s)) -> awp (sys f) s Q.
Proof. unfold awp, sys. destruct (f (np_host s)) as [r h] eqn:E. auto. Qed.

Lemma awp_plt f s (Q : Z -> nplat H -> Prop) :
  allowed 0 (np_host s) got = true -> (forall r h, f (np_host s) = (r, h) -> Q r (set_host h s)) -> awp (plt f) s Q.
Proof. intros Hg HQ. apply awp_bind, awp_got; [done|]. by apply awp_sys. Qed.

Lemma awp_memcpy dst src n s (Q : unit -> nplat H -> Prop) :
  (forall x, inr src n x -> allowed 0 (np_host s) x = true) ->
  (forall x, inr dst n x -> allowed 1 (np_host s) x = true) ->
  Q tt (st_upd (copy_bytes dst src n) s) -> awp (c_memcpy dst src n) s Q.
Proof.
  intros Hs Hd HQ. apply awp_bind, awp_get.
  assert (forall bit a, (forall x, inr a n x -> allowed bit (np_host s) x = true) -> forallb (allowed bit (np_host s)) (seqZ a n) = true) as Hall.
  { intros bit a Ha. apply forallb_forall. intros x Hx%list_elem_of_In%elem_of_seqZ. by apply Ha. }
  by rewrite (Hall 0 src Hs), (Hall 1 dst Hd).
Qed.

(** A call whose result is compared. *)
Ltac awp_step :=
  lazymatch goal with
  | |- awp (mbind _ _) _ _ => apply awp_bind
  | |- awp (mret _) _ _ => apply awp_ret
  | |- awp (modify _) _ _ => apply awp_modify
  | |- awp get _ _ => apply awp_get
  | |- awp (c_assert _) _ _ => apply awp_assert
  end.

(** ** The data section *)

Context `{!HostLaws H}.
Abbreviation pg := (sys_pgsz (H := H)).

Lemma page_up_le n : n <= page_up pg n.
Proof.
  unfold page_up. pose proof (pgsz_pos (H := H)) as Hp. revert Hp. generalize pg. intros p Hp.
  pose proof (Z.div_mod (n + p - 1) p ltac:(lia)). pose proof (Z.mod_pos_bound (n + p - 1) p Hp). lia.
Qed.

Lemma load8_copy dst src n m x :
  load8 (copy_bytes dst src n m) x = if in_range dst n x then load8 m (src + (x - dst)) else load8 m x.
Proof. unfold load8 at 1, copy_bytes. destruct (in_range dst n x); [|done]. unfold load8. apply wrap_wrap. Qed.

Lemma load8_copy_in dst src n m x : inr dst n x -> load8 (copy_bytes dst src n m) x = load8 m (src + (x - dst)).
Proof. intros Hx%in_range_spec. by rewrite load8_copy, Hx. Qed.

Lemma load8_copy_out dst src n m x : ~ inr dst n x -> load8 (copy_bytes dst src n m) x = load8 m x.
Proof. intros Hx%in_range_not. by rewrite load8_copy, Hx. Qed.

(** What happens to the bytes: they go to [t], the section is replaced, they come back. *)
Lemma bytes_restored a t size n (m0 m1 m3 m4 m6 : mem) x :
  size <= n -> (forall x, inr a n x -> ~ inr t n x) ->
  only_in (inr t n) m0 m1 -> only_in (inr a n) (copy_bytes t a size m1) m3 -> only_in (inr a n) m3 m4 ->
  only_in (inr t n) (copy_bytes a t size m4) m6 ->
  ~ inr t n x -> ~ (a + size <= x < a + n) -> load8 m6 x = load8 m0 x.
Proof.
  intros Hn Hdisj B1 B3 B4 B6 Hx Htail. rewrite B6 by done.
  destruct (decide (a <= x < a + size)) as [Hin|Hout].
  - rewrite load8_copy_in by exact Hin.
    assert (inr t size (t + (x - a))) as Ht by (unfold inr; lia).
    assert (~ inr a n (t + (x - a))) as Hna by (intros Ha; apply (Hdisj _ Ha); unfold inr in *; lia).
    rewrite B4, B3 by exact Hna. rewrite load8_copy_in by exact Ht. rewrite B1.
    + f_equal. lia.
    + apply Hdisj. unfold inr. lia.
  - assert (~ inr a n x) by (unfold inr; lia).
    rewrite load8_copy_out by exact Hout. rewrite B4, B3 by done.
    rewrite load8_copy_out, B1 by (unfold inr in *; lia || done). done.
Qed.

Lemma section_start_aligned v : v - Z.land v 0xfff <> -1.
Proof.
  change 0xfff with (Z.ones 12). rewrite Z.land_ones by lia. change (2 ^ 12) with 4096.
  pose proof (Z.div_mod v 4096 ltac:(lia)). lia.
Qed.

(** What a remapped section leaves: its pages are shared, every other byte of the address space
    is as before, and every byte that was there is, but for those behind the end of the data. *)
Record remapped (a n : Z) (h h' : H) : Prop := mk_remapped {
  rm_shared : forall x, inr a n x -> h_map h' x = Some (mk_mapping 7 (Anon true));
  rm_outside : forall x, ~ inr a n x -> h_map h' x = h_map h x;
  rm_bytes : forall x, h_map h x <> None -> ~ (data_end <= x < a + n) -> load8 (st_mem h') x = load8 (st_mem h) x;
  rm_signals : same_signals h h';
}.

Lemma remap_segment_run memsz s :
  let a := data_end - memsz - Z.land (data_end - memsz) 0xfff in
  let n := page_up pg (data_end - a) in
  0 < memsz -> (forall x, inr a n x -> allowed 0 (np_host s) x = true) -> allowed 0 (np_host s) got = true ->
  awp (remap_segment memsz) s (fun _ s' => exists h', s' = set_host h' s /\ remapped a n (np_host s) h').
Proof.
  intros a n Hm Hr Hg. unfold remap_segment.
  assert (0 <= Z.land (data_end - memsz) 0xfff) as Hpad by (apply Z.land_nonneg; lia).
  replace (data_end - memsz - Z.land (data_end - memsz) 4095) with a by done.
  replace (memsz + Z.land (data_end - memsz) 4095) with (data_end - a) by (unfold a; lia).
  set (h0 := np_host s) in *. pose proof (page_up_le (data_end - a)) as Hn. fold n in Hn.
  awp_step. apply awp_plt; [done|]. intros t h1 E1. awp_step. awp_step. intros Ht%negb_true_iff%Z.eqb_neq.
  destruct (mmap_anywhere _ _ _ _ _ _ _ _ E1 Ht eq_refl) as (_ & _ & Hs1 & [Hm1 Hb1] & Hr1 & _). fold h0 n in Hm1, Hb1, Hr1.
  assert (forall x, h_map h0 x <> None -> ~ inr t n x) as Hfresh by (intros x Hx Hin; by destruct (Hr1 x Hin)).
  assert (forall x, inr a n x -> ~ inr t n x) as Hdisj.
  { intros x Hx. apply Hfresh. specialize (Hr x Hx). unfold allowed in Hr. by destruct (h_map h0 x). }
  assert (~ inr t n got) as Hgt by (apply Hfresh; unfold allowed in Hg; by destruct (h_map h0 got)).
  assert (allowed 0 h1 got = true) as Hg1 by (unfold allowed; by rewrite Hm1).
  awp_step. apply awp_got; [done|]. awp_step. apply awp_memcpy.
  { intros x Hx. unfold allowed. cbn [np_host set_host]. rewrite Hm1; [apply Hr|apply Hdisj]; unfold inr in *; lia. }
  { intros x Hx. unfold allowed. cbn [np_host set_host]. destruct (Hr1 x) as [_ ->]; [unfold inr in *; lia|done]. }
  set (h2 := st_upd (copy_bytes t a (data_end - a)) h1).
  change (st_upd _ (set_host h1 s)) with (set_host h2 s).
  destruct (upd_frame h1 (copy_bytes t a (data_end - a))) as [Hm2 Hs2]. fold h2 in Hm2, Hs2.
  assert (allowed 0 h2 got = true) as Hg2 by (unfold allowed; by rewrite Hm2).
  awp_step. apply awp_got; [done|]. awp_step. awp_step. intros _. awp_step. apply awp_got; [done|].
  awp_step. apply awp_plt; [done|]. cbn [np_host set_host]. intros r3 h3 E3. awp_step. awp_step. intros ->%Z.eqb_eq.
  destruct (munmap_law _ _ _ _ E3) as (Hs3 & [Hm3 Hb3] & Hr3). fold n in Hm3, Hb3, Hr3.
  awp_step. apply awp_sys. cbn [np_host set_host]. intros r4 h4 E4. awp_step. awp_step. intros ->%Z.eqb_eq.
  destruct (mmap_fixed _ _ _ _ _ _ _ _ _ E4) as (_ & Hs4 & [Hm4 Hb4] & Hr4 & _); [apply section_start_aligned|done|].
  fold n in Hm4, Hb4, Hr4.
  assert (forall x, ~ inr a n x -> h_map h4 x = h_map h1 x) as Hm41 by (intros x Hx; by rewrite Hm4, Hm3, Hm2).
  assert (forall x, inr t n x -> ~ inr a n x) as Hdisj' by (intros x Hx Ha; by apply (Hdisj x)).
  awp_step. apply awp_memcpy; cbn [np_host set_host].
  { intros x Hx. unfold allowed. rewrite Hm41 by (apply Hdisj'; unfold inr in *; lia).
    destruct (Hr1 x) as [_ ->]; [unfold inr in *; lia|done]. }
  { intros x Hx. unfold allowed. rewrite Hr4 by (unfold inr in *; lia). done. }
  set (h5 := st_upd (copy_bytes a t (data_end - a)) h4).
  change (st_upd _ (set_host h4 _)) with (set_host h5 s).
  destruct (upd_frame h4 (copy_bytes a t (data_end - a))) as [Hm5 Hs5]. fold h5 in Hm5, Hs5.
  awp_step. apply awp_plt.
  { unfold allowed. cbn [np_host set_host]. rewrite Hm5. destruct (decide (inr a n got)) as [Hin|Hout].
    - by rewrite Hr4.
    - rewrite Hm41 by done. exact Hg1. }
  cbn [np_host set_host]. intros r6 h6 E6. apply awp_assert. intros ->%Z.eqb_eq.
  destruct (munmap_law _ _ _ _ E6) as (Hs6 & [Hm6 Hb6] & Hr6). fold n in Hm6, Hb6, Hr6.
  exists h6. split; [done|]. split.
  - intros x Hx. rewrite Hm6 by (by apply Hdisj). rewrite Hm5. by rewrite Hr4.
  - intros x Hx. destruct (decide (inr t n x)) as [Hin|Hout].
    + rewrite Hr6 by done. by destruct (Hr1 x Hin) as [-> _].
    + by rewrite Hm6, Hm5, Hm41, Hm1.
  - intros x Hx Htail. unfold h2 in Hb3. unfold h5 in Hb6. rewrite st_mem_upd in Hb3, Hb6.
    apply (bytes_restored a t (data_end - a) n _ _ _ _ _ x Hn Hdisj Hb1 Hb3 Hb4 Hb6 (Hfresh x Hx)).
    by replace (a + (data_end - a)) with data_end by lia.
  - transitivity h1; [done|]. transitivity h2; [done|]. transitivity h3; [done|]. transitivity h4; [done|]. by transitivity h5.
Qed.

(** A section of data, and the bytes of its pages. *)
Definition is_data (ph : Elf64_Phdr) : bool := (p_type ph =? PT_LOAD) && negb (Z.land (p_flags ph) PF_W =? 0).
Definition seg_start (ph : Elf64_Phdr) : Z := data_end - p_memsz ph - Z.land (data_end - p_memsz ph) 0xfff.
Definition seg_len (ph : Elf64_Phdr) : Z := page_up pg (data_end - seg_start ph).
Definition in_data (l : list Elf64_Phdr) (x : Z) : Prop := exists ph, ph ∈ l /\ is_data ph = true /\ inr (seg_start ph) (seg_len ph) x.

(** The program is loaded: its data can be read, and the table of functions. *)
Definition loaded (l : list Elf64_Phdr) (h : H) : Prop :=
  (forall ph, ph ∈ l -> is_data ph = true -> 0 < p_memsz ph) /\
  (forall x, in_data l x -> allowed 0 h x = true) /\ allowed 0 h got = true.

Record relocated (l : list Elf64_Phdr) (h h' : H) : Prop := mk_relocated {
  rl_shared : forall x, in_data l x -> h_map h' x = Some (mk_mapping 7 (Anon true));
  rl_outside : forall x, ~ in_data l x -> h_map h' x = h_map h x;
  rl_bytes : forall x, h_map h x <> None -> ~ (data_end <= x /\ in_data l x) -> load8 (st_mem h') x = load8 (st_mem h) x;
  rl_signals : same_signals h h';
}.

Lemma in_data_cons ph l x :
  in_data (ph :: l) x <-> (is_data ph = true /\ inr (seg_start ph) (seg_len ph) x) \/ in_data l x.
Proof.
  unfold in_data. split.
  - intros (ph' & [->|Hin]%elem_of_cons & Hd); [by left|right; eauto].
  - intros [Hd|(ph' & Hin & Hd)]; [exists ph|exists ph']; (split; [|done]); by constructor.
Qed.

Lemma in_data_dec l x : {in_data l x} + {~ in_data l x}.
Proof.
  induction l as [|ph l IH].
  - right. intros (ph & Hph & _). by apply not_elem_of_nil in Hph.
  - destruct (is_data ph) eqn:Ed, (in_range (seg_start ph) (seg_len ph) x) eqn:Er, IH as [IH|IH];
      try (left; apply in_data_cons; rewrite <- in_range_spec; tauto);
      right; rewrite in_data_cons, <- in_range_spec; intros [[? ?]|?]; congruence.
Qed.

Lemma remapped_loaded ph l h h' :
  loaded (ph :: l) h -> remapped (seg_start ph) (seg_len ph) h h' -> loaded l h'.
Proof.
  intros (Hsz & Hd & Hg) [R1 R2 _ _].
  assert (forall x, allowed 0 h x = true -> allowed 0 h' x = true) as Hkeep.
  { intros x Hx. unfold allowed. destruct (in_range (seg_start ph) (seg_len ph) x) eqn:E.
    - apply in_range_spec in E. by rewrite R1.
    - rewrite R2; [exact Hx|]. rewrite <- in_range_spec. congruence. }
  split; [|split; [|by apply Hkeep]].
  - intros ph' Hph'. apply Hsz. by constructor.
  - intros x Hx. apply Hkeep, Hd, in_data_cons. by right.
Qed.

Lemma remapped_relocated ph l h h1 h' :
  is_data ph = true -> 0 < p_memsz ph -> remapped (seg_start ph) (seg_len ph) h h1 -> relocated l h1 h' -> relocated (ph :: l) h h'.
Proof.
  intros Ed Hsz [R1 R2 R3 R4] [S1 S2 S3 S4]. split.
  - intros x [[_ Hx]|Hx]%in_data_cons; [|by apply S1]. destruct (in_data_dec l x); [by apply S1|]. rewrite S2 by done. by apply R1.
  - intros x Hx. rewrite in_data_cons in Hx. rewrite S2, R2 by tauto. done.
  - intros x Hm Hx. rewrite in_data_cons in Hx. rewrite S3, R3; [done|done| | |tauto].
    + intros Htail. apply Hx. split; [lia|]. left. split; [done|]. split; [|lia].
      unfold seg_start. assert (0 <= Z.land (data_end - p_memsz ph) 0xfff) by (apply Z.land_nonneg; lia). lia.
    + destruct (in_range (seg_start ph) (seg_len ph) x) eqn:E.
      * apply in_range_spec in E. by rewrite R1.
      * rewrite R2; [done|]. rewrite <- in_range_spec. congruence.
  - by transitivity h1.
Qed.

Lemma remap_loop_run l s :
  loaded l (np_host s) ->
  awp (remap_loop l) s (fun _ s' => exists h', s' = set_host h' s /\ relocated l (np_host s) h').
Proof.
  revert s. induction l as [|ph l IH]; intros s (Hsz & Hd & Hg); cbn [remap_loop].
  - apply awp_ret. exists (np_host s). split; [by destruct s|].
    split; [|done..]. intros x (ph & Hph & _). by apply not_elem_of_nil in Hph.
  - apply awp_bind. fold (is_data ph). destruct (is_data ph) eqn:Ed.
    + eapply awp_mono; [apply remap_segment_run; [apply Hsz; [by constructor|done]| |done]|].
      { intros x Hx. apply Hd, in_data_cons. by left. }
      intros _ s1 (h1 & -> & Hr). fold (seg_start ph) (seg_len ph) in Hr.
      eapply awp_mono; [apply IH, (remapped_loaded ph l (np_host s)); done|].
      intros _ s' (h' & -> & Hl). exists h'. split; [done|].
      apply (remapped_relocated ph l _ h1); [done|apply Hsz; [by constructor|done]|done|done].
    + apply awp_ret. eapply awp_mono; [apply IH|].
      { split; [|split; [|done]].
        - intros ph' Hph'. apply Hsz. by constructor.
        - intros x Hx. apply Hd, in_data_cons. by right. }
      intros _ s' (h' & -> & [R1 R2 R3 R4]). exists h'. split; [done|]. clear - R1 R2 R3 R4 Ed.
      assert (forall x, in_data (ph :: l) x <-> in_data l x) as Hiff by (intros x; rewrite in_data_cons, Ed; intuition congruence).
      split; [intros x; rewrite Hiff; apply R1|intros x; rewrite Hiff; apply R2|intros x; rewrite Hiff; apply R3|done].
Qed.

(** ** The machine *)

Definition cpu_size : Z := off_sigstack + SIGSTKSZ.

(** Addresses that are neither physical memory nor in the trap page. *)
Definition elsewhere (x : Z) : Prop :=
  ~ inr PMEM_START (page_up pg PMEM_SIZE) x /\ ~ inr TRAP_PAGE_START (page_up pg pg) x.

(** Physical memory is the file, byte by byte, and shared; the structure of the processor is
    private and zero; the trap page is there and cannot be used. *)
Record built (s : nplat H) : Prop := mk_built {
  b_pmem : pmem s = PMEM_START;
  b_pmem_map : forall x, inr PMEM_START PMEM_SIZE x ->
    h_map (np_host s) x = Some (mk_mapping 7 (FileMap true (pmem_fd s) (x - PMEM_START)));
  b_cpu_pos : thiscpu s <> 0;
  b_cpu_map : forall x, inr (thiscpu s) cpu_size x -> h_map (np_host s) x = Some (mk_mapping 3 (Anon false));
  b_cpuid : load_le 4 (st_mem (np_host s)) (thiscpu s + off_cpuid) = 0;
  b_vm_head : load_le 8 (st_mem (np_host s)) (thiscpu s + off_vm_head) = 0;
  b_trap : forall x, inr TRAP_PAGE_START pg x -> h_map (np_host s) x = Some (mk_mapping PROT_NONE (Anon true));
}.

(** What was mapped elsewhere in [h0] is as it was. *)
Definition kept (h0 h : H) : Prop :=
  forall x, elsewhere x -> h_map h0 x <> None -> h_map h x = h_map h0 x /\ load8 (st_mem h) x = load8 (st_mem h0) x.

Hypothesis sigstack_size : 0 <= SIGSTKSZ.
Hypothesis trap_page_low : TRAP_PAGE_START + page_up pg pg <= mmap_low (H := H).
Hypothesis trap_page_below : TRAP_PAGE_START + page_up pg pg <= PMEM_START.
Hypothesis got_elsewhere : elsewhere got.

Lemma kept_got h0 h : kept h0 h -> allowed 0 h0 got = true -> allowed 0 h got = true.
Proof.
  intros Hk Hg. unfold allowed in *. destruct (Hk got) as [-> _]; [done| |done]. by destruct (h_map h0 got).
Qed.

Lemma kept_trans h0 h1 h2 : kept h0 h1 -> kept h1 h2 -> kept h0 h2.
Proof.
  intros K1 K2 x Hx Hm. destruct (K1 x Hx Hm) as [E1 F1]. rewrite <- E1, <- F1. apply K2; [done|]. by rewrite E1.
Qed.

Lemma map_pmem_run s :
  allowed 0 (np_host s) got = true ->
  awp map_pmem s (fun _ s' => exists fd h', s' = set_pmem PMEM_START (set_pmem_fd fd (set_host h' s)) /\
    kept (np_host s) h' /\ same_signals (np_host s) h' /\
    (forall x, ~ inr PMEM_START (page_up pg PMEM_SIZE) x -> h_map h' x = h_map (np_host s) x) /\
    forall x, inr PMEM_START (page_up pg PMEM_SIZE) x -> h_map h' x = Some (mk_mapping 7 (FileMap true fd (x - PMEM_START)))).
Proof.
  intros Hg. unfold map_pmem.
  awp_step. apply awp_plt; [done|]. intros fd h1 E1. destruct (memfd_law _ _ _ E1) as [[Sm1 Sb1] Ss1].
  awp_step. awp_step. awp_step. awp_step. intros _.
  assert (allowed 0 h1 got = true) as Hg1 by (unfold allowed; by rewrite Sm1).
  awp_step. apply awp_plt; [done|]. intros r h2 E2. destruct (ftruncate_law _ _ _ _ _ E2) as [[Sm2 Sb2] Ss2].
  cbn [np_host set_pmem_fd set_host] in Sm2, Sb2, Ss2.
  assert (allowed 0 h2 got = true) as Hg2 by (unfold allowed; by rewrite Sm2).
  awp_step. awp_step. intros _. awp_step. apply awp_plt; [done|]. intros p h3 E3.
  awp_step. awp_step. awp_step. intros Hp%negb_true_iff%Z.eqb_neq.
  destruct (mmap_fixed _ _ _ _ _ _ _ _ _ E3 Hp eq_refl) as (-> & Ss3 & [Hm3 Hb3] & Hr3 & _).
  cbn [np_host set_pmem_fd set_host] in Ss3, Hm3, Hb3, Hr3.
  exists fd, h3. split; [done|]. split; [|split; [|split]].
  - intros x [Hx _] _. split; [by rewrite Hm3, Sm2, Sm1|]. rewrite Hb3 by done. by rewrite Sb2, Sb1.
  - transitivity h1; [done|]. by transitivity h2.
  - intros x Hx. by rewrite Hm3, Sm2, Sm1.
  - intros x Hx. by rewrite Hr3.
Qed.

Lemma alloc_cpu_run s :
  allowed 0 (np_host s) got = true ->
  awp alloc_cpu s (fun _ s' => exists p h', s' = set_thiscpu p (set_host h' s) /\ p <> 0 /\ mmap_low (H := H) <= p /\
    (forall x, h_map (np_host s) x <> None -> h_map h' x = h_map (np_host s) x /\ load8 (st_mem h') x = load8 (st_mem (np_host s)) x) /\
    (forall x, inr p cpu_size x -> h_map (np_host s) x = None /\ h_map h' x = Some (mk_mapping 3 (Anon false))) /\
    load_le 4 (st_mem h') (p + off_cpuid) = 0 /\ load_le 8 (st_mem h') (p + off_vm_head) = 0 /\ same_signals (np_host s) h').
Proof.
  intros Hg. unfold alloc_cpu. fold cpu_size.
  awp_step. apply awp_plt; [done|]. intros p h1 E1. awp_step. awp_step. awp_step. awp_step. intros Hp%negb_true_iff%Z.eqb_neq.
  destruct (mmap_anywhere _ _ _ _ _ _ _ _ E1 Hp eq_refl) as (Hlow & Hp0 & Ss1 & [Hm1 Hb1] & Hr1 & _).
  pose proof (page_up_le cpu_size) as Hn. unfold off_cpuid, off_vm_head.
  assert (24 <= cpu_size) as Hsz by (unfold cpu_size, off_sigstack; lia).
  awp_step. unfold write_le. destruct (Z.eqb_spec p 0); [done|]. awp_step. awp_step.
  set (f1 := fun m : mem => store_le 4 m (p + 16) 0). set (f2 := fun m : mem => store_le 8 m (p + 0) 0).
  exists p, (st_upd f2 (st_upd f1 h1)). split; [done|].
  destruct (upd_frame h1 f1) as [F1 G1]. destruct (upd_frame (st_upd f1 h1) f2) as [F2 G2].
  assert (st_mem (st_upd f2 (st_upd f1 h1)) = f2 (f1 (st_mem h1))) as Em by (by rewrite !st_mem_upd).
  split; [done|]. split; [done|]. split; [|split; [|split; [|split]]].
  - intros x Hx. assert (~ inr p (page_up pg cpu_size) x) as Hout by (intros Hin; by destruct (Hr1 x Hin)).
    split; [by rewrite F2, F1, Hm1|]. rewrite Em. unfold f1, f2.
    rewrite !store_le_outside by (unfold inr in Hout; lia). by apply Hb1.
  - intros x Hx. rewrite F2, F1. apply Hr1. unfold inr in *. lia.
  - rewrite Em. unfold f2. rewrite (only_in_load (inr p 8) 4 (f1 (st_mem h1))); [by apply (load_store_le 4)| |unfold inr; lia].
    apply only_in_store; [apply only_in_refl|]. unfold inr. lia.
  - rewrite Em. by apply (load_store_le 8).
  - transitivity h1; [done|]. by transitivity (st_upd f1 h1).
Qed.

Lemma map_trap_page_run s :
  allowed 0 (np_host s) got = true ->
  awp map_trap_page s (fun _ s' => exists h', s' = set_host h' s /\ same_signals (np_host s) h' /\
    (forall x, ~ inr TRAP_PAGE_START (page_up pg pg) x ->
      h_map h' x = h_map (np_host s) x /\ load8 (st_mem h') x = load8 (st_mem (np_host s)) x) /\
    forall x, inr TRAP_PAGE_START (page_up pg pg) x -> h_map h' x = Some (mk_mapping PROT_NONE (Anon true))).
Proof.
  intros Hg. unfold map_trap_page. awp_step. apply awp_plt; [done|]. intros r h1 E1.
  apply awp_assert. intros Hr%negb_true_iff%Z.eqb_neq.
  destruct (mmap_fixed _ _ _ _ _ _ _ _ _ E1 Hr eq_refl) as (_ & Ss1 & [Hm1 Hb1] & Hr1 & _).
  exists h1. split; [done|]. split; [done|]. split.
  - intros x Hx. split; [by apply Hm1|by apply Hb1].
  - intros x Hx. by rewrite Hr1.
Qed.

(** The first part of [init_platform]. *)
Lemma machine_run {B} (K : M (nplat H) B) s Q :
  allowed 0 (np_host s) got = true ->
  (forall s', built s' -> kept (np_host s) (np_host s') -> same_signals (np_host s) (np_host s') ->
    (forall x, inr (thiscpu s') cpu_size x -> elsewhere x -> h_map (np_host s) x = None) -> awp K s' Q) ->
  awp (_ ← map_pmem; _ ← alloc_cpu; _ ← map_trap_page; K) s Q.
Proof.
  intros Hg HK. apply awp_bind. eapply awp_mono; [by apply map_pmem_run|].
  intros [] s1 (fd & h1 & -> & K1 & Ss1 & Mo1 & Mi1). pose proof (kept_got _ _ K1 Hg) as Hg1.
  apply awp_bind. eapply awp_mono; [by apply alloc_cpu_run|].
  intros [] s2 (p & h2 & -> & Hp0 & Hlow & K2 & C2 & I2 & V2 & Ss2). cbn [np_host set_pmem set_pmem_fd set_host] in *.
  assert (kept h1 h2) as K2' by (intros x _; apply K2). pose proof (kept_got _ _ K2' Hg1) as Hg2.
  apply awp_bind. eapply awp_mono; [by apply map_trap_page_run|].
  intros [] s3 (h3 & -> & Ss3 & O3 & T3). cbn [np_host set_thiscpu set_host] in *.
  pose proof (page_up_le PMEM_SIZE) as HnP. pose proof (page_up_le pg) as HnT.
  assert (forall x, inr p cpu_size x -> ~ inr TRAP_PAGE_START (page_up pg pg) x) as Hct by (unfold inr; lia).
  assert (24 <= cpu_size) as Hsz by (unfold cpu_size, off_sigstack; lia).
  assert (forall n off, 0 <= off -> off + Z.of_nat n <= 24 -> load_le n (st_mem h3) (p + off) = load_le n (st_mem h2) (p + off)) as Hld.
  { intros n off Hoff Hn. apply load_le_ext. intros x Hx. apply O3. apply Hct. unfold inr. lia. }
  apply HK; cbn [np_host set_thiscpu set_host].
  - split; cbn [np_host set_thiscpu set_host pmem pmem_fd thiscpu set_pmem set_pmem_fd]; try done.
    + intros x Hx. assert (inr PMEM_START (page_up pg PMEM_SIZE) x) as Hx' by (unfold inr in *; lia).
      assert (h_map h1 x = Some (mk_mapping 7 (FileMap true fd (x - PMEM_START)))) as E1 by (by apply Mi1).
      destruct (O3 x) as [-> _]. { unfold inr in *. lia. }
      destruct (K2 x) as [-> _]; [by rewrite E1|done].
    + intros x Hx. destruct (O3 x) as [-> _]; [by apply Hct|]. by apply C2.
    + unfold off_cpuid. rewrite Hld by lia. exact I2.
    + unfold off_vm_head. rewrite Hld by lia. exact V2.
    + intros x Hx. apply T3. unfold inr in *. lia.
  - apply (kept_trans _ h1); [done|]. apply (kept_trans _ h2); [done|]. intros x [_ Hx] _. by apply O3.
  - transitivity h1; [done|]. by transitivity h2.
  - intros x Hx [Hx' _]. destruct (C2 x Hx) as [E _]. by rewrite Mo1 in E.
Qed.

(** The data sections are loaded, apart from the machine. *)
Definition program_ok (h : H) : Prop := loaded phdrs h /\ forall x, in_data phdrs x -> elsewhere x.

(** The machine and the data after the sections are remapped. *)
Lemma remap_built h0 s :
  program_ok h0 -> built s -> kept h0 (np_host s) ->
  (forall x, inr (thiscpu s) cpu_size x -> elsewhere x -> h_map h0 x = None) ->
  awp (remap_loop phdrs) s (fun _ s' => exists h', s' = set_host h' s /\ built s' /\ same_signals (np_host s) h' /\
    allowed 0 h' got = true /\
    forall x, in_data phdrs x -> h_map h' x = Some (mk_mapping 7 (Anon true)) /\
      (x < data_end -> load8 (st_mem h') x = load8 (st_mem h0) x)).
Proof.
  intros [(Hsz & Hd & Hg) Hel] Hb Hk Hfresh.
  assert (forall x, in_data phdrs x -> h_map h0 x <> None) as Hmapped.
  { intros x Hx. specialize (Hd x Hx). unfold allowed in Hd. by destruct (h_map h0 x). }
  assert (loaded phdrs (np_host s)) as Hl.
  { split; [done|]. split; [|by apply (kept_got h0)]. intros x Hx. destruct (Hk x (Hel x Hx) (Hmapped x Hx)) as [E _].
    unfold allowed. rewrite E. by apply Hd. }
  eapply awp_mono; [by apply remap_loop_run|]. intros [] s' (h' & -> & [R1 R2 R3 R4]).
  exists h'. split; [done|]. destruct Hb as [B1 B2 B3 B4 B5 B6 B7].
  assert (24 <= cpu_size) as Hcs by (unfold cpu_size, off_sigstack; lia).
  pose proof (page_up_le PMEM_SIZE) as HnP. pose proof (page_up_le pg) as HnT.
  assert (forall x, inr (thiscpu s) cpu_size x -> ~ in_data phdrs x) as Hcd.
  { intros x Hx Hin. by apply (Hmapped x Hin), Hfresh, Hel. }
  assert (forall n off, 0 <= off -> off + Z.of_nat n <= 24 ->
    load_le n (st_mem h') (thiscpu s + off) = load_le n (st_mem (np_host s)) (thiscpu s + off)) as Hld.
  { intros n off Hoff Hn. apply load_le_ext. intros x Hx. assert (inr (thiscpu s) cpu_size x) by (unfold inr; lia).
    apply R3; [by rewrite B4|]. intros [_ Hin]. by apply (Hcd x). }
  split; [split; cbn [np_host set_host pmem pmem_fd thiscpu]; try done|].
  - intros x Hx. rewrite R2; [by apply B2|]. intros [Hin _]%Hel. apply Hin. unfold inr in *. lia.
  - intros x Hx. rewrite R2; [by apply B4|]. by apply Hcd.
  - unfold off_cpuid in *. by rewrite Hld by lia.
  - unfold off_vm_head in *. by rewrite Hld by lia.
  - intros x Hx. rewrite R2; [by apply B7|]. intros [_ Hin]%Hel. apply Hin. unfold inr in *. lia.
  - split; [done|]. split.
    + destruct Hl as (_ & _ & Hg'). unfold allowed. destruct (in_data_dec phdrs got) as [Hin|Hout]; [by rewrite R1|].
      rewrite R2 by done. exact Hg'.
    + intros x Hx. split; [by apply R1|]. intros Hlt. destruct (Hk x (Hel x Hx) (Hmapped x Hx)) as [E <-].
      apply R3; [rewrite E; by apply Hmapped|]. lia.
Qed.

(** The second part: signals, the template of contexts, the sizes. *)
Definition second_part : M (nplat H) (list Z) :=
  _ ← modify (fun s => set_heap (pmem s, pmem s + PMEM_SIZE) s);
  _ ← init_sigmask;
  _ ← setup_sigaltstack;
  _ ← save_example_context;
  _ ← finish_template;
  _ ← np_iset false;
  _ ← set_sizes;
  mret (default [] mainargs).

(** The signals of [s'] are ready: both interrupts are blocked, the signal stack lies in the
    processor's structure, the template of contexts is one the host has made, with interrupts
    blocked. *)
Record signals_ready (h0 : H) (s' : nplat H) : Prop := mk_signals_ready {
  sr_mask : h_mask (np_host s') = h_mask h0 ∪ __am_intr_sigmask;
  sr_stack : h_altstack (np_host s') = (thiscpu s' + off_sigstack, SIGSTKSZ);
  sr_usr1 : sa_handler (h_action (np_host s') SIGUSR1) = None;
  sr_sigmask : intr_sigmask s' = __am_intr_sigmask;
  sr_template : exists h uc fp, saved_uc h = (uc, fp) /\
    uc_example s' = mk_uc (uc_rip uc) (uc_rsp uc) (uc_rdi uc) (uc_rsi uc) __am_intr_sigmask (uc_rest uc) /\ uc_fpregs s' = 0;
}.

Record sizes_ok (s' : nplat H) : Prop := mk_sizes_ok {
  so_heap : heap s' = (pmem s', pmem s' + PMEM_SIZE);
  so_ncpu : 1 <= ncpu s' <= MAX_CPU;
  so_pgsize : 0 < pgsize s' /\ (pg | pgsize s');
}.

Lemma same_space_got h h' : same_space h h' -> allowed 0 h got = true -> allowed 0 h' got = true.
Proof. intros [E _]. unfold allowed. by rewrite E. Qed.

Lemma setup_sigaltstack_run s :
  allowed 0 (np_host s) got = true ->
  awp setup_sigaltstack s (fun _ s' => exists h', s' = set_host h' s /\ same_space (np_host s) h' /\
    h_mask h' = h_mask (np_host s) /\ h_altstack h' = (thiscpu s + off_sigstack, SIGSTKSZ)).
Proof.
  intros Hg. unfold setup_sigaltstack. awp_step. awp_step. awp_step. apply awp_plt; [done|]. intros r h1 E1.
  apply awp_assert. intros ->%Z.eqb_eq. destruct (sigaltstack_law _ _ _ _ E1) as (Hs & Hm & _ & _ & Ha). by exists h1.
Qed.

Lemma save_example_context_run s :
  allowed 0 (np_host s) got = true -> SIGUSR1 ∉ h_mask (np_host s) ->
  awp save_example_context s (fun _ s' => exists h' h uc fp, s' = set_uc uc fp (set_host h' s) /\ saved_uc h = (uc, fp) /\
    same_space (np_host s) h' /\ h_mask h' = h_mask (np_host s) /\ h_altstack h' = h_altstack (np_host s) /\
    sa_handler (h_action h' SIGUSR1) = None).
Proof.
  intros Hg Hu. unfold save_example_context. awp_step. apply awp_plt; [done|]. intros r1 h1 E1. awp_step. awp_step. intros ->%Z.eqb_eq.
  destruct (sigaction_law _ _ _ _ E1) as (Hs1 & Hm1 & Ha1 & _ & Hact1).
  awp_step. unfold raise_usr1, delivery. awp_step. awp_step. cbn [np_host set_host].
  rewrite bool_decide_false by (by rewrite Hm1). rewrite Hact1, Z.eqb_refl. cbn [sa_handler]. rewrite Z.eqb_refl.
  awp_step. destruct (saved_uc h1) as [uc fp] eqn:Es. cbn [np_host set_host]. rewrite Es.
  awp_step. apply awp_plt. { cbn [np_host set_uc set_host fst snd]. by apply (same_space_got (np_host s)). }
  cbn [np_host set_uc set_host fst snd]. intros r2 h2 E2. apply awp_assert. intros ->%Z.eqb_eq.
  destruct (sigaction_law _ _ _ _ E2) as (Hs2 & Hm2 & Ha2 & _ & Hact2).
  exists h2, h1, uc, fp. split; [done|]. split; [done|]. split; [by transitivity h1|]. split; [congruence|]. split; [congruence|].
  by rewrite Hact2, Z.eqb_refl.
Qed.

Lemma np_iset_run enable s :
  allowed 0 (np_host s) got = true ->
  awp (np_iset enable) s (fun _ s' => exists h', s' = set_host h' s /\ same_space (np_host s) h' /\
    h_action h' = h_action (np_host s) /\ h_altstack h' = h_altstack (np_host s) /\ h_timer h' = h_timer (np_host s) /\
    h_mask h' = if enable then h_mask (np_host s) ∖ intr_sigmask s else h_mask (np_host s) ∪ intr_sigmask s).
Proof.
  intros Hg. unfold np_iset. awp_step. awp_step. awp_step. apply awp_plt; [done|]. intros r h1 E1.
  apply awp_assert. intros ->%Z.eqb_eq. destruct (sigprocmask_law _ _ _ _ E1) as (Hs & Ha & Hal & Ht & Hm).
  exists h1. split_and!; try done. rewrite Hm. by destruct enable.
Qed.

Lemma set_sizes_run s :
  awp set_sizes s (fun _ s' => exists n p, s' = set_pgsize p (set_ncpu n s) /\ 1 <= n <= MAX_CPU /\ 0 < p /\ (pg | p)).
Proof.
  unfold set_sizes. awp_step. awp_step. awp_step. awp_step. intros Hn. awp_step. awp_step. apply awp_assert. intros Hp.
  eexists _, _. split; [reflexivity|]. apply andb_true_iff in Hn as [Hn1 Hn2], Hp as [Hp1 Hp2%Z.eqb_eq].
  split; [lia|]. split; [lia|]. apply Z.rem_divide; [|done]. pose proof (pgsz_pos (H := H)) as Hpos. intros E0. by rewrite E0 in Hpos.
Qed.

Lemma second_part_run s :
  allowed 0 (np_host s) got = true -> SIGUSR1 ∉ h_mask (np_host s) ->
  awp second_part s (fun args s' => args = default [] mainargs /\ same_space (np_host s) (np_host s') /\
    pmem s' = pmem s /\ pmem_fd s' = pmem_fd s /\ thiscpu s' = thiscpu s /\ signals_ready (np_host s) s' /\ sizes_ok s').
Proof.
  intros Hg Hu. unfold second_part. awp_step. awp_step. unfold init_sigmask. do 6 awp_step.
  set (s1 := set_intr_sigmask _ _). change (np_host s) with (np_host s1) in *.
  assert (intr_sigmask s1 = __am_intr_sigmask) as Hmask1 by exact sigmask_built.
  awp_step. eapply awp_mono; [by apply setup_sigaltstack_run|]. intros [] s2 (h2 & -> & Sp2 & Mk2 & St2).
  awp_step. eapply awp_mono; [apply save_example_context_run|].
  { by apply (same_space_got (np_host s1)). }
  { cbn [np_host set_host]. by rewrite Mk2. }
  intros [] s3 (h3 & h & uc & fp & -> & Es & Sp3 & Mk3 & St3 & Us3). cbn [np_host set_host] in *.
  awp_step. unfold finish_template. awp_step. awp_step.
  set (s4 := set_uc _ _ _). assert (np_host s4 = h3) as Eh4 by done.
  assert (intr_sigmask s4 = __am_intr_sigmask) as Hmask4 by exact sigmask_built.
  eapply awp_mono; [apply np_iset_run|].
  { rewrite Eh4. apply (same_space_got h2); [done|]. by apply (same_space_got (np_host s1)). }
  intros [] s5 (h5 & -> & Sp5 & Ac5 & St5 & _ & Mk5). rewrite Eh4 in *.
  awp_step. eapply awp_mono; [by apply set_sizes_run|]. intros [] s6 (n & p & -> & Hn & Hp & Hdiv). awp_step.
  split; [done|]. split; [|do 3 (split; [done|])].
  - cbn [np_host set_pgsize set_ncpu set_host]. transitivity h2; [done|]. by transitivity h3.
  - split.
    + split; cbn [np_host set_pgsize set_ncpu set_host].
      * rewrite Mk5, Mk3, Mk2, Hmask4. done.
      * rewrite St5, St3. exact St2.
      * by rewrite Ac5.
      * exact Hmask1.
      * exists h, uc, fp. split; [done|]. split; [|done].
        change (mk_uc (uc_rip uc) (uc_rsp uc) (uc_rdi uc) (uc_rsi uc) (intr_sigmask s1) (uc_rest uc) =
          mk_uc (uc_rip uc) (uc_rsp uc) (uc_rdi uc) (uc_rsi uc) __am_intr_sigmask (uc_rest uc)). by rewrite Hmask1.
    + by split.
Qed.

Lemma built_same s s' :
  built s -> same_space (np_host s) (np_host s') -> pmem s' = pmem s -> pmem_fd s' = pmem_fd s -> thiscpu s' = thiscpu s -> built s'.
Proof.
  intros [B1 B2 B3 B4 B5 B6 B7] [Em Eb] E1 E2 E3. split; rewrite ?Em, ?Eb, ?E1, ?E2, ?E3; done.
Qed.

(** C20: the constructor of the native port, on any host: either a call of the host fails and an
    assertion with it, or it builds the machine. It never touches memory that is not there,
    although the table of library functions is unmapped with the data section it lies in. The
    data of the program keeps every byte and is shared with child processes from then on;
    physical memory is a shared file at its fixed address, the heap all of it; the trap page
    cannot be used; the processor's structure is private and zero, with the signal stack in
    it; both interrupt signals are blocked; the template of contexts is one of the host's with
    interrupts blocked; the numbers of processors and the page size are in range. *)
Theorem init_platform_spec s :
  program_ok (np_host s) -> SIGUSR1 ∉ h_mask (np_host s) ->
  awp init_platform s (fun args s' => args = default [] mainargs /\ built s' /\ signals_ready (np_host s) s' /\ sizes_ok s' /\
    forall x, in_data phdrs x -> h_map (np_host s') x = Some (mk_mapping 7 (Anon true)) /\
      (x < data_end -> load8 (st_mem (np_host s')) x = load8 (st_mem (np_host s)) x)).
Proof.
  intros Hp Hu. pose proof Hp as [(_ & _ & Hg) _]. unfold init_platform.
  apply machine_run; [done|]. intros s1 Hb1 Hk1 Ss1 Hf1.
  awp_step. apply awp_got; [by apply (kept_got (np_host s))|]. awp_step. awp_step. awp_step. awp_step. intros _.
  awp_step. eapply awp_mono; [apply (remap_built (np_host s)); try done|].
  { by destruct Hb1. }
  intros [] s2 (h2 & -> & Hb2 & Ss2 & Hg2 & Hd2). cbn [np_host set_memcpy] in Ss2.
  change (awp second_part (set_host h2 (set_memcpy libc_memcpy s1)) (fun args s' => args = default [] mainargs /\ built s' /\
    signals_ready (np_host s) s' /\ sizes_ok s' /\
    forall x, in_data phdrs x -> h_map (np_host s') x = Some (mk_mapping 7 (Anon true)) /\
      (x < data_end -> load8 (st_mem (np_host s')) x = load8 (st_mem (np_host s)) x))).
  assert (h_mask h2 = h_mask (np_host s)) as Hm2 by (destruct Ss1 as [E1 _], Ss2 as [E2 _]; congruence).
  eapply awp_mono; [apply second_part_run; [done|]|].
  { cbn [np_host set_host]. by rewrite Hm2. }
  intros args s3 (-> & Sp3 & Ep & Ef & Ec & [R1 R2 R3 R4 R5] & Hsz). split; [done|]. split; [by eapply built_same|].
  cbn [np_host set_host] in *. split; [split; try done; by rewrite R1, Hm2|]. split; [done|].
  intros x Hx. destruct Sp3 as [-> ->]. by apply Hd2.
Qed.

(** ** Interrupts and the end *)

Lemma sigaction_run {B} sig act (K : M (nplat H) B) s Q :
  allowed 0 (np_host s) got = true ->
  (forall h', same_space (np_host s) h' -> h_mask h' = h_mask (np_host s) -> 
    (forall n, h_action h' n = if n =? sig then act else h_action (np_host s) n) -> awp K (set_host h' s) Q) ->
  awp (ret ← plt (sys_sigaction sig act); _ ← c_assert (ret =? 0); K) s Q.
Proof.
  intros Hg HK. awp_step. apply awp_plt; [done|]. intros r h1 E1. awp_step. awp_step. intros ->%Z.eqb_eq.
  destruct (sigaction_law _ _ _ _ E1) as (Hs & Hm & _ & _ & Ha). by apply HK.
Qed.

Lemma install_signal_handler_run s :
  allowed 0 (np_host s) got = true ->
  awp install_signal_handler s (fun _ s' => exists h', s' = set_host h' s /\ same_space (np_host s) h' /\
    h_mask h' = h_mask (np_host s) /\
    forall sig, h_action h' sig =
      if bool_decide (sig ∈ [SIGVTALRM; SIGUSR1; SIGUSR2; SIGSEGV])
      then mk_sigact (Some sig_handler_) (Z.lor (Z.lor SA_SIGINFO SA_RESTART) SA_ONSTACK) (intr_sigmask s)
      else h_action (np_host s) sig).
Proof.
  intros Hg. unfold install_signal_handler. awp_step. awp_step. set (act := mk_sigact _ _ _).
  apply sigaction_run; [done|]. intros h1 S1 M1 A1.
  apply sigaction_run; cbn [np_host set_host]; [by apply (same_space_got (np_host s))|]. intros h2 S2 M2 A2.
  assert (same_space (np_host s) h2) as S02 by (by transitivity h1).
  apply sigaction_run; cbn [np_host set_host]; [by apply (same_space_got (np_host s))|]. intros h3 S3 M3 A3.
  assert (same_space (np_host s) h3) as S03 by (by transitivity h2).
  apply sigaction_run; cbn [np_host set_host]; [by apply (same_space_got (np_host s))|]. intros h4 S4 M4 A4.
  awp_step. exists h4. split; [done|]. split; [by transitivity h3|]. split; [congruence|].
  intros sig. rewrite A4, A3, A2, A1.
  destruct (Z.eqb_spec sig SIGSEGV) as [->|N1]; [done|]. destruct (Z.eqb_spec sig SIGUSR2) as [->|N2]; [done|].
  destruct (Z.eqb_spec sig SIGUSR1) as [->|N3]; [done|]. destruct (Z.eqb_spec sig SIGVTALRM) as [->|N4]; [done|].
  rewrite bool_decide_false; [done|]. rewrite !elem_of_cons, elem_of_nil. clear - N1 N2 N3 N4. tauto.
Qed.

(** [cte_init] of the native port, when no call of the host fails: the four signals that
    stand for interrupts, system calls and faults go to [sig_handler] on the signal stack with
    both interrupts blocked, no other signal changes, interrupts are off, and the timer runs
    at 100 Hz. *)
Theorem np_cte_init_spec handler s :
  allowed 0 (np_host s) got = true -> intr_sigmask s = __am_intr_sigmask ->
  awp (np_cte_init handler) s (fun r s' => r = true /\ user_handler s' = handler /\ same_space (np_host s) (np_host s') /\
    (forall sig, h_action (np_host s') sig =
      if bool_decide (sig ∈ [SIGVTALRM; SIGUSR1; SIGUSR2; SIGSEGV])
      then mk_sigact (Some sig_handler_) (Z.lor (Z.lor SA_SIGINFO SA_RESTART) SA_ONSTACK) __am_intr_sigmask
      else h_action (np_host s) sig) /\
    h_mask (np_host s') = h_mask (np_host s) ∪ __am_intr_sigmask /\ h_timer (np_host s') = 10000).
Proof.
  intros Hg Hm. unfold np_cte_init. awp_step. awp_step.
  awp_step. eapply awp_mono; [by apply install_signal_handler_run|].
  intros [] s1 (h1 & -> & S1 & M1 & A1). cbn [np_host set_user_handler intr_sigmask] in *. rewrite Hm in A1.
  pose proof (same_space_got _ _ S1 Hg) as Hg1.
  awp_step. unfold __am_init_timer_irq. awp_step. eapply awp_mono; [by apply np_iset_run|].
  intros [] s2 (h2 & -> & S2 & A2 & _ & _ & M2). cbn [np_host set_host set_user_handler intr_sigmask] in *. rewrite Hm in M2.
  awp_step. apply awp_plt; cbn [np_host set_host]; [by apply (same_space_got h1)|]. intros r h3 E3. apply awp_assert. intros ->%Z.eqb_eq.
  destruct (setitimer_law _ _ _ E3) as (S3 & M3 & A3 & _ & T3). awp_step. cbn [np_host set_host set_user_handler user_handler].
  split; [done|]. split; [done|]. split; [transitivity h1; [done|]; by transitivity h2|].
  split; [intros sig; rewrite A3, A2; apply A1|]. split; [congruence|done].
Qed.

(** With interrupts as [cte_init] leaves them a yield is handled at once, and a stroke of the
    keyboard waits until interrupts are enabled. *)
Lemma signals_after_cte_init h h1 h2 :
  SIGUSR2 ∉ h_mask h -> h_mask h1 = h_mask h ∪ __am_intr_sigmask -> 
  (forall sig, sig ∈ [SIGUSR1; SIGUSR2] -> sa_handler (h_action h1 sig) = Some sig_handler_) ->
  h_action h2 = h_action h1 -> h_mask h2 = h_mask h1 ∖ __am_intr_sigmask ->
  delivery SIGUSR2 h1 = ToHandler sig_handler_ /\ delivery SIGUSR1 h1 = Pending /\
  delivery SIGUSR1 h2 = ToHandler sig_handler_.
Proof.
  intros Hu Hm Ha Ha2 Hm2. unfold delivery. rewrite Hm2, Ha2, Hm, !Ha by (rewrite !elem_of_cons; tauto).
  destruct sigmask_members as [E1 E2].
  split_and!.
  - rewrite bool_decide_false; [done|]. intros [?|?]%elem_of_union; tauto.
  - rewrite bool_decide_true; [done|]. apply elem_of_union. by right.
  - rewrite bool_decide_false; [done|]. intros [_ ?]%elem_of_difference. tauto.
Qed.

(** On the new machine this is processor 0. *)
Lemma np_cpu_current_run s : built s -> np_cpu_current s = Done 0 s.
Proof.
  intros [_ _ Hp _ Hc _ _]. unfold np_cpu_current, mbind, M_bind, get, read_le.
  destruct (Z.eqb_spec (thiscpu s) 0); [done|]. unfold gets. cbn [st_mem nplat_has_mem]. by rewrite Hc.
Qed.

(** [atomic_xchg] gives the old value and stores the new one. *)
Lemma np_atomic_xchg_run addr newval s :
  addr <> 0 -> wp (np_atomic_xchg addr newval) s (fun r s' => r = loadi32 (st_mem s) addr /\ loadi32 (st_mem s') addr = i32 newval).
Proof.
  intros Ha. unfold np_atomic_xchg. apply wp_bind, wp_read; [done|]. apply wp_bind, wp_write; [done|]. apply wp_ret.
  rewrite Z.add_0_r. split; [done|]. rewrite st_mem_upd. apply loadi32_store32.
Qed.

(** [halt] prints the last byte of the code and ends the process, or all of them when there are
    several processors. *)
Lemma np_halt_run code s :
  np_halt code s = Done tt
    (set_end (if mpe_started s && (ncpu s >? 1) then GroupKilled else Exited code)
      (set_out (np_out s ++ [69; 120; 105; 116; 32; 99; 111; 100; 101; 32; 61; 32] ++
        [nibble ((code / 16) mod 16); nibble (code mod 16)] ++ [104; 10]) s)).
Proof. unfold np_halt. rewrite halt_text_spec. reflexivity. Qed.

End Platform.

(** ** Witnesses *)

(** A program with text from 0x600000 on and data from 0x602000 to 0x602040. *)
Definition demo_host : lhost :=
  mk_lhost (fun x => x mod 251)
    (fun x => if in_range 0x600000 0x2000 x then Some (mk_mapping 5 (FileMap false 4 (x - 0x600000)))
              else if in_range 0x602000 0x1000 x then Some (mk_mapping 3 (Anon false)) else None)
    0x10000000 ∅ (fun _ => mk_sigact None 0 ∅) (0, 0) 0.

Definition demo_phdrs : list Elf64_Phdr := [mk_phdr PT_LOAD 5 0x1000; mk_phdr PT_LOAD 6 0x40].

Definition demo_uc : ucontext_t := mk_uc 0x600400 0x7000 1 2 ∅ [].

Definition demo_start : nplat lhost := mk_np demo_host 0 0 0 0 (0, 0) ∅ (mk_uc 0 0 0 0 ∅ []) 0 0 0 0 false [] Running.

Abbreviation demo_init :=
  (init_platform 0x602010 0x602040 demo_phdrs (Some [50]) None None (fun _ => 2) 0x700 0x710 0x600500 8192 (fun _ : lhost => (demo_uc, 77))).

Lemma demo_program_ok : program_ok 0x602010 0x602040 demo_phdrs demo_host.
Proof.
  assert (forall x, in_data 0x602040 demo_phdrs x -> 0x602000 <= x < 0x603000) as Hx.
  { intros x (ph & Hin & Hd & Hr). apply elem_of_cons in Hin as [->|Hin]; [by vm_compute in Hd|].
    apply list_elem_of_singleton in Hin as ->. exact Hr. }
  split; [split; [|split]|].
  - intros ph Hin Hd. apply elem_of_cons in Hin as [->|Hin]; [done|]. by apply list_elem_of_singleton in Hin as ->.
  - intros x Hd%Hx. unfold allowed. cbn [h_map lhost_ops lh_map demo_host].
    replace (in_range 0x600000 0x2000 x) with false by (unfold in_range; lia).
    by replace (in_range 0x602000 0x1000 x) with true by (unfold in_range; lia).
  - done.
  - intros x Hd%Hx. split; unfold inr; (assert (page_up 4096 4096 = 4096) as E by done);
      change (page_up sys_pgsz sys_pgsz) with (page_up 4096 4096); rewrite ?E; unfold PMEM_START, TRAP_PAGE_START; lia.
Qed.

(** The calls of this host do not fail: the constructor runs to its end. *)
Definition result_of {S A} (m : M S A) (s : S) : option (A * S) := match m s with Done a s' => Some (a, s') | Fault _ => None end.

Lemma awp_result {H A} (m : M (nplat H) A) s (Q : A -> nplat H -> Prop) :
  awp m s Q -> is_Some (result_of m s) -> exists a s', result_of m s = Some (a, s') /\ Q a s'.
Proof. unfold awp, result_of. destruct (m s); [eauto|by intros _ [? ?]]. Qed.

Lemma demo_got : elsewhere (H := lhost) 0x602010.
Proof. split; unfold inr, PMEM_START, TRAP_PAGE_START; change (page_up sys_pgsz sys_pgsz) with 4096; lia. Qed.

Lemma demo_ends : is_Some (result_of demo_init demo_start).
Proof. apply (bool_decide_unpack _). by vm_compute. Qed.

Lemma init_platform_spec_witness :
  exists args s', result_of demo_init demo_start = Some (args, s') /\ args = [] /\ built 8192 s' /\
    signals_ready 8192 (fun _ => (demo_uc, 77)) demo_host s' /\ sizes_ok s' /\
    forall x, in_data 0x602040 demo_phdrs x -> h_map (np_host s') x = Some (mk_mapping 7 (Anon true)) /\
      (x < 0x602040 -> load8 (st_mem (np_host s')) x = load8 (st_mem demo_host) x).
Proof.
  pose proof (init_platform_spec (H := lhost) 0x602010 0x602040 demo_phdrs (Some [50]) None None (fun _ => 2) 0x700 0x710 0x600500 8192
    (fun _ => (demo_uc, 77))) as P.
  specialize (P ltac:(lia)). specialize (P ltac:(by vm_compute)). specialize (P ltac:(by vm_compute)). specialize (P demo_got).
  specialize (P demo_start demo_program_ok). specialize (P (not_elem_of_empty SIGUSR1)).
  exact (awp_result _ _ _ P demo_ends).
Defined.

Lemma np_cte_init_spec_witness :
  awp (np_cte_init 0x602010 0x600700 0x600800) (set_intr_sigmask __am_intr_sigmask demo_start)
    (fun r s' => r = true /\ user_handler s' = 0x600800 /\ same_space demo_host (np_host s') /\
    (forall sig, h_action (np_host s') sig =
      if bool_decide (sig ∈ [SIGVTALRM; SIGUSR1; SIGUSR2; SIGSEGV])
      then mk_sigact (Some 0x600700) (Z.lor (Z.lor SA_SIGINFO SA_RESTART) SA_ONSTACK) __am_intr_sigmask
      else h_action demo_host sig) /\
    h_mask (np_host s') = h_mask demo_host ∪ __am_intr_sigmask /\ h_timer (np_host s') = 10000).
Proof. apply (np_cte_init_spec 0x602010 0x600700); reflexivity. Defined.
