(* ===== verification/NatIoe.v ===== *)
(** * The device registers of the native port: am/src/native/ioe.c, ioe/gpu.c, ioe/audio.c and ioe/timer.c

    The drivers of NatInput.v and NatDev.v behind their registers, on one memory. The host and
    the library that draws and plays are a class; what a theorem needs of them is a second
    class with their documented behaviour. *)

From stdpp Require Import prelude.
From S2P Require Import Prelude Mem KString Ioe NatInput NatDev.

(** ** Registers that only this port has: amdev.h, lines 24-26 *)

Definition AM_AUDIO_CTRL : Z := 15.
Definition AM_AUDIO_STATUS : Z := 16.
Definition AM_AUDIO_PLAY : Z := 17.

(** The size of the window: gpu.c, lines 10-11. *)
Definition W : Z := 400.
Definition H : Z := 300.

(** What [localtime] gives, as [struct tm] has it. *)
Record tm : Type := mk_tm { tm_sec : Z; tm_min : Z; tm_hour : Z; tm_mday : Z; tm_mon : Z; tm_year : Z }.

(** The calls of the host: whether the environment names a file, whether it can be opened, its
    bytes and length; the time; the window and the thread of events; [pipe2] with its return value, the size of a pipe
    and the answers of the [write]s to it (the bytes taken, 0 for a refusal); the sound of the
    library; the copy of an image of a width and a height to a place of the window. *)
Class Host (D : Type) : Type := {
  diskimg : D -> option (option ((Z -> Z) * Z)) * D;
  gettimeofday : D -> (Z * Z) * D;
  localtime : D -> tm * D;
  create_window : D -> D;
  start_events : D -> D;
  pipe2 : D -> Z * D;
  pipe_size : D -> Z * D;
  pipe_answers : D -> list nat * D;
  init_audio : D -> Z * D;
  open_audio : Z -> Z -> Z -> D -> D;
  blit_surface : (Z -> Z -> Z) -> Z -> Z -> Z -> Z -> D -> D;
}.

(** The functions the table points to. *)
Inductive nat_handler : Type :=
| n_timer_config | n_timer_rtc | n_timer_uptime | n_input_config | n_input_keybrd | n_gpu_config | n_gpu_fbdraw
| n_gpu_status | n_uart_config | n_audio_config | n_audio_ctrl | n_audio_status | n_audio_play | n_disk_config
| n_disk_status | n_disk_blkio | n_net_config | n_fail.

#[export] Instance nat_handler_eq_dec : EqDecision nat_handler.
Proof. solve_decision. Defined.

Definition nat_lut_init : list (Z * nat_handler) :=
  [(AM_TIMER_CONFIG, n_timer_config); (AM_TIMER_RTC, n_timer_rtc); (AM_TIMER_UPTIME, n_timer_uptime);
   (AM_INPUT_CONFIG, n_input_config); (AM_INPUT_KEYBRD, n_input_keybrd);
   (AM_GPU_CONFIG, n_gpu_config); (AM_GPU_FBDRAW, n_gpu_fbdraw); (AM_GPU_STATUS, n_gpu_status);
   (AM_UART_CONFIG, n_uart_config);
   (AM_AUDIO_CONFIG, n_audio_config); (AM_AUDIO_CTRL, n_audio_ctrl); (AM_AUDIO_STATUS, n_audio_status);
   (AM_AUDIO_PLAY, n_audio_play);
   (AM_DISK_CONFIG, n_disk_config); (AM_DISK_STATUS, n_disk_status); (AM_DISK_BLKIO, n_disk_blkio);
   (AM_NET_CONFIG, n_net_config)].

Definition nat_lut0 : list (option nat_handler) :=
  foldl (fun lut e => <[Z.to_nat e.1 := Some e.2]> lut) (replicate 128 None) nat_lut_init.

(** Lines 61-62: the empty places of the table. *)
Definition fill_lut (lut : list (option nat_handler)) : list (option nat_handler) :=
  (fun h => match h with None => Some n_fail | Some h => Some h end) <$> lut.

(** The variables of the drivers. The memory is that of [nio_disk]. *)
Record nat_ioe (D : Type) : Type := mk_nio {
  nio_disk : nat_disk; nio_keys : key_state; nio_audio : nat_audio; nio_boot : Z * Z;
  nio_lut : list (option nat_handler); nio_has_ioe : bool; nio_init_done : bool; nio_host : D;
}.
Arguments mk_nio {D}. Arguments nio_disk {D}. Arguments nio_keys {D}. Arguments nio_audio {D}. Arguments nio_boot {D}.
Arguments nio_lut {D}. Arguments nio_has_ioe {D}. Arguments nio_init_done {D}. Arguments nio_host {D}.

Definition nat_ioe_start {D} (m : mem) (d : D) : nat_ioe D :=
  mk_nio (mk_nd m false (fun _ => 0) 0 0 0) key_init (mk_na [] 0) (0, 0) nat_lut0 false false d.

Section Setters.
Context {D : Type}.
Implicit Types (s : nat_ioe D).

Definition set_disk (v : nat_disk) s := mk_nio v (nio_keys s) (nio_audio s) (nio_boot s) (nio_lut s) (nio_has_ioe s) (nio_init_done s) (nio_host s).
Definition set_keys v s := mk_nio (nio_disk s) v (nio_audio s) (nio_boot s) (nio_lut s) (nio_has_ioe s) (nio_init_done s) (nio_host s).
Definition set_audio v s := mk_nio (nio_disk s) (nio_keys s) v (nio_boot s) (nio_lut s) (nio_has_ioe s) (nio_init_done s) (nio_host s).
Definition set_boot v s := mk_nio (nio_disk s) (nio_keys s) (nio_audio s) v (nio_lut s) (nio_has_ioe s) (nio_init_done s) (nio_host s).
Definition set_lut v s := mk_nio (nio_disk s) (nio_keys s) (nio_audio s) (nio_boot s) v (nio_has_ioe s) (nio_init_done s) (nio_host s).
Definition set_has_ioe v s := mk_nio (nio_disk s) (nio_keys s) (nio_audio s) (nio_boot s) (nio_lut s) v (nio_init_done s) (nio_host s).
Definition set_init_done v s := mk_nio (nio_disk s) (nio_keys s) (nio_audio s) (nio_boot s) (nio_lut s) (nio_has_ioe s) v (nio_host s).
Definition set_host (v : D) s := mk_nio (nio_disk s) (nio_keys s) (nio_audio s) (nio_boot s) (nio_lut s) (nio_has_ioe s) (nio_init_done s) v.

Definition set_nd_mem (f : mem -> mem) (d : nat_disk) : nat_disk :=
  mk_nd (f (nd_mem d)) (nd_open d) (nd_file d) (nd_len d) (nd_pos d) (nd_size d).

#[export] Instance nat_ioe_has_mem : HasMem (nat_ioe D) :=
  {| st_mem := fun s => nd_mem (nio_disk s); st_upd := fun f s => set_disk (set_nd_mem f (nio_disk s)) s; st_mem_upd := fun _ _ => eq_refl |}.

(** A call of a driver of NatDev.v. *)
Definition on_disk {A} (m : M nat_disk A) : M (nat_ioe D) A := fun s =>
  match m (nio_disk s) with Done a d => Done a (set_disk d s) | Fault e => Fault e end.

Definition on_audio {A} (m : M nat_audio A) : M (nat_ioe D) A := fun s =>
  match m (nio_audio s) with Done a v => Done a (set_audio v s) | Fault e => Fault e end.

(** A call of the host. *)
Definition on_host {A} (f : D -> A * D) : M (nat_ioe D) A := fun s =>
  let (a, d) := f (nio_host s) in Done a (set_host d s).
End Setters.

Section Drivers.
Context {D : Type} `{Host D} (fuel : nat).

Definition set_bool (buf off : Z) (b : bool) : M (nat_ioe D) unit := write_le 1 buf off (if b then 1 else 0).

(** ** The clock: timer.c *)

Definition nat_timer_init : M (nat_ioe D) unit := t ← on_host gettimeofday; modify (set_boot t).

(** Lines 11-20. *)
Definition nat_timer_rtc (rtc : Z) : M (nat_ioe D) unit :=
  tm ← on_host localtime;
  _ ← write_le 4 rtc 20 (tm_sec tm);
  _ ← write_le 4 rtc 16 (tm_min tm);
  _ ← write_le 4 rtc 12 (tm_hour tm);
  _ ← write_le 4 rtc 8 (tm_mday tm);
  _ ← write_le 4 rtc 4 (tm_mon tm + 1);
  write_le 4 rtc 0 (tm_year tm + 1900).

Definition nat_timer_uptime (uptime : Z) : M (nat_ioe D) unit :=
  now ← on_host gettimeofday;
  s ← get;
  write_le 8 uptime 0 (timer_uptime (nio_boot s) now).

(** ** The window: gpu.c *)

Definition nat_gpu_init : M (nat_ioe D) unit := modify (fun s => set_host (create_window (nio_host s)) s).

Definition nat_gpu_config (cfg : Z) : M (nat_ioe D) unit :=
  _ ← set_bool cfg 0 true;
  _ ← set_bool cfg 1 false;
  _ ← write_le 4 cfg 4 W;
  _ ← write_le 4 cfg 8 H;
  write_le 4 cfg 12 0.

(** The image at [pixels], rows of [w] pixels of 4 bytes. *)
Definition surface_from (m : mem) (pixels w : Z) : Z -> Z -> Z := fun i j => load32 m (pixels + 4 * (j * w + i)).

(** Lines 57-66. *)
Definition nat_gpu_fbdraw (ctl : Z) : M (nat_ioe D) unit :=
  x ← read_le 4 ctl 0;
  y ← read_le 4 ctl 4;
  w ← read_le 4 ctl 16;
  h ← read_le 4 ctl 20;
  let '(x, y, w, h) := (i32 x, i32 y, i32 w, i32 h) in
  if (w =? 0) || (h =? 0) then mret tt
  else
    pixels ← read_le 8 ctl 8;
    modify (fun s => set_host (blit_surface (surface_from (st_mem s) pixels w) w h x y (nio_host s)) s).

(** ** Sound: audio.c *)

(** Lines 10-16: a new pipe is empty. *)
Definition audio_init : M (nat_ioe D) unit :=
  ret ← on_host pipe2;
  _ ← c_assert (ret =? 0);
  modify (fun s => set_audio (mk_na [] (na_count (nio_audio s))) s).

(** [read] of at most [n] bytes from the pipe to [buf]: -1 when it is empty. *)
Definition pipe_read (buf n : Z) : M (nat_ioe D) Z :=
  s ← get;
  let l := take (Z.to_nat n) (na_pipe (nio_audio s)) in
  if bool_decide (l = []) then mret (-1)
  else
    _ ← modify (fun s => set_audio (mk_na (drop (length l) (na_pipe (nio_audio s))) (na_count (nio_audio s))) s);
    _ ← modify (st_upd (fun m x => if (buf <=? x) && (x <? buf + Z.of_nat (length l)) then default 0 (l !! Z.to_nat (x - buf)) else m x));
    mret (Z.of_nat (length l)).

(** Lines 21-25. *)
Fixpoint audio_read (k : nat) (stream nread b : Z) : M (nat_ioe D) unit :=
  match k with
  | O => raise OutOfFuel
  | S k =>
      if b <? nread then
        n ← pipe_read stream nread;
        audio_read k stream nread (if 0 <? n then b + n else b)
      else mret tt
  end.

(** Lines 18-31, the callback of the library. *)
Definition audio_play (stream len : Z) : M (nat_ioe D) unit :=
  s ← get;
  let count := na_count (nio_audio s) in
  let nread := if count <? len then count else len in
  _ ← audio_read fuel stream nread 0;
  _ ← modify (fun s => set_audio (mk_na (na_pipe (nio_audio s)) (i32 (na_count (nio_audio s) - nread))) s);
  if nread <? len then _ ← memset (stream + nread) 0 (len - nread); mret tt else mret tt.

(** Lines 43-58; the fields of [SDL_AudioSpec] have 32, 8 and 16 bits. *)
Definition nat_audio_ctrl (ctrl : Z) : M (nat_ioe D) unit :=
  freq ← read_le 4 ctrl 0;
  channels ← read_le 4 ctrl 4;
  samples ← read_le 4 ctrl 8;
  _ ← modify (fun s => set_audio (mk_na (na_pipe (nio_audio s)) 0) s);
  ret ← on_host init_audio;
  if ret =? 0 then modify (fun s => set_host (open_audio (i32 freq) (u8 channels) (wrap 16 samples) (nio_host s)) s)
  else mret tt.

Definition nat_audio_status (stat : Z) : M (nat_ioe D) unit := s ← get; write_le 4 stat 0 (na_count (nio_audio s)).

(** The [n] bytes from [p]. *)
Definition bytes_at (m : mem) (p n : Z) : list Z := (fun i => load8 m (p + i)) <$> seqZ 0 n.

(** Lines 64-67. *)
Definition nat_audio_play (ctl : Z) : M (nat_ioe D) unit :=
  start ← read_le 8 ctl 0;
  end_ ← read_le 8 ctl 8;
  let len := i32 (end_ - start) in
  accept ← on_host pipe_answers;
  s ← get;
  on_audio (__am_audio_play accept (bytes_at (st_mem s) start len)).

Definition nat_audio_config (cfg : Z) : M (nat_ioe D) unit :=
  _ ← set_bool cfg 0 true;
  size ← on_host pipe_size;
  write_le 4 cfg 4 size.

(** ** The disk and the keyboard on their registers *)

Definition nat_disk_init : M (nat_ioe D) unit :=
  img ← on_host diskimg;
  match img with
  | None => mret tt
  | Some None => modify (fun s =>
      let d := nio_disk s in set_disk (mk_nd (nd_mem d) false (nd_file d) (nd_len d) (nd_pos d) (nd_size d)) s)
  | Some (Some file) => modify (fun s => set_disk (disk_init (Some file) (nd_mem (nio_disk s))) s)
  end.

Definition nat_disk_config (cfg : Z) : M (nat_ioe D) unit :=
  s ← get;
  let '(present, blksz, blkcnt) := disk_config (nio_disk s) in
  _ ← set_bool cfg 0 present;
  _ ← write_le 4 cfg 4 blksz;
  write_le 4 cfg 8 blkcnt.

(** disk.c, lines 33-41. *)
Definition nat_disk_blkio (io : Z) : M (nat_ioe D) unit :=
  s ← get;
  if nd_open (nio_disk s) then
    blkno ← read_le 4 io 16;
    write ← read_le 1 io 0;
    buf ← read_le 8 io 8;
    blkcnt ← read_le 4 io 20;
    on_disk (native_blkio (negb (write =? 0)) buf (i32 blkno) (i32 blkcnt))
  else mret tt.

(** The mutex and the thread of events: input.c, lines 42-45. *)
Definition nat_input_init : M (nat_ioe D) unit := modify (fun s => set_host (start_events (nio_host s)) s).

Definition nat_input_keybrd (kbd : Z) : M (nat_ioe D) unit :=
  s ← get;
  let '((keydown, keycode), keys) := __am_input_keybrd (nio_keys s) in
  _ ← modify (set_keys keys);
  _ ← set_bool kbd 0 keydown;
  write_le 4 kbd 4 keycode.

(** ** The table: ioe.c *)

(** The handlers that only fill their structure in, and the one that panics. *)
Definition nat_timer_config (buf : Z) : M (nat_ioe D) unit := _ ← set_bool buf 1 true; set_bool buf 0 true.
Definition nat_input_config (buf : Z) : M (nat_ioe D) unit := set_bool buf 0 true.
Definition nat_gpu_status (buf : Z) : M (nat_ioe D) unit := set_bool buf 0 true.
Definition nat_disk_status (buf : Z) : M (nat_ioe D) unit := set_bool buf 0 true.
Definition nat_uart_config (buf : Z) : M (nat_ioe D) unit := set_bool buf 0 false.
Definition nat_net_config (buf : Z) : M (nat_ioe D) unit := set_bool buf 0 false.
Definition nat_fail (buf : Z) : M (nat_ioe D) unit := raise Panic.

Definition nat_run (h : nat_handler) (buf : Z) : M (nat_ioe D) unit :=
  match h with
  | n_timer_config => nat_timer_config buf
  | n_timer_rtc => nat_timer_rtc buf
  | n_timer_uptime => nat_timer_uptime buf
  | n_input_config => nat_input_config buf
  | n_input_keybrd => nat_input_keybrd buf
  | n_gpu_config => nat_gpu_config buf
  | n_gpu_fbdraw => nat_gpu_fbdraw buf
  | n_gpu_status => nat_gpu_status buf
  | n_uart_config => nat_uart_config buf
  | n_audio_config => nat_audio_config buf
  | n_audio_ctrl => nat_audio_ctrl buf
  | n_audio_status => nat_audio_status buf
  | n_audio_play => nat_audio_play buf
  | n_disk_config => nat_disk_config buf
  | n_disk_status => nat_disk_status buf
  | n_disk_blkio => nat_disk_blkio buf
  | n_net_config => nat_net_config buf
  | n_fail => nat_fail buf
  end.

(** Lines 51-56. *)
Definition nat_ioe_init (cpu_current : Z) : M (nat_ioe D) bool :=
  if negb (cpu_current =? 0) then raise Panic
  else
    s ← get;
    if nio_init_done s then raise Panic
    else _ ← modify (set_has_ioe true); mret true.

(** Lines 60-69. *)
Definition __am_ioe_init : M (nat_ioe D) unit :=
  _ ← modify (fun s => set_lut (fill_lut (nio_lut s)) s);
  _ ← nat_timer_init;
  _ ← nat_gpu_init;
  _ ← nat_input_init;
  _ ← audio_init;
  _ ← nat_disk_init;
  modify (set_init_done true).

(** Lines 71-76. A null pointer in the table is called as a function. *)
Definition do_io (reg buf : Z) : M (nat_ioe D) unit :=
  s ← get;
  _ ← (if negb (nio_init_done s) then __am_ioe_init else mret tt);
  s ← get;
  match (if reg <? 0 then None else nio_lut s !! Z.to_nat reg) with
  | Some (Some h) => nat_run h buf
  | Some None => raise NullDeref
  | None => raise OutOfBounds
  end.

Definition nat_ioe_read (reg buf : Z) : M (nat_ioe D) unit := do_io reg buf.
Definition nat_ioe_write (reg buf : Z) : M (nat_ioe D) unit := do_io reg buf.
End Drivers.

(** ** The table and its initialisation *)

(** The calls the drivers check succeed. *)
Class HostOk (D : Type) `{Host D} : Prop := { pipe2_ok : forall d, (pipe2 d).1 = 0 }.

Definition initialised {D} (s : nat_ioe D) : Prop := nio_init_done s = true /\ nio_lut s = fill_lut nat_lut0.

(** The table is as linked or filled. *)
Definition lut_ok {D} (s : nat_ioe D) : Prop := nio_lut s = nat_lut0 \/ nio_lut s = fill_lut nat_lut0.

Lemma fill_fill lut : fill_lut (fill_lut lut) = fill_lut lut.
Proof. unfold fill_lut. rewrite <- list_fmap_compose. apply list_fmap_ext. by intros _ [] _. Qed.

Lemma nat_lut_init_filled : Forall (fun e => 0 <= e.1 < 128 /\ fill_lut nat_lut0 !! Z.to_nat e.1 = Some (Some e.2)) nat_lut_init.
Proof. apply (bool_decide_unpack _). vm_compute. exact I. Qed.

Lemma nat_lut_other : Forall (fun reg => reg ∈ nat_lut_init.*1 \/ fill_lut nat_lut0 !! Z.to_nat reg = Some (Some n_fail)) (seqZ 0 128).
Proof. apply (bool_decide_unpack _). vm_compute. exact I. Qed.

Lemma wp_on_host {D A} (f : D -> A * D) (s : nat_ioe D) (Q : A -> nat_ioe D -> Prop) :
  Q (f (nio_host s)).1 (set_host (f (nio_host s)).2 s) -> wp (on_host f) s Q.
Proof. intros HQ. destruct (f (nio_host s)) as [a d] eqn:E. apply wp_eq with a (set_host d s); [|done]. unfold on_host. by rewrite E. Qed.

Lemma wp_on_disk {D A} (m : M nat_disk A) (s : nat_ioe D) (Q : A -> nat_ioe D -> Prop) :
  wp m (nio_disk s) (fun a d => Q a (set_disk d s)) -> wp (on_disk m) s Q.
Proof. intros (a & d & E & HQ)%wp_done. apply wp_eq with a (set_disk d s); [|done]. unfold on_disk. by rewrite E. Qed.

Lemma wp_on_audio {D A} (m : M nat_audio A) (s : nat_ioe D) (Q : A -> nat_ioe D -> Prop) :
  wp m (nio_audio s) (fun a v => Q a (set_audio v s)) -> wp (on_audio m) s Q.
Proof. intros (a & d & E & HQ)%wp_done. apply wp_eq with a (set_audio d s); [|done]. unfold on_audio. by rewrite E. Qed.

Section Table.
Context {D : Type} `{HostOk D}.
Implicit Types (s : nat_ioe D).

(** Initialisation empties the pipe of the sound, and changes no memory and no key. *)
Lemma am_ioe_init_spec s :
  lut_ok s ->
  wp __am_ioe_init s (fun _ s' =>
    initialised s' /\ st_mem s' = st_mem s /\ nio_keys s' = nio_keys s /\ nio_audio s' = mk_na [] (na_count (nio_audio s)) /\
    nio_has_ioe s' = nio_has_ioe s).
Proof.
  intros Hlut. assert (fill_lut (nio_lut s) = fill_lut nat_lut0) as El by (destruct Hlut as [-> | ->]; [done|apply fill_fill]).
  unfold __am_ioe_init, nat_timer_init, nat_gpu_init, nat_input_init, audio_init, nat_disk_init.
  apply wp_bind, wp_modify, wp_bind, wp_bind, wp_on_host, wp_modify, wp_bind, wp_modify, wp_bind, wp_modify.
  apply wp_bind, wp_bind, wp_on_host, wp_bind, wp_assert; [by rewrite pipe2_ok|]. apply wp_modify, wp_bind, wp_bind, wp_on_host.
  destruct (diskimg _).1 as [[[bytes len]|]|]; [apply wp_modify|apply wp_modify|apply wp_ret]; apply wp_modify; cbn; by rewrite El.
Qed.

(** On devices that are initialised an access runs the handler of the register, if it has one. *)
Theorem nat_ioe_registers s reg buf :
  initialised s ->
  (forall h, (reg, h) ∈ nat_lut_init ->
    nat_ioe_read reg buf s = nat_run h buf s /\ nat_ioe_write reg buf s = nat_run h buf s) /\
  (reg ∉ nat_lut_init.*1 ->
    nat_ioe_read reg buf s = Fault (if (0 <=? reg) && (reg <? 128) then Panic else OutOfBounds)).
Proof.
  intros [Hd Hl]. unfold nat_ioe_read, nat_ioe_write, do_io, mbind, M_bind, get. rewrite Hd. cbn [negb]. unfold mret, M_ret. rewrite Hl.
  split.
  - intros h Hin. pose proof nat_lut_init_filled as HF. rewrite Forall_forall in HF. destruct (HF _ Hin) as [Hr Hh]. cbn [fst snd] in *.
    destruct (Z.ltb_spec reg 0); [lia|]. by rewrite Hh.
  - intros Hout. destruct (Z.leb_spec 0 reg), (Z.ltb_spec reg 0); try lia; simpl andb; [|done].
    destruct (Z.ltb_spec reg 128).
    + pose proof nat_lut_other as HF. rewrite Forall_forall in HF.
      destruct (HF reg) as [Hin|Hf]; [apply elem_of_seqZ; lia|done|]. by rewrite Hf.
    + rewrite lookup_ge_None_2; [done|]. change (length (fill_lut nat_lut0)) with 128%nat. lia.
Qed.

Lemma wp_access s reg h buf (Q : unit -> nat_ioe D -> Prop) :
  initialised s -> bool_decide ((reg, h) ∈ nat_lut_init) = true -> wp (nat_run h buf) s Q -> wp (do_io reg buf) s Q.
Proof.
  intros Hi Hin%bool_decide_eq_true_1 ([] & s' & E & HQ)%wp_done. destruct (nat_ioe_registers s reg buf Hi) as [Hr _].
  apply wp_eq with tt s'; [|done]. rewrite <- E. exact (proj1 (Hr h Hin)).
Qed.

(** The first access initialises the devices, then it is an access to initialised devices; on
    those no access initialises again. *)
Theorem first_access s reg buf (Q : unit -> nat_ioe D -> Prop) :
  nio_init_done s = false -> lut_ok s ->
  (forall s', initialised s' -> st_mem s' = st_mem s -> nio_keys s' = nio_keys s ->
     nio_audio s' = mk_na [] (na_count (nio_audio s)) -> wp (do_io reg buf) s' Q) ->
  wp (do_io reg buf) s Q.
Proof.
  intros Hd Hlut HQ. destruct (proj1 (wp_done _ _ _) (am_ioe_init_spec s Hlut)) as ([] & s' & E & Hi & Hm & Hk & Ha & _).
  specialize (HQ s' Hi Hm Hk Ha). destruct (proj1 (wp_done _ _ _) HQ) as ([] & s2 & E2 & HQ2). apply wp_eq with tt s2; [|done].
  rewrite <- E2. unfold do_io, mbind, M_bind, get. rewrite Hd, (proj1 Hi). cbn [negb]. by rewrite E.
Qed.

(** The check against a second initialisation looks at the first access: [ioe_init] can be
    called again and again before it, and after it panics even if it is the first call. *)
Theorem ioe_init_check s :
  (nio_init_done s = false -> wp (_ ← nat_ioe_init 0; nat_ioe_init 0) s (fun r s' => r = true /\ nio_has_ioe s' = true)) /\
  (nio_init_done s = true -> nat_ioe_init 0 s = Fault Panic) /\
  (forall cpu, cpu <> 0 -> nat_ioe_init cpu s = Fault Panic).
Proof.
  split; [|split].
  - intros Hd. unfold nat_ioe_init. cbn [Z.eqb negb]. apply wp_bind, wp_bind, wp_get. rewrite Hd.
    apply wp_bind, wp_modify, wp_ret, wp_bind, wp_get. cbn [set_has_ioe nio_init_done]. rewrite Hd. by apply wp_bind, wp_modify, wp_ret.
  - intros Hd. unfold nat_ioe_init, mbind, M_bind, get. cbn [Z.eqb negb]. by rewrite Hd.
  - intros cpu Hc. unfold nat_ioe_init. by destruct (Z.eqb_spec cpu 0).
Qed.
End Table.

(** ** Sound: what is written is played *)

Section Sound.
Context {D : Type} `{Host D} (fuel : nat).
Implicit Types (s : nat_ioe D).

Definition pipe s : list Z := na_pipe (nio_audio s).
Definition queued s : Z := na_count (nio_audio s).

(** [count] is the number of bytes in the pipe. *)
Definition in_sync s : Prop := queued s = Z.of_nat (length (pipe s)) /\ queued s < 2 ^ 31.

Lemma pipe_read_spec s buf n :
  0 < n -> pipe s <> [] ->
  wp (pipe_read buf n) s (fun r s' =>
    let k := Z.min n (Z.of_nat (length (pipe s))) in
    r = k /\ pipe s' = drop (Z.to_nat k) (pipe s) /\ queued s' = queued s /\
    (forall x, st_mem s' x = if (buf <=? x) && (x <? buf + k) then default 0 (pipe s !! Z.to_nat (x - buf)) else st_mem s x)).
Proof.
  intros Hn Hp. unfold pipe_read. apply wp_bind, wp_get. fold (pipe s). set (l := take (Z.to_nat n) (pipe s)).
  assert (length l = Z.to_nat (Z.min n (Z.of_nat (length (pipe s))))) as Hl by (unfold l; rewrite length_take; lia).
  assert (0 < length (pipe s))%nat by (destruct (pipe s); [done|simpl; lia]).
  rewrite bool_decide_eq_false_2 by (intros E; rewrite E in Hl; simpl in Hl; lia).
  apply wp_bind, wp_modify, wp_bind, wp_modify, wp_ret. rewrite Hl. cbn zeta. split; [lia|]. split; [done|]. split; [done|].
  intros x. cbn. rewrite Z2Nat.id by lia. destruct (Z.leb_spec buf x), (Z.ltb_spec x (buf + Z.min n (Z.of_nat (length (pipe s)))));
    cbn [andb]; try done. unfold l. rewrite lookup_take_lt by lia. done.
Qed.

Lemma audio_read_spec s stream nread :
  (1 < fuel)%nat -> 0 <= nread <= Z.of_nat (length (pipe s)) ->
  wp (audio_read fuel stream nread 0) s (fun _ s' =>
    pipe s' = drop (Z.to_nat nread) (pipe s) /\ queued s' = queued s /\
    (forall x, st_mem s' x = if (stream <=? x) && (x <? stream + nread) then default 0 (pipe s !! Z.to_nat (x - stream)) else st_mem s x)).
Proof.
  intros Hf Hn. destruct fuel as [|[|f]]; [lia..|]. cbn [audio_read]. destruct (Z.ltb_spec 0 nread).
  - assert (pipe s <> []) by (intros E; rewrite E in Hn; simpl in Hn; lia).
    apply wp_bind. eapply wp_mono; [by apply pipe_read_spec|]. cbn beta zeta. intros r s1 (-> & Hp & Hc1 & Hm).
    rewrite Z.min_l in * by lia. destruct (Z.ltb_spec 0 nread); [|lia]. destruct (Z.ltb_spec (0 + nread) nread); [lia|].
    by apply wp_ret.
  - apply wp_ret. replace nread with 0 by lia. split; [done|]. split; [done|]. intros x.
    destruct (Z.leb_spec stream x), (Z.ltb_spec x (stream + 0)); try done. lia.
Qed.

(** The callback takes the oldest bytes from the pipe, in order, fills up with silence, and
    changes no other byte. *)
Theorem audio_play_spec s stream len :
  (1 < fuel)%nat -> in_sync s -> 0 < stream -> 0 <= len ->
  wp (audio_play fuel stream len) s (fun _ s' =>
    in_sync s' /\ pipe s' = drop (Z.to_nat len) (pipe s) /\
    (forall x, load8 (st_mem s') x =
       if (stream <=? x) && (x <? stream + len) then u8 (default 0 (pipe s !! Z.to_nat (x - stream))) else load8 (st_mem s) x)).
Proof.
  intros Hf [Hc Hb] Hs Hl. unfold audio_play. apply wp_bind, wp_get. fold (queued s).
  set (nread := if queued s <? len then queued s else len).
  assert (nread = Z.min (Z.of_nat (length (pipe s))) len) as En by (unfold nread; destruct (Z.ltb_spec (queued s) len); lia).
  apply wp_bind. eapply wp_mono; [apply audio_read_spec; [done|lia]|]. cbn beta. intros _ s1 (Hp1 & Hc1 & Hm1).
  apply wp_bind, wp_modify. set (s2 := set_audio _ s1).
  assert (pipe s2 = drop (Z.to_nat len) (pipe s)) as Hp2.
  { change (pipe s2) with (pipe s1). rewrite Hp1, En.
    destruct (Z.le_gt_cases len (Z.of_nat (length (pipe s)))); [f_equal; lia|]. by rewrite !drop_ge by lia. }
  assert (in_sync s2) as Hsync.
  { assert (queued s2 = i32 (queued s - nread)) as E by (by rewrite <- Hc1).
    unfold in_sync. rewrite Hp2, E, length_drop, signed_small by lia. lia. }
  assert (forall x, load8 (st_mem s2) x = u8 (st_mem s1 x)) as Hm2 by done.
  destruct (Z.ltb_spec nread len).
  - apply wp_bind, wp_memset; [lia|]. apply wp_ret. split; [exact Hsync|]. split; [exact Hp2|]. intros x.
    rewrite st_mem_upd, load8_memset_loop, Hm2, Hm1.
    destruct (Z.leb_spec (stream + nread + 0) x), (Z.ltb_spec x (stream + nread + 0 + Z.of_nat (Z.to_nat (len - nread)))),
      (Z.leb_spec stream x), (Z.ltb_spec x (stream + nread)), (Z.ltb_spec x (stream + len)); cbn [andb]; try lia; try done.
    by rewrite lookup_ge_None_2 by lia.
  - apply wp_ret. split; [exact Hsync|]. split; [exact Hp2|]. intros x. rewrite Hm2, Hm1.
    assert (nread = len) as -> by lia. by destruct ((stream <=? x) && (x <? stream + len)).
Qed.

(** What the callback plays after a buffer was written at once to an empty pipe is the buffer. *)
Theorem sound_roundtrip s ctl start len stream :
  (1 < fuel)%nat -> initialised s -> pipe s = [] -> queued s = 0 ->
  0 < ctl -> load64 (st_mem s) ctl = start -> load64 (st_mem s) (ctl + 8) = start + len -> 0 < len < 2 ^ 31 ->
  (pipe_answers (nio_host s)).1 = [Z.to_nat len] -> 0 < stream ->
  wp (_ ← nat_ioe_write AM_AUDIO_PLAY ctl; audio_play fuel stream len) s (fun _ s' =>
    pipe s' = [] /\ forall k, 0 <= k < len -> load8 (st_mem s') (stream + k) = load8 (st_mem s) (start + k)).
Proof.
  intros Hf Hi Hp Hc Hctl Hst Hend Hl Hans Hs.
  apply wp_bind, (wp_access s AM_AUDIO_PLAY n_audio_play); [done|vm_compute; reflexivity|]. cbn [nat_run]. unfold nat_audio_play.
  do 2 (apply wp_bind, wp_read; [lia|]). rewrite Z.add_0_r. unfold load64 in *. rewrite Hst, Hend.
  replace (start + len - start) with len by lia. rewrite signed_small by lia.
  apply wp_bind, wp_on_host. rewrite Hans. apply wp_bind, wp_get. set (s1 := set_host _ s).
  set (l := bytes_at (st_mem s1) start len).
  assert (length l = Z.to_nat len) as El by (unfold l, bytes_at; by rewrite length_fmap, length_seqZ).
  assert (l <> []) as Hne by (intros E; rewrite E in El; simpl in El; lia).
  apply wp_on_audio. rewrite <- El. eapply wp_mono; [exact (audio_write_whole 0 l _ Hne)|]. cbn beta. intros _ v ->.
  set (s2 := set_audio _ s1).
  assert (pipe s2 = l) as Hp2 by (change (pipe s2) with (pipe s ++ l); by rewrite Hp).
  assert (queued s2 = len) as Hc2 by (change (queued s2) with (queued s + Z.of_nat (length l)); lia).
  eapply wp_mono; [apply audio_play_spec; [done| |done|lia]|].
  { split; [rewrite Hp2; lia|lia]. }
  cbn beta. intros _ s3 (_ & Hp3 & Hm3). split; [rewrite Hp3, Hp2; apply drop_ge; lia|].
  intros k Hk. rewrite Hm3, Hp2. destruct (Z.leb_spec stream (stream + k)), (Z.ltb_spec (stream + k) (stream + len)); try lia.
  cbn [andb]. rewrite Z.add_simpl_l. unfold l, bytes_at.
  rewrite list_lookup_fmap, lookup_seqZ_lt by lia. cbn [fmap option_fmap option_map default from_option id].
  rewrite Z.add_0_l, Z2Nat.id by lia. apply wrap_small, load8_range.
Qed.

(** When the devices are initialised again while bytes wait in the pipe, as [mpe_init] does after
    an access, the new pipe is empty and the count is not: the callback never returns. *)
Theorem audio_reinit_hangs `{!HostOk D} s stream len :
  lut_ok s -> 0 < queued s -> 0 < len ->
  wp __am_ioe_init s (fun _ s' => audio_play fuel stream len s' = Fault OutOfFuel).
Proof.
  intros Hlut Hc Hl. eapply wp_mono; [by apply am_ioe_init_spec|]. cbn beta. intros _ s' (_ & _ & _ & Ha & _).
  unfold audio_play, mbind, M_bind, get. fold (queued s').
  assert (queued s' = queued s) as -> by (unfold queued; by rewrite Ha).
  set (nread := if queued s <? len then queued s else len).
  assert (0 < nread) as Hn by (unfold nread; destruct (Z.ltb_spec (queued s) len); lia).
  assert (pipe_read stream nread s' = Done (-1) s') as Er.
  { unfold pipe_read, mbind, M_bind, get. rewrite Ha. cbn [na_pipe]. by rewrite take_nil. }
  assert (audio_read fuel stream nread 0 s' = Fault OutOfFuel) as ->; [|done].
  induction fuel as [|k IH]; [done|]. cbn [audio_read]. destruct (Z.ltb_spec 0 nread); [|lia].
  unfold mbind, M_bind. rewrite Er. exact IH.
Qed.
End Sound.

(** ** The window, the keyboard and the disk *)

(** The pixel of the window at a column and a row, 24 bits of colour: the library copies the
    part of an image that lies inside of the window. *)
Class Window (D : Type) `{Host D} : Type := {
  pixel : D -> Z -> Z -> Z;
  pixel_blit : forall img w h x y d i j, 0 <= i < W -> 0 <= j < NatIoe.H ->
    pixel (blit_surface img w h x y d) i j =
    if (x <=? i) && (i <? x + w) && (y <=? j) && (j <? y + h) then img (i - x) (j - y) mod 2 ^ 24 else pixel d i j;
}.

Section Registers.
Context {D : Type} `{Host D}.
Implicit Types (s : nat_ioe D).

(** A request to draw, as AM_GPU_FBDRAW_T lays it out. *)
Record draw_request (m : mem) (ctl x y pixels w h : Z) : Prop := {
  dr_ctl : 0 < ctl;
  dr_x : loadi32 m ctl = x;
  dr_y : loadi32 m (ctl + 4) = y;
  dr_pixels : load64 m (ctl + 8) = pixels;
  dr_w : loadi32 m (ctl + 16) = w;
  dr_h : loadi32 m (ctl + 20) = h;
}.

(** A request draws the part of the image inside of the window and nothing else; one without
    pixels draws nothing. *)
Theorem nat_fbdraw_spec `{!Window D} s ctl x y pixels w h :
  initialised s -> draw_request (st_mem s) ctl x y pixels w h -> 0 <= w -> 0 <= h ->
  wp (nat_ioe_write AM_GPU_FBDRAW ctl) s (fun _ s' =>
    st_mem s' = st_mem s /\
    forall i j, 0 <= i < W -> 0 <= j < NatIoe.H ->
      pixel (nio_host s') i j =
      if (x <=? i) && (i <? x + w) && (y <=? j) && (j <? y + h)
      then load32 (st_mem s) (pixels + 4 * ((j - y) * w + (i - x))) mod 2 ^ 24 else pixel (nio_host s) i j).
Proof.
  intros Hi [Hc Hx Hy Hp Hw Hh] H0w H0h. apply (wp_access s AM_GPU_FBDRAW n_gpu_fbdraw); [done|vm_compute; reflexivity|].
  cbn [nat_run]. unfold nat_gpu_fbdraw. do 4 (apply wp_bind, wp_read; [lia|]). rewrite Z.add_0_r.
  unfold loadi32 in *. rewrite Hx, Hy, Hw, Hh.
  destruct (Z.eqb_spec w 0) as [->|]; cbn [orb]; [|destruct (Z.eqb_spec h 0) as [->|]].
  1, 2: apply wp_ret; split; [done|]; intros i j _ _; destruct (Z.leb_spec x i), (Z.ltb_spec i (x + 0)), (Z.leb_spec y j),
    (Z.ltb_spec j (y + 0)); rewrite ?andb_false_r; try done; lia.
  apply wp_bind, wp_read; [lia|]. unfold load64 in Hp. rewrite Hp. apply wp_modify. split; [done|].
  intros i j Hi1 Hj1. cbn [set_host nio_host]. by rewrite pixel_blit.
Qed.

(** A read of the keyboard takes the oldest event of the ring, and reports no key when there is
    none. *)
Theorem nat_keybrd_spec s kbd q :
  initialised s -> ring (nio_keys s) q -> Forall is_key q -> 0 < kbd ->
  wp (nat_ioe_read AM_INPUT_KEYBRD kbd) s (fun _ s' =>
    ring (nio_keys s') (tail q) /\
    load8 (st_mem s') kbd = match q with [] => 0 | e :: _ => if e.2 then 1 else 0 end /\
    loadi32 (st_mem s') (kbd + 4) = match q with [] => 0 | e :: _ => e.1 end).
Proof.
  intros Hi Hr Hq Hk. apply (wp_access s AM_INPUT_KEYBRD n_input_keybrd); [done|vm_compute; reflexivity|].
  cbn [nat_run]. unfold nat_input_keybrd. apply wp_bind, wp_get.
  assert (exists e keys, __am_input_keybrd (nio_keys s) = (e, keys) /\ ring keys (tail q) /\
    e = match q with [] => (false, 0) | e :: _ => (e.2, e.1) end /\ i32 e.2 = e.2) as ([kd kc] & keys & -> & Hr' & He & Hc).
  { destruct q as [|e q].
    - exists (false, 0), (nio_keys s). by rewrite ring_empty.
    - apply Forall_cons in Hq as [He _]. destruct (ring_take _ _ _ Hr He) as (keys & E & Hr'). exists (e.2, e.1), keys.
      unfold is_key, KEYDOWN_MASK in He. rewrite E. split; [done|]. split; [done|]. split; [done|]. apply signed_small; simpl; lia. }
  apply wp_bind, wp_modify, wp_bind. unfold set_bool. apply wp_write; [lia|]. apply wp_write; [lia|].
  rewrite !st_mem_upd, !Z.add_0_r. cbn [snd] in Hc. split; [exact Hr'|]. split.
  - rewrite load8_store_le. destruct (Z.leb_spec (kbd + 4) kbd); [lia|]. cbn [andb]. rewrite load8_store_le.
    destruct (Z.leb_spec kbd kbd), (Z.ltb_spec kbd (kbd + Z.of_nat 1)); try lia. cbn [andb]. rewrite Z.sub_diag.
    destruct q as [|[k [|]] q]; by injection He as -> ->.
  - unfold loadi32. rewrite load_store_le. unfold i32 in *. destruct q as [|[k d] q]; injection He as -> ->; [done|].
    unfold is_key, KEYDOWN_MASK in *. apply Forall_cons in Hq as [He _]. cbn [fst] in He. rewrite Z.mod_small by (cbn; lia). by cbn in Hc.
Qed.

(** A request for the transfer of [blkcnt] blocks. *)
Definition nat_blkio_request (m : mem) (req : Z) (write : bool) (data blkno blkcnt : Z) : Prop :=
  0 < req /\ load_le 1 m req = (if write then 1 else 0) /\ load64 m (req + 8) = data /\
  loadi32 m (req + 16) = blkno /\ loadi32 m (req + 20) = blkcnt.

Lemma nat_blkio s req write buf blkno blkcnt (Q : unit -> nat_ioe D -> Prop) :
  initialised s -> nd_open (nio_disk s) = true -> nat_blkio_request (st_mem s) req write buf blkno blkcnt ->
  wp (native_blkio write buf blkno blkcnt) (nio_disk s) (fun a d => Q a (set_disk d s)) ->
  wp (nat_ioe_write AM_DISK_BLKIO req) s Q.
Proof.
  intros Hi Ho (Hp & Hw & Hd & Hn & Hc) HQ. apply (wp_access s AM_DISK_BLKIO n_disk_blkio); [done|vm_compute; reflexivity|].
  cbn [nat_run]. unfold nat_disk_blkio. apply wp_bind, wp_get. rewrite Ho. do 4 (apply wp_bind, wp_read; [lia|]).
  rewrite Z.add_0_r, Hw. unfold load64, loadi32 in *. rewrite Hd, Hn, Hc. apply wp_on_disk. by destruct write.
Qed.

(** Blocks of the file written through the register and read back through it are the same
    bytes, as on the other port ([ioe_disk_roundtrip]). *)
Theorem nat_ioe_disk_roundtrip s wreq rreq buf1 buf2 blkno blkcnt :
  initialised s -> blocks_in (nio_disk s) blkno blkcnt ->
  nat_blkio_request (st_mem s) wreq true buf1 blkno blkcnt -> nat_blkio_request (st_mem s) rreq false buf2 blkno blkcnt ->
  wp (_ ← nat_ioe_write AM_DISK_BLKIO wreq; nat_ioe_write AM_DISK_BLKIO rreq) s (fun _ s' =>
    forall k, 0 <= k < blkcnt * 512 -> load8 (st_mem s') (buf2 + k) = load8 (st_mem s) (buf1 + k)).
Proof.
  intros Hi Hb Hw Hr. pose proof Hb as (Ho & Hno & Hc & Hmax & Hlen). apply wp_bind. eapply nat_blkio; [done|done|exact Hw|].
  eapply wp_mono; [by apply native_write_spec|]. cbn beta. intros _ d1 (Em & El & Eo & Hfile & _).
  eapply nat_blkio; [done|done|cbn [st_mem nat_ioe_has_mem nio_disk set_disk]; rewrite Em; exact Hr|].
  eapply wp_mono; [apply native_read_spec; unfold blocks_in; cbn [nio_disk set_disk]; rewrite El, Eo; done|].
  cbn beta. intros _ d2 (_ & _ & _ & Hread & _) k Hk. cbn [st_mem nat_ioe_has_mem nio_disk set_disk] in *.
  unfold load8 at 1. rewrite Hread, Hfile by done. apply wrap_small, load8_range.
Qed.
End Registers.

(** ** A run *)

(** A host with a window in memory, whose pipe takes everything at once, and a disk of 1024
    bytes. *)
Record demo_host : Type := mk_demo { dh_ticks : Z; dh_window : Z -> Z -> Z; dh_takes : nat }.

#[local] Instance demo_Host : Host demo_host := {|
  diskimg := fun d => (Some (Some (fun _ => 0, 1024)), d);
  gettimeofday := fun d => ((dh_ticks d, 0), mk_demo (dh_ticks d + 1) (dh_window d) (dh_takes d));
  localtime := fun d => (mk_tm 59 30 12 31 11 121, d);
  create_window := fun d => d; start_events := fun d => d;
  pipe2 := fun d => (0, d); pipe_size := fun d => (65536, d); pipe_answers := fun d => ([dh_takes d], d);
  init_audio := fun d => (0, d); open_audio := fun _ _ _ d => d;
  blit_surface := fun img w h x y d => mk_demo (dh_ticks d)
    (fun i j => if (x <=? i) && (i <? x + w) && (y <=? j) && (j <? y + h) then img (i - x) (j - y) mod 2 ^ 24 else dh_window d i j)
    (dh_takes d);
|}.

#[local] Instance demo_ok : HostOk demo_host.
Proof. by split. Qed.

#[local] Instance demo_Window : Window demo_host.
Proof. by refine {| pixel := dh_window |}. Defined.

(** A buffer of 4 bytes at 0x1000 and the request to play it at 0x100; requests to write and
    read the second block at 0x200 and 0x300; an image of 2 by 1 pixels at the right edge. *)
Definition demo_memory : mem :=
  let blk m p w buf := store_le 4 (store_le 4 (store64 (store8 m p w) (p + 8) buf) (p + 16) 1) (p + 20) 1 in
  let m := store_le 4 (fun _ => 0) 0x1000 0x04030201 in
  let m := store64 (store64 m 0x100 0x1000) 0x108 0x1004 in
  let m := blk (blk m 0x200 1 0x1000) 0x300 0 0x9000 in
  store32 (store32 (store64 (store32 (store32 m 0x400 399) 0x404 0) 0x408 0x1000) 0x410 2) 0x414 1.

Definition demo_start : nat_ioe demo_host := nat_ioe_start demo_memory (mk_demo 7 (fun _ _ => 0) 4).

(** The state after the first access. *)
Definition demo_ready : nat_ioe demo_host :=
  match __am_ioe_init demo_start with Done _ s => s | Fault _ => demo_start end.

Lemma demo_initialised : initialised demo_ready.
Proof. split; [reflexivity|]. vm_compute. reflexivity. Qed.

Lemma sound_roundtrip_witness :
  wp (_ ← nat_ioe_write AM_AUDIO_PLAY 0x100; audio_play 2 0x5000 4) demo_ready (fun _ s' =>
    pipe s' = [] /\ forall k, 0 <= k < 4 -> load8 (st_mem s') (0x5000 + k) = load8 (st_mem demo_ready) (0x1000 + k)).
Proof.
  apply (sound_roundtrip 2 demo_ready 0x100 0x1000 4 0x5000); try lia; try reflexivity. exact demo_initialised.
Defined.

Lemma nat_ioe_disk_roundtrip_witness :
  wp (_ ← nat_ioe_write AM_DISK_BLKIO 0x200; nat_ioe_write AM_DISK_BLKIO 0x300) demo_ready (fun _ s' =>
    forall k, 0 <= k < 1 * 512 -> load8 (st_mem s') (0x9000 + k) = load8 (st_mem demo_ready) (0x1000 + k)).
Proof.
  apply (nat_ioe_disk_roundtrip demo_ready 0x200 0x300 0x1000 0x9000 1 1); [exact demo_initialised|..].
  - split; [vm_compute; reflexivity|]. repeat split; vm_compute; congruence.
  - split; [lia|]. vm_compute. auto.
  - split; [lia|]. vm_compute. auto.
Defined.

(** The left pixel of the image is drawn, the right one is outside of the window. *)
Example demo_draw :
  match nat_ioe_write AM_GPU_FBDRAW 0x400 demo_ready with
  | Done _ s => (pixel (nio_host s) 399 0, pixel (nio_host s) 398 0) = (0x030201, 0)
  | Fault _ => False
  end.
Proof. vm_compute. reflexivity. Qed.

(** A clock whose host answers 7 and 8 seconds. *)
Example demo_uptime :
  match nat_ioe_read AM_TIMER_UPTIME 0x2000 demo_start with
  | Done _ s => load64 (st_mem s) 0x2000 = 1000500
  | Fault _ => False
  end.
Proof. vm_compute. reflexivity. Qed.
