(* ===== verification/Halt.v ===== *)
(** * The end of a run: am/src/x86/qemu/trm.c, lines 34-59, and mpe.c, lines 36-55

    [halt] stops the other processors, prints its message on the serial line and switches the
    machine off; a panic of klib-macros.h ends there. What happens outside of memory is the
    list of port and register writes of a run ([Logged]). *)

From stdpp Require Import prelude.
From S2P Require Import Prelude Mem KString Boot Trm Cte Apic NatDev.

(** The interrupt flag of the processor ([cli]). *)
Class Flags (D : Type) : Type := { set_if : bool -> D -> D }.

(** "CPU #$ Halt (40).\n" *)
Definition qemu_halt_fmt : list Z := [67; 80; 85; 32; 35; 36; 32; 72; 97; 108; 116; 32; 40; 52; 48; 41; 46; 10].

Section Code.
Context {D : Type} `{Ports D, Mmio D, Flags D}.

Definition cli : M (machine D) unit := modify (fun s => mk_machine (mc_mem s) (set_if false (mc_dev s))).

Definition outw (port data : Z) : M (machine D) unit := out_port 16 port data.

Definition serial_putch (ch : Z) : M (machine D) unit := outb 0x3f8 ch.

Section Cpus.
(** [__am_lapic] and [__am_ncpu]. *)
Context (lapic ncpu : Z).

Definition cpu_count : Z := ncpu.

(** mpe.c, lines 40-42. *)
Definition cpu_current : M (machine D) Z := v ← in32 (lapic + 4 * 8); mret (Z.shiftr v 24).

(** mpe.c, lines 50-54, [k] processors being left from [cpu_]. *)
Fixpoint stop_others (k : nat) (cpu_ : Z) : M (machine D) unit :=
  match k with
  | O => mret tt
  | S k =>
      c ← cpu_current;
      _ ← (if cpu_ =? c then mret tt else __am_lapic_bootap lapic cpu_ BOOTREC_ADDR);
      stop_others k (cpu_ + 1)
  end.

(** mpe.c, lines 48-55: a processor that starts now runs [jmp .] in the boot record. *)
Definition __am_stop_the_world : M (machine D) unit :=
  _ ← write_le 4 BOOTREC_ADDR 0 0x0000feeb;
  stop_others (Z.to_nat ncpu) 0.

(** [hex[i]], the string of the 16 digits and its NUL. *)
Definition hex_at (i : Z) : M (machine D) Z :=
  if i <? 0 then raise OutOfBounds
  else match (hex_table ++ [0]) !! Z.to_nat i with Some c => mret c | None => raise OutOfBounds end.

(** Lines 44-56, the characters of [fmt] from [p] on. *)
Fixpoint halt_loop (code : Z) (fmt : list Z) : M (machine D) unit :=
  match fmt with
  | [] => mret tt
  | ch :: fmt =>
      _ ← (if ch =? 36 then
             i ← cpu_current; c ← hex_at i; serial_putch c
           else if (ch =? 48) || (ch =? 52) then
             c ← hex_at (Z.land (Z.shiftr code (ch - 48)) 0xf); serial_putch c
           else serial_putch ch);
      halt_loop code fmt
  end.

(** Lines 39-57, up to the endless loop of [hlt] instructions. *)
Definition halt (code : Z) : M (machine D) unit :=
  _ ← cli;
  _ ← __am_stop_the_world;
  _ ← halt_loop code qemu_halt_fmt;
  outw 0x604 0x2000.

(** klib-macros.h, lines 15-16, for the string at [p]. *)
Fixpoint putstr (fuel : nat) (p : Z) : M (machine D) unit :=
  match fuel with
  | O => raise OutOfFuel
  | S fuel => c ← get8 p; if c =? 0 then mret tt else _ ← serial_putch c; putstr fuel (p + 1)
  end.

(** klib-macros.h, lines 32-37: the message [s] between the strings "AM Panic: " and
    " @ file:line" at [head] and [place]. *)
Definition panic_on (fuel : nat) (cond : bool) (head s place : Z) : M (machine D) unit :=
  if cond then
    _ ← putstr fuel head;
    _ ← putstr fuel s;
    _ ← putstr fuel place;
    halt 1
  else mret tt.

(** trm.c, lines 8-10. *)
Definition call_main (main : M (machine D) Z) : M (machine D) unit := code ← main; halt code.

(** mpe.c, lines 7-10, with the strings of [panic_on]. *)
Definition call_user_entry (fuel : nat) (user_entry : M (machine D) unit) (head s place : Z) : M (machine D) unit :=
  _ ← user_entry;
  panic_on fuel true head s place.

(** cte.c, line 136: where the entry of a kernel context returns to. *)
Definition __am_panic_on_return (fuel : nat) (head s place : Z) : M (machine D) unit := panic_on fuel true head s place.
End Cpus.
End Code.

(** ** What the machine does with it *)

(** A write to a port or to a register of the local APIC; the interrupt flag. *)
Inductive effect : Type :=
| Port (w port data : Z)
| Reg (addr v : Z)
| Flag (b : bool).

(** A device state that records the writes; reads of the local APIC at [lapic] change
    nothing, and its identification register holds the number of the processor. *)
Class Logged (D : Type) (lapic self : Z) `{Ports D, Mmio D, Flags D} : Type := {
  writes : D -> list effect;
  log_port : forall w port data d, writes (port_out w port data d) = writes d ++ [Port w port data];
  log_reg : forall a v d, writes (mmio_out a v d) = writes d ++ [Reg a v];
  log_flag : forall b d, writes (set_if b d) = writes d ++ [Flag b];
  log_in : forall a d, writes (mmio_in a d).2 = writes d;
  log_id : forall d, (mmio_in (lapic + 4 * ID) d).1 = self * 2 ^ 24;
}.

(** The target of a jump instruction of the two short forms at [a]: opcode EB with a signed
    byte, E9 with a signed 16-bit displacement, from the end of the instruction, in the 16-bit
    mode in which a processor starts. *)
Definition jump16 (m : mem) (a : Z) : option Z :=
  if load8 m a =? 0xeb then Some (wrap 16 (a + 2 + signed 8 (load8 m (a + 1))))
  else if load8 m a =? 0xe9 then Some (wrap 16 (a + 3 + signed 16 (load_le 2 m (a + 1))))
  else None.

(** The start of processor [cpu] at the boot record: INIT, and twice STARTUP with the page of
    the boot record. *)
Definition boot_effects (lapic cpu : Z) : list effect :=
  [Port 8 0x70 0xF; Port 8 0x71 0x0A;
   Reg (lapic + 4 * ICRHI) (cpu * 2 ^ 24); Reg (lapic + 4 * ICRLO) (Z.lor (Z.lor INIT LEVEL) ASSERT);
   Reg (lapic + 4 * ICRLO) (Z.lor INIT LEVEL);
   Reg (lapic + 4 * ICRHI) (cpu * 2 ^ 24); Reg (lapic + 4 * ICRLO) (Z.lor STARTUP 7);
   Reg (lapic + 4 * ICRHI) (cpu * 2 ^ 24); Reg (lapic + 4 * ICRLO) (Z.lor STARTUP 7)].

Definition stop_effects (lapic self : Z) (cpus : list Z) : list effect :=
  concat ((fun cpu => if cpu =? self then [] else boot_effects lapic cpu) <$> cpus).

Definition shown_on_serial (l : list Z) : list effect := (fun c => Port 8 0x3f8 c) <$> l.

(** "CPU #c Halt (xy).\n" *)
Definition halt_message (self code : Z) : list Z :=
  [67; 80; 85; 32; 35; nibble self; 32; 72; 97; 108; 116; 32; 40; nibble ((code / 16) mod 16); nibble (code mod 16); 41; 46; 10].

Section Spec.
Context {D : Type} (lapic self : Z) `{Logged D lapic self} (Hself : 0 <= self < 16).
Implicit Types (s : machine D).

Definition ws s : list effect := writes (mc_dev s).

Lemma wp_cpu_current s (Q : Z -> machine D -> Prop) :
  (forall s', mc_mem s' = mc_mem s -> ws s' = ws s -> Q self s') -> wp (cpu_current lapic) s Q.
Proof.
  intros HQ. unfold cpu_current. apply wp_bind, wp_in32. change (4 * 8) with (4 * ID). rewrite log_id. apply wp_ret.
  rewrite wrap_small by lia. rewrite Z.shiftr_div_pow2, Z.div_mul by lia. apply HQ; [done|]. unfold ws. simpl. by rewrite log_in.
Qed.

Lemma wp_lapicw i v s (Q : unit -> machine D -> Prop) :
  0 <= v < 2 ^ 32 -> (forall s', mc_mem s' = mc_mem s -> ws s' = ws s ++ [Reg (lapic + 4 * i) v] -> Q tt s') ->
  wp (lapicw lapic i v) s Q.
Proof.
  intros Hv HQ. unfold lapicw. apply wp_bind, wp_modify, wp_bind, wp_in32, wp_ret. apply HQ; [done|]. unfold ws. simpl.
  by rewrite log_in, log_reg, wrap_small.
Qed.

(** The warm reset vector, the only memory [__am_lapic_bootap] writes. *)
Definition reset_vector (x : Z) : Prop := inr 0x467 4 x.

Lemma bootap_effects cpu s :
  0 <= cpu < 256 ->
  wp (__am_lapic_bootap lapic cpu BOOTREC_ADDR) s (fun _ s' =>
    only_in reset_vector (mc_mem s) (mc_mem s') /\ ws s' = ws s ++ boot_effects lapic cpu).
Proof.
  intros Hc. unfold __am_lapic_bootap. assert (Z.shiftl cpu 24 = cpu * 2 ^ 24) as Ecpu by (rewrite Z.shiftl_mul_pow2; lia).
  rewrite Ecpu. change (Z.lor (Z.shiftl 0x40 4) 0x67) with 0x467. apply wp_bind, wp_out, wp_bind, wp_out.
  apply wp_bind, wp_write; [done|]. apply wp_bind, wp_write; [done|]. set (s0 := st_upd _ _).
  assert (only_in reset_vector (mc_mem s) (mc_mem s0)) as Ho.
  { repeat apply only_in_store; [done|unfold reset_vector, inr; simpl; lia..]. }
  assert (ws s0 = ws s ++ [Port 8 0x70 0xF; Port 8 0x71 0x0A]) as Hw.
  { unfold ws. simpl. rewrite !log_port, <- app_assoc. done. }
  clearbody s0. change (Z.shiftr BOOTREC_ADDR 12) with 7.
  apply wp_bind, wp_lapicw; [lia|]. intros s1 M1 W1. apply wp_bind, wp_lapicw; [done|]. intros s2 M2 W2.
  apply wp_bind, wp_lapicw; [done|]. intros s3 M3 W3. apply wp_bind, wp_lapicw; [lia|]. intros s4 M4 W4.
  apply wp_bind, wp_lapicw; [done|]. intros s5 M5 W5. apply wp_bind, wp_lapicw; [lia|]. intros s6 M6 W6.
  apply wp_lapicw; [done|]. intros s7 M7 W7. split; [rewrite M7, M6, M5, M4, M3, M2, M1; exact Ho|].
  rewrite W7, W6, W5, W4, W3, W2, W1, Hw, <- !app_assoc. done.
Qed.

Lemma stop_others_effects k cpu_ s :
  0 <= cpu_ -> cpu_ + Z.of_nat k <= 256 ->
  wp (stop_others lapic k cpu_) s (fun _ s' =>
    only_in reset_vector (mc_mem s) (mc_mem s') /\ ws s' = ws s ++ stop_effects lapic self (seqZ cpu_ (Z.of_nat k))).
Proof.
  revert cpu_ s. induction k as [|k IH]; intros cpu_ s Hc Hk; cbn [stop_others].
  { apply wp_ret. simpl. by rewrite app_nil_r. }
  rewrite seqZ_cons by lia. apply wp_bind, wp_cpu_current. intros s1 M1 W1. apply wp_bind.
  replace (Z.pred (Z.of_nat (S k))) with (Z.of_nat k) by lia. replace (Z.succ cpu_) with (cpu_ + 1) by lia.
  unfold stop_effects. cbn [fmap list_fmap concat]. fold (stop_effects lapic self (seqZ (cpu_ + 1) (Z.of_nat k))).
  assert (wp (if cpu_ =? self then mret tt else __am_lapic_bootap lapic cpu_ BOOTREC_ADDR) s1 (fun _ s2 =>
    only_in reset_vector (mc_mem s1) (mc_mem s2) /\ ws s2 = ws s1 ++ if cpu_ =? self then [] else boot_effects lapic cpu_)) as Hstep.
  { destruct (cpu_ =? self); [apply wp_ret; by rewrite app_nil_r|]. apply bootap_effects. lia. }
  eapply wp_mono; [exact Hstep|]. intros _ s2 (M2 & W2). eapply wp_mono; [apply IH; lia|]. intros _ s3 (M3 & W3). split.
  - rewrite <- M1. by etrans.
  - by rewrite W3, W2, W1, <- app_assoc.
Qed.

Lemma wp_hex_at i s (Q : Z -> machine D -> Prop) : 0 <= i < 16 -> Q (nibble i) s -> wp (hex_at i) s Q.
Proof.
  intros Hi HQ. unfold hex_at. destruct (Z.ltb_spec i 0); [lia|]. pose proof (hex_table_nibble i Hi) as E.
  rewrite (lookup_app_l_Some _ _ _ _ E). by apply wp_ret.
Qed.

(** What a character of the format makes [halt] print. *)
Definition halt_char_of (code ch : Z) : Z :=
  if ch =? 36 then nibble self
  else if (ch =? 48) || (ch =? 52) then nibble ((code / 2 ^ (ch - 48)) mod 16) else ch.

Lemma nibble_byte d : 0 <= d < 16 -> wrap 8 (nibble d) = nibble d.
Proof. intros Hd. unfold nibble. destruct (d <=? 9); apply wrap_small; lia. Qed.

Lemma wp_serial ch s (Q : unit -> machine D -> Prop) :
  wrap 8 ch = ch -> (forall s', mc_mem s' = mc_mem s -> ws s' = ws s ++ [Port 8 0x3f8 ch] -> Q tt s') -> wp (serial_putch ch) s Q.
Proof. intros Hc HQ. apply wp_out. rewrite Hc. apply HQ; [done|]. unfold ws. simpl. by rewrite log_port. Qed.

Lemma halt_loop_effects code fmt s :
  Forall (fun c => 0 <= c < 256) fmt ->
  wp (halt_loop lapic code fmt) s (fun _ s' => mc_mem s' = mc_mem s /\ ws s' = ws s ++ shown_on_serial (halt_char_of code <$> fmt)).
Proof.
  intros Hfmt. revert s. induction Hfmt as [|ch fmt Hch Hfmt IH]; intros s; cbn [halt_loop].
  { apply wp_ret. by rewrite app_nil_r. }
  set (c := halt_char_of code ch). apply wp_bind.
  assert (wp (if ch =? 36 then i ← cpu_current lapic; c ← hex_at i; serial_putch c
    else if (ch =? 48) || (ch =? 52) then c ← hex_at (Z.land (Z.shiftr code (ch - 48)) 0xf); serial_putch c
    else serial_putch ch) s (fun _ s' => mc_mem s' = mc_mem s /\ ws s' = ws s ++ [Port 8 0x3f8 c])) as Hc.
  { subst c. unfold halt_char_of. destruct (Z.eqb_spec ch 36).
    - apply wp_bind, wp_cpu_current. intros s1 M1 W1. apply wp_bind, wp_hex_at; [done|].
      apply wp_serial; [by apply nibble_byte|]. intros s2 M2 W2. split; [congruence|]. by rewrite W2, W1.
    - destruct ((ch =? 48) || (ch =? 52)) eqn:E.
      + assert (0 <= ch - 48) as Hge. { apply orb_true_iff in E as [E%Z.eqb_eq|E%Z.eqb_eq]; lia. }
        change 0xf with (Z.ones 4). rewrite Z.land_ones, Z.shiftr_div_pow2 by lia. change (2 ^ 4) with 16.
        pose proof (Z.mod_pos_bound (code / 2 ^ (ch - 48)) 16 ltac:(lia)).
        apply wp_bind, wp_hex_at; [done|]. apply wp_serial; [by apply nibble_byte|]. done.
      + apply wp_serial; [by apply wrap_small|done]. }
  eapply wp_mono; [exact Hc|]. intros _ s1 (M1 & W1). eapply wp_mono; [apply IH|]. intros _ s2 (M2 & W2).
  split; [congruence|]. rewrite W2, W1, <- app_assoc. done.
Qed.

Lemma halt_effects s ncpu code :
  0 <= ncpu <= 256 ->
  wp (halt lapic ncpu code) s (fun _ s' =>
    ws s' = ws s ++ [Flag false] ++ stop_effects lapic self (seqZ 0 ncpu) ++
            shown_on_serial (halt_message self code) ++ [Port 16 0x604 0x2000] /\
    jump16 (mc_mem s') BOOTREC_ADDR = Some BOOTREC_ADDR /\
    only_in (fun x => inr BOOTREC_ADDR 4 x \/ reset_vector x) (mc_mem s) (mc_mem s')).
Proof.
  intros Hn. unfold halt. apply wp_bind, wp_modify, wp_bind. set (s0 := mk_machine _ _).
  assert (ws s0 = ws s ++ [Flag false]) as W0 by (unfold ws; simpl; by rewrite log_flag).
  unfold __am_stop_the_world. apply wp_bind, wp_write; [done|]. set (s1 := st_upd _ _).
  assert (ws s1 = ws s0) as W1 by done.
  assert (mc_mem s1 = store32 (mc_mem s) BOOTREC_ADDR 0xfeeb) as M1 by done. clearbody s1 s0.
  eapply wp_mono; [apply (stop_others_effects (Z.to_nat ncpu) 0 s1); lia|]. intros _ s2 (M2 & W2). rewrite Z2Nat.id in W2 by lia.
  apply wp_bind. eapply wp_mono; [apply halt_loop_effects|].
  { repeat (constructor; [lia|]). constructor. }
  intros _ s3 (M3 & W3). apply wp_out. split; [|split].
  - unfold ws. cbn [mc_dev]. rewrite log_port. fold (ws s3). rewrite W3, W2, W1, W0, <- !app_assoc. repeat f_equal.
    unfold halt_message. cbn [shown_on_serial]. unfold halt_char_of, qemu_halt_fmt, shown_on_serial. simpl.
    by rewrite Z.div_1_r.
  - cbn [mc_mem]. rewrite M3. assert (forall x, inr BOOTREC_ADDR 4 x -> load8 (mc_mem s2) x = load8 (mc_mem s1) x) as Hk.
    { intros x Hx. apply M2. unfold reset_vector, inr, BOOTREC_ADDR in *. lia. }
    unfold jump16. rewrite !Hk by (unfold inr, BOOTREC_ADDR; lia). rewrite M1. reflexivity.
  - cbn [mc_mem]. rewrite M3. etrans; [|eapply only_in_weaken; [exact M2|by right]]. rewrite M1.
    apply only_in_store; [done|]. intros x Hx. by left.
Qed.

(** C25: [halt], on processor [self] of [ncpu], first sends every other processor, and not
    itself, through INIT and STARTUP to the boot record, where it finds a jump to itself; then
    it prints "CPU #c Halt (xy)." with its own number and the last byte of the code on the
    serial line; the write that switches the machine off is the last. Of memory only the boot
    record's jump and the warm reset vector change, and the table of digits is never read
    outside. *)
Theorem halt_spec s ncpu code :
  0 <= ncpu <= 256 ->
  wp (halt lapic ncpu code) s (fun _ s' =>
    ws s' = ws s ++ [Flag false] ++ stop_effects lapic self (seqZ 0 ncpu) ++
            shown_on_serial (halt_message self code) ++ [Port 16 0x604 0x2000] /\
    jump16 (mc_mem s') BOOTREC_ADDR = Some BOOTREC_ADDR /\
    only_in (fun x => inr BOOTREC_ADDR 4 x \/ reset_vector x) (mc_mem s) (mc_mem s')).
Proof. apply halt_effects. Qed.

Lemma putstr_effects l : forall fuel p s,
  cstr (mc_mem s) p l -> 0 < p -> (length l < fuel)%nat ->
  wp (putstr fuel p) s (fun _ s' => mc_mem s' = mc_mem s /\ ws s' = ws s ++ shown_on_serial l).
Proof.
  induction l as [|c l IH]; intros fuel p s Hs Hp Hf; (destruct fuel as [|fuel]; [simpl in Hf; lia|]); cbn [putstr].
  - apply wp_bind, wp_get8; [lia|]. cbn [st_mem machine_has_mem]. simpl in Hs. rewrite Hs. apply wp_ret. by rewrite app_nil_r.
  - pose proof (cstr_bytes _ _ _ Hs) as Hb. apply Forall_cons in Hb as [Hb _]. destruct Hs as (Hc & Hn & Hs).
    apply wp_bind, wp_get8; [lia|]. cbn [st_mem machine_has_mem]. rewrite Hc. destruct (Z.eqb_spec c 0); [done|].
    apply wp_bind, wp_serial; [apply wrap_small; lia|]. intros s1 M1 W1.
    eapply wp_mono; [apply IH; [by rewrite M1|lia|simpl in Hf; lia]|]. intros _ s2 (M2 & W2). split; [congruence|].
    by rewrite W2, W1, <- app_assoc.
Qed.

(** A panic prints its message and its place, and ends as [halt] does; a condition that is false
    does nothing. *)
Theorem panic_spec fuel s ncpu head msg place lh lm lp :
  0 <= ncpu <= 256 -> Forall (fun t => cstr (mc_mem s) t.1 t.2 /\ 0 < t.1 /\ (length t.2 < fuel)%nat) [(head, lh); (msg, lm); (place, lp)] ->
  panic_on lapic ncpu fuel false head msg place s = Done tt s /\
  wp (panic_on lapic ncpu fuel true head msg place) s (fun _ s' =>
    ws s' = ws s ++ shown_on_serial (lh ++ lm ++ lp) ++ [Flag false] ++ stop_effects lapic self (seqZ 0 ncpu) ++
            shown_on_serial (halt_message self 1) ++ [Port 16 0x604 0x2000]).
Proof.
  intros Hn HF. split; [done|]. rewrite !Forall_cons in HF. destruct HF as ((Hs1 & Hp1 & Hf1) & (Hs2 & Hp2 & Hf2) & (Hs3 & Hp3 & Hf3) & _).
  cbn [fst snd] in *. unfold panic_on.
  apply wp_bind. eapply wp_mono; [by apply putstr_effects|]. intros _ s1 (M1 & W1).
  apply wp_bind. eapply wp_mono; [apply (putstr_effects lm); [by rewrite M1|done|done]|]. intros _ s2 (M2 & W2).
  apply wp_bind. eapply wp_mono; [apply (putstr_effects lp); [by rewrite M2, M1|done|done]|]. intros _ s3 (M3 & W3).
  eapply wp_mono; [by apply halt_effects|]. intros _ s4 (W4 & _). rewrite W4, W3, W2, W1. unfold shown_on_serial.
  by rewrite !fmap_app, <- !app_assoc.
Qed.

(** Where the program ends: the value [main] returns is the code of [halt], printed in its two
    low digits; an entry of [mpe_init] that returns is a panic. *)
Theorem call_main_spec ncpu main s code s1 :
  0 <= ncpu <= 256 -> main s = Done code s1 ->
  wp (call_main lapic ncpu main) s (fun _ s' =>
    ws s' = ws s1 ++ [Flag false] ++ stop_effects lapic self (seqZ 0 ncpu) ++
            shown_on_serial (halt_message self code) ++ [Port 16 0x604 0x2000]).
Proof.
  intros Hn Hm. apply wp_bind, (wp_eq _ _ _ _ _ Hm). eapply wp_mono; [by apply halt_effects|]. by intros _ s' (W & _).
Qed.

Theorem call_user_entry_spec fuel ncpu entry s s1 head msg place lh lm lp :
  0 <= ncpu <= 256 -> entry s = Done tt s1 ->
  Forall (fun t => cstr (mc_mem s1) t.1 t.2 /\ 0 < t.1 /\ (length t.2 < fuel)%nat) [(head, lh); (msg, lm); (place, lp)] ->
  wp (call_user_entry lapic ncpu fuel entry head msg place) s (fun _ s' =>
    ws s' = ws s1 ++ shown_on_serial (lh ++ lm ++ lp) ++ [Flag false] ++ stop_effects lapic self (seqZ 0 ncpu) ++
            shown_on_serial (halt_message self 1) ++ [Port 16 0x604 0x2000]).
Proof. intros Hn He Hs. apply wp_bind, (wp_eq _ _ _ _ _ He). by apply panic_spec. Qed.
End Spec.

(** ** Processor 1 of two *)

#[local] Instance log_ports : Ports (list effect) :=
  {| port_in := fun _ _ d => (0, d); port_out := fun w p v d => d ++ [Port w p v] |}.
#[local] Instance log_mmio : Mmio (list effect) :=
  {| mmio_in := fun a d => (2 ^ 24, d); mmio_out := fun a v d => d ++ [Reg a v] |}.
#[local] Instance log_flags : Flags (list effect) := {| set_if := fun b d => d ++ [Flag b] |}.

#[local, refine] Instance log_logged : Logged (list effect) 0xfee00000 1 := {| writes := fun d => d |}.
Proof. all: done. Defined.

Lemma halt_spec_witness :
  wp (halt 0xfee00000 2 0x2a) (mk_machine (fun _ => 0) []) (fun _ s' =>
    mc_dev s' = [Flag false] ++ boot_effects 0xfee00000 0 ++
      shown_on_serial [67; 80; 85; 32; 35; 49; 32; 72; 97; 108; 116; 32; 40; 50; 97; 41; 46; 10] ++ [Port 16 0x604 0x2000] /\
    jump16 (mc_mem s') BOOTREC_ADDR = Some BOOTREC_ADDR /\
    only_in (fun x => inr BOOTREC_ADDR 4 x \/ reset_vector x) (fun _ => 0) (mc_mem s')).
Proof.
  assert (0 <= 2 <= 256) as Hn by lia. assert (0 <= 1 < 16) as Hs by lia.
  eapply wp_mono; [exact (halt_spec (D := list effect) 0xfee00000 1 Hs (mk_machine (fun _ => 0) []) 2 0x2a Hn)|].
  intros ? s' (E & J & O). split; [|by split]. etransitivity; [exact E|]. vm_compute. reflexivity.
Defined.
