(* ===== verification/Assert.v ===== *)
(** * The end of a failed assertion: klib.h, lines 46-52, and klib/src/cpp.c

    The rest of the development has a failed assertion as the fault [AssertFail], since no code
    of the program runs after it. This file follows it to the end: [printf] on the serial line,
    then [halt]. *)

From stdpp Require Import prelude.
From S2P Require Import Prelude Mem KString KStdlib KStdio Boot Trm Cte Apic NatDev Halt.

Section Code.
Context {D : Type} `{Ports D, Mmio D, Flags D}.

(** [putch] of each byte in turn. *)
Fixpoint send (l : list Z) : M (machine D) unit :=
  match l with [] => mret tt | c :: l => _ ← serial_putch c; send l end.

(** [printf] of KStdio.v with the serial line as its console. *)
Definition on_serial {A} (c : M kio A) : M (machine D) A := fun s =>
  match c (mk_kio (mc_mem s) []) with
  | Done a k => (_ ← send (io_out k); mret a) (mk_machine (io_mem k) (mc_dev s))
  | Fault e => Fault e
  end.

Section Cpus.
Context (lapic ncpu : Z) (fuel : nat).

(** [fmt] is the address of the format, [file] of the name [__FILE__]. *)
Definition assert_at (fmt file line : Z) (cond : bool) : M (machine D) unit :=
  if negb cond then
    _ ← on_serial (printf fuel fmt [file; line]);
    halt lapic ncpu 1
  else mret tt.

(** klib/src/cpp.c: what the runtime of a C++ compiler may call. *)
Definition __dso_handle : M (machine D) unit := mret tt.
Definition __cxa_guard_acquire : M (machine D) unit := mret tt.
Definition __cxa_guard_release : M (machine D) unit := mret tt.
Definition __cxa_atexit (fmt file : Z) : M (machine D) unit := assert_at fmt file 16 false.
End Cpus.
End Code.

(** "Assertion fail at " and the format of the message. *)
Definition assert_head : list Z := [65; 115; 115; 101; 114; 116; 105; 111; 110; 32; 102; 97; 105; 108; 32; 97; 116; 32].
Definition assert_fmt : list Z := assert_head ++ [37; 115; 58; 37; 100; 10].

Definition assert_text (name : list Z) (line : Z) : list Z :=
  assert_head ++ name ++ 58 :: dec_chars line ++ [10].

(** The ':' and the newline stand behind a directive, where [printf] takes a character as it
    is. *)
Lemma assert_prints m file name line :
  cstr m file name -> 0 < file -> 0 <= line < 2 ^ 31 ->
  exists r, prints m assert_fmt [file; line] (assert_text name line) r /\ r = len (assert_text name line).
Proof.
  intros Hc Hp Hl. unfold assert_fmt, assert_text.
  assert (printf_dir m 115 [file; line] [line] name) as Hs.
  { apply p_common; [by right; right; right; left|]. apply d_str; [done|done|lia]. }
  assert (printf_dir m 100 [line] [] (dec_chars line)) as Hd.
  { apply p_common; [by right; right; left|]. rewrite <- (signed_small 32 line) at 2 by (simpl; lia).
    apply d_int. rewrite signed_small by (simpl; lia). lia. }
  set (d := dec_chars line) in *. clearbody d. eexists. split.
  - unfold assert_head. simpl. repeat (apply prints_char; [by apply (bool_decide_unpack _)|]).
    eapply prints_directive; [exact Hs|]. eapply (prints_directive m 100 10); [exact Hd|]. apply prints_end.
  - rewrite !length_app. cbn [length]. rewrite !length_app. simpl. lia.
Qed.

Section Spec.
Context {D : Type} (lapic self : Z) `{Logged D lapic self} (Hself : 0 <= self < 16).
Context (fuel : nat) (Hfuel : (64 < fuel)%nat).

Lemma send_effects l s :
  Forall is_byte l ->
  wp (send l) s (fun _ s' => mc_mem s' = mc_mem s /\ ws lapic self s' = ws lapic self s ++ shown_on_serial l).
Proof.
  intros Hl. revert s. induction Hl as [|c l Hc Hl IH]; intros s; cbn [send].
  { apply wp_ret. by rewrite app_nil_r. }
  apply wp_bind, (wp_serial lapic self); [by apply wrap_small|]. intros s1 M1 W1.
  eapply wp_mono; [apply IH|]. intros _ s2 (M2 & W2). split; [congruence|]. by rewrite W2, W1, <- app_assoc.
Qed.

(** A formatted message on the serial line. *)
Lemma printf_on_serial s fmt l args o r :
  prints (mc_mem s) l args o r -> cstr (mc_mem s) fmt l -> 0 < fmt -> r < 2 ^ 31 ->
  (length l < fuel)%nat -> (length o < fuel)%nat -> Forall is_byte o ->
  wp (on_serial (printf fuel fmt args)) s (fun v s' => v = r /\ mc_mem s' = mc_mem s /\
    ws lapic self s' = ws lapic self s ++ shown_on_serial o).
Proof.
  intros Hpr Hl Hp Hr Hf1 Hf2 Hb.
  pose proof (printf_spec fuel Hfuel (mk_kio (mc_mem s) []) fmt l args o r Hpr Hl Hp Hr Hf1 Hf2) as Hw.
  apply wp_done in Hw as (v & k & E & -> & Hm & Ho). cbn [io_mem io_out] in Hm, Ho.
  assert (on_serial (printf fuel fmt args) s = (_ ← send (io_out k); mret r) (mk_machine (io_mem k) (mc_dev s))) as E'.
  { unfold on_serial. by rewrite E. }
  assert (wp (_ ← send o; mret r) (mk_machine (mc_mem s) (mc_dev s)) (fun v s' => v = r /\ mc_mem s' = mc_mem s /\
    ws lapic self s' = ws lapic self s ++ shown_on_serial o)) as Hw.
  { apply wp_bind. eapply wp_mono; [by apply send_effects|]. intros _ s' (M & W). apply wp_ret. by repeat split. }
  rewrite Hm, Ho in E'. apply wp_done in Hw as (v & s' & E2 & HQ). apply wp_done. exists v, s'. split; [by rewrite E'|done].
Qed.

Lemma assert_text_bytes m file name line :
  cstr m file name -> 0 <= line < 2 ^ 31 -> Forall is_byte (assert_text name line).
Proof.
  intros Hc Hl. unfold assert_text. assert (Forall is_byte name) as Hn.
  { eapply Forall_impl; [by eapply cstr_bytes|]. unfold is_byte. lia. }
  assert (Forall is_byte (dec_chars line)) as Hd.
  { destruct (dec_chars_nonneg line Hl) as (ds & -> & _ & _ & Hds & _). eapply Forall_impl; [by apply dec_char_digit|].
    unfold is_digit, is_byte. lia. }
  rewrite Forall_app, Forall_app, Forall_cons, Forall_app.
  split_and!; [|done|done|done|]; repeat constructor; done.
Qed.

(** An assertion that holds does nothing. One that fails prints its message with the file and
    the line, and ends as [halt] does, with code 1. *)
Theorem assert_spec s ncpu fmt file name line :
  0 <= ncpu <= 256 -> cstr (mc_mem s) fmt assert_fmt -> 0 < fmt -> cstr (mc_mem s) file name -> 0 < file ->
  0 <= line < 2 ^ 31 -> (length (assert_text name line) < fuel)%nat -> len (assert_text name line) < 2 ^ 31 ->
  assert_at lapic ncpu fuel fmt file line true s = Done tt s /\
  wp (assert_at lapic ncpu fuel fmt file line false) s (fun _ s' =>
    ws lapic self s' = ws lapic self s ++ shown_on_serial (assert_text name line) ++ [Flag false] ++
      stop_effects lapic self (seqZ 0 ncpu) ++ shown_on_serial (halt_message self 1) ++ [Port 16 0x604 0x2000]).
Proof.
  intros Hn Hf Hp Hc Hq Hl Ht Hm. split; [done|]. destruct (assert_prints (mc_mem s) file name line Hc Hq Hl) as (r & Hpr & Er).
  cbn [assert_at negb]. apply wp_bind. eapply wp_mono.
  { apply (printf_on_serial _ _ _ _ _ _ Hpr Hf Hp); [lia|simpl; lia|done|by eapply assert_text_bytes]. }
  intros v s1 (_ & M1 & W1). eapply wp_mono; [by apply halt_effects|]. intros _ s2 (W2 & _).
  by rewrite W2, W1, <- !app_assoc.
Qed.
End Spec.
