(* ===== verification/Start.v ===== *)
(** * The start of a processor: am/src/x86/qemu/trm.c, lines 8-32

    [_start_c] is where the assembly entry goes in 64-bit mode. The boot processor finds the
    heap, the other processors and the local APIC, and sets up the I/O APIC; every processor
    loads its descriptor tables and sets up its local APIC. The parts are those of Trm.v,
    Apic.v and X86.v, composed on one machine. *)

From stdpp Require Import prelude.
From S2P Require Import Prelude Mem KString X86 Boot Trm Cte Apic.

(** The instructions [lgdt], [ltr] and [lidt]: the descriptor table with the limit, the
    selector, the address of the interrupt table with the limit. *)
Class Descriptors (D : Type) : Type := {
  load_gdt : list SegDesc -> Z -> D -> D;
  load_tr : Z -> D -> D;
  load_idt : Z -> Z -> D -> D;
}.

(** [sizeof(SegDesc)] and [sizeof(GateDesc64)] *)
Definition sizeof_SegDesc : Z := 8.
Definition sizeof_GateDesc64 : Z := 16.

Section Code.
Context {D : Type} `{Ports D, Mmio D, Descriptors D} (fuel : nat).

(** The address of the array [idt] of cte.c. *)
Context (idt : Z).

Definition set_gdt (gdt : list SegDesc) (size : Z) : M (machine D) unit :=
  modify (fun s => mk_machine (mc_mem s) (load_gdt gdt (signed 16 size) (mc_dev s))).

Definition set_tr (selector : Z) : M (machine D) unit :=
  modify (fun s => mk_machine (mc_mem s) (load_tr (wrap 16 selector) (mc_dev s))).

Definition set_idt (table size : Z) : M (machine D) unit :=
  modify (fun s => mk_machine (mc_mem s) (load_idt table (signed 16 size) (mc_dev s))).

(** cte.c, lines 161-165. *)
Definition __am_percpu_initirq : M (machine D) unit :=
  _ ← enable_irqs;
  set_idt idt (sizeof_GateDesc64 * Z.of_nat NR_IRQ).

(** [CPU->tss] and [CPU->gdt] of the processor. The result is the table it loaded. *)
Definition percpu_initgdt (tss : Z) (gdt : list SegDesc) : M (machine D) (list SegDesc) :=
  match __am_percpu_initgdt tss gdt with
  | None => raise Panic
  | Some gdt =>
      _ ← set_gdt gdt (sizeof_SegDesc * (NR_SEG + 1));
      _ ← set_tr (KSEL SEG_TSS);
      mret gdt
  end.

(** Lines 28-32. *)
Definition __am_percpu_init (lapic tss : Z) (gdt : list SegDesc) : M (machine D) (list SegDesc) :=
  gdt ← percpu_initgdt tss gdt;
  _ ← __am_percpu_initlapic lapic fuel;
  _ ← __am_percpu_initirq;
  mret gdt.

(** Lines 21-26; [heap], [__am_lapic] and [__am_ncpu] come back with the table. *)
Definition __am_bootcpu_init (end_ tss : Z) (gdt : list SegDesc) : M (machine D) ((Z * Z) * Z * Z * list SegDesc) :=
  heap ← __am_heap_init end_;
  '(lapic, ncpu) ← __am_lapic_init fuel 0;
  _ ← __am_ioapic_init;
  gdt ← __am_percpu_init lapic tss gdt;
  mret (heap, lapic, ncpu, gdt).

(** Lines 12-19: [None] on a processor that another one started, which goes on in
    [__am_othercpu_entry]; otherwise what the boot processor found, which goes on in [main]. *)
Definition _start_c (end_ tss : Z) (gdt : list SegDesc) : M (machine D) (option ((Z * Z) * Z * Z * list SegDesc)) :=
  is_ap ← read_le 4 BOOTREC_ADDR 4;
  if negb (is_ap =? 0) then mret None
  else r ← __am_bootcpu_init end_ tss gdt; mret (Some r).
End Code.

(** ** The machine *)

(** Ports, the registers of the local APIC and the descriptor tables do not reach the I/O
    APIC; the local APIC's interrupt has been delivered when its status is read. *)
Class Independent (D : Type) (lapic : Z) `{Ports D, IoApicDevice D, Descriptors D} : Prop := {
  ind_in : forall w p d, ioapic_reg (port_in w p d).2 = ioapic_reg d;
  ind_out : forall w p v d, ioapic_reg (port_out w p v d) = ioapic_reg d;
  ind_lapic_in : forall i d, 0 <= i < 256 -> ioapic_reg (mmio_in (lapic + 4 * i) d).2 = ioapic_reg d;
  ind_lapic_out : forall i v d, 0 <= i < 256 -> ioapic_reg (mmio_out (lapic + 4 * i) v d) = ioapic_reg d;
  ind_gdt : forall gdt n d, ioapic_reg (load_gdt gdt n d) = ioapic_reg d;
  ind_tr : forall v d, ioapic_reg (load_tr v d) = ioapic_reg d;
  ind_idt : forall a n d, ioapic_reg (load_idt a n d) = ioapic_reg d;
  delivered : forall d, Z.land (u32 (mmio_in (lapic + 4 * ICRLO) d).1) DELIVS = 0;
}.

(** The registers of the descriptor tables: only their instructions change them. *)
Record tabs : Type := mk_tabs { gdtr : list SegDesc * Z; tr : Z; idtr : Z * Z }.

Class Tables (D : Type) `{Ports D, Mmio D, Descriptors D} : Type := {
  tables : D -> tabs;
  tab_in : forall w p d, tables (port_in w p d).2 = tables d;
  tab_out : forall w p v d, tables (port_out w p v d) = tables d;
  tab_read : forall a d, tables (mmio_in a d).2 = tables d;
  tab_write : forall a v d, tables (mmio_out a v d) = tables d;
  tab_gdt : forall gdt n d, tables (load_gdt gdt n d) = mk_tabs (gdt, n) (tr (tables d)) (idtr (tables d));
  tab_tr : forall v d, tables (load_tr v d) = mk_tabs (gdtr (tables d)) v (idtr (tables d));
  tab_idt : forall a n d, tables (load_idt a n d) = mk_tabs (gdtr (tables d)) (tr (tables d)) (a, n);
}.

(** The table of processors the firmware left, as in [lapic_init_spec]. *)
Record firmware (m : mem) (i conf lapic : Z) (ts : list Z) : Prop := {
  fw_range : 0 <= i < 0xffffff - 0xf0000;
  fw_first : forall j, 0 <= j < i -> load32 m (0xf0000 + j) <> 0x5f504d5f;
  fw_magic : load32 m (0xf0000 + i) = 0x5f504d5f;
  fw_conf : load32 m (0xf0000 + i + 4) = conf /\ 0 < conf;
  fw_entries : entries_at m (conf + sizeof_MPConf) ts;
  fw_length : load_le 2 m (conf + 4) = sizeof_MPConf + entries_size ts;
  fw_lapic : load32 m (conf + 36) = lapic;
  fw_count : processors ts <= MAX_CPU;
}.

(** ** The search reads memory only *)

(** A computation on a memory, run on a state that has one. *)
Definition reads {St A} `{HasMem St} (r : outcome mem A) (s : St) : outcome St A :=
  match r with Done a _ => Done a s | Fault e => Fault e end.

Section Lift.
Context {St : Type} `{HasMem St} (fuel : nat).
Implicit Types (s : St) (m : mem).

Lemma mp_entries_reads k : forall p stop ncpu s,
  mp_entries k p stop ncpu s = reads (mp_entries k p stop ncpu (st_mem s)) s /\
  (forall r m', mp_entries k p stop ncpu (st_mem s) = Done r m' -> m' = st_mem s).
Proof.
  induction k as [|k IH]; intros p stop ncpu s; [done|]. cbn [mp_entries].
  destruct (p <? stop); [|by split; [done|intros r m' [=]]].
  unfold mbind, M_bind, get8. destruct (p =? 0); [done|]. unfold gets. cbn [st_mem mem_has_mem].
  destruct (load8 (st_mem s) p =? 0); [|by apply IH]. destruct (MAX_CPU <? ncpu + 1); [done|by apply IH].
Qed.

Lemma mp_search_reads k : forall st ncpu s,
  mp_search fuel k st ncpu s = reads (mp_search fuel k st ncpu (st_mem s)) s.
Proof.
  induction k as [|k IH]; intros st ncpu s; [done|].
  assert (forall T `(HasMem T), mp_search (St := T) fuel (S k) st ncpu =
    (magic ← read_le 4 st 0; if magic =? 0x5f504d5f then
      conf ← read_le 4 st 4; lapicaddr ← read_le 4 conf 36; length ← read_le 2 conf 4;
      ncpu ← mp_entries fuel (conf + sizeof_MPConf) (conf + length) ncpu; mret (lapicaddr, ncpu)
    else mp_search fuel k (st + 1) ncpu)) as E by done.
  rewrite !E. clear E. unfold mbind, M_bind, read_le. destruct (st =? 0); [done|]. unfold gets. cbn [st_mem mem_has_mem].
  destruct (load_le 4 (st_mem s) (st + 0) =? 0x5f504d5f); [|by apply IH].
  set (conf := load_le 4 (st_mem s) (st + 4)). destruct (conf =? 0); [done|].
  destruct (mp_entries_reads fuel (conf + sizeof_MPConf) (conf + load_le 2 (st_mem s) (conf + 4)) ncpu s) as [E Em].
  rewrite E. destruct (mp_entries _ _ _ _ (st_mem s)) as [r m'|e]; [|done]. by rewrite (Em _ _ eq_refl).
Qed.

Lemma lapic_init_reads ncpu s : __am_lapic_init fuel ncpu s = reads (__am_lapic_init fuel ncpu (st_mem s)) s.
Proof. apply mp_search_reads. Qed.
End Lift.

(** ** The registers of the tables *)

Section TableRegisters.
Context {D : Type} `{Tables D}.

(** Where [m] runs to its end, [f] gives the tables it leaves, from its result and the tables
    before. *)
Definition sets {A} (f : A -> tabs -> tabs) (m : M (machine D) A) : Prop :=
  forall s a s', m s = Done a s' -> tables (mc_dev s') = f a (tables (mc_dev s)).

Abbreviation keeps := (sets (fun _ t => t)) (only parsing).

Lemma keeps_ret {A} (a : A) : keeps (mret a).
Proof. by intros s b s' [= _ <-]. Qed.

Lemma keeps_raise {A} e : keeps (raise (A := A) e).
Proof. done. Qed.

Lemma sets_bind {A B} f (m : M (machine D) A) (k : A -> M (machine D) B) :
  keeps m -> (forall a, sets f (k a)) -> sets f (m ≫= k).
Proof.
  intros Hm Hk s b s'. unfold mbind, M_bind. destruct (m s) as [a s1|e] eqn:E; [|done]. intros E2.
  rewrite (Hk a s1 b s' E2). by rewrite (Hm s a s1 E).
Qed.

Lemma sets_then {A} f g (m : M (machine D) unit) (k : M (machine D) A) :
  sets (fun _ => g) m -> sets f k -> sets (fun a t => f a (g t)) (_ ← m; k).
Proof.
  intros Hm Hk s b s'. unfold mbind, M_bind. destruct (m s) as [a s1|e] eqn:E; [|done]. intros E2.
  rewrite (Hk s1 b s' E2). by rewrite (Hm s a s1 E).
Qed.

Lemma keeps_if {A} (b : bool) (m1 m2 : M (machine D) A) f : sets f m1 -> sets f m2 -> sets f (if b then m1 else m2).
Proof. by destruct b. Qed.

Lemma keeps_in w p : keeps (in_port w p).
Proof.
  intros s a s'. unfold in_port. pose proof (tab_in w (wrap 16 p) (mc_dev s)) as E. destruct (port_in _ _ _) as [v d].
  intros [= _ <-]. exact E.
Qed.

Lemma keeps_out w p v : keeps (out_port w p v).
Proof. intros s a s' [= _ <-]. apply tab_out. Qed.

Lemma keeps_in32 a : keeps (in32 a).
Proof.
  intros s v s'. unfold in32. pose proof (tab_read a (mc_dev s)) as E. destruct (mmio_in _ _) as [w d].
  intros [= _ <-]. exact E.
Qed.

Lemma keeps_out32 a v : keeps (out32 a v).
Proof. intros s x s' [= _ <-]. apply tab_write. Qed.

Create HintDb keeps.
#[local] Hint Resolve keeps_ret keeps_raise keeps_in keeps_out keeps_in32 keeps_out32 : keeps.

Ltac keep :=
  repeat first [progress intros | apply keeps_in | apply keeps_out | apply keeps_if | apply sets_bind | solve [auto with keeps]].

Lemma keeps_heap_init end_ : keeps (__am_heap_init end_).
Proof. unfold __am_heap_init. keep. Qed.

Lemma keeps_lapicw lapic i v : keeps (lapicw lapic i v).
Proof. unfold lapicw. keep. Qed.

Lemma keeps_wait lapic k : keeps (wait_delivery lapic k).
Proof. induction k as [|k IH]; cbn [wait_delivery]; keep. Qed.

#[local] Hint Resolve keeps_heap_init keeps_lapicw keeps_wait : keeps.

Lemma keeps_initlapic lapic fuel : keeps (__am_percpu_initlapic lapic fuel).
Proof. unfold __am_percpu_initlapic. keep. Qed.

Lemma keeps_ioapicwrite r v : keeps (ioapicwrite r v).
Proof. unfold ioapicwrite. keep. Qed.

#[local] Hint Resolve keeps_initlapic keeps_ioapicwrite : keeps.

Lemma keeps_mask_all k : forall i, keeps (ioapic_mask_all k i).
Proof. induction k as [|k IH]; intros i; cbn [ioapic_mask_all]; keep. Qed.

#[local] Hint Resolve keeps_mask_all : keeps.

Lemma keeps_ioapic_init : keeps __am_ioapic_init.
Proof. unfold __am_ioapic_init, ioapicread. keep. Qed.

Lemma keeps_enable : keeps enable_irqs.
Proof. unfold enable_irqs, __am_ioapic_enable. keep. Qed.

Lemma keeps_lapic_init fuel ncpu : keeps (__am_lapic_init fuel ncpu).
Proof.
  intros s a s'. rewrite lapic_init_reads. unfold reads.
  destruct (__am_lapic_init _ _ _); [|done]. by intros [= _ <-].
Qed.

(** What a processor has loaded when [__am_percpu_init] returns the table [gdt']. *)
Definition loaded_tables (idt : Z) (gdt' : list SegDesc) : tabs :=
  mk_tabs (gdt', 56) (KSEL SEG_TSS) (idt, 4096).

Lemma percpu_init_tables fuel idt lapic tss gdt :
  sets (fun gdt' _ => loaded_tables idt gdt') (__am_percpu_init fuel idt lapic tss gdt).
Proof.
  unfold __am_percpu_init, percpu_initgdt. intros s r s'. unfold mbind at 1, M_bind at 1.
  destruct (__am_percpu_initgdt tss gdt) as [g|]; [|done]. unfold set_gdt, set_tr, mbind at 1 2, M_bind at 1 2. cbn [modify mret M_ret].
  set (s1 := mk_machine _ _). intros E.
  assert (tables (mc_dev s1) = mk_tabs (g, 56) (KSEL SEG_TSS) (idtr (tables (mc_dev s)))) as E1.
  { unfold s1. cbn [mc_dev]. by rewrite tab_tr, tab_gdt. }
  revert E. unfold mbind at 1, M_bind at 1. destruct (__am_percpu_initlapic lapic fuel s1) as [u s2|] eqn:E2; [|done].
  apply keeps_initlapic in E2. unfold __am_percpu_initirq, mbind, M_bind.
  destruct (enable_irqs s2) as [v s3|] eqn:E3; [|done]. apply keeps_enable in E3. intros [= <- <-]. cbn [mc_dev].
  by rewrite tab_idt, E3, E2, E1.
Qed.

(** What [_start_c] leaves on the boot processor. *)
Lemma start_tables fuel idt end_ tss gdt s r s' :
  _start_c fuel idt end_ tss gdt s = Done r s' ->
  match r with Some (_, _, _, gdt') => tables (mc_dev s') = loaded_tables idt gdt' | None => True end.
Proof.
  unfold _start_c, read_le. unfold mbind at 1, M_bind at 1. cbn [Z.eqb]. destruct (BOOTREC_ADDR =? 0); [done|]. cbn [gets].
  destruct (negb _); [by intros [= <- _]|]. unfold __am_bootcpu_init.
  set (f := fun (r : (Z * Z) * Z * Z * list SegDesc) (t : tabs) => loaded_tables idt r.2).
  intros E. assert (exists r', r = Some r' /\ f r' (tables (mc_dev s)) = tables (mc_dev s')) as (r' & -> & Hr).
  { revert E. unfold mbind at 1, M_bind at 1. match goal with |- match ?m s with _ => _ end = _ -> _ => assert (sets f m) as Hm end.
    { apply sets_bind; [apply keeps_heap_init|]. intros h. apply sets_bind; [apply keeps_lapic_init|]. intros [l n].
      apply sets_bind; [apply keeps_ioapic_init|]. intros _. intros s1 a s2. unfold mbind, M_bind.
      destruct (__am_percpu_init _ _ _ _ _ s1) as [g s3|] eqn:E3; [|done]. apply percpu_init_tables in E3. by intros [= <- <-]. }
    match goal with |- match ?m s with _ => _ end = _ -> _ => destruct (m s) as [r1 s1|] eqn:E1; [|done] end.
    apply Hm in E1. intros [= <- <-]. by eexists. }
  by destruct r' as [[[h l] n] g].
Qed.
End TableRegisters.

(** ** What the start leaves *)

Section Spec.
Context {D : Type} (lapic : Z) `{Independent D lapic, !Tables D} (fuel : nat) (Hfuel : (0 < fuel)%nat) (idt : Z).
Implicit Types (s : machine D).

(** Memory and the I/O APIC are left alone. *)
Definition undisturbed s s' : Prop := mc_mem s' = mc_mem s /\ forall r, ioreg s' r = ioreg s r.

Lemma undisturbed_trans s1 s2 s3 : undisturbed s1 s2 -> undisturbed s2 s3 -> undisturbed s1 s3.
Proof. intros [E1 E2] [E3 E4]. split; [congruence|]. intros r. by rewrite E4, E2. Qed.

Lemma wp_lapicw_quiet i v s0 s (Q : unit -> machine D -> Prop) :
  undisturbed s0 s -> 0 <= i < 256 -> (forall s', undisturbed s0 s' -> Q tt s') -> wp (lapicw lapic i v) s Q.
Proof.
  intros Hs Hi HQ. unfold lapicw. apply wp_bind, wp_modify, wp_bind, wp_in32, wp_ret. apply HQ.
  eapply undisturbed_trans; [exact Hs|]. split; [done|].
  intros r. unfold ioreg. simpl. rewrite ind_lapic_in by done. by rewrite ind_lapic_out.
Qed.

Lemma wp_lapic_read i s0 s (Q : Z -> machine D -> Prop) :
  undisturbed s0 s -> 0 <= i < 256 -> (forall s', undisturbed s0 s' -> Q (u32 (mmio_in (lapic + 4 * i) (mc_dev s)).1) s') ->
  wp (in32 (lapic + 4 * i)) s Q.
Proof.
  intros Hs Hi HQ. apply wp_in32, HQ. eapply undisturbed_trans; [exact Hs|]. split; [done|].
  intros r. unfold ioreg. simpl. by rewrite ind_lapic_in.
Qed.

Ltac quiet := apply wp_bind; eapply wp_lapicw_quiet; [eassumption|by vm_compute|];
  match goal with U : undisturbed _ _ |- _ => clear U end; intros ? ?.

(** Setting up the local APIC of a processor: the loop that waits for its interrupt ends. *)
Lemma initlapic_quiet s0 s : undisturbed s0 s -> wp (__am_percpu_initlapic lapic fuel) s (fun _ s' => undisturbed s0 s').
Proof.
  intros U. unfold __am_percpu_initlapic. do 6 quiet. apply wp_bind. eapply wp_lapic_read; [eassumption|by vm_compute|].
  intros s1 U1. apply wp_bind. set (v := u32 _). clearbody v.
  assert (wp (if 4 <=? Z.land (Z.shiftr v 16) 0xFF then lapicw lapic PCINT MASKED else mret tt) s1 (fun _ s' => undisturbed s0 s')) as Hp.
  { destruct (4 <=? _); [by eapply wp_lapicw_quiet|by apply wp_ret]. }
  eapply wp_mono; [exact Hp|]. clear U1. intros ? s2 U2. cbn beta in U2. do 6 quiet. apply wp_bind. destruct fuel as [|k]; [lia|]. cbn [wait_delivery].
  apply wp_bind. eapply wp_lapic_read; [eassumption|by vm_compute|]. intros s3 U3. rewrite delivered. cbn [negb Z.eqb].
  apply wp_ret. by eapply wp_lapicw_quiet.
Qed.

Lemma initgdt_quiet tss gdt s0 s :
  undisturbed s0 s -> 0 <= tss < 2 ^ 32 ->
  wp (percpu_initgdt tss gdt) s (fun r s' => undisturbed s0 s' /\ __am_percpu_initgdt tss gdt = Some r).
Proof.
  intros U Ht. unfold percpu_initgdt, __am_percpu_initgdt. rewrite Z.shiftr_div_pow2, Z.div_small by lia. cbn [negb Z.eqb].
  apply wp_bind, wp_modify, wp_bind, wp_modify, wp_ret. split; [|done]. eapply undisturbed_trans; [exact U|]. split; [done|].
  intros r. unfold ioreg. simpl. by rewrite ind_tr, ind_gdt.
Qed.

Lemma masked_undisturbed s s' : undisturbed s s' -> all_masked s -> all_masked s'.
Proof. intros [_ U] Ha i Hi. rewrite !U. by apply Ha. Qed.

(** The whole of [__am_percpu_initirq]. *)
Lemma percpu_initirq_ready s :
  4 <= ioapic_last -> all_masked s -> wp (__am_percpu_initirq idt) s (fun _ s' => mc_mem s' = mc_mem s /\ irqs_ready s').
Proof.
  intros Hlast Ha. unfold __am_percpu_initirq. apply wp_bind. eapply wp_mono; [by apply initirq_spec|].
  intros ? s1 [M1 R1]. apply wp_modify. split; [done|]. intros i Hi. destruct (R1 i Hi) as (V & C & K).
  assert (forall r, ioreg (mk_machine (mc_mem s1) (load_idt idt (signed 16 (sizeof_GateDesc64 * Z.of_nat NR_IRQ)) (mc_dev s1))) r = ioreg s1 r) as E
    by (intros r; unfold ioreg; cbn [mc_dev]; by rewrite ind_idt).
  unfold int_vector, int_cpu, int_masked. rewrite !E. done.
Qed.

Lemma percpu_init_ready tss gdt s :
  4 <= ioapic_last -> all_masked s -> 0 <= tss < 2 ^ 32 ->
  wp (__am_percpu_init fuel idt lapic tss gdt) s (fun r s' =>
    mc_mem s' = mc_mem s /\ irqs_ready s' /\ __am_percpu_initgdt tss gdt = Some r).
Proof.
  intros Hlast Ha Ht. unfold __am_percpu_init. apply wp_bind.
  eapply wp_mono; [apply (initgdt_quiet tss gdt s s); [by split|done]|]. intros g s1 [U1 Eg].
  apply wp_bind. eapply wp_mono; [by apply (initlapic_quiet s)|]. intros ? s2 U2. cbn beta in U2.
  apply wp_bind. eapply wp_mono; [apply percpu_initirq_ready; [done|by eapply masked_undisturbed]|]. intros ? s3 [M3 R3].
  apply wp_ret. split; [|done]. destruct U2 as [M2 _]. congruence.
Qed.

(** All of it but the registers of the tables. *)
Lemma start_ready s end_ tss gdt units i conf ts :
  cmos_memory units -> 0 <= end_ < 2 ^ 40 -> units + 256 < 65536 -> firmware (mc_mem s) i conf lapic ts -> (length ts < fuel)%nat ->
  4 <= ioapic_last -> 0 <= tss < 2 ^ 32 ->
  wp (_start_c fuel idt end_ tss gdt) s (fun r s' => mc_mem s' = mc_mem s /\
    if load32 (mc_mem s) (BOOTREC_ADDR + 4) =? 0 then
      exists heap gdt', r = Some (heap, lapic, processors ts, gdt') /\
        (heap.1 mod 2 ^ 20 = 0 /\ end_ <= heap.1 < end_ + 2 ^ 20 /\ heap.2 = 16 * 2 ^ 20 + units * 65536) /\
        __am_percpu_initgdt tss gdt = Some gdt' /\ irqs_ready s'
    else r = None /\ s' = s).
Proof.
  intros Hc He Hu Hfw Hf Hlast Ht. unfold _start_c. apply wp_bind, wp_read; [done|]. simpl st_mem. unfold load32.
  destruct (Z.eqb_spec (load_le 4 (mc_mem s) (BOOTREC_ADDR + 4)) 0); cbn [negb]; [|by apply wp_ret].
  apply wp_bind. unfold __am_bootcpu_init. apply wp_bind. eapply wp_mono; [by apply (heap_init_spec end_ units)|].
  intros heap s1 (M1 & Hheap). apply wp_bind.
  assert (wp (__am_lapic_init fuel 0) s1 (fun r s2 => s2 = s1 /\ r = (lapic, processors ts))) as Hl.
  { destruct Hfw as [F1 F2 F3 [F4 F5] F6 F7 F8 F9]. rewrite <- M1 in *.
    pose proof (lapic_init_spec fuel (mc_mem s1) i conf ts F1 F2 F3 F4 F5 F6 F7 Hf) as E.
    destruct (Z.ltb_spec MAX_CPU (processors ts)); [lia|]. rewrite F8 in E.
    apply wp_eq with (lapic, processors ts) s1; [|done]. rewrite lapic_init_reads. cbn [st_mem machine_has_mem]. by rewrite E. }
  eapply wp_mono; [exact Hl|]. intros ? ? [-> ->].
  apply wp_bind. eapply wp_mono; [apply ioapic_init_spec|]. intros ? s2 [M2 R2].
  apply wp_bind. eapply wp_mono; [by apply percpu_init_ready|]. intros g s3 (M3 & R3 & Eg). apply wp_ret, wp_ret.
  split; [congruence|]. exists heap, g. done.
Qed.

(** C24: on a machine whose firmware lists at most 8 processors, [_start_c] on the boot
    processor returns and finds the heap (from the first MiB boundary behind the kernel to the
    end of memory), the address of the local APIC and the number of processors, the processor
    has loaded its descriptor table, its task segment and the interrupt table, and of the interrupts exactly the keyboard and the serial line
    are unmasked and go to processor 0, each interrupt with its own vector; memory is as it
    was. A processor that was started by another one goes on at once, with nothing changed. *)
Theorem boot_spec s end_ tss gdt units i conf ts :
  cmos_memory units -> 0 <= end_ < 2 ^ 40 -> units + 256 < 65536 -> firmware (mc_mem s) i conf lapic ts -> (length ts < fuel)%nat ->
  4 <= ioapic_last -> 0 <= tss < 2 ^ 32 ->
  wp (_start_c fuel idt end_ tss gdt) s (fun r s' => mc_mem s' = mc_mem s /\
    if load32 (mc_mem s) (BOOTREC_ADDR + 4) =? 0 then
      exists heap gdt', r = Some (heap, lapic, processors ts, gdt') /\
        (heap.1 mod 2 ^ 20 = 0 /\ end_ <= heap.1 < end_ + 2 ^ 20 /\ heap.2 = 16 * 2 ^ 20 + units * 65536) /\
        __am_percpu_initgdt tss gdt = Some gdt' /\ tables (mc_dev s') = loaded_tables idt gdt' /\ irqs_ready s'
    else r = None /\ s' = s).
Proof.
  intros Hc He Hu Hfw Hf Hlast Ht. pose proof (start_ready s end_ tss gdt units i conf ts Hc He Hu Hfw Hf Hlast Ht) as Hw.
  apply wp_done in Hw as (r & s' & E & M & Hr). eapply wp_eq; [exact E|]. split; [done|]. destruct (_ =? 0); [|done].
  destruct Hr as (h & g & -> & Hh & Hg & Hi). exists h, g. split; [done|]. split; [done|]. split; [done|]. split; [|done].
  by apply start_tables in E.
Qed.
End Spec.

(** ** A machine with two processors and 24 interrupts *)

(** The byte of the non-volatile memory that is selected, the I/O APIC, and the registers of
    the tables. *)
Record demo_machine : Type := mk_demo { dd_cmos : Z; dd_ioapic : Z * (Z -> Z); dd_tables : tabs }.

#[local] Instance start_ports : Ports demo_machine := {|
  port_in := fun w p d => (if dd_cmos d =? 0x34 then 0xf0 else 0x07, d);
  port_out := fun w p v d => if p =? 0x70 then mk_demo v (dd_ioapic d) (dd_tables d) else d |}.

#[local] Instance start_mmio : Mmio demo_machine := {|
  mmio_in := fun a d => (if a =? IOAPIC_ADDR + 16 then demo_ioapic_reg (dd_ioapic d) (dd_ioapic d).1 else 0, d);
  mmio_out := fun a v d =>
    let '(sel, f) := dd_ioapic d in
    if a =? IOAPIC_ADDR then mk_demo (dd_cmos d) (v, f) (dd_tables d)
    else if a =? IOAPIC_ADDR + 16 then mk_demo (dd_cmos d) (sel, fun r => if r =? sel then v else f r) (dd_tables d)
    else d |}.

#[local] Instance start_descriptors : Descriptors demo_machine := {|
  load_gdt := fun g n d => mk_demo (dd_cmos d) (dd_ioapic d) (mk_tabs (g, n) (tr (dd_tables d)) (idtr (dd_tables d)));
  load_tr := fun v d => mk_demo (dd_cmos d) (dd_ioapic d) (mk_tabs (gdtr (dd_tables d)) v (idtr (dd_tables d)));
  load_idt := fun a n d => mk_demo (dd_cmos d) (dd_ioapic d) (mk_tabs (gdtr (dd_tables d)) (tr (dd_tables d)) (a, n)) |}.

#[local, refine] Instance start_ioapic : IoApicDevice demo_machine := {|
  ioapic_sel := fun d => (dd_ioapic d).1; ioapic_reg := fun d => demo_ioapic_reg (dd_ioapic d); ioapic_last := 23 |}.
Proof.
  - lia.
  - done.
  - by intros [c [sel f] t].
  - done.
  - intros [c [sel f] t] v Hs r. unfold demo_ioapic_reg, REG_TABLE, REG_VER in *. simpl in *.
    destruct (Z.eqb_spec r 1), (Z.eqb_spec r sel); done || lia.
Defined.

#[local] Instance start_independent : Independent demo_machine 0xfee00000.
Proof.
  split; try done.
  - intros w p v d. simpl. by destruct (p =? 0x70).
  - intros i v [c [sel f] t] Hi. simpl. unfold IOAPIC_ADDR.
    destruct (Z.eqb_spec (0xfee00000 + 4 * i) 0xFEC00000); [lia|]. destruct (Z.eqb_spec (0xfee00000 + 4 * i) (0xFEC00000 + 16)); [lia|done].
Qed.

#[local, refine] Instance start_tables_kept : Tables demo_machine := {| tables := dd_tables |}.
Proof.
  - done.
  - intros w p v d. simpl. by destruct (p =? 0x70).
  - done.
  - intros a v [c [sel f] t]. simpl. by repeat case_match.
  - done.
  - done.
  - done.
Defined.

Lemma demo_firmware : firmware demo_table 2 0x100 0xfee00000 [0; 0; 1].
Proof.
  split; [lia| |reflexivity|by split|repeat split; reflexivity|reflexivity|reflexivity|by vm_compute].
  intros j Hj. assert (j = 0 \/ j = 1) as [->| ->] by lia; vm_compute; discriminate.
Qed.

Definition demo_boot_machine : machine demo_machine := mk_machine demo_table (mk_demo 0 (0, fun _ : Z => 0x12345) (mk_tabs ([], 0) 0 (0, 0))).

Definition null_gdt : list SegDesc := replicate 7 (X86.mk_seg 0 0 0 0 0 0 0 0 0 0 0 0 0).

Lemma boot_spec_witness :
  wp (_start_c 5 0x8000 0x123456 0x200000 null_gdt) demo_boot_machine (fun r s' => mc_mem s' = demo_table /\
    exists heap gdt', r = Some (heap, 0xfee00000, 2, gdt') /\
      (heap.1 mod 2 ^ 20 = 0 /\ 0x123456 <= heap.1 < 0x123456 + 2 ^ 20 /\ heap.2 = 16 * 2 ^ 20 + 0x07f0 * 65536) /\
      __am_percpu_initgdt 0x200000 null_gdt = Some gdt' /\ tables (mc_dev s') = loaded_tables 0x8000 gdt' /\ irqs_ready s').
Proof.
  apply (boot_spec 0xfee00000 5 ltac:(lia) 0x8000 demo_boot_machine 0x123456 0x200000 null_gdt
    0x07f0 2 0x100 [0; 0; 1]); [|lia|lia|exact demo_firmware|simpl; lia|simpl; lia|lia].
  intros d. split; [lia|]. split; reflexivity.
Defined.
