(* ===== verification/Nemu.v ===== *)
(** * The port to the NEMU emulator: am/src/x86/nemu/vme.c and cte.c

    A port that is only begun: [map], [unprotect], [kcontext], [ucontext], [ienabled] and [iset]
    are empty. What there is are the interrupt table, the dispatch of interrupts, and address
    spaces that share the kernel's directory. The memory areas of the emulator ([nemu.h]), the
    page allocator and the handler of the client are parameters. Pointers have 32 bits. *)

From stdpp Require Import prelude.
From S2P Require Import Prelude Mem KString X86 Cte Pages Vme.

(** ** Gates: x86.h, lines 121-131 and 211-213 *)

Definition STS_IG : Z := 14.

Record GateDesc32 : Type := mk_gate32 {
  g32_off_15_0 : Z; g32_cs : Z; g32_args : Z; g32_rsv1 : Z; g32_type : Z; g32_s : Z; g32_dpl : Z; g32_p : Z; g32_off_31_16 : Z;
}.

Definition gate32_fields (g : GateDesc32) : list (Z * Z) :=
  [(16, g32_off_15_0 g); (16, g32_cs g); (5, g32_args g); (3, g32_rsv1 g); (4, g32_type g); (1, g32_s g); (2, g32_dpl g);
   (1, g32_p g); (16, g32_off_31_16 g)].

Definition GATE32 (type cs entry dpl : Z) : GateDesc32 :=
  mk_gate32 (Z.land (u32 entry) 0xffff) cs 0 0 type 0 dpl 1 (Z.shiftr (u32 entry) 16).

(** Where the processor jumps. *)
Definition gate32_offset (x : Z) : Z := bits x 0 16 + 2 ^ 16 * bits x 48 16.

Lemma gate32_read type cs entry dpl (x := pack (gate32_fields (GATE32 type cs entry dpl))) :
  0 <= entry < 2 ^ 32 -> 0 <= cs < 2 ^ 16 -> 0 <= type < 16 -> 0 <= dpl < 4 ->
  gate32_offset x = entry /\ gate_selector x = cs /\ gate_kind x = type /\ gate_ring x = dpl /\ gate_present x = true.
Proof.
  intros He Hc Ht Hd. unfold gate32_offset, gate_selector, gate_kind, gate_ring, gate_present, x.
  read_field 0%nat 0. read_field 1%nat 16. read_field 4%nat 40. read_field 6%nat 45. read_field 7%nat 47. read_field 8%nat 48.
  simpl. rewrite (wrap_small 32 entry) by lia. rewrite mask16, Z.shiftr_div_pow2 by lia.
  rewrite !(wrap_small 16 (_ mod _)) by (apply Z.mod_pos_bound; lia). rewrite (wrap_small 16 (_ / _)) by (apply (div_range _ 16 16); lia).
  rewrite (wrap_small 16 cs), (wrap_small 4), (wrap_small 2) by lia. split_and!; try done. apply (glue entry 16). lia.
Qed.

(** ** The state *)

(** The allocator with its memory; [kas.ptr], [vme_enable], whether [user_handler] is set; the
    control registers and the interrupt table that is loaded. *)
Record nemu_state (St : Type) : Type := mk_nemu {
  nemu_pages : St; kas_ptr : Z; vme_enable : bool; has_handler : bool; nemu_cr3 : Z; nemu_cr0 : Z; nemu_idt : list GateDesc32;
}.
Arguments mk_nemu {St}. Arguments nemu_pages {St}. Arguments kas_ptr {St}. Arguments vme_enable {St}.
Arguments has_handler {St}. Arguments nemu_cr3 {St}. Arguments nemu_cr0 {St}. Arguments nemu_idt {St}.

(** arch/x86-nemu.h: the offsets of [cr3] and [irq]; [AddrSpace] with 32-bit pointers. *)
Definition ctx_cr3_off : Z := 44.
Definition ctx_irq_off : Z := 48.
Definition as_pgsize : Z := 0.
Definition as_start : Z := 4.
Definition as_end : Z := 8.
Definition as_ptr : Z := 12.

Definition USER_SPACE : Z * Z := (0x40000000, 0xc0000000).

Section Code.
Context {St : Type} `{PageSource St}.

#[export] Instance nemu_has_mem : HasMem (nemu_state St) := {|
  st_mem := fun s => st_mem (nemu_pages s);
  st_upd := fun f s => mk_nemu (st_upd f (nemu_pages s)) (kas_ptr s) (vme_enable s) (has_handler s) (nemu_cr3 s) (nemu_cr0 s) (nemu_idt s);
  st_mem_upd := fun f s => st_mem_upd f (nemu_pages s) |}.

Definition on_pages {A} (m : M St A) : M (nemu_state St) A := fun s =>
  match m (nemu_pages s) with
  | Done a p => Done a (mk_nemu p (kas_ptr s) (vme_enable s) (has_handler s) (nemu_cr3 s) (nemu_cr0 s) (nemu_idt s))
  | Fault e => Fault e
  end.

Definition nemu_set_cr3 (v : Z) : M (nemu_state St) unit :=
  modify (fun s => mk_nemu (nemu_pages s) (kas_ptr s) (vme_enable s) (has_handler s) v (nemu_cr0 s) (nemu_idt s)).

(** ** vme.c *)

(** Line 59-60. *)
Definition nemu_map (va pa prot : Z) : M (nemu_state St) unit := mret tt.

(** Lines 25-27. *)
Fixpoint map_segment (k : nat) (va end_ : Z) : M (nemu_state St) unit :=
  match k with
  | O => raise OutOfFuel
  | S k => if va <? end_ then _ ← nemu_map va va 0; map_segment k (u32 (va + pgsize)) end_ else mret tt
  end.

Fixpoint map_segments (fuel : nat) (segments : list (Z * Z)) : M (nemu_state St) unit :=
  match segments with
  | [] => mret tt
  | (start, end_) :: segments => _ ← map_segment fuel start end_; map_segments fuel segments
  end.

(** Lines 16-35. *)
Definition nemu_vme_init (fuel : nat) (segments : list (Z * Z)) : M (nemu_state St) bool :=
  ptr ← on_pages (pgalloc pgsize);
  _ ← modify (fun s => mk_nemu (nemu_pages s) ptr (vme_enable s) (has_handler s) (nemu_cr3 s) (nemu_cr0 s) (nemu_idt s));
  _ ← map_segments fuel segments;
  s ← get;
  _ ← nemu_set_cr3 (kas_ptr s);
  _ ← modify (fun s => mk_nemu (nemu_pages s) (kas_ptr s) true (has_handler s) (nemu_cr3 s) (Z.lor (nemu_cr0 s) CR0_PG) (nemu_idt s));
  mret true.

(** Lines 37-44. *)
Definition nemu_protect (as_ : Z) : M (nemu_state St) unit :=
  updir ← on_pages (pgalloc pgsize);
  _ ← write_le 4 as_ as_ptr updir;
  _ ← write_le 4 as_ as_start USER_SPACE.1;
  _ ← write_le 4 as_ as_end USER_SPACE.2;
  _ ← write_le 4 as_ as_pgsize pgsize;
  s ← get;
  _ ← memcpy updir (kas_ptr s) pgsize;
  mret tt.

(** Lines 49-51. *)
Definition __am_get_cur_as (c : Z) : M (nemu_state St) unit :=
  s ← get;
  write_le 4 c ctx_cr3_off (if vme_enable s then nemu_cr3 s else 0).

(** Lines 53-57. *)
Definition nemu_switch (c : Z) : M (nemu_state St) unit :=
  s ← get;
  if vme_enable s then
    cr3 ← read_le 4 c ctx_cr3_off;
    if negb (cr3 =? 0) then nemu_set_cr3 cr3 else mret tt
  else mret tt.

(** ** cte.c *)

(** The handler of the client, from an event and a context to a context. *)
Context (user_handler : Event -> Z -> M (nemu_state St) Z) (am_irq0 am_vecsys am_vectrap am_vecnull : Z).

(** Lines 17-29. *)
Definition nemu_irq_handle (c : Z) : M (nemu_state St) Z :=
  s ← get;
  if has_handler s then
    _ ← read_le 4 c ctx_irq_off;
    c ← user_handler (mk_event EVENT_ERROR 0 0) c;
    _ ← c_assert (negb (c =? 0));
    mret c
  else mret c.

(** The table of lines 32-43. *)
Definition nemu_idt_table : list GateDesc32 :=
  let idt := replicate 256 (GATE32 STS_TG (KSEL SEG_KCODE) am_vecnull DPL_KERN) in
  let idt := <[32%nat := GATE32 STS_IG (KSEL SEG_KCODE) am_irq0 DPL_KERN]> idt in
  let idt := <[0x80%nat := GATE32 STS_TG (KSEL SEG_KCODE) am_vecsys DPL_USER]> idt in
  <[0x81%nat := GATE32 STS_TG (KSEL SEG_KCODE) am_vectrap DPL_KERN]> idt.

(** Lines 31-51. [handler] says whether one is given. *)
Definition nemu_cte_init (handler : bool) : M (nemu_state St) bool :=
  _ ← modify (fun s => mk_nemu (nemu_pages s) (kas_ptr s) (vme_enable s) handler (nemu_cr3 s) (nemu_cr0 s) nemu_idt_table);
  mret true.
End Code.

(** ** What the port does *)

Section Spec.
Context {St : Type} `{PageSource St}.
Implicit Types (s : nemu_state St) (O : list Z).

(** The pages of [O] are handed out. *)
Definition pages_out s O : Prop := pg_inv (nemu_pages s) O.

(** The registers and variables of the port, without memory. *)
Definition regs s := (kas_ptr s, vme_enable s, has_handler s, nemu_cr3 s, nemu_cr0 s, nemu_idt s).

Lemma write_client n p off v s O (Q : unit -> nemu_state St -> Prop) :
  0 < p -> pages_out s O -> (forall x, inr (p + off) (Z.of_nat n) x -> in_pages O x \/ ~ pg_arena x) ->
  (forall s', pages_out s' O -> regs s' = regs s -> st_mem s' = store_le n (st_mem s) (p + off) v -> Q tt s') ->
  wp (write_le n p off v) s Q.
Proof.
  intros Hp Hinv Hx HQ. apply wp_write; [lia|]. apply HQ; [|done|exact (st_mem_upd (fun m => store_le n m (p + off) v) s)]. unfold pages_out. cbn. by apply pg_write_le.
Qed.

(** Bytes copied into a page by the client. *)
Lemma copy_client k O : forall d src s,
  0 < d -> 0 < src -> (d <= src \/ src + Z.of_nat k <= d) -> pages_out s O ->
  (forall x, inr d (Z.of_nat k) x -> in_pages O x \/ ~ pg_arena x) ->
  wp (copy_up k d src) s (fun _ s' => pages_out s' O /\ regs s' = regs s /\ block_copied (st_mem s) (st_mem s') d src (Z.of_nat k)).
Proof.
  induction k as [|k IH]; intros d src s Hd Hs Hov Hinv Hx; cbn [copy_up].
  - apply wp_ret. split; [done|]. split; [done|]. split; [done|lia].
  - apply wp_bind, wp_get8; [lia|]. apply wp_bind, wp_put8; [lia|]. set (s1 := st_upd _ s).
    set (c := load8 (st_mem s) src).
    assert (st_mem s1 = store8 (st_mem s) d c) as Em by exact (st_mem_upd (fun m => store8 m d c) s).
    eapply wp_mono; [apply (IH (d + 1) (src + 1) s1); try lia|].
    + unfold pages_out, s1. cbn. apply pg_write; [done|]. intros x Hnx. rewrite load8_store8.
      destruct (Z.eqb_spec x d) as [->|]; [|done]. destruct Hnx. apply Hx. unfold inr. lia.
    + intros x Hin. apply Hx. unfold inr in *. lia.
    + intros _ s2 (Hinv2 & Hr2 & Ho & Hb). split; [done|]. split; [done|]. rewrite Em in Ho, Hb. split.
      * intros x Hnx. rewrite Ho by (unfold inr in *; lia). rewrite load8_store8. destruct (Z.eqb_spec x d); [unfold inr in Hnx; lia|done].
      * intros i Hi. destruct (decide (i = 0)) as [->|].
        -- rewrite Ho by (unfold inr; lia). rewrite !Z.add_0_r, load8_store8, Z.eqb_refl. apply wrap_small, load8_range.
        -- replace (d + i) with (d + 1 + (i - 1)) by lia. rewrite Hb by lia. rewrite load8_store8.
           replace (src + 1 + (i - 1)) with (src + i) by lia. destruct (Z.eqb_spec (src + i) d); [lia|done].
Qed.
(** [protect] gives an address space a page of its own that holds the kernel's directory. *)
Theorem nemu_protect_spec s O as_ :
  pages_out s O -> kas_ptr s ∈ O -> (length O < pg_capacity)%nat -> (forall x, pg_arena x -> x < 2 ^ 32) ->
  0 < as_ -> (forall x, inr as_ 16 x -> ~ pg_arena x) ->
  wp (nemu_protect as_) s (fun _ s' => exists p,
    (p ∉ O) /\ pages_out s' (p :: O) /\ regs s' = regs s /\ load32 (st_mem s') (as_ + as_ptr) = p /\
    load32 (st_mem s') (as_ + as_start) = 0x40000000 /\ load32 (st_mem s') (as_ + as_end) = 0xc0000000 /\
    (forall i, 0 <= i < pgsize -> load8 (st_mem s') (p + i) = load8 (st_mem s) (kas_ptr s + i))).
Proof.
  intros Hinv Hkas Hcap Hsmall Has Hout. unfold nemu_protect. pose proof (pg_alloc_spec _ _ Hinv) as Halloc.
  destruct (proj1 (wp_done _ _ _) Halloc) as (p & q & E & Hsame & Hq & Hp0). specialize (Hp0 Hcap). destruct (Z.eqb_spec p 0); [done|].
  pose proof (pg_valid _ _ Hq) as (HF & HN & Har). apply NoDup_cons in HN as [HpO HN]. pose proof (pg_inv_valid _ _ p Hq ltac:(left)) as [Hp Hpm].
  pose proof (pg_inv_valid _ _ (kas_ptr s) Hinv Hkas) as [Hk Hkm].
  assert (forall x, inr p pgsize x -> in_pages (p :: O) x) as Hpage by (intros x Hx; exists p; split; [left|exact Hx]).
  assert (p < 2 ^ 32) by (apply Hsmall, Har, Hpage; unfold inr, pgsize; lia).
  apply wp_bind. eapply wp_eq; [unfold on_pages; rewrite E; reflexivity|]. set (s0 := mk_nemu q _ _ _ _ _ _).
  assert (forall off x, 0 <= off <= 12 -> inr (as_ + off) (Z.of_nat 4) x -> in_pages (p :: O) x \/ ~ pg_arena x) as Hfield.
  { intros off x Ho Hx. right. apply Hout. unfold inr in *. lia. }
  unfold as_ptr, as_start, as_end, as_pgsize.
  apply wp_bind, (write_client 4 as_ 12 p s0 (p :: O)); [done|exact Hq|intros x; apply Hfield; lia|]. intros s1 I1 R1 M1.
  apply wp_bind, (write_client 4 as_ 4 _ s1 (p :: O)); [done|done|intros x; apply Hfield; lia|]. intros s2 I2 R2 M2.
  apply wp_bind, (write_client 4 as_ 8 _ s2 (p :: O)); [done|done|intros x; apply Hfield; lia|]. intros s3 I3 R3 M3.
  apply wp_bind, (write_client 4 as_ 0 _ s3 (p :: O)); [done|done|intros x; apply Hfield; lia|]. intros s4 I4 R4 M4.
  apply wp_bind, wp_get, wp_bind. assert (regs s4 = regs s) as Rs by (by rewrite R4, R3, R2, R1).
  assert (kas_ptr s4 = kas_ptr s) as -> by (unfold regs in Rs; congruence).
  assert (p <> kas_ptr s) as Hne by (intros ->; done).
  eapply wp_mono; [apply (copy_client (Z.to_nat pgsize) (p :: O) p (kas_ptr s) s4); [lia|lia| |done|]|].
  { unfold pgsize in *. apply Z.mod_divide in Hpm as [a ->], Hkm as [b ->]; lia. }
  { intros x Hx. left. apply Hpage. exact Hx. }
  intros _ s5 (I5 & R5 & Ho & Hb). apply wp_ret. exists p. split; [done|]. split; [done|]. split; [by rewrite R5|].
  assert (forall off, 0 <= off <= 12 -> load32 (st_mem s5) (as_ + off) = load32 (st_mem s4) (as_ + off)) as Hkeep.
  { intros off Hoff. eapply only_in_load; [exact Ho|]. intros x Hx Hx'. apply (Hout x), Har, Hpage; [unfold inr; lia|exact Hx']. }
  rewrite !Hkeep, M4, M3, M2, M1 by lia. split_and!.
  - change (store_le 4) with store32. mem_simpl. apply wrap_small. lia.
  - change (store_le 4) with store32. mem_simpl. done.
  - change (store_le 4) with store32. mem_simpl. done.
  - intros i Hi. rewrite Hb by (unfold pgsize in *; lia).
    assert (in_pages O (kas_ptr s + i)) as HkO by (exists (kas_ptr s); split; [done|unfold pgsize in *; lia]).
    assert (pg_arena (kas_ptr s + i)) as Hka by (apply Har; eapply in_pages_sub; [|exact HkO]; by intros ? ?; right).
    assert (forall off m v, 0 <= off <= 12 -> load8 (store_le 4 m (as_ + off) v) (kas_ptr s + i) = load8 m (kas_ptr s + i)) as Hst.
    { intros off m v Hoff. apply store_le_outside. intros Hx. apply (Hout (kas_ptr s + i)); [unfold inr; lia|done]. }
    rewrite M4, M3, M2, M1, !Hst by lia. apply Hsame. by left.
Qed.

(** A context that was given the current address space brings it back, whatever was loaded in
    between; without virtual memory nothing is loaded. *)
Theorem nemu_switch_back s c other :
  0 < c -> 0 <= nemu_cr3 s < 2 ^ 32 -> (vme_enable s = true -> nemu_cr3 s <> 0) ->
  wp (_ ← __am_get_cur_as c; _ ← (if vme_enable s then nemu_set_cr3 other else mret tt); nemu_switch c) s
    (fun _ s' => nemu_cr3 s' = nemu_cr3 s).
Proof.
  intros Hc Hr Hne. unfold __am_get_cur_as, nemu_switch. apply wp_bind, wp_bind, wp_get, wp_write; [lia|].
  destruct (vme_enable s) eqn:Ev.
  - specialize (Hne eq_refl). apply wp_bind, wp_modify, wp_bind, wp_get. cbn [vme_enable]. cbn [st_upd nemu_has_mem vme_enable].
    rewrite Ev. apply wp_bind, wp_read; [lia|]. cbn [st_mem st_upd nemu_has_mem nemu_pages kas_ptr]. rewrite st_mem_upd, load_store_le.
    rewrite Z.mod_small by (cbn; lia). destruct (Z.eqb_spec (nemu_cr3 s) 0); [done|]. by apply wp_modify.
  - apply wp_bind, wp_ret, wp_bind, wp_get. cbn [st_upd nemu_has_mem vme_enable]. rewrite Ev. by apply wp_ret.
Qed.

(** The interrupt table as the processor reads it: four entry points in the kernel's segment,
    the system call alone open to user mode. *)
Theorem nemu_cte_init_spec (am_irq0 am_vecsys am_vectrap am_vecnull : Z) handler s :
  Forall (fun e => 0 <= e < 2 ^ 32) [am_irq0; am_vecsys; am_vectrap; am_vecnull] ->
  wp (nemu_cte_init am_irq0 am_vecsys am_vectrap am_vecnull handler) s (fun r s' =>
    r = true /\ has_handler s' = handler /\ length (nemu_idt s') = 256%nat /\
    forall id g, nemu_idt s' !! id = Some g -> let x := pack (gate32_fields g) in
      gate32_offset x = (if decide (id = 32%nat) then am_irq0 else if decide (id = 0x80%nat) then am_vecsys
                         else if decide (id = 0x81%nat) then am_vectrap else am_vecnull) /\
      gate_selector x = KSEL SEG_KCODE /\ gate_present x = true /\
      gate_kind x = (if decide (id = 32%nat) then STS_IG else STS_TG) /\
      gate_ring x = (if decide (id = 0x80%nat) then DPL_USER else DPL_KERN)).
Proof.
  intros HF. rewrite !Forall_cons in HF. destruct HF as (Hi & Hs & Ht & Hn & _).
  unfold nemu_cte_init. apply wp_bind, wp_modify, wp_ret. cbn [has_handler nemu_idt]. split; [done|]. split; [done|]. split; [done|].
  intros id g Hg. unfold nemu_idt_table in Hg.
  assert (forall type entry dpl, 0 <= entry < 2 ^ 32 -> 0 <= type < 16 -> 0 <= dpl < 4 ->
    let x := pack (gate32_fields (GATE32 type (KSEL SEG_KCODE) entry dpl)) in
    gate32_offset x = entry /\ gate_selector x = KSEL SEG_KCODE /\ gate_kind x = type /\ gate_ring x = dpl /\ gate_present x = true) as HG
    by (intros; apply gate32_read; [done|by vm_compute|done|done]).
  destruct (decide (id = 0x81%nat)) as [->|].
  { rewrite list_lookup_insert_eq in Hg by (rewrite ?length_insert, length_replicate; lia). injection Hg as <-. destruct (HG STS_TG am_vectrap DPL_KERN) as (? & ? & ? & ? & ?);
      [done|by vm_compute|by vm_compute|]. by split_and!. }
  rewrite list_lookup_insert_ne in Hg by done. destruct (decide (id = 0x80%nat)) as [->|].
  { rewrite list_lookup_insert_eq in Hg by (rewrite ?length_insert, length_replicate; lia). injection Hg as <-. destruct (HG STS_TG am_vecsys DPL_USER) as (? & ? & ? & ? & ?);
      [done|by vm_compute|by vm_compute|]. by split_and!. }
  rewrite list_lookup_insert_ne in Hg by done. destruct (decide (id = 32%nat)) as [->|].
  { rewrite list_lookup_insert_eq in Hg by (rewrite ?length_insert, length_replicate; lia). injection Hg as <-. destruct (HG STS_IG am_irq0 DPL_KERN) as (? & ? & ? & ? & ?);
      [done|by vm_compute|by vm_compute|]. by split_and!. }
  rewrite list_lookup_insert_ne in Hg by done. apply lookup_replicate in Hg as [-> _].
  destruct (HG STS_TG am_vecnull DPL_KERN) as (? & ? & ? & ? & ?); [done|by vm_compute|by vm_compute|]. by split_and!.
Qed.

(** Every interrupt is an error to the handler, whose context goes on; a handler that gives
    none stops the system. *)
Theorem nemu_irq_handle_spec (user_handler : Event -> Z -> M (nemu_state St) Z) s c r :
  0 < c -> has_handler s = true -> (exists s', user_handler (mk_event EVENT_ERROR 0 0) c s = Done r s') ->
  (r <> 0 -> wp (nemu_irq_handle user_handler c) s (fun r' _ => r' = r)) /\
  (r = 0 -> nemu_irq_handle user_handler c s = Fault AssertFail).
Proof.
  intros Hc Hh (s' & E). unfold nemu_irq_handle. split.
  - intros Hr. apply wp_bind, wp_get. rewrite Hh. apply wp_bind, wp_read; [lia|]. apply wp_bind. eapply wp_eq; [exact E|].
    apply wp_bind, wp_assert; [by destruct (Z.eqb_spec r 0)|]. by apply wp_ret.
  - intros ->. unfold mbind, M_bind, get. rewrite Hh. unfold read_le. destruct (Z.eqb_spec c 0); [lia|]. unfold gets. by rewrite E.
Qed.
End Spec.

(** Pages of an allocator at 64 KiB, the first of which is the kernel's directory; the address
    space lies in front of it. *)
Example nemu_protect_demo :
  let s := mk_nemu (mk_bump (store_le 4 (fun _ => 0) 0x10000 0x55) 0x11000 []) 0x10000 true false 0x10000 0 [] in
  match nemu_protect (H0 := bump_source 0x10000 0x20000) 0x100 s with
  | Done _ s' => load32 (st_mem s') (0x100 + as_ptr) = 0x11000 /\ load32 (st_mem s') 0x11000 = 0x55
  | Fault _ => False
  end.
Proof. vm_compute. done. Qed.
